(* ===== verification/_CoqProject ===== *)
-Q . S2P
Prelude.v
RbTree.v
RbSpec.v
RbInsert.v
RbBalance.v
RbSearch.v
RbProofs.v
RbTheorems.v
RbErase.v
RbUnlink.v
RbRemove.v
RbShape.v
Memory.v
Klib.v
KlibProofs.v
KlibTheorems.v
Mem.v
MemProofs.v
MemTheorems.v
Vm.v
VmProofs.v
VmTheorems.v
Mmap.v
MmapRef.v
MmapRegions.v
MmapFault.v
MmapFork.v
MmapDemo.v
Lock.v
LockProofs.v
LockTheorems.v
Console.v
ConsoleProofs.v
Uart.v
Input.v
Virtq.v
VirtioInput.v
VirtioDisk.v
VirtioDiskTheorems.v
Gpu.v
GpuQueue.v
GpuProofs.v
GpuBoot.v
GpuTheorems.v
Bio.v
BioProofs.v
Fs.v
FsProofs.v
FsTheorems.v
BioFs.v
Blocks.v
FsDir.v
Mkfs.v
MkfsProofs.v
MkfsDirs.v
MkfsFiles.v
MkfsTheorems.v
Monitor.v
Sysfile.v
SysfileProofs.v
SysfileTheorems.v
Exec.v
ExecTheorems.v
Shell.v
ShellProofs.v
ShellGrammar.v
ShellTheorems.v
Ulib.v
UlibTheorems.v
Game.v
GameTheorems.v
Proc.v
ProcLogic.v
ProcInv.v
ProcProofs.v
ProcExit.v
ProcTheorems.v
Hart.v
Trap.v
TrapTheorems.v
