(* ===== verification/Prelude.v ===== *)
(** * zrhos: a verification development

    zrhos is a small teaching operating system for RISC-V: a kernel in C
    (src/kernel) that boots on several harts, pages its memory, schedules
    tasks, drives virtio devices and a serial line, keeps a file system on a
    disk, and runs user programs (src/user): a shell, a library and a game.
    This development models the C code routine by routine and proves what the
    parts promise to each other and to their users.

    ** How the code is modelled

    A C routine is a Rocq function of the same name in the state monad [M] of
    this file.  It returns ([Done]), stops in the kernel's [panic] ([Panic]),
    does what C does not define or dereferences a bad pointer ([Fault]), or
    waits for a lock that its own caller holds ([Blocked]).  Integers are [Z]
    with the wrap-around of their C type written out ([u32], [s32], ...).
    Loops that are not structural run on fuel and give [NoFuel] when it does
    not suffice; fuels are generous functions of the input or state, and the
    theorems either show that they suffice or hold for every fuel:
    - strings: [S (size m)], no string of the memory is longer;
    - page ranges: [S (S (sz / PGSIZE))] turns; page tables have depth 3;
    - descriptor chains: 65, for queues of 64 descriptors;
    - searches in a red-black tree: more than its number of nodes;
    - files: [io_fuel n], more than the blocks of [n] bytes;
    - the shell's parser: [4 * (length + 1)].
    Where the code is interrupted or interleaved (locks, drivers, tasks) the
    component is a step relation, and the theorems are about all its runs.

    Code of another component, of a device or of the user's side is an
    interface: a type class whose fields are the operations and whose laws
    are what is documented of them.  Each has an instance, and each theorem
    with hypotheses has a run at a concrete input after it.

    ** The files

    Data structures and memory
    - [RbTree]: kernel/rbtree.c on a store of nodes; [RbSpec], [RbInsert],
      [RbBalance], [RbSearch], [RbErase], [RbUnlink]: trees, their
      representation, the loops; [RbProofs], [RbTheorems], [RbRemove]: every operation against the sorted listing;
      [RbShape]: the same without the order, for keys that change in place.
    - [Memory]: bytes, words and strings in memory.
    - [Klib], [KlibProofs], [KlibTheorems]: kernel/klib.c.
    - [Mem], [MemProofs], [MemTheorems]: kernel/mem.c.
    - [Vm], [VmProofs], [VmTheorems]: kernel/vm.c, over the page allocator
      [PageAlloc]; page tables are bytes in memory.  [kvm_inithart] is in [Hart].
    - [Mmap]: kernel/mmap.c, over [RbTree], [Vm] and the block allocator
      [BlockAlloc]; [MmapRef] the reference counts, [MmapRegions]
      lookup and new regions, [MmapFault] page faults, [MmapFork] fork,
      [MmapDemo] a concrete state.

    Harts, traps and tasks
    - [Lock], [LockProofs], [LockTheorems]: kernel/lock.c: [push_off], the
      spin lock access by access, the sleep lock, the semaphore.
    - [Hart]: control registers (platform.h), start.c, plic.c, main.c; [Trap],
      [TrapTheorems]: trap.c and syscall.c over the handlers [Kernel].
    - [Proc]: kernel/proc.c as transitions between context switches, over the
      other components [Rest]; [ProcLogic] a program logic for them, [ProcInv]
      the invariant, [ProcProofs], [ProcExit], [ProcTheorems].

    Devices
    - [Console], [ConsoleProofs]: console.c; [Uart]: uart.c over the 16550
      [Uart].
    - [Virtq]: virtio.h, the registers, rings and set-up that three drivers
      share; [Input]: keyboard.c and the interrupt of virtio_input.c;
      [VirtioInput]: its set-up, with the device and the readers.
    - [VirtioDisk], [VirtioDiskTheorems]: virtio_disk.c
      with its device.
    - [Gpu], [GpuQueue], [GpuProofs], [GpuBoot], [GpuTheorems]:
      virtio_gpu.c with the display [Display]; [Monitor]: monitor.c.

    Files and programs
    - [Bio], [BioProofs]: bio.c over the disk [BlockDev].
    - [Fs], [FsProofs], [FsTheorems]: fs.c over the cache as it is seen
      through [bread], with the user's memory behind [UserCopy]; [BioFs]: what
      bio.c does to buffers is what [Fs] sees; [FsDir]: names and paths.
    - [Mkfs]: mkfs/mkfs.cpp, the tool that makes the disk image, on the blocks
      and entries of [Blocks]; [MkfsProofs], [MkfsDirs], [MkfsFiles],
      [MkfsTheorems]: the image that it writes, read by [Fs].
    - [Sysfile], [SysfileProofs], [SysfileTheorems]: file.c and
      sysfile.c over [Fs], [UserStr] and the device switch [DevSw].
    - [Exec], [ExecTheorems]: exec.c and sys_exec over [Fs] and [Mmap].
    - [Shell], [ShellProofs], [ShellGrammar], [ShellTheorems]: user/sh.c.
    - [Ulib], [UlibTheorems]: user/ulib.c, ls.c, test.c, main of initcode.c.
    - [Game], [GameTheorems]: user/game.c.

    ** What is proved

    - The red-black tree's insertion, searches and erasure refine operations
      on a sorted list and keep the tree balanced; the allocator serves small
      requests from their class; [vm_map] and the user copies act on the
      translation of addresses exactly as meant, on every branch; a page table
      that is freed goes back to the allocator page by page, each once.
    - Regions that the kernel places do not overlap one another; page faults
      map what the region says; fork shares pages copy-on-write.  Each takes
      from the allocator exactly the pages it needs, and panics exactly when
      they are not there.
    - The spin lock excludes, the sleep lock loses no wake-up, the semaphore
      is a first-in first-out counter.  Traps return to the program they
      interrupted.  In all runs with up to a million forks and exits the task
      table's invariant holds, no exiting child is lost, and the kernel panics
      on its locks only, and always, when a component outside proc.c misuses
      them: takes a lock it has, frees one it has not, or sleeps with one.
    - The console is a line editor.  The disk and display drivers keep their
      descriptors apart and complete each request once, under any order of
      interrupts; the disk driver panics on an error status of the device, and
      only then.  The keyboard gets every event, up to the 65472nd.
    - The buffer cache is coherent and recycles the least recently used
      buffer, and does for fs.c what [Fs] takes it to do; reads give the bytes
      of the file, and every file of the image that mkfs writes is found by its
      name and read back; reference counts of open files are exact; a
      write to a read-only file takes the file system's semaphore for good;
      exec puts the file's bytes and the arguments where the new program
      expects them, and leaves the task at its entry or stops the machine.
    - The shell's parser ends on all inputs and inverts printing; the printing
      of the kernel and of the user library is what its formats mean; ls shows
      the names of a directory; the game keeps to its board.
    Where the code does not do what it means to, a theorem says what it does
    instead (calls that hang, lost results, reads past arrays); the findings
    of the manifest point to the lines.

    ** Not modelled

    - The assembly (entry.S, kernelvec.S, trampoline.S, swtch.S, usyscall.S):
      it needs a machine semantics; [Hart], [Trap] and [Proc] say what they
      take it to do.
    - mandelbrot.c, a floating-point demo that nothing calls; the test routines
      of main.c and initcode.c, which nothing calls; prototypes.
    - Messages that a driver or handler prints for the operator, and time.
    - Each component is modelled against interfaces of the others, not in one
      machine.  [BioFs] closes the one between fs.c and bio.c; the instances
      that would close [Rest] over [Mmap], [Sysfile] and [Mem], or [BlockDev]
      over [VirtioDisk], are not built.
    - Some routines are defined without a theorem of their own: in vm.c
      [copy_pagetable], [copyinstr], [fetchaddr], [fetchstr] and [kvm_init], in
      fs.c [dirlink] and [create] (their defects are findings).  That exec's
      new image is untouched by the destruction of the old one is not proved. *)
From Stdlib Require Export ZArith Lia.
From stdpp Require Export base tactics option numbers strings gmap list.

#[export] Set Warnings "-clear-no-such-hyp".
#[global] Set Default Goal Selector "!".
#[global] Open Scope Z_scope.

(** ** Machine integers

    The C integer types of RV64 are integers with their wrap-around written
    out: [u8], [u16], [u32], [u64] reduce into the unsigned range, [s32] is a
    two's complement [int]. *)

Definition u8 (z : Z) : Z := z mod 2 ^ 8.
Definition u16 (z : Z) : Z := z mod 2 ^ 16.
Definition u32 (z : Z) : Z := z mod 2 ^ 32.
Definition u64 (z : Z) : Z := z mod 2 ^ 64.
Definition s8 (z : Z) : Z := (z + 2 ^ 7) mod 2 ^ 8 - 2 ^ 7.
Definition s32 (z : Z) : Z := (z + 2 ^ 31) mod 2 ^ 32 - 2 ^ 31.

(** ** Outcomes and the state monad

    A kernel routine either returns, stops in [panic] (which prints its
    message and loops for ever), performs an access that the C program does
    not define (a bad pointer or an index outside its array), runs out of the
    fuel that bounds a loop of the model, or waits for a lock or semaphore that
    its own caller holds. *)

Inductive result (A : Type) : Type :=
| Done (a : A)
| Panic (msg : string)
| Fault
| NoFuel
| Blocked.

Arguments Done {A} a.
Arguments Panic {A} msg.
Arguments Fault {A}.
Arguments NoFuel {A}.
Arguments Blocked {A}.

Definition M (S A : Type) : Type := S -> result (A * S).

Definition ret {S A : Type} (a : A) : M S A := fun s => Done (a, s).

Definition bind {S A B : Type} (m : M S A) (k : A -> M S B) : M S B :=
  fun s => match m s with
           | Done (a, s') => k a s'
           | Panic msg => Panic msg
           | Fault => Fault
           | NoFuel => NoFuel
           | Blocked => Blocked
           end.

Definition get {S : Type} : M S S := fun s => Done (s, s).
Definition put {S : Type} (s : S) : M S unit := fun _ => Done (tt, s).
Definition gets {S A : Type} (f : S -> A) : M S A := fun s => Done (f s, s).
Definition modify {S : Type} (f : S -> S) : M S unit := fun s => Done (tt, f s).
Definition panic {S A : Type} (msg : string) : M S A := fun _ => Panic msg.
Definition fault {S A : Type} : M S A := fun _ => Fault.
Definition nofuel {S A : Type} : M S A := fun _ => NoFuel.
Definition blocked {S A : Type} : M S A := fun _ => Blocked.

Declare Scope c_scope.
Delimit Scope c_scope with c.
Notation "x <- m ;; k" := (bind m (fun x => k))
  (at level 20, m at level 99, k at level 200, only parsing) : c_scope.
Notation "' p <- m ;; k" := (bind m (fun x => match x with p => k end))
  (at level 20, p pattern, m at level 99, k at level 200, only parsing) : c_scope.
Notation "m ;;; k" := (bind m (fun _ => k))
  (at level 100, k at level 200, right associativity, only parsing) : c_scope.
#[global] Open Scope c_scope.

(** [when b m] is C's [if(b) m;]. *)
Definition when {S : Type} (b : bool) (m : M S unit) : M S unit :=
  if b then m else ret tt.

(** [zoom g p f]: the computation [f] on a part of the state. *)
Definition zoom {S T R : Type} (g : S -> T) (p : T -> S -> S) (f : M T R) : M S R := fun s =>
  match f (g s) with
  | Done (r, t) => Done (r, p t s)
  | Panic msg => Panic msg
  | Fault => Fault
  | NoFuel => NoFuel
  | Blocked => Blocked
  end.

(** *** Laws of the monad *)

Section MonadLaws.
Context {S A B C : Type}.

Lemma bind_ret (a : A) (k : A -> M S B) s : bind (ret a) k s = k a s.
Proof. reflexivity. Qed.

Lemma bind_assoc (m : M S A) (f : A -> M S B) (g : B -> M S C) s :
  bind (bind m f) g s = bind m (fun a => bind (f a) g) s.
Proof. unfold bind. by destruct (m s) as [[a s']| | | |]. Qed.

Lemma bind_gets (f : S -> A) (k : A -> M S B) s : bind (gets f) k s = k (f s) s.
Proof. reflexivity. Qed.

Lemma bind_get (k : S -> M S B) s : bind get k s = k s s.
Proof. reflexivity. Qed.

Lemma bind_modify (f : S -> S) (k : unit -> M S B) s : bind (modify f) k s = k tt (f s).
Proof. reflexivity. Qed.

Lemma bind_done (m : M S A) (k : A -> M S B) s a s' :
  m s = Done (a, s') -> bind m k s = k a s'.
Proof. intros H. unfold bind. by rewrite H. Qed.

Lemma bind_fault (m : M S A) (k : A -> M S B) s : m s = Fault -> bind m k s = Fault.
Proof. intros H. unfold bind. by rewrite H. Qed.

Lemma bind_panic (m : M S A) (k : A -> M S B) s msg :
  m s = Panic msg -> bind m k s = Panic msg.
Proof. intros H. unfold bind. by rewrite H. Qed.

Lemma bind_inv (m : M S A) (k : A -> M S B) s b s' :
  bind m k s = Done (b, s') -> exists a s1, m s = Done (a, s1) /\ k a s1 = Done (b, s').
Proof. unfold bind. destruct (m s) as [[a s1]| | | |]; [eauto|done..]. Qed.

Lemma bind_ext (m : M S A) (k1 k2 : A -> M S B) s :
  (forall a s', k1 a s' = k2 a s') -> bind m k1 s = bind m k2 s.
Proof. intros H. unfold bind. destruct (m s) as [[a s']| | | |]; [apply H|done..]. Qed.

End MonadLaws.

Lemma done_inv {S A} (a b : A) (s t : S) : Done (a, s) = Done (b, t) -> a = b /\ s = t.
Proof. by intros [= -> ->]. Qed.

(** ** Automation

    [monad] executes the primitives of the monad; [byte] knows the ranges of
    machine integers. *)
Create HintDb monad.
#[export] Hint Rewrite @bind_ret @bind_gets @bind_get @bind_modify @bind_assoc : monad.
Create HintDb byte discriminated.

(** [lia] with quotients and remainders. *)
Ltac zdiv := Z.to_euclidean_division_equations; lia.

Lemma u32_range z : 0 <= u32 z < 2 ^ 32.
Proof. apply Z.mod_pos_bound. lia. Qed.

Lemma u8_range z : 0 <= u8 z < 256.
Proof. apply (Z.mod_pos_bound z 256). lia. Qed.

Lemma u64_range z : 0 <= u64 z < 2 ^ 64.
Proof. apply Z.mod_pos_bound. lia. Qed.
#[export] Hint Resolve u8_range u32_range u64_range : byte.

Lemma u32_add a b : u32 (u32 a + b) = u32 (a + b).
Proof. unfold u32. apply Zplus_mod_idemp_l. Qed.

(** An index of a ring whose size divides 2^32 does not see the wrap-around. *)
Lemma u32_mod z n : (n | 2 ^ 32) -> 0 < n -> u32 z mod n = z mod n.
Proof.
  intros [q Hq] Hn. unfold u32. rewrite Hq, Z.mul_comm.
  rewrite Z.rem_mul_r; [|lia|nia].
  rewrite (Z.mul_comm n ((z / n) mod q)), Z.mod_add, Z.mod_mod; lia.
Qed.

(** [arr_get] and [arr_set]: an access to a C array inside its bounds. *)
Definition arr_get {A} (l : list A) (i : Z) : option A := if i <? 0 then None else l !! Z.to_nat i.
Definition arr_set {A} (l : list A) (i : Z) (x : A) : list A := <[Z.to_nat i := x]> l.
