(* ===== verification/RbTree.v ===== *)
(** * The red-black tree of [kernel/rbtree.c], as written

    Nodes live in a store indexed by their address; a routine of the C file
    is a computation that reads and writes the fields of nodes through their
    addresses, so aliasing, the sentinel head node (parent: the root, left:
    the leftmost node, right: the rightmost node) and every pointer update
    are those of the source.  A field access through an address that holds no
    node is a [Fault].  The comparison function is a parameter on the data
    the nodes point to ([rb->_impl._comp] with its extra argument). *)
From S2P Require Import Prelude.

Inductive color := RED | BLACK.

#[export] Instance color_eq_dec : EqDecision color.
Proof. solve_decision. Defined.

Section RbTree.
Context {D : Type}.
Variable comp : D -> D -> bool.

(** [struct rb_node]; the head's [data] is never initialised, hence the
    option. *)
Record rb_node := mkNode {
  _parent : Z;
  _left : Z;
  _right : Z;
  _color : color;
  _isnil : bool;
  data : option D
}.

(** [struct rb_tree], with the store its pointers refer to.  [t_head] is the
    address of the embedded head node. *)
Record rb_tree := mkTree {
  t_nodes : gmap Z rb_node;
  t_head : Z;
  t_multi : bool;
  t_size : Z
}.

(** *** Field accesses *)

Definition rd {A} (f : rb_node -> A) (p : Z) : M rb_tree A := fun s =>
  match t_nodes s !! p with
  | Some n => Done (f n, s)
  | None => Fault
  end.

Definition wr (g : rb_node -> rb_node) (p : Z) : M rb_tree unit := fun s =>
  match t_nodes s !! p with
  | Some n => Done (tt, mkTree (<[p := g n]> (t_nodes s)) (t_head s) (t_multi s) (t_size s))
  | None => Fault
  end.

Definition set_parent (p v : Z) : M rb_tree unit :=
  wr (fun n => mkNode v (_left n) (_right n) (_color n) (_isnil n) (data n)) p.
Definition set_left (p v : Z) : M rb_tree unit :=
  wr (fun n => mkNode (_parent n) v (_right n) (_color n) (_isnil n) (data n)) p.
Definition set_right (p v : Z) : M rb_tree unit :=
  wr (fun n => mkNode (_parent n) (_left n) v (_color n) (_isnil n) (data n)) p.
Definition set_color (p : Z) (c : color) : M rb_tree unit :=
  wr (fun n => mkNode (_parent n) (_left n) (_right n) c (_isnil n) (data n)) p.

Definition set_size (z : Z) : M rb_tree unit :=
  modify (fun s => mkTree (t_nodes s) (t_head s) (t_multi s) (u64 z)).

Definition is_red (c : color) : bool := bool_decide (c = RED).

Definition rb_head : M rb_tree Z := gets t_head.
Definition impl_root : M rb_tree Z := h <- rb_head;; rd _parent h.
Definition impl_lmst : M rb_tree Z := h <- rb_head;; rd _left h.
Definition impl_rmst : M rb_tree Z := h <- rb_head;; rd _right h.
Definition set_root (v : Z) : M rb_tree unit := h <- rb_head;; set_parent h v.
Definition set_lmst (v : Z) : M rb_tree unit := h <- rb_head;; set_left h v.
Definition set_rmst (v : Z) : M rb_tree unit := h <- rb_head;; set_right h v.

(** A bound for the loops of the file: each visits distinct nodes. *)
Definition loop_fuel : M rb_tree nat := gets (fun s => S (S (base.size (t_nodes s)))).

(** *** Traversal *)

Fixpoint node_min_loop (fuel : nat) (node : Z) : M rb_tree Z :=
  match fuel with
  | O => nofuel
  | S fuel =>
    l <- rd _left node;; nil <- rd _isnil l;;
    if nil : bool then ret node else node_min_loop fuel l
  end.
Definition node_min (node : Z) : M rb_tree Z :=
  fuel <- loop_fuel;; node_min_loop fuel node.

Fixpoint node_max_loop (fuel : nat) (node : Z) : M rb_tree Z :=
  match fuel with
  | O => nofuel
  | S fuel =>
    r <- rd _right node;; nil <- rd _isnil r;;
    if nil : bool then ret node else node_max_loop fuel r
  end.
Definition node_max (node : Z) : M rb_tree Z :=
  fuel <- loop_fuel;; node_max_loop fuel node.

(** [while(!(parent = node->_parent)->_isnil && node == parent->_left)
    node = parent;], returning [(node, parent)]. *)
Fixpoint climb_left (fuel : nat) (node : Z) : M rb_tree (Z * Z) :=
  match fuel with
  | O => nofuel
  | S fuel =>
    parent <- rd _parent node;; nil <- rd _isnil parent;;
    if nil : bool then ret (node, parent)
    else l <- rd _left parent;;
         if node =? l then climb_left fuel parent else ret (node, parent)
  end.

Fixpoint climb_right (fuel : nat) (node : Z) : M rb_tree (Z * Z) :=
  match fuel with
  | O => nofuel
  | S fuel =>
    parent <- rd _parent node;; nil <- rd _isnil parent;;
    if nil : bool then ret (node, parent)
    else r <- rd _right parent;;
         if node =? r then climb_right fuel parent else ret (node, parent)
  end.

Definition node_prev (node : Z) : M rb_tree Z :=
  nil <- rd _isnil node;;
  if nil : bool then rd _right node
  else
    l <- rd _left node;; lnil <- rd _isnil l;;
    if lnil : bool then
      fuel <- loop_fuel;;
      '(node, parent) <- climb_left fuel node;;
      nnil <- rd _isnil node;;
      ret (if nnil : bool then node else parent)
    else node_max l.

Definition node_next (node : Z) : M rb_tree Z :=
  r <- rd _right node;; rnil <- rd _isnil r;;
  if rnil : bool then
    fuel <- loop_fuel;;
    '(_, parent) <- climb_right fuel node;;
    ret parent
  else node_min r.

(** *** Rotations *)

Definition impl_rotate_left (node : Z) : M rb_tree unit :=
  root <- rd _right node;;
  rl <- rd _left root;;
  set_right node rl;;;
  rl <- rd _left root;; rlnil <- rd _isnil rl;;
  when (negb rlnil) (rl <- rd _left root;; set_parent rl node);;;
  np <- rd _parent node;; set_parent root np;;;
  r <- impl_root;;
  (if node =? r then set_root root
   else np <- rd _parent node;; npl <- rd _left np;;
        if node =? npl then set_left np root else set_right np root);;;
  set_left root node;;;
  set_parent node root.

Definition impl_rotate_right (node : Z) : M rb_tree unit :=
  root <- rd _left node;;
  rr <- rd _right root;;
  set_left node rr;;;
  rr <- rd _right root;; rrnil <- rd _isnil rr;;
  when (negb rrnil) (rr <- rd _right root;; set_parent rr node);;;
  np <- rd _parent node;; set_parent root np;;;
  r <- impl_root;;
  (if node =? r then set_root root
   else np <- rd _parent node;; npr <- rd _right np;;
        if node =? npr then set_right np root else set_left np root);;;
  set_right root node;;;
  set_parent node root.

(** *** Searching *)

Definition impl_comp (n1 n2 : Z) : M rb_tree bool :=
  d1 <- rd data n1;; d2 <- rd data n2;;
  match d1, d2 with
  | Some d1, Some d2 => ret (comp d1 d2)
  | _, _ => fault
  end.

Fixpoint lbnd_loop (fuel : nat) (parent node val : Z) : M rb_tree Z :=
  match fuel with
  | O => nofuel
  | S fuel =>
    nil <- rd _isnil node;;
    if nil : bool then ret parent
    else lt <- impl_comp node val;;
         if lt : bool then r <- rd _right node;; lbnd_loop fuel parent r val
         else l <- rd _left node;; lbnd_loop fuel node l val
  end.
Definition impl_lbnd (val : Z) : M rb_tree Z :=
  parent <- rb_head;; node <- rd _parent parent;;
  fuel <- loop_fuel;; lbnd_loop fuel parent node val.

Fixpoint ubnd_loop (fuel : nat) (parent node val : Z) : M rb_tree Z :=
  match fuel with
  | O => nofuel
  | S fuel =>
    nil <- rd _isnil node;;
    if nil : bool then ret parent
    else lt <- impl_comp val node;;
         if lt : bool then l <- rd _left node;; ubnd_loop fuel node l val
         else r <- rd _right node;; ubnd_loop fuel parent r val
  end.
Definition impl_ubnd (val : Z) : M rb_tree Z :=
  parent <- rb_head;; node <- rd _parent parent;;
  fuel <- loop_fuel;; ubnd_loop fuel parent node val.

Fixpoint eqrange_lo (fuel : nat) (begin end_ node val : Z) : M rb_tree (Z * Z) :=
  match fuel with
  | O => nofuel
  | S fuel =>
    nil <- rd _isnil node;;
    if nil : bool then ret (begin, end_)
    else lt <- impl_comp node val;;
         if lt : bool then r <- rd _right node;; eqrange_lo fuel begin end_ r val
         else
           enil <- rd _isnil end_;;
           gt <- (if enil : bool then impl_comp val node else ret false);;
           let end_ := if gt : bool then node else end_ in
           l <- rd _left node;; eqrange_lo fuel node end_ l val
  end.
Fixpoint eqrange_hi (fuel : nat) (end_ node val : Z) : M rb_tree Z :=
  match fuel with
  | O => nofuel
  | S fuel =>
    nil <- rd _isnil node;;
    if nil : bool then ret end_
    else lt <- impl_comp val node;;
         if lt : bool then l <- rd _left node;; eqrange_hi fuel node l val
         else r <- rd _right node;; eqrange_hi fuel end_ r val
  end.
Definition impl_eqrange (val : Z) : M rb_tree (Z * Z) :=
  node <- impl_root;; head <- rb_head;; fuel <- loop_fuel;;
  '(begin, end_) <- eqrange_lo fuel head head node val;;
  enil <- rd _isnil end_;;
  node <- (if enil : bool then impl_root else rd _left end_);;
  end_ <- eqrange_hi fuel end_ node val;;
  ret (begin, end_).

(** *** Insertion *)

(** The rebalancing loop of [impl_node_insert]. *)
Fixpoint insert_fix (fuel : nat) (pnode : Z) : M rb_tree unit :=
  match fuel with
  | O => nofuel
  | S fuel =>
    p <- rd _parent pnode;; pc <- rd _color p;;
    if negb (is_red pc) then ret tt
    else
      g <- rd _parent p;; gl <- rd _left g;;
      if p =? gl then
        pos <- rd _right g;; posc <- rd _color pos;;
        if is_red posc then
          set_color p BLACK;;;
          set_color pos BLACK;;;
          set_color g RED;;;
          insert_fix fuel g
        else
          pr <- rd _right p;;
          pnode <- (if pnode =? pr then impl_rotate_left p;;; ret p else ret pnode);;
          p <- rd _parent pnode;; set_color p BLACK;;;
          g <- rd _parent p;; set_color g RED;;;
          impl_rotate_right g;;;
          insert_fix fuel pnode
      else
        pos <- rd _left g;; posc <- rd _color pos;;
        if is_red posc then
          set_color p BLACK;;;
          set_color pos BLACK;;;
          set_color g RED;;;
          insert_fix fuel g
        else
          pl <- rd _left p;;
          pnode <- (if pnode =? pl then impl_rotate_right p;;; ret p else ret pnode);;
          p <- rd _parent pnode;; set_color p BLACK;;;
          g <- rd _parent p;; set_color g RED;;;
          impl_rotate_left g;;;
          insert_fix fuel pnode
  end.

Definition impl_node_insert (node pos : Z) (addleft : bool) : M rb_tree Z :=
  set_parent node pos;;;
  h <- rb_head;;
  (if pos =? h then
     set_root node;;; set_lmst node;;; set_rmst node
   else if addleft then
     set_left pos node;;;
     lm <- impl_lmst;; when (pos =? lm) (set_lmst node)
   else
     set_right pos node;;;
     rm <- impl_rmst;; when (pos =? rm) (set_rmst node));;;
  fuel <- loop_fuel;;
  insert_fix fuel node;;;
  r <- impl_root;; set_color r BLACK;;;
  sz <- gets t_size;; set_size (sz + 1);;;
  ret node.

(** The descent of [rb_insert_node]: the position and the side. *)
Fixpoint insert_descend (fuel : nat) (position res node : Z) (addleft left : bool)
    : M rb_tree (Z * bool) :=
  match fuel with
  | O => nofuel
  | S fuel =>
    nil <- rd _isnil res;;
    if nil : bool then ret (position, addleft)
    else
      addleft <- (if left then b <- impl_comp res node;; ret (negb b)
                  else impl_comp node res);;
      next <- (if addleft : bool then rd _left res else rd _right res);;
      insert_descend fuel res next node addleft left
  end.

(** The second result is the value stored through [out]. *)
Definition rb_insert_node (node : Z) (left : bool) : M rb_tree (Z * Z) :=
  position <- rb_head;; res <- rd _parent position;;
  fuel <- loop_fuel;;
  '(position, addleft) <- insert_descend fuel position res node true left;;
  multi <- gets t_multi;;
  if multi : bool then n <- impl_node_insert node position addleft;; ret (n, 1)
  else
    lm <- impl_lmst;;
    if addleft && (position =? lm) then
      n <- impl_node_insert node position true;; ret (n, 1)
    else
      pos <- (if addleft : bool then node_prev position else ret position);;
      lt <- impl_comp pos node;;
      if lt : bool then n <- impl_node_insert node position addleft;; ret (n, 1)
      else ret (pos, 0).

Definition node_init (node head : Z) : M rb_tree unit :=
  set_parent node head;;; set_left node head;;; set_right node head;;;
  set_color node RED;;;
  wr (fun n => mkNode (_parent n) (_left n) (_right n) (_color n) false (data n)) node.

Definition head_init (head : Z) : M rb_tree unit :=
  set_parent head head;;; set_left head head;;; set_right head head;;;
  set_color head BLACK;;;
  wr (fun n => mkNode (_parent n) (_left n) (_right n) (_color n) true (data n)) head.

Definition rb_insert (node : Z) : M rb_tree (Z * Z) :=
  h <- rb_head;; node_init node h;;; rb_insert_node node false.

(** [rb_init] (through [impl_init]): the comparison function and its argument
    are the parameter [comp]. *)
Definition rb_init (is_multi : bool) : M rb_tree unit :=
  h <- rb_head;; head_init h;;;
  modify (fun s => mkTree (t_nodes s) (t_head s) is_multi (t_size s));;;
  set_size 0.

Definition rb_clear : M rb_tree unit :=
  h <- rb_head;; head_init h;;; set_size 0.

(** *** Erasure *)

(** The rebalancing loop of [rb_erase_node]; the result is the final
    [fixnode]. *)
Fixpoint erase_fix (fuel : nat) (fixnode fixparent : Z) : M rb_tree Z :=
  match fuel with
  | O => nofuel
  | S fuel =>
    root <- impl_root;; fc <- rd _color fixnode;;
    if (fixnode =? root) || is_red fc then ret fixnode
    else
      fpl <- rd _left fixparent;;
      if fixnode =? fpl then
        pnode <- rd _right fixparent;; pc <- rd _color pnode;;
        pnode <- (if is_red pc then
                    set_color pnode BLACK;;;
                    set_color fixparent RED;;;
                    impl_rotate_left fixparent;;;
                    rd _right fixparent
                  else ret pnode);;
        pnil <- rd _isnil pnode;;
        if pnil : bool then
          fp <- rd _parent fixparent;; erase_fix fuel fixparent fp
        else
          pl <- rd _left pnode;; plc <- rd _color pl;;
          pr <- rd _right pnode;; prc <- rd _color pr;;
          if negb (is_red plc) && negb (is_red prc) then
            set_color pnode RED;;;
            fp <- rd _parent fixparent;; erase_fix fuel fixparent fp
          else
            pnode <- (if negb (is_red prc) then
                        set_color pl BLACK;;;
                        set_color pnode RED;;;
                        impl_rotate_right pnode;;;
                        rd _right fixparent
                      else ret pnode);;
            c <- rd _color fixparent;; set_color pnode c;;;
            set_color fixparent BLACK;;;
            pr <- rd _right pnode;; set_color pr BLACK;;;
            impl_rotate_left fixparent;;;
            ret fixnode
      else
        pnode <- rd _left fixparent;; pc <- rd _color pnode;;
        pnode <- (if is_red pc then
                    set_color pnode BLACK;;;
                    set_color fixparent RED;;;
                    impl_rotate_right fixparent;;;
                    rd _left fixparent
                  else ret pnode);;
        pnil <- rd _isnil pnode;;
        if pnil : bool then
          fp <- rd _parent fixparent;; erase_fix fuel fixparent fp
        else
          pr <- rd _right pnode;; prc <- rd _color pr;;
          pl <- rd _left pnode;; plc <- rd _color pl;;
          if negb (is_red prc) && negb (is_red plc) then
            set_color pnode RED;;;
            fp <- rd _parent fixparent;; erase_fix fuel fixparent fp
          else
            pnode <- (if negb (is_red plc) then
                        set_color pr BLACK;;;
                        set_color pnode RED;;;
                        impl_rotate_left pnode;;;
                        rd _left fixparent
                      else ret pnode);;
            c <- rd _color fixparent;; set_color pnode c;;;
            set_color fixparent BLACK;;;
            pl <- rd _left pnode;; set_color pl BLACK;;;
            impl_rotate_right fixparent;;;
            ret fixnode
  end.

(** Unlinking a node with at most one child ([pnode == erased]); returns
    [fixparent]. *)
Definition erase_unlink (erased fixnode : Z) : M rb_tree Z :=
  fixparent <- rd _parent erased;;
  fnil <- rd _isnil fixnode;;
  when (negb fnil) (set_parent fixnode fixparent);;;
  root <- impl_root;;
  (if root =? erased then set_root fixnode
   else fpl <- rd _left fixparent;;
        if fpl =? erased then set_left fixparent fixnode
        else set_right fixparent fixnode);;;
  lm <- impl_lmst;;
  when (lm =? erased)
    (fnil <- rd _isnil fixnode;;
     v <- (if fnil : bool then ret fixparent else node_min fixnode);;
     set_lmst v);;;
  rm <- impl_rmst;;
  when (rm =? erased)
    (fnil <- rd _isnil fixnode;;
     v <- (if fnil : bool then ret fixparent else node_max fixnode);;
     set_rmst v);;;
  ret fixparent.

(** Putting the successor [pnode] in the place of [erased]; returns
    [fixparent]. *)
Definition erase_replace (erased pnode fixnode : Z) : M rb_tree Z :=
  el <- rd _left erased;; set_parent el pnode;;;
  el <- rd _left erased;; set_left pnode el;;;
  er <- rd _right erased;;
  fixparent <-
    (if pnode =? er then ret pnode
     else
       fixparent <- rd _parent pnode;;
       fnil <- rd _isnil fixnode;;
       when (negb fnil) (set_parent fixnode fixparent);;;
       set_left fixparent fixnode;;;
       er <- rd _right erased;; set_right pnode er;;;
       er <- rd _right erased;; set_parent er pnode;;;
       ret fixparent);;
  root <- impl_root;;
  (if root =? erased then set_root pnode
   else
     ep <- rd _parent erased;; epl <- rd _left ep;;
     if epl =? erased then set_left ep pnode else set_right ep pnode);;;
  ep <- rd _parent erased;; set_parent pnode ep;;;
  c1 <- rd _color pnode;; c2 <- rd _color erased;;
  set_color pnode c2;;; set_color erased c1;;;
  ret fixparent.

Definition rb_erase_node (node : Z) : M rb_tree Z :=
  let erased := node in
  node <- node_next node;;
  el <- rd _left erased;; elnil <- rd _isnil el;;
  '(pnode, fixnode) <-
    (if elnil : bool then f <- rd _right erased;; ret (erased, f)
     else
       er <- rd _right erased;; ernil <- rd _isnil er;;
       if ernil : bool then f <- rd _left erased;; ret (erased, f)
       else f <- rd _right node;; ret (node, f));;
  fixparent <- (if pnode =? erased then erase_unlink erased fixnode
                else erase_replace erased pnode fixnode);;
  ec <- rd _color erased;;
  when (negb (is_red ec))
    (fuel <- loop_fuel;;
     fixnode <- erase_fix fuel fixnode fixparent;;
     set_color fixnode BLACK);;;
  sz <- gets t_size;; set_size (sz - 1);;;
  ret node.

(** *** The public operations *)

Definition rb_lmst : M rb_tree Z := impl_lmst.
Definition rb_rmst : M rb_tree Z := impl_rmst.
Definition rb_prev (node : Z) : M rb_tree Z := node_prev node.
Definition rb_next (node : Z) : M rb_tree Z := node_next node.
Definition rb_lbnd (val : Z) : M rb_tree Z := impl_lbnd val.
Definition rb_ubnd (val : Z) : M rb_tree Z := impl_ubnd val.
Definition rb_eqrange (val : Z) : M rb_tree (Z * Z) := impl_eqrange val.
Definition rb_erase (node : Z) : M rb_tree Z := rb_erase_node node.

Definition rb_find (val : Z) : M rb_tree Z :=
  fr <- rb_lbnd val;; h <- rb_head;;
  if fr =? h then ret h
  else lt <- impl_comp val fr;; ret (if lt : bool then h else fr).

(** [rb_clear_free]; the callback that releases a node is not part of the
    tree: the result lists the nodes handed to it, in order. *)
Fixpoint clear_free_loop (fuel : nat) (node head : Z) (freed : list Z)
    : M rb_tree (list Z) :=
  match fuel with
  | O => nofuel
  | S fuel =>
    if node =? head then ret freed
    else
      next <- rb_next node;;
      rb_erase_node node;;;
      clear_free_loop fuel next head (freed ++ [node])
  end.
Definition rb_clear_free : M rb_tree (list Z) :=
  sz <- gets t_size;;
  if sz =? 0 then ret []
  else
    node <- rb_lmst;; head <- rb_head;; fuel <- loop_fuel;;
    freed <- clear_free_loop fuel node head [];;
    rb_clear;;; ret freed.

Fixpoint erase_until (fuel : nat) (begin end_ dist : Z) : M rb_tree (Z * Z) :=
  match fuel with
  | O => nofuel
  | S fuel =>
    if begin =? end_ then ret (begin, dist)
    else b <- rb_erase begin;; erase_until fuel b end_ (u64 (dist + 1))
  end.

Definition rb_erase_range (begin end_ : Z) : M rb_tree Z :=
  lm <- rb_lmst;; h <- rb_head;;
  if (begin =? lm) && (end_ =? h) then rb_clear;;; rb_lmst
  else fuel <- loop_fuel;; '(b, _) <- erase_until fuel begin end_ 0;; ret b.

Definition rb_erase_rgcnt (begin end_ : Z) : M rb_tree Z :=
  lm <- rb_lmst;; h <- rb_head;;
  if (begin =? lm) && (end_ =? h) then dist <- gets t_size;; rb_clear;;; ret dist
  else fuel <- loop_fuel;; '(_, d) <- erase_until fuel begin end_ 0;; ret d.

Definition rb_erase_val (val : Z) : M rb_tree Z :=
  '(b, e) <- rb_eqrange val;; rb_erase_rgcnt b e.

Fixpoint dist_loop (fuel : nat) (begin end_ dist : Z) : M rb_tree Z :=
  match fuel with
  | O => nofuel
  | S fuel =>
    if begin =? end_ then ret dist
    else b <- node_next begin;; dist_loop fuel b end_ (u64 (dist + 1))
  end.
Definition rb_dist (begin end_ : Z) : M rb_tree Z :=
  lm <- impl_lmst;; h <- rb_head;;
  if (begin =? lm) && (end_ =? h) then gets t_size
  else fuel <- loop_fuel;; dist_loop fuel begin end_ 0.
Definition rb_vcnt (val : Z) : M rb_tree Z :=
  '(b, e) <- rb_eqrange val;; rb_dist b e.

End RbTree.

Arguments rb_node : clear implicits.
Arguments rb_tree : clear implicits.
Arguments rb_head {D} _ /.
