(* ===== verification/RbSpec.v ===== *)
(** * What a red-black tree is, and its representation in the store

    The abstract side: trees carrying node addresses, contexts (a path from a
    subtree up to the root), in-order listing, colour and black-height
    invariant, ordering.  The concrete side: [rep]/[repc]/[Zrep] say that a
    state of [RbTree] stores a tree, parent pointers and sentinel included.
    The lemmas execute field accesses and the rotations on represented
    trees. *)
From S2P Require Import Prelude RbTree.

Section Spec.
Context {D : Type}.
Implicit Types h : gmap Z (rb_node D).
Implicit Types s : rb_tree D.

Inductive tree :=
| E
| T (p : Z) (c : color) (d : D) (l r : tree).

Inductive dir := DL | DR.

(** One step of a path towards the root: the side of the hole, the parent,
    the sibling subtree. *)
Record frame := F { fdir : dir; fp : Z; fc : color; fd : D; fsib : tree }.

Fixpoint elems (t : tree) : list (Z * D) :=
  match t with
  | E => []
  | T p _ d l r => elems l ++ (p, d) :: elems r
  end.

Fixpoint ptrs (t : tree) : list Z :=
  match t with
  | E => []
  | T p _ _ l r => p :: ptrs l ++ ptrs r
  end.

Fixpoint ptrsk (k : list frame) : list Z :=
  match k with
  | [] => []
  | f :: k => fp f :: ptrs (fsib f) ++ ptrsk k
  end.

Definition fill (f : frame) (t : tree) : tree :=
  match fdir f with
  | DL => T (fp f) (fc f) (fd f) t (fsib f)
  | DR => T (fp f) (fc f) (fd f) (fsib f) t
  end.

Fixpoint plug (k : list frame) (t : tree) : tree :=
  match k with
  | [] => t
  | f :: k => plug k (fill f t)
  end.

(** The elements before and after the hole of a context. *)
Fixpoint before (k : list frame) : list (Z * D) :=
  match k with
  | [] => []
  | f :: k => before k ++ match fdir f with DL => [] | DR => elems (fsib f) ++ [(fp f, fd f)] end
  end.
Fixpoint after (k : list frame) : list (Z * D) :=
  match k with
  | [] => []
  | f :: k => match fdir f with DL => (fp f, fd f) :: elems (fsib f) | DR => [] end ++ after k
  end.

Definition colorof (t : tree) : color :=
  match t with E => BLACK | T _ c _ _ _ => c end.

Definition blacken (t : tree) : tree :=
  match t with E => E | T p _ d l r => T p BLACK d l r end.

(** The red-black invariant: [rbt t n] says that no red node has a red child
    and that every path to a leaf of [t] has [n] black nodes. *)
Inductive rbt : tree -> nat -> Prop :=
| rbt_E : rbt E 0
| rbt_red p d l r n : rbt l n -> rbt r n -> colorof l = BLACK -> colorof r = BLACK ->
    rbt (T p RED d l r) n
| rbt_black p d l r n : rbt l n -> rbt r n -> rbt (T p BLACK d l r) (S n).

(** *** Representation in the store *)

Section Rep.
Variable hd : Z.

Definition root_of (t : tree) : Z := match t with E => hd | T p _ _ _ _ => p end.

Definition par (k : list frame) : Z := match k with [] => hd | f :: _ => fp f end.

Fixpoint rootk (k : list frame) (hp : Z) : Z :=
  match k with [] => hp | f :: k => rootk k (fp f) end.

Fixpoint rep h (parent : Z) (t : tree) : Prop :=
  match t with
  | E => True
  | T p c d l r =>
      h !! p = Some (mkNode parent (root_of l) (root_of r) c false (Some d)) /\
      rep h p l /\ rep h p r
  end.

Definition fnode (f : frame) (parent hp : Z) : rb_node D :=
  match fdir f with
  | DL => mkNode parent hp (root_of (fsib f)) (fc f) false (Some (fd f))
  | DR => mkNode parent (root_of (fsib f)) hp (fc f) false (Some (fd f))
  end.

Fixpoint repc h (k : list frame) (hp : Z) : Prop :=
  match k with
  | [] => True
  | f :: k =>
      h !! fp f = Some (fnode f (par k) hp) /\
      rep h (fp f) (fsib f) /\ repc h k (fp f)
  end.

Definition lmost (t : tree) : Z := match elems t with [] => hd | e :: _ => e.1 end.
Definition rmost (t : tree) : Z := match last (elems t) with Some e => e.1 | None => hd end.
End Rep.

Definition hnode (hd root lm rm : Z) : rb_node D := mkNode root lm rm BLACK true None.

(** The store [h] holds the tree [plug k t] below the head [hd], whose
    leftmost and rightmost fields are [lm] and [rm]. *)
Record Zrep h (hd : Z) (k : list frame) (t : tree) (lm rm : Z) : Prop := {
  Zhead : h !! hd = Some (hnode hd (rootk k (root_of hd t)) lm rm);
  Zfocus : rep hd h (par hd k) t;
  Zctx : repc hd h k (root_of hd t);
  Znodup : NoDup (hd :: ptrs t ++ ptrsk k)
}.

(** *** Structure lemmas *)

Lemma elems_plug k t : elems (plug k t) = before k ++ elems t ++ after k.
Proof.
  revert t. induction k as [|[[] p c d sib] k IH]; intros t; simpl.
  - by rewrite app_nil_r.
  - rewrite IH. simpl. by rewrite app_nil_r, <- !app_assoc.
  - rewrite IH. simpl. by rewrite <- !app_assoc.
Qed.

Lemma plug_app k1 k2 t : plug (k1 ++ k2) t = plug k2 (plug k1 t).
Proof. revert t. induction k1; intros t; simpl; auto. Qed.

Lemma ptrs_fill f t : ptrs (fill f t) ≡ₚ fp f :: ptrs t ++ ptrs (fsib f).
Proof. destruct f as [[] p c d sib]; simpl; solve_Permutation. Qed.

Lemma ptrs_plug k t : ptrs (plug k t) ≡ₚ ptrs t ++ ptrsk k.
Proof.
  revert t. induction k as [|f k IH]; intros t; simpl.
  - by rewrite app_nil_r.
  - rewrite IH, ptrs_fill. solve_Permutation.
Qed.

Lemma fst_elems t : (elems t).*1 ≡ₚ ptrs t.
Proof.
  induction t as [|p c d l IHl r IHr]; simpl; [done|].
  rewrite fmap_app. simpl. rewrite IHl, IHr. solve_Permutation.
Qed.

Lemma rep_frame hd h h' parent t :
  rep hd h parent t -> (forall q, q ∈ ptrs t -> h' !! q = h !! q) -> rep hd h' parent t.
Proof.
  revert parent. induction t as [|p c d l IHl r IHr]; simpl; [done|].
  intros parent (Hp & Hl & Hr) Hq. split_and!.
  - by rewrite Hq by set_solver.
  - apply IHl; [done|]. intros q ?. apply Hq. set_solver.
  - apply IHr; [done|]. intros q ?. apply Hq. set_solver.
Qed.

Lemma repc_frame hd h h' k hp :
  repc hd h k hp -> (forall q, q ∈ ptrsk k -> h' !! q = h !! q) -> repc hd h' k hp.
Proof.
  revert hp. induction k as [|f k IH]; simpl; [done|].
  intros hp (Hp & Hs & Hk) Hq. split_and!.
  - by rewrite Hq by set_solver.
  - eapply rep_frame; [done|]. intros q ?. apply Hq. set_solver.
  - apply IH; [done|]. intros q ?. apply Hq. set_solver.
Qed.

Lemma rep_lookup hd h parent t q :
  rep hd h parent t -> q ∈ ptrs t -> is_Some (h !! q).
Proof.
  revert parent. induction t as [|p c d l IHl r IHr]; simpl; [set_solver|].
  intros parent (Hp & Hl & Hr) Hq. set_unfold.
  destruct Hq as [->|[?|?]]; eauto.
Qed.

Lemma repc_lookup hd h k hp q :
  repc hd h k hp -> q ∈ ptrsk k -> is_Some (h !! q).
Proof.
  revert hp. induction k as [|f k IH]; simpl; [set_solver|].
  intros hp (Hp & Hl & Hr) Hq. set_unfold.
  destruct Hq as [->|[?|?]]; eauto using rep_lookup.
Qed.

(** *** Moving the focus *)

Lemma Zrep_left h hd k p c d l r lm rm :
  Zrep h hd k (T p c d l r) lm rm <-> Zrep h hd (F DL p c d r :: k) l lm rm.
Proof.
  split; intros [H1 H2 H3 H4]; simpl in *; split; simpl in *; try tauto.
  all: eapply NoDup_Permutation_proper; [|exact H4]; solve_Permutation.
Qed.

Lemma Zrep_right h hd k p c d l r lm rm :
  Zrep h hd k (T p c d l r) lm rm <-> Zrep h hd (F DR p c d l :: k) r lm rm.
Proof.
  split; intros [H1 H2 H3 H4]; simpl in *; split; simpl in *; try tauto.
  all: eapply NoDup_Permutation_proper; [|exact H4]; solve_Permutation.
Qed.

Lemma Zrep_fill h hd f k t lm rm :
  Zrep h hd (f :: k) t lm rm <-> Zrep h hd k (fill f t) lm rm.
Proof.
  destruct f as [[] p c d sib]; unfold fill; simpl; symmetry;
    [apply Zrep_left | apply Zrep_right].
Qed.

Lemma Zrep_plug h hd k t lm rm :
  Zrep h hd k t lm rm <-> Zrep h hd [] (plug k t) lm rm.
Proof.
  revert t. induction k as [|f k IH]; intros t; [done|].
  rewrite Zrep_fill. simpl. apply IH.
Qed.

(** The number of nodes bounds every path, so [loop_fuel] is enough. *)
Lemma Zrep_fuel h hd k t lm rm :
  Zrep h hd k t lm rm -> (length (ptrs t) + length (ptrsk k) < base.size h)%nat.
Proof.
  intros [H1 H2 H3 H4].
  rewrite <- length_app, <- size_dom.
  assert (base.size (list_to_set (hd :: ptrs t ++ ptrsk k) : gset Z) <= base.size (dom h))%nat
    as Hle.
  { apply subseteq_size. intros q Hq. apply elem_of_dom.
    apply elem_of_list_to_set in Hq. set_unfold. destruct Hq as [->|[Hq|Hq]]; eauto.
    - eapply rep_lookup; eauto.
    - eapply repc_lookup; eauto. }
  rewrite size_list_to_set in Hle by done. simpl in Hle. lia.
Qed.

(** *** Symbolic execution of field accesses *)

Definition st h hd mu sz : rb_tree D := mkTree h hd mu sz.

Lemma rd_bind {A B} (f : rb_node D -> A) p n (K : A -> M (rb_tree D) B) h hd mu sz :
  h !! p = Some n -> bind (rd f p) K (st h hd mu sz) = K (f n) (st h hd mu sz).
Proof. intros H. unfold bind, rd. simpl. by rewrite H. Qed.

Lemma wr_bind {B} (g : rb_node D -> rb_node D) p n (K : unit -> M (rb_tree D) B) h hd mu sz :
  h !! p = Some n -> bind (wr g p) K (st h hd mu sz) = K tt (st (<[p := g n]> h) hd mu sz).
Proof. intros H. unfold bind, wr. simpl. by rewrite H. Qed.

Lemma rd_run {A} (f : rb_node D -> A) p n h hd mu sz :
  h !! p = Some n -> rd f p (st h hd mu sz) = Done (f n, st h hd mu sz).
Proof. intros H. unfold rd. simpl. by rewrite H. Qed.

Lemma wr_run (g : rb_node D -> rb_node D) p n h hd mu sz :
  h !! p = Some n -> wr g p (st h hd mu sz) = Done (tt, st (<[p := g n]> h) hd mu sz).
Proof. intros H. unfold wr. simpl. by rewrite H. Qed.

Lemma head_bind {B} (K : Z -> M (rb_tree D) B) h hd mu sz :
  bind rb_head K (st h hd mu sz) = K hd (st h hd mu sz).
Proof. done. Qed.

(** [same h h' ps]: [h'] has the same addresses as [h] and differs from it at
    most at [ps]. *)
Definition same h h' (ps : list Z) : Prop :=
  dom h' = dom h /\ forall q, q ∉ ps -> h' !! q = h !! q.

(** The addresses of the tree [plug k t] below [hd]. *)
Definition own hd (k : list frame) (t : tree) : list Z := hd :: ptrs (plug k t).

Lemma same_refl h ps : same h h ps.
Proof. done. Qed.

Lemma same_insert h h' ps p n n' :
  same h h' ps -> p ∈ ps -> h' !! p = Some n -> same h (<[p := n']> h') ps.
Proof.
  intros [Hd Hq] Hp Hn. split.
  - rewrite dom_insert_L, <- Hd. apply elem_of_dom_2 in Hn. set_solver.
  - intros q ?. rewrite lookup_insert_ne by set_solver. auto.
Qed.

Lemma same_trans h1 h2 h3 ps ps' :
  same h1 h2 ps -> same h2 h3 ps' -> ps ≡ₚ ps' -> same h1 h3 ps.
Proof.
  intros [Hd Hq] [Hd' Hq'] Hp. split; [congruence|].
  intros q ?. rewrite Hq' by (by rewrite <- Hp). auto.
Qed.

Lemma same_perm h h' ps ps' : ps ≡ₚ ps' -> same h h' ps -> same h h' ps'.
Proof. intros Hp [Hd Hq]. split; [done|]. intros q. rewrite <- Hp. apply Hq. Qed.

Lemma same_step h1 h2 h3 ps ps' :
  same h1 h2 ps' -> ps' ≡ₚ ps -> same h2 h3 ps -> same h1 h3 ps.
Proof. intros H1 Hp H2. eapply same_trans; [eapply same_perm; [exact Hp|exact H1]|exact H2|done]. Qed.

Lemma own_eq hd k t t' : ptrs t ≡ₚ ptrs t' -> own hd k t ≡ₚ own hd k t'.
Proof. unfold own. intros H. by rewrite !ptrs_plug, H. Qed.

Lemma own_unfold hd k t : own hd k t ≡ₚ hd :: ptrs t ++ ptrsk k.
Proof. unfold own. by rewrite ptrs_plug. Qed.

Lemma same_size h h' ps : same h h' ps -> base.size h' = base.size h.
Proof. intros [Hd _]. by rewrite <- !size_dom, Hd. Qed.

End Spec.

Arguments tree : clear implicits.
Arguments frame : clear implicits.

(** *** Deciding address (in)equalities

    [nd_split] turns a [NoDup] fact on the addresses of a tree into pairwise
    facts; [neq] finds the one a goal needs. *)
Definition disj (l k : list Z) : Prop := forall q, q ∈ l -> q ∉ k.

Lemma NoDup_app_disj l k : NoDup (l ++ k) <-> NoDup l /\ disj l k /\ NoDup k.
Proof. apply list.NoDup_app. Qed.
Lemma notin_cons (x y : Z) l : (x ∉ y :: l) <-> (x <> y) /\ (x ∉ l).
Proof. apply not_elem_of_cons. Qed.
Lemma notin_app (x : Z) l k : (x ∉ l ++ k) <-> (x ∉ l) /\ (x ∉ k).
Proof. apply not_elem_of_app. Qed.
Lemma disj_cons l y k : disj l (y :: k) <-> (y ∉ l) /\ (disj l k).
Proof. unfold disj. set_solver. Qed.
Lemma disj_app l k1 k2 : disj l (k1 ++ k2) <-> disj l k1 /\ disj l k2.
Proof. unfold disj. set_solver. Qed.

Lemma rootk_in {D} (k : list (frame D)) p : rootk k p ∈ p :: ptrsk k.
Proof.
  revert p. induction k as [|f k IH]; intros p; simpl; [set_solver|].
  specialize (IH (fp f)). set_solver.
Qed.

Lemma rootk_ne {D} (k : list (frame D)) p x : x <> p -> x ∉ ptrsk k -> rootk k p <> x.
Proof. pose proof (rootk_in k p). set_solver. Qed.

Lemma root_of_in {D} hd (t : tree D) : root_of hd t ∈ hd :: ptrs t.
Proof. destruct t; simpl; set_solver. Qed.

Lemma root_of_ne {D} hd (t : tree D) x : x <> hd -> x ∉ ptrs t -> root_of hd t <> x.
Proof. pose proof (root_of_in hd t). set_solver. Qed.

Ltac nd_split H :=
  simpl in H;
  repeat (rewrite <- app_assoc in H; simpl in H);
  rewrite ?app_nil_r in H;
  repeat first [ rewrite list.NoDup_cons in H | rewrite NoDup_app_disj in H
               | rewrite notin_cons in H | rewrite notin_app in H
               | rewrite disj_cons in H | rewrite disj_app in H ];
  destruct_and! H.

Ltac contra_mem :=
  match goal with
  | H : ?x ∈ ?l, H' : ?x ∉ ?l |- _ => destruct (H' H)
  | H : ?x ∈ ?l, H2 : ?x ∈ ?k, H' : disj ?l ?k |- _ => destruct (H' x H H2)
  end.

(** [neq]: two addresses of a represented tree are different. *)
Ltac neq1 :=
  first [ assumption | (apply not_eq_sym; assumption)
        | (apply rootk_ne; [first [assumption | apply not_eq_sym; assumption] | assumption])
        | (apply root_of_ne; [first [assumption | apply not_eq_sym; assumption] | assumption])
        | (let H := fresh in intros H; subst; contra_mem) ].
Ltac neq := first [ neq1 | (apply not_eq_sym; neq1) ].

(** [mem]: membership of an address in an explicit list of addresses. *)
Ltac mem := simpl; repeat first [ rewrite elem_of_cons | rewrite elem_of_app ]; tauto.

(** [lk]: look up an address through the writes made so far. *)
Ltac lk :=
  repeat first [ rewrite lookup_insert_eq | rewrite lookup_insert_ne by neq ];
  first [ eassumption | reflexivity | done ].

(** [run]: execute field accesses whose addresses are known. *)
Ltac run1 :=
  first
    [ rewrite bind_assoc
    | rewrite head_bind
    | rewrite bind_ret
    | erewrite rd_bind by lk
    | erewrite wr_bind by lk ].
Ltac reads :=
  unfold impl_root, impl_lmst, impl_rmst;
  repeat (first [ rewrite bind_assoc | rewrite head_bind | rewrite bind_ret
                | erewrite rd_bind by lk ]; simpl).
Ltac run :=
  unfold impl_root, impl_lmst, impl_rmst, set_root, set_lmst, set_rmst, set_parent,
    set_left, set_right, set_color, when;
  repeat (run1; simpl).

(** [eqb_ne]: decide an address comparison whose sides differ. *)
Ltac eqb_ne :=
  match goal with
  | |- context [?a =? ?b] => rewrite (proj2 (Z.eqb_neq a b)) by neq
  end.

(** [zrep_tac Hnd]: re-establish a representation after field writes; [Hnd]
    is the [NoDup] fact of the tree before. *)
Ltac zrep_tac Hnd :=
  split; simpl;
  [ lk
  | split_and?; solve [ done | lk
                      | eapply rep_frame; [eassumption | intros ? ?; lk]
                      | eapply repc_frame; [eassumption | intros ? ?; lk] ]
  | split_and?; solve [ done | lk
                      | eapply rep_frame; [eassumption | intros ? ?; lk]
                      | eapply repc_frame; [eassumption | intros ? ?; lk] ]
  | eapply NoDup_Permutation_proper; [|exact Hnd]; simpl; solve_Permutation ].

(** [same_tac]: the writes made so far stay within a list of addresses. *)
Ltac same_tac :=
  eapply same_perm; [symmetry; apply own_unfold|];
  repeat (eapply same_insert; [ | mem | lk ]); apply same_refl.

(** *** Reading a represented tree *)

Section Access.
Context {D : Type}.
Implicit Types h : gmap Z (rb_node D).

Definition leafb (t : tree D) : bool := match t with E => true | T _ _ _ _ _ => false end.

Lemma Z_focus h hd k p c (d : D) l r lm rm :
  Zrep h hd k (T p c d l r) lm rm ->
  h !! p = Some (mkNode (par hd k) (root_of hd l) (root_of hd r) c false (Some d)).
Proof. intros [? (? & ?) ? ?]. done. Qed.

Lemma Z_frame h hd f k (t : tree D) lm rm :
  Zrep h hd (f :: k) t lm rm ->
  h !! fp f = Some (fnode hd f (par hd k) (root_of hd t)).
Proof. intros [? ? (? & ?) ?]. done. Qed.

Lemma Z_root h hd k (t : tree D) lm rm :
  Zrep h hd k t lm rm ->
  exists n, h !! root_of hd t = Some n /\ _color n = colorof t /\ _isnil n = leafb t.
Proof. intros [H1 H2 H3 H4]. destruct t; simpl in *; eexists; intuition eauto. Qed.

Lemma Zrep_swap h hd p c (d : D) k t u lm rm :
  Zrep h hd (F DL p c d u :: k) t lm rm <-> Zrep h hd (F DR p c d t :: k) u lm rm.
Proof. by rewrite <- Zrep_left, <- Zrep_right. Qed.

Lemma Zrep_frame h h' hd k t lm rm :
  Zrep h hd k t lm rm -> (forall q, q ∈ own hd k t -> h' !! q = h !! q) ->
  Zrep h' hd k t lm rm.
Proof.
  intros [H1 H2 H3 H4] Hq.
  assert (forall q, q ∈ hd :: ptrs t ++ ptrsk k -> h' !! q = h !! q) as Hq'.
  { intros q Hin. apply Hq. by rewrite own_unfold. }
  split; [|eapply rep_frame; [done|]|eapply repc_frame; [done|]|done].
  - rewrite Hq' by set_solver. done.
  - intros q ?. apply Hq'. set_solver.
  - intros q ?. apply Hq'. set_solver.
Qed.

Lemma set_color_spec h hd mu sz k p c c' (d : D) l r lm rm :
  Zrep h hd k (T p c d l r) lm rm ->
  exists h', set_color p c' (st h hd mu sz) = Done (tt, st h' hd mu sz) /\
    Zrep h' hd k (T p c' d l r) lm rm /\
    same h h' (own hd k (T p c d l r)).
Proof.
  intros [H1 (Hp & Hl & Hr) H3 H4]. pose proof H4 as Hnd. nd_split H4.
  unfold set_color. erewrite wr_run by lk. eexists. split; [reflexivity|].
  split; [zrep_tac Hnd | same_tac].
Qed.

End Access.

(** [step L H]: run the next operation by its specification [L] on the
    represented tree [H], which becomes the tree after the operation. *)
Ltac step L H :=
  let h := fresh "h" in let HE := fresh "HE" in let HZ := fresh "HZ" in let HS := fresh "HS" in
  edestruct L as (h & HE & HZ & HS); [exact H|];
  try (erewrite bind_done by exact HE);
  clear H; rename HZ into H.

(** [same_chain]: compose the frame facts of successive operations. *)
Ltac own_perm :=
  unfold own; simpl; rewrite ?ptrs_plug; simpl; rewrite ?ptrs_fill; solve_Permutation.
Ltac same_chain :=
  match goal with
  | H : same ?a ?b _ |- same ?a _ _ => eapply same_step; [exact H | own_perm | same_chain]
  | |- same _ _ _ => apply same_refl
  end.

(** ** The rotations of [kernel/rbtree.c] on represented trees *)

Section Rotate.
Context {D : Type}.
Implicit Types h : gmap Z (rb_node D).

(** [impl_rotate_left] on a node with a right child. *)
Lemma impl_rotate_left_spec h hd mu sz k x cx dx a y cy dy b c lm rm :
  Zrep h hd k (T x cx dx a (T y cy dy b c)) lm rm ->
  exists h', impl_rotate_left x (st h hd mu sz) = Done (tt, st h' hd mu sz) /\
    Zrep h' hd k (T y cy dy (T x cx dx a b) c) lm rm /\
    same h h' (own hd k (T x cx dx a (T y cy dy b c))).
Proof.
  intros [H1 H2 H3 H4]. simpl in H1, H2, H3.
  destruct H2 as (Hx & Ha & Hy & Hb & Hc). simpl in Hx.
  pose proof H4 as Hnd.
  destruct k as [|[[] p pc pd psib] k]; simpl in *;
    [|destruct H3 as (Hp & Hs & Hk); unfold fnode in Hp; simpl in Hp ..];
    (destruct b as [|bp bc bd bl br]; simpl in *; [|destruct Hb as (Hb & Hbl & Hbr)]);
    nd_split H4; unfold impl_rotate_left; run; rewrite ?Z.eqb_refl; try eqb_ne; run;
    rewrite ?Z.eqb_refl; try eqb_ne; run; (erewrite wr_run by lk);
    (eexists; split; [reflexivity|]; split; [zrep_tac Hnd | same_tac]).
Qed.

Lemma impl_rotate_right_spec h hd mu sz k x cx dx c y cy dy a b lm rm :
  Zrep h hd k (T x cx dx (T y cy dy a b) c) lm rm ->
  exists h', impl_rotate_right x (st h hd mu sz) = Done (tt, st h' hd mu sz) /\
    Zrep h' hd k (T y cy dy a (T x cx dx b c)) lm rm /\
    same h h' (own hd k (T x cx dx (T y cy dy a b) c)).
Proof.
  intros [H1 H2 H3 H4]. simpl in H1, H2, H3.
  destruct H2 as (Hx & (Hy & Ha & Hb) & Hc). simpl in Hx.
  pose proof H4 as Hnd.
  destruct k as [|[[] p pc pd psib] k]; simpl in *;
    [|destruct H3 as (Hp & Hs & Hk); unfold fnode in Hp; simpl in Hp ..];
    (destruct b as [|bp bc bd bl br]; simpl in *; [|destruct Hb as (Hb & Hbl & Hbr)]);
    nd_split H4; unfold impl_rotate_right; run; rewrite ?Z.eqb_refl; try eqb_ne; run;
    rewrite ?Z.eqb_refl; try eqb_ne; run; (erewrite wr_run by lk);
    (eexists; split; [reflexivity|]; split; [zrep_tac Hnd | same_tac]).
Qed.

End Rotate.
