(* ===== verification/RbInsert.v ===== *)
(** * Rebalancing after an insertion, on trees *)
From S2P Require Import Prelude RbTree RbSpec.

(** Tactics of the rebalancing proofs: [up] moves the focus to the parent;
    [finish_turn] ends a turn whose last tree is [H]. *)
Ltac up H := rewrite Zrep_fill in H; unfold fill in H; simpl in H.
Section Fix.
Context {D : Type}.
Implicit Types h : gmap Z (rb_node D).
Implicit Types t l r : tree D.
Implicit Types k : list (frame D).

(** The effect of [insert_fix] on the context [k] of a subtree whose root is
    red. *)
Definition rot_in (d1 d2 : dir) (p : Z) (dp : D) (sp : tree D) (g : Z) (dg : D)
    (sg t : tree D) : tree D :=
  match d2, d1, t with
  | DL, DL, _ => T p BLACK dp t (T g RED dg sp sg)
  | DL, DR, T x _ dx xl xr => T x BLACK dx (T p RED dp sp xl) (T g RED dg xr sg)
  | DR, DR, _ => T p BLACK dp (T g RED dg sg sp) t
  | DR, DL, T x _ dx xl xr => T x BLACK dx (T g RED dg sg xl) (T p RED dp xr sp)
  | _, _, E => t
  end.

Fixpoint ins_fix (k : list (frame D)) (t : tree D) : tree D :=
  match k with
  | F d1 p RED dp sp :: F d2 g _ dg sg :: k2 =>
      match colorof sg with
      | RED => ins_fix k2 (fill (F d2 g RED dg (blacken sg)) (fill (F d1 p BLACK dp sp) t))
      | BLACK => plug k2 (rot_in d1 d2 p dp sp g dg sg t)
      end
  | _ => plug k t
  end.

(** The root of the whole tree is black: the outermost frame is. *)
Definition root_black (k : list (frame D)) : Prop :=
  match last k with Some f => fc f = BLACK | None => True end.

Lemma ptrs_blacken t : ptrs (blacken t) = ptrs t.
Proof. by destruct t. Qed.

Lemma insert_fix_stop fuel h hd mu sz k x dx xl xr lm rm :
  Zrep h hd k (T x RED dx xl xr) lm rm ->
  match k with [] => True | f :: _ => fc f = BLACK end ->
  insert_fix (S fuel) x (st h hd mu sz) = Done (tt, st h hd mu sz).
Proof.
  intros HZ Hk. pose proof (Z_focus _ _ _ _ _ _ _ _ _ _ HZ) as Hx.
  destruct k as [|f k].
  - pose proof (Zhead _ _ _ _ _ _ HZ) as Hh. simpl in *. run. done.
  - pose proof (Z_frame _ _ _ _ _ _ _ HZ) as Hf. simpl in *. run.
    unfold fnode. destruct f as [[] ? ? ? ?]; simpl in *; subst; done.
Qed.

(** One turn of the loop whose uncle is red: three recolourings. *)
Lemma recolor_spec h hd mu sz f1 f2 k t sp sc sd sl sr lm rm :
  Zrep h hd (f1 :: f2 :: k) t lm rm ->
  fsib f2 = T sp sc sd sl sr ->
  exists h',
    (set_color (fp f1) BLACK;;; set_color sp BLACK;;; set_color (fp f2) RED)
      (st h hd mu sz) = Done (tt, st h' hd mu sz) /\
    Zrep h' hd k (fill (F (fdir f2) (fp f2) RED (fd f2) (blacken (fsib f2)))
                    (fill (F (fdir f1) (fp f1) BLACK (fd f1) (fsib f1)) t)) lm rm /\
    same h h' (own hd (f1 :: f2 :: k) t).
Proof.
  destruct f1 as [d1 p c1 dp u], f2 as [d2 g c2 dg sg]. simpl. intros HZ ->.
  destruct d1, d2;
    (apply Zrep_fill in HZ; unfold fill in HZ; simpl in HZ;
     step (@set_color_spec D) HZ;
     first [rewrite Zrep_swap in HZ | rewrite <- Zrep_swap in HZ];
     step (@set_color_spec D) HZ;
     first [rewrite Zrep_swap in HZ | rewrite <- Zrep_swap in HZ];
     rewrite Zrep_fill in HZ; unfold fill in HZ; simpl in HZ;
     step (@set_color_spec D) HZ;
     eexists; split; [eassumption|]; split; [exact HZ|];
     same_chain).
Qed.

Ltac finish_turn H :=
  eexists; split; [eapply insert_fix_stop; [exact H | done]|]; split; [|same_chain].

Lemma root_black_cons2 f1 f2 k : root_black (f1 :: f2 :: k) -> root_black (f2 :: k).
Proof. done. Qed.

Lemma root_black_tail f k : root_black (f :: k) -> root_black k.
Proof. by destruct k. Qed.

(** A turn of the loop whose uncle is black rotates once or twice and leaves
    the loop. *)
Lemma rotate_turn_spec fuel h hd mu sz d1 d2 p dp sp g c2 dg sg k x dx xl xr lm rm :
  Zrep h hd (F d1 p RED dp sp :: F d2 g c2 dg sg :: k) (T x RED dx xl xr) lm rm ->
  colorof sg = BLACK ->
  exists h',
    insert_fix (S (S fuel)) x (st h hd mu sz) = Done (tt, st h' hd mu sz) /\
    Zrep h' hd k (rot_in d1 d2 p dp sp g dg sg (T x RED dx xl xr)) lm rm /\
    same h h' (own hd (F d1 p RED dp sp :: F d2 g c2 dg sg :: k) (T x RED dx xl xr)).
Proof.
  intros HZ Hsg.
  pose proof (Z_focus _ _ _ _ _ _ _ _ _ _ HZ) as Hx.
  pose proof (Z_frame _ _ _ _ _ _ _ HZ) as Hp.
  pose proof HZ as HZ1. rewrite Zrep_fill in HZ1.
  pose proof (Z_frame _ _ _ _ _ _ _ HZ1) as Hg.
  assert (exists n, h !! root_of hd sg = Some n /\ _color n = BLACK) as (ns & Hs & Hsc).
  { rewrite <- Hsg. destruct d2; [rewrite Zrep_swap in HZ1 | rewrite <- Zrep_swap in HZ1];
      destruct (Z_root _ _ _ _ _ _ HZ1) as (n & ? & ? & ?); eauto. }
  pose proof (Znodup _ _ _ _ _ _ HZ) as Hnd. nd_split Hnd.
  cbn [insert_fix]. unfold fnode in *. simpl in Hx, Hp, Hg.
  destruct d1, d2; simpl in *; reads; rewrite ?Z.eqb_refl; try eqb_ne;
    reads; rewrite Hsc; simpl; reads; rewrite ?Z.eqb_refl; try eqb_ne; reads;
    clear Hs Hsc ns Hp Hg HZ1.
  - (* left of a left child *)
    up HZ. step (@set_color_spec D) HZ.
    pose proof (Z_focus _ _ _ _ _ _ _ _ _ _ HZ) as Hp; simpl in Hp; reads.
    up HZ. step (@set_color_spec D) HZ.
    step (@impl_rotate_right_spec D) HZ.
    rewrite Zrep_left in HZ. finish_turn HZ. by rewrite Zrep_left.
  - (* left of a right child *)
    up HZ. step (@impl_rotate_right_spec D) HZ. reads.
    rewrite Zrep_right in HZ.
    pose proof (Z_focus _ _ _ _ _ _ _ _ _ _ HZ) as Hp; simpl in Hp; reads.
    up HZ. step (@set_color_spec D) HZ.
    pose proof (Z_focus _ _ _ _ _ _ _ _ _ _ HZ) as Hp'; simpl in Hp'; reads.
    up HZ. step (@set_color_spec D) HZ.
    step (@impl_rotate_left_spec D) HZ.
    rewrite Zrep_right in HZ. finish_turn HZ. by rewrite Zrep_right.
  - (* right of a left child *)
    up HZ. step (@impl_rotate_left_spec D) HZ. reads.
    rewrite Zrep_left in HZ.
    pose proof (Z_focus _ _ _ _ _ _ _ _ _ _ HZ) as Hp; simpl in Hp; reads.
    up HZ. step (@set_color_spec D) HZ.
    pose proof (Z_focus _ _ _ _ _ _ _ _ _ _ HZ) as Hp'; simpl in Hp'; reads.
    up HZ. step (@set_color_spec D) HZ.
    step (@impl_rotate_right_spec D) HZ.
    rewrite Zrep_left in HZ. finish_turn HZ. by rewrite Zrep_left.
  - (* right of a right child *)
    up HZ. step (@set_color_spec D) HZ.
    pose proof (Z_focus _ _ _ _ _ _ _ _ _ _ HZ) as Hp; simpl in Hp; reads.
    up HZ. step (@set_color_spec D) HZ.
    step (@impl_rotate_left_spec D) HZ.
    rewrite Zrep_right in HZ. finish_turn HZ. by rewrite Zrep_right.
Qed.

(** The loop computes [ins_fix] on the represented tree; the length of the
    path is enough fuel. *)
Lemma insert_fix_spec fuel h hd mu sz k x dx xl xr lm rm :
  Zrep h hd k (T x RED dx xl xr) lm rm ->
  root_black k -> (length k < fuel)%nat ->
  exists h', insert_fix fuel x (st h hd mu sz) = Done (tt, st h' hd mu sz) /\
    Zrep h' hd [] (ins_fix k (T x RED dx xl xr)) lm rm /\
    same h h' (own hd k (T x RED dx xl xr)).
Proof.
  revert h k x dx xl xr. induction fuel as [|fuel IH]; [lia|].
  intros h k x dx xl xr HZ Hrb Hlen.
  destruct k as [|[d1 p [] dp sp] [|[d2 g c2 dg sg] k]].
  - eexists. split; [eapply insert_fix_stop; [exact HZ | done]|]. done.
  - done.
  - destruct (colorof sg) eqn:Hsg.
    + (* red uncle *)
      destruct sg as [|u cu du ul ur]; [done|]. simpl in Hsg. subst cu.
      pose proof (Z_focus _ _ _ _ _ _ _ _ _ _ HZ) as Hx.
      pose proof (Z_frame _ _ _ _ _ _ _ HZ) as Hp.
      pose proof HZ as HZ1. rewrite Zrep_fill in HZ1.
      pose proof (Z_frame _ _ _ _ _ _ _ HZ1) as Hg.
      destruct (recolor_spec h hd mu sz _ _ k _ u RED du ul ur lm rm HZ eq_refl)
        as (h' & HE & HZ' & HS).
      pose proof (root_black_tail _ _ (root_black_tail _ _ Hrb)) as Hrb'.
      assert (exists xl' xr', fill (F d2 g RED dg (T u BLACK du ul ur))
         (fill (F d1 p BLACK dp sp) (T x RED dx xl xr)) = T g RED dg xl' xr') as (xl' & xr' & Hf).
      { destruct d2; eauto. }
      simpl in HZ'. rewrite Hf in HZ'.
      destruct (IH h' k g dg xl' xr' HZ' Hrb') as (h2 & HE2 & HZ2 & HS2); [simpl in Hlen; lia|].
      exists h2. split; [|split].
      * pose proof (Znodup _ _ _ _ _ _ HZ) as Hnd. nd_split Hnd.
        assert (h !! u = Some (mkNode g (root_of hd ul) (root_of hd ur) RED false (Some du))) as Hu.
        { destruct d2; [rewrite Zrep_swap in HZ1 | rewrite <- Zrep_swap in HZ1];
            eapply Z_focus in HZ1; exact HZ1. }
        cbn [insert_fix]. destruct d1, d2; simpl in *; unfold fnode in *; simpl in *;
          reads; rewrite ?Z.eqb_refl; try eqb_ne; reads;
          rewrite <- HE2; unfold bind in HE |- *; simpl in HE |- *;
          repeat (case_match; simplify_eq); congruence.
      * simpl. rewrite Hf. exact HZ2.
      * rewrite <- Hf in HS2. destruct d1, d2; simpl in *; same_chain.
    + (* black uncle *)
      destruct fuel as [|fuel]; [simpl in Hlen; lia|].
      destruct (rotate_turn_spec fuel h hd mu sz d1 d2 p dp sp g c2 dg sg k x dx xl xr lm rm
                  HZ Hsg) as (h' & HE & HZ' & HS).
      exists h'. split; [exact HE|]. split; [|exact HS].
      simpl. rewrite Hsg. apply (proj1 (Zrep_plug _ _ _ _ _ _)). exact HZ'.
  - eexists. split; [eapply insert_fix_stop; [exact HZ | done]|].
    split; [|done]. exact (proj1 (Zrep_plug _ _ _ _ _ _) HZ).
  - eexists. split; [eapply insert_fix_stop; [exact HZ | done]|].
    split; [|done]. exact (proj1 (Zrep_plug _ _ _ _ _ _) HZ).
Qed.
End Fix.
