(* ===== verification/RbBalance.v ===== *)
(** * Pure facts about trees: order, lookup positions, colours

    Everything here is about the abstract trees of [RbSpec]: what
    rebalancing keeps, where a search ends, and how the in-order listing of a
    sorted tree splits around a key. *)
From S2P Require Import Prelude RbTree RbSpec RbInsert.

(** What the comparison function of a tree has to be. *)
Class StrictWeakOrder {D} (comp : D -> D -> bool) : Prop := {
  swo_irrefl a : comp a a = false;
  swo_trans a b c : comp a b = true -> comp b c = true -> comp a c = true;
  swo_ntrans a b c : comp a b = false -> comp b c = false -> comp a c = false
}.

Section Balance.
Context {D : Type}.
Implicit Types t l r : tree D.
Implicit Types k : list (frame D).

(** Contexts that keep the red-black invariant of a subtree of black height
    [n]. *)
Inductive rbk : list (frame D) -> nat -> Prop :=
| rbk_nil n : rbk [] n
| rbk_black dr p d sib k n :
    rbt sib n -> rbk k (S n) -> rbk (F dr p BLACK d sib :: k) n
| rbk_red dr p d sib f k n :
    rbt sib n -> colorof sib = BLACK -> fc f = BLACK -> rbk (f :: k) n ->
    rbk (F dr p RED d sib :: f :: k) n.

(** A subtree of colour [c] may stand below the context. *)
Definition fits (c : color) (k : list (frame D)) : Prop :=
  match k with
  | [] => True
  | f :: _ => c = BLACK \/ fc f = BLACK
  end.

Lemma elems_blacken t : elems (blacken t) = elems t.
Proof. by destruct t. Qed.

Lemma colorof_blacken t : colorof (blacken t) = BLACK.
Proof. by destruct t. Qed.

Lemma rbt_blacken t n : rbt t n -> exists m, rbt (blacken t) m.
Proof. intros H. destruct H; simpl; eexists; constructor; eauto. Qed.

Lemma rbt_red_inv p d l r n :
  rbt (T p RED d l r) n -> rbt l n /\ rbt r n /\ colorof l = BLACK /\ colorof r = BLACK.
Proof. by inversion 1. Qed.

Lemma rbt_black_inv p d l r n :
  rbt (T p BLACK d l r) n -> exists m, n = S m /\ rbt l m /\ rbt r m.
Proof. inversion 1; eauto. Qed.

(** Filling a hole of a good context gives a good tree. *)
Lemma rbt_plug k t n : rbk k n -> rbt t n -> fits (colorof t) k -> exists m, rbt (plug k t) m.
Proof.
  intros Hk. revert t. induction Hk as [n|dr p d sib k n Hs Hk IH|dr p d sib f k n Hs Hc Hf Hk IH];
    intros t Ht Hfit; simpl.
  - eauto.
  - apply IH; [by destruct dr; constructor|]. destruct k; simpl; [done|]. left. by destruct dr.
  - assert (colorof t = BLACK) by (destruct Hfit; done).
    apply IH; [by destruct dr; constructor|]. simpl. by right.
Qed.

(** Every position of a good tree is a good context. *)
Lemma rbt_unplug k t m :
  rbt (plug k t) m -> colorof (plug k t) = BLACK ->
  exists n, rbt t n /\ rbk k n /\ (colorof t = RED -> exists f k', k = f :: k' /\ fc f = BLACK).
Proof.
  revert t m. induction k as [|[dr p c d sib] k IH]; intros t m Ht Hb; simpl in *.
  - exists m. split_and!; [done|constructor|congruence].
  - destruct (IH _ _ Ht Hb) as (n & Hn & Hk & Hred).
    assert (exists n', rbt t n' /\ rbt sib n' /\
      match c with BLACK => n = S n'
                 | RED => n = n' /\ colorof t = BLACK /\ colorof sib = BLACK end) as
      (n' & Ht' & Hs' & Hc).
    { destruct dr, c; simpl in Hn;
        first [ apply rbt_red_inv in Hn as (? & ? & ? & ?); exists n; done
              | apply rbt_black_inv in Hn as (n' & -> & ? & ?); exists n'; done ]. }
    exists n'. split; [done|]. destruct c.
    + destruct Hc as (-> & Ht0 & Hs0).
      destruct Hred as (f & k' & -> & Hf); [by destruct dr|].
      split; [by constructor|congruence].
    + subst n. split; [by constructor|]. intros _. by eexists _, _.
Qed.

(** Rebalancing keeps the in-order listing. *)
Lemma elems_ins_fix k t :
  colorof t = RED -> elems (ins_fix k t) = before k ++ elems t ++ after k.
Proof.
  remember (length k) as n eqn:Hn. revert k t Hn.
  induction n as [n IH] using lt_wf_ind. intros k t -> Ht.
  destruct k as [|[d1 p [] dp sp] [|[d2 g c2 dg sg] k]]; try apply (elems_plug (D := D)).
  cbn [ins_fix]. destruct (colorof sg).
  - rewrite (IH (length k)) by (simpl; destruct d2; simpl; done || lia).
    destruct d1, d2; simpl; rewrite ?elems_blacken; by simplify_list_eq.
  - rewrite elems_plug. destruct t as [|x cx dx xl xr]; [done|].
    destruct d1, d2; simpl; by simplify_list_eq.
Qed.

Lemma rot_in_rbt d1 d2 p dp sp g dg sg t n :
  rbt t n -> colorof t = RED -> rbt sp n -> colorof sp = BLACK -> rbt sg n -> colorof sg = BLACK ->
  rbt (rot_in d1 d2 p dp sp g dg sg t) (S n) /\ colorof (rot_in d1 d2 p dp sp g dg sg t) = BLACK.
Proof.
  intros Ht Hr Hsp Hcp Hsg Hcg. destruct t as [|x cx dx xl xr]; [done|]. simpl in Hr. subst cx.
  pose proof (rbt_red_inv _ _ _ _ _ Ht) as (? & ? & ? & ?).
  destruct d1, d2; simpl; (split; [repeat (constructor; auto)|done]).
Qed.

(** Rebalancing restores the red-black invariant. *)
Lemma rbt_ins_fix k t n :
  rbk k n -> rbt t n -> colorof t = RED -> exists m, rbt (blacken (ins_fix k t)) m.
Proof.
  remember (length k) as len eqn:Hn. revert k t n Hn.
  induction len as [len IH] using lt_wf_ind. intros k t n -> Hk Ht Hr.
  destruct Hk as [n|dr p d sib k n Hs Hk|dr p d sib [d2 g c2 dg sg] k n Hs Hc Hf Hk].
  - simpl. by eapply rbt_blacken.
  - simpl. destruct (rbt_plug k (fill (F dr p BLACK d sib) t) (S n)) as (m & Hm); [done|..].
    + by destruct dr; constructor.
    + destruct k; simpl; [done|]. left. by destruct dr.
    + by eapply rbt_blacken.
  - simpl in Hf. subst c2. inversion Hk as [|? ? ? ? ? ? Hsg Hk2|]; subst.
    cbn [ins_fix]. destruct (colorof sg) eqn:Hcg.
    + destruct sg as [|u cu du ul ur]; [done|]. simpl in Hcg. subst cu.
      pose proof (rbt_red_inv _ _ _ _ _ Hsg) as (? & ? & ? & ?).
      eapply (IH (length k)); [simpl; lia|done|exact Hk2| |by destruct d2].
      destruct d2, dr; simpl; repeat (constructor; auto).
    + destruct (rot_in_rbt dr d2 p d sib g dg sg t n) as [Hrot Hcrot]; try done.
      destruct (rbt_plug k _ (S n) Hk2 Hrot) as (m & Hm).
      * rewrite Hcrot. destruct k; simpl; auto.
      * by eapply rbt_blacken.
Qed.

Lemma rbk_root_black k n : rbk k n -> root_black k.
Proof.
  induction 1 as [|dr p d sib k n Hs Hk IH|dr p d sib f k n Hs Hc Hf Hk IH].
  - done.
  - destruct k; [done|]. exact IH.
  - exact IH.
Qed.

(** *** Order *)

Context (comp : D -> D -> bool) `{!StrictWeakOrder comp}.

(** The listing of a search tree without equivalent keys. *)
Fixpoint sorted (l : list (Z * D)) : Prop :=
  match l with
  | [] => True
  | e :: l => Forall (fun e' => comp e.2 e'.2 = true) l /\ sorted l
  end.

Lemma sorted_app (l1 l2 : list (Z * D)) :
  sorted (l1 ++ l2) <->
  sorted l1 /\ sorted l2 /\ Forall (fun e => Forall (fun e' => comp e.2 e'.2 = true) l2) l1.
Proof.
  induction l1 as [|e l1 IH]; simpl; [rewrite Forall_nil; tauto|].
  rewrite IH, Forall_app, Forall_cons. tauto.
Qed.

(** The elements not after, respectively after, a key. *)
Definition upto (d : D) (l : list (Z * D)) : list (Z * D) :=
  filter (fun e => comp d e.2 = false) l.
Definition beyond (d : D) (l : list (Z * D)) : list (Z * D) :=
  filter (fun e => comp d e.2 = true) l.

(** Where a search for the place of [d] ends. *)
Fixpoint ins_path (d : D) (t : tree D) (k : list (frame D)) : list (frame D) :=
  match t with
  | E => k
  | T p c dd l r =>
      if comp d dd then ins_path d l (F DL p c dd r :: k)
      else ins_path d r (F DR p c dd l :: k)
  end.

Lemma plug_ins_path d t k : plug (ins_path d t k) E = plug k t.
Proof. revert k. induction t; intros k; simpl; [done|]. case_match; naive_solver. Qed.

Lemma filter_all {A} (P : A -> Prop) `{forall x, Decision (P x)} (l : list A) :
  Forall P l -> filter P l = l.
Proof. induction 1; [done|]. rewrite filter_cons. case_decide; congruence. Qed.
Lemma filter_none {A} (P : A -> Prop) `{forall x, Decision (P x)} (l : list A) :
  Forall (fun x => ~ P x) l -> filter P l = [].
Proof. induction 1; [done|]. rewrite filter_cons. by case_decide. Qed.

Lemma ins_path_split d t k :
  sorted (elems t) ->
  before (ins_path d t k) = before k ++ upto d (elems t) /\ after (ins_path d t k) = beyond d (elems t) ++ after k.
Proof.
  revert k. induction t as [|p c dd l IHl r IHr]; intros k Hs; simpl in *.
  - by rewrite app_nil_r.
  - apply sorted_app in Hs as (Hsl & [Hpr Hsr] & Hlp).
    assert (Forall (fun e => comp e.2 dd = true) (elems l)) as Hl.
    { eapply Forall_impl; [exact Hlp|]. simpl. intros e. by rewrite Forall_cons; intros []. }
    unfold upto, beyond. rewrite !filter_app, !filter_cons. simpl.
    destruct (comp d dd) eqn:Hd.
    + destruct (IHl (F DL p c dd r :: k) Hsl) as [-> ->]. simpl.
      rewrite (filter_none (fun e => comp d e.2 = false) (elems r)).
      2:{ eapply Forall_impl; [exact Hpr|]. simpl. intros e He.
          by rewrite (swo_trans d dd e.2). }
      rewrite (filter_all (fun e => comp d e.2 = true) (elems r)).
      2:{ eapply Forall_impl; [exact Hpr|]. simpl. intros e He. by rewrite (swo_trans d dd e.2). }
      simpl. rewrite !app_nil_r. by simplify_list_eq.
    + destruct (IHr (F DR p c dd l :: k) Hsr) as [-> ->]. simpl.
      assert (Forall (fun e => comp d e.2 = false) (elems l)) as Hl'.
      { eapply Forall_impl; [exact Hl|]. simpl. intros e He.
        destruct (comp d e.2) eqn:Hc; [|done].
        by rewrite (swo_trans d e.2 dd) in Hd. }
      rewrite (filter_all _ _ Hl').
      rewrite (filter_none (fun e => comp d e.2 = true) (elems l)).
      2:{ eapply Forall_impl; [exact Hl'|]. simpl. intros e He. congruence. }
      simpl. by simplify_list_eq.
Qed.
End Balance.
