(* ===== verification/RbSearch.v ===== *)
(** * Descents, climbs and searches on represented trees *)
From S2P Require Import Prelude RbTree RbSpec RbInsert RbBalance.

(** [isnil H]: the root of the represented subtree [H] is the sentinel exactly
    when the subtree is empty. *)
Ltac isnil H :=
  let n := fresh "n" in let Hn := fresh "Hn" in let Hnil := fresh "Hnil" in
  edestruct (Z_root _ _ _ _ _ _ H) as (n & Hn & _ & Hnil); simpl in Hn;
  reads; rewrite Hnil; clear Hn Hnil n; simpl.

Section Search.
Context {D : Type} (comp : D -> D -> bool).
Implicit Types h : gmap Z (rb_node D).
Implicit Types t l r : tree D.
Implicit Types k : list (frame D).

Lemma impl_comp_bind {B} a b na nb da db (K : bool -> M (rb_tree D) B) h hd mu sz :
  h !! a = Some na -> data na = Some da -> h !! b = Some nb -> data nb = Some db ->
  bind (impl_comp comp a b) K (st h hd mu sz) = K (comp da db) (st h hd mu sz).
Proof.
  intros Ha Hda Hb Hdb. unfold impl_comp. reads. by rewrite Hda, Hdb.
Qed.

(** [node_min] / [node_max]: the first and last node of a subtree. *)
Lemma node_min_loop_spec fuel h hd mu sz k p c d l r lm rm :
  Zrep h hd k (T p c d l r) lm rm -> (length (ptrs l) < fuel)%nat ->
  node_min_loop fuel p (st h hd mu sz) = Done (lmost hd (T p c d l r), st h hd mu sz).
Proof.
  revert k p c d r fuel. induction l as [|q cq dq ll IHl lr _]; intros k p c d r fuel HZ Hf;
    (destruct fuel as [|fuel]; [lia|]); cbn [node_min_loop];
    pose proof (Z_focus _ _ _ _ _ _ _ _ _ _ HZ) as Hp; rewrite Zrep_left in HZ;
    reads; isnil HZ; [done|].
  erewrite IHl; [|exact HZ|simpl in Hf; rewrite length_app in Hf; lia].
  unfold lmost. simpl. rewrite <- app_assoc. simpl. by destruct (elems ll).
Qed.

Lemma node_max_loop_spec fuel h hd mu sz k p c d l r lm rm :
  Zrep h hd k (T p c d l r) lm rm -> (length (ptrs r) < fuel)%nat ->
  node_max_loop fuel p (st h hd mu sz) = Done (rmost hd (T p c d l r), st h hd mu sz).
Proof.
  revert k p c d l fuel. induction r as [|q cq dq rl _ rr IHr]; intros k p c d l fuel HZ Hf;
    (destruct fuel as [|fuel]; [lia|]); cbn [node_max_loop];
    pose proof (Z_focus _ _ _ _ _ _ _ _ _ _ HZ) as Hp; rewrite Zrep_right in HZ;
    reads; isnil HZ.
  - unfold rmost. simpl. by rewrite last_snoc.
  - erewrite IHr; [|exact HZ|simpl in Hf; rewrite length_app in Hf; lia].
    unfold rmost. simpl. rewrite !last_app, !last_cons, !last_app, !last_cons.
    by destruct (last (elems rr)).
Qed.

Lemma Zrep_loop_fuel {B} h hd k t lm rm mu sz (K : nat -> M (rb_tree D) B) :
  Zrep h hd k t lm rm ->
  exists fuel, (length (ptrs t) + length (ptrsk k) + 1 < fuel)%nat /\
    bind loop_fuel K (st h hd mu sz) = K fuel (st h hd mu sz).
Proof.
  intros HZ. eexists. split; [|done]. pose proof (Zrep_fuel _ _ _ _ _ _ HZ). simpl. lia.
Qed.

Lemma length_frames k : (length k <= length (ptrsk k))%nat.
Proof. induction k as [|f k IH]; simpl; [lia|]. rewrite length_app. lia. Qed.

(** [climb_left] from a node whose context is [k] finds the last node before
    the subtree, or the head. *)
Lemma climb_left_spec fuel h hd mu sz k p c d l r lm rm :
  Zrep h hd k (T p c d l r) lm rm -> (length k < fuel)%nat ->
  exists q, climb_left fuel p (st h hd mu sz) =
    Done ((q, match last (before k) with Some e => e.1 | None => hd end), st h hd mu sz) /\
  exists n, h !! q = Some n /\ _isnil n = false.
Proof.
  revert fuel p c d l r. induction k as [|[dr pp pc pd sib] k IH];
    intros fuel p c d l r HZ Hf; (destruct fuel as [|fuel]; [simpl in Hf; lia|]); cbn [climb_left];
    pose proof (Z_focus _ _ _ _ _ _ _ _ _ _ HZ) as Hp.
  - pose proof (Zhead _ _ _ _ _ _ HZ) as Hh. exists p. simpl in *. reads. eauto.
  - pose proof (Z_frame _ _ _ _ _ _ _ HZ) as Hpp. unfold fnode in *.
    pose proof (Znodup _ _ _ _ _ _ HZ) as Hnd. nd_split Hnd.
    destruct dr; simpl in *; reads.
    + rewrite Z.eqb_refl. rewrite app_nil_r.
      rewrite Zrep_fill in HZ. unfold fill in HZ. simpl in HZ.
      eapply IH; [exact HZ|lia].
    + eqb_ne. exists p. rewrite app_assoc, last_snoc. eauto.
Qed.

Lemma climb_right_spec fuel h hd mu sz k p c d l r lm rm :
  Zrep h hd k (T p c d l r) lm rm -> (length k < fuel)%nat ->
  exists q, climb_right fuel p (st h hd mu sz) =
    Done ((q, match after k with e :: _ => e.1 | [] => hd end), st h hd mu sz).
Proof.
  revert fuel p c d l r. induction k as [|[dr pp pc pd sib] k IH];
    intros fuel p c d l r HZ Hf; (destruct fuel as [|fuel]; [simpl in Hf; lia|]); cbn [climb_right];
    pose proof (Z_focus _ _ _ _ _ _ _ _ _ _ HZ) as Hp.
  - pose proof (Zhead _ _ _ _ _ _ HZ) as Hh. exists p. simpl in *. reads. eauto.
  - pose proof (Z_frame _ _ _ _ _ _ _ HZ) as Hpp. unfold fnode in *.
    pose proof (Znodup _ _ _ _ _ _ HZ) as Hnd. nd_split Hnd.
    destruct dr; simpl in *; reads.
    + eqb_ne. exists p. eauto.
    + rewrite Z.eqb_refl.
      rewrite Zrep_fill in HZ. unfold fill in HZ. simpl in HZ.
      eapply IH; [exact HZ|lia].
Qed.

(** [node_next] / [node_prev] from a node of the tree move to its neighbour
    in the in-order listing, and to the head past the ends. *)
Lemma node_next_spec h hd mu sz k p c d l r lm rm :
  Zrep h hd k (T p c d l r) lm rm ->
  node_next p (st h hd mu sz) =
    Done (match elems r ++ after k with e :: _ => e.1 | [] => hd end, st h hd mu sz).
Proof.
  intros HZ. unfold node_next. pose proof (Z_focus _ _ _ _ _ _ _ _ _ _ HZ) as Hp. reads.
  pose proof HZ as HZr. rewrite Zrep_right in HZr. 
  destruct r as [|q cq dq rl rr]; isnil HZr.
  - edestruct (@Zrep_loop_fuel Z) as (fuel & Hf & ->); [exact HZ|].
    destruct (climb_right_spec fuel h hd mu sz _ _ _ _ _ _ _ _ HZ) as (q & HE).
    { pose proof (length_frames k). lia. }
    by erewrite bind_done by exact HE.
  - unfold node_min. edestruct (@Zrep_loop_fuel Z) as (fuel & Hf & ->); [exact HZr|].
    erewrite node_min_loop_spec; [|exact HZr|simpl in Hf; rewrite length_app in Hf; lia].
    unfold lmost. simpl. rewrite <- app_assoc. by destruct (elems rl).
Qed.

Lemma node_prev_spec h hd mu sz k p c d l r lm rm :
  Zrep h hd k (T p c d l r) lm rm ->
  node_prev p (st h hd mu sz) =
    Done (match last (before k ++ elems l) with Some e => e.1 | None => hd end, st h hd mu sz).
Proof.
  intros HZ. unfold node_prev. pose proof (Z_focus _ _ _ _ _ _ _ _ _ _ HZ) as Hp. reads.
  pose proof HZ as HZl. rewrite Zrep_left in HZl. 
  destruct l as [|q cq dq ll lr]; isnil HZl.
  - edestruct (@Zrep_loop_fuel Z) as (fuel & Hf & ->); [exact HZ|].
    destruct (climb_left_spec fuel h hd mu sz _ _ _ _ _ _ _ _ HZ) as (q & HE & n & Hq & Hn).
    { pose proof (length_frames k). lia. }
    erewrite bind_done by exact HE. reads. rewrite Hn. by rewrite app_nil_r.
  - unfold node_max. edestruct (@Zrep_loop_fuel Z) as (fuel & Hf & ->); [exact HZl|].
    erewrite node_max_loop_spec; [|exact HZl|simpl in Hf; rewrite length_app in Hf; lia].
    unfold rmost. simpl. rewrite !last_app, !last_cons.
    by destruct (last (elems lr)).
Qed.

(** The descent of an insertion ends at [ins_path]. *)
Definition side k : bool :=
  match k with
  | F DR _ _ _ _ :: _ => false
  | _ => true
  end.

Lemma insert_descend_spec fuel h hd mu sz k t lm rm node nn d :
  Zrep h hd k t lm rm -> h !! node = Some nn -> data nn = Some d ->
  (length (ptrs t) < fuel)%nat ->
  insert_descend comp fuel (par hd k) (root_of hd t) node (side k) false (st h hd mu sz) =
    Done ((par hd (ins_path comp d t k), side (ins_path comp d t k)), st h hd mu sz).
Proof.
  revert fuel k. induction t as [|p c dd l IHl r IHr]; intros fuel k HZ Hn Hd Hf;
    (destruct fuel as [|fuel]; [simpl in Hf; lia|]); cbn [insert_descend].
  - isnil HZ. done.
  - isnil HZ. pose proof (Z_focus _ _ _ _ _ _ _ _ _ _ HZ) as Hp.
    erewrite (impl_comp_bind node p) by (try eassumption; reflexivity).
    simpl in Hf. rewrite length_app in Hf.
    destruct (comp d dd); reads.
    + rewrite Zrep_left in HZ. eapply (IHl fuel _ HZ Hn Hd). lia.
    + rewrite Zrep_right in HZ. eapply (IHr fuel _ HZ Hn Hd). lia.
Qed.

Context `{!StrictWeakOrder comp}.

Definition first_or (hd : Z) (l : list (Z * D)) : Z :=
  match l with e :: _ => e.1 | [] => hd end.

(** The elements not before a key. *)
Definition from (v : D) (l : list (Z * D)) : list (Z * D) :=
  filter (fun e => comp e.2 v = false) l.

Lemma sorted_node_inv l (p : Z) (dd : D) r :
  sorted comp (elems l ++ (p, dd) :: elems r) ->
  sorted comp (elems l) /\ sorted comp (elems r) /\
  Forall (fun e => comp e.2 dd = true) (elems l) /\
  Forall (fun e => comp dd e.2 = true) (elems r).
Proof.
  rewrite sorted_app. simpl. intros (Hl & [Hp Hr] & Hlp). split_and!; try done.
  eapply Forall_impl; [exact Hlp|]. simpl. intros e. by rewrite Forall_cons; intros [].
Qed.

Lemma lbnd_loop_spec fuel h hd mu sz k t lm rm parent val nv v :
  Zrep h hd k t lm rm -> h !! val = Some nv -> data nv = Some v ->
  (length (ptrs t) < fuel)%nat -> sorted comp (elems t) ->
  lbnd_loop comp fuel parent (root_of hd t) val (st h hd mu sz) =
    Done (first_or parent (from v (elems t)), st h hd mu sz).
Proof.
  revert fuel k parent. induction t as [|p c dd l IHl r IHr];
    intros fuel k parent HZ Hn Hd Hf Hs;
    (destruct fuel as [|fuel]; [simpl in Hf; lia|]); cbn [lbnd_loop].
  - isnil HZ. done.
  - isnil HZ. pose proof (Z_focus _ _ _ _ _ _ _ _ _ _ HZ) as Hp.
    erewrite (impl_comp_bind p val) by (try eassumption; reflexivity).
    simpl in Hf. rewrite length_app in Hf.
    apply sorted_node_inv in Hs as (Hsl & Hsr & Hl & Hr).
    unfold from. simpl. rewrite filter_app, filter_cons. simpl.
    destruct (comp dd v) eqn:Hc; reads.
    + rewrite Zrep_right in HZ. rewrite (IHr fuel _ parent HZ Hn Hd ltac:(lia) Hsr).
      rewrite (filter_none (fun e => comp e.2 v = false) (elems l)); [done|].
      eapply Forall_impl; [exact Hl|]. simpl. intros e He.
      by rewrite (swo_trans e.2 dd v).
    + rewrite Zrep_left in HZ. rewrite (IHl fuel _ p HZ Hn Hd ltac:(lia) Hsl).
      unfold from. by destruct (filter _ (elems l)).
Qed.

Lemma ubnd_loop_spec fuel h hd mu sz k t lm rm parent val nv v :
  Zrep h hd k t lm rm -> h !! val = Some nv -> data nv = Some v ->
  (length (ptrs t) < fuel)%nat -> sorted comp (elems t) ->
  ubnd_loop comp fuel parent (root_of hd t) val (st h hd mu sz) =
    Done (first_or parent (beyond comp v (elems t)), st h hd mu sz).
Proof.
  revert fuel k parent. induction t as [|p c dd l IHl r IHr];
    intros fuel k parent HZ Hn Hd Hf Hs;
    (destruct fuel as [|fuel]; [simpl in Hf; lia|]); cbn [ubnd_loop].
  - isnil HZ. done.
  - isnil HZ. pose proof (Z_focus _ _ _ _ _ _ _ _ _ _ HZ) as Hp.
    erewrite (impl_comp_bind val p) by (try eassumption; reflexivity).
    simpl in Hf. rewrite length_app in Hf.
    apply sorted_node_inv in Hs as (Hsl & Hsr & Hl & Hr).
    unfold beyond. simpl. rewrite filter_app, filter_cons. simpl.
    destruct (comp v dd) eqn:Hc; reads.
    + rewrite Zrep_left in HZ. rewrite (IHl fuel _ p HZ Hn Hd ltac:(lia) Hsl).
      unfold beyond. by destruct (filter _ (elems l)).
    + rewrite Zrep_right in HZ. rewrite (IHr fuel _ parent HZ Hn Hd ltac:(lia) Hsr).
      rewrite (filter_none (fun e => comp v e.2 = true) (elems l)); [done|].
      eapply Forall_impl; [exact Hl|]. simpl. intros e He Hve.
      by rewrite (swo_trans v e.2 dd) in Hc.
Qed.
End Search.
