(* ===== verification/RbProofs.v ===== *)
(** * The contract of the red-black tree

    [rb_view s l]: the state [s] stores a well-formed red-black search tree
    whose in-order listing (node address, data) is [l].  The theorems state
    every public operation on this view, with no reference to colours,
    parent pointers or fuel. *)
From S2P Require Import Prelude RbTree RbSpec RbInsert RbBalance RbSearch.

Section View.
Context {D : Type} (comp : D -> D -> bool).

Record rb_holds (s : rb_tree D) (t : tree D) : Prop := {
  holds_rep : Zrep (t_nodes s) (t_head s) [] t (lmost (t_head s) t) (rmost (t_head s) t);
  holds_size : t_size s = u64 (Z.of_nat (length (elems t)))
}.

Record rb_wf (t : tree D) : Prop := {
  wf_balanced : exists n, rbt t n;
  wf_root : colorof t = BLACK;
  wf_sorted : sorted comp (elems t)
}.

Definition rb_view (s : rb_tree D) (l : list (Z * D)) : Prop :=
  exists t, rb_holds s t /\ rb_wf t /\ elems t = l.

(** Key equivalence, and the sorted insertion that [rb_insert] performs. *)
Definition equiv_key (a b : D) : bool := negb (comp a b) && negb (comp b a).
Definition place (node : Z) (d : D) (l : list (Z * D)) : list (Z * D) :=
  upto comp d l ++ (node, d) :: beyond comp d l.
End View.

Section Insert.
Context {D : Type} (comp : D -> D -> bool) `{!StrictWeakOrder comp}.
Implicit Types h : gmap Z (rb_node D).
Implicit Types t l r : tree D.
Implicit Types k : list (frame D).

(** The first half of [impl_node_insert]: linking the new node. *)
Definition attach (node pos : Z) (addleft : bool) : M (rb_tree D) unit :=
  set_parent node pos;;;
  h <- rb_head;;
  (if pos =? h then
     set_root node;;; set_lmst node;;; set_rmst node
   else if addleft then
     set_left pos node;;;
     lm <- impl_lmst;; when (pos =? lm) (set_lmst node)
   else
     set_right pos node;;;
     rm <- impl_rmst;; when (pos =? rm) (set_rmst node)).

Definition new_lm k (node lm : Z) (hd : Z) : Z :=
  if side k && (par hd k =? lm) then node else lm.
Definition new_rm k (node rm : Z) (hd : Z) : Z :=
  match k with
  | [] => node
  | _ => if negb (side k) && (par hd k =? rm) then node else rm
  end.

Lemma attach_spec h hd mu sz k lm rm node p0 d :
  Zrep h hd k E lm rm -> node ∉ own hd k E ->
  (k = [] -> lm = hd) ->
  h !! node = Some (mkNode p0 hd hd RED false (Some d)) ->
  exists h', attach node (par hd k) (side k) (st h hd mu sz) = Done (tt, st h' hd mu sz) /\
    Zrep h' hd k (T node RED d E E) (new_lm k node lm hd) (new_rm k node rm hd) /\
    same h h' (node :: own hd k E).
Proof.
  intros [H1 _ H3 H4] Hfresh Hlm Hn. rewrite own_unfold in Hfresh. simpl in *.
  assert (NoDup (hd :: node :: ptrsk k)) as Hnd.
  { rewrite !list.NoDup_cons in *. set_solver. }
  assert (forall h', same h h' (node :: hd :: ptrsk k) -> same h h' (node :: own hd k E)) as Hown.
  { intros h'. apply same_perm. rewrite own_unfold. done. }
  clear H4 Hfresh. pose proof Hnd as Hnd0.
  unfold new_lm, new_rm, attach. destruct k as [|[[] p pc pd sib] k]; simpl in *.
  - nd_split Hnd0. rewrite Hlm by done. rewrite Z.eqb_refl. run. rewrite Z.eqb_refl. run.
    erewrite wr_run by lk. eexists. split; [reflexivity|].
    split; [zrep_tac Hnd|]. apply Hown.
    repeat (eapply same_insert; [ | mem | lk ]). apply same_refl.
  - destruct H3 as (Hp & Hs & Hk). unfold fnode in Hp. simpl in Hp. nd_split Hnd0.
    run. eqb_ne. run. destruct (p =? lm); simpl; [run; erewrite wr_run by lk|];
      (eexists; split; [reflexivity|]; split; [zrep_tac Hnd|]; apply Hown;
       repeat (eapply same_insert; [ | mem | lk ]); apply same_refl).
  - destruct H3 as (Hp & Hs & Hk). unfold fnode in Hp. simpl in Hp. nd_split Hnd0.
    run. eqb_ne. run. destruct (p =? rm); simpl; [run; erewrite wr_run by lk|];
      (eexists; split; [reflexivity|]; split; [zrep_tac Hnd|]; apply Hown;
       repeat (eapply same_insert; [ | mem | lk ]); apply same_refl).
Qed.

(** [impl_node_insert] at the place a descent found. *)
Lemma impl_node_insert_spec h hd mu sz k n lm rm node p0 d :
  Zrep h hd k E lm rm -> rbk k n -> rbt (D := D) E n -> node ∉ own hd k E ->
  (k = [] -> lm = hd) ->
  h !! node = Some (mkNode p0 hd hd RED false (Some d)) ->
  exists h' t m,
    impl_node_insert node (par hd k) (side k) (st h hd mu sz) =
      Done (node, st h' hd mu (u64 (sz + 1))) /\
    Zrep h' hd [] t (new_lm k node lm hd) (new_rm k node rm hd) /\
    elems t = before k ++ (node, d) :: after k /\ rbt t m /\ colorof t = BLACK /\
    same h h' (node :: own hd k E).
Proof.
  intros HZ Hk HE Hfresh Hlm Hn.
  destruct (attach_spec h hd mu sz k lm rm node p0 d HZ Hfresh Hlm Hn) as (h1 & E1 & Z1 & S1).
  destruct (rbt_ins_fix k (T node RED d E E) n Hk) as (m & Hm); [by constructor|done|].
  edestruct (@Zrep_loop_fuel D Z) with (mu := mu) (sz := sz) as (fuel & Hf & Hfuel); [exact Z1|].
  destruct (insert_fix_spec fuel h1 hd mu sz k node d E E _ _ Z1) as (h2 & E2 & Z2 & S2).
  { by eapply rbk_root_black. }
  { pose proof (length_frames k). lia. }
  pose proof (elems_ins_fix k (T node RED d E E) eq_refl) as Hel. simpl in Hel.
  destruct (ins_fix k (T node RED d E E)) as [|r rc rd' rl rr] eqn:Hfix.
  { simpl in Hel. destruct (before k); done. }
  destruct (set_color_spec h2 hd mu sz [] r rc BLACK rd' rl rr _ _ Z2) as (h3 & E3 & Z3 & S3).
  exists h3, (T r BLACK rd' rl rr), m. split_and!; try done.
  - unfold impl_node_insert.
    transitivity (bind (attach node (par hd k) (side k)) (fun _ =>
      fuel <- loop_fuel;; insert_fix fuel node;;; r <- impl_root;; set_color r BLACK;;;
      sz <- gets t_size;; set_size (sz + 1);;; ret node) (st h hd mu sz)).
    { unfold attach. rewrite !bind_assoc. unfold bind. simpl.
      repeat (case_match; simplify_eq; try done). }
    erewrite bind_done by exact E1. rewrite Hfuel.
    erewrite bind_done by exact E2.
    pose proof (Zhead _ _ _ _ _ _ Z2) as Hh. simpl in Hh. reads.
    erewrite bind_done by exact E3. reflexivity.
  - assert (own hd k (T node RED d E E) ≡ₚ node :: own hd k E) as Hp1.
    { rewrite !own_unfold. simpl. solve_Permutation. }
    assert (own hd [] (T r rc rd' rl rr) ≡ₚ node :: own hd k E) as Hp2.
    { unfold own. simpl plug. rewrite <- !fst_elems, Hel, elems_plug. simpl.
      rewrite !fmap_app. simpl. solve_Permutation. }
    eapply same_step; [exact S1|done|]. eapply same_step; [exact S2|exact Hp1|].
    eapply same_perm; [exact Hp2|exact S3].
Qed.

(** [lmst]/[rmst] after an insertion are those of the new tree. *)
Lemma new_lm_spec hd k t node d :
  NoDup (hd :: node :: ptrsk k) ->
  elems t = before k ++ (node, d) :: after k ->
  new_lm k node (lmost hd (plug k E)) hd = lmost hd t.
Proof.
  intros Hnd Hel. unfold new_lm, lmost. rewrite Hel, elems_plug. simpl.
  destruct k as [|[[] p c dp sib] k]; simpl.
  - by rewrite Z.eqb_refl.
  - rewrite app_nil_r. destruct (before k) as [|[q dq] b] eqn:Hb; simpl.
    + by rewrite Z.eqb_refl.
    + destruct (p =? q) eqn:Hpq; [|done]. apply Z.eqb_eq in Hpq. subst q. exfalso.
      assert (p ∈ ptrsk k) as Hin.
      { rewrite <- (app_nil_l (ptrsk k)), <- (ptrs_plug k E), <- fst_elems, elems_plug, Hb.
        simpl. apply elem_of_cons. by left. }
      simpl in Hnd. rewrite !list.NoDup_cons in Hnd. set_solver.
  - destruct (before k) as [|[q dq] b] eqn:Hb; simpl; [|done].
    by destruct (elems sib).
Qed.

Lemma new_rm_spec hd k t node d :
  NoDup (hd :: node :: ptrsk k) ->
  elems t = before k ++ (node, d) :: after k ->
  new_rm k node (rmost hd (plug k E)) hd = rmost hd t.
Proof.
  intros Hnd Hel. unfold new_rm, rmost. rewrite Hel, elems_plug. simpl.
  destruct k as [|[[] p c dp sib] k]; simpl.
  - done.
  - rewrite !last_app. simpl. rewrite !last_cons, !last_app.
    destruct (last (after k)); [done|]. by destruct (last (elems sib)).
  - rewrite ?last_app, ?last_cons, ?last_app. simpl.
    destruct (last (after k)) as [[q dq]|] eqn:Hb; simpl.
    + destruct (p =? q) eqn:Hpq; [|done]. apply Z.eqb_eq in Hpq. subst q. exfalso.
      assert (p ∈ ptrsk k) as Hin.
      { rewrite <- (app_nil_l (ptrsk k)), <- (ptrs_plug k E), <- fst_elems, elems_plug.
        apply last_Some in Hb as (l' & Hb). rewrite Hb, !fmap_app, !elem_of_app. simpl.
        right. right. right. apply elem_of_cons. by left. }
      simpl in Hnd. rewrite !list.NoDup_cons in Hnd. set_solver.
    + by rewrite Z.eqb_refl.
Qed.

Lemma node_init_spec h hd mu sz node n0 d :
  h !! node = Some n0 -> data n0 = Some d ->
  node_init node hd (st h hd mu sz) =
    Done (tt, st (<[node := mkNode hd hd hd RED false (Some d)]> h) hd mu sz).
Proof.
  intros Hn Hd. unfold node_init. run. erewrite wr_run by lk. simpl.
  by rewrite !insert_insert_eq, Hd.
Qed.

Lemma rep_data hd h parent t e :
  rep hd h parent t -> e ∈ elems t -> exists n, h !! e.1 = Some n /\ data n = Some e.2.
Proof.
  revert parent. induction t as [|p c d l IHl r IHr]; simpl; intros parent; [set_solver|].
  intros (Hp & Hl & Hr). rewrite elem_of_app, elem_of_cons.
  intros [?|[->|?]]; eauto.
Qed.

(** The descent's last node before the hole, and where it stands. *)
Lemma pos_prev h hd mu sz k lm rm :
  Zrep h hd k E lm rm -> k <> [] ->
  (if side k then node_prev (par hd k) else ret (par hd k)) (st h hd mu sz) =
    Done (match last (before k) with Some e => e.1 | None => hd end, st h hd mu sz).
Proof.
  intros HZ Hk. destruct k as [|[[] p c d sib] k]; [done| |]; simpl.
  - rewrite Zrep_fill in HZ. unfold fill in HZ. simpl in HZ.
    by erewrite node_prev_spec by exact HZ.
  - unfold ret. by rewrite app_assoc, last_snoc.
Qed.

Lemma side_leftmost hd k :
  NoDup (hd :: ptrsk k) -> side k = true ->
  (par hd k =? lmost hd (plug k E)) = true <-> before k = [].
Proof.
  intros Hnd Hside. unfold lmost. rewrite elems_plug. simpl.
  destruct k as [|[[] p c d sib] k]; simpl in *; [|rewrite app_nil_r|done].
  - by rewrite Z.eqb_refl.
  - destruct (before k) as [|[q dq] b] eqn:Hb; simpl; [by rewrite Z.eqb_refl|].
    split; [|done]. intros ->%Z.eqb_eq. exfalso.
    assert (q ∈ ptrsk k) as Hin.
    { rewrite <- (app_nil_l (ptrsk k)), <- (ptrs_plug k E), <- fst_elems, elems_plug, Hb.
      simpl. apply elem_of_cons. by left. }
    rewrite !list.NoDup_cons in Hnd. set_solver.
Qed.

(** In a sorted listing the last element not after [d] decides whether a key
    equivalent to [d] is present. *)
Lemma find_last_upto (l : list (Z * D)) d :
  sorted comp l ->
  List.find (fun e => equiv_key comp e.2 d) l =
    match last (upto comp d l) with
    | Some e => if comp e.2 d then None else Some e
    | None => None
    end.
Proof.
  induction l as [|e l IH]; simpl; [done|]. intros [He Hs].
  unfold upto, equiv_key in *. rewrite filter_cons.
  destruct (comp d e.2) eqn:Hde.
  - rewrite decide_False by congruence. rewrite andb_false_r. rewrite IH by done.
    rewrite (filter_none (fun e0 => comp d e0.2 = false) l); [done|].
    eapply Forall_impl; [exact He|]. simpl. intros e' He'. by rewrite (swo_trans d e.2 e'.2).
  - rewrite decide_True by done. rewrite andb_true_r, last_cons.
    destruct (comp e.2 d) eqn:Hed; simpl.
    + rewrite IH by done. destruct (last _); [done|]. by rewrite Hed.
    + rewrite (filter_none (fun e0 => comp d e0.2 = false) l); [simpl; by rewrite Hed|].
      eapply Forall_impl; [exact He|]. simpl. intros e' He' Hd.
      destruct (comp d e'.2) eqn:Hde'; [done|].
      pose proof (swo_ntrans e.2 d e'.2 Hed Hde'). congruence.
Qed.

Lemma sorted_place (l : list (Z * D)) node d :
  sorted comp l -> List.find (fun e => equiv_key comp e.2 d) l = None ->
  sorted comp (place comp node d l).
Proof.
  intros Hs Hf. unfold place. apply sorted_app. simpl.
  assert (forall P, Forall P l -> Forall P (upto comp d l) /\ Forall P (beyond comp d l)) as Hsub.
  { intros P. rewrite !Forall_forall. intros HP.
    split; intros e He; apply list_elem_of_filter in He as [_ He]; auto. }
  assert (Forall (fun e => comp e.2 d = true) (upto comp d l)) as Hup.
  { apply Forall_forall. intros e He. apply list_elem_of_filter in He as [Hc He].
    pose proof (List.find_none _ _ Hf e) as Hne. simpl in Hne. unfold equiv_key in Hne.
    rewrite Hc, andb_true_r in Hne. apply negb_false_iff, Hne. by apply list_elem_of_In. }
  assert (Forall (fun e => comp d e.2 = true) (beyond comp d l)) as Hbe.
  { apply Forall_forall. intros e He. by apply list_elem_of_filter in He as [Hc He]. }
  split_and!.
  - clear -Hs. induction l as [|e l IH]; simpl; [done|]. destruct Hs as [He Hs].
    unfold upto in *. rewrite filter_cons. case_decide; simpl; [|auto].
    split; [|auto]. apply Forall_forall. intros e' He'. rewrite Forall_forall in He.
    apply He. by apply list_elem_of_filter in He' as [_ He'].
  - done.
  - clear -Hs. induction l as [|e l IH]; simpl; [done|]. destruct Hs as [He Hs].
    unfold beyond in *. rewrite filter_cons. case_decide; simpl; [|auto].
    split; [|auto]. apply Forall_forall. intros e' He'. rewrite Forall_forall in He.
    apply He. by apply list_elem_of_filter in He' as [_ He'].
  - rewrite Forall_forall in Hup |- *. intros e He. apply Forall_cons. split; [auto|].
    rewrite Forall_forall in Hbe |- *. intros e' He'. eapply swo_trans; eauto.
Qed.

Lemma rbk_path t d m :
  rbt t m -> colorof t = BLACK ->
  exists n, rbk (ins_path comp d t []) n /\ rbt (D := D) E n.
Proof.
  intros Ht Hb. pose proof (plug_ins_path comp d t []) as Hp. simpl in Hp.
  rewrite <- Hp in Ht, Hb.
  destruct (rbt_unplug _ _ _ Ht Hb) as (n & ? & ? & _). eauto.
Qed.

(** [rb_insert_node] on a view, for a node initialised by [node_init]. *)
Lemma rb_insert_node_spec h hd sz t m node d :
  Zrep h hd [] t (lmost hd t) (rmost hd t) -> rbt t m -> colorof t = BLACK ->
  sorted comp (elems t) -> node ∉ hd :: ptrs t ->
  h !! node = Some (mkNode hd hd hd RED false (Some d)) ->
  match List.find (fun e => equiv_key comp e.2 d) (elems t) with
  | Some e => rb_insert_node comp node false (st h hd false sz) =
                Done ((e.1, 0), st h hd false sz)
  | None => exists h' t' m',
      rb_insert_node comp node false (st h hd false sz) =
        Done ((node, 1), st h' hd false (u64 (sz + 1))) /\
      Zrep h' hd [] t' (lmost hd t') (rmost hd t') /\
      elems t' = place comp node d (elems t) /\ rbt t' m' /\ colorof t' = BLACK /\
      same h h' (node :: hd :: ptrs t)
  end.
Proof.
  intros HZ Hm Hb Hs Hfresh Hn.
  set (k := ins_path comp d t []).
  assert (plug k E = t) as Hplug by apply (plug_ins_path comp d t []).
  assert (Zrep h hd k E (lmost hd t) (rmost hd t)) as HZk by (apply Zrep_plug; by rewrite Hplug).
  destruct (rbk_path t d m Hm Hb) as (n & Hk & HE). fold k in Hk.
  destruct (ins_path_split comp d t [] Hs) as [Hbef Haft]. fold k in Hbef, Haft.
  simpl in Hbef. rewrite app_nil_r in Haft.
  assert (own hd k E = hd :: ptrs t) as Hown by (unfold own; by rewrite Hplug).
  pose proof (Znodup _ _ _ _ _ _ HZk) as Hnd. simpl in Hnd.
  assert (NoDup (hd :: node :: ptrsk k)) as Hnd'.
  { rewrite <- Hown, own_unfold in Hfresh. simpl in Hfresh.
    rewrite !list.NoDup_cons in *. set_solver. }
  assert (k = [] -> lmost hd t = hd) as Hlm0.
  { intros Hk0. rewrite <- Hplug, Hk0. done. }
  pose proof (Zhead _ _ _ _ _ _ HZ) as Hh. simpl in Hh.
  edestruct (impl_node_insert_spec h hd false sz k n _ _ node hd d HZk Hk HE) as
    (h' & t' & m' & Hrun & HZ' & Hel & Hm' & Hb' & HS); [by rewrite Hown|done|done|].
  rewrite Hown in HS. rewrite Hbef, Haft in Hel.
  unfold rb_insert_node. reads.
  edestruct (@Zrep_loop_fuel D) with (mu := false) (sz := sz) as (fuel & Hf & Hfuel);
    [exact HZ|]. rewrite Hfuel. clear Hfuel.
  pose proof (insert_descend_spec comp fuel h hd false sz [] t _ _ node _ d HZ Hn eq_refl
    ltac:(lia)) as Hdesc. simpl in Hdesc. fold k in Hdesc.
  erewrite bind_done by exact Hdesc. simpl.
  rewrite bind_gets. simpl. reads.
  assert (Zrep h' hd [] t' (lmost hd t') (rmost hd t')) as HZt.
  { rewrite <- Hbef, <- Haft in Hel.
    rewrite <- Hplug in HZ'. erewrite new_lm_spec, new_rm_spec in HZ' by eauto. exact HZ'. }
  rewrite (find_last_upto _ _ Hs), <- Hbef.
  destruct (side k && (par hd k =? lmost hd t)) eqn:Hleft.
  - apply andb_true_iff in Hleft as [Hside Hl]. rewrite Hside in Hrun.
    rewrite <- Hplug in Hl. apply side_leftmost in Hl; [|done|done]. rewrite Hl. simpl.
    exists h', t', m'. split_and!; try done. by erewrite bind_done by exact Hrun.
  - assert (k <> []) as Hkne.
    { intros Hk0. rewrite Hk0, Hlm0 in Hleft by done. simpl in Hleft.
      by rewrite Z.eqb_refl in Hleft. }
    assert (before k <> []) as Hbne.
    { intros Hb0. destruct (side k) eqn:Hside.
      - rewrite <- Hplug in Hleft. rewrite (proj2 (side_leftmost hd k Hnd Hside) Hb0) in Hleft.
        done.
      - destruct k as [|[[] ? ? ? ?] k0]; simpl in *; try done.
        by apply app_eq_nil in Hb0 as [_ [_ ?]%app_eq_nil]. }
    erewrite bind_done by (apply (pos_prev _ _ _ _ _ _ _ HZk Hkne)).
    destruct (last (before k)) as [e|] eqn:Hlast; [|by apply last_None in Hlast].
    destruct (rep_data hd h _ t e (Zfocus _ _ _ _ _ _ HZ)) as (ne & Hne & Hde).
    { apply last_Some in Hlast as (l' & Hl'). rewrite <- Hplug, elems_plug, Hl'. set_solver. }
    erewrite impl_comp_bind by (try eassumption; reflexivity).
    destruct (comp e.2 d); [|done].
    exists h', t', m'. split_and!; try done. by erewrite bind_done by exact Hrun.
Qed.

(** *** Finding a listed element in the tree *)

Lemma before_snoc k f : before (k ++ [f]) = before [f] ++ before k.
Proof. induction k as [|g k IH]; simpl; [by rewrite app_nil_r|]. by rewrite IH, app_assoc. Qed.
Lemma after_snoc k f : after (k ++ [f]) = after k ++ after [f].
Proof. induction k as [|g k IH]; simpl; [done|]. by rewrite IH, app_assoc. Qed.

Lemma locate t (l1 : list (Z * D)) (e : Z * D) (l2 : list (Z * D)) :
  elems t = l1 ++ e :: l2 ->
  exists k c l r, plug k (T e.1 c e.2 l r) = t /\
    before k ++ elems l = l1 /\ elems r ++ after k = l2.
Proof.
  revert l1 l2. induction t as [|p c d l IHl r IHr]; simpl; intros l1 l2 H.
  { by destruct l1. }
  apply app_eq_inv in H as [(m & Hl & Hm)|(m & Hl & Hm)].
  - destruct m as [|e' m]; simpl in Hm.
    + rewrite app_nil_r in Hl. injection Hm as -> ->. exists [], c, l, r.
      simpl. by rewrite app_nil_r.
    + injection Hm as -> ->. destruct (IHl l1 m Hl) as (k & c' & l' & r' & Hk & Hb & Ha).
      exists (k ++ [F DL p c d r]), c', l', r'.
      rewrite plug_app, before_snoc, after_snoc, Hk. simpl.
      rewrite app_nil_r, (app_assoc (elems r')), Ha. done.
  - destruct m as [|e' m]; simpl in Hm.
    + injection Hm as <- <-. rewrite app_nil_r in Hl. subst l1. exists [], c, l, r.
      simpl. by rewrite app_nil_r.
    + injection Hm as <- Hm. destruct (IHr m l2 Hm) as (k & c' & l' & r' & Hk & Hb & Ha).
      exists (k ++ [F DR p c d l]), c', l', r'.
      rewrite plug_app, before_snoc, after_snoc, Hk. simpl. rewrite app_nil_r, Ha, Hl, <- Hb.
      by simplify_list_eq.
Qed.
End Insert.

Arguments rb_view {D} comp s l.
