(* ===== verification/RbTheorems.v ===== *)
(** * What the red-black tree module promises *)
From S2P Require Import Prelude RbTree RbSpec RbInsert RbBalance RbSearch RbProofs.

(** Comparison by an integer key, the form of both comparison functions of
    [kernel/mmap.c]. *)
#[export] Instance key_order {D} (key : D -> Z) :
  StrictWeakOrder (fun a b => key a <? key b).
Proof. split; intros *; lia. Qed.

Section Theorems.
Context {D : Type} (comp : D -> D -> bool) `{!StrictWeakOrder comp}.
Implicit Types (l : list (Z * D)) (s : rb_tree D).

Lemma view_listed s l : rb_view comp s l -> NoDup (t_head s :: l.*1) /\ sorted comp l.
Proof.
  intros (t & [HZ _] & [_ _ Hs] & <-). split; [|done].
  pose proof (Znodup _ _ _ _ _ _ HZ) as Hnd. simpl in Hnd. rewrite app_nil_r in Hnd.
  by rewrite fst_elems.
Qed.

Lemma length_place node d l : u64 (u64 (Z.of_nat (length l)) + 1) = u64 (Z.of_nat (length (place comp node d l))).
Proof.
  unfold place, u64. rewrite length_app. simpl. rewrite Zplus_mod_idemp_l. f_equal.
  assert (length (upto comp d l) + length (beyond comp d l) = length l)%nat as Hlen; [|lia].
  unfold upto, beyond. induction l as [|e l IH]; [done|]. rewrite !filter_cons. destruct (comp d e.2); simpl; lia.
Qed.

(** [rb_insert] makes the node a red leaf and goes on in [rb_insert_node]. *)
Lemma rb_insert_start h hd sz l node n0 d :
  rb_view comp (mkTree h hd false sz) l -> node ∉ hd :: l.*1 -> h !! node = Some n0 -> data n0 = Some d ->
  let h1 := <[node := mkNode hd hd hd RED false (Some d)]> h in
  exists t m, elems t = l /\
    rb_insert comp node (mkTree h hd false sz) = rb_insert_node comp node false (st h1 hd false sz) /\
    Zrep h1 hd [] t (lmost hd t) (rmost hd t) /\ rbt t m /\ colorof t = BLACK /\ sorted comp (elems t) /\
    node ∉ hd :: ptrs t /\ h1 !! node = Some (mkNode hd hd hd RED false (Some d)) /\
    sz = u64 (Z.of_nat (length (elems t))) /\ same h h1 (node :: hd :: (elems t).*1).
Proof.
  intros (t & [HZ Hsz] & [[m Hm] Hb Hs] & <-) Hfresh Hn Hd. simpl in *.
  assert (node ∉ hd :: ptrs t) as Hfresh' by (by rewrite <- fst_elems).
  exists t, m. split_and!; try done.
  - unfold rb_insert. change (mkTree h hd false sz) with (st h hd false sz).
    rewrite head_bind. by erewrite bind_done by (eapply node_init_spec; eassumption).
  - eapply Zrep_frame; [exact HZ|]. intros q Hq. unfold own in Hq. simpl in Hq.
    rewrite lookup_insert_ne; [done|]. by intros ->.
  - apply lookup_insert_eq.
  - eapply same_insert; [apply same_refl|set_solver|exact Hn].
Qed.

(** An equivalent node is there. *)
Lemma rb_insert_found s l node n0 d e :
  rb_view comp s l -> t_multi s = false ->
  node ∉ t_head s :: l.*1 -> t_nodes s !! node = Some n0 -> data n0 = Some d ->
  List.find (fun e => equiv_key comp e.2 d) l = Some e ->
  exists s', rb_insert comp node s = Done ((e.1, 0), s') /\ rb_view comp s' l /\
    t_head s' = t_head s /\ t_multi s' = false /\ same (t_nodes s) (t_nodes s') (node :: t_head s :: l.*1).
Proof.
  destruct s as [h hd mu sz]. simpl. intros Hview -> Hfresh Hn Hd Hfind.
  destruct (rb_insert_start h hd sz l node n0 d Hview Hfresh Hn Hd)
    as (t & m & <- & -> & HZ & Hm & Hb & Hs & Hf & Hn1 & Hsz & HS).
  pose proof (rb_insert_node_spec comp _ hd sz t m node d HZ Hm Hb Hs Hf Hn1) as Hspec. rewrite Hfind in Hspec.
  eexists (st _ hd false sz). split; [exact Hspec|]. split; [|done].
  exists t. split; [by split|]. split; [|done]. split; eauto.
Qed.

(** The node finds its place. *)
Lemma rb_insert_placed s l node n0 d :
  rb_view comp s l -> t_multi s = false ->
  node ∉ t_head s :: l.*1 -> t_nodes s !! node = Some n0 -> data n0 = Some d ->
  List.find (fun e => equiv_key comp e.2 d) l = None ->
  exists s', rb_insert comp node s = Done ((node, 1), s') /\ rb_view comp s' (place comp node d l) /\
    t_head s' = t_head s /\ t_multi s' = false /\ same (t_nodes s) (t_nodes s') (node :: t_head s :: l.*1).
Proof.
  destruct s as [h hd mu sz]. simpl. intros Hview -> Hfresh Hn Hd Hfind.
  destruct (rb_insert_start h hd sz l node n0 d Hview Hfresh Hn Hd)
    as (t & m & <- & -> & HZ & Hm & Hb & Hs & Hf & Hn1 & Hsz & HS).
  pose proof (rb_insert_node_spec comp _ hd sz t m node d HZ Hm Hb Hs Hf Hn1) as Hspec. rewrite Hfind in Hspec.
  destruct Hspec as (h' & t' & m' & Hrun & HZ' & Hel & Hm' & Hb' & HS').
  exists (st h' hd false (u64 (sz + 1))). split; [exact Hrun|]. split; [|split_and!; try done].
  - exists t'. split; [|split; [|done]].
    + split; [done|]. simpl. by rewrite Hel, Hsz, (length_place node d).
    + split; [by exists m'|done|]. rewrite Hel. by apply sorted_place.
  - eapply same_step; [exact HS|done|]. eapply same_perm; [|exact HS']. by rewrite fst_elems.
Qed.

(** C1: [rb_insert] on a tree without duplicate keys refines insertion into
    the sorted listing.  When no listed key is equivalent to the new one, the
    node is placed between the smaller and the larger elements, [out] is 1
    and the size grows by one (modulo 2^64); otherwise the equivalent node is
    returned with [out] 0 and the listing is unchanged.  In both cases the
    red-black shape, the parent pointers and the leftmost/rightmost fields
    are those of a well-formed tree, no bad pointer is followed, the loops
    end, and no node outside the tree, the new one apart, is touched. *)
Theorem rb_insert_refines s l node n0 d :
  rb_view comp s l -> t_multi s = false ->
  node ∉ t_head s :: l.*1 -> t_nodes s !! node = Some n0 -> data n0 = Some d ->
  exists s',
    rb_insert comp node s =
      Done (match List.find (fun e => equiv_key comp e.2 d) l with
            | Some e => (e.1, 0)
            | None => (node, 1)
            end, s') /\
    rb_view comp s' (match List.find (fun e => equiv_key comp e.2 d) l with
                     | Some _ => l
                     | None => place comp node d l
                     end) /\
    t_head s' = t_head s /\ t_multi s' = false /\
    same (t_nodes s) (t_nodes s') (node :: t_head s :: l.*1).
Proof.
  intros Hview Hmu Hfresh Hn Hd. destruct (List.find _ l) as [e|] eqn:Hfind.
  - by apply (rb_insert_found s l node n0 d e).
  - by apply (rb_insert_placed s l node n0 d).
Qed.

(** A loop of a search has enough fuel on a view. *)
Lemma view_search h hd mu sz t {B} (K : nat -> M (rb_tree D) B) :
  Zrep h hd [] t (lmost hd t) (rmost hd t) ->
  exists fuel, (length (ptrs t) < fuel)%nat /\
    bind loop_fuel K (st h hd mu sz) = K fuel (st h hd mu sz).
Proof.
  intros HZ. destruct (Zrep_loop_fuel h hd [] t _ _ mu sz K HZ) as (fuel & Hf & HE).
  exists fuel. split; [simpl in Hf; lia|done].
Qed.

Lemma rb_lbnd_run h hd mu sz t val nv v :
  Zrep h hd [] t (lmost hd t) (rmost hd t) -> sorted comp (elems t) ->
  h !! val = Some nv -> data nv = Some v ->
  rb_lbnd comp val (st h hd mu sz) =
    Done (first_or hd (from comp v (elems t)), st h hd mu sz).
Proof.
  intros HZ Hs Hn Hd. unfold rb_lbnd, impl_lbnd.
  pose proof (Zhead _ _ _ _ _ _ HZ) as Hh. simpl in Hh. reads.
  edestruct (@view_search h hd mu sz t Z) as (fuel & Hf & ->); [exact HZ|].
  by eapply lbnd_loop_spec.
Qed.

(** In a sorted listing the first element not before [v] decides whether a
    key equivalent to [v] is present. *)
Lemma find_first_from l v :
  sorted comp l ->
  List.find (fun e => equiv_key comp e.2 v) l =
    match from comp v l with
    | e :: _ => if comp v e.2 then None else Some e
    | [] => None
    end.
Proof.
  induction l as [|e l IH]; simpl; [done|]. intros [He Hs].
  unfold from, equiv_key in *. rewrite filter_cons.
  destruct (comp e.2 v) eqn:Hev; simpl.
  - auto.
  - destruct (comp v e.2) eqn:Hve; simpl; [|done].
    destruct (List.find _ l) as [e'|] eqn:Hf; [|done].
    apply List.find_some in Hf as [Hin Hc]. rewrite Forall_forall in He.
    apply list_elem_of_In in Hin. pose proof (He _ Hin) as Hlt.
    rewrite (swo_trans v e.2 e'.2) in Hc by done. by rewrite andb_false_r in Hc.
Qed.

(** C2: [rb_find] returns the listed node whose key is equivalent to the key
    searched, and the head when there is none. *)
Theorem rb_find_refines s l val nv v :
  rb_view comp s l -> t_nodes s !! val = Some nv -> data nv = Some v ->
  rb_find comp val s =
    Done (match List.find (fun e => equiv_key comp e.2 v) l with
          | Some e => e.1
          | None => t_head s
          end, s).
Proof.
  destruct s as [h hd mu sz]. intros (t & [HZ Hsz] & [_ _ Hs] & <-) Hn Hd. simpl in *.
  change (mkTree h hd mu sz) with (st h hd mu sz).
  unfold rb_find. erewrite bind_done by (eapply rb_lbnd_run; eassumption). reads.
  rewrite (find_first_from _ _ Hs).
  destruct (from comp v (elems t)) as [|e l] eqn:Hfrom; simpl; [by rewrite Z.eqb_refl|].
  assert (e ∈ elems t) as Hin.
  { assert (e ∈ from comp v (elems t)) as He by (rewrite Hfrom; set_solver).
    by apply list_elem_of_filter in He as [_ He]. }
  pose proof (Znodup _ _ _ _ _ _ HZ) as Hnd. simpl in Hnd. rewrite app_nil_r in Hnd.
  rewrite <- fst_elems in Hnd. apply list.NoDup_cons in Hnd as [Hhd _].
  rewrite (proj2 (Z.eqb_neq e.1 hd)).
  2:{ intros <-. apply Hhd. apply list_elem_of_fmap. eauto. }
  destruct (rep_data comp hd h _ t e (Zfocus _ _ _ _ _ _ HZ) Hin) as (ne & Hne & Hde).
  erewrite (impl_comp_bind comp val e.1) by eassumption. by destruct (comp v e.2).
Qed.

(** [rb_lbnd] and [rb_ubnd] return the first listed node that is not
    before, respectively is after, the key searched, and the head past the
    end. *)
Theorem rb_bounds_refine s l val nv v :
  rb_view comp s l -> t_nodes s !! val = Some nv -> data nv = Some v ->
  rb_lbnd comp val s = Done (first_or (t_head s) (from comp v l), s) /\
  rb_ubnd comp val s = Done (first_or (t_head s) (beyond comp v l), s).
Proof.
  destruct s as [h hd mu sz]. intros (t & [HZ Hsz] & [_ _ Hs] & <-) Hn Hd. simpl in *.
  change (mkTree h hd mu sz) with (st h hd mu sz).
  split; [by eapply rb_lbnd_run|]. unfold rb_ubnd, impl_ubnd.
  pose proof (Zhead _ _ _ _ _ _ HZ) as Hh. simpl in Hh. reads.
  edestruct (@view_search h hd mu sz t Z) as (fuel & Hf & ->); [exact HZ|].
  by eapply ubnd_loop_spec.
Qed.

(** iteration follows the listing: [rb_lmst] is its first node,
    [rb_rmst] its last (the head when it is empty), [rb_next] moves to the
    next listed node and [rb_prev] to the previous one, both reaching the
    head past the ends. *)
Theorem rb_iteration_refines s l1 e l2 :
  rb_view comp s (l1 ++ e :: l2) ->
  rb_next e.1 s = Done (first_or (t_head s) l2, s) /\
  rb_prev e.1 s = Done (match last l1 with Some e' => e'.1 | None => t_head s end, s) /\
  rb_lmst s = Done (first_or (t_head s) (l1 ++ e :: l2), s) /\
  rb_rmst s = Done (match last (l1 ++ e :: l2) with
                    | Some e' => e'.1 | None => t_head s end, s).
Proof.
  destruct s as [h hd mu sz]. intros (t & [HZ Hsz] & _ & Hel). simpl in *.
  change (mkTree h hd mu sz) with (st h hd mu sz).
  pose proof (Zhead _ _ _ _ _ _ HZ) as Hh. simpl in Hh.
  assert (rb_lmst (st h hd mu sz) = Done (lmost hd t, st h hd mu sz)) as Hl.
  { unfold rb_lmst. reads. by erewrite rd_run by lk. }
  assert (rb_rmst (st h hd mu sz) = Done (rmost hd t, st h hd mu sz)) as Hr.
  { unfold rb_rmst. reads. by erewrite rd_run by lk. }
  rewrite Hl, Hr. unfold lmost, rmost. rewrite Hel.
  destruct (locate t l1 e l2 Hel) as (k & c & l & r & Ht & <- & <-).
  rewrite <- Ht in HZ. apply Zrep_plug in HZ.
  unfold rb_next, rb_prev. erewrite node_next_spec, node_prev_spec by exact HZ. done.
Qed.

(** [rb_init] makes an empty tree of any initialised head node. *)
Theorem rb_init_refines s n0 is_multi :
  t_nodes s !! t_head s = Some n0 -> data n0 = None ->
  exists s', rb_init is_multi s = Done (tt, s') /\
    rb_view comp s' [] /\ t_head s' = t_head s /\ t_multi s' = is_multi /\
    t_size s' = 0 /\ same (t_nodes s) (t_nodes s') [t_head s].
Proof.
  destruct s as [h hd mu sz]. simpl. intros Hn Hd.
  change (mkTree h hd mu sz) with (st h hd mu sz).
  unfold rb_init, head_init. run. rewrite bind_modify. simpl.
  rewrite !insert_insert_eq, Hd.
  eexists. split; [reflexivity|]. split; [|split_and!; try done].
  - exists E. split; [|split; [|done]].
    + split; [|done]. split; simpl; try done; [by rewrite lookup_insert_eq|].
      apply NoDup_singleton.
    + split; [exists 0%nat; constructor|done|done].
  - eapply same_insert; [apply same_refl|set_solver|exact Hn].
Qed.
End Theorems.

(** *** A concrete tree

    Three nodes of keys 10, 20 and 30 below the head at address 1, and two
    unlinked nodes of keys 25 and 20. *)
Definition demo_tree : tree Z := T 20 BLACK 20 (T 10 RED 10 E E) (T 30 RED 30 E E).
Definition demo_state : rb_tree Z :=
  mkTree (list_to_map [(1, hnode 1 20 10 30);
                       (20, mkNode 1 10 30 BLACK false (Some 20));
                       (10, mkNode 20 1 1 RED false (Some 10));
                       (30, mkNode 20 1 1 RED false (Some 30));
                       (25, mkNode 0 0 0 BLACK true (Some 25));
                       (21, mkNode 0 0 0 BLACK true (Some 20))]) 1 false 3.

(** A tree object whose head still holds arbitrary bytes. *)
Definition demo_raw : rb_tree Z :=
  mkTree (<[1 := mkNode 7 7 7 RED false None]> empty) 1 true 9.

Lemma demo_view : rb_view (fun a b => a <? b) demo_state [(10, 10); (20, 20); (30, 30)].
Proof.
  exists demo_tree. split; [|split; [|done]].
  - split; [|done]. split.
    + by vm_compute.
    + split_and!; by vm_compute.
    + done.
    + apply (bool_decide_unpack _). by vm_compute.
  - split; [exists 1%nat; by repeat constructor|done|simpl; by repeat constructor].
Qed.

Lemma rb_insert_refines_witness :
  exists s', rb_insert (fun a b => a <? b) 25 demo_state = Done ((25, 1), s') /\
    rb_view (fun a b => a <? b) s' [(10, 10); (20, 20); (25, 25); (30, 30)].
Proof.
  destruct (rb_insert_refines (fun a b => a <? b) demo_state _ 25
    (mkNode 0 0 0 BLACK true (Some 25)) 25 demo_view eq_refl) as (s' & HE & HV & _);
    [set_solver by lia|reflexivity|reflexivity|].
  exists s'. split; [exact HE|exact HV].
Defined.

Lemma rb_find_refines_witness :
  rb_find (fun a b => a <? b) 21 demo_state = Done (20, demo_state) /\
  rb_find (fun a b => a <? b) 25 demo_state = Done (1, demo_state).
Proof.
  split.
  - exact (rb_find_refines (fun a b => a <? b) demo_state _ 21 _ 20 demo_view eq_refl eq_refl).
  - exact (rb_find_refines (fun a b => a <? b) demo_state _ 25 _ 25 demo_view eq_refl eq_refl).
Defined.

Lemma rb_bounds_refine_witness :
  rb_lbnd (fun a b => a <? b) 21 demo_state = Done (20, demo_state) /\
  rb_ubnd (fun a b => a <? b) 21 demo_state = Done (30, demo_state).
Proof.
  exact (rb_bounds_refine (fun a b => a <? b) demo_state _ 21 _ 20 demo_view eq_refl eq_refl).
Defined.

Lemma rb_iteration_refines_witness :
  rb_next 20 demo_state = Done (30, demo_state) /\ rb_prev 20 demo_state = Done (10, demo_state) /\
  rb_lmst demo_state = Done (10, demo_state) /\ rb_rmst demo_state = Done (30, demo_state).
Proof.
  exact (rb_iteration_refines (fun a b => a <? b) demo_state [(10, 10)] (20, 20) [(30, 30)]
    demo_view).
Defined.

Lemma rb_init_refines_witness :
  exists s', rb_init false demo_raw = Done (tt, s') /\ rb_view (fun a b => a <? b) s' [].
Proof.
  destruct (rb_init_refines (fun a b => a <? b) demo_raw (mkNode 7 7 7 RED false None) false
    eq_refl eq_refl) as (s' & HE & HV & _).
  exists s'. split; [exact HE|exact HV].
Defined.
