(* ===== verification/RbErase.v ===== *)
(** * Rebalancing after an erasure, on represented trees

    The loop of [rb_erase_node] in both directions at once: [dr] is the side
    of its parent that [fixnode] is on. *)
From S2P Require Import Prelude RbTree RbSpec RbInsert RbBalance RbSearch.

Definition opp (dr : dir) : dir := match dr with DL => DR | DR => DL end.

Section Erase.
Context {D : Type}.
Implicit Types h : gmap Z (rb_node D).
Implicit Types t l r : tree D.
Implicit Types k : list (frame D).
Implicit Types dr : dir.

(** A node with its subtree on the side [dr] first. *)
Definition N dr (p : Z) (c : color) (d : D) (near far : tree D) : tree D := fill (F dr p c d far) near.

Definition rot dr (p : Z) : M (rb_tree D) unit :=
  match dr with DL => impl_rotate_left p | DR => impl_rotate_right p end.
Definition near_ dr (n : rb_node D) : Z := match dr with DL => _left n | DR => _right n end.
Definition far_ dr (n : rb_node D) : Z := near_ (opp dr) n.

(** One turn of the loop on the side [dr], from the sibling being black. *)
Definition erase_tail dr (fuel : nat) (fixnode fixparent pnode : Z) : M (rb_tree D) Z :=
  pnil <- rd _isnil pnode;;
  if pnil : bool then
    fp <- rd _parent fixparent;; erase_fix fuel fixparent fp
  else
    pl <- rd (near_ dr) pnode;; plc <- rd _color pl;;
    pr <- rd (far_ dr) pnode;; prc <- rd _color pr;;
    if negb (is_red plc) && negb (is_red prc) then
      set_color pnode RED;;;
      fp <- rd _parent fixparent;; erase_fix fuel fixparent fp
    else
      pnode <- (if negb (is_red prc) then
                  set_color pl BLACK;;;
                  set_color pnode RED;;;
                  rot (opp dr) pnode;;;
                  rd (far_ dr) fixparent
                else ret pnode);;
      c <- rd _color fixparent;; set_color pnode c;;;
      set_color fixparent BLACK;;;
      pr <- rd (far_ dr) pnode;; set_color pr BLACK;;;
      rot dr fixparent;;;
      ret fixnode.

Definition erase_turn dr (fuel : nat) (fixnode fixparent : Z) : M (rb_tree D) Z :=
  pnode <- rd (far_ dr) fixparent;; pc <- rd _color pnode;;
  pnode <- (if is_red pc then
              set_color pnode BLACK;;;
              set_color fixparent RED;;;
              rot dr fixparent;;;
              rd (far_ dr) fixparent
            else ret pnode);;
  erase_tail dr fuel fixnode fixparent pnode.

Lemma erase_fix_turn fuel fixnode fixparent :
  erase_fix (S fuel) fixnode fixparent =
    (root <- impl_root;; fc <- rd _color fixnode;;
     if (fixnode =? root) || is_red fc then ret fixnode
     else
       fpl <- rd _left fixparent;;
       if fixnode =? fpl then erase_turn DL fuel fixnode fixparent
       else erase_turn DR fuel fixnode fixparent).
Proof. reflexivity. Qed.

(** *** The steps of a turn *)

Lemma N_opp dr p c d a b : N (opp dr) p c d a b = N dr p c d b a.
Proof. by destruct dr. Qed.

Lemma Zrep_N h hd k dr p c d a b lm rm :
  Zrep h hd k (N dr p c d a b) lm rm <-> Zrep h hd (F dr p c d b :: k) a lm rm.
Proof. symmetry. apply Zrep_fill. Qed.

Lemma Zrep_sib h hd k dr p c d a b lm rm :
  Zrep h hd (F dr p c d b :: k) a lm rm <-> Zrep h hd (F (opp dr) p c d a :: k) b lm rm.
Proof. by rewrite <- !Zrep_N, N_opp. Qed.

Lemma rot_spec h hd mu sz k dr x cx dx a y cy dy b c lm rm :
  Zrep h hd k (N dr x cx dx a (N dr y cy dy b c)) lm rm ->
  exists h', rot dr x (st h hd mu sz) = Done (tt, st h' hd mu sz) /\
    Zrep h' hd k (N dr y cy dy (N dr x cx dx a b) c) lm rm /\
    same h h' (own hd k (N dr x cx dx a (N dr y cy dy b c))).
Proof.
  destruct dr; unfold N; simpl; intros HZ; [by apply impl_rotate_left_spec|by apply impl_rotate_right_spec].
Qed.

(** Reading the node [p] of a frame or of the focus. *)
Lemma Z_N h hd k dr p c d a b lm rm :
  Zrep h hd k (N dr p c d a b) lm rm -> exists n, h !! p = Some n /\ _parent n = par hd k /\ _color n = c /\
    _isnil n = false /\ near_ dr n = root_of hd a /\ far_ dr n = root_of hd b.
Proof.
  intros HZ. destruct dr; unfold N in HZ; simpl in HZ; apply Z_focus in HZ; eexists; split; try exact HZ; by split_and!.
Qed.

Lemma root_N hd dr p c d a b : root_of hd (N dr p c d a b) = p.
Proof. by destruct dr. Qed.
Lemma color_N dr p c d a b : colorof (N dr p c d a b) = c.
Proof. by destruct dr. Qed.
Lemma N_cases dr t : t = E \/ exists p c d a b, t = N dr p c d a b.
Proof. destruct t as [|p c d l r]; [by left|right]. destruct dr; [by exists p, c, d, l, r|by exists p, c, d, r, l]. Qed.

Lemma color_spec h hd mu sz k dr p c c' d a b lm rm :
  Zrep h hd k (N dr p c d a b) lm rm ->
  exists h', set_color p c' (st h hd mu sz) = Done (tt, st h' hd mu sz) /\
    Zrep h' hd k (N dr p c' d a b) lm rm /\ same h h' (own hd k (N dr p c d a b)).
Proof. destruct dr; apply set_color_spec. Qed.

Lemma own_N hd k dr p c d a b : own hd k (N dr p c d a b) ≡ₚ hd :: p :: ptrs a ++ ptrs b ++ ptrsk k.
Proof. rewrite own_unfold. destruct dr; simpl; solve_Permutation. Qed.
Lemma own_F hd k dr p c d a b : own hd (F dr p c d b :: k) a ≡ₚ hd :: p :: ptrs a ++ ptrs b ++ ptrsk k.
Proof. rewrite own_unfold. simpl. solve_Permutation. Qed.

Lemma rbt_N dr p c d a b n : rbt (N dr p c d a b) n <-> rbt (N DL p c d a b) n.
Proof. destruct dr; [done|]. split; inversion 1; subst; by constructor. Qed.

Lemma ptrs_N dr p c d a b : ptrs (N dr p c d a b) ≡ₚ p :: ptrs a ++ ptrs b.
Proof. destruct dr; simpl; solve_Permutation. Qed.

Ltac perm := rewrite ?own_N, ?own_F, ?own_unfold; cbn [ptrs ptrsk fp fsib app]; rewrite ?ptrs_N; solve_Permutation.
Ltac chain :=
  match goal with
  | H : same ?a ?b _ |- same ?a _ _ => eapply same_step; [exact H | perm | chain]
  | |- same _ _ _ => apply same_refl
  end.

Lemma red_sibling h hd mu sz k dr p c d w dw wl wr t lm rm :
  Zrep h hd (F dr p c d (N dr w RED dw wl wr) :: k) t lm rm ->
  exists h', (set_color w BLACK;;; set_color p RED;;; rot dr p;;; rd (far_ dr) p) (st h hd mu sz) =
      Done (root_of hd wl, st h' hd mu sz) /\
    Zrep h' hd (F dr p RED d wl :: F dr w BLACK dw wr :: k) t lm rm /\
    same h h' (own hd (F dr p c d (N dr w RED dw wl wr) :: k) t).
Proof.
  intros HZ. rewrite Zrep_sib in HZ. step color_spec HZ. rewrite <- Zrep_sib, <- Zrep_N in HZ.
  step color_spec HZ. step rot_spec HZ. rewrite Zrep_N in HZ.
  destruct (Z_N _ _ _ _ _ _ _ _ _ _ _ HZ) as (n & Hn & _ & _ & _ & _ & Hf). rewrite Zrep_N in HZ.
  erewrite rd_run by exact Hn. rewrite Hf. eexists. split; [reflexivity|]. split; [exact HZ|]. chain.
Qed.

(** The last step: the sibling [w] is black and its far child red. *)
Lemma far_red h hd mu sz k dr p c d w dw wl x dx xl xr t lm rm :
  Zrep h hd (F dr p c d (N dr w BLACK dw wl (N dr x RED dx xl xr)) :: k) t lm rm ->
  exists h', (forall (K : M (rb_tree D) Z),
      (c <- rd _color p;; set_color w c;;; set_color p BLACK;;; pr <- rd (far_ dr) w;; set_color pr BLACK;;; rot dr p;;; K)
        (st h hd mu sz) = K (st h' hd mu sz)) /\
    Zrep h' hd k (N dr w c dw (N dr p BLACK d t wl) (N dr x BLACK dx xl xr)) lm rm /\
    same h h' (own hd (F dr p c d (N dr w BLACK dw wl (N dr x RED dx xl xr)) :: k) t).
Proof.
  intros HZ. pose proof HZ as HZ0. rewrite <- Zrep_N in HZ0.
  destruct (Z_N _ _ _ _ _ _ _ _ _ _ _ HZ0) as (n & Hn & _ & Hc & _). clear HZ0.
  rewrite Zrep_sib in HZ. step color_spec HZ.
  rewrite <- Zrep_sib, <- Zrep_N in HZ. step color_spec HZ. rewrite Zrep_N, Zrep_sib in HZ.
  destruct (Z_N _ _ _ _ _ _ _ _ _ _ _ HZ) as (n' & Hn' & _ & _ & _ & _ & Hf).
  rewrite Zrep_N, Zrep_sib in HZ. step color_spec HZ.
  rewrite <- Zrep_sib, <- Zrep_N, <- Zrep_sib, <- Zrep_N in HZ. step rot_spec HZ.
  eexists. split; [|split; [exact HZ|chain]]. intros K.
  erewrite rd_bind by exact Hn. rewrite Hc. erewrite bind_done by eassumption. erewrite bind_done by eassumption.
  erewrite rd_bind by exact Hn'. rewrite Hf, root_N. erewrite bind_done by eassumption. by erewrite bind_done by eassumption.
Qed.

(** The far child is black, the near child red: a rotation at the sibling. *)
Lemma near_red h hd mu sz k dr p c d w dw x dx xl xr wr t lm rm :
  Zrep h hd (F dr p c d (N dr w BLACK dw (N dr x RED dx xl xr) wr) :: k) t lm rm ->
  exists h', (set_color x BLACK;;; set_color w RED;;; rot (opp dr) w;;; rd (far_ dr) p) (st h hd mu sz) =
      Done (x, st h' hd mu sz) /\
    Zrep h' hd (F dr p c d (N dr x BLACK dx xl (N dr w RED dw xr wr)) :: k) t lm rm /\
    same h h' (own hd (F dr p c d (N dr w BLACK dw (N dr x RED dx xl xr) wr) :: k) t).
Proof.
  intros HZ. rewrite Zrep_sib, Zrep_N in HZ. step color_spec HZ. rewrite <- Zrep_N in HZ.
  step color_spec HZ. rewrite <- (N_opp dr w), <- (N_opp dr x) in HZ. step rot_spec HZ.
  rewrite !N_opp, <- Zrep_sib, <- Zrep_N in HZ.
  destruct (Z_N _ _ _ _ _ _ _ _ _ _ _ HZ) as (n & Hn & _ & _ & _ & _ & Hf). rewrite Zrep_N in HZ.
  erewrite rd_run by exact Hn. rewrite Hf, root_N. eexists. split; [reflexivity|]. split; [exact HZ|]. chain.
Qed.

Lemma sibling_black h hd mu sz k dr p c d w cw dw wl wr t lm rm :
  Zrep h hd (F dr p c d (N dr w cw dw wl wr) :: k) t lm rm ->
  exists h', set_color w RED (st h hd mu sz) = Done (tt, st h' hd mu sz) /\
    Zrep h' hd k (N dr p c d t (N dr w RED dw wl wr)) lm rm /\
    same h h' (own hd (F dr p c d (N dr w cw dw wl wr) :: k) t).
Proof.
  intros HZ. rewrite Zrep_sib in HZ. step color_spec HZ. rewrite <- Zrep_sib, <- Zrep_N in HZ.
  eexists. split; [eassumption|]. split; [exact HZ|]. chain.
Qed.

(** Blackening the root of the focus, the head when it is empty. *)
Lemma set_black h hd mu sz k t lm rm : Zrep h hd k t lm rm ->
  exists h', set_color (root_of hd t) BLACK (st h hd mu sz) = Done (tt, st h' hd mu sz) /\
    Zrep h' hd k (blacken t) lm rm /\ same h h' (own hd k t).
Proof.
  intros HZ. destruct t as [|p c d l r]; [|by apply set_color_spec].
  pose proof HZ as [H1 H2 H3 H4]. cbn [root_of] in *. unfold set_color. erewrite wr_run by exact H1. cbn.
  rewrite (insert_id h) by exact H1. eexists. split; [reflexivity|]. by split.
Qed.

(** *** The loop *)

(** The subtree [t] is one black node short in its place, or has a red root
    that can be blackened. *)
Definition deficit k t (n : nat) : Prop :=
  rbk k (S n) /\ (colorof t = RED /\ rbt (blacken t) (S n) \/ colorof t = BLACK /\ rbt t n).

(** The computation of the loop's last [fixnode], which is then blackened,
    repairs the tree [plug k t]. *)
Definition repairs (m : M (rb_tree D) Z) h hd mu sz k t lm rm : Prop :=
  exists f h1 h' t', m (st h hd mu sz) = Done (f, st h1 hd mu sz) /\
    set_color f BLACK (st h1 hd mu sz) = Done (tt, st h' hd mu sz) /\
    Zrep h' hd [] t' lm rm /\ elems t' = elems (plug k t) /\ (exists m, rbt t' m) /\ colorof t' = BLACK /\
    same h h' (own hd k t).

Lemma colorof_plug k t n : rbk k n -> (k = [] -> colorof t = BLACK) -> colorof (plug k t) = BLACK.
Proof.
  intros Hk. revert t. induction Hk as [n|dr p d sib k n Hs Hk IH|dr p d sib f k n Hs Hc Hf Hk IH]; intros t Ht.
  - by apply Ht.
  - apply IH. intros _. by destruct dr.
  - apply IH. done.
Qed.

Lemma blacken_black t : colorof t = BLACK -> blacken t = t.
Proof. destruct t; simpl; [done|]. by intros ->. Qed.

Lemma elems_plug_eq k t t' : elems t = elems t' -> elems (plug k t) = elems (plug k t').
Proof. intros H. by rewrite !elems_plug, H. Qed.

(** What the colours of a frame say of its sibling and of the rest. *)
Lemma rbk_frame dr p c d sib k n : rbk (F dr p c d sib :: k) n ->
  rbt sib n /\ match c with
               | BLACK => rbk k (S n)
               | RED => rbk k n /\ colorof sib = BLACK /\ exists f k', k = f :: k' /\ fc f = BLACK
               end.
Proof. inversion 1; subst; [by split|]. split_and!; try done. by eexists _, _. Qed.

Lemma rbk_fits dr p c d sib k n : rbk (F dr p c d sib :: k) n -> fits c k.
Proof. intros H. apply rbk_frame in H as [_ H]. destruct c, k; cbn; try done; [|by left]. destruct H as (_ & _ & f' & k' & [= -> ->] & Hf). by right. Qed.

Lemma rbt_N_black dr p d a b n : rbt (N dr p BLACK d a b) (S n) <-> rbt a n /\ rbt b n.
Proof. rewrite rbt_N. split; [inversion 1; by subst|]. intros []. by constructor. Qed.
Lemma rbt_N_red dr p d a b n : rbt (N dr p RED d a b) n <-> rbt a n /\ rbt b n /\ colorof a = BLACK /\ colorof b = BLACK.
Proof. rewrite rbt_N. split; [by inversion 1; subst|]. intros (? & ? & ? & ?). by constructor. Qed.
Lemma blacken_N dr p c d a b : blacken (N dr p c d a b) = N dr p BLACK d a b.
Proof. by destruct dr. Qed.

(** The tree of the last step is good. *)
Lemma last_rbt dr p c d w dw wl x dx xl xr k n t : rbk (F dr p c d (N dr w BLACK dw wl (N dr x RED dx xl xr)) :: k) (S n) ->
  rbt t n -> let t' := plug k (N dr w c dw (N dr p BLACK d t wl) (N dr x BLACK dx xl xr)) in
  (exists m, rbt t' m) /\ colorof t' = BLACK.
Proof.
  intros Hk Ht. pose proof (rbk_fits _ _ _ _ _ _ _ Hk) as Hfit. apply rbk_frame in Hk as [Hs Hk].
  apply rbt_N_black in Hs as [Hwl Hx]. apply rbt_N_red in Hx as (Hxl & Hxr & _).
  assert (rbt (N dr p BLACK d t wl) (S n)) by (by apply rbt_N_black).
  assert (rbt (N dr x BLACK dx xl xr) (S n)) by (by apply rbt_N_black).
  split.
  - apply (rbt_plug k _ (match c with BLACK => S (S n) | RED => S n end)); [by destruct c; [destruct Hk|]| |by rewrite color_N].
    destruct c; [apply rbt_N_red; by rewrite !color_N|by apply rbt_N_black].
  - apply (colorof_plug k _ (match c with BLACK => S (S n) | RED => S n end)); [by destruct c; [destruct Hk|]|].
    intros ->. rewrite color_N. destruct c; [|done]. by destruct Hk as (_ & _ & ? & ? & ? & _).
Qed.

Lemma elems_last k dr p c d w dw wl x dx xl xr t :
  elems (plug k (N dr w c dw (N dr p BLACK d t wl) (N dr x BLACK dx xl xr))) =
  elems (plug (F dr p c d (N dr w BLACK dw wl (N dr x RED dx xl xr)) :: k) t).
Proof. apply (elems_plug_eq k). destruct dr; simpl; by simplify_list_eq. Qed.

(** The far child red: the last step, and [fixnode] is black already. *)
Lemma far_red_repairs h hd mu sz k dr p c d w dw wl x dx xl xr t lm rm n :
  Zrep h hd (F dr p c d (N dr w BLACK dw wl (N dr x RED dx xl xr)) :: k) t lm rm ->
  rbk (F dr p c d (N dr w BLACK dw wl (N dr x RED dx xl xr)) :: k) (S n) -> rbt t n -> colorof t = BLACK ->
  repairs (c <- rd _color p;; set_color w c;;; set_color p BLACK;;; pr <- rd (far_ dr) w;; set_color pr BLACK;;; rot dr p;;;
           ret (root_of hd t)) h hd mu sz (F dr p c d (N dr w BLACK dw wl (N dr x RED dx xl xr)) :: k) t lm rm.
Proof.
  intros HZ Hk Ht Hb. destruct (far_red h hd mu sz _ _ _ _ _ _ _ _ _ _ _ _ _ _ _ HZ) as (h1 & E1 & Z1 & S1).
  pose proof Z1 as Z2. rewrite !Zrep_N in Z2. destruct (set_black h1 hd mu sz _ _ _ _ Z2) as (h2 & E2 & Z3 & S2).
  rewrite blacken_black in Z3 by done. rewrite <- !Zrep_N, Zrep_plug in Z3.
  exists (root_of hd t), h1, h2, (plug k (N dr w c dw (N dr p BLACK d t wl) (N dr x BLACK dx xl xr))).
  destruct (last_rbt _ _ _ _ _ _ _ _ _ _ _ _ _ _ Hk Ht) as [Hrb Hc]. split_and!; try done.
  - apply elems_last.
  - chain.
Qed.

(** A run that first turns the tree into another with the same listing. *)
Lemma repairs_step m m' h h1 hd mu sz k t k1 t1 lm rm :
  repairs m' h1 hd mu sz k1 t1 lm rm -> m (st h hd mu sz) = m' (st h1 hd mu sz) -> elems (plug k1 t1) = elems (plug k t) ->
  same h h1 (own hd k t) -> own hd k1 t1 ≡ₚ own hd k t -> repairs m h hd mu sz k t lm rm.
Proof.
  intros (f & h2 & h' & t' & E1 & E2 & Z' & He & Hr & Hc & S') E He' S1 Hp. exists f, h2, h', t'.
  rewrite E, <- He'. split_and!; try done. eapply same_step; [exact S1|done|]. by eapply same_perm.
Qed.

Lemma rbk_sib dr p c d sib sib' k n : rbk (F dr p c d sib :: k) n -> rbt sib' n -> (c = RED -> colorof sib' = BLACK) ->
  rbk (F dr p c d sib' :: k) n.
Proof.
  intros Hk Hs Hc. apply rbk_frame in Hk as [_ Hk]. destruct c; [|by constructor].
  destruct Hk as (Hk & _ & f & k' & -> & Hf). constructor; auto.
Qed.

Lemma tail_spec fuel h hd mu sz k dr p c d w dw wl wr t lm rm n :
  Zrep h hd (F dr p c d (N dr w BLACK dw wl wr) :: k) t lm rm -> rbk (F dr p c d (N dr w BLACK dw wl wr) :: k) (S n) ->
  rbt t n -> colorof t = BLACK ->
  (forall h' t' n', Zrep h' hd k t' lm rm -> deficit k t' n' -> colorof t' = c ->
    repairs (erase_fix fuel (root_of hd t') (par hd k)) h' hd mu sz k t' lm rm) ->
  repairs (erase_tail dr fuel (root_of hd t) p w) h hd mu sz (F dr p c d (N dr w BLACK dw wl wr) :: k) t lm rm.
Proof.
  intros HZ Hk Ht Hb IH. pose proof (rbk_frame _ _ _ _ _ _ _ Hk) as [Hs Hk'].
  apply rbt_N_black in Hs as [Hwl Hwr].
  assert (Zrep h hd (F (opp dr) p c d t :: k) (N dr w BLACK dw wl wr) lm rm) as HZs by (by rewrite <- Zrep_sib).
  assert (exists np, h !! p = Some np /\ _parent np = par hd k) as (np & Hp & Hpp).
  { pose proof HZ as HZp. rewrite <- Zrep_N in HZp. destruct (Z_N _ _ _ _ _ _ _ _ _ _ _ HZp) as (np & ? & ? & _). by exists np. }
  destruct (Z_N _ _ _ _ _ _ _ _ _ _ _ HZs) as (nw & Hw & _ & _ & Hwnil & Hwn & Hwf).
  assert (exists nl, h !! root_of hd wl = Some nl /\ _color nl = colorof wl) as (nl & Hl & Hlc).
  { rewrite Zrep_N in HZs. destruct (Z_root _ _ _ _ _ _ HZs) as (nl & ? & ? & _). by exists nl. }
  assert (exists nr, h !! root_of hd wr = Some nr /\ _color nr = colorof wr) as (nr & Hr & Hrc).
  { rewrite Zrep_N, Zrep_sib in HZs. destruct (Z_root _ _ _ _ _ _ HZs) as (nr & ? & ? & _). by exists nr. }
  unfold repairs, erase_tail. erewrite rd_bind by exact Hw. rewrite Hwnil.
  erewrite rd_bind by exact Hw. rewrite Hwn. erewrite rd_bind by exact Hl. rewrite Hlc.
  erewrite rd_bind by exact Hw. rewrite Hwf. erewrite rd_bind by exact Hr. rewrite Hrc.
  destruct (colorof wr) eqn:Ecr; [|destruct (colorof wl) eqn:Ecl]; cbn [is_red negb bool_decide andb].
  - destruct (N_cases dr wr) as [->|(x & cx & dx & xl & xr & ->)]; [done|]. rewrite color_N in Ecr. subst cx.
    rewrite andb_false_r. by apply (far_red_repairs _ _ _ _ _ _ _ _ _ _ _ _ _ _ _ _ _ _ _ n).
  - destruct (N_cases dr wl) as [->|(x & cx & dx & xl & xr & ->)]; [done|]. rewrite color_N in Ecl. subst cx.
    apply rbt_N_red in Hwl as (Hxl & Hxr & Hcl & Hcr). rewrite root_N.
    destruct (near_red h hd mu sz _ _ _ _ _ _ _ _ _ _ _ _ _ _ _ HZ) as (h1 & E1 & Z1 & S1).
    eapply repairs_step; [eapply far_red_repairs; [exact Z1| |exact Ht|done]| | |exact S1|].
    + eapply rbk_sib; [exact Hk| |by rewrite color_N]. apply rbt_N_black. split; [done|]. by apply rbt_N_red.
    + change (is_red BLACK) with false. cbn [negb andb]. change (is_red RED) with true. cbn [negb andb]. by rewrite (bind_done _ _ _ _ _ E1).
    + apply (elems_plug_eq k). destruct dr; simpl; by simplify_list_eq.
    + perm.
  - destruct (sibling_black h hd mu sz _ _ _ _ _ _ _ _ _ _ _ _ _ HZ) as (h1 & E1 & Z1 & S1).
    pose proof Z1 as Z1'. destruct (Z_N _ _ _ _ _ _ _ _ _ _ _ Z1') as (np' & Hp' & Hpp' & _).
    eapply repairs_step; [apply (IH _ _ (match c with RED => n | BLACK => S n end) Z1); [|by rewrite color_N]| | |exact S1|].
    + assert (rbt (N dr w RED dw wl wr) n) by (by apply rbt_N_red).
      destruct c; (split; [apply Hk'|]).
      * left. split; [apply color_N|]. rewrite blacken_N. by apply rbt_N_black.
      * right. split; [apply color_N|]. by apply rbt_N_black.
    + change (is_red BLACK) with false. cbn [negb andb]. rewrite (bind_done _ _ _ _ _ E1). erewrite rd_bind by exact Hp'. by rewrite Hpp', root_N.
    + apply (elems_plug_eq k). by destruct dr.
    + perm.
Qed.

(** The loop stops at the root or at a red node. *)
Lemma erase_stop fuel h hd mu sz k t lm rm n : Zrep h hd k t lm rm -> deficit k t n -> k = [] \/ colorof t = RED ->
  repairs (erase_fix (S fuel) (root_of hd t) (par hd k)) h hd mu sz k t lm rm.
Proof.
  intros HZ [Hk Ht] Hstop. destruct (Z_root _ _ _ _ _ _ HZ) as (nf & Hf & Hfc & _).
  pose proof (Zhead _ _ _ _ _ _ HZ) as Hh. destruct (set_black h hd mu sz _ _ _ _ HZ) as (h1 & E1 & Z1 & S1).
  assert (exists m, rbt (plug k (blacken t)) m) as Hm.
  { destruct Hstop as [->|Hr].
    - destruct Ht as [[_ Ht]|[Hb Ht]]; [by eexists|]. rewrite (blacken_black t Hb). by eexists.
    - destruct Ht as [[_ Ht]|[Hb Ht]]; [|congruence]. apply (rbt_plug k _ (S n)); [done..|].
      rewrite colorof_blacken. destruct k; [done|by left]. }
  exists (root_of hd t), h, h1, (plug k (blacken t)). split_and!; try done.
  - rewrite erase_fix_turn. reads. rewrite Hfc.
    destruct Hstop as [->| ->]; [by rewrite Z.eqb_refl|by rewrite orb_true_r].
  - by rewrite <- Zrep_plug.
  - apply elems_plug_eq, elems_blacken.
  - apply (colorof_plug k _ (S n)); [done|]. intros _. apply colorof_blacken.
Qed.

Lemma root_of_frame h hd f k t lm rm : Zrep h hd (f :: k) t lm rm -> root_of hd t <> rootk k (fp f).
Proof.
  intros HZ E. pose proof (Znodup _ _ _ _ _ _ HZ) as Hnd. pose proof (root_of_in hd t) as H1. pose proof (rootk_in k (fp f)) as H2.
  rewrite E in H1. cbn [ptrsk] in Hnd. change (hd :: ptrs t ++ ?l) with ((hd :: ptrs t) ++ l) in Hnd.
  apply NoDup_app_disj in Hnd as (_ & Hd & _). apply (Hd _ H1). apply elem_of_cons in H2. rewrite elem_of_cons, elem_of_app. tauto.
Qed.

Lemma root_of_sib h hd dr p c d t w cw dw wl wr k lm rm : Zrep h hd (F dr p c d (N dr w cw dw wl wr) :: k) t lm rm ->
  w <> root_of hd t.
Proof.
  intros HZ E. pose proof (Znodup _ _ _ _ _ _ HZ) as Hnd. pose proof (root_of_in hd t) as H1. rewrite <- E in H1.
  change (hd :: ptrs t ++ ?l) with ((hd :: ptrs t) ++ l) in Hnd.
  apply NoDup_app_disj in Hnd as (_ & Hd & _). apply (Hd _ H1). cbn [ptrsk fp fsib].
  apply elem_of_cons. right. apply elem_of_app. left. rewrite ptrs_N. by left.
Qed.

(** Entering a turn. *)
Lemma turn_enter fuel h hd mu sz k dr p c d w cw dw wl wr t lm rm :
  Zrep h hd (F dr p c d (N dr w cw dw wl wr) :: k) t lm rm -> colorof t = BLACK ->
  erase_fix (S fuel) (root_of hd t) p (st h hd mu sz) =
    (pnode <- (if is_red cw then set_color w BLACK;;; set_color p RED;;; rot dr p;;; rd (far_ dr) p else ret w);;
     erase_tail dr fuel (root_of hd t) p pnode) (st h hd mu sz).
Proof.
  intros HZ Ect. destruct (Z_root _ _ _ _ _ _ HZ) as (nf & Hf & Hfc & _). pose proof (Zhead _ _ _ _ _ _ HZ) as Hh.
  pose proof HZ as HZp. rewrite <- Zrep_N in HZp. destruct (Z_N _ _ _ _ _ _ _ _ _ _ _ HZp) as (np & Hp & _ & _ & _ & Hpn & Hpf).
  pose proof HZ as HZs. rewrite Zrep_sib in HZs. destruct (Z_N _ _ _ _ _ _ _ _ _ _ _ HZs) as (nw & Hw & _ & Hwc & _).
  rewrite root_N in Hpf. rewrite erase_fix_turn. reads. rewrite Hfc, Ect. change (is_red BLACK) with false. rewrite orb_false_r.
  rewrite (proj2 (Z.eqb_neq _ _)) by (apply (root_of_frame h hd _ _ _ _ _ HZ)).
  erewrite rd_bind by exact Hp.
  assert (erase_turn dr fuel (root_of hd t) p (st h hd mu sz) =
    (pnode <- (if is_red cw then set_color w BLACK;;; set_color p RED;;; rot dr p;;; rd (far_ dr) p else ret w);;
     erase_tail dr fuel (root_of hd t) p pnode) (st h hd mu sz)) as <-.
  { unfold erase_turn. erewrite rd_bind by exact Hp. rewrite Hpf. erewrite rd_bind by exact Hw. by rewrite Hwc. }
  destruct dr; cbn in Hpn, Hpf.
  - by rewrite Hpn, Z.eqb_refl.
  - rewrite Hpf, (proj2 (Z.eqb_neq _ _)); [done|]. apply not_eq_sym. eapply (root_of_sib h hd DR); exact HZ.
Qed.

(** The loop repairs the tree; the length of the path is enough fuel. *)
Lemma erase_fix_spec fuel h hd mu sz k t lm rm n : Zrep h hd k t lm rm -> deficit k t n ->
  (match colorof t with RED => 0 | BLACK => S (length k) end < fuel)%nat ->
  repairs (erase_fix fuel (root_of hd t) (par hd k)) h hd mu sz k t lm rm.
Proof.
  revert h k t n. induction fuel as [|fuel IH]; intros h k t n HZ Hdef Hfuel; [lia|].
  destruct k as [|[dr p c d s] k]; [eapply erase_stop; eauto|].
  destruct (colorof t) eqn:Ect; [eapply erase_stop; eauto|]. cbn [length] in Hfuel.
  destruct Hdef as [Hk [[? _]|[_ Ht]]]; [congruence|].
  pose proof (rbk_frame _ _ _ _ _ _ _ Hk) as [Hs Hk'].
  destruct (N_cases dr s) as [->|(w & cw & dw & wl & wr & ->)]; [by inversion Hs|].
  pose proof (fun fuel => turn_enter fuel h hd mu sz _ _ _ _ _ _ _ _ _ _ _ _ _ HZ Ect) as Henter. cbn [par fp].
  destruct cw; [change (is_red RED) with true in Henter|change (is_red BLACK) with false in Henter]; cbn match in Henter.
  - destruct c; [by destruct Hk' as (_ & H & _); rewrite color_N in H|].
    apply rbt_N_red in Hs as (Hwl & Hwr & Hcl & Hcr).
    destruct (red_sibling h hd mu sz _ _ _ _ _ _ _ _ _ _ _ _ HZ) as (h1 & E1 & Z1 & S1).
    destruct (N_cases dr wl) as [->|(x & cx & dx & xl & xr & ->)]; [by inversion Hwl|].
    rewrite color_N in Hcl. subst cx. rewrite root_N in E1.
    eapply repairs_step; [eapply (tail_spec fuel); [exact Z1| |exact Ht|done|]| | |exact S1|].
    + constructor; [done|by rewrite color_N|done|]. by constructor.
    + intros h' t' n' Z' Hd' Hc'. apply (IH h' _ t' n'); [done..|]. rewrite Hc'. lia.
    + rewrite Henter. by rewrite (bind_done _ _ _ _ _ E1).
    + apply (elems_plug_eq k). destruct dr; simpl; by simplify_list_eq.
    + perm.
  - eapply repairs_step; [eapply (tail_spec fuel); [exact HZ|exact Hk|exact Ht|done|]| |done|apply same_refl|done].
    + intros h' t' n' Z' Hd' Hc'. apply (IH h' _ t' n'); [done..|]. rewrite Hc'. destruct c; lia.
    + by rewrite Henter.
Qed.
End Erase.
