(* ===== verification/RbUnlink.v ===== *)
(** * Unlinking a node, on represented trees

    The pointer updates of [rb_erase_node] for a node with at most one child,
    which takes its place; then those for a node with two children, whose
    successor does. *)
From S2P Require Import Prelude RbTree RbSpec RbInsert RbBalance RbSearch RbProofs RbErase.

Section Unlink.
Context {D : Type}.
Implicit Types h : gmap Z (rb_node D).
Implicit Types t l r : tree D.
Implicit Types k : list (frame D).
Implicit Types dr : dir.

(** The parent's link to [erased] becomes one to [v]. *)
Definition relink (erased parent v : Z) : M (rb_tree D) unit :=
  root <- impl_root;;
  if root =? erased then set_root v
  else l <- rd _left parent;; if l =? erased then set_left parent v else set_right parent v.

Lemma unlink_spec h hd mu sz k dr x c d t lm rm :
  Zrep h hd k (N dr x c d t E) lm rm ->
  exists h', (fnil <- rd _isnil (root_of hd t);;
      when (negb fnil) (set_parent (root_of hd t) (par hd k));;;
      relink x (par hd k) (root_of hd t)) (st h hd mu sz) = Done (tt, st h' hd mu sz) /\
    Zrep h' hd k t lm rm /\ same h h' (own hd k (N dr x c d t E)) /\ h' !! x = h !! x.
Proof.
  intros HZ. assert (Zrep h hd k (T x c d (match dr with DL => t | DR => E end) (match dr with DL => E | DR => t end)) lm rm /\
    forall h', same h h' (hd :: x :: ptrs t ++ ptrsk k) -> same h h' (own hd k (N dr x c d t E))) as [[H1 H2 H3 H4] Hown].
  { split; [by destruct dr|]. intros h'. apply same_perm. rewrite own_N. simpl. solve_Permutation. }
  assert (NoDup (hd :: ptrs t ++ ptrsk k)) as Hnd.
  { destruct dr; simpl in H4; rewrite ?app_nil_r in H4; apply list.NoDup_cons in H4 as [? H4]; apply list.NoDup_cons in H4 as [? H4];
      apply list.NoDup_cons; (split; [set_solver|done]). }
  destruct H2 as (Hx & Hl & Hr). clear HZ.
  destruct dr, k as [|[[] p pc pd psib] k], t as [|y cy dy yl yr]; simpl in *; destruct_and?; unfold fnode in *; simpl in *;
    nd_split H4; unfold relink; run; rewrite ?Z.eqb_refl; try eqb_ne; run; rewrite ?Z.eqb_refl; try eqb_ne; run; (erewrite wr_run by lk);
    (eexists; split; [reflexivity|]; split; [zrep_tac Hnd|]; split; [apply Hown; repeat (eapply same_insert; [ | mem | lk ]); apply same_refl|lk]).
Qed.

(** *** The leftmost and rightmost fields *)

Lemma set_lmst_spec h hd mu sz k t lm rm v : Zrep h hd k t lm rm ->
  exists h', set_lmst v (st h hd mu sz) = Done (tt, st h' hd mu sz) /\ Zrep h' hd k t v rm /\
    same h h' (own hd k t) /\ forall q, q <> hd -> h' !! q = h !! q.
Proof.
  intros [H1 H2 H3 H4]. pose proof H4 as Hnd. nd_split H4. unfold set_lmst, set_left. rewrite head_bind. erewrite wr_run by exact H1.
  eexists. split; [reflexivity|]. split; [zrep_tac Hnd|]. split; [same_tac|].
  intros q Hq. by rewrite lookup_insert_ne.
Qed.

Lemma set_rmst_spec h hd mu sz k t lm rm v : Zrep h hd k t lm rm ->
  exists h', set_rmst v (st h hd mu sz) = Done (tt, st h' hd mu sz) /\ Zrep h' hd k t lm v /\
    same h h' (own hd k t) /\ forall q, q <> hd -> h' !! q = h !! q.
Proof.
  intros [H1 H2 H3 H4]. pose proof H4 as Hnd. nd_split H4. unfold set_rmst, set_right. rewrite head_bind. erewrite wr_run by exact H1.
  eexists. split; [reflexivity|]. split; [zrep_tac Hnd|]. split; [same_tac|].
  intros q Hq. by rewrite lookup_insert_ne.
Qed.

Definition last_or (hd : Z) (l : list (Z * D)) : Z := match last l with Some e => e.1 | None => hd end.

Lemma first_is (hd x : Z) (d : D) (l1 l2 : list (Z * D)) : NoDup (l1 ++ (x, d) :: l2).*1 ->
  (first_or hd (l1 ++ (x, d) :: l2) =? x) = match l1 with [] => true | _ => false end.
Proof.
  destruct l1 as [|e l1]; cbn; [by rewrite Z.eqb_refl|]. intros [Hn _]%list.NoDup_cons.
  apply Z.eqb_neq. intros E. apply Hn. rewrite E, fmap_app, elem_of_app. right. by left.
Qed.

Lemma last_is (hd x : Z) (d : D) (l1 l2 : list (Z * D)) : NoDup (l1 ++ (x, d) :: l2).*1 ->
  (last_or hd (l1 ++ (x, d) :: l2) =? x) = match l2 with [] => true | _ => false end.
Proof.
  unfold last_or. destruct l2 as [|e l2]; [by rewrite last_snoc, Z.eqb_refl|]. intros Hnd.
  apply Z.eqb_neq. rewrite last_app, last_cons_cons, last_cons. intros E.
  rewrite fmap_app, NoDup_app_disj in Hnd. destruct Hnd as (_ & _ & [Hn _]%list.NoDup_cons). apply Hn.
  destruct (last l2) as [e'|] eqn:El; cbn in E; rewrite <- E; [|by left].
  apply last_Some in El as [l' ->]. right. apply list_elem_of_fmap. exists e'. split; [done|]. apply elem_of_app. right. by left.
Qed.

(** The listing around a node with at most one child. *)
Definition around dr k t : list (Z * D) * list (Z * D) :=
  match dr with DL => (before k ++ elems t, after k) | DR => (before k, elems t ++ after k) end.

Lemma elems_around dr k x c d t :
  elems (plug k (N dr x c d t E)) = (around dr k t).1 ++ (x, d) :: (around dr k t).2 /\
  elems (plug k t) = (around dr k t).1 ++ (around dr k t).2.
Proof. rewrite !elems_plug. destruct dr; cbn; by rewrite <- ?app_assoc. Qed.

Lemma par_first hd k : before (D := D) k = [] -> par hd k = first_or hd (after k).
Proof. destruct k as [|[[] p c d s] k]; cbn; [done..|]. by intros [_ [_ [=]]%app_eq_nil]%app_eq_nil. Qed.
Lemma par_last hd k : after (D := D) k = [] -> par hd k = last_or hd (before k).
Proof. destruct k as [|[[] p c d s] k]; cbn; [done..|]. intros _. unfold last_or. by rewrite app_assoc, last_snoc. Qed.

Lemma new_lmost hd dr k t : (around dr k t).1 = [] ->
  (if leafb t then par hd k else lmost hd t) = first_or hd (around dr k t).2.
Proof.
  destruct dr; cbn; [intros [Hb Ht]%app_eq_nil|intros Hb]; rewrite (par_first hd k Hb).
  - destruct t as [|y c d l r]; [done|]. cbn in Ht. by destruct (elems l).
  - destruct t as [|y c d l r]; [done|]. unfold lmost. cbn. by destruct (elems l).
Qed.
Lemma new_rmost hd dr k t : (around dr k t).2 = [] ->
  (if leafb t then par hd k else rmost hd t) = last_or hd (around dr k t).1.
Proof.
  destruct dr; cbn; [intros Ha|intros [Ht Ha]%app_eq_nil]; rewrite (par_last hd k Ha).
  - destruct t as [|y c d l r]; cbn; [by rewrite app_nil_r|]. unfold rmost, last_or. cbn. rewrite !last_app, !last_cons. by destruct (last (elems r)).
  - destruct t as [|y c d l r]; [by cbn; rewrite ?app_nil_r|]. cbn in Ht. by destruct (elems l).
Qed.

(** Setting an end of the listing when it was the unlinked node. *)
Lemma fix_lmst_spec h hd mu sz dr k t x c d rm : NoDup (elems (plug k (N dr x c d t E))).*1 ->
  Zrep h hd k t (lmost hd (plug k (N dr x c d t E))) rm -> x <> hd ->
  exists h', (lm <- impl_lmst;;
    when (lm =? x)
      (fnil <- rd _isnil (root_of hd t);;
       v <- (if fnil : bool then ret (par hd k) else node_min (root_of hd t));;
       set_lmst v)) (st h hd mu sz) = Done (tt, st h' hd mu sz) /\
    Zrep h' hd k t (lmost hd (plug k t)) rm /\ same h h' (own hd k t) /\ h' !! x = h !! x.
Proof.
  intros Hnd HZ Hx. destruct (elems_around dr k x c d t) as [E1 E2]. rewrite E1 in Hnd.
  pose proof (Zhead _ _ _ _ _ _ HZ) as Hh. reads. unfold lmost in *. rewrite E1, E2 in *.
  change (match ?l with [] => hd | e :: _ => e.1 end) with (first_or hd l) in *. rewrite first_is by done.
  pose proof (new_lmost hd dr k t) as Hnew. destruct (around dr k t).1 as [|e l1]; cbn [when].
  - specialize (Hnew eq_refl). cbn [app] in *. rewrite <- Hnew.
    assert ((fnil <- rd _isnil (root_of hd t);; v <- (if fnil : bool then ret (par hd k) else node_min (root_of hd t));; set_lmst v)
      (st h hd mu sz) = set_lmst (if leafb t then par hd k else lmost hd t) (st h hd mu sz)) as ->.
    { destruct (Z_root _ _ _ _ _ _ HZ) as (n & Hn & _ & Hnil). erewrite rd_bind by exact Hn. rewrite Hnil.
      destruct t as [|y cy dy yl yr]; [done|]. cbn [leafb root_of]. unfold node_min. rewrite bind_assoc.
      edestruct (@Zrep_loop_fuel D) with (mu := mu) (sz := sz) as (fuel & Hf & ->); [exact HZ|].
      erewrite bind_done by (eapply node_min_loop_spec; [exact HZ|simpl in Hf; rewrite length_app in Hf; lia]). done. }
    destruct (set_lmst_spec h hd mu sz k t _ _ (if leafb t then par hd k else lmost hd t) HZ) as (h' & E & Z' & S' & Hq).
    exists h'. split_and!; try done. by apply Hq.
  - exists h. by split_and!.
Qed.

Lemma fix_rmst_spec h hd mu sz dr k t x c d lm : NoDup (elems (plug k (N dr x c d t E))).*1 ->
  Zrep h hd k t lm (rmost hd (plug k (N dr x c d t E))) -> x <> hd ->
  exists h', (rm <- impl_rmst;;
    when (rm =? x)
      (fnil <- rd _isnil (root_of hd t);;
       v <- (if fnil : bool then ret (par hd k) else node_max (root_of hd t));;
       set_rmst v)) (st h hd mu sz) = Done (tt, st h' hd mu sz) /\
    Zrep h' hd k t lm (rmost hd (plug k t)) /\ same h h' (own hd k t) /\ h' !! x = h !! x.
Proof.
  intros Hnd HZ Hx. destruct (elems_around dr k x c d t) as [E1 E2]. rewrite E1 in Hnd.
  pose proof (Zhead _ _ _ _ _ _ HZ) as Hh. reads. unfold rmost in *. rewrite E1, E2 in *.
  change (match last ?l with Some e => e.1 | None => hd end) with (last_or hd l) in *. rewrite last_is by done.
  pose proof (new_rmost hd dr k t) as Hnew. destruct (around dr k t).2 as [|e l2] eqn:E2'; cbn [when].
  - specialize (Hnew eq_refl). rewrite app_nil_r. rewrite <- Hnew.
    assert ((fnil <- rd _isnil (root_of hd t);; v <- (if fnil : bool then ret (par hd k) else node_max (root_of hd t));; set_rmst v)
      (st h hd mu sz) = set_rmst (if leafb t then par hd k else rmost hd t) (st h hd mu sz)) as ->.
    { destruct (Z_root _ _ _ _ _ _ HZ) as (n & Hn & _ & Hnil). erewrite rd_bind by exact Hn. rewrite Hnil.
      destruct t as [|y cy dy yl yr]; [done|]. cbn [leafb root_of]. unfold node_max. rewrite bind_assoc.
      edestruct (@Zrep_loop_fuel D) with (mu := mu) (sz := sz) as (fuel & Hf & ->); [exact HZ|].
      erewrite bind_done by (eapply node_max_loop_spec; [exact HZ|simpl in Hf; rewrite length_app in Hf; lia]). done. }
    destruct (set_rmst_spec h hd mu sz k t _ _ (if leafb t then par hd k else rmost hd t) HZ) as (h' & E & Z' & S' & Hq).
    exists h'. split_and!; try done. by apply Hq.
  - exists h. split_and!; try done.
    assert (last_or hd ((around dr k t).1 ++ e :: l2) = last_or hd ((around dr k t).1 ++ (x, d) :: e :: l2)) as ->; [|done].
    unfold last_or. by rewrite !last_app, !last_cons_cons.
Qed.

Lemma erase_unlink_spec h hd mu sz k dr x c d t :
  Zrep h hd k (N dr x c d t E) (lmost hd (plug k (N dr x c d t E))) (rmost hd (plug k (N dr x c d t E))) ->
  exists h', erase_unlink x (root_of hd t) (st h hd mu sz) = Done (par hd k, st h' hd mu sz) /\
    Zrep h' hd k t (lmost hd (plug k t)) (rmost hd (plug k t)) /\ same h h' (own hd k (N dr x c d t E)) /\ h' !! x = h !! x.
Proof.
  intros HZ. destruct (Z_N _ _ _ _ _ _ _ _ _ _ _ HZ) as (n & Hn & Hpar & _).
  assert (NoDup (elems (plug k (N dr x c d t E))).*1 /\ x <> hd) as [Hnd Hx].
  { pose proof (Znodup _ _ _ _ _ _ HZ) as Hnd. rewrite <- ptrs_plug, <- fst_elems in Hnd.
    apply list.NoDup_cons in Hnd as [Hhd Hnd]. split; [done|]. intros <-. apply Hhd.
    destruct (elems_around dr k x c d t) as [-> _]. rewrite fmap_app, elem_of_app. right. by left. }
  destruct (unlink_spec h hd mu sz _ _ _ _ _ _ _ _ HZ) as (h1 & E1 & Z1 & S1 & X1).
  destruct (fix_lmst_spec h1 hd mu sz _ _ _ _ _ _ _ Hnd Z1 Hx) as (h2 & E2 & Z2 & S2 & X2).
  destruct (fix_rmst_spec h2 hd mu sz _ _ _ _ _ _ _ Hnd Z2 Hx) as (h3 & E3 & Z3 & S3 & X3).
  exists h3. split_and!; [|done| |congruence].
  - unfold erase_unlink. erewrite rd_bind by exact Hn. rewrite Hpar.
    apply bind_inv in E1 as (nil & s1 & Er & E1). rewrite (bind_done _ _ _ _ _ Er).
    apply bind_inv in E1 as ([] & s2 & Ew & E1). rewrite (bind_done _ _ _ _ _ Ew).
    unfold relink in E1. apply bind_inv in E1 as (root & s3 & Eroot & E1). rewrite (bind_done _ _ _ _ _ Eroot).
    rewrite (bind_done _ _ _ _ _ E1).
    apply bind_inv in E2 as (lm & s4 & El & E2). rewrite (bind_done _ _ _ _ _ El).
    rewrite (bind_done _ _ _ _ _ E2).
    apply bind_inv in E3 as (rm & s5 & Em & E3). rewrite (bind_done _ _ _ _ _ Em).
    by rewrite (bind_done _ _ _ _ _ E3).
  - assert (own hd k t ⊆ own hd k (N dr x c d t E)) as Hsub.
    { intros q. rewrite own_N, own_unfold. cbn. rewrite !elem_of_cons, !elem_of_app. tauto. }
    assert (forall a b : gmap Z (rb_node D), same a b (own hd k t) -> same a b (own hd k (N dr x c d t E))) as Hw.
    { intros a b [Hd Hq]. split; [done|]. intros q H. apply Hq. intros H'. by apply H, Hsub. }
    eapply same_step; [exact S1|done|]. eapply same_step; [apply Hw; exact S2|done|]. by apply Hw.
Qed.
End Unlink.

(** ** Replacing a node by its successor, on represented trees

    The pointer updates of [rb_erase_node] for a node with two children: the
    successor, the first node of the right subtree, takes its place. *)

Section Replace.
Context {D : Type}.
Implicit Types h : gmap Z (rb_node D).
Implicit Types t l r : tree D.
Implicit Types k : list (frame D).

Lemma Zrep_plug_app h hd kr k t lm rm : Zrep h hd k (plug kr t) lm rm <-> Zrep h hd (kr ++ k) t lm rm.
Proof. rewrite Zrep_plug, (Zrep_plug h hd (kr ++ k)). by rewrite plug_app. Qed.

Lemma ptrsk_app k1 k2 : ptrsk (k1 ++ k2) = ptrsk k1 ++ ptrsk k2.
Proof. induction k1 as [|f k1 IH]; cbn; [done|]. by rewrite IH, app_assoc. Qed.
Lemma rootk_app k1 k2 hp : rootk (k1 ++ k2) hp = rootk k2 (rootk k1 hp).
Proof. revert hp. induction k1 as [|f k1 IH]; intros hp; cbn; [done|]. apply IH. Qed.

(** The frames [kr] above the pointer [hp] and below [base]. *)
Fixpoint repck hd h kr (base hp : Z) : Prop :=
  match kr with
  | [] => True
  | f :: kr => h !! fp f = Some (fnode hd f (match kr with [] => base | g :: _ => fp g end) hp) /\
      rep hd h (fp f) (fsib f) /\ repck hd h kr base (fp f)
  end.

Lemma repc_app hd h kr k hp : repc hd h (kr ++ k) hp <-> repck hd h kr (par hd k) hp /\ repc hd h k (rootk kr hp).
Proof.
  revert hp. induction kr as [|f kr IH]; intros hp; cbn [app repc repck rootk]; [tauto|].
  rewrite IH. assert (par hd (kr ++ k) = match kr with [] => par hd k | g :: _ => fp g end) as -> by (by destruct kr). tauto.
Qed.

Lemma repck_frame hd h h' kr base hp : repck hd h kr base hp -> (forall q, q ∈ ptrsk kr -> h' !! q = h !! q) -> repck hd h' kr base hp.
Proof.
  revert hp. induction kr as [|f kr IH]; cbn; [done|]. intros hp (Hp & Hs & Hk) Hq. split_and!.
  - by rewrite Hq by set_solver.
  - eapply rep_frame; [done|]. intros q ?. apply Hq. set_solver.
  - apply IH; [done|]. intros q ?. apply Hq. set_solver.
Qed.

Definition lefts (kr : list (frame D)) : Prop := Forall (fun f => fdir f = DL) kr.

(** The first node of a subtree. *)
Lemma first_node r : r <> E -> exists kr y cy dy yr, r = plug kr (T y cy dy E yr) /\ lefts kr.
Proof.
  induction r as [|p c d l IHl r _]; [done|]. intros _. destruct l as [|q cq dq ll lr].
  - exists [], p, c, d, r. split; [done|]. apply Forall_nil_2.
  - destruct IHl as (kr & y & cy & dy & yr & -> & Hk); [done|].
    exists (kr ++ [F DL p c d r]), y, cy, dy, yr. rewrite plug_app. split; [done|].
    apply Forall_app. split; [done|]. by constructor.
Qed.

(** The link of the parent of [x] becomes one to [v]. *)
Definition relink_from (x v : Z) : M (rb_tree D) unit :=
  root <- impl_root;;
  if root =? x then set_root v
  else ep <- rd _parent x;; epl <- rd _left ep;; if epl =? x then set_left ep v else set_right ep v.

Lemma relink_spec h hd mu sz k x nx v lm rm :
  h !! hd = Some (hnode hd (rootk k x) lm rm) -> h !! x = Some nx -> _parent nx = par hd k -> repc hd h k x ->
  NoDup (hd :: x :: ptrsk k) ->
  exists h', relink_from x v (st h hd mu sz) = Done (tt, st h' hd mu sz) /\
    h' !! hd = Some (hnode hd (rootk k v) lm rm) /\ repc hd h' k v /\ same h h' (hd :: ptrsk k).
Proof.
  intros Hh Hx Hpx Hk Hnd. unfold relink_from. pose proof Hnd as H4.
  destruct k as [|[[] p pc pd psib] k]; simpl in *; destruct_and?; unfold fnode in *; simpl in *; nd_split H4;
    run; rewrite ?Z.eqb_refl; try eqb_ne; run; rewrite ?Hpx; run; rewrite ?Z.eqb_refl; try eqb_ne; run; (erewrite wr_run by lk);
    (eexists; split; [reflexivity|]; split; [lk|split; [|repeat (eapply same_insert; [ | mem | lk ]); apply same_refl]]);
    split_and?; solve [ done | lk | eapply rep_frame; [eassumption | intros ? ?; lk]
                      | eapply repc_frame; [eassumption | intros ? ?; lk] ].
Qed.

(** The end of [erase_replace], from the link of the parent on. *)
Definition replace_end (erased pnode fixparent : Z) : M (rb_tree D) Z :=
  relink_from erased pnode;;;
  ep <- rd _parent erased;; set_parent pnode ep;;;
  c1 <- rd _color pnode;; c2 <- rd _color erased;;
  set_color pnode c2;;; set_color erased c1;;;
  ret fixparent.

Lemma replace_end_spec h hd mu sz k x c d xl xr y yl yp cy dy q lm rm :
  h !! hd = Some (hnode hd (rootk k x) lm rm) -> h !! x = Some (mkNode (par hd k) xl xr c false (Some d)) ->
  h !! y = Some (mkNode yp yl q cy false (Some dy)) -> repc hd h k x -> NoDup (hd :: x :: y :: ptrsk k) ->
  forall f, exists h', replace_end x y f (st h hd mu sz) = Done (f, st h' hd mu sz) /\
    h' !! hd = Some (hnode hd (rootk k y) lm rm) /\ repc hd h' k y /\
    h' !! y = Some (mkNode (par hd k) yl q c false (Some dy)) /\ (exists nx, h' !! x = Some nx /\ _color nx = cy) /\
    same h h' (hd :: x :: y :: ptrsk k).
Proof.
  intros Hh Hx Hy Hk Hnd f. pose proof Hnd as H4. nd_split H4.
  destruct (relink_spec h hd mu sz k x _ y lm rm Hh Hx eq_refl Hk) as (h1 & E1 & G1 & G2 & [S1 S2]).
  { apply list.NoDup_cons. rewrite list.NoDup_cons. split; [set_solver|by split]. }
  rewrite <- (S2 x) in Hx by (intros [->|]%elem_of_cons; [congruence|contra_mem]).
  rewrite <- (S2 y) in Hy by (intros [->|]%elem_of_cons; [congruence|contra_mem]).
  unfold replace_end. rewrite (bind_done _ _ _ _ _ E1). run.
  eexists. split; [reflexivity|]. split; [lk|]. split; [eapply repc_frame; [eassumption|intros ? ?; lk]|].
  split; [lk|]. split; [eexists; split; [lk|done]|].
  repeat (eapply same_insert; [ | mem | lk ]). split; [done|]. intros z Hz. apply S2. set_solver.
Qed.


(** The first part of [erase_replace]: the links in the subtree. *)
Lemma erase_replace_eq erased pnode fixnode s :
  erase_replace erased pnode fixnode s =
  (el <- rd _left erased;; set_parent el pnode;;;
   el <- rd _left erased;; set_left pnode el;;;
   er <- rd _right erased;;
   fixparent <-
    (if pnode =? er then ret pnode
     else
       fixparent <- rd _parent pnode;;
       fnil <- rd _isnil fixnode;;
       when (negb fnil) (set_parent fixnode fixparent);;;
       set_left fixparent fixnode;;;
       er <- rd _right erased;; set_right pnode er;;;
       er <- rd _right erased;; set_parent er pnode;;;
       ret fixparent);;
   replace_end erased pnode fixparent) s.
Proof. unfold erase_replace. repeat (apply bind_ext; intros). symmetry. apply bind_assoc. Qed.

Definition replaced h h' hd kr k x c d l y cy dy yr lm rm : Prop :=
  Zrep h' hd (kr ++ F DR y c dy l :: k) yr lm rm /\
  same h h' (own hd (kr ++ F DR x c d l :: k) (T y cy dy E yr)) /\
  exists nx, h' !! x = Some nx /\ _color nx = cy.

(** Addresses other than those of the last part. *)
Ltac elsewhere := rewrite !elem_of_cons; intros [->|[->|[->|?]]]; first [congruence | contra_mem | (match goal with H : ?x <> ?x |- _ => destruct (H eq_refl) end)].
Ltac lke HS := match goal with |- _ !! ?q = _ => rewrite (HS q ltac:(elsewhere)) end; lk.
Ltac frame HS :=
  first [ eapply rep_frame; [eassumption | intros ? ?; lke HS]
        | eapply repck_frame; [eassumption | intros ? ?; lke HS] ].

Lemma same_cat h1 h2 h3 (l l' : list Z) : same h1 h2 l -> same h2 h3 l' -> (forall q, q ∈ l' -> q ∈ l) -> same h1 h3 l.
Proof.
  intros [Hd Hq] [Hd' Hq'] H. split; [congruence|]. intros q Hn. rewrite Hq'; [by apply Hq|]. intros Hi. by apply Hn, H.
Qed.

(** An address listed explicitly. *)
Ltac here := first [solve [repeat first [apply list_elem_of_here | apply list_elem_of_further]] | mem].

(** Runs the last part on the heap that the first part left. *)
Ltac last_part HE h' G1 G2 G3 G4 G6 :=
  match goal with |- context [replace_end ?X ?Y ?FX (st ?hA ?hd ?mu ?sz)] =>
    edestruct (replace_end_spec hA hd mu sz) with (f := FX) (x := X) (y := Y) as (h' & HE & G1 & G2 & G3 & G4 & G6);
      [lk|lk|lk| |eassumption|]
  end.

Lemma replace_child h hd mu sz k x c d lp lc ld ll lr y cy dy yr lm rm :
  Zrep h hd (F DR x c d (T lp lc ld ll lr) :: k) (T y cy dy E yr) lm rm ->
  exists h', erase_replace x y (root_of hd yr) (st h hd mu sz) = Done (y, st h' hd mu sz) /\
    replaced h h' hd [] k x c d (T lp lc ld ll lr) y cy dy yr lm rm.
Proof.
  intros HZ. unfold replaced. cbn [app].
  assert (forall h', same h h' (hd :: x :: y :: lp :: ptrs ll ++ ptrs lr ++ ptrs yr ++ ptrsk k) ->
    same h h' (own hd (F DR x c d (T lp lc ld ll lr) :: k) (T y cy dy E yr))) as Hown.
  { intros h'. apply same_perm. rewrite own_unfold. simpl. solve_Permutation. }
  destruct HZ as [H1 H2 H3 H4]. simpl in H1, H2, H3. destruct H2 as (Hy & _ & Hyr).
  destruct H3 as (Hx & (Hlp & Hll & Hlr) & Hk). unfold fnode in Hx. simpl in Hx.
  assert (NoDup (hd :: ptrs yr ++ y :: lp :: (ptrs ll ++ ptrs lr) ++ ptrsk k)) as Hnd.
  { assert (NoDup ((hd :: ptrs yr ++ y :: lp :: (ptrs ll ++ ptrs lr) ++ ptrsk k) ++ [x])) as H%list.NoDup_app; [|by destruct H].
    eapply NoDup_Permutation_proper; [|exact H4]. simpl. solve_Permutation. }
  assert (NoDup (hd :: x :: y :: ptrsk k)) as Hend.
  { assert (NoDup ((hd :: x :: y :: ptrsk k) ++ ptrs yr ++ lp :: (ptrs ll ++ ptrs lr))) as H%list.NoDup_app; [|by destruct H].
    eapply NoDup_Permutation_proper; [|exact H4]. simpl. solve_Permutation. }
  nd_split H4. rewrite erase_replace_eq. run. rewrite Z.eqb_refl, bind_ret.
  last_part E' h' G1 G2 G3 G4 G6; [eapply repc_frame; [eassumption|intros ? ?; lk]|]. pose proof G6 as [_ G5].
  exists h'. split; [exact E'|]. split; [|split; [apply Hown|done]].
  - split; simpl.
    + exact G1.
    + frame G5.
    + unfold fnode. simpl. split_and!; [exact G3|lke G5|frame G5|frame G5|exact G2].
    + eapply NoDup_Permutation_proper; [|exact Hnd]; simpl; solve_Permutation.
  - eapply same_cat; [|exact G6|intros ?; mem].
    repeat (eapply same_insert; [ | mem | lk ]). apply same_refl.
Qed.

Lemma replace_grandchild h hd mu sz k x c d lp lc ld ll lr p1 c1 d1 s1 y cy dy yr lm rm :
  Zrep h hd (F DL p1 c1 d1 s1 :: F DR x c d (T lp lc ld ll lr) :: k) (T y cy dy E yr) lm rm ->
  exists h', erase_replace x y (root_of hd yr) (st h hd mu sz) = Done (p1, st h' hd mu sz) /\
    replaced h h' hd [F DL p1 c1 d1 s1] k x c d (T lp lc ld ll lr) y cy dy yr lm rm.
Proof.
  intros HZ. unfold replaced. cbn [app].
  assert (forall h', same h h' (hd :: x :: y :: lp :: p1 :: ptrs s1 ++ ptrs ll ++ ptrs lr ++ ptrs yr ++ ptrsk k) ->
    same h h' (own hd (F DL p1 c1 d1 s1 :: F DR x c d (T lp lc ld ll lr) :: k) (T y cy dy E yr))) as Hown.
  { intros h'. apply same_perm. rewrite own_unfold. simpl. solve_Permutation. }
  destruct HZ as [H1 H2 H3 H4]. simpl in H1, H2, H3. destruct H2 as (Hy & _ & Hyr).
  destruct H3 as (Hp1 & Hs1 & Hx & (Hlp & Hll & Hlr) & Hk). unfold fnode in Hx, Hp1. simpl in Hx, Hp1.
  assert (NoDup (hd :: ptrs yr ++ p1 :: ptrs s1 ++ y :: lp :: (ptrs ll ++ ptrs lr) ++ ptrsk k)) as Hnd.
  { assert (NoDup ((hd :: ptrs yr ++ p1 :: ptrs s1 ++ y :: lp :: (ptrs ll ++ ptrs lr) ++ ptrsk k) ++ [x])) as H%list.NoDup_app; [|by destruct H].
    eapply NoDup_Permutation_proper; [|exact H4]. simpl. solve_Permutation. }
  assert (NoDup (hd :: x :: y :: ptrsk k)) as Hend.
  { assert (NoDup ((hd :: x :: y :: ptrsk k) ++ ptrs yr ++ lp :: (ptrs ll ++ ptrs lr) ++ p1 :: ptrs s1)) as H%list.NoDup_app; [|by destruct H].
    eapply NoDup_Permutation_proper; [|exact H4]. simpl. solve_Permutation. }
  rewrite erase_replace_eq.
  destruct yr as [|q cq dq ql qr]; simpl in *; destruct_and?; nd_split H4; run; eqb_ne; run;
    (last_part E' h' G1 G2 G3 G4 G6; [eapply repc_frame; [eassumption|intros ? ?; lk]|]); pose proof G6 as [_ G5];
    (exists h'; split; [exact E'|]; split; [|split; [apply Hown|done]]).
  2,4: eapply same_cat; [|exact G6|intros ?; mem];
    repeat (eapply same_insert; [ | here | lk ]); apply same_refl.
  all: split; simpl; [exact G1|..|eapply NoDup_Permutation_proper; [|exact Hnd]; simpl; solve_Permutation];
    unfold fnode; simpl; split_and?; solve [done | exact G2 | exact G3 | lke G5 | frame G5].
Qed.

Lemma par_app hd k1 f k : par (D := D) hd (k1 ++ f :: k) = match k1 with [] => fp f | g :: _ => fp g end.
Proof. by destruct k1. Qed.

Lemma replace_deep h hd mu sz k x c d lp lc ld ll lr p1 c1 d1 s1 mid pl cl dl sl y cy dy yr lm rm :
  Zrep h hd (F DL p1 c1 d1 s1 :: mid ++ F DL pl cl dl sl :: F DR x c d (T lp lc ld ll lr) :: k) (T y cy dy E yr) lm rm ->
  exists h', erase_replace x y (root_of hd yr) (st h hd mu sz) = Done (p1, st h' hd mu sz) /\
    replaced h h' hd (F DL p1 c1 d1 s1 :: mid ++ [F DL pl cl dl sl]) k x c d (T lp lc ld ll lr) y cy dy yr lm rm.
Proof.
  intros HZ. unfold replaced. cbn [app]. rewrite <- !app_assoc. cbn [app].
  assert (forall h', same h h' (hd :: x :: y :: lp :: p1 :: pl :: ptrs s1 ++ ptrs sl ++ ptrsk mid ++ ptrs ll ++ ptrs lr ++ ptrs yr ++ ptrsk k) ->
    same h h' (own hd (F DL p1 c1 d1 s1 :: mid ++ F DL pl cl dl sl :: F DR x c d (T lp lc ld ll lr) :: k) (T y cy dy E yr))) as Hown.
  { intros h'. apply same_perm. rewrite own_unfold. simpl. rewrite ptrsk_app. simpl. solve_Permutation. }
  destruct HZ as [H1 H2 H3 H4]. cbn [rootk fp] in H1. rewrite rootk_app in H1. cbn [rootk fp] in H1. cbn [root_of rep] in H2, H3.
  destruct H2 as (Hy & _ & Hyr). cbn [par fp] in Hy.
  cbn [repc fp fsib] in H3. rewrite repc_app, par_app in H3. cbn [par repc fp fsib rep] in H3.
  destruct H3 as (Hp1 & Hs1 & Hmid & Hpl & Hsl & Hx & (Hlp & Hll & Hlr) & Hk). unfold fnode in Hp1, Hpl, Hx. cbn in Hp1, Hpl, Hx.
  cbn [ptrs ptrsk fp fsib] in H4. rewrite ptrsk_app in H4. cbn [ptrs ptrsk fp fsib app] in H4.
  revert Hp1. set (q1 := match mid with [] => pl | g :: _ => fp g end). intros Hp1.
  set (whole := hd :: x :: y :: ptrsk k ++ ptrs yr ++ p1 :: ptrs s1 ++ ptrsk mid ++ pl :: ptrs sl ++ lp :: (ptrs ll ++ ptrs lr)).
  assert (NoDup whole) as Hw.
  { unfold whole. eapply NoDup_Permutation_proper; [|exact H4]. simpl. solve_Permutation. }
  assert (NoDup (hd :: x :: y :: ptrsk k)) as Hend.
  { change whole with ((hd :: x :: y :: ptrsk k) ++ ptrs yr ++ p1 :: ptrs s1 ++ ptrsk mid ++ pl :: ptrs sl ++ lp :: (ptrs ll ++ ptrs lr)) in Hw.
    by apply list.NoDup_app in Hw as [? _]. }
  assert (NoDup (hd :: ptrs yr ++ p1 :: ptrs s1 ++ ptrsk mid ++ pl :: ptrs sl ++ y :: lp :: (ptrs ll ++ ptrs lr) ++ ptrsk k)) as Hnd.
  { assert (NoDup ((hd :: ptrs yr ++ p1 :: ptrs s1 ++ ptrsk mid ++ pl :: ptrs sl ++ y :: lp :: (ptrs ll ++ ptrs lr) ++ ptrsk k) ++ [x])) as H%list.NoDup_app; [|by destruct H].
    eapply NoDup_Permutation_proper; [|exact Hw]. unfold whole. simpl. solve_Permutation. }
  clear Hw whole. rewrite erase_replace_eq.
  assert (forall h', h' !! hd = Some (hnode hd (rootk k y) lm rm) -> rep hd h' p1 yr ->
    h' !! p1 = Some (mkNode q1 (root_of hd yr) (root_of hd s1) c1 false (Some d1)) -> rep hd h' p1 s1 -> repck hd h' mid pl p1 ->
    h' !! pl = Some (mkNode y (rootk mid p1) (root_of hd sl) cl false (Some dl)) -> rep hd h' pl sl ->
    h' !! y = Some (mkNode (par hd k) lp pl c false (Some dy)) -> rep hd h' y (T lp lc ld ll lr) -> repc hd h' k y ->
    Zrep h' hd (F DL p1 c1 d1 s1 :: mid ++ F DL pl cl dl sl :: F DR y c dy (T lp lc ld ll lr) :: k) yr lm rm) as Hdone.
  { intros h' G1 G2 G3 G4 G5 G6 G7 G8 G9 G10. split.
    - cbn [rootk fp]. rewrite rootk_app. exact G1.
    - exact G2.
    - cbn [repc fp fsib]. rewrite repc_app, par_app. cbn [par repc fp fsib]. unfold fnode. cbn. cbn in G9. destruct G9 as (? & ? & ?). by split_and!.
    - cbn [ptrs ptrsk fp fsib]. rewrite ptrsk_app. cbn [ptrs ptrsk fp fsib]. eapply NoDup_Permutation_proper; [|exact Hnd].
      simpl. solve_Permutation. }
  destruct yr as [|q cq dq ql qr]; simpl in *; destruct_and?; nd_split H4; run; eqb_ne; run;
    (last_part E' h' G1 G2 G3 G4 G6; [eapply repc_frame; [eassumption|intros ? ?; lk]|]); pose proof G6 as [_ G5];
    (exists h'; split; [exact E'|]; split; [|split; [apply Hown|done]]).
  2,4: eapply same_cat; [|exact G6|intros ?; mem];
    repeat (eapply same_insert; [ | here | lk ]); apply same_refl.
  all: apply Hdone; simpl; split_and?; solve [done | exact G1 | exact G2 | exact G3 | lke G5 | frame G5].
Qed.
End Replace.
