(* ===== verification/RbRemove.v ===== *)
(** * Erasing a node of a tree

    [rb_erase_node] as a whole on represented trees: the node is unlinked,
    and the tree is rebalanced when a black node is missing. *)
From S2P Require Import Prelude RbTree RbSpec RbInsert RbBalance RbSearch RbProofs RbErase RbUnlink RbTheorems.

Section Remove.
Context {D : Type}.
Implicit Types h : gmap Z (rb_node D).
Implicit Types t l r : tree D.
Implicit Types k : list (frame D).

Lemma replace_spec h hd mu sz k x c d l kr y cy dy yr lm rm : l <> E -> lefts kr ->
  Zrep h hd (kr ++ F DR x c d l :: k) (T y cy dy E yr) lm rm ->
  exists h', erase_replace x y (root_of hd yr) (st h hd mu sz) = Done (par hd (kr ++ F DR y c dy l :: k), st h' hd mu sz) /\
    replaced h h' hd kr k x c d l y cy dy yr lm rm.
Proof.
  intros Hl Hk HZ. destruct l as [|lp lc ld ll lr]; [done|]. rewrite par_app.
  destruct kr as [|[dr p1 c1 d1 s1] kr]; [by apply replace_child|].
  apply Forall_cons in Hk as [E1 Hk]. cbn in E1. subst dr.
  destruct kr as [|f kr _] using rev_ind; [by apply replace_grandchild|].
  apply Forall_app in Hk as [_ Hk]. apply Forall_cons in Hk as [E1 _]. destruct f as [dr pl cl dl sl]. cbn in E1. subst dr.
  apply replace_deep. cbn [app] in *. by rewrite <- app_assoc in HZ.
Qed.

Lemma rbk_rename kr dr x y c d dy l k n : rbk (kr ++ F dr x c d l :: k) n -> rbk (kr ++ F dr y c dy l :: k) n.
Proof.
  revert n. induction kr as [|[dr' p c' d' s] kr IH]; cbn [app]; intros n Hk; apply rbk_frame in Hk as [Hs Hk].
  - destruct c; [|by constructor]. destruct Hk as (Hk & Hc & f & k' & -> & Hf). by constructor.
  - destruct c'; [|constructor; [done|by apply IH]]. destruct Hk as (Hk & Hc & f & k' & E & Hf).
    destruct kr as [|g kr]; cbn [app] in *; [injection E as <- <-|injection E as <- <-].
    + cbn in Hf. subst c. constructor; try done. by apply (IH n).
    + constructor; try done. by apply (IH n).
Qed.

Lemma rbt_lift t m : rbt t m -> colorof t = RED -> rbt (blacken t) (S m).
Proof. destruct 1; cbn; [done|intros _; by constructor|done]. Qed.

(** The end of [rb_erase_node]: a black node is missing at the focus, or a red
    one that does not count. *)
Lemma rebalance h hd mu sz k t lm rm x nx n ec : Zrep h hd k t lm rm -> h !! x = Some nx -> _color nx = ec ->
  match ec with
  | RED => rbk k n /\ rbt t n /\ colorof t = BLACK
  | BLACK => rbk k (S n) /\ rbt t n
  end ->
  exists h' t', (ec <- rd _color x;;
      when (negb (is_red ec))
        (fuel <- loop_fuel;;
         fixnode <- erase_fix fuel (root_of hd t) (par hd k);;
         set_color fixnode BLACK)) (st h hd mu sz) = Done (tt, st h' hd mu sz) /\
    Zrep h' hd [] t' lm rm /\ elems t' = elems (plug k t) /\ (exists m, rbt t' m) /\ colorof t' = BLACK /\ same h h' (own hd k t).
Proof.
  intros HZ Hx Hc Hcase. erewrite rd_bind by exact Hx. rewrite Hc. destruct ec.
  - destruct Hcase as (Hk & Ht & Hb). exists h, (plug k t). change (is_red RED) with true. split; [done|].
    rewrite <- Zrep_plug. split_and!; try done.
    + apply (rbt_plug k t n Hk Ht). rewrite Hb. destruct k; [done|by left].
    + apply (colorof_plug k t n); [done|]. by intros _.
  - destruct Hcase as (Hk & Ht). change (is_red BLACK) with false. cbn [negb when].
    edestruct (@Zrep_loop_fuel D) with (mu := mu) (sz := sz) as (fuel & Hf & ->); [exact HZ|].
    destruct (erase_fix_spec fuel h hd mu sz k t lm rm n HZ) as (f & h1 & h' & t' & E1 & E2 & H).
    + split; [done|]. destruct (colorof t) eqn:Ec; [left|by right]. split; [done|]. by apply rbt_lift.
    + pose proof (length_frames k). destruct (colorof t); lia.
    + exists h', t'. split; [|exact H]. by rewrite (bind_done _ _ _ _ _ E1).
Qed.

Lemma finish_spec h h1 hd mu sz k t lm rm x nx n ec (node : Z) (m : M (rb_tree D) Z) :
  m (st h hd mu sz) = Done (par hd k, st h1 hd mu sz) -> Zrep h1 hd k t lm rm -> h1 !! x = Some nx -> _color nx = ec ->
  match ec with
  | RED => rbk k n /\ rbt t n /\ colorof t = BLACK
  | BLACK => rbk k (S n) /\ rbt t n
  end ->
  exists h' t', (fixparent <- m;;
      ec <- rd _color x;;
      when (negb (is_red ec))
        (fuel <- loop_fuel;;
         fixnode <- erase_fix fuel (root_of hd t) fixparent;;
         set_color fixnode BLACK);;;
      sz <- gets t_size;; set_size (sz - 1);;;
      ret node) (st h hd mu sz) = Done (node, st h' hd mu (u64 (sz - 1))) /\
    Zrep h' hd [] t' lm rm /\ elems t' = elems (plug k t) /\ (exists m, rbt t' m) /\ colorof t' = BLACK /\ same h1 h' (own hd k t).
Proof.
  intros Em HZ Hx Hc Hcase. destruct (rebalance h1 hd mu sz k t lm rm x nx n ec HZ Hx Hc Hcase) as (h' & t' & E1 & H).
  exists h', t'. split; [|exact H]. rewrite (bind_done _ _ _ _ _ Em), <- bind_assoc. by rewrite (bind_done _ _ _ _ _ E1).
Qed.

(** The part of [rb_erase_node] after the successor is known. *)
Definition erase_at (erased node : Z) : M (rb_tree D) Z :=
  el <- rd _left erased;; elnil <- rd _isnil el;;
  '(pnode, fixnode) <-
    (if elnil : bool then f <- rd _right erased;; ret (erased, f)
     else
       er <- rd _right erased;; ernil <- rd _isnil er;;
       if ernil : bool then f <- rd _left erased;; ret (erased, f)
       else f <- rd _right node;; ret (node, f));;
  fixparent <- (if pnode =? erased then erase_unlink erased fixnode
                else erase_replace erased pnode fixnode);;
  ec <- rd _color erased;;
  when (negb (is_red ec))
    (fuel <- loop_fuel;;
     fixnode <- erase_fix fuel fixnode fixparent;;
     set_color fixnode BLACK);;;
  sz <- gets t_size;; set_size (sz - 1);;;
  ret node.

Definition erases h hd mu sz k x c d l r (node : Z) : Prop :=
  exists h' t', erase_at x node (st h hd mu sz) = Done (node, st h' hd mu (u64 (sz - 1))) /\
    Zrep h' hd [] t' (lmost hd t') (rmost hd t') /\ elems t' = (before k ++ elems l) ++ elems r ++ after k /\
    (exists m, rbt t' m) /\ colorof t' = BLACK /\ same h h' (own hd k (T x c d l r)).

Lemma lmost_elems hd t t' : elems t = elems t' -> lmost hd t = lmost hd t' /\ rmost hd t = rmost hd t'.
Proof. unfold lmost, rmost. by intros ->. Qed.

(** One child at most. *)
Lemma erase_one h hd mu sz k dr x c d t m node :
  let t0 := plug k (N dr x c d t E) in
  Zrep h hd k (N dr x c d t E) (lmost hd t0) (rmost hd t0) -> rbt t0 m -> colorof t0 = BLACK ->
  erases h hd mu sz k x c d (match dr with DL => t | DR => E end) (match dr with DL => E | DR => t end) node.
Proof.
  cbn zeta. intros HZ Hm Hb. destruct (rbt_unplug _ _ _ Hm Hb) as (n & Hn & Hk & _).
  destruct (erase_unlink_spec h hd mu sz _ _ _ _ _ _ HZ) as (h1 & E1 & Z1 & S1 & X1).
  destruct (Z_N _ _ _ _ _ _ _ _ _ _ _ HZ) as (nx & Hx & _ & Hc & _ & Hnear & Hfar).
  assert (match c with RED => rbk k n /\ rbt t n /\ colorof t = BLACK | BLACK => exists m, n = S m /\ rbk k (S m) /\ rbt t m end) as Hcase.
  { destruct c; [apply rbt_N_red in Hn; tauto|]. rewrite rbt_N in Hn. apply rbt_black_inv in Hn as (m' & -> & Ht & _). by exists m'. }
  assert (exists n', match c with RED => rbk k n' /\ rbt t n' /\ colorof t = BLACK | BLACK => rbk k (S n') /\ rbt t n' end) as (n' & Hcase').
  { destruct c; [by exists n|]. destruct Hcase as (m' & _ & H). by exists m'. }
  destruct (finish_spec h h1 hd mu sz k t _ _ x nx n' c node _ E1 Z1 ltac:(by rewrite X1) Hc Hcase') as (h' & t' & E2 & Z2 & He & Hr & Hcol & S2).
  exists h', t'. destruct (lmost_elems hd _ _ He) as [<- <-] in Z2 |- *. split_and!; try done.
  - rewrite <- E2. destruct (Z_root _ _ _ _ _ _ (proj1 (Zrep_N _ _ _ _ _ _ _ _ _ _ _) HZ)) as (nt & Ht & _ & Hnil).
    pose proof (Zhead _ _ _ _ _ _ HZ) as Hh. unfold erase_at.
    destruct dr; cbn [near_ far_ opp] in Hnear, Hfar; [destruct t as [|q cq dq ql qr]|]; cbn [root_of leafb] in *;
      repeat (first [ rewrite bind_assoc | rewrite bind_ret | erewrite rd_bind by first [exact Hx|exact Hh|exact Ht]
                    | rewrite Hnear | rewrite Hfar | rewrite Hnil | rewrite Z.eqb_refl ]; cbn [_isnil hnode]); reflexivity.
  - rewrite He. destruct (elems_around dr k x c d t) as [_ ->]. destruct dr; cbn; by rewrite ?app_nil_r, <- ?app_assoc.
  - assert (own hd k (T x c d (match dr with DL => t | DR => E end) (match dr with DL => E | DR => t end)) = own hd k (N dr x c d t E)) as ->
      by (by destruct dr).
    eapply same_cat; [exact S1|exact S2|]. intros q. rewrite own_N, own_unfold, !elem_of_cons, !elem_of_app. cbn. rewrite ?elem_of_app. tauto.
Qed.

(** Two children: the successor [y] takes the node's place. *)
Lemma erase_two h hd mu sz k x c d l kr y cy dy yr m :
  let t0 := plug k (T x c d l (plug kr (T y cy dy E yr))) in l <> E -> lefts kr ->
  Zrep h hd k (T x c d l (plug kr (T y cy dy E yr))) (lmost hd t0) (rmost hd t0) -> rbt t0 m -> colorof t0 = BLACK ->
  erases h hd mu sz k x c d l (plug kr (T y cy dy E yr)) y.
Proof.
  cbn zeta. intros Hl Hkr HZ Hm Hb. set (r := plug kr (T y cy dy E yr)) in *.
  assert (Zrep h hd (kr ++ F DR x c d l :: k) (T y cy dy E yr) (lmost hd (plug k (T x c d l r))) (rmost hd (plug k (T x c d l r)))) as HZy.
  { rewrite Zrep_right in HZ. by apply Zrep_plug_app. }
  assert (plug k (T x c d l r) = plug (kr ++ F DR x c d l :: k) (T y cy dy E yr)) as E0 by (by rewrite plug_app).
  rewrite E0 in Hm, Hb. destruct (rbt_unplug _ _ _ Hm Hb) as (n & Hn & Hk & _).
  destruct (replace_spec h hd mu sz k x c d l kr y cy dy yr _ _ Hl Hkr HZy) as (h1 & E1 & Z1 & S1 & nx & Hnx & Hcx).
  set (k' := kr ++ F DR y c dy l :: k) in *.
  assert (exists n', match cy with RED => rbk k' n' /\ rbt yr n' /\ colorof yr = BLACK | BLACK => rbk k' (S n') /\ rbt yr n' end) as (n' & Hcase).
  { destruct cy.
    - exists n. apply rbt_red_inv in Hn as (_ & Hyr & _ & Hc). split; [by eapply rbk_rename|by split].
    - apply rbt_black_inv in Hn as (m' & -> & _ & Hyr). exists m'. split; [by eapply rbk_rename|done]. }
  destruct (finish_spec h h1 hd mu sz k' yr _ _ x nx n' cy y _ E1 Z1 Hnx Hcx Hcase) as (h' & t' & E2 & Z2 & He & Hr & Hcol & S2).
  assert (elems r = (y, dy) :: elems (plug kr yr)) as Er.
  { unfold r. rewrite !elems_plug. cbn. assert (before kr = []) as ->; [|done].
    clear -Hkr. induction Hkr as [|f kr Hf _ IH]; [done|]. cbn. by rewrite IH, Hf. }
  assert (elems t' = (before k ++ elems l) ++ elems r ++ after k) as He'.
  { rewrite He, Er. unfold k'. rewrite plug_app. cbn. rewrite elems_plug. cbn. by rewrite <- !app_assoc. }
  assert (elems (plug k (T x c d l r)) = (before k ++ elems l) ++ (x, d) :: elems r ++ after k) as He0.
  { rewrite elems_plug. cbn. by rewrite <- !app_assoc. }
  assert (elems l <> []) as Hel by (destruct l; [done|]; cbn; by destruct (elems l1)).
  assert (lmost hd (plug k (T x c d l r)) = lmost hd t' /\ rmost hd (plug k (T x c d l r)) = rmost hd t') as [El' Er'].
  { unfold lmost, rmost. rewrite He0, He', Er. split.
    - destruct (before k) as [|e b]; [|done]. by destruct (elems l).
    - cbn [app]. by rewrite !last_app, last_cons_cons. }
  exists h', t'. rewrite El', Er' in Z2. split_and!; try done.
  - rewrite <- E2. pose proof (Z_focus _ _ _ _ _ _ _ _ _ _ HZ) as Hx. pose proof (Z_focus _ _ _ _ _ _ _ _ _ _ HZy) as Hy.
    pose proof HZ as HZl. rewrite Zrep_left in HZl. destruct (Z_root _ _ _ _ _ _ HZl) as (nl & Hnl & _ & Hnill).
    pose proof HZ as HZr. rewrite Zrep_right in HZr. destruct (Z_root _ _ _ _ _ _ HZr) as (nr & Hnr & _ & Hnilr).
    assert (leafb l = false) as El0 by (by destruct l). assert (leafb r = false) as Er0 by (destruct r; [done|done]).
    rewrite El0 in Hnill. rewrite Er0 in Hnilr.
    assert ((y =? x) = false) as Hyx.
    { apply Z.eqb_neq. intros ->. pose proof (Znodup _ _ _ _ _ _ HZy) as Hnd. cbn [ptrs] in Hnd. rewrite ptrsk_app in Hnd.
      apply list.NoDup_cons in Hnd as [_ Hnd]. cbn in Hnd. apply list.NoDup_cons in Hnd as [Hnd _]. apply Hnd.
      rewrite !elem_of_app. right. right. by left. }
    unfold erase_at. repeat (first [ rewrite bind_assoc | rewrite bind_ret | erewrite rd_bind by first [exact Hx|exact Hy|exact Hnl|exact Hnr]
                    | rewrite Hnill | rewrite Hnilr | rewrite Hyx ]; cbn [_isnil _left _right]). reflexivity.
  - eapply same_cat; [|exact S2|].
    + eapply same_perm; [|exact S1]. unfold own. by rewrite <- E0.
    + intros q. rewrite !own_unfold. unfold k', r. rewrite ptrsk_app. cbn [ptrs ptrsk fp fsib].
      rewrite ptrs_plug. cbn [ptrs]. set_solver.
Qed.

(** [rb_erase_node] on any node of a represented tree. *)
Lemma rb_erase_node_spec h hd mu sz k x c d l r m :
  let t0 := plug k (T x c d l r) in
  Zrep h hd k (T x c d l r) (lmost hd t0) (rmost hd t0) -> rbt t0 m -> colorof t0 = BLACK ->
  exists h' t', rb_erase_node x (st h hd mu sz) = Done (first_or hd (elems r ++ after k), st h' hd mu (u64 (sz - 1))) /\
    Zrep h' hd [] t' (lmost hd t') (rmost hd t') /\ elems t' = (before k ++ elems l) ++ elems r ++ after k /\
    (exists m, rbt t' m) /\ colorof t' = BLACK /\ same h h' (own hd k (T x c d l r)).
Proof.
  cbn zeta. intros HZ Hm Hb.
  assert (rb_erase_node x (st h hd mu sz) = erase_at x (first_or hd (elems r ++ after k)) (st h hd mu sz)) as ->.
  { unfold rb_erase_node. by erewrite bind_done by (eapply node_next_spec; exact HZ). }
  destruct r as [|p' c' d' rl rr] eqn:Er.
  { apply (erase_one _ _ _ _ _ DL _ _ _ l m); done. }
  destruct l as [|q' cq dq ll lr] eqn:El.
  { apply (erase_one _ _ _ _ _ DR _ _ _ (T p' c' d' rl rr) m); done. }
  rewrite <- Er, <- El in *. destruct (first_node r) as (kr & y & cy & dy & yr & -> & Hkr); [by rewrite Er|].
  assert (first_or hd (elems (plug kr (T y cy dy E yr)) ++ after k) = y) as ->.
  { rewrite elems_plug. cbn. assert (before kr = []) as ->; [|done].
    clear -Hkr. induction Hkr as [|f kr Hf _ IH]; [done|]. cbn. by rewrite IH, Hf. }
  apply (erase_two h hd mu sz k x c d l kr y cy dy yr m); try done. by rewrite El.
Qed.
End Remove.

(** *** On views *)

Section Views.
Context {D : Type} (comp : D -> D -> bool) `{!StrictWeakOrder comp}.
Implicit Types (s : rb_tree D).

Lemma u64_pred n : u64 (u64 (Z.of_nat (S n)) - 1) = u64 (Z.of_nat n).
Proof. unfold u64. rewrite Zminus_mod_idemp_l. f_equal. lia. Qed.

Lemma rb_erase_view s l1 e l2 : rb_view comp s (l1 ++ e :: l2) ->
  exists s', rb_erase e.1 s = Done (first_or (t_head s) l2, s') /\ rb_view comp s' (l1 ++ l2) /\
    t_head s' = t_head s /\ t_multi s' = t_multi s /\ same (t_nodes s) (t_nodes s') (t_head s :: (l1 ++ e :: l2).*1).
Proof.
  destruct s as [h hd mu sz]. intros (t & [HZ Hsz] & [[m Hm] Hb Hs] & Hel). cbn [t_nodes t_head t_multi t_size] in *.
  destruct (locate t l1 e l2 Hel) as (k & c & l & r & Ht & <- & <-). destruct e as [x d]. cbn [fst snd] in *.
  subst t. rewrite <- Zrep_plug in HZ.
  destruct (rb_erase_node_spec h hd mu sz k x c d l r m HZ Hm Hb) as (h' & t' & E & Z' & He & Hr & Hc & S').
  exists (st h' hd mu (u64 (sz - 1))). cbn [t_nodes t_head t_multi st]. split_and!; try done.
  - exists t'. split; [|split; [|done]].
    + split; [done|]. cbn. rewrite Hsz, He, Hel, length_app. cbn [length]. rewrite Nat.add_succ_r, <- length_app. apply u64_pred.
    + split; [done..|]. rewrite He. rewrite Hel in Hs. apply sorted_app in Hs as (H1 & H2 & H3). cbn in H2. apply sorted_app.
      split_and!; [done|apply H2|]. eapply Forall_impl; [exact H3|]. intros e' He'. by apply Forall_cons in He' as [_ ?].
  - eapply same_perm; [|exact S']. unfold own. by rewrite <- Hel, fst_elems.
Qed.

(** Emptying the tree: the nodes are erased from the left. *)
Lemma clear_free_view l : forall fuel s acc, rb_view comp s l -> (length l < fuel)%nat ->
  exists s', clear_free_loop fuel (first_or (t_head s) l) (t_head s) acc s = Done (acc ++ l.*1, s') /\
    rb_view comp s' [] /\ t_head s' = t_head s /\ t_multi s' = t_multi s /\ same (t_nodes s) (t_nodes s') (t_head s :: l.*1).
Proof.
  induction l as [|e l IH]; intros fuel s acc HV Hf; (destruct fuel as [|fuel]; [cbn in Hf; lia|]); cbn [clear_free_loop first_or].
  - rewrite Z.eqb_refl. exists s. rewrite app_nil_r. by split_and!.
  - destruct (view_listed comp s (e :: l) HV) as [Hnd _]. rewrite (proj2 (Z.eqb_neq _ _)).
    2:{ intros E. apply list.NoDup_cons in Hnd as [Hn _]. apply Hn. rewrite <- E. by left. }
    destruct (rb_iteration_refines comp s [] e l HV) as (Hnext & _).
    rewrite (bind_done _ _ _ _ _ Hnext). destruct (rb_erase_view s [] e l HV) as (s1 & E1 & V1 & Eh & Em & S1).
    rewrite (bind_done _ _ _ _ _ E1). rewrite <- Eh. destruct (IH fuel s1 (acc ++ [e.1]) V1) as (s' & E2 & V2 & Eh2 & Em2 & S2); [cbn in Hf; lia|].
    exists s'. rewrite E2. cbn [fmap list_fmap]. rewrite <- app_assoc. split_and!; try done; try congruence.
    destruct S1 as [D1 Q1], S2 as [D2 Q2]. split; [congruence|]. intros q Hq. rewrite Q2, Q1; [done|set_solver|]. rewrite Eh. set_solver.
Qed.

(** C3. [rb_erase] of any node of a well-formed tree refines removal from
    the sorted listing: it returns the next node (the head after the last),
    the node is gone and every other is still there in its place, the tree is
    again a well-formed red-black tree with its size, parent pointers and
    leftmost and rightmost fields, no bad pointer is followed, the loop of the
    rebalancing ends, and only nodes of the tree are touched. *)
Theorem rb_erase_refines s l1 e l2 : rb_view comp s (l1 ++ e :: l2) ->
  exists s', rb_erase e.1 s = Done (first_or (t_head s) l2, s') /\ rb_view comp s' (l1 ++ l2) /\
    t_head s' = t_head s /\ t_multi s' = t_multi s /\ same (t_nodes s) (t_nodes s') (t_head s :: (l1 ++ e :: l2).*1).
Proof. apply rb_erase_view. Qed.

(** [rb_clear_free] hands every node of the tree to the callback exactly
    once, in order, and leaves an empty tree. *)
Theorem rb_clear_free_empties s l : rb_view comp s l -> Z.of_nat (length l) < 2 ^ 64 ->
  exists s', rb_clear_free s = Done (l.*1, s') /\ rb_view comp s' [] /\ t_head s' = t_head s /\
    same (t_nodes s) (t_nodes s') (t_head s :: l.*1).
Proof.
  intros HV Hlen. pose proof HV as (t & [HZ Hsz] & _ & Hel). rewrite Hel in Hsz. unfold u64 in Hsz. rewrite Z.mod_small in Hsz by lia.
  unfold rb_clear_free. rewrite bind_gets. destruct l as [|e l].
  { rewrite Hsz. exists s. by split_and!. }
  rewrite (proj2 (Z.eqb_neq _ _)) by (rewrite Hsz; cbn [length]; lia).
  destruct (rb_iteration_refines comp s [] e l HV) as (_ & _ & Hl & _). cbn [app] in Hl. rewrite (bind_done _ _ _ _ _ Hl).
  unfold rb_head. rewrite bind_gets. unfold loop_fuel. rewrite bind_gets.
  destruct (clear_free_view (e :: l) (S (S (base.size (t_nodes s)))) s [] HV) as (s1 & E1 & V1 & Eh & Em & S1).
  { pose proof (Zrep_fuel _ _ _ _ _ _ HZ) as Hf. rewrite <- Hel. assert (length (elems t) = length (ptrs t)) as ->; [|lia].
    rewrite <- fst_elems. by rewrite length_fmap. }
  rewrite (bind_done _ _ _ _ _ E1). destruct s1 as [h1 hd1 mu1 sz1]. cbn [t_head t_multi t_nodes] in *. subst hd1.
  destruct V1 as (t1 & [Z1 _] & _ & He1). cbn [t_head t_nodes] in Z1.
  assert (t1 = E) as -> by (destruct t1; [done|]; cbn in He1; by destruct (elems t1_1)).
  pose proof (Zhead _ _ _ _ _ _ Z1) as Hh. cbn in Hh. change (mkTree h1 (t_head s) mu1 sz1) with (st h1 (t_head s) mu1 sz1).
  unfold rb_clear, head_init. run. unfold set_size. rewrite bind_modify. cbn. rewrite !insert_insert_eq.
  eexists. split; [reflexivity|]. split; [|split; [done|]].
  - exists E. split; [|split; [|done]].
    + split; [|done]. cbn. split; cbn; [by rewrite lookup_insert_eq|done|done|apply NoDup_singleton].
    + split; [exists 0%nat; constructor|done|done].
  - eapply same_insert; [exact S1|by left|exact Hh].
Qed.
End Views.

(** Erasing the root of the concrete tree of [RbTheorems], a node with two
    children, and emptying the tree. *)
Lemma rb_erase_refines_witness :
  exists s', rb_erase 20 demo_state = Done (30, s') /\ rb_view (fun a b => a <? b) s' [(10, 10); (30, 30)].
Proof.
  destruct (rb_erase_refines (fun a b => a <? b) demo_state [(10, 10)] (20, 20) [(30, 30)] demo_view) as (s' & E & V & _).
  exists s'. split; [exact E|exact V].
Defined.

Lemma rb_clear_free_empties_witness :
  exists s', rb_clear_free demo_state = Done ([10; 20; 30], s') /\ rb_view (fun a b => a <? b) s' [].
Proof.
  destruct (rb_clear_free_empties (fun a b => a <? b) demo_state _ demo_view ltac:(done)) as (s' & E & V & _).
  exists s'. split; [exact E|exact V].
Defined.
