(* ===== verification/RbShape.v ===== *)
(** * The red-black tree under keys that change

    When the keys of listed nodes are modified in place the listing need not
    be sorted any more.  The searches, the insertion and the erasure still
    end, follow good pointers and keep a red-black tree: [rb_shape] is
    [rb_view] without the order. *)
From S2P Require Import Prelude RbTree RbSpec RbInsert RbBalance RbSearch RbProofs RbTheorems RbErase RbRemove.

Section Shape.
Context {D : Type} (comp : D -> D -> bool) `{!StrictWeakOrder comp}.
Implicit Types (s : rb_tree D) (t : tree D) (l : list (Z * D)).

Definition rb_shape s l : Prop :=
  exists t m, rb_holds s t /\ rbt t m /\ colorof t = BLACK /\ elems t = l.

Lemma view_shape s l : rb_view comp s l -> rb_shape s l.
Proof. intros (t & H & [[m Hm] Hb _] & He). by exists t, m. Qed.

Lemma shape_listed s l : rb_shape s l -> NoDup (t_head s :: l.*1).
Proof.
  intros (t & m & [HZ _] & _ & _ & <-). pose proof (Znodup _ _ _ _ _ _ HZ) as Hnd.
  simpl in Hnd. rewrite app_nil_r in Hnd. by rewrite fst_elems.
Qed.

Lemma shape_data s l e : rb_shape s l -> e ∈ l -> exists n, t_nodes s !! e.1 = Some n /\ data n = Some e.2.
Proof. intros (t & m & [HZ _] & _ & _ & <-) He. by eapply (rep_data comp); [exact (Zfocus _ _ _ _ _ _ HZ)|]. Qed.

(** A node that is not of the tree may be added to the store or removed. *)
Lemma shape_frame s h' l : rb_shape s l -> (forall q, q ∈ t_head s :: l.*1 -> h' !! q = t_nodes s !! q) ->
  rb_shape (mkTree h' (t_head s) (t_multi s) (t_size s)) l.
Proof.
  intros (t & m & [HZ Hsz] & Hm & Hb & <-) Hq. exists t, m. split_and!; try done. split; [|done]. cbn.
  eapply Zrep_frame; [exact HZ|]. intros q. unfold own. cbn [plug]. intros Hin. apply Hq. by rewrite fst_elems.
Qed.

Lemma lbnd_loop_shape fuel h hd mu sz k t lm rm parent val nv v :
  Zrep h hd k t lm rm -> h !! val = Some nv -> data nv = Some v -> (length (ptrs t) < fuel)%nat ->
  exists r, lbnd_loop comp fuel parent (root_of hd t) val (st h hd mu sz) = Done (r, st h hd mu sz) /\ (r = parent \/ r ∈ ptrs t).
Proof.
  revert fuel k parent. induction t as [|p c dd l IHl r IHr]; intros fuel k parent HZ Hn Hd Hf;
    (destruct fuel as [|fuel]; [simpl in Hf; lia|]); cbn [lbnd_loop].
  - isnil HZ. exists parent. split; [done|by left].
  - isnil HZ. pose proof (Z_focus _ _ _ _ _ _ _ _ _ _ HZ) as Hp.
    erewrite (impl_comp_bind comp p val) by (try eassumption; reflexivity).
    simpl in Hf. rewrite length_app in Hf. destruct (comp dd v); reads.
    + rewrite Zrep_right in HZ. destruct (IHr fuel _ parent HZ Hn Hd ltac:(lia)) as (x & E & Hx).
      exists x. split; [exact E|]. destruct Hx as [->|Hx]; [by left|right; set_solver].
    + rewrite Zrep_left in HZ. destruct (IHl fuel _ p HZ Hn Hd ltac:(lia)) as (x & E & Hx).
      exists x. split; [exact E|]. right. destruct Hx as [->|Hx]; set_solver.
Qed.

Lemma rb_find_shape s l val nv v : rb_shape s l -> t_nodes s !! val = Some nv -> data nv = Some v ->
  exists r, rb_find comp val s = Done (r, s) /\ (r = t_head s \/ exists d, (r, d) ∈ l).
Proof.
  destruct s as [h hd mu sz]. intros (t & m & [HZ Hsz] & _ & _ & <-) Hn Hd. cbn [t_nodes t_head t_size] in *.
  change (mkTree h hd mu sz) with (st h hd mu sz). unfold rb_find, rb_lbnd, impl_lbnd.
  pose proof (Zhead _ _ _ _ _ _ HZ) as Hh. cbn in Hh. rewrite bind_assoc, head_bind, bind_assoc.
  erewrite rd_bind by lk. cbn [_parent hnode]. rewrite bind_assoc.
  edestruct (@view_search D h hd mu sz t Z) as (fuel & Hf & ->); [exact HZ|].
  destruct (lbnd_loop_shape fuel h hd mu sz [] t _ _ hd val nv v HZ Hn Hd Hf) as (r & E & Hr).
  rewrite (bind_done _ _ _ _ _ E). rewrite head_bind. destruct (Z.eqb_spec r hd) as [->|Hne]; [exists hd; split; [done|by left]|].
  destruct Hr as [->|Hr]; [done|]. rewrite <- fst_elems in Hr. apply list_elem_of_fmap in Hr as ([r' d] & -> & Hin).
  destruct (rep_data comp hd h _ t _ (Zfocus _ _ _ _ _ _ HZ) Hin) as (ne & Hne' & Hde). cbn [fst snd] in *.
  erewrite (impl_comp_bind comp val r') by eassumption. destruct (comp v d).
  - exists hd. split; [done|by left].
  - exists r'. split; [done|]. right. by exists d.
Qed.

(** [rb_insert_node] after [node_init], without the order. *)
Lemma insert_node_shape h hd sz t m node d :
  Zrep h hd [] t (lmost hd t) (rmost hd t) -> rbt t m -> colorof t = BLACK -> node ∉ hd :: ptrs t ->
  h !! node = Some (mkNode hd hd hd RED false (Some d)) ->
  (exists e, rb_insert_node comp node false (st h hd false sz) = Done ((e, 0), st h hd false sz)) \/
  exists h' t' m' a b, rb_insert_node comp node false (st h hd false sz) = Done ((node, 1), st h' hd false (u64 (sz + 1))) /\
    Zrep h' hd [] t' (lmost hd t') (rmost hd t') /\ elems t = a ++ b /\ elems t' = a ++ (node, d) :: b /\
    rbt t' m' /\ colorof t' = BLACK /\ same h h' (node :: hd :: ptrs t).
Proof.
  intros HZ Hm Hb Hfresh Hn. set (k := ins_path comp d t []).
  assert (plug k E = t) as Hplug by apply (plug_ins_path comp d t []).
  assert (Zrep h hd k E (lmost hd t) (rmost hd t)) as HZk by (apply Zrep_plug; by rewrite Hplug).
  destruct (rbk_path comp t d m Hm Hb) as (n & Hk & HE). fold k in Hk.
  assert (own hd k E = hd :: ptrs t) as Hown by (unfold own; by rewrite Hplug).
  pose proof (Znodup _ _ _ _ _ _ HZk) as Hnd. simpl in Hnd.
  assert (NoDup (hd :: node :: ptrsk k)) as Hnd'.
  { rewrite <- Hown, own_unfold in Hfresh. simpl in Hfresh. rewrite !list.NoDup_cons in *. set_solver. }
  assert (k = [] -> lmost hd t = hd) as Hlm0 by (intros Hk0; rewrite <- Hplug, Hk0; done).
  pose proof (Zhead _ _ _ _ _ _ HZ) as Hh. simpl in Hh.
  edestruct (impl_node_insert_spec comp h hd false sz k n _ _ node hd d HZk Hk HE) as
    (h' & t' & m' & Hrun & HZ' & Hel & Hm' & Hb' & HS); [by rewrite Hown|done|done|]. rewrite Hown in HS.
  assert (Zrep h' hd [] t' (lmost hd t') (rmost hd t')) as HZt.
  { rewrite <- Hplug in HZ'. erewrite (new_lm_spec comp), (new_rm_spec comp) in HZ' by eauto. exact HZ'. }
  assert (exists h' t' m' a b, impl_node_insert node (par hd k) (side k) (st h hd false sz) = Done (node, st h' hd false (u64 (sz + 1))) /\
    Zrep h' hd [] t' (lmost hd t') (rmost hd t') /\ elems t = a ++ b /\ elems t' = a ++ (node, d) :: b /\
    rbt t' m' /\ colorof t' = BLACK /\ same h h' (node :: hd :: ptrs t)) as (h2 & t2 & m2 & a & b & E2 & Hrest).
  { exists h', t', m', (before k), (after k). split_and!; try done. by rewrite <- Hplug, elems_plug. }
  unfold rb_insert_node. reads. edestruct (@Zrep_loop_fuel D) with (mu := false) (sz := sz) as (fuel & Hf & Hfuel); [exact HZ|].
  rewrite Hfuel. clear Hfuel.
  pose proof (insert_descend_spec comp fuel h hd false sz [] t _ _ node _ d HZ Hn eq_refl ltac:(lia)) as Hdesc.
  simpl in Hdesc. fold k in Hdesc. erewrite bind_done by exact Hdesc. simpl. rewrite bind_gets. simpl. reads.
  destruct (side k && (par hd k =? lmost hd t)) eqn:Hleft.
  - apply andb_true_iff in Hleft as [Hside Hl]. rewrite Hside in E2. right. exists h2, t2, m2, a, b.
    split; [|exact Hrest]. by erewrite bind_done by exact E2.
  - assert (k <> []) as Hkne by (intros Hk0; rewrite Hk0, Hlm0 in Hleft by done; simpl in Hleft; by rewrite Z.eqb_refl in Hleft).
    assert (before k <> []) as Hbne.
    { intros Hb0. destruct (side k) eqn:Hside.
      - rewrite <- Hplug in Hleft. by rewrite (proj2 (side_leftmost comp hd k Hnd Hside) Hb0) in Hleft.
      - destruct k as [|[[] ? ? ? ?] k0]; simpl in *; try done. by apply app_eq_nil in Hb0 as [_ [_ ?]%app_eq_nil]. }
    erewrite bind_done by (apply (pos_prev _ _ _ _ _ _ _ HZk Hkne)).
    destruct (last (before k)) as [e|] eqn:Hlast; [|by apply last_None in Hlast].
    destruct (rep_data comp hd h _ t e (Zfocus _ _ _ _ _ _ HZ)) as (ne & Hne & Hde).
    { apply last_Some in Hlast as (l' & Hl'). rewrite <- Hplug, elems_plug, Hl'. set_solver. }
    erewrite impl_comp_bind by (try eassumption; reflexivity). destruct (comp e.2 d); [|left; by exists e.1].
    right. exists h2, t2, m2, a, b. split; [|exact Hrest]. by erewrite bind_done by exact E2.
Qed.

Lemma rb_insert_shape s l node n0 d :
  rb_shape s l -> t_multi s = false -> node ∉ t_head s :: l.*1 -> t_nodes s !! node = Some n0 -> data n0 = Some d ->
  exists r s' l', rb_insert comp node s = Done (r, s') /\ rb_shape s' l' /\ t_head s' = t_head s /\ t_multi s' = false /\
    dom (t_nodes s') = dom (t_nodes s).
Proof.
  destruct s as [h hd mu sz]. cbn [t_nodes t_head t_multi]. intros (t & m & [HZ Hsz] & Hm & Hb & <-) -> Hfresh Hn Hd.
  cbn [t_nodes t_head t_size] in *. set (h1 := <[node := mkNode hd hd hd RED false (Some d)]> h).
  assert (node ∉ hd :: ptrs t) as Hfresh' by (by rewrite <- fst_elems).
  assert (Zrep h1 hd [] t (lmost hd t) (rmost hd t)) as HZ1.
  { eapply Zrep_frame; [exact HZ|]. intros q Hq. unfold own in Hq. cbn [plug] in Hq.
    unfold h1. rewrite lookup_insert_ne; [done|]. by intros ->. }
  assert (dom h1 = dom h) as Hdom by (unfold h1; rewrite dom_insert_L; apply elem_of_dom_2 in Hn; set_solver).
  unfold rb_insert. change (mkTree h hd false sz) with (st h hd false sz).
  rewrite head_bind. erewrite bind_done by (eapply node_init_spec; eassumption). fold h1.
  destruct (insert_node_shape h1 hd sz t m node d HZ1 Hm Hb Hfresh' (lookup_insert_eq _ _ _)) as
    [(e & E)|(h' & t' & m' & a & b & E & HZ' & Ha & He & Hm' & Hb' & [HS _])].
  - exists (e, 0), (st h1 hd false sz), (elems t). split; [exact E|]. split; [|done]. by exists t, m.
  - exists (node, 1), (st h' hd false (u64 (sz + 1))), (elems t'). split; [exact E|]. split; [|split_and!; [done|done|]].
    + exists t', m'. split_and!; try done. split; [done|]. cbn. rewrite Hsz, Ha, He, !length_app. cbn [length].
      unfold u64. rewrite Zplus_mod_idemp_l. f_equal. lia.
    + cbn. by rewrite HS, Hdom.
Qed.

(** The key of a listed node changes in place. *)
Lemma rep_set_data hd h parent t e n d' : rep hd h parent t -> NoDup (ptrs t) -> e ∈ elems t -> h !! e.1 = Some n ->
  let h' := <[e.1 := mkNode (_parent n) (_left n) (_right n) (_color n) (_isnil n) (Some d')]> h in
  exists t', rep hd h' parent t' /\ ptrs t' = ptrs t /\ colorof t' = colorof t /\ root_of hd t' = root_of hd t /\
    (elems t').*1 = (elems t).*1 /\ (forall m, rbt t m -> rbt t' m).
Proof.
  intros Hrep Hnd Hin Hn h'. revert parent Hrep Hnd Hin. induction t as [|p c dd l IHl r IHr]; intros parent Hrep Hnd Hin;
    [by apply elem_of_nil in Hin|]. cbn [rep ptrs] in *. destruct Hrep as (Hp & Hl & Hr).
  apply list.NoDup_cons in Hnd as [Hpn Hnd]. apply list.NoDup_app in Hnd as (Hnl & Hdis & Hnr).
  assert (forall t, e.1 ∈ ptrs t -> forall u, (forall q, q ∈ ptrs t -> q ∉ ptrs u) -> forall par, rep hd h par u -> rep hd h' par u) as Hfr.
  { intros t0 Ht0 u Hu par Hru. eapply rep_frame; [exact Hru|]. intros q Hq. apply lookup_insert_ne. intros <-. by eapply Hu. }
  assert (forall t, e ∈ elems t -> e.1 ∈ ptrs t) as Hmem by (intros t0 H0; rewrite <- fst_elems; by apply list_elem_of_fmap_2).
  cbn [elems] in Hin. apply elem_of_app in Hin as [Hin|Hin]; [|apply elem_of_cons in Hin as [->|Hin]].
  - destruct (IHl p Hl Hnl Hin) as (l' & Rl & Pl & Cl & Ol & El & Bl). exists (T p c dd l' r). cbn [rep ptrs colorof root_of elems].
    rewrite Pl, Ol. split_and!; try done.
    + rewrite <- Hp. apply lookup_insert_ne. intros <-. apply Hpn. rewrite elem_of_app. left. by apply Hmem.
    + apply (Hfr l); [by apply Hmem|done|done].
    + by rewrite !fmap_app, El.
    + intros m Hm. inversion Hm; subst; constructor; rewrite ?Cl; auto.
  - cbn [fst] in *. exists (T p c d' l r). cbn [rep ptrs colorof root_of elems]. rewrite Hp in Hn. injection Hn as <-. cbn in *.
    split_and!; try done.
    + unfold h'. by rewrite lookup_insert_eq.
    + eapply rep_frame; [exact Hl|]. intros q Hq. apply lookup_insert_ne. intros <-. apply Hpn. set_solver.
    + eapply rep_frame; [exact Hr|]. intros q Hq. apply lookup_insert_ne. intros <-. apply Hpn. set_solver.
    + by rewrite !fmap_app.
    + intros m Hm. inversion Hm; subst; by constructor.
  - destruct (IHr p Hr Hnr Hin) as (r' & Rr & Pr & Cr & Or & Er & Br). exists (T p c dd l r'). cbn [rep ptrs colorof root_of elems].
    rewrite Pr, Or. split_and!; try done.
    + rewrite <- Hp. apply lookup_insert_ne. intros <-. apply Hpn. rewrite elem_of_app. right. by apply Hmem.
    + apply (Hfr r); [by apply Hmem| |done]. intros q Hq Hql. by eapply Hdis.
    + by rewrite !fmap_app, !fmap_cons, Er.
    + intros m Hm. inversion Hm; subst; constructor; rewrite ?Cr; auto.
Qed.

Lemma set_data_shape s l e n d' : rb_shape s l -> e ∈ l -> t_nodes s !! e.1 = Some n ->
  exists l', l'.*1 = l.*1 /\
    rb_shape (mkTree (<[e.1 := mkNode (_parent n) (_left n) (_right n) (_color n) (_isnil n) (Some d')]> (t_nodes s))
                (t_head s) (t_multi s) (t_size s)) l'.
Proof.
  intros Hsh Hin Hn. pose proof (shape_listed _ _ Hsh) as Hnd. apply list.NoDup_cons in Hnd as [Hhd Hnd].
  destruct Hsh as (t & m & [[Hh Hf Hc Hndt] Hsz] & Hm & Hb & <-). cbn [rootk par repc ptrsk] in *.
  assert (NoDup (ptrs t)) as Hndp by (by rewrite <- fst_elems).
  destruct (rep_set_data (t_head s) _ _ t e n d' Hf Hndp Hin Hn) as (t' & Hf' & Hp & Hcol & Hr & He & Hbal).
  assert (lmost (t_head s) t' = lmost (t_head s) t /\ rmost (t_head s) t' = rmost (t_head s) t) as [El Er].
  { unfold lmost, rmost. split.
    - destruct (elems t) as [|x l], (elems t') as [|x' l']; cbn in He; try done. by injection He.
    - assert (last (elems t').*1 = last (elems t).*1) as E by (by rewrite He). rewrite !fmap_last in E.
      destruct (last (elems t)), (last (elems t')); cbn in E; congruence. }
  exists (elems t'). split; [done|]. exists t', m. split_and!; [|by apply Hbal|by rewrite Hcol|done].
  split; cbn [t_nodes t_head t_size].
  - split; cbn [rootk par repc ptrsk].
    + rewrite lookup_insert_ne. { by rewrite El, Er, Hr. }
      intros E. apply Hhd. rewrite <- E. by apply list_elem_of_fmap_2.
    + exact Hf'.
    + done.
    + by rewrite Hp.
  - rewrite Hsz. f_equal. f_equal. apply (f_equal length) in He. by rewrite !length_fmap in He.
Qed.

End Shape.
