(* ===== verification/Memory.v ===== *)
(** * Byte-addressed memory

    The memory the kernel's pointer code works on: a finite map from addresses
    to bytes.  An access outside the domain is [Fault].  Words are little
    endian, as on RV64.  The second half relates the memory to lists of bytes
    and to C strings. *)
From S2P Require Import Prelude.

Abbreviation mem := (gmap Z Z).

(** [get_le n m p] is the [n]-byte little-endian word at [p]. *)
Fixpoint get_le (n : nat) (m : mem) (p : Z) : option Z :=
  match n with
  | O => Some 0
  | S n => match m !! p, get_le n m (p + 1) with
           | Some b, Some v => Some (b + 256 * v)
           | _, _ => None
           end
  end.

Fixpoint put_le (n : nat) (p v : Z) (m : mem) : mem :=
  match n with
  | O => m
  | S n => put_le n (p + 1) (v / 256) (<[p := v mod 256]> m)
  end.

(** Loads and stores of [n] bytes. *)
Definition ld (n : nat) (p : Z) : M mem Z := fun m =>
  match get_le n m p with Some v => Done (v, m) | None => Fault end.
Definition sto (n : nat) (p v : Z) : M mem unit := fun m =>
  match get_le n m p with Some _ => Done (tt, put_le n p v m) | None => Fault end.

Definition ld8 (p : Z) : M mem Z := ld 1 p.
Definition st8 (p v : Z) : M mem unit := sto 1 p v.
Definition ld64 (p : Z) : M mem Z := ld 8 p.
Definition st64 (p v : Z) : M mem unit := sto 8 p v.

(** A memory whose cells are bytes. *)
Definition wf_mem (m : mem) : Prop := map_Forall (fun _ b => 0 <= b < 256) m.

(** [bytes_at m a l]: the bytes [l] lie at [a]. *)
Definition bytes_at (m : mem) (a : Z) (l : list Z) : Prop :=
  forall i x, l !! i = Some x -> m !! (a + Z.of_nat i) = Some x.

Fixpoint put_bytes (a : Z) (l : list Z) (m : mem) : mem :=
  match l with
  | [] => m
  | x :: l => put_bytes (a + 1) l (<[a := x]> m)
  end.

(** [owned m a n]: the [n] bytes from [a] are memory. *)
Definition owned (m : mem) (a n : Z) : Prop :=
  forall i, 0 <= i < n -> is_Some (m !! (a + i)).

(** [str_at m a s]: the NUL-terminated string [s] lies at [a]. *)
Definition str_at (m : mem) (a : Z) (s : list Z) : Prop :=
  bytes_at m a (s ++ [0]) /\ Forall (fun c => 0 < c < 256) s.

(** ** Words *)

Lemma put_le_lookup_out n p v m q :
  q < p \/ p + Z.of_nat n <= q -> put_le n p v m !! q = m !! q.
Proof.
  revert p v m. induction n as [|n IH]; intros p v m H; simpl; [done|].
  rewrite IH by lia. rewrite lookup_insert_ne by lia. done.
Qed.

Lemma get_le_ext n m m' p :
  (forall q, p <= q < p + Z.of_nat n -> m !! q = m' !! q) -> get_le n m p = get_le n m' p.
Proof.
  revert p. induction n as [|n IH]; intros p H; simpl; [done|].
  rewrite (H p) by lia. rewrite (IH (p + 1)); [done|]. intros q Hq. apply H. lia.
Qed.

Lemma get_put_same n p v m : get_le n (put_le n p v m) p = Some (v mod 256 ^ Z.of_nat n).
Proof.
  revert p v m. induction n as [|n IH]; intros p v m; cbn [get_le put_le].
  { by rewrite Z.mod_1_r. }
  rewrite put_le_lookup_out by lia. rewrite lookup_insert_eq, IH. f_equal.
  rewrite Nat2Z.inj_succ, Z.pow_succ_r by lia.
  rewrite Z.rem_mul_r by lia. done.
Qed.

Lemma get_put_other n k p q v m :
  p + Z.of_nat n <= q \/ q + Z.of_nat k <= p ->
  get_le n (put_le k q v m) p = get_le n m p.
Proof. intros H. apply get_le_ext. intros r Hr. apply put_le_lookup_out. lia. Qed.

Lemma put_le_dom n p v m q :
  is_Some (get_le n m p) -> is_Some (put_le n p v m !! q) <-> is_Some (m !! q).
Proof.
  revert p v m. induction n as [|n IH]; intros p v m; cbn [get_le put_le]; [done|].
  destruct (m !! p) as [b|] eqn:Hb; [|by intros []].
  destruct (get_le n m (p + 1)) as [w|] eqn:Hw; [|by intros []]. intros _.
  rewrite IH.
  - destruct (decide (q = p)) as [->|]; [|by rewrite lookup_insert_ne].
    rewrite lookup_insert_eq, Hb. split; eauto.
  - erewrite get_le_ext; [rewrite Hw; eauto|]. intros r Hr. rewrite lookup_insert_ne by lia. done.
Qed.

Lemma get_le_owned n m p : is_Some (get_le n m p) <-> owned m p (Z.of_nat n).
Proof.
  revert p. induction n as [|n IH]; intros p; cbn [get_le].
  { split; [intros _ i Hi; lia|eauto]. }
  split.
  - intros H i Hi. destruct (m !! p) as [b|] eqn:Hb; [|by destruct H].
    destruct (get_le n m (p + 1)) as [w|] eqn:Hw; [|by destruct H].
    destruct (decide (i = 0)) as [->|]; [rewrite Z.add_0_r; eauto|].
    replace (p + i) with (p + 1 + (i - 1)) by lia. apply IH; [rewrite Hw; eauto|lia].
  - intros H. destruct (H 0) as [b Hb]; [lia|]. rewrite Z.add_0_r in Hb. rewrite Hb.
    destruct (proj2 (IH (p + 1))) as [w ->]; [|eauto].
    intros i Hi. replace (p + 1 + i) with (p + (i + 1)) by lia. apply H. lia.
Qed.

Lemma put_le_wf n p v m : wf_mem m -> wf_mem (put_le n p v m).
Proof.
  revert p v m. induction n as [|n IH]; intros p v m H; cbn [put_le]; [done|].
  apply IH. apply map_Forall_insert_2; [|done]. apply Z.mod_pos_bound. lia.
Qed.

Lemma get_le_range n m p v :
  wf_mem m -> get_le n m p = Some v -> 0 <= v < 256 ^ Z.of_nat n.
Proof.
  intros Hw. revert p v. induction n as [|n IH]; intros p v; cbn [get_le].
  { intros [= <-]. rewrite Z.pow_0_r. lia. }
  destruct (m !! p) as [b|] eqn:Hb; [|done]. destruct (get_le n m (p + 1)) as [w|] eqn:Hv; [|done].
  intros [= <-]. apply IH in Hv. apply Hw in Hb.
  rewrite Nat2Z.inj_succ, Z.pow_succ_r by lia. lia.
Qed.

(** ** Lists of bytes *)

Lemma bytes_at_cons m a x l :
  bytes_at m a (x :: l) <-> m !! a = Some x /\ bytes_at m (a + 1) l.
Proof.
  split.
  - intros H. split; [specialize (H 0%nat x eq_refl); by rewrite Z.add_0_r in H|].
    intros i y Hi. replace (a + 1 + Z.of_nat i) with (a + Z.of_nat (S i)) by lia. by apply H.
  - intros [H1 H2] [|i] y Hi; simpl in Hi.
    + injection Hi as <-. by rewrite Z.add_0_r.
    + replace (a + Z.of_nat (S i)) with (a + 1 + Z.of_nat i) by lia. by apply H2.
Qed.

Lemma bytes_at_nil m a : bytes_at m a [].
Proof. by intros i x. Qed.

Lemma bytes_at_app m a l1 l2 :
  bytes_at m a (l1 ++ l2) <-> bytes_at m a l1 /\ bytes_at m (a + Z.of_nat (length l1)) l2.
Proof.
  revert a. induction l1 as [|x l1 IH]; intros a; simpl.
  { rewrite Z.add_0_r. split; [|tauto]. split; [apply bytes_at_nil|done]. }
  rewrite !bytes_at_cons, IH.
  replace (a + Z.of_nat (S (length l1))) with (a + 1 + Z.of_nat (length l1)) by lia. tauto.
Qed.

Lemma bytes_at_frame m m' a l :
  bytes_at m a l ->
  (forall q, a <= q < a + Z.of_nat (length l) -> m' !! q = m !! q) -> bytes_at m' a l.
Proof.
  intros H Hq i x Hi. rewrite Hq; [by apply H|]. apply lookup_lt_Some in Hi. lia.
Qed.

Lemma bytes_at_owned m a l : bytes_at m a l -> owned m a (Z.of_nat (length l)).
Proof.
  intros H i Hi. destruct (lookup_lt_is_Some_2 l (Z.to_nat i)) as [x Hx]; [lia|].
  exists x. specialize (H _ _ Hx). by rewrite Z2Nat.id in H by lia.
Qed.

Lemma put_bytes_out a l m q :
  q < a \/ a + Z.of_nat (length l) <= q -> put_bytes a l m !! q = m !! q.
Proof.
  revert a m. induction l as [|x l IH]; intros a m H; simpl in *; [done|].
  rewrite IH by lia. rewrite lookup_insert_ne by lia. done.
Qed.

Lemma put_bytes_at a l m : bytes_at (put_bytes a l m) a l.
Proof.
  revert a m. induction l as [|x l IH]; intros a m; simpl; [apply bytes_at_nil|].
  apply bytes_at_cons. split; [|apply IH].
  rewrite put_bytes_out by lia. apply lookup_insert_eq.
Qed.

Lemma put_bytes_app a l1 l2 m :
  put_bytes a (l1 ++ l2) m = put_bytes (a + Z.of_nat (length l1)) l2 (put_bytes a l1 m).
Proof.
  revert a m. induction l1 as [|x l1 IH]; intros a m; simpl; [by rewrite Z.add_0_r|].
  rewrite IH. f_equal. lia.
Qed.

(** A string that fits in a finite memory is no longer than the memory. *)
Lemma bytes_at_size m a l : bytes_at m a l -> (length l <= size m)%nat.
Proof.
  revert m a. induction l as [|x l IH]; intros m a H; simpl; [lia|].
  apply bytes_at_cons in H as [H1 H2].
  assert (bytes_at (delete a m) (a + 1) l) as H3.
  { eapply bytes_at_frame; [exact H2|]. intros q Hq. apply lookup_delete_ne. lia. }
  apply IH in H3. rewrite map_size_delete_Some in H3 by eauto.
  assert (size m <> 0%nat) by (intros E%map_size_empty_inv; by rewrite E in H1). lia.
Qed.

Lemma str_at_cons m a c s :
  0 < c < 256 -> str_at m a (c :: s) <-> m !! a = Some c /\ str_at m (a + 1) s.
Proof.
  intros Hc. unfold str_at. simpl. rewrite bytes_at_cons, Forall_cons. tauto.
Qed.

Lemma str_at_inv m a s :
  str_at m a s ->
  match s with
  | [] => m !! a = Some 0
  | c :: s => m !! a = Some c /\ 0 < c < 256 /\ str_at m (a + 1) s
  end.
Proof.
  intros [H1 H2]. destruct s as [|c s]; simpl in H1; apply bytes_at_cons in H1 as [H1 H3]; [done|].
  apply Forall_cons in H2 as [H2 H4]. split; [done|]. split; [lia|]. by split.
Qed.

Lemma str_at_frame m m' a s :
  str_at m a s ->
  (forall q, a <= q <= a + Z.of_nat (length s) -> m' !! q = m !! q) -> str_at m' a s.
Proof.
  intros [H1 H2] Hq. split; [|done]. eapply bytes_at_frame; [exact H1|].
  intros q Hr. apply Hq. rewrite length_app in Hr. simpl in Hr. lia.
Qed.

(** Single bytes. *)
Lemma ld8_bind {B} (p b : Z) (m : mem) (K : Z -> M mem B) :
  m !! p = Some b -> bind (ld8 p) K m = K b m.
Proof. intros H. unfold bind, ld8, ld. cbn [get_le]. rewrite H. f_equal. lia. Qed.

Lemma ld8_done (p b : Z) (m : mem) : m !! p = Some b -> ld8 p m = Done (b, m).
Proof. intros H. unfold ld8, ld. cbn [get_le]. rewrite H. repeat f_equal. lia. Qed.

Lemma st8_done (p v : Z) (m : mem) :
  is_Some (m !! p) -> st8 p v m = Done (tt, <[p := v mod 256]> m).
Proof. intros [b H]. unfold st8, sto. cbn [get_le put_le]. by rewrite H. Qed.

Lemma st8_bind {B} (p v : Z) (m : mem) (K : unit -> M mem B) :
  is_Some (m !! p) -> bind (st8 p v) K m = K tt (<[p := v mod 256]> m).
Proof. intros H. by rewrite (bind_done _ _ _ _ _ (st8_done p v m H)). Qed.

Lemma ld64_bind {B} (p v : Z) (m : mem) (K : Z -> M mem B) :
  get_le 8 m p = Some v -> bind (ld64 p) K m = K v m.
Proof. intros H. unfold bind, ld64, ld. by rewrite H. Qed.

Lemma st64_bind {B} (p v : Z) (m : mem) (K : unit -> M mem B) :
  is_Some (get_le 8 m p) -> bind (st64 p v) K m = K tt (put_le 8 p v m).
Proof. intros [b H]. unfold bind, st64, sto. by rewrite H. Qed.

Lemma owned_insert m a n p v : owned m a n -> owned (<[p := v]> m) a n.
Proof.
  intros H i Hi. destruct (decide (a + i = p)) as [->|]; [rewrite lookup_insert_eq; eauto|].
  rewrite lookup_insert_ne by done. by apply H.
Qed.

Lemma owned_cons m a n : 0 < n -> owned m a n -> is_Some (m !! a) /\ owned m (a + 1) (n - 1).
Proof.
  intros Hn H. split.
  - specialize (H 0). rewrite Z.add_0_r in H. apply H. lia.
  - intros i Hi. replace (a + 1 + i) with (a + (i + 1)) by lia. apply H. lia.
Qed.

Lemma wf_put_bytes a l m :
  Forall (fun c => 0 <= c < 256) l -> wf_mem m -> wf_mem (put_bytes a l m).
Proof.
  intros Hl. revert a m. induction Hl as [|c l Hc Hl IH]; intros a m Hm; simpl; [done|].
  apply IH. by apply map_Forall_insert_2.
Qed.

Lemma wf_mem_empty : wf_mem ∅.
Proof. apply map_Forall_empty. Qed.
