(* ===== verification/Klib.v ===== *)
(** * The kernel's C library: klib.c

    Strings, memory blocks, number formatting and the random generator.  Every
    routine works on the byte memory of [Memory]; a [char] is an unsigned byte
    (RV64).  Loops that follow a string run on fuel [S (size m)], which no
    string of the memory exceeds.  The local array [buf] of [itoa] is a list
    with its top first. *)
From S2P Require Import Prelude Memory.

Definition str_fuel : M mem nat := gets (fun m => S (size m)).

(** ** Strings *)

Fixpoint strlen_loop (fuel : nat) (p len : Z) : M mem Z :=
  match fuel with
  | O => nofuel
  | S fuel => c <- ld8 p;;
              if c =? 0 then ret len else strlen_loop fuel (p + 1) (u64 (len + 1))
  end.
Definition strlen (s : Z) : M mem Z := fuel <- str_fuel;; strlen_loop fuel s 0.

Fixpoint strcpy_loop (fuel : nat) (dst src : Z) : M mem Z :=
  match fuel with
  | O => nofuel
  | S fuel => c <- ld8 src;;
              if c =? 0 then ret dst
              else st8 dst c;;; strcpy_loop fuel (dst + 1) (src + 1)
  end.
Definition strcpy (dst src : Z) : M mem Z :=
  fuel <- str_fuel;;
  p <- strcpy_loop fuel dst src;;
  st8 p 0;;; ret dst.

Fixpoint strncpy_loop (fuel : nat) (p src i n : Z) : M mem (Z * Z) :=
  match fuel with
  | O => nofuel
  | S fuel => c <- ld8 src;;
              if (c =? 0) || negb (i <? n) then ret (p, i)
              else st8 p c;;; strncpy_loop fuel (p + 1) (src + 1) (i + 1) n
  end.
Definition strncpy (dst src n : Z) : M mem Z :=
  fuel <- str_fuel;;
  '(p, i) <- strncpy_loop fuel dst src 0 n;;
  (if i =? n then st8 (dst + (n - 1)) 0 else st8 p 0);;; ret dst.

Fixpoint str_end (fuel : nat) (p : Z) : M mem Z :=
  match fuel with
  | O => nofuel
  | S fuel => c <- ld8 p;; if c =? 0 then ret p else str_end fuel (p + 1)
  end.
Definition strcat (dst src : Z) : M mem Z :=
  fuel <- str_fuel;;
  e <- str_end fuel dst;;
  p <- strcpy_loop fuel e src;;
  st8 p 0;;; ret dst.

Fixpoint strcmp_loop (fuel : nat) (s1 s2 : Z) : M mem Z :=
  match fuel with
  | O => nofuel
  | S fuel =>
    c2 <- ld8 s2;; c1 <- ld8 s1;;
    if negb (c2 =? 0) && negb (c1 =? 0) && (c1 =? c2) then strcmp_loop fuel (s1 + 1) (s2 + 1)
    else if (c1 =? 0) && (c2 =? 0) then ret 0 else ret (c1 - c2)
  end.
Definition strcmp (s1 s2 : Z) : M mem Z := fuel <- str_fuel;; strcmp_loop fuel s1 s2.

(** [n-->0] is evaluated last: it only counts where the characters agree. *)
Fixpoint strncmp_loop (fuel : nat) (s1 s2 n : Z) : M mem Z :=
  match fuel with
  | O => nofuel
  | S fuel =>
    c2 <- ld8 s2;; c1 <- ld8 s1;;
    if negb (c2 =? 0) && negb (c1 =? 0) && (c1 =? c2) && (0 <? n)
    then strncmp_loop fuel (s1 + 1) (s2 + 1) (n - 1)
    else if (c1 =? 0) && (c2 =? 0) then ret 0 else ret (c1 - c2)
  end.
Definition strncmp (s1 s2 n : Z) : M mem Z :=
  fuel <- str_fuel;; strncmp_loop fuel s1 s2 n.

(** ** Blocks *)

Fixpoint memset_loop (k : nat) (p cc : Z) : M mem unit :=
  match k with
  | O => ret tt
  | S k => st8 p cc;;; memset_loop k (p + 1) cc
  end.
Definition memset (s c n : Z) : M mem Z :=
  memset_loop (Z.to_nat n) s (u8 (Z.rem c 256));;; ret s.

Fixpoint memcpy_loop (k : nat) (pout pin : Z) : M mem unit :=
  match k with
  | O => ret tt
  | S k => b <- ld8 pin;; st8 pout b;;; memcpy_loop k (pout + 1) (pin + 1)
  end.
Definition memcpy (out inp n : Z) : M mem Z :=
  memcpy_loop (Z.to_nat n) out inp;;; ret out.

(** The two copies of [memmove] through the static array [buf]. *)
Fixpoint to_buf (k : nat) (pin : Z) : M mem (list Z) :=
  match k with
  | O => ret []
  | S k => b <- ld8 pin;; r <- to_buf k (pin + 1);; ret (b :: r)
  end.
Fixpoint emit (a : Z) (l : list Z) : M mem Z :=
  match l with
  | [] => ret a
  | c :: l => st8 a c;;; emit (a + 1) l
  end.

Fixpoint memmove_loop (fuel : nat) (dst src n i : Z) : M mem unit :=
  match fuel with
  | O => nofuel
  | S fuel =>
    if n =? 0 then ret tt
    else
      let len := if 1024 <? n then 1024 else n in
      buf <- to_buf (Z.to_nat len) (src + i);;
      emit (dst + i) buf;;;
      memmove_loop fuel dst src (n - len) (i + len)
  end.
Definition memmove (dst src n : Z) : M mem Z :=
  memmove_loop (S (Z.to_nat n)) dst src n 0;;; ret dst.

(** ** Numbers *)

(** The digit loop: [buf] has the last digit written first. *)
Fixpoint itoa_digits (fuel : nat) (i : Z) (buf : list Z) : option (list Z) :=
  match fuel with
  | O => None
  | S fuel => if 0 <? i then itoa_digits fuel (i / 10) (i mod 10 + 48 :: buf) else Some buf
  end.

(** "-214748364", the literal of the [INT_MIN] branch. *)
Definition int_min_literal : list Z := [45; 50; 49; 52; 55; 52; 56; 51; 54; 52].

Definition itoa (a i : Z) : M mem Z :=
  e <- (if i =? 0 then emit a [48]
        else if 0 <? i then
          match itoa_digits 11 i [] with Some buf => emit a buf | None => nofuel end
        else
          let i := s32 (- i) in
          if i <? 0 then emit a int_min_literal
          else match itoa_digits 11 i [] with
               | Some buf => emit a (45 :: buf)
               | None => nofuel
               end);;
  st8 e 0;;; ret a.

Fixpoint skip_spaces (fuel : nat) (p : Z) : M mem Z :=
  match fuel with
  | O => nofuel
  | S fuel => c <- ld8 p;; if c =? 32 then skip_spaces fuel (p + 1) else ret p
  end.
Fixpoint atoi_loop (fuel : nat) (p x : Z) : M mem Z :=
  match fuel with
  | O => nofuel
  | S fuel => c <- ld8 p;;
              if (48 <=? c) && (c <=? 57) then atoi_loop fuel (p + 1) (s32 (x * 10 + c - 48))
              else ret x
  end.
Definition atoi (nptr : Z) : M mem Z :=
  fuel <- str_fuel;; p <- skip_spaces fuel nptr;; atoi_loop fuel p 0.

Definition abs (x : Z) : Z := if x <? 0 then s32 (- x) else x.

(** The state is the static [next]. *)
Definition rand : M Z Z :=
  modify (fun next => u64 (next * 1103515245 + 12345));;;
  next <- get;; ret (u32 (next / 65536) mod 32768).
Definition srand (seed : Z) : M Z unit := put (u32 seed).

(** ** Formatting

    [va_list] is the list of the arguments passed; reading past its end or
    at the wrong type is [Fault]. *)

Inductive va : Type :=
| VInt (i : Z)
| VStr (p : Z)
| VPtr (u : Z).

Fixpoint hex_digits (fuel : nat) (i : Z) (buf : list Z) : option (list Z) :=
  match fuel with
  | O => None
  | S fuel =>
    if 0 <? i then
      let n := i mod 16 in
      hex_digits fuel (i / 16) ((if n <? 10 then n + 48 else n + 97 - 10) :: buf)
    else Some buf
  end.

(** One round of the [for] of [vsprintf] and [vsnprintf] on the character [c]
    read at [p - 1]. *)
Definition fmt_step (c p pout : Z) (ap : list va) : M mem (Z * Z * list va) :=
  if c =? 37 then
    d <- ld8 p;;
    let p := p + 1 in
    if d =? 100 then
      match ap with
      | VInt i :: ap => itoa pout i;;; fuel <- str_fuel;; e <- str_end fuel pout;; ret (p, e, ap)
      | _ => fault
      end
    else if d =? 115 then
      match ap with
      | VStr q :: ap => strcpy pout q;;; fuel <- str_fuel;; e <- str_end fuel pout;; ret (p, e, ap)
      | _ => fault
      end
    else if d =? 112 then
      match ap with
      | VPtr u :: ap =>
        match hex_digits 17 u [] with
        | Some buf => e <- emit pout (48 :: 120 :: buf);; ret (p, e, ap)
        | None => nofuel
        end
      | _ => fault
      end
    else ret (p, pout, ap)
  else st8 pout c;;; ret (p, pout + 1, ap).

Fixpoint vsprintf_loop (fuel : nat) (p pout : Z) (ap : list va) : M mem Z :=
  match fuel with
  | O => nofuel
  | S fuel =>
    c <- ld8 p;;
    if c =? 0 then ret pout
    else '(p, pout, ap) <- fmt_step c (p + 1) pout ap;; vsprintf_loop fuel p pout ap
  end.
Definition vsprintf (out fmt : Z) (ap : list va) : M mem Z :=
  fuel <- str_fuel;;
  pout <- vsprintf_loop fuel fmt out ap;;
  st8 pout 0;;; ret 0.
Definition sprintf (out fmt : Z) (ap : list va) : M mem Z := vsprintf out fmt ap;;; ret 0.

(** [buf] is the address of the local array. *)
Fixpoint vsnprintf_loop (fuel : nat) (buf n p pout : Z) (ap : list va) : M mem unit :=
  match fuel with
  | O => nofuel
  | S fuel =>
    c <- ld8 p;;
    if (c =? 0) || negb (pout - buf <? n) then ret tt
    else '(p, pout, ap) <- fmt_step c (p + 1) pout ap;; vsnprintf_loop fuel buf n p pout ap
  end.
Definition vsnprintf (buf out n fmt : Z) (ap : list va) : M mem Z :=
  fuel <- str_fuel;;
  vsnprintf_loop fuel buf n fmt buf ap;;;
  strncpy out buf n;;; ret 0.
Definition snprintf (buf out n fmt : Z) (ap : list va) : M mem Z :=
  vsnprintf buf out n fmt ap;;; ret 0.

(** Not written yet, says klib.c. *)
Definition memcmp (s1 s2 n : Z) : M mem Z := panic "Not implemented".

(** Output goes to the serial port, whose [uart_putc] is a parameter. *)
Section Printf.
Context {W : Type}.
Variable uart_putc : Z -> M W unit.

Definition on_bytes {B} (f : M mem B) : M (mem * W) B := zoom fst (fun m s => (m, s.2)) f.
Definition on_port {B} (f : M W B) : M (mem * W) B := zoom snd (fun w s => (s.1, w)) f.

Fixpoint putstr (fuel : nat) (s : Z) : M (mem * W) unit :=
  match fuel with
  | O => nofuel
  | S fuel =>
    c <- on_bytes (ld8 s);;
    if c =? 0 then ret tt else on_port (uart_putc c);;; putstr fuel (s + 1)
  end.

(** [buf] is the address of the local array of 1024 bytes. *)
Definition printf (buf fmt : Z) (ap : list va) : M (mem * W) Z :=
  on_bytes (memset_loop 1024 buf 0);;;
  on_bytes (vsprintf buf fmt ap);;;
  fuel <- on_bytes str_fuel;; putstr fuel buf;;;
  ret 0.
End Printf.

(** ** What the routines promise *)

(** The difference of the first characters where two strings differ. *)
Fixpoint str_diff (s t : list Z) : Z :=
  match s, t with
  | [], [] => 0
  | [], d :: _ => - d
  | c :: _, [] => c
  | c :: s, d :: t => if c =? d then str_diff s t else c - d
  end.

Fixpoint lex_lt (s t : list Z) : bool :=
  match s, t with
  | _, [] => false
  | [], _ :: _ => true
  | c :: s, d :: t => (c <? d) || ((c =? d) && lex_lt s t)
  end.

(** The decimal representation of a natural number, and of an [int]. *)
Fixpoint dec (fuel : nat) (n : Z) : list Z :=
  match fuel with
  | O => []
  | S fuel => if n <? 10 then [n + 48] else dec fuel (n / 10) ++ [n mod 10 + 48]
  end.
Definition decimal (i : Z) : list Z :=
  if i <? 0 then 45 :: dec 10 (- i) else dec 10 i.

(** The value of a list of decimal digits. *)
Definition dec_value (l : list Z) : Z := fold_left (fun x c => x * 10 + (c - 48)) l 0.

(** A pointer: "0x" and its digits in base 16, the most significant first; the
    null pointer has none. *)
Definition hex_char (d : Z) : Z :=
  default 0 ([48; 49; 50; 51; 52; 53; 54; 55; 56; 57; 97; 98; 99; 100; 101; 102] !! Z.to_nat d).
Fixpoint hex (fuel : nat) (n : Z) : list Z :=
  match fuel with
  | O => []
  | S fuel => if n =? 0 then [] else hex fuel (n / 16) ++ [hex_char (n mod 16)]
  end.
Definition hexadecimal (u : Z) : list Z := 48 :: 120 :: hex 16 u.

(** What a format string means, given the arguments' values. *)
Inductive varg : Type :=
| AInt (i : Z)
| AStr (s : list Z)
| APtr (u : Z).

Fixpoint format (f : list Z) (args : list varg) : option (list Z) :=
  match f with
  | [] => Some []
  | c :: f =>
    if c =? 37 then
      match f with
      | [] => None
      | d :: f =>
        if d =? 100 then
          match args with AInt i :: args => app (decimal i) <$> format f args | _ => None end
        else if d =? 115 then
          match args with AStr s :: args => app s <$> format f args | _ => None end
        else if d =? 112 then
          match args with APtr u :: args => app (hexadecimal u) <$> format f args | _ => None end
        else format f args
      end
    else cons c <$> format f args
  end.

Definition arg_at (m : mem) (v : va) (a : varg) : Prop :=
  match v, a with
  | VInt i, AInt j => i = j /\ - 2 ^ 31 < i < 2 ^ 31
  | VStr p, AStr s => str_at m p s
  | VPtr u, APtr w => u = w /\ 0 <= u < 2 ^ 64
  | _, _ => False
  end.

(** The bytes from [a] to [a + n] do not meet the string argument [v]. *)
Definition arg_apart (a n : Z) (v : va) (x : varg) : Prop :=
  match v, x with
  | VStr p, AStr s => p + Z.of_nat (length s) < a \/ a + n < p
  | _, _ => True
  end.
