(* ===== verification/KlibProofs.v ===== *)
(** * Proofs about klib.c

    The string and block routines against lists of bytes, the number
    conversions against their decimal meaning, and [vsprintf] against
    [format]. *)
From S2P Require Import Prelude Memory Klib.

(** ** Reading and writing runs of bytes *)

Definition chars (l : list Z) : Prop := Forall (fun c => 0 <= c < 256) l.

Lemma chars_of_str s : Forall (fun c => 0 < c < 256) s -> chars s.
Proof. intros H. eapply Forall_impl; [exact H|]. simpl. lia. Qed.

Lemma str_chars m a s : str_at m a s -> chars (s ++ [0]).
Proof.
  intros [_ H]. apply Forall_app. split; [by apply chars_of_str|].
  constructor; [lia|constructor].
Qed.

Lemma str_fuel_bind {B} (K : nat -> M mem B) m : bind str_fuel K m = K (S (size m)) m.
Proof. reflexivity. Qed.

Lemma str_at_size m a s : str_at m a s -> (length s < size m)%nat.
Proof. intros [H _]. apply bytes_at_size in H. rewrite length_app in H. simpl in H. lia. Qed.

Lemma owned_put a l m b n : owned m b n -> owned (put_bytes a l m) b n.
Proof.
  revert a m. induction l as [|x l IH]; intros a m H; simpl; [done|].
  apply IH. by apply owned_insert.
Qed.

Lemma owned_le m a n k : owned m a n -> k <= n -> owned m a k.
Proof. intros H Hk i Hi. apply H. lia. Qed.

Lemma emit_spec m a l :
  chars l -> owned m a (Z.of_nat (length l)) ->
  emit a l m = Done (a + Z.of_nat (length l), put_bytes a l m).
Proof.
  revert m a. induction l as [|c l IH]; intros m a Hc Ho; cbn [emit put_bytes].
  { by rewrite Z.add_0_r. }
  apply Forall_cons in Hc as [Hc1 Hc2]. simpl length in *.
  apply owned_cons in Ho as [Ho1 Ho2]; [|lia]. rewrite st8_bind by done.
  rewrite Z.mod_small by lia. rewrite IH; [do 2 f_equal; lia|done|].
  apply owned_insert. eapply owned_le; [exact Ho2|lia].
Qed.

Lemma to_buf_spec m p l :
  bytes_at m p l -> to_buf (length l) p m = Done (l, m).
Proof.
  revert p. induction l as [|c l IH]; intros p H; cbn [to_buf length]; [done|].
  apply bytes_at_cons in H as [H1 H2]. erewrite ld8_bind by exact H1.
  by rewrite (bind_done _ _ _ _ _ (IH _ H2)).
Qed.

(** A string copied forwards to a place that does not meet it. *)
Lemma strcpy_loop_spec fuel m dst src s :
  str_at m src s -> (length s < fuel)%nat -> owned m dst (Z.of_nat (length s)) ->
  dst + Z.of_nat (length s) <= src \/ src + Z.of_nat (length s) < dst \/ s = [] ->
  strcpy_loop fuel dst src m = Done (dst + Z.of_nat (length s), put_bytes dst s m).
Proof.
  revert fuel m dst src. induction s as [|c s IH]; intros [|fuel] m dst src Hs Hf Ho Hd;
    try (simpl in Hf; lia); cbn [strcpy_loop put_bytes]; apply str_at_inv in Hs.
  { erewrite ld8_bind by exact Hs. rewrite Z.add_0_r. done. }
  destruct Hs as (H1 & Hc & H2). erewrite ld8_bind by exact H1.
  rewrite (proj2 (Z.eqb_neq _ _)) by lia. simpl length in *.
  destruct Hd as [Hd|[Hd|[=]]];
    (apply owned_cons in Ho as [Ho1 Ho2]; [|lia]); rewrite st8_bind by done;
    rewrite Z.mod_small by lia;
    (rewrite IH; [do 2 f_equal; lia| |lia| |]).
  1,4: (eapply str_at_frame; [exact H2|]; intros q Hq; rewrite lookup_insert_ne by lia; done).
  1,3: (apply owned_insert; eapply owned_le; [exact Ho2|lia]).
  - left. lia.
  - right; left. lia.
Qed.

Lemma strcpy_spec m dst src s :
  str_at m src s -> owned m dst (Z.of_nat (length s) + 1) ->
  dst + Z.of_nat (length s) < src \/ src + Z.of_nat (length s) < dst ->
  strcpy dst src m = Done (dst, put_bytes dst (s ++ [0]) m).
Proof.
  intros Hs Ho Hd. unfold strcpy. rewrite str_fuel_bind.
  pose proof (str_at_size _ _ _ Hs).
  erewrite bind_done
    by (apply strcpy_loop_spec with (s := s); [done|lia|eapply owned_le; [exact Ho|lia]|lia]).
  rewrite st8_bind.
  - rewrite put_bytes_app. done.
  - apply (owned_put dst s m dst _ Ho). lia.
Qed.

Lemma str_end_spec fuel m p s :
  str_at m p s -> (length s < fuel)%nat -> str_end fuel p m = Done (p + Z.of_nat (length s), m).
Proof.
  revert fuel p. induction s as [|c s IH]; intros [|fuel] p Hs Hf; try (simpl in Hf; lia);
    cbn [str_end]; apply str_at_inv in Hs.
  { erewrite ld8_bind by exact Hs. by rewrite Z.add_0_r. }
  destruct Hs as (H1 & Hc & H2). erewrite ld8_bind by exact H1.
  rewrite (proj2 (Z.eqb_neq _ _)) by lia. simpl in *.
  rewrite IH by (done || lia). do 2 f_equal. lia.
Qed.

Lemma strlen_loop_spec fuel m p s len :
  str_at m p s -> (length s < fuel)%nat -> 0 <= len -> len + Z.of_nat (length s) < 2 ^ 64 ->
  strlen_loop fuel p len m = Done (len + Z.of_nat (length s), m).
Proof.
  revert fuel p len. induction s as [|c s IH]; intros [|fuel] p len Hs Hf H0 Hl;
    try (simpl in Hf; lia); cbn [strlen_loop]; apply str_at_inv in Hs.
  { erewrite ld8_bind by exact Hs. by rewrite Z.add_0_r. }
  destruct Hs as (H1 & Hc & H2). erewrite ld8_bind by exact H1.
  rewrite (proj2 (Z.eqb_neq _ _)) by lia. simpl length in *.
  unfold u64. rewrite Z.mod_small by lia.
  rewrite IH; [do 2 f_equal; lia|done|lia|lia|lia].
Qed.

(** ** Comparison *)

Lemma strcmp_loop_spec fuel m p q s t :
  str_at m p s -> str_at m q t -> (length s < fuel)%nat ->
  strcmp_loop fuel p q m = Done (str_diff s t, m).
Proof.
  revert fuel p q t. induction s as [|c s IH]; intros [|fuel] p q t Hs Ht Hf;
    try (simpl in Hf; lia); cbn [strcmp_loop str_diff];
    apply str_at_inv in Hs; destruct t as [|d t]; apply str_at_inv in Ht.
  - erewrite ld8_bind by exact Ht. erewrite ld8_bind by exact Hs. done.
  - destruct Ht as (H1 & Hd & H2). erewrite ld8_bind by exact H1. erewrite ld8_bind by exact Hs.
    rewrite (proj2 (Z.eqb_neq d 0)) by lia. simpl. done.
  - destruct Hs as (H1 & Hd & H2). erewrite ld8_bind by exact Ht. erewrite ld8_bind by exact H1.
    rewrite (proj2 (Z.eqb_neq c 0)) by lia. cbn [Z.eqb negb andb]. by rewrite Z.sub_0_r.
  - destruct Hs as (H1 & Hc & H2). destruct Ht as (H3 & Hd & H4).
    erewrite ld8_bind by exact H3. erewrite ld8_bind by exact H1.
    rewrite (proj2 (Z.eqb_neq c 0)), (proj2 (Z.eqb_neq d 0)) by lia. simpl.
    destruct (Z.eqb_spec c d) as [->|]; [|done].
    apply IH; [done|done|simpl in Hf; lia].
Qed.

Lemma str_diff_zero s t :
  Forall (fun c => 0 < c < 256) s -> Forall (fun c => 0 < c < 256) t ->
  str_diff s t = 0 <-> s = t.
Proof.
  intros Hs. revert t. induction Hs as [|c s Hc Hs IH]; intros [|d t] Ht; cbn [str_diff lex_lt];
    try (apply Forall_cons in Ht as [Hd Ht]); [done|split; [lia|done]|split; [lia|done]|].
  destruct (Z.eqb_spec c d) as [->|Hne].
  - rewrite IH by done. split; [by intros ->|by intros [= ->]].
  - split; [lia|]. by intros [= ? ?].
Qed.

Lemma str_diff_neg s t :
  Forall (fun c => 0 < c < 256) s -> Forall (fun c => 0 < c < 256) t ->
  (str_diff s t <? 0) = lex_lt s t.
Proof.
  intros Hs. revert t. induction Hs as [|c s Hc Hs IH]; intros [|d t] Ht; cbn [str_diff lex_lt];
    try (apply Forall_cons in Ht as [Hd Ht]); [done|lia|lia|].
  destruct (Z.eqb_spec c d) as [->|Hne].
  - rewrite IH by done. rewrite Z.ltb_irrefl. done.
  - rewrite andb_false_l, orb_false_r. destruct (Z.ltb_spec c d); lia.
Qed.

Lemma strncmp_loop_spec fuel m p q s t n :
  str_at m p s -> str_at m q t -> (length s < fuel)%nat ->
  strncmp_loop fuel p q (Z.of_nat n) m = Done (str_diff (take (S n) s) (take (S n) t), m).
Proof.
  revert fuel p q t n. induction s as [|c s IH]; intros [|fuel] p q t n Hs Ht Hf;
    try (simpl in Hf; lia); cbn [strncmp_loop take str_diff];
    apply str_at_inv in Hs; destruct t as [|d t]; apply str_at_inv in Ht.
  - erewrite ld8_bind by exact Ht. erewrite ld8_bind by exact Hs. done.
  - destruct Ht as (H1 & Hd & H2). erewrite ld8_bind by exact H1. erewrite ld8_bind by exact Hs.
    rewrite (proj2 (Z.eqb_neq d 0)) by lia. simpl. done.
  - destruct Hs as (H1 & Hd & H2). erewrite ld8_bind by exact Ht. erewrite ld8_bind by exact H1.
    rewrite (proj2 (Z.eqb_neq c 0)) by lia. cbn [Z.eqb negb andb]. by rewrite Z.sub_0_r.
  - destruct Hs as (H1 & Hc & H2). destruct Ht as (H3 & Hd & H4).
    erewrite ld8_bind by exact H3. erewrite ld8_bind by exact H1.
    rewrite (proj2 (Z.eqb_neq c 0)), (proj2 (Z.eqb_neq d 0)) by lia. simpl.
    destruct (Z.eqb_spec c d) as [->|]; [|done]. destruct n as [|n].
    + cbn. by rewrite Z.sub_diag.
    + rewrite (proj2 (Z.ltb_lt 0 (Z.of_nat (S n)))) by lia.
      replace (Z.of_nat (S n) - 1) with (Z.of_nat n) by lia. cbn [negb andb].
      apply IH; [done|done|simpl in Hf; lia].
Qed.

(** ** Blocks *)

Lemma put_bytes_u8 (a : Z) (l : list Z) (m : mem) :
  bytes_at (put_bytes a l m) a l.
Proof. apply put_bytes_at. Qed.

Lemma memcpy_loop_spec m dst src l :
  bytes_at m src l -> chars l -> owned m dst (Z.of_nat (length l)) ->
  dst <= src \/ src + Z.of_nat (length l) <= dst ->
  memcpy_loop (length l) dst src m = Done (tt, put_bytes dst l m).
Proof.
  revert m dst src. induction l as [|c l IH]; intros m dst src Hb Hc Ho Hd;
    cbn [memcpy_loop put_bytes length]; [done|].
  apply bytes_at_cons in Hb as [H1 H2]. apply Forall_cons in Hc as [Hc1 Hc2].
  simpl length in *. apply owned_cons in Ho as [Ho1 Ho2]; [|lia].
  erewrite ld8_bind by exact H1. rewrite st8_bind by done. rewrite Z.mod_small by lia.
  apply IH; [|done|apply owned_insert; eapply owned_le; [exact Ho2|lia]|lia].
  eapply bytes_at_frame; [exact H2|]. intros q Hq. apply lookup_insert_ne. lia.
Qed.

Lemma memset_loop_spec k m p c :
  0 <= c < 256 -> owned m p (Z.of_nat k) ->
  memset_loop k p c m = Done (tt, put_bytes p (replicate k c) m).
Proof.
  intros Hc. revert m p. induction k as [|k IH]; intros m p Ho; cbn [memset_loop replicate put_bytes];
    [done|].
  apply owned_cons in Ho as [Ho1 Ho2]; [|lia]. rewrite st8_bind by done.
  rewrite Z.mod_small by lia. apply IH. apply owned_insert. eapply owned_le; [exact Ho2|lia].
Qed.

(** ** Numbers *)

Lemma dec_digits f n : 0 <= n -> Forall (fun c => 48 <= c <= 57) (dec f n).
Proof.
  revert n. induction f as [|f IH]; intros n Hn; cbn [dec]; [done|].
  destruct (Z.ltb_spec n 10); [repeat constructor; lia|].
  apply Forall_app. split; [apply IH; zdiv|repeat constructor; zdiv].
Qed.

Lemma decimal_chars i : Forall (fun c => 0 < c < 256) (decimal i).
Proof.
  unfold decimal. destruct (Z.ltb_spec i 0); [constructor; [lia|]|];
    (eapply Forall_impl; [apply dec_digits; lia|]); simpl; lia.
Qed.

Lemma dec_value_dec f n : 0 <= n < 10 ^ Z.of_nat f -> dec_value (dec f n) = n.
Proof.
  revert n. induction f as [|f IH]; intros n Hn; cbn [dec].
  { rewrite Z.pow_0_r in Hn. unfold dec_value. simpl. lia. }
  rewrite Nat2Z.inj_succ, Z.pow_succ_r in Hn by lia.
  destruct (Z.ltb_spec n 10); [unfold dec_value; simpl; lia|].
  unfold dec_value. rewrite fold_left_app. simpl.
  unfold dec_value in IH. rewrite IH; zdiv.
Qed.

Lemma itoa_digits_spec f i buf :
  0 <= i < 10 ^ Z.of_nat f ->
  itoa_digits (S f) i buf = Some ((if i =? 0 then [] else dec f i) ++ buf).
Proof.
  revert i buf. induction f as [|f IH]; intros i buf Hi.
  { rewrite Z.pow_0_r in Hi. replace i with 0 by lia. done. }
  rewrite Nat2Z.inj_succ, Z.pow_succ_r in Hi by lia.
  change (itoa_digits (S (S f)) i buf) with
    (if 0 <? i then itoa_digits (S f) (i / 10) (i mod 10 + 48 :: buf) else Some buf).
  destruct (Z.ltb_spec 0 i); [|by replace i with 0 by lia].
  rewrite (proj2 (Z.eqb_neq i 0)) by lia.
  rewrite IH by zdiv.
  f_equal. cbn [dec]. destruct (Z.ltb_spec i 10).
  - rewrite Z.div_small, Z.mod_small by lia. done.
  - rewrite (proj2 (Z.eqb_neq (i / 10) 0)) by zdiv. by rewrite <- app_assoc.
Qed.

Lemma put_end m a l :
  chars l -> owned m a (Z.of_nat (length l) + 1) ->
  bind (emit a l) (fun e => st8 e 0;;; ret a) m = Done (a, put_bytes a (l ++ [0]) m).
Proof.
  intros Hc Ho. erewrite bind_done by (apply emit_spec; [done|eapply owned_le; [exact Ho|lia]]).
  rewrite st8_bind; [by rewrite put_bytes_app|].
  apply (owned_put a l m a _ Ho). lia.
Qed.

Lemma itoa_spec m a i :
  - 2 ^ 31 < i < 2 ^ 31 -> owned m a (Z.of_nat (length (decimal i)) + 1) ->
  itoa a i m = Done (a, put_bytes a (decimal i ++ [0]) m).
Proof.
  intros Hi Ho. rewrite <- put_end; [|apply chars_of_str, decimal_chars|done].
  unfold itoa, decimal. destruct (Z.eqb_spec i 0) as [->|Hne]; [done|].
  destruct (Z.ltb_spec 0 i).
  - rewrite itoa_digits_spec by lia. rewrite (proj2 (Z.eqb_neq i 0)) by lia.
    rewrite (proj2 (Z.ltb_ge i 0)) by lia. by rewrite app_nil_r.
  - replace (s32 (- i)) with (- i)
      by (unfold s32; rewrite Z.mod_small by lia; lia).
    rewrite (proj2 (Z.ltb_ge (- i) 0)) by lia. rewrite (proj2 (Z.ltb_lt i 0)) by lia.
    rewrite itoa_digits_spec by lia. rewrite (proj2 (Z.eqb_neq (- i) 0)) by lia.
    by rewrite app_nil_r.
Qed.

Lemma fold_dec_mono l x :
  Forall (fun c => 48 <= c <= 57) l -> 0 <= x ->
  x <= fold_left (fun x c => x * 10 + (c - 48)) l x.
Proof.
  intros H. revert x. induction H as [|c l Hc Hl IH]; intros x Hx; simpl; [lia|].
  etrans; [|apply IH; lia]. lia.
Qed.

Lemma atoi_loop_spec fuel m p l x :
  str_at m p l -> Forall (fun c => 48 <= c <= 57) l -> (length l < fuel)%nat ->
  0 <= x -> fold_left (fun x c => x * 10 + (c - 48)) l x < 2 ^ 31 ->
  atoi_loop fuel p x m = Done (fold_left (fun x c => x * 10 + (c - 48)) l x, m).
Proof.
  revert fuel p x. induction l as [|c l IH]; intros [|fuel] p x Hs Hd Hf Hx Hv;
    try (simpl in Hf; lia); cbn [atoi_loop]; apply str_at_inv in Hs.
  { erewrite ld8_bind by exact Hs. done. }
  destruct Hs as (H1 & Hc & H2). erewrite ld8_bind by exact H1.
  apply Forall_cons in Hd as [Hc1 Hd]. simpl in *.
  rewrite (proj2 (Z.leb_le 48 c)), (proj2 (Z.leb_le c 57)) by lia. simpl.
  pose proof (fold_dec_mono l (x * 10 + (c - 48)) Hd ltac:(lia)).
  replace (s32 (x * 10 + c - 48)) with (x * 10 + (c - 48)).
  - apply IH; [done|done|lia|lia|done].
  - unfold s32. rewrite Z.mod_small; lia.
Qed.

Lemma put_str m a s :
  Forall (fun c => 0 < c < 256) s -> str_at (put_bytes a (s ++ [0]) m) a s.
Proof. intros H. split; [apply put_bytes_at|done]. Qed.

Lemma dec_nonempty f n : (0 < f)%nat -> dec f n <> [].
Proof.
  destruct f as [|f]; [lia|]. intros _. cbn [dec]. destruct (n <? 10); [done|].
  by destruct (dec f (n / 10)).
Qed.

Lemma atoi_spec m p l :
  str_at m p l -> Forall (fun c => 48 <= c <= 57) l -> dec_value l < 2 ^ 31 ->
  atoi p m = Done (dec_value l, m).
Proof.
  intros Hs Hd Hv. pose proof (str_at_size _ _ _ Hs) as Hz.
  unfold atoi. rewrite str_fuel_bind. erewrite bind_done; [by apply atoi_loop_spec; [..|lia| |]|].
  cbn [skip_spaces]. apply str_at_inv in Hs. destruct l as [|c l].
  - erewrite ld8_bind by exact Hs. done.
  - destruct Hs as (H1 & _ & _). erewrite ld8_bind by exact H1.
    apply Forall_cons in Hd as [Hc _]. by rewrite (proj2 (Z.eqb_neq c 32)) by lia.
Qed.

(** ** Formatting *)

Lemma hex_char_code d : 0 <= d < 16 -> (if d <? 10 then d + 48 else d + 97 - 10) = hex_char d /\ 0 < hex_char d < 256.
Proof.
  intros Hd. assert (d ∈ seqZ 0 16) as Hin by (apply elem_of_seqZ; lia).
  assert (Forall (fun d => (if d <? 10 then d + 48 else d + 97 - 10) = hex_char d /\ 0 < hex_char d < 256) (seqZ 0 16)) as H
    by (repeat constructor).
  rewrite Forall_forall in H. by apply H.
Qed.

Lemma hex_digits_spec f i buf :
  0 <= i < 16 ^ Z.of_nat f ->
  hex_digits (S f) i buf = Some (hex f i ++ buf) /\ Forall (fun c => 0 < c < 256) (hex f i).
Proof.
  revert i buf. induction f as [|f IH]; intros i buf Hi.
  { rewrite Z.pow_0_r in Hi. by replace i with 0 by lia. }
  rewrite Nat2Z.inj_succ, Z.pow_succ_r in Hi by lia.
  destruct (hex_char_code (i mod 16) ltac:(zdiv)) as [Ec Hc].
  change (hex_digits (S (S f)) i buf) with
    (if 0 <? i then hex_digits (S f) (i / 16) ((if i mod 16 <? 10 then i mod 16 + 48 else i mod 16 + 97 - 10) :: buf) else Some buf).
  cbn [hex]. rewrite Ec. destruct (Z.ltb_spec 0 i); [|by rewrite (proj2 (Z.eqb_eq i 0)) by lia].
  rewrite (proj2 (Z.eqb_neq i 0)) by lia. destruct (IH (i / 16) (hex_char (i mod 16) :: buf)) as [-> Hl]; [zdiv|].
  rewrite <- app_assoc. split; [done|]. apply Forall_app. split; [done|]. by constructor.
Qed.

Lemma hexadecimal_spec u :
  0 <= u < 2 ^ 64 ->
  exists buf, hex_digits 17 u [] = Some buf /\ hexadecimal u = 48 :: 120 :: buf /\
              Forall (fun c => 0 < c < 256) (hexadecimal u).
Proof.
  intros Hu. destruct (hex_digits_spec 16 u []) as [Hl Hc]; [simpl; lia|].
  rewrite app_nil_r in Hl. exists (hex 16 u). split; [done|]. split; [done|].
  unfold hexadecimal. repeat (constructor; [lia|]). done.
Qed.

(** What a round writes lies over the terminator of the previous one. *)
Lemma put_over out dn t l m :
  l <> [] -> t = [] \/ t = [0] ->
  put_bytes (out + Z.of_nat (length dn)) l (put_bytes out (dn ++ t) m) =
    put_bytes out (dn ++ l) m.
Proof.
  intros Hl Ht. rewrite !put_bytes_app. destruct l as [|x l]; [done|].
  destruct Ht as [-> | ->]; [done|]. simpl. by rewrite insert_insert_eq.
Qed.

Lemma str_at_put m out l p s :
  str_at m p s -> p + Z.of_nat (length s) < out \/ out + Z.of_nat (length l) <= p ->
  str_at (put_bytes out l m) p s.
Proof.
  intros Hs Hd. eapply str_at_frame; [exact Hs|]. intros q Hq. apply put_bytes_out. lia.
Qed.

Lemma ld8_put {B} m out l p b (K : Z -> M mem B) :
  m !! p = Some b -> p < out \/ out + Z.of_nat (length l) <= p ->
  bind (ld8 p) K (put_bytes out l m) = K b (put_bytes out l m).
Proof. intros Hb Hd. apply ld8_bind. by rewrite put_bytes_out. Qed.

(** Writing a string over the terminator and finding its end again. *)
Lemma write_and_end {R} (w : M mem Z) m out dn t s (g : Z -> R) :
  t = [] \/ t = [0] -> Forall (fun c => 0 < c < 256) s ->
  w (put_bytes out (dn ++ t) m) =
    Done (out + Z.of_nat (length dn),
          put_bytes (out + Z.of_nat (length dn)) (s ++ [0]) (put_bytes out (dn ++ t) m)) ->
  (w;;; fuel <- str_fuel;; e <- str_end fuel (out + Z.of_nat (length dn));; ret (g e))
    (put_bytes out (dn ++ t) m) =
  Done (g (out + Z.of_nat (length (dn ++ s))), put_bytes out ((dn ++ s) ++ [0]) m).
Proof.
  intros Ht Hs Hw. rewrite (bind_done _ _ _ _ _ Hw), str_fuel_bind.
  pose proof (put_str (put_bytes out (dn ++ t) m) (out + Z.of_nat (length dn)) s Hs) as Hat.
  rewrite put_over in Hat |- *; [|by destruct s|done|by destruct s|done].
  pose proof (str_at_size _ _ _ Hat).
  erewrite bind_done by (apply str_end_spec; [exact Hat|lia]).
  unfold ret. rewrite <- app_assoc, length_app, Nat2Z.inj_add, Z.add_assoc. done.
Qed.

(** The invariant of the formatting loop: [dn] is written, possibly followed
    by a terminator that the next round overwrites.  [room n] is the space
    that [n] characters and the terminator take. *)
Definition fits (m : mem) (out n p k : Z) (ap : list va) (args : list varg) : Prop :=
  owned m out (n + 1) /\ (p + k < out \/ out + (n + 1) <= p) /\
  Forall2 (arg_apart out (n + 1)) ap args.

Lemma fits_step m out n n' p p' k k' ap ap' args args' v x :
  fits m out n p k (v ++ ap) (x ++ args) -> n = n' -> length v = length x ->
  p <= p' -> p' + k' = p + k -> ap' = ap -> args' = args -> fits m out n' p' k' ap' args'.
Proof.
  intros (Ho & Hd & Ha) <- Hl Hp Hk -> ->. split; [done|]. split; [lia|].
  by apply Forall2_app_inv in Ha as [_ Ha].
Qed.

(** What a round of the loop does: the text [w] is written, and the format [f]
    from [p'] on is left, with the arguments that [w] did not take. *)
Inductive round (m : mem) (out p' : Z) (dn f : list Z) (ap : list va) (args : list varg) (r : list Z)
    (res : result (Z * Z * list va * mem)) : Prop :=
| mkRound (w t : list Z) (v : list va) (x : list varg) (ap2 : list va) (args2 : list varg) (r2 : list Z) :
    res = Done ((p', out + Z.of_nat (length (dn ++ w)), ap2), put_bytes out ((dn ++ w) ++ t) m) ->
    r = w ++ r2 -> format f args2 = Some r2 -> Forall2 (arg_at m) ap2 args2 ->
    ap = v ++ ap2 /\ args = x ++ args2 /\ length v = length x -> t = [] \/ t = [0] ->
    round m out p' dn f ap args r res.

Section Round.
Context (m : mem) (out p : Z) (f : list Z) (ap : list va) (args : list varg) (dn t r : list Z).
Hypothesis Ha : Forall2 (arg_at m) ap args.
Hypothesis Ht : t = [] \/ t = [0].
Hypothesis Ho : owned m out (Z.of_nat (length dn + length r) + 1).
Hypothesis Hap : Forall2 (arg_apart out (Z.of_nat (length dn + length r) + 1)) ap args.
#[local] Abbreviation start := (put_bytes out (dn ++ t) m).
#[local] Abbreviation pout := (out + Z.of_nat (length dn)).

Lemma short_end : (length t <= 1)%nat.
Proof. destruct Ht as [-> | ->]; simpl; lia. Qed.

(** There is room for what is to come. *)
Lemma round_room (w : list Z) : (length w <= length r)%nat -> owned start pout (Z.of_nat (length w) + 1).
Proof. intros Hw. apply owned_put. intros i Hi. rewrite <- Z.add_assoc. apply Ho. lia. Qed.

(** A plain character. *)
Lemma round_plain c : c <> 37 -> 0 < c < 256 -> format (c :: f) args = Some r ->
  round m out p dn f ap args r (fmt_step c p pout ap start).
Proof.
  intros Hne Hc Hr. unfold fmt_step. cbn [format] in Hr. rewrite (proj2 (Z.eqb_neq c 37) Hne) in Hr |- *.
  destruct (format f args) as [r'|] eqn:Hr'; [|done]. injection Hr as E.
  assert (is_Some (start !! pout)) as Hsome by (apply (owned_put out (dn ++ t) m out _ Ho); lia).
  rewrite st8_bind by exact Hsome. rewrite Z.mod_small by lia.
  pose proof (put_over out dn t [c] m ltac:(done) Ht) as Hov. simpl in Hov. rewrite Hov.
  apply (mkRound _ _ _ _ _ _ _ _ _ [c] [] [] [] ap args r'); try done; [|by left].
  rewrite app_nil_r, length_app. cbn [length]. unfold ret. do 4 f_equal. lia.
Qed.

(** A conversion. *)
Lemma round_conversion d : m !! p = Some d -> p < out \/ out + Z.of_nat (length (dn ++ t)) <= p ->
  format (37 :: d :: f) args = Some r -> round m out (p + 1) dn f ap args r (fmt_step 37 p pout ap start).
Proof.
  intros Hd Hp Hr. unfold fmt_step. cbn [format] in Hr. change (37 =? 37) with true in Hr |- *. cbn match in Hr |- *.
  rewrite ld8_put with (b := d) by done.
  destruct (Z.eqb_spec d 100) as [->|_]; [|destruct (Z.eqb_spec d 115) as [->|_]; [|destruct (Z.eqb_spec d 112) as [->|_]]].
  4:{ apply (mkRound _ _ _ _ _ _ _ _ _ [] t [] [] ap args r); try done. by rewrite app_nil_r. }
  all: destruct Ha as [|v x ap' args' Hv Ha']; [done|]; destruct x as [i|q|u]; try done; destruct v as [j|j|j]; try done;
    apply fmap_Some in Hr as (r' & Hr' & Er).
  - destruct Hv as [-> Hi].
    erewrite (write_and_end (itoa _ i) _ _ _ _ (decimal i) (fun e => (_, e, _)));
      [|done|apply decimal_chars|apply itoa_spec; [done|apply round_room; rewrite Er, length_app; lia]].
    apply (mkRound _ _ _ _ _ _ _ _ _ (decimal i) [0] [VInt i] [AInt i] ap' args' r'); try done. by right.
  - cbn in Hv. apply Forall2_cons in Hap as [Hq _]. cbn in Hq. rewrite Er, length_app in Hq.
    erewrite (write_and_end (strcpy _ j) _ _ _ _ q (fun e => (_, e, _)));
      [|done|apply Hv|apply strcpy_spec; [apply str_at_put; [done|pose proof short_end; rewrite length_app; lia]|
         apply round_room; rewrite Er, length_app; lia|lia]].
    apply (mkRound _ _ _ _ _ _ _ _ _ q [0] [VStr j] [AStr q] ap' args' r'); try done. by right.
  - destruct Hv as [-> Hu]. destruct (hexadecimal_spec u Hu) as (buf & -> & Hhex & Hch). rewrite <- Hhex.
    erewrite bind_done by (apply emit_spec; [by apply chars_of_str|eapply owned_le;
      [apply (round_room (hexadecimal u)); rewrite Er, length_app; lia|lia]]).
    rewrite put_over by (done || by rewrite Hhex).
    apply (mkRound _ _ _ _ _ _ _ _ _ (hexadecimal u) [] [VPtr u] [APtr u] ap' args' r'); try done; [|by left].
    rewrite app_nil_r, length_app. unfold ret. do 4 f_equal. lia.
Qed.
End Round.

Lemma vsprintf_loop_spec m out : forall fuel f p ap args dn t r,
  str_at m p f -> format f args = Some r -> Forall2 (arg_at m) ap args ->
  (length f < fuel)%nat -> t = [] \/ t = [0] ->
  fits m out (Z.of_nat (length dn + length r)) p (Z.of_nat (length f)) ap args ->
  exists t', (t' = [] \/ t' = [0]) /\
    vsprintf_loop fuel p (out + Z.of_nat (length dn)) ap (put_bytes out (dn ++ t) m) =
      Done (out + Z.of_nat (length (dn ++ r)), put_bytes out ((dn ++ r) ++ t') m).
Proof.
  induction fuel as [|fuel IH]; intros f p ap args dn t r Hs Hr Ha Hf Ht Hfit; [lia|].
  pose proof (short_end t Ht). pose proof Hfit as (Ho & Hd & Hap).
  cbn [vsprintf_loop]. destruct f as [|c f]; apply str_at_inv in Hs.
  { injection Hr as <-. exists t. split; [done|]. rewrite app_nil_r.
    rewrite ld8_put with (b := 0); [done|done|]. rewrite length_app. simpl in *. lia. }
  destruct Hs as (H1 & Hc & Hs). cbn [length] in Hf, Hfit, Hd.
  rewrite ld8_put with (b := c) by (done || (rewrite length_app; lia)). rewrite (proj2 (Z.eqb_neq c 0)) by lia.
  assert (exists p' f', (length f' <= length f)%nat /\ p' + Z.of_nat (length f') = p + 1 + Z.of_nat (length f) /\ str_at m p' f' /\
    round m out p' dn f' ap args r (fmt_step c (p + 1) (out + Z.of_nat (length dn)) ap (put_bytes out (dn ++ t) m)))
    as (p' & f' & Hf' & Hp' & Hs' & HR).
  { destruct (Z.eqb_spec c 37) as [->|Hne]; [|exists (p + 1), f; split_and!; [done..|by apply round_plain]].
    destruct f as [|d f]; [done|]. apply str_at_inv in Hs as (H2 & _ & Hs). cbn [length] in *.
    exists (p + 1 + 1), f. split_and!; [lia|lia|done|]. apply (round_conversion m out (p + 1) f ap args dn t r Ha Ht Ho Hap d H2); [|done].
    rewrite length_app. lia. }
  destruct HR as [w t2 v x ap2 args2 r2 HE -> Hr2 Ha2 (-> & -> & Hl) Ht2]. rewrite (bind_done _ _ _ _ _ HE).
  destruct (IH f' p' ap2 args2 (dn ++ w) t2 r2) as (t' & Ht' & HE'); [done|done|done|lia|done| |].
  - eapply (fits_step _ _ _ _ _ _ _ _ ap2 _ args2 _ v x); [exact Hfit|rewrite !length_app; lia|done|lia|lia|done|done].
  - exists t'. split; [done|]. by rewrite (app_assoc dn w r2).
Qed.
