(* ===== verification/KlibTheorems.v ===== *)
(** * What klib.c guarantees

    The properties of the kernel's C library, each followed by a run at a
    concrete memory. *)
From S2P Require Import Prelude Memory Klib KlibProofs.

(** A memory of [n] zero bytes from [a], for the examples. *)
Definition zeros (a : Z) (n : nat) : mem := put_bytes a (replicate n 0) ∅.

(** Bytes 1, 2, ... 255, 1, ... for the overlapping copy. *)
Definition ramp (n : nat) : list Z := (fun i => Z.of_nat i mod 255 + 1) <$> seq 0 n.

Lemma bytes_at_drop m a l k :
  bytes_at m a l -> bytes_at m (a + Z.of_nat k) (drop k l).
Proof.
  intros H i x Hi. rewrite lookup_drop in Hi.
  replace (a + Z.of_nat k + Z.of_nat i) with (a + Z.of_nat (k + i)) by lia. by apply H.
Qed.

Lemma bytes_at_take m a l k : bytes_at m a l -> bytes_at m a (take k l).
Proof. intros H i x Hi. apply lookup_take_Some in Hi as [Hi _]. by apply H. Qed.

Lemma memmove_loop_spec fuel : forall m dst src i l,
  bytes_at m (src + i) l -> chars l -> owned m (dst + i) (Z.of_nat (length l)) ->
  Z.of_nat (length l) <= 1024 \/ dst <= src \/ src + i + Z.of_nat (length l) <= dst + i ->
  (length l < fuel)%nat ->
  memmove_loop fuel dst src (Z.of_nat (length l)) i m = Done (tt, put_bytes (dst + i) l m).
Proof.
  induction fuel as [|fuel IH]; intros m dst src i l Hb Hc Ho Hd Hf; [lia|].
  cbn [memmove_loop]. destruct (Z.eqb_spec (Z.of_nat (length l)) 0) as [H0|H0].
  { destruct l; [done|simpl in H0; lia]. }
  set (k := if 1024 <? Z.of_nat (length l) then 1024 else Z.of_nat (length l)). cbv zeta.
  assert (0 < k <= Z.of_nat (length l) /\ (Z.of_nat (length l) <= 1024 -> k = Z.of_nat (length l)))
    as [Hk Hk'].
  { unfold k. destruct (Z.ltb_spec 1024 (Z.of_nat (length l))); lia. }
  assert (length (take (Z.to_nat k) l) = Z.to_nat k) as Hlt by (rewrite length_take; lia).
  assert (length (drop (Z.to_nat k) l) = (length l - Z.to_nat k)%nat) as Hld
    by (by rewrite length_drop).
  rewrite <- Hlt at 1.
  erewrite bind_done by (apply to_buf_spec; by apply bytes_at_take).
  erewrite bind_done by (apply emit_spec;
    [by apply Forall_take|eapply owned_le; [exact Ho|rewrite Hlt; lia]]).
  pose proof (IH (put_bytes (dst + i) (take (Z.to_nat k) l) m) dst src (i + k)
    (drop (Z.to_nat k) l)) as Hrec.
  replace (Z.of_nat (length l) - k) with (Z.of_nat (length (drop (Z.to_nat k) l))) by lia.
  rewrite Hrec.
  - rewrite <- (take_drop (Z.to_nat k) l) at 3. rewrite put_bytes_app, Hlt. do 3 f_equal. lia.
  - replace (src + (i + k)) with (src + i + Z.of_nat (Z.to_nat k)) by lia.
    eapply bytes_at_frame; [by apply bytes_at_drop|]. intros q Hq. apply put_bytes_out.
    rewrite Hlt. lia.
  - by apply Forall_drop.
  - apply owned_put. intros j Hj. replace (dst + (i + k) + j) with (dst + i + (k + j)) by lia.
    apply Ho. lia.
  - lia.
  - lia.
Qed.

Lemma strncpy_loop_spec fuel : forall m p src i n s,
  str_at m src s -> (length s < fuel)%nat -> 0 <= i <= n ->
  owned m p (Z.min (Z.of_nat (length s)) (n - i)) ->
  src + Z.of_nat (length s) < p \/ p + (n - i) <= src ->
  strncpy_loop fuel p src i n m =
    Done ((p + Z.min (Z.of_nat (length s)) (n - i), i + Z.min (Z.of_nat (length s)) (n - i)),
          put_bytes p (take (Z.to_nat (n - i)) s) m).
Proof.
  induction fuel as [|fuel IH]; intros m p src i n s Hs Hf Hi Ho Hd; [lia|].
  cbn [strncpy_loop]. destruct s as [|c s]; apply str_at_inv in Hs.
  { erewrite ld8_bind by exact Hs. rewrite take_nil. simpl length. rewrite Z.min_l by lia.
    by rewrite !Z.add_0_r. }
  destruct Hs as (H1 & Hc & Hs). erewrite ld8_bind by exact H1. simpl length in *.
  rewrite (proj2 (Z.eqb_neq c 0)) by lia. cbn [orb].
  destruct (Z.ltb_spec i n); cbn [negb].
  - replace (Z.to_nat (n - i)) with (S (Z.to_nat (n - (i + 1)))) by lia. cbn [take put_bytes].
    destruct (owned_cons m p (Z.min (Z.of_nat (S (length s))) (n - i))) as [Ho1 Ho2]; [lia|done|].
    rewrite st8_bind by done. rewrite Z.mod_small by lia. rewrite (IH _ _ _ _ _ s).
    + replace (p + 1 + Z.min (Z.of_nat (length s)) (n - (i + 1)))
        with (p + Z.min (Z.of_nat (S (length s))) (n - i)) by lia.
      replace (i + 1 + Z.min (Z.of_nat (length s)) (n - (i + 1)))
        with (i + Z.min (Z.of_nat (S (length s))) (n - i)) by lia. done.
    + eapply str_at_frame; [exact Hs|]. intros q Hq. apply lookup_insert_ne. lia.
    + lia.
    + lia.
    + apply owned_insert. eapply owned_le; [exact Ho2|lia].
    + lia.
  - replace (Z.to_nat (n - i)) with 0%nat by lia. rewrite Z.min_r by lia.
    replace (n - i) with 0 by lia. by rewrite !Z.add_0_r.
Qed.

(** [vsprintf] writes exactly the text its format string means, followed by
    NUL, for every sequence of conversions the kernel uses, and touches
    nothing else, when the output area meets neither the format nor the
    string arguments. *)
Theorem vsprintf_formats m out fmt f ap args r :
  str_at m fmt f -> Forall2 (arg_at m) ap args -> format f args = Some r ->
  owned m out (Z.of_nat (length r) + 1) ->
  fmt + Z.of_nat (length f) < out \/ out + (Z.of_nat (length r) + 1) <= fmt ->
  Forall2 (arg_apart out (Z.of_nat (length r) + 1)) ap args ->
  vsprintf out fmt ap m = Done (0, put_bytes out (r ++ [0]) m).
Proof.
  intros Hs Ha Hr Ho Hd Hap. unfold vsprintf. rewrite str_fuel_bind.
  pose proof (str_at_size _ _ _ Hs).
  destruct (vsprintf_loop_spec m out (S (size m)) f fmt ap args [] [] r) as (t' & Ht' & HE);
    [done|done|done|lia|by left|by split_and!|].
  simpl in HE. rewrite Z.add_0_r in HE. rewrite (bind_done _ _ _ _ _ HE).
  rewrite st8_bind by (apply (owned_put out (r ++ t') m out _ Ho); lia).
  pose proof (put_over out r t' [0] m ltac:(done) Ht') as Hov. simpl in Hov. change (0 mod 256) with 0. by rewrite Hov.
Qed.

(** ** printf *)

(** What a format prints has no NUL in it. *)
Lemma format_chars m : forall n f ap args r, (length f <= n)%nat ->
  Forall (fun c => 0 < c < 256) f -> Forall2 (arg_at m) ap args -> format f args = Some r ->
  Forall (fun c => 0 < c < 256) r.
Proof.
  induction n as [|n IH]; intros [|c f] ap args r Hn Hf Ha Hr; cbn [format length] in *; try lia; try (by injection Hr as <-).
  apply Forall_cons in Hf as [Hc Hf].
  destruct (c =? 37).
  - destruct f as [|d f]; [done|]. apply Forall_cons in Hf as [_ Hf]. cbn [length] in Hn.
    assert (forall w ap args, Forall (fun c => 0 < c < 256) w -> Forall2 (arg_at m) ap args ->
      app w <$> format f args = Some r -> Forall (fun c => 0 < c < 256) r) as Harg.
    { intros w ap' args' Hw Ha' (r' & E & ->)%fmap_Some. apply Forall_app. split; [done|]. by apply (IH f ap' args'); [lia|..]. }
    destruct (d =? 100); [|destruct (d =? 115); [|destruct (d =? 112); [|by apply (IH f ap args); [lia|..]]]].
    + destruct Ha as [|v [i|s|u] ap args Hv Ha]; try done. by apply (Harg _ _ _ (decimal_chars i) Ha).
    + destruct Ha as [|v [i|s|u] ap args Hv Ha]; try done. destruct v as [|p|]; [done| |done].
      by apply (Harg _ _ _ (proj2 Hv) Ha).
    + destruct Ha as [|v [i|s|u] ap args Hv Ha]; try done. destruct v as [| |w]; [done|done|].
      destruct Hv as [-> Hu]. destruct (hexadecimal_spec u Hu) as (_ & _ & _ & Hh). by apply (Harg _ _ _ Hh Ha).
  - apply fmap_Some in Hr as (r' & E & ->). constructor; [done|]. by apply (IH f ap args); [lia|..].
Qed.

Lemma arg_at_frame m m' a n v x :
  arg_at m v x -> arg_apart a n v x -> (forall q, q < a \/ a + n <= q -> m' !! q = m !! q) -> arg_at m' v x.
Proof.
  destruct v as [i|p|u], x as [j|s|w]; try done. cbn. intros Hs Hap Hq. eapply str_at_frame; [exact Hs|].
  intros q Hin. apply Hq. lia.
Qed.

Lemma args_frame m m' a n ap args :
  Forall2 (arg_at m) ap args -> Forall2 (arg_apart a n) ap args -> (forall q, q < a \/ a + n <= q -> m' !! q = m !! q) ->
  Forall2 (arg_at m') ap args.
Proof.
  intros Ha Hap Hq. induction Ha as [|v x ap args Hv Ha IH]; [constructor|]. apply Forall2_cons in Hap as [H1 H2].
  constructor; [by eapply arg_at_frame|by apply IH].
Qed.

Lemma arg_apart_le a n n' v x : arg_apart a n v x -> n' <= n -> arg_apart a n' v x.
Proof. destruct v as [i|p|u], x as [j|s|w]; try done. cbn. lia. Qed.

Section Printf.
Context {W : Type} (uart_putc : Z -> M W unit) (sent : W -> Z -> W).
Hypothesis putc_sends : forall c w, uart_putc c w = Done (tt, sent w c).

Lemma putstr_spec m : forall fuel p s w, str_at m p s -> (length s < fuel)%nat ->
  putstr uart_putc fuel p (m, w) = Done (tt, (m, fold_left sent s w)).
Proof.
  induction fuel as [|fuel IH]; intros p s w Hs Hf; [lia|]. cbn [putstr].
  assert (forall c, m !! p = Some c -> on_bytes (W := W) (ld8 p) (m, w) = Done (c, (m, w))) as Hld.
  { intros c Hc. unfold on_bytes, zoom, ld8, ld. cbn [fst snd get_le]. rewrite Hc. by rewrite Z.mul_0_r, Z.add_0_r. }
  apply str_at_inv in Hs. destruct s as [|c s].
  - by rewrite (bind_done _ _ _ _ _ (Hld 0 Hs)).
  - destruct Hs as (Hc & Hr & Hs). rewrite (bind_done _ _ _ _ _ (Hld c Hc)), (proj2 (Z.eqb_neq c 0)) by lia.
    erewrite bind_done by (unfold on_port, zoom; cbn [fst snd]; by rewrite putc_sends).
    cbn [fold_left]. apply IH; [done|]. simpl in Hf. lia.
Qed.

(** C11. [printf] of a text of at most 1023 characters sends to the serial port
    exactly the characters that the format means for the arguments, in their
    order, and changes no memory but its local array: [%d] an [int] but the
    smallest in decimal, [%s] the characters of a string, [%p] a pointer as
    "0x" and its digits in base 16 (none for the null pointer). *)
Theorem printf_prints m w buf fmt f ap args r :
  str_at m fmt f -> Forall2 (arg_at m) ap args -> format f args = Some r ->
  (length r < 1024)%nat -> owned m buf 1024 ->
  fmt + Z.of_nat (length f) < buf \/ buf + 1024 <= fmt -> Forall2 (arg_apart buf 1024) ap args ->
  exists m', printf uart_putc buf fmt ap (m, w) = Done (0, (m', fold_left sent r w)) /\
    forall q, q < buf \/ buf + 1024 <= q -> m' !! q = m !! q.
Proof.
  intros Hs Ha Hr Hlen Ho Hd Hap. unfold printf. set (m1 := put_bytes buf (replicate 1024 0) m).
  erewrite bind_done by (unfold on_bytes, zoom; cbn [fst snd]; rewrite memset_loop_spec by (done || lia); reflexivity).
  fold m1. assert (forall q, q < buf \/ buf + 1024 <= q -> m1 !! q = m !! q) as Hout.
  { intros q Hq. apply put_bytes_out. by rewrite length_replicate. }
  assert (vsprintf buf fmt ap m1 = Done (0, put_bytes buf (r ++ [0]) m1)) as HE.
  { apply (vsprintf_formats m1 buf fmt f ap args r); [|by eapply args_frame|done| |lia|].
    - eapply str_at_frame; [exact Hs|]. intros q Hq. apply Hout. lia.
    - apply owned_put. eapply owned_le; [exact Ho|lia].
    - eapply Forall2_impl; [exact Hap|]. intros v x H. eapply arg_apart_le; [exact H|lia]. }
  erewrite bind_done by (unfold on_bytes, zoom; cbn [fst snd]; rewrite HE; reflexivity).
  set (m2 := put_bytes buf (r ++ [0]) m1). assert (str_at m2 buf r) as Hr2.
  { apply put_str. eapply (format_chars m); [reflexivity|apply (proj2 Hs)|exact Ha|exact Hr]. }
  exists m2. split.
  - cbn [fst snd]. erewrite bind_done by reflexivity. cbn [fst snd].
    by rewrite (bind_done _ _ _ _ _ (putstr_spec m2 (S (size m2)) buf r w Hr2 ltac:(by apply str_at_size in Hr2; lia))).
  - intros q Hq. rewrite <- Hout by done. apply put_bytes_out. rewrite length_app. simpl. lia.
Qed.

End Printf.

(** a nonnegative [int] written by [itoa] is read back by [atoi]; [itoa]
    writes its decimal digits and nothing outside the twelve bytes it is
    given. *)
Theorem itoa_atoi_roundtrip m a i :
  0 <= i < 2 ^ 31 -> owned m a 12 ->
  exists m', itoa a i m = Done (a, m') /\ str_at m' a (decimal i) /\
             atoi a m' = Done (i, m') /\
             (forall q, q < a \/ a + 12 <= q -> m' !! q = m !! q).
Proof.
  intros Hi Ho.
  assert (decimal i = dec 10 i) as Hdec by (unfold decimal; by rewrite (proj2 (Z.ltb_ge i 0)) by lia).
  assert (forall f n, length (dec f n) <= f)%nat as Hlen.
  { induction f as [|f IH]; intros n; cbn [dec]; [done|]. destruct (n <? 10); simpl; [lia|].
    rewrite length_app. simpl. specialize (IH (n / 10)). lia. }
  pose proof (Hlen 10%nat i) as H10. rewrite <- Hdec in H10.
  exists (put_bytes a (decimal i ++ [0]) m).
  assert (str_at (put_bytes a (decimal i ++ [0]) m) a (decimal i)) as Hs
    by (apply put_str, decimal_chars).
  split; [|split; [done|split]].
  - apply itoa_spec; [lia|]. eapply owned_le; [exact Ho|lia].
  - rewrite Hdec in *. rewrite <- (dec_value_dec 10 i) at 2 by (simpl; lia).
    apply atoi_spec; [done|apply dec_digits; lia|]. rewrite dec_value_dec; simpl; lia.
  - intros q Hq. apply put_bytes_out. rewrite length_app. simpl. lia.
Qed.

(** [memmove] copies [n] bytes exactly, overlapping or not, as long as
    the block is at most one buffer long, or moves to a lower address, or does
    not meet its destination from below. *)
Theorem memmove_copies m dst src l :
  bytes_at m src l -> wf_mem m -> owned m dst (Z.of_nat (length l)) ->
  Z.of_nat (length l) <= 1024 \/ dst <= src \/ src + Z.of_nat (length l) <= dst ->
  memmove dst src (Z.of_nat (length l)) m = Done (dst, put_bytes dst l m).
Proof.
  intros Hb Hw Ho Hd. unfold memmove. rewrite Nat2Z.id.
  assert (chars l) as Hc.
  { apply Forall_lookup. intros i x Hi. eapply Hw. by apply (Hb i). }
  erewrite bind_done by (apply memmove_loop_spec; rewrite ?Z.add_0_r; [done..|lia|lia]).
  by rewrite Z.add_0_r.
Qed.

(** [strcmp] returns zero exactly on equal strings, and a negative number
    exactly when the first string is lexicographically smaller. *)
Theorem strcmp_orders m p q s t :
  str_at m p s -> str_at m q t ->
  exists r, strcmp p q m = Done (r, m) /\ (r = 0 <-> s = t) /\ (r <? 0) = lex_lt s t.
Proof.
  intros Hs Ht. exists (str_diff s t). split; [|split].
  - unfold strcmp. rewrite str_fuel_bind. pose proof (str_at_size _ _ _ Hs).
    apply strcmp_loop_spec; [done|done|lia].
  - apply str_diff_zero; [apply Hs|apply Ht].
  - apply str_diff_neg; [apply Hs|apply Ht].
Qed.

(** [strncpy] never writes outside the [n] bytes of its destination and
    always leaves a terminated string there: the source, cut to [n - 1]
    characters. *)
Theorem strncpy_bounded m dst src s n :
  str_at m src s -> 0 < n -> owned m dst n ->
  src + Z.of_nat (length s) < dst \/ dst + n <= src ->
  exists m', strncpy dst src n m = Done (dst, m') /\
             str_at m' dst (take (Z.to_nat (n - 1)) s) /\
             (forall q, q < dst \/ dst + n <= q -> m' !! q = m !! q).
Proof.
  intros Hs Hn Ho Hd. unfold strncpy. rewrite str_fuel_bind.
  pose proof (str_at_size _ _ _ Hs).
  erewrite bind_done by (apply strncpy_loop_spec with (s := s);
    [done|lia|lia|eapply owned_le; [exact Ho|lia]|lia]).
  rewrite Z.sub_0_r, Z.add_0_l.
  assert (is_Some (put_bytes dst (take (Z.to_nat n) s) m !! (dst + (n - 1)))) as H1
    by (apply (owned_put dst (take (Z.to_nat n) s) m dst _ Ho); lia).
  destruct (Z.eqb_spec (Z.min (Z.of_nat (length s)) n) n) as [Hlong|Hshort].
  - eexists. split; [rewrite st8_bind by exact H1; reflexivity|].
    assert (length (take (Z.to_nat (n - 1)) s) = Z.to_nat (n - 1)) as Hl
      by (rewrite length_take; lia).
    split.
    + split; [|apply Forall_take, Hs]. apply bytes_at_app. split.
      * assert (bytes_at (put_bytes dst (take (Z.to_nat n) s) m) dst (take (Z.to_nat (n - 1)) s)) as Hb.
        { replace (take (Z.to_nat (n - 1)) s)
            with (take (Z.to_nat (n - 1)) (take (Z.to_nat n) s)) by (rewrite take_take; f_equal; lia).
          apply bytes_at_take, put_bytes_at. }
        eapply bytes_at_frame; [exact Hb|]. intros q Hq. apply lookup_insert_ne. lia.
      * apply bytes_at_cons. split; [|apply bytes_at_nil]. rewrite Hl.
        replace (dst + Z.of_nat (Z.to_nat (n - 1))) with (dst + (n - 1)) by lia.
        by rewrite lookup_insert_eq.
    + intros q Hq. rewrite lookup_insert_ne by lia. apply put_bytes_out. rewrite length_take. lia.
  - rewrite Z.min_l by lia. rewrite (take_ge s) by lia.
    assert (is_Some (put_bytes dst s m !! (dst + Z.of_nat (length s)))) as H2
      by (apply (owned_put dst s m dst _ Ho); lia).
    eexists. split; [rewrite st8_bind by exact H2; reflexivity|].
    rewrite take_ge by lia. split.
    + pose proof (put_str m dst s (proj2 Hs)) as Hps. by rewrite put_bytes_app in Hps.
    + intros q Hq. rewrite lookup_insert_ne by lia. apply put_bytes_out. lia.
Qed.

(** [strncmp] looks at one character more than its bound: it answers as
    [strcmp] on the first [n + 1] characters, and so tells apart strings that
    agree on the first [n]. *)
Theorem strncmp_one_more m p q s t n :
  str_at m p s -> str_at m q t ->
  strncmp p q (Z.of_nat n) m = Done (str_diff (take (S n) s) (take (S n) t), m).
Proof.
  intros Hs Ht. unfold strncmp. rewrite str_fuel_bind. pose proof (str_at_size _ _ _ Hs).
  apply strncmp_loop_spec; [done|done|lia].
Qed.

(** Two results that the code does not mean: [itoa] of [INT_MIN] loses the
    last digit, and a forward move of an overlapping block longer than the
    buffer reads bytes it has already overwritten. *)
Lemma itoa_int_min m a :
  owned m a 11 ->
  itoa a (- 2 ^ 31) m = Done (a, put_bytes a (int_min_literal ++ [0]) m) /\
  decimal (- 2 ^ 31) = int_min_literal ++ [56].
Proof.
  intros Ho. split; [|done]. rewrite <- put_end; [reflexivity| |exact Ho].
  repeat (constructor; [lia|]). constructor.
Qed.

Lemma memmove_overlap_forward :
  let l := ramp 1026 in
  let m := put_bytes 100 l (zeros 100 1030) in
  exists m', memmove 101 100 1026 m = Done (101, m') /\
             l !! 1024%nat = Some 5 /\ m' !! 1125 = Some 4.
Proof. eexists. split; [vm_compute; reflexivity|]. by vm_compute. Qed.

(** ** Runs *)

Definition demo_fmt : mem :=
  put_bytes 10 [120; 61; 37; 100; 32; 37; 115; 0]
    (put_bytes 30 [111; 107; 0] (zeros 0 100)).

Lemma demo_fmt_at : str_at demo_fmt 10 [120; 61; 37; 100; 32; 37; 115].
Proof.
  split; [|repeat constructor; lia]. intros i x Hi.
  repeat (destruct i as [|i]; [simpl in Hi; injection Hi as <-; by vm_compute|]).
  simpl in Hi. done.
Qed.
Lemma demo_ok_at : str_at demo_fmt 30 [111; 107].
Proof.
  split; [|repeat constructor; lia]. intros i x Hi.
  repeat (destruct i as [|i]; [simpl in Hi; injection Hi as <-; by vm_compute|]).
  simpl in Hi. done.
Qed.
Lemma zeros_owned k a n : 0 <= a -> 0 <= n -> a + n <= Z.of_nat k -> owned (zeros 0 k) a n.
Proof.
  intros Ha Hn Hk. intros i Hi.
  assert (bytes_at (zeros 0 k) 0 (replicate k 0)) as H by apply put_bytes_at.
  exists 0. replace (a + i) with (0 + Z.of_nat (Z.to_nat (a + i))) by lia. apply H.
  apply lookup_replicate_2. lia.
Qed.
Lemma demo_owned a n : 0 <= a -> 0 <= n -> a + n <= 100 -> owned demo_fmt a n.
Proof. intros. do 2 apply owned_put. by apply zeros_owned. Qed.

Lemma vsprintf_formats_witness :
  vsprintf 50 10 [VInt (-12); VStr 30] demo_fmt =
    Done (0, put_bytes 50 [120; 61; 45; 49; 50; 32; 111; 107; 0] demo_fmt).
Proof.
  apply (vsprintf_formats demo_fmt 50 10 [120; 61; 37; 100; 32; 37; 115] [VInt (-12); VStr 30]
    [AInt (-12); AStr [111; 107]] [120; 61; 45; 49; 50; 32; 111; 107]).
  - apply demo_fmt_at.
  - constructor; [simpl; lia|constructor; [apply demo_ok_at|constructor]].
  - reflexivity.
  - apply demo_owned; simpl; lia.
  - left. simpl. lia.
  - constructor; [exact I|constructor; [left; simpl; lia|constructor]].
Defined.

Lemma printf_prints_witness :
  exists m', printf (fun c w => Done (tt, w ++ [c])) 1000 10 [VInt (-12); VStr 30]
      (put_bytes 1000 (replicate 1024 0) demo_fmt, ([] : list Z)) =
    Done (0, (m', [120; 61; 45; 49; 50; 32; 111; 107])).
Proof.
  assert (forall q, q < 1000 -> put_bytes 1000 (replicate 1024 0) demo_fmt !! q = demo_fmt !! q) as Hlow.
  { intros q Hq. apply put_bytes_out. by left. }
  destruct (printf_prints (fun c w => Done (tt, w ++ [c])) (fun w c => w ++ [c]) (fun _ _ => eq_refl)
    (put_bytes 1000 (replicate 1024 0) demo_fmt) ([] : list Z) 1000 10 [120; 61; 37; 100; 32; 37; 115] [VInt (-12); VStr 30]
    [AInt (-12); AStr [111; 107]] [120; 61; 45; 49; 50; 32; 111; 107]) as (m' & HE & _).
  - eapply str_at_frame; [apply demo_fmt_at|]. intros q Hq. apply Hlow. simpl in Hq. lia.
  - constructor; [simpl; lia|constructor; [|constructor]]. eapply str_at_frame; [apply demo_ok_at|].
    intros q Hq. apply Hlow. simpl in Hq. lia.
  - reflexivity.
  - simpl. lia.
  - pose proof (put_bytes_at 1000 (replicate 1024 0) demo_fmt) as Hb. apply bytes_at_owned in Hb.
    rewrite length_replicate in Hb. exact Hb.
  - left. simpl. lia.
  - constructor; [exact I|constructor; [left; simpl; lia|constructor]].
  - exists m'. exact HE.
Defined.

Lemma itoa_atoi_roundtrip_witness :
  exists m', itoa 3 2147483647 (zeros 0 20) = Done (3, m') /\ atoi 3 m' = Done (2147483647, m').
Proof.
  destruct (itoa_atoi_roundtrip (zeros 0 20) 3 2147483647) as (m' & H1 & _ & H2 & _);
    [lia|apply zeros_owned; lia|].
  exists m'. split; [exact H1|exact H2].
Defined.

Lemma memmove_copies_witness :
  memmove 12 10 3 demo_fmt = Done (12, put_bytes 12 [120; 61; 37] demo_fmt).
Proof.
  apply (memmove_copies demo_fmt 12 10 [120; 61; 37]).
  - intros i x Hi. do 3 (destruct i as [|i]; [simpl in Hi; injection Hi as <-; by vm_compute|]).
    simpl in Hi. done.
  - repeat apply wf_put_bytes; try apply wf_mem_empty; vm_compute; repeat constructor; discriminate.
  - apply demo_owned; simpl; lia.
  - left. simpl. lia.
Defined.

Lemma strcmp_orders_witness :
  exists r, strcmp 30 31 demo_fmt = Done (r, demo_fmt) /\ (r <? 0) = false.
Proof.
  destruct (strcmp_orders demo_fmt 30 31 [111; 107] [107]) as (r & H1 & _ & H2).
  - apply demo_ok_at.
  - exact (proj2 (proj2 (str_at_inv _ _ _ demo_ok_at))).
  - exists r. split; [exact H1|exact H2].
Defined.

Lemma strncpy_bounded_witness :
  exists m', strncpy 50 10 4 demo_fmt = Done (50, m') /\ str_at m' 50 [120; 61; 37].
Proof.
  destruct (strncpy_bounded demo_fmt 50 10 [120; 61; 37; 100; 32; 37; 115] 4) as (m' & H1 & H2 & _).
  - apply demo_fmt_at.
  - lia.
  - apply demo_owned; lia.
  - left. simpl. lia.
  - exists m'. split; [exact H1|exact H2].
Defined.

Lemma strncmp_one_more_witness : strncmp 30 31 (Z.of_nat 0) demo_fmt = Done (4, demo_fmt).
Proof.
  apply (strncmp_one_more demo_fmt 30 31 [111; 107] [107] 0).
  - apply demo_ok_at.
  - exact (proj2 (proj2 (str_at_inv _ _ _ demo_ok_at))).
Defined.
