(* ===== verification/Mem.v ===== *)
(** * The kernel allocator: mem.c

    Free lists threaded through the free blocks themselves: one list per
    power-of-two size below a page, headed by a block that is never handed
    out, and a list of free pages, both in ascending order of addresses.  The
    table [Manager.PageArray] is a map from page index to its entry; reading
    or writing an entry that [allocpage] has not registered is a fault (the
    code prints a message and accesses the memory there).  The lock around the
    two entry points is left out. *)
From S2P Require Import Prelude Memory.

Definition PGSIZE : Z := 4096.
Definition BIGBIT : Z := 2147483648.   (* 0x80000000 *)
Definition PAGEPOS : Z := 12.          (* _log2(PGSIZE), set by mm_init *)

Record Page : Type := mkPage { start : Z; used : Z }.

Record heap : Type := mkHeap {
  hmem : mem;
  heap_top : Z;
  heap_end : Z;
  sizehead : gmap Z Z;
  pagehead : Z;
  PageArray : gmap Z Page;
  len : Z
}.

Definition hp (A : Type) : Type := M heap A.

Definition with_mem (s : heap) (m : mem) : heap :=
  mkHeap m (heap_top s) (heap_end s) (sizehead s) (pagehead s) (PageArray s) (len s).
Definition NEXT (p : Z) : hp Z := fun s =>
  match get_le 8 (hmem s) p with Some v => Done (v, s) | None => Fault end.
Definition SETNEXT (p np : Z) : hp unit := fun s =>
  match get_le 8 (hmem s) p with
  | Some _ => Done (tt, with_mem s (put_le 8 p np (hmem s)))
  | None => Fault
  end.
Definition set_pagehead (p : Z) : hp unit :=
  modify (fun s => mkHeap (hmem s) (heap_top s) (heap_end s) (sizehead s) p (PageArray s) (len s)).
Definition set_sizehead (pos p : Z) : hp unit :=
  modify (fun s => mkHeap (hmem s) (heap_top s) (heap_end s) (<[pos := p]> (sizehead s)) (pagehead s)
                          (PageArray s) (len s)).
Definition get_sizehead (pos : Z) : hp Z := fun s =>
  match sizehead s !! pos with Some p => Done (p, s) | None => Fault end.

Definition mem_sbrk (size : Z) : hp Z :=
  s <- get;;
  if heap_end s <? size + heap_top s then panic "no space in heap"
  else
    put (mkHeap (hmem s) (heap_top s + size) (heap_end s) (sizehead s) (pagehead s) (PageArray s) (len s));;;
    ret (heap_top s).

Fixpoint log2_loop (fuel : nat) (size pos : Z) : Z :=
  match fuel with
  | O => pos
  | S fuel => if 2 ^ pos <? size then log2_loop fuel size (pos + 1) else pos
  end.
(** [_log2]; sizes stay below 2^31. *)
Definition log2 (size : Z) : Z := log2_loop 31 size 0.

(** The address of the [i]-th block of a page cut in blocks of [2^pos]. *)
Definition NBP (bp pos i : Z) : Z := bp + 8 * (i * 2 ^ pos / 8).

Definition page_index (bp : Z) : hp Z := fun s =>
  match PageArray s !! 0 with
  | Some p0 => Done ((bp - start p0) / PGSIZE, s)
  | None => Fault
  end.
Definition getinfobybp (bp : Z) : hp Page :=
  index <- page_index bp;;
  fun s => match PageArray s !! index with Some p => Done (p, s) | None => Fault end.
Definition set_page (index : Z) (info : Page) : hp unit :=
  modify (fun s => mkHeap (hmem s) (heap_top s) (heap_end s) (sizehead s) (pagehead s)
                          (<[index := info]> (PageArray s)) (len s)).
Definition setinfobybp (bp : Z) (info : Page) : hp unit :=
  index <- page_index bp;;
  fun s => match PageArray s !! index with Some _ => set_page index info s | None => Fault end.
Definition istop (bp : Z) : hp bool :=
  index <- page_index bp;; gets (fun s => index =? len s - 1).

Definition allocpage (u : Z) : hp Z :=
  p <- mem_sbrk PGSIZE;;
  if p =? 0 then ret 0
  else
    modify (fun s => mkHeap (hmem s) (heap_top s) (heap_end s) (sizehead s) (pagehead s)
                            (<[len s := mkPage p u]> (PageArray s)) (len s + 1));;;
    ret p.

Definition getpage (u : Z) : hp Z :=
  pret <- gets pagehead;;
  if pret =? 0 then allocpage u
  else
    setinfobybp pret (mkPage pret u);;;
    n <- NEXT pret;; set_pagehead n;;; ret pret.

(** The loop that cuts a page: [k] links are left to write, from block [i]. *)
Fixpoint cut_page (k : nat) (p pos i : Z) : hp unit :=
  match k with
  | O => SETNEXT (NBP p pos i) 0
  | S k => SETNEXT (NBP p pos i) (NBP p pos (i + 1));;; cut_page k p pos (i + 1)
  end.

Definition acquireonepage (pos : Z) : hp Z :=
  p <- getpage (Z.lor 1 (2 ^ pos));;
  when (pos <? PAGEPOS) (cut_page (Z.to_nat (PGSIZE / 2 ^ pos - 1)) p pos 0);;;
  ret p.

Fixpoint init_sizes (k : nat) (i : Z) : hp unit :=
  match k with
  | O => ret tt
  | S k => p <- acquireonepage i;; set_sizehead i p;;; init_sizes k (i + 1)
  end.
(** [mm_init]; the table has 16 bytes per page of the heap. *)
Definition mm_init : hp unit :=
  s <- get;;
  mem_sbrk ((((heap_end s - heap_top s) / PGSIZE) + PGSIZE - 1) / PGSIZE * PGSIZE * 16);;;
  set_pagehead 0;;;
  init_sizes 9 3.

Definition smallfind (pos : Z) : hp Z :=
  h <- get_sizehead pos;;
  n <- NEXT h;;
  when (n =? 0) (p <- acquireonepage pos;; h <- get_sizehead pos;; SETNEXT h p);;;
  h <- get_sizehead pos;;
  pret <- NEXT h;;
  if negb (pret =? 0) then n <- NEXT pret;; SETNEXT h n;;; ret pret
  else panic "smallfind error".

(** The [pages - 1] iterations of [adjustpages]; it ends at the last page. *)
Fixpoint adjust_loop (k : nat) (pto : Z) : hp Z :=
  match k with
  | O => ret pto
  | S k => SETNEXT pto (pto + PGSIZE);;; setinfobybp pto (mkPage pto 0);;; adjust_loop k (pto + PGSIZE)
  end.
Definition adjustpages (pages pto : Z) : hp Z :=
  pto <- adjust_loop (Z.to_nat (pages - 1)) pto;;
  SETNEXT pto 0;;; setinfobybp pto (mkPage pto 0);;; ret pto.

(** [allocpage] [k] times. *)
Fixpoint alloc_more (k : nat) : hp unit :=
  match k with O => ret tt | S k => allocpage (Z.lor BIGBIT 1);;; alloc_more k end.

(** The search for contiguous pages: the final [count], [ret], [pret], [lp]
    and [p]. *)
Fixpoint find_run (fuel : nat) (pages count ret_ pret p lp llp : Z) : hp (Z * Z * Z * Z * Z) :=
  match fuel with
  | O => nofuel
  | S fuel =>
    if p =? 0 then ret (count, ret_, pret, lp, p)
    else if lp + PGSIZE =? p then
      let '(ret_, pret) := if count =? 1 then (lp, llp) else (ret_, pret) in
      let count := count + 1 in
      if pages =? count then ret (count, ret_, pret, lp, p)
      else n <- NEXT p;; find_run fuel pages count ret_ pret n p lp
    else n <- NEXT p;; find_run fuel pages 1 p lp n p lp
  end.

Definition bigfind (pages : Z) : hp Z :=
  ph <- gets pagehead;;
  r <- (if ph =? 0 then
          r <- allocpage (Z.lor pages BIGBIT);;
          alloc_more (Z.to_nat (pages - 1));;; ret r
        else
          p <- NEXT ph;;
          fuel <- gets (fun s => Z.to_nat (len s) + 2)%nat;;
          '(count, r, pret, lp, p) <- find_run fuel pages 1 ph 0 p ph 0;;
          if count =? pages then
            n <- NEXT p;;
            (if r =? ph then set_pagehead n else SETNEXT pret n);;; ret r
          else
            top <- istop lp;;
            if top : bool then
              alloc_more (Z.to_nat (pages - count));;;
              (if r =? ph then set_pagehead 0 else SETNEXT pret 0);;; ret r
            else
              r <- allocpage (Z.lor pages BIGBIT);;
              alloc_more (Z.to_nat pages);;;
              when (negb (pret =? 0)) (SETNEXT pret 0);;; ret r);;
  when (negb (r =? 0)) (setinfobybp r (mkPage r (Z.lor BIGBIT pages)));;; ret r.

Definition mm_malloc (size : Z) : hp Z :=
  let pos := if 3 <? log2 size then log2 size else 3 in
  if 2 ^ 24 <? size then ret 0
  else if pos <? PAGEPOS then smallfind pos
  else if pos =? PAGEPOS then getpage (Z.lor 1 (2 ^ PAGEPOS))
  else bigfind ((size + PGSIZE - 1) / PGSIZE).

(** The place of [bp] in an ascending list from [p]: the nodes before and
    after it. *)
Fixpoint find_place (fuel : nat) (bp p lp : Z) : hp (Z * Z) :=
  match fuel with
  | O => nofuel
  | S fuel =>
    if negb (p =? 0) && (p <? bp) then n <- NEXT p;; find_place fuel bp n p
    else ret (lp, p)
  end.

Definition place_fuel : hp nat := gets (fun s => S (S (size (hmem s)))).

Definition link_between (lp bp p : Z) : hp unit :=
  if negb (p =? 0) && (bp <? p) then SETNEXT lp bp;;; SETNEXT bp p
  else when (p =? 0) (SETNEXT lp bp;;; SETNEXT bp 0).

Definition mm_free (bp : Z) : hp unit :=
  info <- getinfobybp bp;;
  if Z.land (used info) BIGBIT =? 0 then
    if Z.land (used info) 1 =? 0 then ret tt     (* prints "free error" *)
    else
      let pos := log2 (Z.ldiff (used info) 1) in
      fuel <- place_fuel;;
      if pos <? PAGEPOS then
        h <- get_sizehead pos;;
        '(lp, p) <- find_place fuel bp h 0;; link_between lp bp p
      else
        p <- gets pagehead;;
        (if p =? 0 then set_pagehead bp;;; SETNEXT bp 0
         else if p <? bp then
           '(lp, p) <- find_place fuel bp p 0;; link_between lp bp p
         else SETNEXT bp p;;; set_pagehead bp);;;
        setinfobybp bp (mkPage bp 0)
  else
    let pages := Z.ldiff (used info) BIGBIT in
    pend <- adjustpages pages bp;;
    p <- gets pagehead;;
    if p =? 0 then set_pagehead bp;;; SETNEXT pend 0
    else if p <? bp then
      fuel <- place_fuel;;
      '(lp, p) <- find_place fuel bp p 0;;
      SETNEXT lp bp;;; SETNEXT pend p
    else SETNEXT pend p;;; set_pagehead bp.

(** [mem_init]: the heap between [end] of the kernel image and MEMSTOP. *)
Definition mem_init (end_ memstop : Z) : hp unit :=
  modify (fun s => mkHeap (hmem s) ((end_ + PGSIZE - 1) / PGSIZE * PGSIZE) memstop
                          (sizehead s) (pagehead s) (PageArray s) 0);;;
  mm_init.
Definition mem_malloc (size : Z) : hp Z := mm_malloc size.
Definition mem_free (ptr : Z) : hp unit := mm_free ptr.

(** ** Free lists *)

(** The blocks [l], linked in this order from [p], lead to [q]. *)
Fixpoint seg (m : mem) (p : Z) (l : list Z) (q : Z) : Prop :=
  match l with
  | [] => p = q
  | x :: l => p = x /\ 0 < x /\ exists n, get_le 8 m x = Some n /\ seg m n l q
  end.

(** The list [l] starts at [p] and ends in NULL. *)
Definition chain (m : mem) (p : Z) (l : list Z) : Prop := seg m p l 0.

(** Ascending, with room for a pointer in every block. *)
Fixpoint spaced (l : list Z) : Prop :=
  match l with
  | [] => True
  | x :: l => Forall (fun y => x + 8 <= y) l /\ spaced l
  end.

Fixpoint insert_addr (b : Z) (l : list Z) : list Z :=
  match l with
  | [] => [b]
  | x :: l' => if x <? b then x :: insert_addr b l' else b :: l
  end.

(** [b] is at least a pointer away from every block of [l]. *)
Definition apart (b : Z) (l : list Z) : Prop := Forall (fun x => x + 8 <= b \/ b + 8 <= x) l.
