(* ===== verification/MemProofs.v ===== *)
(** * Proofs about the allocator *)
From S2P Require Import Prelude Memory Mem.

(** ** Free lists *)

Lemma seg_frame m m' p l q :
  seg m p l q -> (forall x, x ∈ l -> get_le 8 m' x = get_le 8 m x) -> seg m' p l q.
Proof.
  revert p. induction l as [|x l IH]; intros p; simpl; [done|].
  intros (-> & Hx & n & Hn & Hl) Hf. split; [done|]. split; [done|]. exists n.
  split; [rewrite Hf; [done|by left]|]. apply IH; [done|]. intros y Hy. apply Hf. by right.
Qed.

Lemma seg_app m p l1 l2 q : seg m p (l1 ++ l2) q <-> exists r, seg m p l1 r /\ seg m r l2 q.
Proof.
  revert p. induction l1 as [|x l1 IH]; intros p; simpl.
  - split; [eauto|]. by intros (r & -> & ?).
  - split.
    + intros (-> & Hx & n & Hn & (r & H1 & H2)%IH). exists r. split; [|done].
      split; [done|]. split; [done|]. eauto.
    + intros (r & (-> & Hx & n & Hn & H1) & H2). split; [done|]. split; [done|]. exists n.
      split; [done|]. apply IH. eauto.
Qed.

Lemma seg_head m p l q : seg m p l q -> p = default q (head l).
Proof. destruct l; simpl; [done|]. by intros []. Qed.

Lemma seg_pos m p l q x : seg m p l q -> x ∈ l -> 0 < x /\ is_Some (get_le 8 m x).
Proof.
  revert p. induction l as [|y l IH]; intros p; simpl; [by intros _ ?%elem_of_nil|].
  intros (-> & Hy & n & Hn & Hl) [->|Hx]%elem_of_cons; [eauto|by eapply IH].
Qed.

Lemma spaced_cons x l y : spaced (x :: l) -> y ∈ l -> x + 8 <= y.
Proof. intros [H _] Hy. by eapply Forall_forall in H. Qed.

Lemma spaced_app l1 l2 :
  spaced (l1 ++ l2) -> spaced l1 /\ spaced l2 /\ (forall x y, x ∈ l1 -> y ∈ l2 -> x + 8 <= y).
Proof.
  induction l1 as [|z l1 IH]; simpl; [intros H; split_and!; [done|done|by intros x y ?%elem_of_nil]|].
  intros [H1 H2].
  apply IH in H2 as (H2 & H3 & H4). apply Forall_app in H1 as [H1 H5].
  split; [by split|]. split; [done|]. intros x y [->|Hx]%elem_of_cons Hy; [|by apply H4].
  by eapply Forall_forall in H5.
Qed.

Lemma spaced_size m l : (forall x, x ∈ l -> is_Some (get_le 8 m x)) -> spaced l -> (length l <= size m)%nat.
Proof.
  intros Hm Hs. assert (NoDup l) as Hnd.
  { clear Hm. induction l as [|x l IH]; [constructor|]. destruct Hs as [H1 H2].
    apply NoDup_cons. split; [|by apply IH]. intros Hx. eapply Forall_forall in H1; [|exact Hx]. lia. }
  rewrite <- size_dom. rewrite <- (size_list_to_set (C := gset Z) l) by done.
  apply subseteq_size. intros x Hx%elem_of_list_to_set. apply elem_of_dom.
  specialize (Hm x Hx). apply get_le_owned in Hm. specialize (Hm 0). rewrite Z.add_0_r in Hm.
  apply Hm. lia.
Qed.

(** The place of an address in an ascending list. *)
Lemma insert_split b l :
  spaced l -> exists l1 l2, l = l1 ++ l2 /\ Forall (fun x => x < b) l1 /\
    Forall (fun x => b <= x) l2 /\ insert_addr b l = l1 ++ b :: l2.
Proof.
  induction l as [|x l IH]; intros Hs; simpl; [by exists [], []|].
  destruct (Z.ltb_spec x b) as [Hx|Hx].
  - destruct IH as (l1 & l2 & -> & H1 & H2 & ->); [apply Hs|].
    exists (x :: l1), l2. split_and!; [done|by constructor|done|done].
  - exists [], (x :: l). split_and!; [done|done| |done]. constructor; [done|].
    apply Forall_forall. intros y Hy. pose proof (spaced_cons _ _ _ Hs Hy). lia.
Qed.

Lemma insert_spaced b l : spaced l -> apart b l -> spaced (insert_addr b l).
Proof.
  induction l as [|x l IH]; simpl; intros Hs Ha; [by repeat constructor|].
  apply Forall_cons in Ha as [Hx Ha]. destruct (Z.ltb_spec x b) as [Hlt|Hge].
  - destruct Hs as [H1 H2]. split; [|by apply IH].
    assert (forall y, y ∈ insert_addr b l -> y = b \/ y ∈ l) as Hin.
    { clear. induction l as [|z l IH]; simpl; [set_solver|]. destruct (z <? b); set_solver. }
    apply Forall_forall. intros y [->|Hy]%Hin; [lia|by eapply Forall_forall in H1].
  - split; [|done]. constructor; [lia|]. apply Forall_forall. intros y Hy.
    pose proof (spaced_cons _ _ _ Hs Hy). lia.
Qed.

Lemma NEXT_bind {B} p n s (K : Z -> hp B) :
  get_le 8 (hmem s) p = Some n -> bind (NEXT p) K s = K n s.
Proof. intros H. unfold bind, NEXT. by rewrite H. Qed.

Lemma SETNEXT_done p np s :
  is_Some (get_le 8 (hmem s) p) ->
  SETNEXT p np s = Done (tt, with_mem s (put_le 8 p np (hmem s))).
Proof. intros [n H]. unfold SETNEXT. by rewrite H. Qed.

Lemma SETNEXT_bind {B} p np s (K : unit -> hp B) :
  is_Some (get_le 8 (hmem s) p) ->
  bind (SETNEXT p np) K s = K tt (with_mem s (put_le 8 p np (hmem s))).
Proof. intros H. by rewrite (bind_done _ _ _ _ _ (SETNEXT_done p np s H)). Qed.

Lemma find_place_spec b l1 l2 : forall fuel p lp s,
  seg (hmem s) p (l1 ++ l2) 0 -> Forall (fun x => x < b) l1 -> Forall (fun x => b <= x) l2 ->
  (length l1 < fuel)%nat ->
  find_place fuel b p lp s = Done ((default lp (last l1), default 0 (head l2)), s).
Proof.
  induction l1 as [|x l1 IH]; intros [|fuel] p lp s Hs H1 H2 Hf; try (simpl in Hf; lia); cbn [find_place].
  - cbn [app] in Hs. pose proof (seg_head _ _ _ _ Hs) as ->. destruct l2 as [|y l2]; simpl; [done|].
    apply Forall_cons in H2 as [H2 _]. rewrite (proj2 (Z.ltb_ge y b)) by lia.
    by rewrite andb_false_r.
  - destruct Hs as (-> & Hx & n & Hn & Hs). apply Forall_cons in H1 as [H1 H1'].
    rewrite (proj2 (Z.eqb_neq x 0)), (proj2 (Z.ltb_lt x b)) by lia. cbn [negb andb].
    rewrite (NEXT_bind _ _ _ _ Hn). rewrite (IH fuel n x s Hs H1' H2) by (simpl in Hf; lia).
    rewrite last_cons. by destruct (last l1).
Qed.

(** Linking [b] between the last block of [l1] and the first of [l2]. *)
Lemma seg_insert m p l1 x l2 b q :
  seg m p (l1 ++ x :: l2) q -> spaced (l1 ++ x :: l2) -> apart b (l1 ++ x :: l2) -> 0 < b ->
  (forall y, y ∈ l1 ++ x :: l2 -> 0 <= y < 2 ^ 64) -> b < 2 ^ 64 -> 0 <= q < 2 ^ 64 ->
  seg (put_le 8 b (default q (head l2)) (put_le 8 x b m)) p (l1 ++ x :: b :: l2) q.
Proof.
  intros Hs Hsp Ha Hb Hrange Hb64 Hq. apply seg_app in Hs as (r & H1 & (-> & Hx & n & Hn & H2)).
  apply Forall_app in Ha as [Ha1 Ha]. apply Forall_cons in Ha as [Hax Ha2].
  destruct (spaced_app l1 (x :: l2) Hsp) as (_ & Hsp2 & Hlt).
  set (m1 := put_le 8 x b m). set (m2 := put_le 8 b (default q (head l2)) m1).
  assert (forall y, y ∈ l1 \/ y ∈ l2 -> get_le 8 m2 y = get_le 8 m y) as Hsame.
  { intros y Hy. unfold m2, m1. rewrite !get_put_other; [done| |].
    - destruct Hy as [Hy|Hy]; [specialize (Hlt y x Hy ltac:(by left)); lia|].
      pose proof (spaced_cons _ _ _ Hsp2 Hy). lia.
    - destruct Hy as [Hy|Hy]; [eapply Forall_forall in Ha1|eapply Forall_forall in Ha2]; try exact Hy; lia. }
  apply seg_app. exists x. split; [eapply seg_frame; [exact H1|]; intros y Hy; apply Hsame; by left|].
  split; [done|]. split; [done|]. exists b. split.
  - unfold m2, m1. rewrite get_put_other by (simpl; lia). rewrite get_put_same. f_equal.
    apply Z.mod_small. simpl. lia.
  - split; [done|]. split; [done|]. exists (default q (head l2)). split.
    + unfold m2. rewrite get_put_same. f_equal. apply Z.mod_small.
      change (256 ^ Z.of_nat 8) with (2 ^ 64). destruct l2 as [|y l2]; simpl; [done|].
      apply Hrange. rewrite elem_of_app. right. right. by left.
    + rewrite <- (seg_head _ _ _ _ H2). eapply seg_frame; [exact H2|]. intros y Hy. apply Hsame. by right.
Qed.

(** Addresses of blocks: nonzero 64-bit numbers. *)
Definition addrs (l : list Z) : Prop := Forall (fun x => 0 < x < 2 ^ 64) l.

Lemma link_between_spec s x b p :
  is_Some (get_le 8 (hmem s) x) -> is_Some (get_le 8 (hmem s) b) -> (x + 8 <= b \/ b + 8 <= x) ->
  p = 0 \/ 0 < b < p ->
  link_between x b p s = Done (tt, with_mem s (put_le 8 b p (put_le 8 x b (hmem s)))).
Proof.
  intros Hx Hb Hxb Hp. unfold link_between.
  assert (is_Some (get_le 8 (put_le 8 x b (hmem s)) b)) as Hb1.
  { destruct Hb as [v Hv]. exists v. by rewrite get_put_other by (simpl; lia). }
  pose proof (SETNEXT_done x b s Hx) as Hset.
  destruct Hp as [->|Hp].
  - cbn [Z.eqb negb andb when]. rewrite (bind_done _ _ _ _ _ Hset). by rewrite SETNEXT_done.
  - rewrite (proj2 (Z.eqb_neq p 0)), (proj2 (Z.ltb_lt b p)) by lia. cbn [negb andb].
    rewrite (bind_done _ _ _ _ _ Hset). by rewrite SETNEXT_done.
Qed.

(** Two stores to block headers leave every word away from the blocks. *)
Lemma get_put2_away m x b v w l q k :
  (forall z, z ∈ b :: l -> z + 8 <= q \/ q + Z.of_nat k <= z) -> x ∈ l ->
  get_le k (put_le 8 b v (put_le 8 x w m)) q = get_le k m q.
Proof.
  intros Hz Hx. assert (b + 8 <= q \/ q + Z.of_nat k <= b) as Hb by (apply Hz; by left).
  assert (x + 8 <= q \/ q + Z.of_nat k <= x) as Hx' by (apply Hz; by right).
  rewrite !get_put_other; [done|simpl; lia..].
Qed.

(** A block goes to its place in an ascending list that starts below it. *)
Lemma insert_block s h l b :
  chain (hmem s) h (h :: l) -> spaced (h :: l) -> addrs (b :: h :: l) -> apart b (h :: l) -> h < b ->
  is_Some (get_le 8 (hmem s) b) ->
  exists m', bind (find_place (S (S (size (hmem s)))) b h 0) (fun r => let '(lp, p) := r in link_between lp b p) s
      = Done (tt, with_mem s m') /\
    chain m' h (insert_addr b (h :: l)) /\
    (forall k q, (forall x, x ∈ b :: h :: l -> x + 8 <= q \/ q + Z.of_nat k <= x) ->
       get_le k m' q = get_le k (hmem s) q).
Proof.
  intros Hc Hs Ha Hap Hlt Hb. apply Forall_cons in Ha as [Hb64 Ha].
  destruct (insert_split b (h :: l) Hs) as (l1 & l2 & El & H1 & H2 & ->).
  destruct l1 as [|z l1]; [destruct l2 as [|y l2]; [done|]; injection El as -> ->;
    apply Forall_cons in H2 as [H2 _]; lia|].
  injection El as <- ->.
  destruct (exists_last (l := h :: l1) ltac:(done)) as (l0 & x & E0).
  assert ((h :: l1 ++ l2) = l0 ++ x :: l2) as Eall
    by (change (h :: l1 ++ l2) with ((h :: l1) ++ l2); rewrite E0, <- app_assoc; done).
  assert (length (h :: l1) < S (S (size (hmem s))))%nat as Hfuel.
  { pose proof (spaced_size (hmem s) (h :: l1 ++ l2)) as Hsz.
    assert (length (h :: l1 ++ l2) <= size (hmem s))%nat; [|simpl in *; rewrite length_app in *; lia].
    apply Hsz; [|done]. intros y Hy. by eapply seg_pos. }
  erewrite bind_done by (apply (find_place_spec b (h :: l1) l2); [exact Hc|done|done|done]).
  change ((h :: l1) ++ b :: l2) with (h :: (l1 ++ b :: l2)).
  change (h :: (l1 ++ b :: l2)) with ((h :: l1) ++ b :: l2).
  rewrite E0, last_snoc, <- app_assoc. cbn [default from_option id app].
  rewrite Eall in *.
  assert (x ∈ l0 ++ x :: l2) as Hxin by (rewrite elem_of_app; right; by left).
  assert (is_Some (get_le 8 (hmem s) x)) as Hx by (by eapply seg_pos).
  assert (x + 8 <= b \/ b + 8 <= x) as Hxb by (by eapply Forall_forall in Hap).
  exists (put_le 8 b (default 0 (head l2)) (put_le 8 x b (hmem s))). split; [|split].
  - apply link_between_spec; [done..|]. destruct l2 as [|y l2]; simpl; [by left|right].
    apply Forall_cons in H2 as [H2 _].
    assert (y + 8 <= b \/ b + 8 <= y); [|lia].
    eapply Forall_forall in Hap; [exact Hap|]. rewrite elem_of_app. right. right. by left.
  - apply seg_insert; try done; try lia. intros y Hy. eapply Forall_forall in Ha; [|exact Hy]. lia.
  - intros k q Hq. by eapply get_put2_away.
Qed.

(** ** Sizes *)

Lemma log2_loop_spec size : forall fuel pos,
  0 <= pos -> (pos = 0 \/ 2 ^ (pos - 1) < size) -> size <= 2 ^ (pos + Z.of_nat fuel) ->
  size <= 2 ^ log2_loop fuel size pos /\ 0 <= log2_loop fuel size pos /\
  (log2_loop fuel size pos = 0 \/ 2 ^ (log2_loop fuel size pos - 1) < size).
Proof.
  induction fuel as [|fuel IH]; intros pos Hp Hlo Hhi; cbn [log2_loop].
  - rewrite Z.add_0_r in Hhi. done.
  - destruct (Z.ltb_spec (2 ^ pos) size) as [Hlt|Hge]; [|done]. apply IH; [lia| |].
    + right. by replace (pos + 1 - 1) with pos by lia.
    + by replace (pos + 1 + Z.of_nat fuel) with (pos + Z.of_nat (S fuel)) by lia.
Qed.

Lemma log2_spec size :
  size <= 2 ^ 31 -> size <= 2 ^ log2 size /\ 0 <= log2 size /\ (log2 size = 0 \/ 2 ^ (log2 size - 1) < size).
Proof. intros H. apply log2_loop_spec; [lia|by left|done]. Qed.

(** The position of the size class that serves [size]. *)
Definition class_of (size : Z) : Z := Z.max 3 (log2 size).

Lemma class_of_small size : 0 < size <= 2048 -> 3 <= class_of size < PAGEPOS /\ size <= 2 ^ class_of size.
Proof.
  intros Hs. destruct (log2_spec size ltac:(lia)) as (H1 & H0 & H2).
  assert (log2 size <= 11).
  { destruct H2 as [->|H2]; [lia|]. destruct (Z.le_gt_cases (log2 size) 11); [done|].
    pose proof (Z.pow_le_mono_r 2 11 (log2 size - 1)). lia. }
  split; [unfold class_of, PAGEPOS; lia|].
  etransitivity; [exact H1|]. apply Z.pow_le_mono_r; unfold class_of; lia.
Qed.

Lemma mm_malloc_class size s : 0 < size <= 2048 -> mm_malloc size s = smallfind (class_of size) s.
Proof.
  intros Hs. destruct (class_of_small size Hs) as [Hc _]. unfold mm_malloc.
  replace (if 3 <? log2 size then log2 size else 3) with (class_of size)
    by (unfold class_of; destruct (Z.ltb_spec 3 (log2 size)); lia).
  cbv zeta. rewrite (proj2 (Z.ltb_ge (2 ^ 24) size)), (proj2 (Z.ltb_lt (class_of size) PAGEPOS)) by lia.
  done.
Qed.

(** ** A size class *)

Definition small_list (s : heap) (pos h : Z) (l : list Z) : Prop :=
  sizehead s !! pos = Some h /\ chain (hmem s) h (h :: l) /\ spaced (h :: l) /\ addrs (h :: l).

Lemma get_sizehead_bind {B} pos h s (K : Z -> hp B) :
  sizehead s !! pos = Some h -> bind (get_sizehead pos) K s = K h s.
Proof. intros H. unfold bind, get_sizehead. by rewrite H. Qed.

Lemma seg_cons_next m x l q : seg m x (x :: l) q -> get_le 8 m x = Some (default q (head l)).
Proof. intros (_ & _ & n & Hn & Hl). by rewrite <- (seg_head _ _ _ _ Hl). Qed.

Lemma chain_pop m h b l :
  chain m h (h :: b :: l) -> spaced (h :: b :: l) -> addrs (h :: b :: l) ->
  chain (put_le 8 h (default 0 (head l)) m) h (h :: l).
Proof.
  intros Hc Hs Ha. destruct Hc as (_ & Hh & n & Hn & (-> & Hb & n' & Hn' & Hl)).
  split; [done|]. split; [done|]. exists (default 0 (head l)). split.
  - rewrite get_put_same. f_equal. apply Z.mod_small. change (256 ^ Z.of_nat 8) with (2 ^ 64).
    destruct l as [|y l]; simpl; [lia|]. apply Forall_cons in Ha as [_ [_ [Hy _]%Forall_cons]%Forall_cons]. lia.
  - rewrite <- (seg_head _ _ _ _ Hl). eapply seg_frame; [exact Hl|]. intros x Hx.
    apply get_put_other. pose proof (spaced_cons _ _ x Hs ltac:(by right)). simpl. lia.
Qed.

Lemma spaced_drop h b l : spaced (h :: b :: l) -> spaced (h :: l).
Proof. intros ([_ H1]%Forall_cons & _ & H2). by split. Qed.

Lemma addrs_drop h b l : addrs (h :: b :: l) -> addrs (h :: l).
Proof. unfold addrs. rewrite !Forall_cons. tauto. Qed.

Lemma smallfind_pop s pos h b l :
  small_list s pos h (b :: l) ->
  let s' := with_mem s (put_le 8 h (default 0 (head l)) (hmem s)) in
  smallfind pos s = Done (b, s') /\ small_list s' pos h l.
Proof.
  intros (Hh & Hc & Hs & Ha) s'. unfold chain in Hc. pose proof (seg_cons_next _ _ _ _ Hc) as Hn. simpl in Hn.
  assert (0 < b) as Hb by (unfold addrs in Ha; rewrite !Forall_cons in Ha; lia).
  assert (get_le 8 (hmem s) b = Some (default 0 (head l))) as Hnb.
  { destruct Hc as (_ & _ & n & Hn' & Hl). pose proof (seg_head _ _ _ _ Hl) as ->.
    by apply seg_cons_next in Hl. }
  split.
  - unfold smallfind. rewrite (get_sizehead_bind _ _ _ _ Hh), (NEXT_bind _ _ _ _ Hn).
    rewrite (proj2 (Z.eqb_neq b 0)) by lia. cbn [when]. rewrite bind_ret.
    rewrite (get_sizehead_bind _ _ _ _ Hh), (NEXT_bind _ _ _ _ Hn).
    rewrite (proj2 (Z.eqb_neq b 0)) by lia. cbn [negb].
    rewrite (NEXT_bind _ _ _ _ Hnb).
    by rewrite SETNEXT_bind by eauto.
  - split; [done|]. split; [by eapply chain_pop|]. split; [by eapply spaced_drop|by eapply addrs_drop].
Qed.

(** ** Cutting a page into blocks *)

(** The [k] blocks of [2^pos] bytes from block [i] of page [p]. *)
Fixpoint blocks (p pos i : Z) (k : nat) : list Z :=
  match k with
  | O => []
  | S k => p + i * 2 ^ pos :: blocks p pos (i + 1) k
  end.

Lemma NBP_blocks p pos i : 3 <= pos -> NBP p pos i = p + i * 2 ^ pos.
Proof.
  intros H. unfold NBP. replace (2 ^ pos) with (2 ^ (pos - 3) * 8).
  - rewrite Z.mul_assoc, Z.div_mul by lia. lia.
  - change 8 with (2 ^ 3). rewrite <- Z.pow_add_r by lia. f_equal. lia.
Qed.

Lemma pow_ge_8 pos : 3 <= pos -> 8 <= 2 ^ pos.
Proof. intros H. change 8 with (2 ^ 3). by apply Z.pow_le_mono_r. Qed.

Lemma blocks_range p pos i k x :
  3 <= pos -> x ∈ blocks p pos i k -> p + i * 2 ^ pos <= x /\ x + 2 ^ pos <= p + (i + Z.of_nat k) * 2 ^ pos.
Proof.
  intros Hpos. pose proof (pow_ge_8 pos Hpos) as Hp8. revert i.
  induction k as [|k IH]; intros i; simpl blocks; [by intros ?%elem_of_nil|].
  intros [->|Hx]%elem_of_cons; [nia|]. apply IH in Hx. nia.
Qed.

Lemma blocks_spaced p pos i k : 3 <= pos -> spaced (blocks p pos i k).
Proof.
  intros Hpos. pose proof (pow_ge_8 pos Hpos) as Hp8. revert i.
  induction k as [|k IH]; intros i; simpl; [done|]. split; [|apply IH].
  apply Forall_forall. intros x Hx%blocks_range; [nia|done].
Qed.

Lemma owned_word m a n b k : owned m a n -> a <= b -> b + Z.of_nat k <= a + n -> is_Some (get_le k m b).
Proof.
  intros H Hb Hk. apply get_le_owned. intros i Hi.
  replace (b + i) with (a + (b - a + i)) by lia. apply H. lia.
Qed.

Lemma owned_put_le m a n k p v : owned m a n -> owned (put_le k p v m) a n.
Proof.
  revert p v m. induction k as [|k IH]; intros p v m H; simpl; [done|].
  apply IH. by apply owned_insert.
Qed.

Lemma cut_page_spec p pos : 3 <= pos -> 0 < p -> forall k i s,
  0 <= i -> p + (i + Z.of_nat k + 1) * 2 ^ pos <= 2 ^ 64 ->
  owned (hmem s) (p + i * 2 ^ pos) ((Z.of_nat k + 1) * 2 ^ pos) ->
  exists m', cut_page k p pos i s = Done (tt, with_mem s m') /\
    seg m' (p + i * 2 ^ pos) (blocks p pos i (S k)) 0 /\
    (forall j q, q + Z.of_nat j <= p + i * 2 ^ pos \/ p + (i + Z.of_nat k + 1) * 2 ^ pos <= q ->
       get_le j m' q = get_le j (hmem s) q).
Proof.
  intros Hpos Hp. pose proof (pow_ge_8 pos Hpos) as Hp8.
  induction k as [|k IH]; intros i s Hi Hb Ho; cbn [cut_page]; rewrite NBP_blocks by done.
  - rewrite SETNEXT_done by (eapply owned_word; [exact Ho|lia..]). eexists. split; [done|]. split.
    + cbn [blocks seg hmem with_mem]. split; [done|]. split; [nia|]. exists 0. by rewrite get_put_same.
    + intros j q Hq. apply get_put_other. simpl. nia.
  - rewrite SETNEXT_bind by (eapply owned_word; [exact Ho|nia..]).
    set (s1 := with_mem s _).
    destruct (IH (i + 1) s1) as (m' & -> & Hseg & Hfr); [lia|nia| |].
    { apply owned_put_le. intros j Hj. replace (p + (i + 1) * 2 ^ pos + j) with (p + i * 2 ^ pos + (2 ^ pos + j)) by lia.
      apply Ho. nia. }
    exists m'. split; [done|]. split.
    + simpl blocks. split; [done|]. split; [nia|]. exists (p + (i + 1) * 2 ^ pos). split; [|exact Hseg].
      rewrite Hfr by (simpl; nia). unfold s1. cbn [hmem with_mem]. rewrite get_put_same. f_equal.
      rewrite NBP_blocks by done. apply Z.mod_small. change (256 ^ Z.of_nat 8) with (2 ^ 64). nia.
    + intros j q Hq. rewrite Hfr by nia. apply get_put_other. simpl. nia.
Qed.

(** ** Pages *)

Definition page_idx (p0 : Page) (b : Z) : Z := (b - start p0) / PGSIZE.

Lemma page_index_bind {B} p0 b s (K : Z -> hp B) :
  PageArray s !! 0 = Some p0 -> bind (page_index b) K s = K (page_idx p0 b) s.
Proof. intros H. unfold bind, page_index. by rewrite H. Qed.

Definition with_page (s : heap) (i : Z) (info : Page) : heap :=
  mkHeap (hmem s) (heap_top s) (heap_end s) (sizehead s) (pagehead s) (<[i := info]> (PageArray s)) (len s).
Definition with_pagehead (s : heap) (p : Z) : heap :=
  mkHeap (hmem s) (heap_top s) (heap_end s) (sizehead s) p (PageArray s) (len s).

Lemma setinfobybp_done p0 b info s :
  PageArray s !! 0 = Some p0 -> is_Some (PageArray s !! page_idx p0 b) ->
  setinfobybp b info s = Done (tt, with_page s (page_idx p0 b) info).
Proof. intros H [x Hx]. unfold setinfobybp. rewrite (page_index_bind p0) by done. by rewrite Hx. Qed.

Lemma getinfobybp_done p0 b info s :
  PageArray s !! 0 = Some p0 -> PageArray s !! page_idx p0 b = Some info -> getinfobybp b s = Done (info, s).
Proof. intros H H'. unfold getinfobybp. rewrite (page_index_bind p0) by done. by rewrite H'. Qed.

(** A page comes off the list of free pages, else off the top of the heap. *)
Lemma getpage_list s p l u p0 :
  chain (hmem s) (pagehead s) (p :: l) -> PageArray s !! 0 = Some p0 -> is_Some (PageArray s !! page_idx p0 p) ->
  getpage u s = Done (p, with_pagehead (with_page s (page_idx p0 p) (mkPage p u)) (default 0 (head l))).
Proof.
  intros Hc H0 Hreg. unfold chain in Hc. destruct Hc as (Hp & Hpos & n & Hn & Hl).
  pose proof (seg_head _ _ _ _ Hl) as ->. unfold getpage. rewrite bind_gets, Hp.
  rewrite (proj2 (Z.eqb_neq p 0)) by lia.
  rewrite (bind_done _ _ _ _ _ (setinfobybp_done p0 p _ s H0 Hreg)). by rewrite (NEXT_bind _ (default 0 (head l))).
Qed.

Definition grown (s : heap) (u : Z) : heap :=
  mkHeap (hmem s) (heap_top s + PGSIZE) (heap_end s) (sizehead s) (pagehead s)
         (<[len s := mkPage (heap_top s) u]> (PageArray s)) (len s + 1).

Lemma mem_sbrk_spec n s :
  mem_sbrk n s = if heap_end s <? n + heap_top s then Panic "no space in heap"
    else Done (heap_top s, mkHeap (hmem s) (heap_top s + n) (heap_end s) (sizehead s) (pagehead s)
                                  (PageArray s) (len s)).
Proof. unfold mem_sbrk, bind, get. by destruct (heap_end s <? n + heap_top s). Qed.

Lemma allocpage_done s u :
  0 < heap_top s -> heap_top s + PGSIZE <= heap_end s -> allocpage u s = Done (heap_top s, grown s u).
Proof.
  intros Ht He. pose proof (mem_sbrk_spec PGSIZE s) as Hs.
  rewrite (proj2 (Z.ltb_ge (heap_end s) (PGSIZE + heap_top s))) in Hs by lia.
  unfold allocpage. rewrite (bind_done _ _ _ _ _ Hs). rewrite (proj2 (Z.eqb_neq (heap_top s) 0)) by lia. done.
Qed.

Lemma getpage_top s u :
  pagehead s = 0 -> 0 < heap_top s -> heap_top s + PGSIZE <= heap_end s ->
  getpage u s = Done (heap_top s, grown s u).
Proof. intros Hp Ht He. unfold getpage. rewrite bind_gets, Hp. by apply allocpage_done. Qed.

Lemma getpage_no_space s u :
  pagehead s = 0 -> heap_end s < heap_top s + PGSIZE -> getpage u s = Panic "no space in heap".
Proof.
  intros Hp He. unfold getpage. rewrite bind_gets, Hp.
  pose proof (mem_sbrk_spec PGSIZE s) as Hs.
  rewrite (proj2 (Z.ltb_lt (heap_end s) (PGSIZE + heap_top s))) in Hs by lia.
  exact (bind_panic _ _ _ _ Hs).
Qed.

(** *** Refilling a size class *)

Lemma acquireonepage_cuts s pos p s1 :
  3 <= pos < PAGEPOS -> getpage (Z.lor 1 (2 ^ pos)) s = Done (p, s1) ->
  0 < p -> p + PGSIZE <= 2 ^ 64 -> owned (hmem s1) p PGSIZE ->
  exists m', acquireonepage pos s = Done (p, with_mem s1 m') /\
    chain m' p (blocks p pos 0 (Z.to_nat (PGSIZE / 2 ^ pos))) /\
    (forall j q, q + Z.of_nat j <= p \/ p + PGSIZE <= q -> get_le j m' q = get_le j (hmem s1) q).
Proof.
  intros Hpos Hg Hp Hb Ho. assert (PGSIZE / 2 ^ pos * 2 ^ pos = PGSIZE /\ 2 <= PGSIZE / 2 ^ pos) as [Hdiv H2].
  { unfold PAGEPOS in Hpos. assert (pos = 3 \/ pos = 4 \/ pos = 5 \/ pos = 6 \/ pos = 7 \/ pos = 8 \/ pos = 9
      \/ pos = 10 \/ pos = 11) as Hc by lia.
    by repeat destruct Hc as [->|Hc]; [..|subst]. }
  set (k := PGSIZE / 2 ^ pos) in *.
  unfold acquireonepage. rewrite (bind_done _ _ _ _ _ Hg), (proj2 (Z.ltb_lt pos PAGEPOS)) by lia.
  cbn [when]. fold k.
  destruct (cut_page_spec p pos ltac:(lia) Hp (Z.to_nat (k - 1)) 0 s1) as (m' & Hcut & Hseg & Hfr); [lia|nia| |].
  { rewrite Z.mul_0_l, Z.add_0_r. replace (_ * 2 ^ pos) with PGSIZE by nia. done. }
  exists m'. rewrite (bind_done _ _ _ _ _ Hcut). split; [done|].
  rewrite Z.mul_0_l, Z.add_0_r in Hseg, Hfr.
  replace (S (Z.to_nat (k - 1))) with (Z.to_nat k) in Hseg by lia. split; [done|].
  intros j q Hq. apply Hfr. nia.
Qed.

(** What is left of a fresh page once its first block is handed out. *)
Definition rest_of_page (p pos : Z) : list Z := blocks p pos 1 (Z.to_nat (PGSIZE / 2 ^ pos) - 1).

Lemma blocks_addrs p pos i k :
  3 <= pos -> 0 <= i -> 0 < p -> p + (i + Z.of_nat k) * 2 ^ pos <= 2 ^ 64 -> addrs (blocks p pos i k).
Proof.
  intros Hpos Hi Hp Hb. pose proof (pow_ge_8 pos Hpos). apply Forall_forall. intros x Hx.
  apply blocks_range in Hx; [nia|done].
Qed.

Lemma getpage_keeps u s p s1 :
  getpage u s = Done (p, s1) -> hmem s1 = hmem s /\ sizehead s1 = sizehead s.
Proof.
  unfold getpage. rewrite bind_gets. destruct (pagehead s =? 0).
  - unfold allocpage. intros (q & s2 & Hs & H)%bind_inv. rewrite mem_sbrk_spec in Hs.
    destruct (heap_end s <? PGSIZE + heap_top s); [done|]. injection Hs as <- <-.
    destruct (heap_top s =? 0); [by injection H as <- <-|].
    apply bind_inv in H as (? & s3 & [= <- <-] & [= <- <-]). done.
  - intros (? & s2 & Hs & H)%bind_inv. apply bind_inv in H as (n & s3 & Hn & H).
    apply bind_inv in H as (? & s4 & [= <- <-] & [= <- <-]).
    unfold setinfobybp in Hs. apply bind_inv in Hs as (i & s5 & Hi & Hs).
    unfold page_index in Hi. destruct (PageArray s !! 0); [|done]. injection Hi as <- <-.
    destruct (PageArray s !! _); [|done]. injection Hs as <- <-.
    unfold NEXT in Hn. destruct (get_le 8 _ _); [|done]. by injection Hn as <- <-.
Qed.

Lemma rest_of_page_cons p pos :
  3 <= pos < PAGEPOS ->
  blocks p pos 0 (Z.to_nat (PGSIZE / 2 ^ pos)) = p :: rest_of_page p pos /\
  p + Z.of_nat (S (length (rest_of_page p pos))) * 2 ^ pos = p + PGSIZE /\
  Z.to_nat (PGSIZE / 2 ^ pos) = S (length (rest_of_page p pos)).
Proof.
  intros Hpos. assert (forall i k, length (blocks p pos i k) = k) as Hlen.
  { intros i k. revert i. induction k as [|k IH]; intros i; simpl; [done|by rewrite IH]. }
  unfold rest_of_page. rewrite Hlen. unfold PAGEPOS in Hpos.
  assert (pos = 3 \/ pos = 4 \/ pos = 5 \/ pos = 6 \/ pos = 7 \/ pos = 8 \/ pos = 9
      \/ pos = 10 \/ pos = 11) as Hc by lia.
  split.
  - assert (exists k, Z.to_nat (PGSIZE / 2 ^ pos) = S k) as [k ->].
    { exists (Z.to_nat (PGSIZE / 2 ^ pos) - 1)%nat.
      by repeat destruct Hc as [->|Hc]; [..|subst]. }
    cbn [blocks]. rewrite Z.mul_0_l, Z.add_0_r. by replace (S k - 1)%nat with k by lia.
  - by repeat destruct Hc as [->|Hc]; [..|subst].
Qed.

Lemma smallfind_refill s pos h p s1 :
  small_list s pos h [] -> 3 <= pos < PAGEPOS -> getpage (Z.lor 1 (2 ^ pos)) s = Done (p, s1) ->
  owned (hmem s) p PGSIZE -> h + 8 <= p -> p + PGSIZE <= 2 ^ 64 ->
  exists m', smallfind pos s = Done (p, with_mem s1 m') /\
    small_list (with_mem s1 m') pos h (rest_of_page p pos) /\
    (forall j q, (q + Z.of_nat j <= h \/ h + 8 <= q) -> (q + Z.of_nat j <= p \/ p + PGSIZE <= q) ->
       get_le j m' q = get_le j (hmem s) q).
Proof.
  intros (Hh & Hc & Hs & Ha) Hpos Hg Ho Hhp Hb.
  destruct (getpage_keeps _ _ _ _ Hg) as [Em Es]. unfold chain in Hc.
  assert (get_le 8 (hmem s) h = Some 0) as Hn by exact (seg_cons_next _ _ _ _ Hc).
  assert (0 < h < 2 ^ 64) as Hh0 by (by apply Forall_cons in Ha as [? _]).
  rewrite <- Em in Ho.
  destruct (acquireonepage_cuts s pos p s1 Hpos Hg ltac:(lia) Hb Ho) as (m1 & Hacq & Hch & Hfr).
  destruct (rest_of_page_cons p pos Hpos) as (Ebl & Hlen & Hk). rewrite Ebl in Hch.
  assert (get_le 8 m1 h = Some 0) as Hh1 by (rewrite Hfr, Em; [done|simpl; lia]).
  set (m2 := put_le 8 h p m1). set (s2 := with_mem s1 m2).
  assert (get_le 8 m2 h = Some p) as Hh2.
  { unfold m2. rewrite get_put_same. f_equal. apply Z.mod_small.
    change (256 ^ Z.of_nat 8) with (2 ^ 64). unfold PGSIZE in Hb. lia. }
  assert (forall x, x ∈ p :: rest_of_page p pos -> p <= x /\ x + 8 <= p + PGSIZE) as Hr.
  { intros x Hx. rewrite <- Ebl in Hx. apply blocks_range in Hx; [|lia].
    rewrite Hk, Z.add_0_l in Hx. pose proof (pow_ge_8 pos). lia. }
  assert (small_list s2 pos h (p :: rest_of_page p pos)) as Hsl.
  { split; [by cbn; rewrite Es|]. split; [|split].
    - split; [done|]. split; [lia|]. exists p. split; [done|]. eapply seg_frame; [exact Hch|].
      intros x Hx. apply get_put_other. apply Hr in Hx. simpl. lia.
    - split; [apply Forall_forall; intros x Hx%Hr; lia|]. rewrite <- Ebl. apply blocks_spaced. lia.
    - constructor; [done|]. rewrite <- Ebl. apply blocks_addrs; [lia|lia|lia|].
      rewrite Z.add_0_l, Hk, Hlen. lia. }
  destruct (smallfind_pop s2 pos h p _ Hsl) as [Hpop Hsl'].
  eexists. split; [|split; [exact Hsl'|]].
  - etransitivity; [|exact Hpop]. unfold smallfind. rewrite (get_sizehead_bind pos h s _ Hh), (NEXT_bind _ _ _ _ Hn).
    rewrite (get_sizehead_bind pos h s2) by (cbn; by rewrite Es). rewrite (NEXT_bind h p s2) by done.
    rewrite (proj2 (Z.eqb_neq p 0)) by lia. cbn [Z.eqb when]. rewrite bind_ret, bind_assoc.
    rewrite (bind_done _ _ _ _ _ Hacq), bind_assoc.
    rewrite (get_sizehead_bind pos h (with_mem s1 m1)) by (cbn; by rewrite Es).
    by rewrite SETNEXT_bind by (cbn; eauto).
  - intros j q Hq1 Hq2. unfold s2, m2. cbn [hmem with_mem]. rewrite !get_put_other by (simpl; lia). rewrite Hfr, Em by lia. done.
Qed.
