(* ===== verification/MemTheorems.v ===== *)
(** * Properties of the kernel allocator *)
From S2P Require Import Prelude Memory Mem MemProofs.

(** A word that meets none of the blocks. *)
Definition away (l : list Z) (q : Z) (k : nat) : Prop :=
  forall x, x ∈ l -> x + 8 <= q \/ q + Z.of_nat k <= x.

(** C4. A request of at most half a page is served from its size class, with
    a block that is large enough: the first free block when there is one,
    else the first block of a page cut for the class, whose other blocks
    become the class's list.  Nothing but list links is written. *)
Theorem mm_malloc_small s size h l :
  0 < size <= 2048 -> small_list s (class_of size) h l ->
  size <= 2 ^ class_of size /\
  match l with
  | b :: l' => exists m', mm_malloc size s = Done (b, with_mem s m') /\
      small_list (with_mem s m') (class_of size) h l' /\
      (forall k q, away [h] q k -> get_le k m' q = get_le k (hmem s) q)
  | [] => forall p s1,
      getpage (Z.lor 1 (2 ^ class_of size)) s = Done (p, s1) ->
      owned (hmem s) p PGSIZE -> h + 8 <= p -> p + PGSIZE <= 2 ^ 64 ->
      exists m', mm_malloc size s = Done (p, with_mem s1 m') /\
        small_list (with_mem s1 m') (class_of size) h (rest_of_page p (class_of size)) /\
        (forall k q, away [h] q k -> q + Z.of_nat k <= p \/ p + PGSIZE <= q ->
           get_le k m' q = get_le k (hmem s) q)
  end.
Proof.
  intros Hsz Hl. destruct (class_of_small size Hsz) as [Hc Hle]. split; [done|].
  rewrite mm_malloc_class by done. destruct l as [|b l'].
  - intros p s1 Hg Ho Hh Hp.
    destruct (smallfind_refill s _ h p s1 Hl Hc Hg Ho Hh Hp) as (m' & Hrun & Hl' & Hfr).
    exists m'. split; [done|]. split; [done|]. intros k q Hq Hq'. apply Hfr; [|done].
    specialize (Hq h ltac:(by left)). lia.
  - destruct (smallfind_pop s _ h b l' Hl) as [Hrun Hl']. eexists. split; [exact Hrun|]. split; [exact Hl'|].
    intros k q Hq. apply get_put_other. specialize (Hq h ltac:(by left)). simpl. lia.
Qed.

(** A block of a page that is in use for blocks of [2^pos] bytes. *)
Definition block_of (s : heap) (pos b : Z) : Prop :=
  exists p0, PageArray s !! 0 = Some p0 /\
    exists st, PageArray s !! page_idx p0 b = Some (mkPage st (Z.lor 1 (2 ^ pos))).

Lemma log2_class pos : 3 <= pos <= PAGEPOS ->
  Z.land (Z.lor 1 (2 ^ pos)) BIGBIT = 0 /\ Z.land (Z.lor 1 (2 ^ pos)) 1 = 1 /\
  log2 (Z.ldiff (Z.lor 1 (2 ^ pos)) 1) = pos.
Proof.
  unfold PAGEPOS. intros H. assert (pos = 3 \/ pos = 4 \/ pos = 5 \/ pos = 6 \/ pos = 7 \/ pos = 8 \/ pos = 9
      \/ pos = 10 \/ pos = 11 \/ pos = 12) as Hc by lia.
  by repeat destruct Hc as [->|Hc]; [..|subst].
Qed.

(** Unfolding [mm_free] on a block that is not part of a large allocation. *)
Lemma mm_free_split s pos b (K : result (unit * heap)) :
  3 <= pos <= PAGEPOS -> block_of s pos b ->
  (if pos <? PAGEPOS then
     bind (get_sizehead pos) (fun h => bind (find_place (S (S (size (hmem s)))) b h 0)
       (fun r => let '(lp, p) := r in link_between lp b p))
   else
     bind (gets pagehead) (fun p =>
       bind (if p =? 0 then bind (set_pagehead b) (fun _ => SETNEXT b 0)
             else if p <? b then
               bind (find_place (S (S (size (hmem s)))) b p 0) (fun r => let '(lp, p) := r in link_between lp b p)
             else bind (SETNEXT b p) (fun _ => set_pagehead b))
         (fun _ => setinfobybp b (mkPage b 0)))) s = K ->
  mm_free b s = K.
Proof.
  intros Hpos (p0 & H0 & st & Hst) HK. destruct (log2_class pos Hpos) as (E1 & E2 & E3).
  unfold mm_free. rewrite (bind_done _ _ _ _ _ (getinfobybp_done p0 b _ s H0 Hst)).
  cbn [used]. rewrite E1, E2, E3. cbn [Z.eqb]. cbv zeta. unfold place_fuel. by rewrite bind_gets.
Qed.

(** Freeing a block puts it at its place in the ascending list of its
    size class; the rest of memory stays. *)
Theorem mm_free_small s pos h l b :
  3 <= pos < PAGEPOS -> small_list s pos h l -> block_of s pos b ->
  h < b < 2 ^ 64 -> apart b (h :: l) -> is_Some (get_le 8 (hmem s) b) ->
  exists m', mm_free b s = Done (tt, with_mem s m') /\
    small_list (with_mem s m') pos h (insert_addr b l) /\
    (forall k q, away (b :: h :: l) q k -> get_le k m' q = get_le k (hmem s) q).
Proof.
  intros Hpos (Hh & Hc & Hs & Ha) Hblk Hb Hap Hb8.
  assert (addrs (b :: h :: l)) as Hab.
  { constructor; [|done]. apply Forall_cons in Ha as [Ha _]. lia. }
  destruct (insert_block s h l b Hc Hs Hab Hap ltac:(lia) Hb8) as (m' & Hrun & Hc' & Hfr).
  assert (insert_addr b (h :: l) = h :: insert_addr b l) as Ei
    by (simpl; by rewrite (proj2 (Z.ltb_lt h b)) by lia).
  rewrite Ei in Hc'. exists m'. split; [|split].
  - apply (mm_free_split s pos b); [lia|done|]. rewrite (proj2 (Z.ltb_lt pos PAGEPOS)) by lia.
    by rewrite (get_sizehead_bind pos h).
  - split; [done|]. split; [done|]. rewrite <- Ei. split; [by apply insert_spaced|].
    apply Forall_forall. intros x Hx. eapply Forall_forall in Hab; [exact Hab|].
    destruct (insert_split b (h :: l) Hs) as (l1 & l2 & E & _ & _ & E'). rewrite E' in Hx. rewrite E.
    set_solver.
  - exact Hfr.
Qed.

(** The list of free pages, in ascending order. *)
Definition page_list (s : heap) (l : list Z) : Prop :=
  chain (hmem s) (pagehead s) l /\ spaced l /\ addrs l.

(** A request of a whole page takes the first free page and marks it in
    use (its entry is in the table); without free pages it takes the page at the top of the heap, and
    past the end of the heap the kernel panics. *)
Theorem mm_malloc_page s size l p0 :
  2048 < size <= PGSIZE -> page_list s l -> PageArray s !! 0 = Some p0 ->
  Forall (fun p => is_Some (PageArray s !! page_idx p0 p)) l ->
  start p0 + len s * PGSIZE = heap_top s -> 0 < heap_top s ->
  match l with
  | p :: l' => exists s1, mm_malloc size s = Done (p, s1) /\ page_list s1 l' /\
                 block_of s1 PAGEPOS p /\ hmem s1 = hmem s
  | [] => if heap_end s <? heap_top s + PGSIZE then mm_malloc size s = Panic "no space in heap"
          else exists s1, mm_malloc size s = Done (heap_top s, s1) /\ heap_top s1 = heap_top s + PGSIZE /\
                 (0 < len s -> block_of s1 PAGEPOS (heap_top s)) /\ page_list s1 []
  end.
Proof.
  intros Hsz (Hc & Hs & Ha) H0 Hreg Htop Ht0.
  assert (log2 size = 12) as Hlog.
  { destruct (log2_spec size) as (H1 & H2 & H3); [unfold PGSIZE in *; lia|].
    destruct (Z.lt_trichotomy (log2 size) 12) as [Hlt|[?|Hgt]]; [|done|].
    - pose proof (Z.pow_le_mono_r 2 (log2 size) 11). lia.
    - destruct H3 as [H3|H3]; [lia|]. pose proof (Z.pow_le_mono_r 2 12 (log2 size - 1)).
      unfold PGSIZE in *. lia. }
  assert (mm_malloc size s = getpage (Z.lor 1 (2 ^ PAGEPOS)) s) as ->.
  { unfold mm_malloc. rewrite Hlog. cbv zeta. rewrite (proj2 (Z.ltb_ge (2 ^ 24) size)); [done|].
    unfold PGSIZE in *. lia. }
  destruct l as [|p l].
  - unfold chain in Hc. simpl in Hc. destruct (Z.ltb_spec (heap_end s) (heap_top s + PGSIZE)) as [He|He].
    + by apply getpage_no_space.
    + rewrite getpage_top by done. eexists. split; [done|]. split; [done|]. split; [|done].
      intros Hlen. exists p0. split; [cbn; by rewrite lookup_insert_ne by lia|].
      exists (heap_top s). replace (page_idx p0 (heap_top s)) with (len s); [cbn; by rewrite lookup_insert_eq|].
      unfold page_idx. rewrite <- Htop. unfold PGSIZE. zdiv.
  - apply Forall_cons in Hreg as [Hreg _]. rewrite (getpage_list s p l _ p0 Hc H0 Hreg). eexists. split; [done|].
    unfold chain in Hc. destruct Hc as (Hp & Hp0 & n & Hn & Hl).
    split; [|split; [|done]].
    + pose proof (seg_head _ _ _ _ Hl) as ->. split; [done|]. split; [apply Hs|]. by apply Forall_cons in Ha as [_ ?].
    + destruct (decide (page_idx p0 p = 0)) as [E|E].
      * exists (mkPage p (Z.lor 1 (2 ^ PAGEPOS))). cbn. rewrite E, lookup_insert_eq. split; [done|]. exists p.
        unfold page_idx. cbn. rewrite Z.sub_diag. by rewrite lookup_insert_eq.
      * exists p0. cbn. rewrite lookup_insert_ne by done. split; [done|]. exists p. by rewrite lookup_insert_eq.
Qed.

(** Linking a page into the list of free pages. *)
Lemma link_free_page s l b :
  page_list s l -> 0 < b < 2 ^ 64 -> apart b l -> is_Some (get_le 8 (hmem s) b) ->
  exists s1, (if pagehead s =? 0 then bind (set_pagehead b) (fun _ => SETNEXT b 0)
      else if pagehead s <? b then
        bind (find_place (S (S (size (hmem s)))) b (pagehead s) 0)
          (fun r => let '(lp, p) := r in link_between lp b p)
      else bind (SETNEXT b (pagehead s)) (fun _ => set_pagehead b)) s = Done (tt, s1) /\
    PageArray s1 = PageArray s /\ chain (hmem s1) (pagehead s1) (insert_addr b l) /\
    (forall k q, away (b :: l) q k -> get_le k (hmem s1) q = get_le k (hmem s) q).
Proof.
  intros (Hc & Hs & Ha) Hb Hap Hb8. unfold chain in Hc. pose proof (seg_head _ _ _ _ Hc) as Hh.
  assert (forall k q v, away (b :: l) q k -> get_le k (put_le 8 b v (hmem s)) q = get_le k (hmem s) q) as Hfr.
  { intros k q v Hq. apply get_put_other. specialize (Hq b ltac:(by left)). simpl. lia. }
  assert (forall v, 0 <= v < 2 ^ 64 -> get_le 8 (put_le 8 b v (hmem s)) b = Some v) as Hput.
  { intros v Hv. rewrite get_put_same. f_equal. by apply Z.mod_small. }
  destruct l as [|h l]; simpl in Hh.
  - rewrite Hh. cbn [Z.eqb]. exists (with_pagehead (with_mem s (put_le 8 b 0 (hmem s))) b).
    unfold set_pagehead. rewrite bind_modify, SETNEXT_done by done. do 2 (split; [done|]).
    split; [|intros; by apply Hfr]. split; [done|]. split; [lia|]. exists 0. split; [exact (Hput 0 ltac:(lia))|done].
  - rewrite Hh in *. assert (0 < h < 2 ^ 64) as Hh0 by (by apply Forall_cons in Ha as [? _]).
    rewrite (proj2 (Z.eqb_neq h 0)) by lia. pose proof Hap as [Haph _]%Forall_cons.
    destruct (Z.ltb_spec h b) as [Hlt|Hge].
    + destruct (insert_block s h l b Hc Hs ltac:(by constructor) Hap Hlt Hb8) as (m' & Hrun & Hc' & Hfr').
      exists (with_mem s m'). split; [done|]. split; [done|]. split; [|done].
      cbn [pagehead with_mem hmem]. by rewrite Hh.
    + exists (with_pagehead (with_mem s (put_le 8 b h (hmem s))) b).
      rewrite SETNEXT_bind by done. do 2 (split; [done|]). split; [|intros; by apply Hfr].
      assert (insert_addr b (h :: l) = b :: h :: l) as ->
        by (cbn [insert_addr]; by rewrite (proj2 (Z.ltb_ge h b)) by lia).
      split; [done|]. split; [lia|]. exists h. split; [apply Hput; lia|].
      eapply seg_frame; [exact Hc|]. intros x Hx. apply get_put_other.
      eapply Forall_forall in Hap; [|exact Hx]. simpl. lia.
Qed.

(** Freeing a page puts it at its place in the ascending list of free
    pages and marks it unused; the rest of memory stays. *)
Theorem mm_free_page s l b :
  page_list s l -> block_of s PAGEPOS b -> 0 < b < 2 ^ 64 -> apart b l -> is_Some (get_le 8 (hmem s) b) ->
  exists s', mm_free b s = Done (tt, s') /\ page_list s' (insert_addr b l) /\
    (exists i, PageArray s' = <[i := mkPage b 0]> (PageArray s)) /\
    (forall k q, away (b :: l) q k -> get_le k (hmem s') q = get_le k (hmem s) q).
Proof.
  intros Hl Hblk Hb Hap Hb8. pose proof Hblk as (p0 & H0 & st & Hst).
  destruct (link_free_page s l b Hl Hb Hap Hb8) as (s1 & Hrun & Hpa & Hc & Hfr).
  exists (with_page s1 (page_idx p0 b) (mkPage b 0)). split; [|split; [|split; [|done]]].
  - apply (mm_free_split s PAGEPOS b); [done|done|]. change (PAGEPOS <? PAGEPOS) with false. cbn iota.
    rewrite bind_gets. rewrite (bind_done _ _ _ _ _ Hrun). apply setinfobybp_done; rewrite Hpa; [done|by eexists].
  - destruct Hl as (_ & Hs & Ha). split; [done|]. split; [by apply insert_spaced|].
    apply Forall_forall. intros x Hx.
    destruct (insert_split b l Hs) as (l1 & l2 & E & _ & _ & E'). rewrite E' in Hx.
    assert (x = b \/ x ∈ l) as [->|Hin]; [rewrite E; set_solver|done|]. by eapply Forall_forall in Ha.
  - exists (page_idx p0 b). cbn. by rewrite Hpa.
Qed.

(** ** Concrete heaps *)

Definition words (l : list (Z * Z)) : mem := foldr (fun av m => put_le 8 (fst av) (snd av) m) ∅ l.

(** Page 0 holds 1024-byte blocks with the head 0x10000 and the free blocks
    0x10400 and 0x10C00, pages 1 and 3 are free, pages 2 and 4 are in use. *)
Definition demo : heap :=
  mkHeap (words [(65536, 66560); (66560, 68608); (67584, 0); (68608, 0); (69632, 77824); (73728, 0); (77824, 0)])
         86016 131072 {[10 := 65536]} 69632
         (list_to_map [(0, mkPage 65536 1025); (1, mkPage 69632 0); (2, mkPage 73728 4097);
                       (3, mkPage 77824 0); (4, mkPage 81920 4097)]) 5.

Ltac chain_tac := repeat first
  [ split; [reflexivity|] | split; [lia|] | eexists; split; [vm_compute; reflexivity|] | reflexivity ].

Lemma demo_small : small_list demo 10 65536 [66560; 68608].
Proof.
  split; [reflexivity|]. split; [chain_tac|]. split; [|repeat constructor; lia].
  cbn [spaced]. repeat split; repeat constructor; lia.
Qed.

Lemma demo_pages : page_list demo [69632; 77824].
Proof.
  split; [chain_tac|]. split; [|repeat constructor; lia].
  cbn [spaced]. repeat split; repeat constructor; lia.
Qed.

Lemma mm_malloc_small_witness : exists m', mm_malloc 1000 demo = Done (66560, with_mem demo m') /\
  small_list (with_mem demo m') 10 65536 [68608].
Proof.
  destruct (mm_malloc_small demo 1000 65536 [66560; 68608] ltac:(lia) demo_small) as (_ & m' & H1 & H2 & _).
  exists m'. split; [exact H1|exact H2].
Defined.

Lemma mm_free_small_witness : exists m', mm_free 67584 demo = Done (tt, with_mem demo m') /\
  small_list (with_mem demo m') 10 65536 [66560; 67584; 68608].
Proof.
  destruct (mm_free_small demo 10 65536 [66560; 68608] 67584) as (m' & H1 & H2 & _).
  - unfold PAGEPOS. lia.
  - exact demo_small.
  - exists (mkPage 65536 1025). split; [reflexivity|]. exists 65536. reflexivity.
  - lia.
  - repeat constructor; lia.
  - eexists. vm_compute. reflexivity.
  - exists m'. split; [exact H1|exact H2].
Defined.

Lemma mm_malloc_page_witness : exists s1, mm_malloc 4000 demo = Done (69632, s1) /\ page_list s1 [77824].
Proof.
  destruct (mm_malloc_page demo 4000 [69632; 77824] (mkPage 65536 1025)) as (s1 & H1 & H2 & _).
  - unfold PGSIZE. lia.
  - exact demo_pages.
  - reflexivity.
  - repeat constructor; eexists; reflexivity.
  - reflexivity.
  - reflexivity.
  - exists s1. split; [exact H1|exact H2].
Defined.

Lemma mm_free_page_witness : exists s1, mm_free 73728 demo = Done (tt, s1) /\
  page_list s1 [69632; 73728; 77824].
Proof.
  destruct (mm_free_page demo [69632; 77824] 73728) as (s1 & H1 & H2 & _).
  - exact demo_pages.
  - exists (mkPage 65536 1025). split; [reflexivity|]. exists 73728. reflexivity.
  - lia.
  - repeat constructor; lia.
  - eexists. vm_compute. reflexivity.
  - exists s1. split; [exact H1|exact H2].
Defined.

(** A request for contiguous pages that the free list cannot serve, made
    while the top page is in use, takes one page too many off the heap and
    cuts the list of free pages before the last run: for two pages, three
    are taken and the free page 0x13000 is lost. *)
Theorem bigfind_overallocates :
  exists s', mm_malloc (2 * PGSIZE) demo = Done (heap_top demo, s') /\
    heap_top s' = heap_top demo + 3 * PGSIZE /\
    page_list demo [69632; 77824] /\ page_list s' [69632].
Proof.
  eexists. split; [vm_compute; reflexivity|]. split; [reflexivity|]. split; [exact demo_pages|].
  split; [chain_tac|]. split; [|repeat constructor; lia]. cbn [spaced]. repeat constructor.
Qed.
