(* ===== verification/Vm.v ===== *)
(** * Virtual memory: vm.c and the Sv39 macros of platform.h

    Page tables live in the byte memory of [Memory]; page-table pages come
    from the kernel allocator, of which this file only knows the interface
    [PageAlloc].  The state is the memory with the allocator's private
    state. *)
From S2P Require Import Prelude Memory Klib.

(** ** platform.h and memlayout.h *)

Definition PGSIZE : Z := 4096.
Definition PGSHIFT : Z := 12.
Definition PGROUNDUP (sz : Z) : Z := Z.land (u64 (sz + PGSIZE - 1)) (Z.lnot (PGSIZE - 1)).
Definition PGROUNDDOWN (a : Z) : Z := Z.land a (Z.lnot (PGSIZE - 1)).
Definition PTE_V : Z := Z.shiftl 1 0.
Definition PTE_R : Z := Z.shiftl 1 1.
Definition PTE_W : Z := Z.shiftl 1 2.
Definition PTE_X : Z := Z.shiftl 1 3.
Definition PTE_U : Z := Z.shiftl 1 4.
Definition PA2PTE (pa : Z) : Z := u64 (Z.shiftl (Z.shiftr (u64 pa) 12) 10).
Definition PTE2PA (pte : Z) : Z := u64 (Z.shiftl (Z.shiftr pte 10) 12).
Definition PTE_FLAGS (pte : Z) : Z := Z.land pte 1023.
Definition PXMASK : Z := 511.
Definition PXSHIFT (level : Z) : Z := PGSHIFT + 9 * level.
Definition PX (level va : Z) : Z := Z.land (Z.shiftr (u64 va) (PXSHIFT level)) PXMASK.
Definition MAXVA : Z := Z.shiftl 1 (9 + 9 + 9 + 12 - 1).

Definition UART0 : Z := 268435456.        (* 0x10000000 *)
Definition VIRTIO0 : Z := 268439552.      (* 0x10001000 *)
Definition VIRTIO1 : Z := 268443648.      (* 0x10002000 *)
Definition PLIC : Z := 201326592.         (* 0x0c000000 *)
Definition PHYSTATR : Z := 2147483648.    (* 0x80000000 *)
Definition PHYSTOP : Z := PHYSTATR + 128 * 1024 * 1024.
Definition TRAMPOLINE : Z := MAXVA - PGSIZE.

(** ** The allocator's interface

    [mem_malloc] is [mem_malloc(PGSIZE)], [None] its panic "no space in heap"
    ([mem_sbrk] never returns NULL); it comes exactly when no page is left.
    [owns a p] says that the allocator keeps the page [p] for itself (free, or
    its bookkeeping), [avail a] is the number of pages it can still hand out.
    It depends on no memory outside its pages, and writes to no other. *)
Definition page_of (p q : Z) : Prop := p <= q < p + PGSIZE.

Definition is_page (p : Z) : Prop := 0 < p /\ p + PGSIZE <= 2 ^ 56 /\ p mod PGSIZE = 0.

Definition no_space : string := "no space in heap".

Class PageAlloc (A : Type) : Type := {
  mem_malloc : mem -> A -> option (Z * mem * A);
  mem_free : Z -> mem -> A -> mem * A;
  alloc_inv : mem -> A -> Prop;
  owns : A -> Z -> Prop;
  avail : A -> nat;
  malloc_none : forall m a, alloc_inv m a -> (mem_malloc m a = None <-> avail a = 0%nat);
  malloc_law : forall m a p m' a',
    alloc_inv m a -> mem_malloc m a = Some (p, m', a') ->
    alloc_inv m' a' /\
    (forall q, (forall r, owns a r -> ~ page_of r q) -> m' !! q = m !! q) /\
    is_page p /\ owned m' p PGSIZE /\ owns a p /\ (forall r, owns a' r <-> owns a r /\ r <> p) /\
    avail a = S (avail a');
  free_law : forall m a p m' a',
    alloc_inv m a -> is_page p -> owned m p PGSIZE -> ~ owns a p -> mem_free p m a = (m', a') ->
    alloc_inv m' a' /\
    (forall q, (forall r, owns a r -> ~ page_of r q) -> ~ page_of p q -> m' !! q = m !! q) /\
    (forall r, owns a' r <-> owns a r \/ r = p) /\
    avail a' = S (avail a);
  alloc_frame : forall m m' a,
    alloc_inv m a -> (forall r q, owns a r -> page_of r q -> m' !! q = m !! q) -> alloc_inv m' a;
  owns_page : forall m a p, alloc_inv m a -> owns a p -> is_page p
}.

Section Vm.
Context {A : Type} `{!PageAlloc A}.

Definition vst : Type := mem * A.

(** A routine on the memory alone. *)
Definition on_mem {B} (f : M mem B) : M vst B := fun s =>
  match f s.1 with
  | Done (b, m) => Done (b, (m, s.2))
  | Panic msg => Panic msg
  | Fault => Fault
  | NoFuel => NoFuel
  | Blocked => Blocked
  end.
Definition malloc_page : M vst Z := fun s =>
  match mem_malloc s.1 s.2 with
  | Some (p, m, a) => Done (p, (m, a))
  | None => Panic no_space
  end.
Definition free_page (p : Z) : M vst unit := fun s => Done (tt, mem_free p s.1 s.2).
Definition load64 (p : Z) : M vst Z := on_mem (ld64 p).
Definition store64 (p v : Z) : M vst unit := on_mem (st64 p v).

Definition vm_create : M vst Z :=
  pagetable <- malloc_page;;
  if pagetable =? 0 then ret 0
  else on_mem (memset pagetable 0 PGSIZE);;; ret pagetable.

(** The loop of [walk] from [level] down to 1. *)
Fixpoint walk_loop (level : nat) (pagetable va : Z) (alloc : bool) : M vst Z :=
  match level with
  | O => ret (pagetable + 8 * PX 0 va)
  | S level' =>
    let pte := pagetable + 8 * PX (Z.of_nat level) va in
    e <- load64 pte;;
    if negb (Z.land e PTE_V =? 0) then walk_loop level' (PTE2PA e) va alloc
    else if negb alloc then ret 0
    else
      pagetable <- malloc_page;;
      if pagetable =? 0 then ret 0
      else
        on_mem (memset pagetable 0 PGSIZE);;;
        store64 pte (Z.lor (PA2PTE pagetable) PTE_V);;;
        walk_loop level' pagetable va alloc
  end.
Definition walk (pagetable va : Z) (alloc : bool) : M vst Z := walk_loop 2 pagetable va alloc.

Fixpoint vm_map_loop (fuel : nat) (pagetable va pa last perm : Z) (remap : bool) : M vst Z :=
  match fuel with
  | O => nofuel
  | S fuel =>
    pte <- walk pagetable va true;;
    if pte =? 0 then ret (-1)
    else
      e <- load64 pte;;
      if negb (Z.land e PTE_V =? 0) && negb remap then panic "vm_map: remap"
      else
        store64 pte (Z.lor (Z.lor (PA2PTE pa) perm) PTE_V);;;
        if va =? last then ret 0
        else vm_map_loop fuel pagetable (u64 (va + PGSIZE)) (u64 (pa + PGSIZE)) last perm remap
  end.
Definition vm_map (pagetable va pa sz perm : Z) (remap : bool) : M vst Z :=
  let last := PGROUNDDOWN (u64 (va + sz - 1)) in
  vm_map_loop (S (Z.to_nat (u64 (last - va) / PGSIZE))) pagetable va pa last perm remap.
Definition uvm_map (pagetable va pa sz perm : Z) (remap : bool) : M vst Z :=
  vm_map pagetable va pa sz (Z.lor perm PTE_U) remap.

Fixpoint vm_unmap_loop (fuel : nat) (pagetable a stop : Z) (do_free : bool) : M vst unit :=
  match fuel with
  | O => nofuel
  | S fuel =>
    if negb (a <? stop) then ret tt
    else
      pte <- walk pagetable a false;;
      if pte =? 0 then panic "uvmunmap: walk"
      else
        e <- load64 pte;;
        if Z.land e PTE_V =? 0 then panic "uvmunmap: not mapped"
        else if PTE_FLAGS e =? PTE_V then panic "uvmunmap: not a leaf"
        else
          when do_free (free_page (PTE2PA e));;;
          store64 pte 0;;;
          vm_unmap_loop fuel pagetable (u64 (a + PGSIZE)) stop do_free
  end.
Definition vm_unmap (pagetable va npages : Z) (do_free : bool) : M vst unit :=
  if negb (va mod PGSIZE =? 0) then panic "uvmunmap: not aligned"
  else vm_unmap_loop (S (Z.to_nat npages)) pagetable va (u64 (va + npages * PGSIZE)) do_free.

Definition walkaddr (pagetable va : Z) : M vst Z :=
  if MAXVA <=? va then ret 0
  else
    pte <- walk pagetable va false;;
    if pte =? 0 then ret 0
    else
      e <- load64 pte;;
      if Z.land e PTE_V =? 0 then ret 0
      else if Z.land e PTE_U =? 0 then ret 0
      else ret (Z.lor (PTE2PA e) (Z.land va 4095)).

Definition is_pagetable (pte : Z) : bool :=
  negb (Z.land pte PTE_V =? 0) && (Z.land pte (Z.lor (Z.lor PTE_R PTE_W) PTE_X) =? 0).

(** A [for(int i=0;i<512;i++)]: [k] iterations are left. *)
Fixpoint for512 (k : nat) (body : Z -> M vst unit) : M vst unit :=
  match k with
  | O => ret tt
  | S k => body (512 - Z.of_nat (S k));;; for512 k body
  end.

(** [fuel] bounds the depth, 3 for a Sv39 table. *)
Fixpoint free_pagetable (fuel : nat) (pagetable : Z) (do_free : bool) : M vst unit :=
  match fuel with
  | O => nofuel
  | S fuel =>
    if pagetable =? 0 then ret tt
    else
      for512 512 (fun i =>
        pte <- load64 (pagetable + 8 * i);;
        if is_pagetable pte then
          free_pagetable fuel (PTE2PA pte) do_free;;;
          store64 (pagetable + 8 * i) 0
        else when (negb (Z.land pte PTE_V =? 0) && do_free) (free_page (PTE2PA pte)));;;
      free_page pagetable
  end.

Fixpoint copy_pagetable (fuel : nat) (from to : Z) (cover : bool) : M vst unit :=
  match fuel with
  | O => nofuel
  | S fuel =>
    for512 512 (fun i =>
      pte <- load64 (from + 8 * i);;
      tpte <- load64 (to + 8 * i);;
      if (Z.land pte PTE_V =? 0) && negb (Z.land tpte PTE_V =? 0) && cover then
        free_pagetable 4 (PTE2PA tpte) true
      else if is_pagetable pte then
        if is_pagetable tpte then copy_pagetable fuel (PTE2PA pte) (PTE2PA tpte) cover
        else
          tchild <- malloc_page;;
          on_mem (memset tchild 0 PGSIZE);;;
          store64 (to + 8 * i) (Z.lor (PA2PTE tchild) PTE_V);;;
          copy_pagetable fuel (PTE2PA pte) tchild cover
      else if negb (Z.land pte PTE_V =? 0) then
        let pa := PTE2PA pte in
        let flags := PTE_FLAGS pte in
        if negb (Z.land tpte PTE_V =? 0) then
          when cover
            (let mem := PTE2PA tpte in
             on_mem (memmove mem pa PGSIZE);;;
             store64 (to + 8 * i) (Z.lor (Z.lor (PA2PTE mem) flags) PTE_V))
        else
          mem <- malloc_page;;
          on_mem (memmove mem pa PGSIZE);;;
          store64 (to + 8 * i) (Z.lor (Z.lor (PA2PTE mem) flags) PTE_V)
      else ret tt)
  end.

(** ** Copies between kernel and user *)

Fixpoint copyout_loop (fuel : nat) (pagetable dstva src len : Z) : M vst Z :=
  match fuel with
  | O => nofuel
  | S fuel =>
    if len =? 0 then ret 0
    else
      let va0 := PGROUNDDOWN dstva in
      pa0 <- walkaddr pagetable va0;;
      if pa0 =? 0 then ret (-1)
      else
        let n := PGSIZE - (dstva - va0) in
        let n := if len <? n then len else n in
        on_mem (memmove (pa0 + (dstva - va0)) src n);;;
        copyout_loop fuel pagetable (u64 (va0 + PGSIZE)) (src + n) (len - n)
  end.
Definition copyout (pagetable dstva src len : Z) : M vst Z :=
  copyout_loop (S (Z.to_nat len)) pagetable dstva src len.

Fixpoint copyin_loop (fuel : nat) (pagetable dst srcva len : Z) : M vst Z :=
  match fuel with
  | O => nofuel
  | S fuel =>
    if len =? 0 then ret 0
    else
      let va0 := PGROUNDDOWN srcva in
      pa0 <- walkaddr pagetable va0;;
      if pa0 =? 0 then ret (-1)
      else
        let n := PGSIZE - (srcva - va0) in
        let n := if len <? n then len else n in
        on_mem (memmove dst (pa0 + (srcva - va0)) n);;;
        copyin_loop fuel pagetable (dst + n) (u64 (va0 + PGSIZE)) (len - n)
  end.
Definition copyin (pagetable dst srcva len : Z) : M vst Z :=
  copyin_loop (S (Z.to_nat len)) pagetable dst srcva len.

(** The inner loop of [copyinstr]: [inl r] is a return, [inr] the values of
    [len] and [srcva] after the page. *)
Fixpoint copyinstr_page (k : nat) (pa0 va0 dst len srcva : Z) : M vst (Z + Z * Z) :=
  match k with
  | O => ret (inr (len, srcva))
  | S k =>
    c <- on_mem (ld8 (pa0 + (srcva - va0)));;
    if c =? 0 then on_mem (st8 (dst + len) 0);;; ret (inl len)
    else on_mem (st8 (dst + len) c);;; copyinstr_page k pa0 va0 dst (len + 1) (u64 (srcva + 1))
  end.
Fixpoint copyinstr_loop (fuel : nat) (pagetable dst srcva max_len len : Z) : M vst Z :=
  match fuel with
  | O => nofuel
  | S fuel =>
    if negb (len <? max_len) then ret (-1)
    else
      let va0 := PGROUNDDOWN srcva in
      pa0 <- walkaddr pagetable va0;;
      if pa0 =? 0 then ret (-1)
      else
        let n := PGSIZE - (srcva - va0) in
        let n := if max_len - len <? n then max_len - len else n in
        r <- copyinstr_page (Z.to_nat n) pa0 va0 dst len srcva;;
        match r with
        | inl v => ret v
        | inr (len, srcva) => copyinstr_loop fuel pagetable dst srcva max_len len
        end
  end.
Definition copyinstr (pagetable dst srcva max_len : Z) : M vst Z :=
  copyinstr_loop (S (Z.to_nat max_len)) pagetable dst srcva max_len 0.

(** The result code and the word stored through [slot]. *)
Definition fetchaddr (pagetable va : Z) : M vst (Z * option Z) :=
  pa <- walkaddr pagetable va;;
  if pa =? 0 then ret (-1, None) else v <- load64 pa;; ret (0, Some v).

(** [c] is the address of the local character. *)
Fixpoint fetchstr_loop (fuel : nat) (c pagetable srcva dst max len : Z) : M vst Z :=
  match fuel with
  | O => nofuel
  | S fuel =>
    if negb (len <? max) then ret (-1)
    else
      r <- copyin pagetable c srcva 1;;
      if r <? 0 then ret (-1)
      else
        b <- on_mem (ld8 c);;
        if b =? 0 then on_mem (st8 (dst + len) 0);;; ret len
        else on_mem (st8 (dst + len) b);;;
             fetchstr_loop fuel c pagetable (u64 (srcva + 1)) dst max (len + 1)
  end.
Definition fetchstr (c pagetable srcva dst max : Z) : M vst Z :=
  fetchstr_loop (S (Z.to_nat max)) c pagetable srcva dst max 0.

(** [etext] and [trampoline] are placed by the linker. *)
Definition kvm_init (etext trampoline : Z) : M vst Z :=
  kernel_pagetable <- vm_create;;
  vm_map kernel_pagetable UART0 UART0 PGSIZE (Z.lor PTE_R PTE_W) false;;;
  vm_map kernel_pagetable VIRTIO0 VIRTIO0 PGSIZE (Z.lor PTE_R PTE_W) false;;;
  vm_map kernel_pagetable VIRTIO1 VIRTIO1 PGSIZE (Z.lor PTE_R PTE_W) false;;;
  vm_map kernel_pagetable PLIC PLIC 4194304 (Z.lor PTE_R PTE_W) false;;;
  vm_map kernel_pagetable PHYSTATR PHYSTATR (u64 (etext - PHYSTATR)) (Z.lor PTE_R PTE_X) false;;;
  vm_map kernel_pagetable etext etext (u64 (PHYSTOP - etext)) (Z.lor PTE_R PTE_W) false;;;
  vm_map kernel_pagetable TRAMPOLINE trampoline PGSIZE (Z.lor PTE_R PTE_X) false;;;
  ret kernel_pagetable.

End Vm.

(** ** Well-formed page tables

    A page table is described by its directory: a map from paths (the list of
    indices from the root) to the pages of the table. *)

Abbreviation dir := (gmap (list Z) Z).

Definition word (m : mem) (a : Z) : option Z := get_le 8 m a.

Definition px (i : Z) : Prop := 0 <= i < 512.

Record pt_wf (m : mem) (root : Z) (T : dir) : Prop := {
  pt_root : T !! [] = Some root;
  pt_path : forall p a, T !! p = Some a -> (length p <= 2)%nat /\ Forall px p;
  pt_page : forall p a, T !! p = Some a -> is_page a /\ owned m a PGSIZE;
  pt_inj : forall p q a, T !! p = Some a -> T !! q = Some a -> p = q;
  pt_entry : forall p a i e, T !! p = Some a -> (length p < 2)%nat -> px i ->
    word m (a + 8 * i) = Some e ->
    T !! (p ++ [i]) = if Z.land e PTE_V =? 0 then None else Some (PTE2PA e);
  pt_parent : forall p i b, T !! (p ++ [i]) = Some b -> is_Some (T !! p)
}.

(** The three indices of a virtual address, and its page number. *)
Definition vpath (va : Z) : list Z := [PX 2 va; PX 1 va].
Definition vpn (va : Z) : Z := u64 va / PGSIZE mod 2 ^ 27.

(** The leaf entry of [va] in the table: 0 if there is none. *)
Definition pte_of (m : mem) (T : dir) (va : Z) : Z :=
  match T !! vpath va with
  | Some a => default 0 (word m (a + 8 * PX 0 va))
  | None => 0
  end.

(** ** The pages a table needs

    The directories on the way to the leaf entry of [va], of the [n] pages
    from [va], and how many of a set of directories a table lacks. *)
Abbreviation paths := (gset (list Z)).
Definition dirs (va : Z) : paths := {[ [PX 2 va] ]} ∪ {[ vpath va ]}.
Fixpoint range_dirs (va : Z) (n : nat) : paths :=
  match n with O => ∅ | S n => dirs va ∪ range_dirs (va + PGSIZE) n end.
Definition missing (X : paths) (T : dir) : nat := size (X ∖ dom T).
