(* ===== verification/VmProofs.v ===== *)
(** * Proofs about page tables

    Words and pages of memory, the walk with and without allocation, the loop
    of [vm_map], and the recursion of [free_pagetable]. *)
From S2P Require Import Prelude Memory Klib KlibProofs Vm.

(** ** Bits *)

Lemma lor_low a n f : 0 <= n -> 0 <= f < 2 ^ n -> Z.lor (a * 2 ^ n) f = a * 2 ^ n + f.
Proof.
  intros Hn Hf. pose proof (Z.add_lor_land (a * 2 ^ n) f).
  enough (Z.land (a * 2 ^ n) f = 0) by lia.
  apply Z.bits_inj'. intros i Hi. rewrite Z.land_spec, Z.bits_0.
  destruct (Z.ltb_spec i n).
  - by rewrite Z.mul_pow2_bits_low.
  - replace f with (f mod 2 ^ n) by (by apply Z.mod_small).
    rewrite Z.mod_pow2_bits_high by lia. apply andb_false_r.
Qed.

Lemma PX_eq l va : 0 <= l -> PX l va = u64 va / 2 ^ (12 + 9 * l) mod 512.
Proof.
  intros Hl. unfold PX, PXSHIFT, PGSHIFT, PXMASK.
  rewrite Z.shiftr_div_pow2 by lia. change 511 with (Z.ones 9). by rewrite Z.land_ones.
Qed.

Lemma PX_range l va : 0 <= l -> px (PX l va).
Proof. intros Hl. rewrite PX_eq by done. apply Z.mod_pos_bound. lia. Qed.

Lemma PGROUNDDOWN_eq a : PGROUNDDOWN a = a / 4096 * 4096.
Proof.
  unfold PGROUNDDOWN, PGSIZE. change (4096 - 1) with (Z.ones 12).
  rewrite <- Z.ldiff_land, Z.ldiff_ones_r by lia.
  by rewrite Z.shiftl_mul_pow2, Z.shiftr_div_pow2 by lia.
Qed.

Lemma vpn_indices va : vpn va = PX 2 va * 2 ^ 18 + PX 1 va * 2 ^ 9 + PX 0 va.
Proof.
  rewrite !PX_eq by lia. unfold vpn, PGSIZE. set (x := u64 va).
  change (2 ^ (12 + 9 * 2)) with (4096 * 2 ^ 18). change (2 ^ (12 + 9 * 1)) with (4096 * 2 ^ 9).
  change (2 ^ (12 + 9 * 0)) with 4096. rewrite <- !Z.div_div by lia.
  set (y := x / 4096). clearbody y. change (2 ^ 27) with 134217728. change (2 ^ 18) with 262144.
  change (2 ^ 9) with 512. zdiv.
Qed.

Lemma vpn_vpath va va' : vpn va = vpn va' <-> vpath va = vpath va' /\ PX 0 va = PX 0 va'.
Proof.
  rewrite !vpn_indices. unfold vpath.
  pose proof (PX_range 2 va). pose proof (PX_range 1 va). pose proof (PX_range 0 va).
  pose proof (PX_range 2 va'). pose proof (PX_range 1 va'). pose proof (PX_range 0 va').
  unfold px in *. change (2 ^ 18) with 262144. change (2 ^ 9) with 512. split.
  - intros E. assert (PX 2 va = PX 2 va' /\ PX 1 va = PX 1 va' /\ PX 0 va = PX 0 va')
      as (-> & -> & ->) by lia. done.
  - by intros [[= -> ->] ->].
Qed.

Lemma PA2PTE_eq p : is_page p -> PA2PTE p = p / 4096 * 2 ^ 10.
Proof.
  intros (H1 & H2 & H3). unfold PA2PTE, u64, PGSIZE in *. rewrite (Z.mod_small p) by lia.
  rewrite Z.shiftl_mul_pow2, Z.shiftr_div_pow2 by lia. change (2 ^ 12) with 4096.
  apply Z.mod_small. zdiv.
Qed.

Lemma make_pte_eq p f :
  is_page p -> 0 <= f < 1024 ->
  Z.lor (Z.lor (PA2PTE p) f) PTE_V = p / 4096 * 2 ^ 10 + Z.lor f 1 /\ 0 <= Z.lor f 1 < 1024.
Proof.
  intros Hp Hf. rewrite <- Z.lor_assoc. rewrite (PA2PTE_eq p Hp). change PTE_V with 1.
  assert (0 <= Z.lor f 1 < 2 ^ 10) as Hl.
  { split; [apply Z.lor_nonneg; lia|].
    destruct (decide (Z.lor f 1 = 0)) as [->|Hne]; [lia|].
    assert (0 < Z.lor f 1) by (pose proof (proj2 (Z.lor_nonneg f 1)); lia).
    apply Z.log2_lt_pow2; [done|]. rewrite Z.log2_lor by lia. apply Z.max_lub_lt; [|done].
    destruct (decide (f = 0)) as [->|]; [done|]. apply Z.log2_lt_pow2; lia. }
  split; [|done]. by apply lor_low.
Qed.

Lemma pte_valid x f : Z.land (x * 2 ^ 10 + Z.lor f 1) PTE_V <> 0.
Proof.
  change PTE_V with (Z.ones 1). rewrite Z.land_ones by lia.
  assert (Z.lor f 1 mod 2 = 1) as H.
  { change 2 with (2 ^ 1). rewrite <- Z.land_ones by lia. rewrite Z.land_lor_distr_l.
    change (Z.land 1 (Z.ones 1)) with 1. rewrite Z.land_ones by lia. change (2 ^ 1) with 2.
    pose proof (Z.mod_pos_bound f 2). destruct (decide (f mod 2 = 0)) as [->|]; [done|].
    by replace (f mod 2) with 1 by lia. }
  change (2 ^ 1) with 2. change (2 ^ 10) with 1024. zdiv.
Qed.

Lemma pte_page x f : 0 <= x < 2 ^ 44 -> 0 <= f < 1024 -> PTE2PA (x * 2 ^ 10 + f) = x * 4096.
Proof.
  intros Hx Hf. unfold PTE2PA, u64. rewrite Z.shiftl_mul_pow2, Z.shiftr_div_pow2 by lia.
  rewrite Z.add_comm, Z.div_add, Z.div_small by lia. apply Z.mod_small. lia.
Qed.

(** ** Pages and words *)

Lemma page_disjoint a b q : is_page a -> is_page b -> a <> b -> page_of a q -> ~ page_of b q.
Proof. unfold is_page, page_of, PGSIZE. intros (_ & _ & Ha) (_ & _ & Hb) Hne H1 H2. zdiv. Qed.

Lemma word_frame m m' c i :
  px i -> (forall q, page_of c q -> m' !! q = m !! q) -> word m' (c + 8 * i) = word m (c + 8 * i).
Proof.
  intros Hi H. unfold word. apply get_le_ext. intros q Hq. apply H.
  unfold page_of, PGSIZE, px in *. lia.
Qed.

Lemma word_owned m c i : px i -> owned m c PGSIZE -> exists e, word m (c + 8 * i) = Some e.
Proof.
  intros Hi Ho. unfold word. apply get_le_owned. intros j Hj.
  replace (c + 8 * i + j) with (c + (8 * i + j)) by lia. apply Ho. unfold px, PGSIZE in *. lia.
Qed.

Lemma owned_frame m m' c n :
  (forall q, is_Some (m !! q) -> is_Some (m' !! q)) -> owned m c n -> owned m' c n.
Proof. intros H Ho i Hi. by apply H, Ho. Qed.

Lemma owned_same m m' c :
  (forall q, page_of c q -> m' !! q = m !! q) -> owned m c PGSIZE -> owned m' c PGSIZE.
Proof. intros H Ho i Hi. rewrite H; [by apply Ho|]. unfold page_of. lia. Qed.

Lemma put_le_page m c i v q : px i -> ~ page_of c q -> put_le 8 (c + 8 * i) v m !! q = m !! q.
Proof. intros Hi Hq. apply put_le_lookup_out. unfold page_of, px, PGSIZE in *. lia. Qed.

Lemma word_put_same m c v : 0 <= v < 2 ^ 64 -> word (put_le 8 c v m) c = Some v.
Proof. intros Hv. unfold word. rewrite get_put_same. f_equal. by apply Z.mod_small. Qed.

Lemma word_put_other m c i j v : i <> j -> word (put_le 8 (c + 8 * i) v m) (c + 8 * j) = word m (c + 8 * j).
Proof. intros Hne. unfold word. apply get_put_other. lia. Qed.

Lemma word_zero m c i : px i -> bytes_at m c (replicate 4096 0) -> word m (c + 8 * i) = Some 0.
Proof.
  intros Hi Hb. unfold word.
  assert (forall k, 0 <= k < 8 -> m !! (c + 8 * i + k) = Some 0) as H.
  { intros k Hk. replace (c + 8 * i + k) with (c + Z.of_nat (Z.to_nat (8 * i + k))) by (unfold px in *; lia).
    apply Hb. apply lookup_replicate_2. unfold px in *. lia. }
  assert (forall n p, (forall k, 0 <= k < Z.of_nat n -> m !! (p + k) = Some 0) -> get_le n m p = Some 0) as G.
  { induction n as [|n IH]; intros p Hp; cbn [get_le]; [done|].
    rewrite <- (Z.add_0_r p) at 1. rewrite Hp by lia. rewrite IH; [done|].
    intros k Hk. rewrite <- Z.add_assoc. apply Hp. lia. }
  apply G. intros k Hk. apply H. lia.
Qed.

Section Proofs.
Context {A : Type} `{!PageAlloc A}.
Implicit Types (m : mem) (a : A) (T : dir).

(** The invariant of a state with one page table: the allocator is sound and
    owns none of the table's pages. *)
Definition vm_inv m a root T : Prop :=
  pt_wf m root T /\ alloc_inv m a /\ (forall p b, T !! p = Some b -> ~ owns a b).

(** The memory that belongs to neither the table nor the allocator. *)
Definition foreign T a q : Prop :=
  (forall r, owns a r -> ~ page_of r q) /\ (forall p b, T !! p = Some b -> ~ page_of b q).

Lemma load64_bind {B} c i m a e (K : Z -> M (vst (A := A)) B) :
  word m (c + 8 * i) = Some e -> bind (load64 (c + 8 * i)) K (m, a) = K e (m, a).
Proof. intros H. unfold bind, load64, on_mem, ld64, ld. cbn [fst snd]. unfold word in H. by rewrite H. Qed.

Lemma store64_bind {B} c i v m a e (K : unit -> M (vst (A := A)) B) :
  word m (c + 8 * i) = Some e ->
  bind (store64 (c + 8 * i) v) K (m, a) = K tt (put_le 8 (c + 8 * i) v m, a).
Proof. intros H. unfold bind, store64, on_mem, st64, sto. cbn [fst snd]. unfold word in H. by rewrite H. Qed.

Lemma walk_noalloc m a root T va :
  pt_wf m root T ->
  walk root va false (m, a) =
    Done (match T !! vpath va with Some b => b + 8 * PX 0 va | None => 0 end, (m, a)).
Proof.
  intros Hw. unfold walk, vpath. cbn [walk_loop]. change (Z.of_nat 2) with 2. change (Z.of_nat 1) with 1.
  pose proof (PX_range 2 va ltac:(lia)) as H2. pose proof (PX_range 1 va ltac:(lia)) as H1.
  pose proof (pt_root _ _ _ Hw) as Hr.
  destruct (pt_page _ _ _ Hw _ _ Hr) as [_ Hro].
  destruct (word_owned _ _ _ H2 Hro) as [e He]. rewrite (load64_bind _ _ _ _ _ _ He).
  pose proof (pt_entry _ _ _ Hw [] root _ e Hr ltac:(simpl; lia) H2 He) as Hc. simpl in Hc.
  destruct (Z.eqb_spec (Z.land e PTE_V) 0) as [Hv|Hv]; cbn [negb].
  - destruct (T !! [PX 2 va; PX 1 va]) as [b|] eqn:Hb; [|done].
    destruct (pt_parent _ _ _ Hw [PX 2 va] (PX 1 va) b Hb) as [c Hc']. congruence.
  - destruct (pt_page _ _ _ Hw _ _ Hc) as [_ Hco].
    destruct (word_owned _ _ _ H1 Hco) as [e1 He1]. rewrite (load64_bind _ _ _ _ _ _ He1).
    pose proof (pt_entry _ _ _ Hw _ _ _ e1 Hc ltac:(simpl; lia) H1 He1) as Hd. simpl in Hd. rewrite Hd.
    destruct (Z.land e1 PTE_V =? 0); done.
Qed.

(** A new zeroed page [b] linked at the free entry [i] of the page [c]. *)
Section Link.
Context (m : mem) (root : Z) (T : dir) (p : list Z) (c i b : Z) (m2 : mem).
Hypothesis Hw : pt_wf m root T.
Hypothesis Hc : T !! p = Some c.
Hypothesis Hlen : (length p < 2)%nat.
Hypothesis Hi : px i.
Hypothesis Hnone : T !! (p ++ [i]) = None.
Hypothesis Hb : is_page b.
Hypothesis Hfresh : forall q d, T !! q = Some d -> d <> b.
Hypothesis Hsame : forall q d, T !! q = Some d -> forall x, page_of d x -> m2 !! x = m !! x.
Hypothesis Hzero : bytes_at m2 b (replicate 4096 0).
#[local] Abbreviation m3 := (put_le 8 (c + 8 * i) (Z.lor (PA2PTE b) PTE_V) m2).
#[local] Abbreviation T' := (<[p ++ [i] := b]> T).

Lemma link_other q d x : T !! q = Some d -> q <> p -> page_of d x -> m3 !! x = m !! x.
Proof.
  intros Hq Hqp Hx. rewrite put_le_page; [by eapply Hsame|done|].
  eapply page_disjoint; [by eapply (pt_page _ _ _ Hw)|by eapply (pt_page _ _ _ Hw)| |exact Hx].
  intros ->. apply Hqp. by eapply (pt_inj _ _ _ Hw).
Qed.

Lemma link_zero : bytes_at m3 b (replicate 4096 0).
Proof.
  eapply bytes_at_frame; [exact Hzero|]. intros x Hx. rewrite length_replicate in Hx. apply put_le_page; [done|].
  apply (page_disjoint b c); [done|by eapply (pt_page _ _ _ Hw)|intros ->; by eapply Hfresh|unfold page_of, PGSIZE; lia].
Qed.

Lemma link_word j : px j -> j <> i -> word m3 (c + 8 * j) = word m (c + 8 * j).
Proof. intros Hj Hji. rewrite word_put_other by done. apply word_frame; [done|]. by eapply Hsame. Qed.

(** The entry leads to the page. *)
Lemma link_here e : word m3 (c + 8 * i) = Some e -> Z.land e PTE_V <> 0 /\ PTE2PA e = b.
Proof.
  pose proof (make_pte_eq b 0 Hb ltac:(lia)) as [Hpte _]. rewrite Z.lor_0_r in Hpte.
  change (Z.lor 0 1) with 1 in Hpte. intros He.
  assert (e = b / 4096 * 2 ^ 10 + 1) as ->.
  { rewrite word_put_same in He; [congruence|]. rewrite Hpte. unfold is_page, PGSIZE in Hb. zdiv. }
  change 1 with (Z.lor 0 1). split; [apply pte_valid|].
  rewrite pte_page; [|unfold is_page, PGSIZE in Hb; zdiv|by split]. unfold is_page, PGSIZE in Hb. zdiv.
Qed.

Lemma link_owned q d : T !! q = Some d -> owned m3 d PGSIZE.
Proof.
  intros Hq. destruct (pt_page _ _ _ Hw _ _ Hq) as [_ H2]. destruct (decide (q = p)) as [->|Hqp].
  - rewrite Hc in Hq. injection Hq as <-. intros j Hj. apply put_le_dom.
    + destruct (word_owned m c i Hi H2) as [e He].
      exists e. change (word m2 (c + 8 * i) = Some e). rewrite <- He. apply word_frame; [done|]. by eapply Hsame.
    + rewrite (Hsame _ _ Hc); [by apply H2|]. unfold page_of. lia.
  - eapply owned_same; [|exact H2]. intros x. by apply (link_other q).
Qed.

(** The entries of the table above the leaves. *)
Lemma link_entry q d j e : T' !! q = Some d -> (length q < 2)%nat -> px j -> word m3 (d + 8 * j) = Some e ->
  T' !! (q ++ [j]) = if Z.land e PTE_V =? 0 then None else Some (PTE2PA e).
Proof.
  rewrite lookup_insert_Some. intros [[<- <-]|[_ Hq]] Hql Hj He.
  - rewrite word_zero in He by (done || apply link_zero). injection He as <-. simpl.
    rewrite lookup_insert_ne by (intros E; apply (f_equal length) in E; rewrite !length_app in E; simpl in E; lia).
    destruct (T !! ((p ++ [i]) ++ [j])) as [x|] eqn:Hx; [|done].
    destruct (pt_parent _ _ _ Hw _ _ _ Hx) as [y Hy]. congruence.
  - destruct (decide (q = p /\ j = i)) as [[-> ->]|Hqj].
    + rewrite Hc in Hq. injection Hq as <-. rewrite lookup_insert_eq. destruct (link_here e He) as [Hv ->].
      by rewrite (proj2 (Z.eqb_neq _ 0)).
    + assert (q ++ [j] <> p ++ [i]) as Hqj' by (intros [-> [= ->]]%app_inj_2; [tauto|done]).
      rewrite lookup_insert_ne by congruence.
      eapply (pt_entry _ _ _ Hw); [exact Hq|done|done|]. rewrite <- He. symmetry.
      destruct (decide (q = p)) as [->|Hqp].
      * rewrite Hc in Hq. injection Hq as <-. apply link_word; [done|]. intros ->. tauto.
      * apply word_frame; [done|]. intros x. by apply (link_other q).
Qed.

Lemma link_page : pt_wf m3 root T' /\ (forall va, pte_of m3 T' va = pte_of m T va).
Proof.
  assert (p ++ [i] <> []) as Hne by (by destruct p). split; [split|].
  - rewrite lookup_insert_ne by done. apply Hw.
  - intros q d. rewrite lookup_insert_Some. intros [[<- <-]|[_ Hq]]; [|by eapply (pt_path _ _ _ Hw)].
    destruct (pt_path _ _ _ Hw _ _ Hc) as [_ Hp]. rewrite length_app. simpl. split; [lia|].
    apply Forall_app. split; [done|]. by apply Forall_singleton.
  - intros q d. rewrite lookup_insert_Some. intros [[<- <-]|[_ Hq]].
    + split; [done|]. pose proof (bytes_at_owned _ _ _ link_zero) as Ho. by rewrite length_replicate in Ho.
    + split; [by eapply (pt_page _ _ _ Hw)|by eapply link_owned].
  - intros q q' d. rewrite !lookup_insert_Some. intros [[<- <-]|[Hq1 Hq]] [[<- Hd]|[Hq2 Hq']]; try done.
    + by destruct (Hfresh _ _ Hq').
    + subst d. by destruct (Hfresh _ _ Hq).
    + by eapply (pt_inj _ _ _ Hw).
  - exact link_entry.
  - intros q j d. rewrite lookup_insert_Some. intros [[E _]|[_ Hq]].
    + apply app_inj_2 in E as [-> _]; [|done]. rewrite lookup_insert_ne; [eauto|]. intros E'. apply (f_equal length) in E'.
      rewrite length_app in E'. simpl in E'. lia.
    + destruct (pt_parent _ _ _ Hw _ _ _ Hq) as [y Hy]. rewrite lookup_insert_ne; [eauto|]. intros E. congruence.
  - intros va. unfold pte_of. pose proof (PX_range 0 va ltac:(lia)) as H0. destruct (decide (vpath va = p ++ [i])) as [E|E].
    + rewrite E, lookup_insert_eq, Hnone. by rewrite (word_zero _ _ _ H0 link_zero).
    + rewrite lookup_insert_ne by congruence. destruct (T !! vpath va) as [d|] eqn:Hd; [|done].
      f_equal. apply word_frame; [done|]. intros x. apply (link_other _ _ _ Hd).
      intros E'. rewrite <- E' in Hlen. unfold vpath in Hlen. simpl in Hlen. lia.
Qed.
End Link.

(** A table only depends on its own pages. *)
Lemma pt_wf_same m m' root T :
  pt_wf m root T -> (forall p b, T !! p = Some b -> forall x, page_of b x -> m' !! x = m !! x) ->
  pt_wf m' root T /\ (forall va, pte_of m' T va = pte_of m T va).
Proof.
  intros Hw Hs. split; [split; try apply Hw|].
  - intros p b Hp. destruct (pt_page _ _ _ Hw _ _ Hp) as [H1 H2]. split; [done|].
    eapply owned_same; [|exact H2]. by eapply Hs.
  - intros p b i e Hp Hl Hi He. eapply (pt_entry _ _ _ Hw); [exact Hp|done|done|].
    rewrite <- He. symmetry. apply word_frame; [done|]. by eapply Hs.
  - intros va. unfold pte_of. destruct (T !! vpath va) as [d|] eqn:Hd; [|done].
    f_equal. apply word_frame; [by apply PX_range|]. by eapply Hs.
Qed.

(** What allocation on the way of a walk may change. *)
Record grows m a T m' a' T' : Prop := {
  gr_pte : forall va, pte_of m' T' va = pte_of m T va;
  gr_mem : forall q, foreign T a q -> m' !! q = m !! q /\ foreign T' a' q
}.

Lemma grows_refl m a T : grows m a T m a T.
Proof. split; auto. Qed.

Lemma grows_trans m a T m1 a1 T1 m2 a2 T2 :
  grows m a T m1 a1 T1 -> grows m1 a1 T1 m2 a2 T2 -> grows m a T m2 a2 T2.
Proof.
  intros [H1 H2] [H3 H4]. split.
  - intros va. by rewrite H3.
  - intros q Hq. destruct (H2 q Hq) as [E Hq1]. destruct (H4 q Hq1) as [E' Hq2]. by rewrite E'.
Qed.

Lemma memset_page m a b :
  owned m b PGSIZE ->
  on_mem (memset b 0 PGSIZE) (m, a) = Done (b, (put_bytes b (replicate 4096 0) m, a)).
Proof.
  intros Ho. unfold on_mem, memset. cbn [fst snd].
  erewrite bind_done by (apply memset_loop_spec; [by vm_compute|exact Ho]). done.
Qed.

Lemma malloc_bind {B} m a b m1 a1 (K : Z -> M (vst (A := A)) B) :
  mem_malloc m a = Some (b, m1, a1) -> bind malloc_page K (m, a) = K b (m1, a1).
Proof. intros H. unfold bind, malloc_page. cbn [fst snd]. by rewrite H. Qed.

Lemma malloc_bind_none {B} m a (K : Z -> M (vst (A := A)) B) :
  mem_malloc m a = None -> bind malloc_page K (m, a) = Panic no_space.
Proof. intros H. unfold bind, malloc_page. cbn [fst snd]. by rewrite H. Qed.

(** The directories [X] were added where they were missing, each for one page
    of the allocator. *)
Definition spends (X : paths) T a T' a' : Prop :=
  dom T' = X ∪ dom T /\ avail a = (avail a' + missing X T)%nat.

Lemma missing_mono (X Y : paths) T : X ⊆ Y -> (missing X T <= missing Y T)%nat.
Proof. intros H. apply subseteq_size. set_solver. Qed.

Lemma missing_union (X Y : paths) T T' : dom T' = X ∪ dom T ->
  missing (X ∪ Y) T = (missing X T + missing Y T')%nat.
Proof.
  intros HD. unfold missing. rewrite HD, <- size_union by set_solver. f_equal.
  apply set_eq. intros x. destruct (decide (x ∈ X)); set_solver.
Qed.

Lemma missing_in (X : paths) T : X ⊆ dom T -> missing X T = 0%nat.
Proof. intros H. unfold missing. rewrite size_empty_iff. set_solver. Qed.

Lemma spends_nil T a : spends ∅ T a T a.
Proof. split; [set_solver|]. rewrite missing_in by set_solver. lia. Qed.

Lemma spends_in X T a : X ⊆ dom T -> spends X T a T a.
Proof. intros H. split; [set_solver|]. rewrite missing_in by done. lia. Qed.

Lemma spends_trans X Y T a T1 a1 T2 a2 :
  spends X T a T1 a1 -> spends Y T1 a1 T2 a2 -> spends (X ∪ Y) T a T2 a2.
Proof.
  intros [D1 H1] [D2 H2]. split; [set_solver|]. rewrite (missing_union X Y T T1 D1). lia.
Qed.

(** A shortage later on is one from the start. *)
Lemma short_trans X Y T a T1 a1 :
  spends X T a T1 a1 -> (avail a1 < missing Y T1)%nat -> (avail a < missing (X ∪ Y) T)%nat.
Proof. intros [D1 H1] H. rewrite (missing_union X Y T T1 D1). lia. Qed.

Lemma short_mono X Y T a : X ⊆ Y -> (avail a < missing X T)%nat -> (avail a < missing Y T)%nat.
Proof. intros H%(missing_mono _ _ T). lia. Qed.

Lemma walk_step lvl m a root T p c va : let q := p ++ [PX (Z.of_nat (S lvl)) va] in
  vm_inv m a root T -> T !! p = Some c -> (length p < 2)%nat ->
  (avail a < missing {[ q ]} T)%nat /\ walk_loop (S lvl) c va true (m, a) = Panic no_space \/
  (exists m' a' T' d, walk_loop (S lvl) c va true (m, a) = walk_loop lvl d va true (m', a') /\
     vm_inv m' a' root T' /\ grows m a T m' a' T' /\ spends {[ q ]} T a T' a' /\ T' !! q = Some d).
Proof.
  intros q (Hw & Ha & Hno) Hc Hlen. cbn [walk_loop]. set (i := PX (Z.of_nat (S lvl)) va) in *.
  assert (px i) as Hi by (apply PX_range; lia).
  destruct (pt_page _ _ _ Hw _ _ Hc) as [Hcp Hco].
  destruct (word_owned _ _ _ Hi Hco) as [e He]. rewrite (load64_bind _ _ _ _ _ _ He).
  pose proof (pt_entry _ _ _ Hw _ _ _ e Hc Hlen Hi He) as Hd. fold q in Hd.
  destruct (Z.eqb_spec (Z.land e PTE_V) 0) as [Hv|Hv]; cbn [negb].
  2:{ right. exists m, a, T, (PTE2PA e). split_and!; [done|done|apply grows_refl| |done].
      apply spends_in. intros x ->%elem_of_singleton. apply elem_of_dom. by rewrite Hd. }
  assert (missing {[ q ]} T = 1%nat) as Hmiss.
  { unfold missing. rewrite <- (size_singleton (C := paths) q). f_equal. apply not_elem_of_dom in Hd. set_solver. }
  destruct (mem_malloc m a) as [[[b m1] a1]|] eqn:Hm.
  2:{ left. split; [rewrite Hmiss; apply (malloc_none m a Ha) in Hm; lia|]. by rewrite malloc_bind_none. }
  rewrite (malloc_bind _ _ _ _ _ _ Hm).
  destruct (malloc_law m a b m1 a1 Ha Hm) as (Ha1 & Hout & Hbp & Hbo & Hown & Howns & Hav).
  assert (forall q d, T !! q = Some d -> forall x, page_of d x -> m1 !! x = m !! x) as Hsame.
  { intros q' d Hq x Hx. apply Hout. intros r Hr Hrx. eapply page_disjoint; [| | |exact Hx|exact Hrx].
    - by eapply (pt_page _ _ _ Hw).
    - exact (owns_page _ _ _ Ha Hr).
    - intros ->. by eapply Hno. }
  right. assert (b <> 0) as Hb0 by (destruct Hbp; lia). rewrite (proj2 (Z.eqb_neq b 0)) by done.
  rewrite (bind_done _ _ _ _ _ (memset_page m1 a1 b Hbo)).
  set (m2 := put_bytes b (replicate 4096 0) m1).
  assert (forall x, ~ page_of b x -> m2 !! x = m1 !! x) as Hm2.
  { intros x Hx. unfold m2. apply put_bytes_out. rewrite length_replicate.
    unfold page_of, PGSIZE in Hx. lia. }
  assert (forall q d, T !! q = Some d -> d <> b) as Hfresh by (intros q' d Hq ->; by eapply Hno).
  assert (forall q d, T !! q = Some d -> forall x, page_of d x -> m2 !! x = m !! x) as Hsame2.
  { intros q' d Hq x Hx. rewrite Hm2; [by eapply Hsame|].
    eapply page_disjoint; [by eapply (pt_page _ _ _ Hw)|done|by eapply Hfresh|exact Hx]. }
  assert (word m2 (c + 8 * i) = Some e) as He2.
  { rewrite <- He. apply word_frame; [done|]. by eapply Hsame2. }
  rewrite (store64_bind _ _ _ _ _ _ _ He2).
  destruct (link_page m root T p c i b m2 Hw Hc Hlen Hi Hd Hbp Hfresh Hsame2 (put_bytes_at _ _ _))
    as [Hw3 Hpte3].
  set (m3 := put_le 8 (c + 8 * i) (Z.lor (PA2PTE b) PTE_V) m2) in *.
  assert (forall x, ~ page_of b x -> ~ page_of c x -> m3 !! x = m1 !! x) as Hm3.
  { intros x H1 H2. unfold m3. rewrite put_le_page by done. by apply Hm2. }
  exists m3, a1, (<[q := b]> T), b. split; [done|]. split; [|split; [|split; [|by rewrite lookup_insert_eq]]].
  - split; [done|]. split.
    + eapply alloc_frame; [exact Ha1|]. intros r q' Hr Hq. apply Hm3.
      * eapply page_disjoint; [exact (owns_page _ _ _ Ha1 Hr)|done| |exact Hq].
        intros ->. apply Howns in Hr. tauto.
      * eapply page_disjoint; [exact (owns_page _ _ _ Ha1 Hr)|done| |exact Hq].
        intros ->. apply Howns in Hr as [Hr _]. by eapply Hno.
    + intros q' d. rewrite lookup_insert_Some. intros [[<- <-]|[_ Hq]]; rewrite Howns; [tauto|].
      intros [Hr _]. by eapply Hno.
  - split; [done|]. intros q' [H1 H2]. split.
    + rewrite Hm3; [by apply Hout|by apply H1|by eapply H2].
    + split.
      * intros r Hr. apply H1. by apply Howns.
      * intros q2 d. rewrite lookup_insert_Some. intros [[<- <-]|[_ Hq]]; [by apply H1|by eapply H2].
  - split; [by rewrite dom_insert_L|]. rewrite Hmiss. lia.
Qed.

Lemma walk_alloc m a root T va :
  vm_inv m a root T ->
  (avail a < missing (dirs va) T)%nat /\ walk root va true (m, a) = Panic no_space \/
  exists m' a' T' b, walk root va true (m, a) = Done (b + 8 * PX 0 va, (m', a')) /\
    vm_inv m' a' root T' /\ grows m a T m' a' T' /\ spends (dirs va) T a T' a' /\
    T' !! vpath va = Some b /\ b + 8 * PX 0 va <> 0.
Proof.
  intros HI. pose proof (pt_root _ _ _ (proj1 HI)) as Hr. unfold walk.
  destruct (walk_step 1 m a root T [] root va HI Hr) as [[HA HE]|
    (m1 & a1 & T1 & d & HE & HI1 & HG1 & HS1 & Hd)]; [simpl; lia| |].
  { left. split; [|done]. eapply short_mono; [|exact HA]. unfold dirs. set_solver. }
  rewrite HE. destruct (walk_step 0 m1 a1 root T1 [PX 2 va] d va HI1 Hd) as
    [[HA HE2]|(m2 & a2 & T2 & d2 & HE2 & HI2 & HG2 & HS2 & Hd2)]; [simpl; lia| |].
  { left. split; [|done]. by eapply short_trans. }
  right. rewrite HE2. exists m2, a2, T2, d2.
  split; [done|]. split; [done|]. split; [by eapply grows_trans|]. split; [by eapply spends_trans|].
  split; [done|]. destruct (pt_page _ _ _ (proj1 HI2) _ _ Hd2) as [[H0 _] _].
  pose proof (PX_range 0 va ltac:(lia)) as Hx. unfold px in Hx. lia.
Qed.

(** Writing a leaf entry. *)
Lemma set_leaf m a root T va b v :
  vm_inv m a root T -> T !! vpath va = Some b -> 0 <= v < 2 ^ 64 ->
  let m' := put_le 8 (b + 8 * PX 0 va) v m in
  vm_inv m' a root T /\
  (forall va', pte_of m' T va' = if decide (vpn va' = vpn va) then v else pte_of m T va') /\
  (forall q, foreign T a q -> m' !! q = m !! q).
Proof.
  intros (Hw & Ha & Hno) Hb Hv m'.
  pose proof (PX_range 0 va ltac:(lia)) as Hi. destruct (pt_page _ _ _ Hw _ _ Hb) as [Hbp Hbo].
  assert (forall x, ~ page_of b x -> m' !! x = m !! x) as Hout by (intros x Hx; by apply put_le_page).
  assert (forall q d, T !! q = Some d -> q <> vpath va -> forall x, page_of d x -> m' !! x = m !! x) as Hother.
  { intros q d Hq Hne x Hx. apply Hout. eapply page_disjoint; [|done| |exact Hx].
    - by eapply (pt_page _ _ _ Hw).
    - intros ->. apply Hne. by eapply (pt_inj _ _ _ Hw). }
  assert (is_Some (get_le 8 m (b + 8 * PX 0 va))) as Hsome
    by (destruct (word_owned _ _ _ Hi Hbo) as [e He]; eauto).
  split; [split; [split; try apply Hw|split]|split].
  - intros q d Hq. destruct (pt_page _ _ _ Hw _ _ Hq) as [H1 H2]. split; [done|].
    eapply owned_frame; [|exact H2]. intros x Hx. by apply put_le_dom.
  - intros q d i e Hq Hl Hpi He. eapply (pt_entry _ _ _ Hw); [exact Hq|done|done|].
    rewrite <- He. symmetry. apply word_frame; [done|]. eapply Hother; [exact Hq|].
    intros ->. unfold vpath in Hl. simpl in Hl. lia.
  - eapply alloc_frame; [exact Ha|]. intros r q Hr Hq. apply Hout.
    eapply page_disjoint; [exact (owns_page _ _ _ Ha Hr)|done| |exact Hq]. intros ->. by eapply Hno.
  - done.
  - intros va'. destruct (decide (vpn va' = vpn va)) as [E|E].
    + apply vpn_vpath in E as [E1 E0]. unfold pte_of. rewrite E1, Hb, E0. unfold m'.
      by rewrite word_put_same.
    + unfold pte_of. destruct (T !! vpath va') as [d|] eqn:Hd; [|done]. f_equal.
      destruct (decide (vpath va' = vpath va)) as [E1|E1].
      * rewrite E1, Hb in Hd. injection Hd as <-. apply word_put_other. intros E0.
        apply E. by apply vpn_vpath.
      * apply word_frame; [by apply PX_range|]. by eapply Hother.
  - intros q [_ H2]. apply Hout. by eapply H2.
Qed.

Lemma pte_of_word m root T va b e :
  pt_wf m root T -> T !! vpath va = Some b -> word m (b + 8 * PX 0 va) = Some e -> pte_of m T va = e.
Proof. intros Hw Hb He. unfold pte_of. by rewrite Hb, He. Qed.

Lemma vpn_add va k :
  0 <= va -> va mod PGSIZE = 0 -> va + k * PGSIZE < 2 ^ 39 -> 0 <= k ->
  vpn (va + k * PGSIZE) = va / PGSIZE + k.
Proof.
  unfold vpn, u64, PGSIZE. intros H1 H2 H3 H4. rewrite (Z.mod_small (va + k * 4096)) by lia.
  rewrite Z.div_add by lia. apply Z.mod_small. zdiv.
Qed.

Lemma vpn_page va : 0 <= va -> va mod PGSIZE = 0 -> va < 2 ^ 39 -> vpn va = va / PGSIZE.
Proof.
  intros H1 H2 H3. pose proof (vpn_add va 0 H1 H2) as H. rewrite Z.mul_0_l, !Z.add_0_r in H. apply H; unfold PGSIZE in *; lia.
Qed.

(** The entries that [vm_map] of [n] pages leaves. *)
Definition mapped m T (va pa perm : Z) (n : nat) m' T' : Prop :=
  forall va', pte_of m' T' va' =
    if decide (va / PGSIZE <= vpn va' < va / PGSIZE + Z.of_nat n)
    then Z.lor (Z.lor (PA2PTE (pa + (vpn va' - va / PGSIZE) * PGSIZE)) perm) PTE_V
    else pte_of m T va'.

Lemma make_pte_range pa perm :
  0 <= pa -> pa + PGSIZE <= 2 ^ 56 -> pa mod PGSIZE = 0 -> 0 <= perm < 1024 ->
  0 <= Z.lor (Z.lor (PA2PTE pa) perm) PTE_V < 2 ^ 64.
Proof.
  intros H1 H2 H3 H4. unfold PGSIZE in *. destruct (decide (pa = 0)) as [->|Hne].
  - change (PA2PTE 0) with 0. rewrite Z.lor_0_l.
    split; [apply Z.lor_nonneg; split; [lia|by vm_compute]|].
    enough (Z.lor perm PTE_V < 2 ^ 10) by lia. change PTE_V with 1.
    pose proof (make_pte_eq 4096 perm ltac:(by repeat split) H4) as [_ H]. lia.
  - destruct (make_pte_eq pa perm) as [-> H]; [unfold is_page, PGSIZE; lia|done|]. zdiv.
Qed.

(** One page of [vm_map]. *)
Lemma vm_map_turn root perm remap fuel last m a T va pa :
  vm_inv m a root T ->
  0 <= va -> va mod PGSIZE = 0 -> va < 2 ^ 39 ->
  0 <= pa -> pa mod PGSIZE = 0 -> pa + PGSIZE <= 2 ^ 56 -> 0 <= perm < 1024 ->
  let run := vm_map_loop (S fuel) root va pa last perm remap (m, a) in
  (avail a < missing (dirs va) T)%nat /\ run = Panic no_space \/
  remap = false /\ Z.land (pte_of m T va) PTE_V <> 0 /\ run = Panic "vm_map: remap" \/
  exists m1 a1 T1, (remap = true \/ Z.land (pte_of m T va) PTE_V = 0) /\
    run = (if va =? last then Done (0, (m1, a1))
           else vm_map_loop fuel root (u64 (va + PGSIZE)) (u64 (pa + PGSIZE)) last perm remap (m1, a1)) /\
    vm_inv m1 a1 root T1 /\ (forall q, foreign T a q -> m1 !! q = m !! q /\ foreign T1 a1 q) /\
    spends (dirs va) T a T1 a1 /\
    (forall va', pte_of m1 T1 va' =
       if decide (vpn va' = va / PGSIZE) then Z.lor (Z.lor (PA2PTE pa) perm) PTE_V else pte_of m T va').
Proof.
  intros HI Hva Hal Hhi Hpa Hpal Hphi Hperm. cbn zeta. cbn [vm_map_loop].
  destruct (walk_alloc m a root T va HI) as [[HA HE]|(m1 & a1 & T1 & b & HE & HI1 & [Hpte Hmem] & HS & Hb & Hb0)].
  { left. split; [done|]. by apply bind_panic. }
  right. rewrite (bind_done _ _ _ _ _ HE), (proj2 (Z.eqb_neq _ 0)) by done.
  destruct (pt_page _ _ _ (proj1 HI1) _ _ Hb) as [_ Hbo].
  destruct (word_owned _ _ _ (PX_range 0 va ltac:(lia)) Hbo) as [e He].
  rewrite (load64_bind _ _ _ _ _ _ He).
  pose proof (pte_of_word _ _ _ _ _ _ (proj1 HI1) Hb He) as Hpe. rewrite Hpte in Hpe. rewrite Hpe.
  pose proof (vpn_page va Hva Hal ltac:(unfold PGSIZE in *; lia)) as Hvpn.
  destruct (negb (Z.land e PTE_V =? 0) && negb remap) eqn:Et.
  { left. apply andb_true_iff in Et as [E1 E2]. split; [by destruct remap|]. split; [|done].
    apply negb_true_iff, Z.eqb_neq in E1. done. }
  right. rewrite (store64_bind _ _ _ _ _ _ _ He).
  destruct (set_leaf m1 a1 root T1 va b (Z.lor (Z.lor (PA2PTE pa) perm) PTE_V) HI1 Hb)
     as (HI2 & Hpte2 & Hmem2); [by apply make_pte_range|].
  eexists _, a1, T1. split; [|split; [|split; [exact HI2|split; [|split; [done|]]]]].
  - destruct remap; [by left|right]. rewrite andb_true_r in Et. by apply negb_false_iff, Z.eqb_eq in Et.
  - destruct (va =? last); reflexivity.
  - intros q Hq. destruct (Hmem q Hq) as [E Hq1]. split; [by rewrite Hmem2|done].
  - intros va'. by rewrite Hpte2, Hpte, Hvpn.
Qed.

(** The range's first page apart from the others. *)
Lemma mapped_cons m m1 m' T T1 T' va pa perm k : 0 <= va -> va mod PGSIZE = 0 ->
  (forall va', pte_of m1 T1 va' =
     if decide (vpn va' = va / PGSIZE) then Z.lor (Z.lor (PA2PTE pa) perm) PTE_V else pte_of m T va') ->
  mapped m1 T1 (va + PGSIZE) (pa + PGSIZE) perm k m' T' -> mapped m T va pa perm (S k) m' T'.
Proof.
  intros Hva Hal H1 Hk va'. assert ((va + PGSIZE) / PGSIZE = va / PGSIZE + 1) as Hdiv by (unfold PGSIZE in *; zdiv).
  rewrite Hk, Hdiv, H1. destruct (decide (vpn va' = va / PGSIZE)) as [E|E].
  - rewrite decide_False, decide_True by lia. rewrite E, Z.sub_diag, Z.add_0_r. done.
  - destruct (decide (va / PGSIZE + 1 <= vpn va' < va / PGSIZE + 1 + Z.of_nat k)) as [H|H].
    + rewrite decide_True by lia. do 3 f_equal. lia.
    + by rewrite decide_False by lia.
Qed.

(** The range [va], [n] pages, has an entry already. *)
Definition taken m T (va : Z) (n : nat) : Prop :=
  exists va', va / PGSIZE <= vpn va' < va / PGSIZE + Z.of_nat n /\ Z.land (pte_of m T va') PTE_V <> 0.

Lemma pte_of_vpn m T va va' : vpn va = vpn va' -> pte_of m T va = pte_of m T va'.
Proof. intros [E1 E0]%vpn_vpath. unfold pte_of. by rewrite E1, E0. Qed.

Lemma taken_cons m m1 T T1 va n new : 0 <= va -> va mod PGSIZE = 0 ->
  (forall va', pte_of m1 T1 va' = if decide (vpn va' = va / PGSIZE) then new else pte_of m T va') ->
  taken m1 T1 (va + PGSIZE) n -> taken m T va (S n).
Proof.
  intros Hva Hal H1 (va' & Hr & Hv). assert ((va + PGSIZE) / PGSIZE = va / PGSIZE + 1) as Hdiv by (unfold PGSIZE in *; zdiv).
  rewrite Hdiv in Hr. rewrite H1, decide_False in Hv by lia. exists va'. split; [lia|done].
Qed.

Lemma taken_tail m m1 T T1 va n new : 0 <= va -> va mod PGSIZE = 0 -> va < 2 ^ 39 ->
  Z.land (pte_of m T va) PTE_V = 0 ->
  (forall va', pte_of m1 T1 va' = if decide (vpn va' = va / PGSIZE) then new else pte_of m T va') ->
  taken m T va (S n) -> taken m1 T1 (va + PGSIZE) n.
Proof.
  intros Hva Hal Hhi H0 H1 (va' & Hr & Hv). assert ((va + PGSIZE) / PGSIZE = va / PGSIZE + 1) as Hdiv by (unfold PGSIZE in *; zdiv).
  pose proof (vpn_page va Hva Hal ltac:(unfold PGSIZE in *; lia)) as Hvpn.
  assert (vpn va' <> va / PGSIZE) as Hne.
  { intros E. rewrite <- Hvpn in E. by rewrite (pte_of_vpn m T va' va E) in Hv. }
  exists va'. rewrite Hdiv, H1, decide_False by done. split; [lia|done].
Qed.

(** [vm_map] of [S n] pages. *)
Lemma vm_map_loop_spec root perm remap : forall n fuel m a T va pa,
  vm_inv m a root T ->
  0 <= va -> va mod PGSIZE = 0 -> va + Z.of_nat n * PGSIZE < 2 ^ 39 ->
  0 <= pa -> pa mod PGSIZE = 0 -> pa + Z.of_nat (S n) * PGSIZE <= 2 ^ 56 -> 0 <= perm < 1024 ->
  (n < fuel)%nat ->
  let run := vm_map_loop fuel root va pa (va + Z.of_nat n * PGSIZE) perm remap (m, a) in
  let X := range_dirs va (S n) in
  (avail a < missing X T)%nat /\ run = Panic no_space \/
  remap = false /\ taken m T va (S n) /\ run = Panic "vm_map: remap" \/
  exists m' a' T', (remap = true \/ ~ taken m T va (S n)) /\ run = Done (0, (m', a')) /\ vm_inv m' a' root T' /\
    (forall q, foreign T a q -> m' !! q = m !! q /\ foreign T' a' q) /\
    spends X T a T' a' /\ mapped m T va pa perm (S n) m' T'.
Proof.
  induction n as [|n IH]; intros [|fuel] m a T va pa HI Hva Hal Hhi Hpa Hpal Hphi Hperm Hf; try lia; cbn zeta;
    cbn [range_dirs];
    (edestruct (vm_map_turn root perm remap fuel) as [[HA HE]|[(HR & HT & HE)|(m1 & a1 & T1 & HR & HE & HI1 & Hmem1 & HS1 & Hpte1)]];
      [exact HI|exact Hva|exact Hal|unfold PGSIZE in *; lia|exact Hpa|exact Hpal|unfold PGSIZE in *; lia|exact Hperm| | |];
      [left; split; [eapply short_mono; [|exact HA]; set_solver|exact HE]
      |right; left; split; [done|split; [|exact HE]];
       exists va; split; [rewrite (vpn_page va Hva Hal) by (unfold PGSIZE in *; lia); lia|done]|]).
  - rewrite Z.add_0_r, Z.eqb_refl in HE. right. right. exists m1, a1, T1. split; [|split; [by rewrite Z.add_0_r|split; [done|split; [done|split]]]].
    + destruct HR as [->|H0]; [by left|right]. intros Ht. eapply taken_tail in Ht; [|done|done|unfold PGSIZE in *; lia|exact H0|exact Hpte1].
      destruct Ht as (v & Hr & _). lia.
    + by rewrite (right_id_L ∅ (∪)).
    + eapply mapped_cons; [done|done|exact Hpte1|]. intros va'. by rewrite decide_False by lia.
  - rewrite (proj2 (Z.eqb_neq va _)) in HE by (unfold PGSIZE; lia).
    assert (forall x, 0 <= x < 2 ^ 57 -> u64 x = x) as Hu by (intros x Hx; apply Z.mod_small; lia).
    rewrite !Hu in HE by (unfold PGSIZE in *; lia).
    replace (va + Z.of_nat (S n) * PGSIZE) with (va + PGSIZE + Z.of_nat n * PGSIZE) in * by lia.
    destruct (IH fuel m1 a1 T1 (va + PGSIZE) (pa + PGSIZE) HI1) as [[HA HE2]|[(HR2 & HT2 & HE2)|(m2 & a2 & T2 & HR2 & HE2 & HI2 & Hmem2 & HS2 & Hm2)]];
      try done; try lia; try (unfold PGSIZE in *; zdiv); rewrite HE2 in HE.
    + left. split; [by eapply short_trans|done].
    + right. left. split; [done|]. split; [by eapply taken_cons|done].
    + right. right. exists m2, a2, T2. split; [|split; [done|split; [done|split; [|split; [by eapply spends_trans|by eapply mapped_cons]]]]].
      * destruct HR as [->|H0]; [by left|]. destruct HR2 as [->|Hn]; [by left|]. right. intros Ht. apply Hn.
        eapply taken_tail; [..|exact Ht]; try done. unfold PGSIZE in *; lia.
      * intros q Hq. destruct (Hmem1 q Hq) as [E1 Hq1]. destruct (Hmem2 q Hq1) as [E2 Hq2]. by rewrite E2.
Qed.

End Proofs.

(** ** Freeing a table *)

Lemma for512_inv {A} `{!PageAlloc A} (P : Z -> vst (A := A) -> Prop) body :
  (forall i s, px i -> P i s -> exists s', body i s = Done (tt, s') /\ P (i + 1) s') ->
  forall k s, (k <= 512)%nat -> P (512 - Z.of_nat k) s -> exists s', for512 k body s = Done (tt, s') /\ P 512 s'.
Proof.
  intros Hstep. induction k as [|k IH]; intros s Hk Hs; cbn [for512].
  - exists s. by rewrite Z.sub_0_r in Hs.
  - destruct (Hstep (512 - Z.of_nat (S k)) s) as (s1 & H1 & Hs1); [unfold px; lia|done|].
    replace (512 - Z.of_nat (S k) + 1) with (512 - Z.of_nat k) in Hs1 by lia.
    destruct (IH s1 ltac:(lia) Hs1) as (s2 & H2 & Hs2). exists s2. by rewrite (bind_done _ _ _ _ _ H1).
Qed.

Lemma pt_prefix m root T p q b : pt_wf m root T -> T !! (p ++ q) = Some b -> is_Some (T !! p).
Proof.
  intros Hw. revert b. induction q as [|i q IH] using rev_ind; intros b Hb; [rewrite app_nil_r in Hb; eauto|].
  rewrite app_assoc in Hb. destruct (pt_parent _ _ _ Hw _ _ _ Hb) as [d Hd]. by eapply IH.
Qed.

(** A page that goes with the table: a page of the table at its path or, when
    the mapped pages go too, the page of a leaf entry at a path of length 3. *)
Definition node (m : mem) (T : dir) (do_free : bool) (q : list Z) (r : Z) : Prop :=
  T !! q = Some r \/
  do_free = true /\ exists p b i e, q = p ++ [i] /\ length p = 2%nat /\ T !! p = Some b /\ px i /\
    word m (b + 8 * i) = Some e /\ Z.land e PTE_V <> 0 /\ r = PTE2PA e.

(** A table as [vm_map] builds it: entries of the upper levels have no
    permissions, leaves have some; the pages that go are apart. *)
Record freeable (m : mem) (root : Z) (T : dir) (do_free : bool) : Prop := {
  fr_wf : pt_wf m root T;
  fr_kind : forall p b i e, T !! p = Some b -> px i -> word m (b + 8 * i) = Some e -> Z.land e PTE_V <> 0 ->
    is_pagetable e = bool_decide (length p < 2)%nat;
  fr_page : forall q r, node m T do_free q r -> is_page r /\ owned m r PGSIZE;
  fr_inj : forall q q' r, node m T do_free q r -> node m T do_free q' r -> q = q'
}.

Section Free.
Context {A : Type} `{!PageAlloc A} (m0 : mem) (root : Z) (T : dir) (do_free : bool).
Hypothesis HF : freeable m0 root T do_free.
Implicit Types (m : mem) (a : A).
#[local] Abbreviation node := (node m0 T do_free).

(** The pages below a path. *)
Definition under (p : list Z) (r : Z) : Prop := exists q, node (p ++ q) r.

Lemma under_page p r : under p r -> is_page r /\ owned m0 r PGSIZE.
Proof. intros [q Hq]. by apply (fr_page _ _ _ _ HF) in Hq. Qed.

Lemma under_step p i r : under (p ++ [i]) r -> under p r.
Proof. intros [q Hq]. exists (i :: q). by rewrite <- app_assoc in Hq. Qed.

Lemma under_apart p i j r : under (p ++ [i]) r -> under (p ++ [j]) r -> i = j.
Proof.
  intros [q Hq] [q' Hq']. pose proof (fr_inj _ _ _ _ HF _ _ _ Hq Hq') as E.
  rewrite <- !app_assoc in E. apply app_inv_head in E. by injection E.
Qed.

Lemma under_not_here p i c : T !! p = Some c -> ~ under (p ++ [i]) c.
Proof.
  intros Hc [q Hq]. pose proof (fr_inj _ _ _ _ HF _ p _ Hq (or_introl Hc)) as E.
  apply (f_equal length) in E. rewrite !length_app in E. simpl in E. lia.
Qed.

(** The pages below a page of the table: itself and those below its entries. *)
Lemma under_cases p c r :
  T !! p = Some c -> under p r <-> r = c \/ exists i, px i /\ under (p ++ [i]) r.
Proof.
  intros Hc. split; [|intros [->|(i & _ & H)]; [exists []; rewrite app_nil_r; by left|by eapply under_step]].
  intros [[|i q] Hq].
  - left. rewrite app_nil_r in Hq. destruct Hq as [Hq|(_ & p' & b & i & e & -> & Hl & _)]; [congruence|].
    destruct (pt_path _ _ _ (fr_wf _ _ _ _ HF) _ _ Hc) as [Hlen _]. rewrite length_app in Hlen. simpl in Hlen. lia.
  - right. exists i. split; [|exists q; by rewrite <- app_assoc].
    assert (Forall px (p ++ i :: q)) as Hpx.
    { destruct Hq as [Hq|(_ & p' & b & j & e & -> & Hl & Hb & Hj & _)].
      - by apply (pt_path _ _ _ (fr_wf _ _ _ _ HF) _ _ Hq).
      - apply Forall_app. split; [by apply (pt_path _ _ _ (fr_wf _ _ _ _ HF) _ _ Hb)|by apply Forall_singleton]. }
    by apply Forall_app in Hpx as [_ [Hi _]%Forall_cons].
Qed.

Lemma under_upper p i r : (length p < 2)%nat -> under (p ++ [i]) r -> is_Some (T !! (p ++ [i])).
Proof.
  intros Hl [q [Hq|(_ & p' & b & j & e & E & Hl' & Hb & _)]]; [by eapply pt_prefix; [apply (fr_wf _ _ _ _ HF)|]|].
  destruct q as [|x q] using rev_ind.
  - rewrite app_nil_r in E. apply (f_equal length) in E. rewrite !length_app in E. simpl in E. lia.
  - rewrite app_assoc in E. apply app_inj_2 in E as [<- _]; [|done].
    by eapply pt_prefix; [apply (fr_wf _ _ _ _ HF)|].
Qed.

Lemma under_leaf p c i e r : T !! p = Some c -> length p = 2%nat -> word m0 (c + 8 * i) = Some e ->
  px i -> under (p ++ [i]) r <-> do_free = true /\ Z.land e PTE_V <> 0 /\ r = PTE2PA e.
Proof.
  intros Hc Hl He Hi. split.
  - intros [q [Hq|(Hdo & p' & b & j & e' & E & Hl' & Hb & _ & He' & Hv & ->)]].
    + destruct (pt_path _ _ _ (fr_wf _ _ _ _ HF) _ _ Hq) as [Hq' _]. rewrite !length_app in Hq'. simpl in Hq'. lia.
    + assert (q = []) as -> by (apply (f_equal length) in E; rewrite !length_app in E; simpl in E; destruct q; [done|simpl in E; lia]).
      rewrite app_nil_r in E. apply app_inj_2 in E as [-> [= ->]]; [|done].
      rewrite Hc in Hb. injection Hb as ->. rewrite He in He'. by injection He' as ->.
  - intros (Hdo & Hv & ->). exists []. rewrite app_nil_r. right. split; [done|]. by exists p, c, i, e.
Qed.

(** Memory of neither the allocator nor the pages below [p]. *)
Definition elsewhere a p x : Prop := (forall r, owns a r -> ~ page_of r x) /\ (forall r, under p r -> ~ page_of r x).

(** The pages below [p] are as they were and not yet the allocator's. *)
Definition ready m a p : Prop :=
  alloc_inv m a /\ forall r, under p r -> ~ owns a r /\ forall x, page_of r x -> m !! x = m0 !! x.

(** They now belong to the allocator. *)
Definition freed m a p m' a' : Prop :=
  alloc_inv m' a' /\ (forall r, owns a' r <-> owns a r \/ under p r) /\
  (forall x, elsewhere a p x -> m' !! x = m !! x).

Lemma ready_apart m a p r b x : ready m a p -> under p r -> owns a b -> page_of r x -> ~ page_of b x.
Proof.
  intros [Ha Hr] Hu Hb Hx. eapply page_disjoint; [by apply (under_page p)|exact (owns_page _ _ _ Ha Hb)| |exact Hx].
  intros ->. by apply (Hr b Hu).
Qed.

(** Before entry [i] of the page [c] at [p]. *)
Record freeing m a p c (i : Z) (s : vst (A := A)) : Prop := {
  fg_inv : alloc_inv s.1 s.2;
  fg_owns : forall r, owns s.2 r <-> owns a r \/ exists j, 0 <= j < i /\ under (p ++ [j]) r;
  fg_frame : forall x, elsewhere a p x -> s.1 !! x = m !! x;
  fg_next : forall j r x, i <= j < 512 -> under (p ++ [j]) r -> page_of r x -> s.1 !! x = m0 !! x;
  fg_word : forall j, i <= j < 512 -> word s.1 (c + 8 * j) = word m0 (c + 8 * j);
  fg_owned : owned s.1 c PGSIZE
}.

Lemma freeing_ready m a p c i s : ready m a p -> px i -> freeing m a p c i s -> ready s.1 s.2 (p ++ [i]).
Proof.
  intros [_ Hr] Hi [G1 G2 G3 G4 G5 G6]. split; [done|]. intros r Hu. split.
  - rewrite G2. intros [Ho|(j & Hj & Huj)]; [by apply (Hr r (under_step _ _ _ Hu))|].
    pose proof (under_apart _ _ _ _ Hu Huj). lia.
  - intros x Hx. unfold px in Hi. by apply (G4 i r); [lia| |].
Qed.

(** The page itself stays until its entries are done. *)
Lemma freeing_here m a p c i s : ready m a p -> T !! p = Some c -> freeing m a p c i s -> ~ owns s.2 c.
Proof.
  intros [_ Hr] Hc [_ G2 _ _ _ _]. rewrite G2. intros [Ho|(j & _ & Hu)]; [|by eapply under_not_here].
  apply (Hr c); [|done]. exists []. rewrite app_nil_r. by left.
Qed.

Lemma freeing_freed m a p c i s m' a' :
  ready m a p -> T !! p = Some c -> px i -> freeing m a p c i s -> freed s.1 s.2 (p ++ [i]) m' a' ->
  freeing m a p c (i + 1) (m', a').
Proof.
  intros Hr Hc Hi HG (F1 & F2 & F3). pose proof (freeing_ready _ _ _ _ _ _ Hr Hi HG) as Hri.
  pose proof (freeing_here _ _ _ _ _ _ Hr Hc HG) as Hnc. destruct HG as [G1 G2 G3 G4 G5 G6].
  assert (is_page c) as Hcp by (apply (pt_page _ _ _ (fr_wf _ _ _ _ HF) _ _ Hc)).
  assert (forall r x, is_page r -> ~ owns s.2 r -> ~ under (p ++ [i]) r -> page_of r x -> m' !! x = s.1 !! x) as Hsame.
  { intros r x Hp Ho Hu Hx. apply F3. split; intros b Hb.
    - eapply page_disjoint; [done|exact (owns_page _ _ _ G1 Hb)|congruence|done].
    - eapply page_disjoint; [done|by apply (under_page (p ++ [i]))|congruence|done]. }
  assert (forall x, page_of c x -> m' !! x = s.1 !! x) as Hsamec.
  { intros x. apply Hsame; [done|done|by apply under_not_here]. }
  unfold px in Hi. split; cbn [fst snd]; [done| | | | |].
  - intros r. rewrite F2, G2. split.
    + intros [[H|(j & Hj & Hu)]|H]; [by left|right; exists j; split; [lia|done]|right; exists i; split; [lia|done]].
    + intros [H|(j & Hj & Hu)]; [by left; left|]. destruct (decide (j = i)) as [->|]; [by right|].
      left. right. exists j. split; [lia|done].
  - intros x Hx. rewrite F3; [by apply G3|]. destruct Hx as [H1 H2]. split; intros b Hb.
    + apply G2 in Hb as [Hb|(j & _ & Hb)]; [by apply H1|by apply H2, (under_step _ j)].
    + by apply H2, (under_step _ i).
  - intros j r x Hj Hu Hx. rewrite <- (G4 j r x); [|lia|done|done].
    apply (Hsame r x); [by apply (under_page (p ++ [j]))| | |done].
    + rewrite G2. intros [Ho|(k & Hk & Huk)].
      * by apply (proj2 Hr r (under_step _ _ _ Hu)).
      * pose proof (under_apart _ _ _ _ Hu Huk). lia.
    + intros Hui. pose proof (under_apart _ _ _ _ Hu Hui). lia.
  - intros j Hj. rewrite <- G5 by lia. apply word_frame; [unfold px; lia|done].
  - by eapply owned_same.
Qed.

(** Clearing an entry that is done with. *)
Lemma freeing_clear m a p c i s :
  ready m a p -> T !! p = Some c -> px i -> freeing m a p c (i + 1) s ->
  freeing m a p c (i + 1) (put_le 8 (c + 8 * i) 0 s.1, s.2).
Proof.
  intros Hr Hc Hi HG. pose proof (freeing_here _ _ _ _ _ _ Hr Hc HG) as Hnc. destruct HG as [G1 G2 G3 G4 G5 G6].
  assert (is_page c) as Hcp by (apply (pt_page _ _ _ (fr_wf _ _ _ _ HF) _ _ Hc)).
  assert (forall x, ~ page_of c x -> put_le 8 (c + 8 * i) 0 s.1 !! x = s.1 !! x) as Hout by (intros x; by apply put_le_page).
  split; cbn [fst snd]; [| done | | | |].
  - apply (alloc_frame _ _ _ G1). intros r x Hb Hx. apply Hout.
    eapply page_disjoint; [exact (owns_page _ _ _ G1 Hb)|done|congruence|done].
  - intros x Hx. rewrite Hout; [by apply G3|]. apply Hx. exists []. rewrite app_nil_r. by left.
  - intros j r x Hj Hu Hx. rewrite Hout; [by apply (G4 j r)|].
    eapply page_disjoint; [by apply (under_page (p ++ [j]))|done| |exact Hx]. intros ->. by eapply under_not_here.
  - intros j Hj. rewrite word_put_other by lia. by apply G5.
  - destruct (word_owned _ _ _ Hi G6) as [e He]. eapply owned_frame; [|exact G6].
    intros q Hq. apply put_le_dom; [by exists e|done].
Qed.

(** Nothing lies below an entry that is not valid. *)
Lemma freeing_skip m a p c i s :
  ready m a p -> T !! p = Some c -> px i -> (forall r, ~ under (p ++ [i]) r) ->
  freeing m a p c i s -> freeing m a p c (i + 1) s.
Proof.
  intros Hr Hc Hi Hno HG. destruct s as [m1 a1]. apply (freeing_freed _ _ _ _ _ (m1, a1) _ _ Hr Hc Hi HG).
  split; [apply HG|]. split; [|done]. intros r. specialize (Hno r). tauto.
Qed.

Lemma free_page_freed m a p r :
  ready m a p -> (forall b, under p b <-> b = r) ->
  exists m' a', free_page r (m, a) = Done (tt, (m', a')) /\ freed m a p m' a'.
Proof.
  intros [Ha Hr] Hu. unfold free_page. cbn [fst snd]. destruct (mem_free r m a) as [m' a'] eqn:Hm.
  exists m', a'. split; [done|]. assert (under p r) as Hur by by apply Hu.
  destruct (under_page _ _ Hur) as [Hp Ho]. destruct (Hr r Hur) as [Hn Hs].
  destruct (free_law m a r m' a' Ha Hp) as (H1 & H2 & H3 & _); [by eapply owned_same|done|done|].
  split; [done|]. split; [intros b; by rewrite H3, Hu|]. intros x [X1 X2]. apply H2; [done|]. by apply X2.
Qed.

(** One entry of the page at [p], when the tables below it can be freed. *)
Lemma freeing_entry fuel p c m a i s :
  (forall d m a, T !! (p ++ [i]) = Some d -> ready m a (p ++ [i]) ->
     exists m' a', free_pagetable fuel d do_free (m, a) = Done (tt, (m', a')) /\ freed m a (p ++ [i]) m' a') ->
  T !! p = Some c -> ready m a p -> px i -> freeing m a p c i s ->
  exists s', bind (load64 (c + 8 * i)) (fun pte =>
      if is_pagetable pte then free_pagetable fuel (PTE2PA pte) do_free;;; store64 (c + 8 * i) 0
      else when (negb (Z.land pte PTE_V =? 0) && do_free) (free_page (PTE2PA pte))) s = Done (tt, s') /\
    freeing m a p c (i + 1) s'.
Proof.
  intros IH Hc Hr Hi HG. destruct s as [m1 a1]. pose proof (fr_wf _ _ _ _ HF) as Hw.
  destruct (pt_path _ _ _ Hw _ _ Hc) as [Hlen _].
  destruct (word_owned _ _ _ Hi (fg_owned _ _ _ _ _ _ HG)) as [e He]. cbn [fst] in He.
  rewrite (load64_bind _ _ _ _ _ _ He).
  assert (word m0 (c + 8 * i) = Some e) as He0.
  { rewrite <- He. symmetry. unfold px in Hi. apply (fg_word _ _ _ _ _ _ HG). lia. }
  pose proof (freeing_ready _ _ _ _ _ _ Hr Hi HG) as Hri. cbn [fst snd] in Hri.
  destruct (Z.eqb_spec (Z.land e PTE_V) 0) as [Hv|Hv].
  { unfold is_pagetable. rewrite Hv. cbn [Z.eqb negb andb when]. exists (m1, a1). split; [done|].
    apply freeing_skip; [done..| |done]. intros r Hu. destruct (decide (length p < 2)%nat) as [Hl|Hl].
    - destruct (under_upper _ _ _ Hl Hu) as [b Hb]. by rewrite (pt_entry _ _ _ Hw _ _ _ _ Hc Hl Hi He0), Hv in Hb.
    - apply (under_leaf p c i e) in Hu as (_ & Hv' & _); [done|done|lia|done|done]. }
  rewrite (fr_kind _ _ _ _ HF _ _ _ _ Hc Hi He0 Hv). destruct (bool_decide_reflect (length p < 2)%nat) as [Hl|Hl].
  - pose proof (pt_entry _ _ _ Hw _ _ _ _ Hc Hl Hi He0) as Hd. rewrite (proj2 (Z.eqb_neq _ 0) Hv) in Hd.
    destruct (IH (PTE2PA e) m1 a1) as (m2 & a2 & HE & HFr); [done|done|]. rewrite (bind_done _ _ _ _ _ HE).
    pose proof (freeing_freed _ _ _ _ _ (m1, a1) _ _ Hr Hc Hi HG HFr) as HG2.
    destruct (word_owned _ _ _ Hi (fg_owned _ _ _ _ _ _ HG2)) as [e2 He2]. cbn [fst] in He2.
    exists (put_le 8 (c + 8 * i) 0 m2, a2). split; [|by apply (freeing_clear m a p c i (m2, a2))].
    unfold store64, on_mem, st64, sto. cbn [fst snd]. unfold word in He2. by rewrite He2.
  - assert (length p = 2%nat) as Hl2 by lia. cbn [negb andb].
    destruct (bool_dec do_free true) as [Hdo|Hdo%not_true_is_false]; rewrite Hdo; cbn [when].
    + destruct (free_page_freed m1 a1 (p ++ [i]) (PTE2PA e) Hri) as (m2 & a2 & HE & HFr).
      { intros b. rewrite (under_leaf p c i e) by done. naive_solver. }
      exists (m2, a2). split; [done|]. by apply (freeing_freed _ _ _ _ _ (m1, a1)).
    + exists (m1, a1). split; [done|]. apply freeing_skip; [done..| |done].
      intros r. rewrite (under_leaf p c i e) by done. intros [? _]. congruence.
Qed.

Lemma freeing_start m a p c : ready m a p -> T !! p = Some c -> freeing m a p c 0 (m, a).
Proof.
  intros [Ha Hr] Hc. destruct (pt_page _ _ _ (fr_wf _ _ _ _ HF) _ _ Hc) as [_ Hco].
  assert (under p c) as Huc by (exists []; rewrite app_nil_r; by left). split; cbn [fst snd]; [done| |done| | |].
  - intros r. split; [by left|]. intros [H|(j & Hj & _)]; [done|lia].
  - intros j r x _ Hu. by apply Hr, (under_step _ j).
  - intros j Hj. apply word_frame; [unfold px; lia|]. by apply Hr.
  - eapply owned_same; [|exact Hco]. by apply Hr.
Qed.

(** The page itself, after its entries. *)
Lemma freeing_end m a p c s :
  ready m a p -> T !! p = Some c -> freeing m a p c 512 s ->
  exists m' a', free_page c s = Done (tt, (m', a')) /\ freed m a p m' a'.
Proof.
  intros Hr Hc HG. pose proof (freeing_here _ _ _ _ _ _ Hr Hc HG) as Hnc. destruct HG as [G1 G2 G3 G4 G5 G6].
  destruct (pt_page _ _ _ (fr_wf _ _ _ _ HF) _ _ Hc) as [Hcp _].
  assert (under p c) as Huc by (exists []; rewrite app_nil_r; by left).
  unfold free_page. destruct (mem_free c s.1 s.2) as [m2 a2] eqn:Hm. exists m2, a2. split; [done|].
  destruct (free_law s.1 s.2 c m2 a2 G1 Hcp G6 Hnc Hm) as (H1 & H2 & H3 & _). split; [done|]. split.
  - intros r. rewrite H3, G2, (under_cases p c r Hc). unfold px. split.
    + intros [[H|(j & Hj & Hu)]|H]; [by left|right; right; by exists j|by right; left].
    + intros [H|[H|(j & Hj & Hu)]]; [by left; left|by right|left; right; by exists j].
  - intros x [X1 X2]. rewrite H2; [by apply G3| |by apply X2].
    intros r [Ho|(j & _ & Hu)]%G2; [by apply X1|by apply X2, (under_step _ j)].
Qed.

(** The whole of a table below [p]: the depth is at most 3. *)
Lemma free_pagetable_spec : forall fuel p c m a,
  (3 <= length p + fuel)%nat -> T !! p = Some c -> ready m a p ->
  exists m' a', free_pagetable fuel c do_free (m, a) = Done (tt, (m', a')) /\ freed m a p m' a'.
Proof.
  induction fuel as [|fuel IH]; intros p c m a Hfuel Hc Hr;
    destruct (pt_path _ _ _ (fr_wf _ _ _ _ HF) _ _ Hc) as [Hlen _]; [lia|].
  destruct (pt_page _ _ _ (fr_wf _ _ _ _ HF) _ _ Hc) as [Hcp _].
  cbn [free_pagetable]. rewrite (proj2 (Z.eqb_neq c 0)) by (destruct Hcp; lia).
  edestruct (for512_inv (freeing m a p c)) as (s & HE & HG); [|reflexivity|by apply freeing_start|
    erewrite bind_done by exact HE; by apply freeing_end].
  intros i s Hi HG. apply freeing_entry; [|done..].
  intros d m' a'. apply IH. rewrite length_app. simpl. lia.
Qed.

End Free.
