(* ===== verification/VmTheorems.v ===== *)
(** * What vm.c guarantees

    Mapping and unmapping, the user copies, and giving a table back. *)
From S2P Require Import Prelude Memory Klib KlibProofs KlibTheorems Vm VmProofs.

(** The physical address that a user access to [va] reaches. *)
Definition uva (m : mem) (T : dir) (va : Z) : option Z :=
  let e := pte_of m T va in
  if (MAXVA <=? va) || (Z.land e PTE_V =? 0) || (Z.land e PTE_U =? 0) || (PTE2PA e =? 0) then None
  else Some (PTE2PA e + va mod PGSIZE).

(** A list as allocator: the free pages. *)
Definition list_owns (a : list Z) (p : Z) : Prop := p ∈ a.
Definition list_inv (m : mem) (a : list Z) : Prop :=
  NoDup a /\ forall p, p ∈ a -> is_page p /\ owned m p PGSIZE.

#[export] Instance list_alloc : PageAlloc (list Z).
Proof.
  refine {|
    mem_malloc := fun m a => match a with [] => None | p :: a => Some (p, m, a) end;
    mem_free := fun p m a => (m, p :: a);
    alloc_inv := list_inv;
    owns := list_owns;
    avail := length
  |}.
  - intros m a _. by destruct a.
  - intros m a p m' a' [Hnd Hp] HE. destruct a as [|q a]; [done|]. injection HE as <- <- <-.
    apply NoDup_cons in Hnd as [Hq Hnd]. destruct (Hp q) as [H1 H2]; [by left|].
    split; [split; [done|]; intros r Hr; apply Hp; by right|]. split; [done|].
    split; [done|]. split; [done|]. split; [by left|]. split; [|done]. intros r. unfold list_owns.
    rewrite elem_of_cons. split; [intros Hr; split; [by right|by intros ->]|].
    intros [[->|Hr] Hne]; [done|done].
  - intros m a p m' a' [Hnd Hp] Hpage Ho Hno HE. injection HE as <- <-.
    split; [|split; [done|]].
    + split; [apply NoDup_cons; by split|]. intros r [->|Hr]%elem_of_cons; [done|by apply Hp].
    + split; [|done]. intros r. unfold list_owns. rewrite elem_of_cons. tauto.
  - intros m m' a [Hnd Hp] Hs. split; [done|]. intros p Hin. destruct (Hp p Hin) as [H1 H2].
    split; [done|]. eapply owned_same; [|exact H2]. intros q Hq. by apply (Hs p).
  - intros m a p [_ Hp] Hin. by apply Hp.
Defined.

(** A zeroed page is an empty table. *)
Lemma pt_wf_empty m root :
  is_page root -> bytes_at m root (replicate 4096 0) -> pt_wf m root {[ [] := root ]}.
Proof.
  intros Hr Hz. split.
  - apply lookup_singleton_eq.
  - intros p b [<- <-]%lookup_singleton_Some. simpl. split; [lia|constructor].
  - intros p b [<- <-]%lookup_singleton_Some. split; [done|].
    apply bytes_at_owned in Hz. by rewrite length_replicate in Hz.
  - intros p q b [<- _]%lookup_singleton_Some [<- _]%lookup_singleton_Some. done.
  - intros p b i e [<- <-]%lookup_singleton_Some _ Hi. rewrite word_zero by done.
    intros [= <-]. rewrite lookup_singleton_ne; [done|]. done.
  - intros p i b [E _]%lookup_singleton_Some. by destruct p.
Qed.

Lemma round_aligned va : (va / 4096 * 4096) mod PGSIZE = 0.
Proof. by apply Z.mod_mul. Qed.

Lemma MAXVA_eq : MAXVA = 2 ^ 38.
Proof. reflexivity. Qed.

Section Theorems.
Context {A : Type} `{!PageAlloc A}.
Implicit Types (m : mem) (a : A) (T : dir).

(** C5. [vm_map] of any size. If no page of the range has an entry, or with
    [remap], it returns 0 when the allocator has a page for every directory
    that the table lacks on the way to the range, and takes exactly those:
    then the pages of the range have the new entries, every other address
    translates as before, the tree of page-table pages stays well formed and
    no memory outside the table and the allocator changes. With fewer pages
    left the kernel panics "no space in heap" ([vm_map] never returns -1).
    Without [remap] a range that has an entry already ends in the panic
    "vm_map: remap", unless the pages run out before. *)
Theorem vm_map_maps m a root T va pa sz perm remap :
  vm_inv m a root T -> 0 < sz ->
  0 <= va -> va mod PGSIZE = 0 -> va + sz < 2 ^ 39 ->
  0 <= pa -> pa mod PGSIZE = 0 -> pa + sz + PGSIZE <= 2 ^ 56 -> 0 <= perm < 1024 ->
  let n := S (Z.to_nat ((sz - 1) / PGSIZE)) in
  let X := range_dirs va n in
  let out := vm_map root va pa sz perm remap (m, a) in
  (remap = true \/ ~ taken m T va n ->
   if decide (missing X T <= avail a)%nat then
     exists m' a' T', out = Done (0, (m', a')) /\ vm_inv m' a' root T' /\
       (forall q, foreign T a q -> m' !! q = m !! q) /\ mapped m T va pa perm n m' T' /\
       dom T' = X ∪ dom T /\ avail a = (avail a' + missing X T)%nat
   else out = Panic no_space) /\
  (remap = false -> taken m T va n ->
   out = Panic "vm_map: remap" \/ (avail a < missing X T)%nat /\ out = Panic no_space).
Proof.
  intros HI Hsz Hva Hal Hhi Hpa Hpal Hphi Hperm n X out. unfold out, X, n, vm_map. clear n X out.
  set (k := Z.to_nat ((sz - 1) / PGSIZE)) in *. unfold PGSIZE in *.
  assert (PGROUNDDOWN (u64 (va + sz - 1)) = va + Z.of_nat k * 4096) as ->.
  { rewrite PGROUNDDOWN_eq. unfold u64. rewrite Z.mod_small by lia. unfold k. zdiv. }
  assert (u64 (va + Z.of_nat k * 4096 - va) / 4096 = Z.of_nat k) as ->.
  { replace (va + Z.of_nat k * 4096 - va) with (Z.of_nat k * 4096) by lia.
    unfold u64. rewrite Z.mod_small by (unfold k; zdiv). by rewrite Z.div_mul. }
  rewrite Nat2Z.id.
  assert (Z.of_nat k * 4096 <= sz) as Hk by (unfold k; zdiv).
  destruct (vm_map_loop_spec root perm remap k (S k) m a T va pa HI) as
    [[HA HE]|[(HR & HT & HE)|(m' & a' & T' & HR & HE & HI' & Hmem & [HD HA] & Hm)]];
    unfold PGSIZE; try done; try lia.
  - split; [|by right]. intros _. by rewrite decide_False by lia.
  - split; [|by left]. intros [->|Hn]; [done|by destruct Hn].
  - split.
    + intros _. rewrite decide_True by lia. exists m', a', T'. split_and!; try done. intros q Hq. by apply Hmem.
    + intros -> Ht. destruct HR as [?|Hn]; [done|by destruct Hn].
Qed.

Lemma vm_unmap_loop_spec root : forall n fuel m a T va,
  vm_inv m a root T ->
  0 <= va -> va mod PGSIZE = 0 -> va + Z.of_nat n * PGSIZE < 2 ^ 39 ->
  (forall i, 0 <= i < Z.of_nat n ->
     Z.land (pte_of m T (va + i * PGSIZE)) PTE_V <> 0 /\
     PTE_FLAGS (pte_of m T (va + i * PGSIZE)) <> PTE_V) ->
  (n < fuel)%nat ->
  exists m', vm_unmap_loop fuel root va (va + Z.of_nat n * PGSIZE) false (m, a) = Done (tt, (m', a)) /\
    vm_inv m' a root T /\ (forall q, foreign T a q -> m' !! q = m !! q) /\
    (forall va', pte_of m' T va' =
       if decide (va / PGSIZE <= vpn va' < va / PGSIZE + Z.of_nat n) then 0 else pte_of m T va').
Proof.
  induction n as [|n IH]; intros [|fuel] m a T va HI Hva Hal Hhi Hleaf Hf; try lia;
    cbn [vm_unmap_loop].
  - rewrite (proj2 (Z.ltb_ge va _)) by lia. exists m. split; [done|]. split; [done|]. split; [done|].
    intros va'. by rewrite decide_False by lia.
  - rewrite (proj2 (Z.ltb_lt va _)) by (unfold PGSIZE in *; lia). cbn [negb].
    rewrite (bind_done _ _ _ _ _ (walk_noalloc m a root T va (proj1 HI))).
    destruct (Hleaf 0 ltac:(lia)) as [Hv Hl]. rewrite Z.mul_0_l, Z.add_0_r in Hv, Hl.
    assert (exists b, T !! vpath va = Some b) as [b Hb].
    { unfold pte_of in Hv. destruct (T !! vpath va); [eauto|done]. }
    rewrite Hb. destruct (pt_page _ _ _ (proj1 HI) _ _ Hb) as [[Hb0 _] Hbo].
    pose proof (PX_range 0 va ltac:(lia)) as Hx.
    rewrite (proj2 (Z.eqb_neq (b + 8 * PX 0 va) 0)) by (unfold px in Hx; lia).
    destruct (word_owned _ _ _ Hx Hbo) as [e He]. rewrite (load64_bind _ _ _ _ _ _ He).
    rewrite (pte_of_word _ _ _ _ _ _ (proj1 HI) Hb He) in Hv, Hl.
    rewrite (proj2 (Z.eqb_neq _ 0) Hv), (proj2 (Z.eqb_neq _ PTE_V) Hl). cbn [when].
    rewrite bind_ret, (store64_bind _ _ _ _ _ _ _ He).
    destruct (set_leaf m a root T va b 0 HI Hb ltac:(lia)) as (HI2 & Hpte2 & Hmem2).
    set (m1 := put_le 8 (b + 8 * PX 0 va) 0 m) in *.
    assert (vpn va = va / PGSIZE) as Hvpn.
    { rewrite <- (Z.add_0_r (va / PGSIZE)). rewrite <- (vpn_add va 0);
        [f_equal; lia|lia|done|unfold PGSIZE in *; lia|lia]. }
    assert (u64 (va + PGSIZE) = va + PGSIZE) as -> by (apply Z.mod_small; unfold PGSIZE in *; lia).
    replace (va + Z.of_nat (S n) * PGSIZE) with (va + PGSIZE + Z.of_nat n * PGSIZE) in * by lia.
    assert ((va + PGSIZE) / PGSIZE = va / PGSIZE + 1) as Hdiv by (unfold PGSIZE in *; zdiv).
    destruct (IH fuel m1 a T (va + PGSIZE) HI2) as (m' & HE & HI' & Hmem & Hpte);
      try done; try lia; try (unfold PGSIZE in *; zdiv).
    + intros i Hi. replace (va + PGSIZE + i * PGSIZE) with (va + (i + 1) * PGSIZE) by lia.
      rewrite Hpte2, Hvpn, vpn_add by (done || unfold PGSIZE in *; lia).
      rewrite decide_False by lia. apply Hleaf. lia.
    + exists m'. split; [exact HE|]. split; [done|]. split; [intros q Hq; by rewrite Hmem, Hmem2|].
      intros va'. rewrite Hpte, Hdiv, Hpte2, Hvpn.
      destruct (decide (vpn va' = va / PGSIZE)) as [E|E].
      * rewrite (decide_True _ _ (P := va / PGSIZE <= vpn va' < va / PGSIZE + Z.of_nat (S n))) by lia.
        by destruct (decide _).
      * destruct (decide (va / PGSIZE + 1 <= vpn va' < va / PGSIZE + 1 + Z.of_nat n)) as [H|H].
        -- by rewrite decide_True by lia.
        -- by rewrite decide_False by lia.
Qed.

(** [vm_unmap] of mapped leaf pages clears exactly their entries and
    keeps the rest of the address space and of the memory; of a page that is
    not mapped, or a misaligned address, it panics. *)
Theorem vm_unmap_clears m a root T va n :
  vm_inv m a root T -> 0 <= va -> va + Z.of_nat n * PGSIZE < 2 ^ 39 ->
  (va mod PGSIZE <> 0 -> vm_unmap root va (Z.of_nat n) false (m, a) = Panic "uvmunmap: not aligned") /\
  (va mod PGSIZE = 0 -> (0 < n)%nat -> T !! vpath va <> None -> Z.land (pte_of m T va) PTE_V = 0 ->
     vm_unmap root va (Z.of_nat n) false (m, a) = Panic "uvmunmap: not mapped") /\
  (va mod PGSIZE = 0 ->
   (forall i, 0 <= i < Z.of_nat n ->
     Z.land (pte_of m T (va + i * PGSIZE)) PTE_V <> 0 /\
     PTE_FLAGS (pte_of m T (va + i * PGSIZE)) <> PTE_V) ->
   exists m', vm_unmap root va (Z.of_nat n) false (m, a) = Done (tt, (m', a)) /\
    vm_inv m' a root T /\ (forall q, foreign T a q -> m' !! q = m !! q) /\
    (forall va', pte_of m' T va' =
       if decide (va / PGSIZE <= vpn va' < va / PGSIZE + Z.of_nat n) then 0 else pte_of m T va')).
Proof.
  intros HI Hva Hhi. unfold vm_unmap.
  assert (u64 (va + Z.of_nat n * PGSIZE) = va + Z.of_nat n * PGSIZE) as ->
    by (apply Z.mod_small; unfold PGSIZE in *; lia).
  rewrite Nat2Z.id. split; [|split].
  - intros Hal. by rewrite (proj2 (Z.eqb_neq _ 0)).
  - intros -> Hn Hb Hv. cbn [Z.eqb negb vm_unmap_loop].
    rewrite (proj2 (Z.ltb_lt va _)) by (unfold PGSIZE in *; lia). cbn [negb].
    rewrite (bind_done _ _ _ _ _ (walk_noalloc m a root T va (proj1 HI))).
    destruct (T !! vpath va) as [b|] eqn:Hbb; [|done].
    destruct (pt_page _ _ _ (proj1 HI) _ _ Hbb) as [[Hb0 _] Hbo].
    pose proof (PX_range 0 va ltac:(lia)) as Hx.
    rewrite (proj2 (Z.eqb_neq (b + 8 * PX 0 va) 0)) by (unfold px in Hx; lia).
    destruct (word_owned _ _ _ Hx Hbo) as [e He]. rewrite (load64_bind _ _ _ _ _ _ He).
    rewrite (pte_of_word _ _ _ _ _ _ (proj1 HI) Hbb He) in Hv. by rewrite Hv.
  - intros Hal Hleaf. rewrite Hal. cbn [Z.eqb negb]. by apply vm_unmap_loop_spec; [..|lia].
Qed.

(** ** User copies *)

Lemma walkaddr_spec m a root T va :
  pt_wf m root T -> 0 <= va -> va mod PGSIZE = 0 ->
  walkaddr root va (m, a) = Done (default 0 (uva m T va), (m, a)).
Proof.
  intros Hw Hva Hal. unfold walkaddr, uva.
  destruct (MAXVA <=? va); [done|]. cbn [orb].
  rewrite (bind_done _ _ _ _ _ (walk_noalloc m a root T va Hw)).
  destruct (T !! vpath va) as [b|] eqn:Hb.
  2:{ rewrite Z.eqb_refl. unfold pte_of. rewrite Hb. done. }
  destruct (pt_page _ _ _ Hw _ _ Hb) as [[Hb0 _] Hbo].
  pose proof (PX_range 0 va ltac:(lia)) as Hx.
  rewrite (proj2 (Z.eqb_neq (b + 8 * PX 0 va) 0)) by (unfold px in Hx; lia).
  destruct (word_owned _ _ _ Hx Hbo) as [e He]. rewrite (load64_bind _ _ _ _ _ _ He).
  rewrite (pte_of_word _ _ _ _ _ _ Hw Hb He).
  destruct (Z.land e PTE_V =? 0); [done|]. destruct (Z.land e PTE_U =? 0); [done|]. cbn [orb].
  change 4095 with (Z.ones 12). rewrite Z.land_ones by lia. change (2 ^ 12) with PGSIZE.
  rewrite Hal, Z.lor_0_r, Z.add_0_r. by destruct (Z.eqb_spec (PTE2PA e) 0) as [->|].
Qed.

Lemma uva_page m T va i p :
  0 <= va -> 0 <= i -> va mod PGSIZE + i < PGSIZE -> uva m T (va + i) = Some p ->
  uva m T (va / 4096 * 4096) = Some (p - (va mod PGSIZE + i)) /\
  (forall j, 0 <= j -> va mod PGSIZE + j < PGSIZE -> uva m T (va + j) = Some (p - i + j)) /\
  0 < p - (va mod PGSIZE + i) /\ va < MAXVA.
Proof.
  unfold uva. intros Hva Hi Hlt.
  assert (MAXVA = 2 ^ 38) as HM by reflexivity.
  assert (forall j, 0 <= j -> va mod PGSIZE + j < PGSIZE -> va + j < 2 ^ 39 ->
            pte_of m T (va + j) = pte_of m T (va / 4096 * 4096)) as Hpte.
  { intros j Hj Hjl Hs. assert (vpn (va + j) = vpn (va / 4096 * 4096)) as E.
    { unfold vpn, u64, PGSIZE in *. rewrite !Z.mod_small by zdiv. zdiv. }
    apply vpn_vpath in E as [E1 E2]. unfold pte_of. by rewrite E1, E2. }
  destruct (Z.leb_spec MAXVA (va + i)) as [|Hm]; [done|]. cbn [orb].
  rewrite (Hpte i) by (done || lia). set (e := pte_of m T (va / 4096 * 4096)) in *.
  destruct (Z.land e PTE_V =? 0) eqn:HV; [done|]. destruct (Z.land e PTE_U =? 0) eqn:HU; [done|]. cbn [orb].
  destruct (Z.eqb_spec (PTE2PA e) 0) as [|H0]; [done|]. intros [= <-].
  assert ((va + i) mod PGSIZE = va mod PGSIZE + i) as -> by (unfold PGSIZE in *; zdiv).
  split; [|split; [|split]].
  - rewrite (proj2 (Z.leb_gt MAXVA _)) by (unfold PGSIZE in *; zdiv). cbn [orb].
    replace ((va / 4096 * 4096) mod PGSIZE) with 0 by (symmetry; by apply Z.mod_mul). f_equal. lia.
  - intros j Hj Hjl. rewrite (proj2 (Z.leb_gt MAXVA _)) by (rewrite HM in *; unfold PGSIZE in *; zdiv).
    cbn [orb]. rewrite Hpte by (done || rewrite HM in *; unfold PGSIZE in *; zdiv). fold e. rewrite HV, HU.
    rewrite (proj2 (Z.eqb_neq _ 0)) by done. cbn [orb]. f_equal.
    assert ((va + j) mod PGSIZE = va mod PGSIZE + j) as -> by (unfold PGSIZE in *; zdiv). lia.
  - unfold PTE2PA, u64 in *. pose proof (Z.mod_pos_bound (Z.shiftl (Z.shiftr e 10) 12) (2 ^ 64)). lia.
  - lia.
Qed.

Lemma on_mem_bind {B C} (f : M mem B) b m m' a (K : B -> M (vst (A := A)) C) :
  f m = Done (b, m') -> bind (on_mem f) K (m, a) = K b (m', a).
Proof. intros H. unfold bind, on_mem. cbn [fst snd]. by rewrite H. Qed.

(** The addresses [d, d + n) meet no page of the table. *)
Definition off_table T (d n : Z) : Prop :=
  forall p b, T !! p = Some b -> forall q, page_of b q -> q < d \/ d + n <= q.

Lemma uva_same m m' root T d l :
  pt_wf m root T -> off_table T d (Z.of_nat (length l)) -> m' = put_bytes d l m ->
  pt_wf m' root T /\ (forall va, uva m' T va = uva m T va).
Proof.
  intros Hw Hoff ->.
  destruct (pt_wf_same m (put_bytes d l m) root T Hw) as [Hw' Hpte].
  { intros p b Hp q Hq. apply put_bytes_out. by apply (Hoff p b). }
  split; [done|]. intros va. unfold uva. by rewrite Hpte.
Qed.

Definition chunk (va len : Z) : Z :=
  let n := PGSIZE - (va - PGROUNDDOWN va) in if len <? n then len else n.

Lemma chunk_facts va len :
  0 <= va -> 0 < len ->
  0 < chunk va len <= len /\ va - PGROUNDDOWN va = va mod PGSIZE /\
  va mod PGSIZE + chunk va len <= PGSIZE /\
  (chunk va len = len \/ PGROUNDDOWN va + PGSIZE = va + chunk va len).
Proof.
  intros Hva Hlen. unfold chunk. rewrite PGROUNDDOWN_eq. unfold PGSIZE in *.
  destruct (Z.ltb_spec len (4096 - (va - va / 4096 * 4096))); zdiv.
Qed.

(** A turn of either copy: the page of [va], and the part of the block in it. *)
Lemma user_turn m a root T va len p :
  pt_wf m root T -> 0 <= va -> 0 < len -> uva m T va = Some p ->
  exists pa0, walkaddr root (PGROUNDDOWN va) (m, a) = Done (pa0, (m, a)) /\ pa0 <> 0 /\
    pa0 + (va - PGROUNDDOWN va) = p /\ 0 < chunk va len <= len /\
    (forall i, 0 <= i < chunk va len -> uva m T (va + i) = Some (p + i)) /\
    (chunk va len = len \/ u64 (PGROUNDDOWN va + PGSIZE) = va + chunk va len).
Proof.
  intros Hw Hva Hlen Hp. destruct (chunk_facts va len Hva Hlen) as (Hn & Hoffs & Hpg & Hnext).
  rewrite <- (Z.add_0_r va) in Hp at 1.
  destruct (uva_page m T va 0 p Hva ltac:(lia) ltac:(lia) Hp) as (Hp0 & Hpj & Hpos & HM).
  rewrite PGROUNDDOWN_eq in *. exists (p - (va mod PGSIZE + 0)). split_and!; [|lia..| |].
  - rewrite (walkaddr_spec m a root T (va / 4096 * 4096) Hw ltac:(zdiv) (round_aligned _)). by rewrite Hp0.
  - intros i Hi. rewrite Hpj by lia. f_equal. lia.
  - destruct Hnext as [Hall|Hnext]; [by left|right]. unfold u64.
    rewrite Z.mod_small; [lia|rewrite MAXVA_eq in HM; unfold PGSIZE in *; zdiv].
Qed.

Lemma copyin_loop_spec root T : forall fuel m a dst srcva l,
  pt_wf m root T -> wf_mem m -> 0 <= srcva ->
  (forall i x, l !! i = Some x -> exists p, uva m T (srcva + Z.of_nat i) = Some p /\ m !! p = Some x /\
     (p < dst \/ dst + Z.of_nat (length l) <= p)) ->
  owned m dst (Z.of_nat (length l)) -> off_table T dst (Z.of_nat (length l)) ->
  (length l < fuel)%nat ->
  copyin_loop fuel root dst srcva (Z.of_nat (length l)) (m, a) =
    Done (0, (put_bytes dst l m, a)).
Proof.
  induction fuel as [|fuel IH]; intros m a dst srcva l Hw Hwf Hva Hl Ho Hoff Hf; [lia|].
  cbn [copyin_loop]. destruct (Z.eqb_spec (Z.of_nat (length l)) 0) as [E|E]; [by destruct l|].
  destruct (lookup_lt_is_Some_2 l 0) as [x0 Hx0]; [lia|].
  destruct (Hl 0%nat x0 Hx0) as (p & Hp & _ & Hpd). cbn [Z.of_nat] in Hp. rewrite Z.add_0_r in Hp.
  destruct (user_turn m a root T srcva (Z.of_nat (length l)) p Hw Hva ltac:(lia) Hp) as (pa0 & HE & Hpa & Hpp & Hn & Hpj & Hnext).
  rewrite (bind_done _ _ _ _ _ HE), (proj2 (Z.eqb_neq _ 0) Hpa), Hpp.
  change (if _ <? _ then _ else _) with (chunk srcva (Z.of_nat (length l))).
  set (n := chunk srcva (Z.of_nat (length l))) in *. rewrite <- (Z2Nat.id n) at 1 by lia.
  assert (length (take (Z.to_nat n) l) = Z.to_nat n) as Htl by (rewrite length_take; lia).
  assert (bytes_at m p (take (Z.to_nat n) l)) as Hb.
  { intros i x Hi. pose proof (lookup_lt_Some _ _ _ Hi). apply lookup_take_Some in Hi as [Hi _].
    destruct (Hl i x Hi) as (q & Hq & Hm & _). rewrite Hpj in Hq by lia. by injection Hq as <-. }
  assert (p + n <= dst \/ dst + Z.of_nat (length l) <= p) as Hdisj.
  { destruct Hpd as [Hpd|Hpd]; [|by right]. left. destruct (decide (p + n <= dst)); [done|]. exfalso.
    destruct (lookup_lt_is_Some_2 l (Z.to_nat (dst - p))) as [y Hy]; [lia|].
    destruct (Hl _ y Hy) as (q & Hq & _ & Hd). rewrite Z2Nat.id, Hpj in Hq by lia. injection Hq as <-. lia. }
  rewrite <- Htl at 1.
  erewrite on_mem_bind by (apply memmove_copies; [done|done|eapply owned_le; [exact Ho|lia]|lia]).
  set (m1 := put_bytes dst (take (Z.to_nat n) l) m).
  destruct (uva_same m m1 root T dst (take (Z.to_nat n) l) Hw) as [Hw1 Hu1]; [|done|].
  { intros q b Hq x Hx. destruct (Hoff q b Hq x Hx); lia. }
  assert (Z.of_nat (length (drop (Z.to_nat n) l)) = Z.of_nat (length l) - n) as Hdl by (rewrite length_drop; lia).
  assert (put_bytes (dst + n) (drop (Z.to_nat n) l) m1 = put_bytes dst l m) as Hput.
  { rewrite <- (take_drop (Z.to_nat n) l) at 2. rewrite put_bytes_app, Htl. f_equal. lia. }
  rewrite <- Hput, <- Hdl. destruct Hnext as [Hall| ->].
  { assert (drop (Z.to_nat n) l = []) as -> by (apply length_zero_iff_nil; lia). by destruct fuel; [lia|]. }
  apply IH; [done| |lia| | | |lia].
  - apply wf_put_bytes; [|done]. apply Forall_take, Forall_lookup. intros i x Hi.
    destruct (Hl i x Hi) as (q & _ & Hm & _). by eapply Hwf.
  - intros i x Hi. rewrite lookup_drop in Hi. destruct (Hl _ x Hi) as (q & Hq & Hm & Hd).
    exists q. rewrite Hu1. split; [rewrite <- Hq; f_equal; lia|].
    split; [unfold m1; rewrite put_bytes_out; [done|lia]|lia].
  - apply owned_put. intros j Hj. rewrite <- Z.add_assoc. apply Ho. lia.
  - intros q b Hq x Hx. destruct (Hoff q b Hq x Hx); lia.
Qed.

(** The user's addresses from [va] on, [n] of them, lie at different places. *)
Definition uva_inj m T va (n : nat) : Prop := forall i j p, (i < n)%nat -> (j < n)%nat ->
  uva m T (va + Z.of_nat i) = Some p -> uva m T (va + Z.of_nat j) = Some p -> i = j.

(** The memory [m'] is [m] with [l] at the user's address [va]. *)
Record copied root T (va : Z) (l : list Z) m m' : Prop := {
  cp_wf : pt_wf m' root T;
  cp_bytes : wf_mem m';
  cp_uva : forall va, uva m' T va = uva m T va;
  cp_at : forall i x p, l !! i = Some x -> uva m T (va + Z.of_nat i) = Some p -> m' !! p = Some x;
  cp_frame : forall q, (forall i, (i < length l)%nat -> uva m T (va + Z.of_nat i) <> Some q) -> m' !! q = m !! q;
  cp_dom : forall q, is_Some (m !! q) -> is_Some (m' !! q)
}.

Lemma copied_nil root T va m : pt_wf m root T -> wf_mem m -> copied root T va [] m m.
Proof. intros Hw Hwf. by split. Qed.

Lemma copied_app root T va l1 l2 m m1 m2 :
  uva_inj m T va (length (l1 ++ l2)) -> copied root T va l1 m m1 ->
  copied root T (va + Z.of_nat (length l1)) l2 m1 m2 -> copied root T va (l1 ++ l2) m m2.
Proof.
  unfold uva_inj. rewrite length_app. intros Hinj [A1 A2 A3 A4 A5 A6] [B1 B2 B3 B4 B5 B6].
  split; [done|done|intros v; by rewrite B3| | |intros q Hq; by apply B6, A6].
  - intros i x p Hi Hp. apply lookup_app_Some in Hi as [Hi|[Hge Hi]].
    + pose proof (lookup_lt_Some _ _ _ Hi). rewrite B5; [by apply (A4 i)|]. intros j Hj. rewrite A3. intros Hq.
      assert (i = (length l1 + j)%nat); [|lia]. apply (Hinj _ _ p); [lia|lia|done|]. rewrite <- Hq. f_equal. lia.
    + apply (B4 _ _ _ Hi). rewrite A3, <- Hp. f_equal. lia.
  - intros q Hq. rewrite B5; [apply A5; intros i Hi; apply Hq; rewrite length_app; lia|].
    intros i Hi. rewrite A3. intros E. apply (Hq (length l1 + i)%nat); [rewrite length_app; lia|]. rewrite <- E. f_equal. lia.
Qed.

(** A block in one page. *)
Lemma copied_chunk root T va l m p :
  pt_wf m root T -> wf_mem m -> chars l -> (forall i, 0 <= i < Z.of_nat (length l) -> uva m T (va + i) = Some (p + i)) ->
  (forall i, 0 <= i < Z.of_nat (length l) -> is_Some (m !! (p + i)) /\ off_table T (p + i) 1) ->
  copied root T va l m (put_bytes p l m).
Proof.
  intros Hw Hwf Hc Hu Hp. destruct (uva_same m (put_bytes p l m) root T p l Hw) as [Hw1 Hu1]; [|done|].
  { intros q b Hq x Hx. destruct (decide (p <= x < p + Z.of_nat (length l))) as [Hin|]; [|lia]. exfalso.
    destruct (Hp (x - p) ltac:(lia)) as (_ & Ho). destruct (Ho q b Hq x Hx); lia. }
  assert (forall q, ~ (p <= q < p + Z.of_nat (length l)) -> put_bytes p l m !! q = m !! q) as Hout
    by (intros q Hq; apply put_bytes_out; lia).
  split; [done|by apply wf_put_bytes|done| | |].
  - intros i x q Hi Hq. pose proof (lookup_lt_Some _ _ _ Hi). rewrite Hu in Hq by lia. injection Hq as <-.
    by apply put_bytes_at.
  - intros q Hq. apply Hout. intros Hin. apply (Hq (Z.to_nat (q - p))); [lia|]. rewrite Z2Nat.id, Hu by lia. f_equal. lia.
  - intros q Hq. destruct (decide (p <= q < p + Z.of_nat (length l))) as [Hin|]; [|by rewrite Hout].
    pose proof (bytes_at_owned _ _ _ (put_bytes_at p l m)) as Ho.
    replace q with (p + (q - p)) by lia. apply Ho. lia.
Qed.

Lemma copyout_loop_spec root T : forall fuel m a dstva src l,
  pt_wf m root T -> wf_mem m -> 0 <= dstva -> bytes_at m src l ->
  (forall i, (i < length l)%nat -> exists p, uva m T (dstva + Z.of_nat i) = Some p /\ is_Some (m !! p) /\
     (p < src \/ src + Z.of_nat (length l) <= p) /\ off_table T p 1) ->
  uva_inj m T dstva (length l) -> (length l < fuel)%nat ->
  exists m', copyout_loop fuel root dstva src (Z.of_nat (length l)) (m, a) = Done (0, (m', a)) /\
    copied root T dstva l m m'.
Proof.
  induction fuel as [|fuel IH]; intros m a dstva src l Hw Hwf Hva Hb Hl Hinj Hf; [lia|].
  cbn [copyout_loop]. destruct (Z.eqb_spec (Z.of_nat (length l)) 0) as [E|E].
  { destruct l; [|done]. exists m. split; [done|]. by apply copied_nil. }
  destruct (Hl 0%nat ltac:(lia)) as (p & Hp & _). cbn [Z.of_nat] in Hp. rewrite Z.add_0_r in Hp.
  destruct (user_turn m a root T dstva (Z.of_nat (length l)) p Hw Hva ltac:(lia) Hp) as (pa0 & HE & Hpa & Hpp & Hn & Hpj & Hnext).
  rewrite (bind_done _ _ _ _ _ HE), (proj2 (Z.eqb_neq _ 0) Hpa), Hpp.
  change (if _ <? _ then _ else _) with (chunk dstva (Z.of_nat (length l))).
  set (n := chunk dstva (Z.of_nat (length l))) in *.
  set (l1 := take (Z.to_nat n) l). set (l2 := drop (Z.to_nat n) l).
  assert (Z.of_nat (length l1) = n) as Hl1 by (unfold l1; rewrite length_take; lia).
  assert (Z.of_nat (length l2) = Z.of_nat (length l) - n) as Hl2 by (unfold l2; rewrite length_drop; lia).
  assert (l = l1 ++ l2) as Hll by (by unfold l1, l2; rewrite take_drop).
  assert (forall i, 0 <= i < n -> is_Some (m !! (p + i)) /\
            (p + i < src \/ src + Z.of_nat (length l) <= p + i) /\ off_table T (p + i) 1) as Hphys.
  { intros i Hi. destruct (Hl (Z.to_nat i) ltac:(lia)) as (q & Hq & Hrest).
    rewrite Z2Nat.id, Hpj in Hq by lia. by injection Hq as <-. }
  assert (p + n <= src \/ src + Z.of_nat (length l) <= p) as Hdisj.
  { destruct (Hphys 0 ltac:(lia)) as (_ & Hd & _). destruct Hd as [Hd|Hd]; [|right; lia]. left.
    destruct (decide (p + n <= src)); [done|]. exfalso. destruct (Hphys (src - p) ltac:(lia)) as (_ & Hd' & _). lia. }
  rewrite Hll in Hb. apply bytes_at_app in Hb as [Hb1 Hb2]. rewrite Hl1 in Hb2.
  replace (memmove p src n) with (memmove p src (Z.of_nat (length l1))) by (by rewrite Hl1).
  erewrite on_mem_bind by (apply memmove_copies; [done|done| |lia]; intros i Hi; apply Hphys; lia).
  assert (copied root T dstva l1 m (put_bytes p l1 m)) as Hc1.
  { apply copied_chunk; [done|done| |intros i Hi; apply Hpj; lia|intros i Hi; split; apply Hphys; lia].
    apply Forall_lookup. intros i x Hi. eapply Hwf. by apply (Hb1 i). }
  set (m1 := put_bytes p l1 m) in *. rewrite <- Hl2.
  assert (exists m', copyout_loop fuel root (u64 (PGROUNDDOWN dstva + PGSIZE)) (src + n) (Z.of_nat (length l2)) (m1, a) =
      Done (0, (m', a)) /\ copied root T (dstva + Z.of_nat (length l1)) l2 m1 m') as (m' & HE' & Hc2).
  { rewrite Hl1. destruct Hnext as [Hall| ->].
    { assert (l2 = []) as -> by (apply length_zero_iff_nil; lia).
      destruct fuel; [lia|]. exists m1. split; [done|]. apply copied_nil; apply Hc1. }
    apply IH; [apply Hc1|apply Hc1|lia| | | |lia].
    - eapply bytes_at_frame; [exact Hb2|]. intros q Hq. apply put_bytes_out. lia.
    - intros i Hi. destruct (Hl (Z.to_nat n + i)%nat ltac:(lia)) as (q & Hq & H1 & H2 & H3).
      exists q. rewrite (cp_uva _ _ _ _ _ _ Hc1). split; [rewrite <- Hq; f_equal; lia|].
      split; [by apply Hc1|split; [lia|done]].
    - intros i j q Hi Hj. rewrite !(cp_uva _ _ _ _ _ _ Hc1). intros H1 H2.
      enough (Z.to_nat n + i = Z.to_nat n + j)%nat by lia.
      apply (Hinj _ _ q); [lia|lia|rewrite <- H1; f_equal; lia|rewrite <- H2; f_equal; lia]. }
  exists m'. split; [exact HE'|]. rewrite Hll. eapply copied_app; [by rewrite <- Hll|exact Hc1|exact Hc2].
Qed.

(** C6: what [copyout] writes to a user buffer, over any number of pages, is
    what [copyin] reads back from it, byte for byte; neither changes a
    translation, and [copyout] changes no other byte of memory. *)
Theorem copyout_copyin_roundtrip m a root T dstva src dst l :
  pt_wf m root T -> wf_mem m -> 0 <= dstva -> bytes_at m src l ->
  (forall i, (i < length l)%nat -> exists p, uva m T (dstva + Z.of_nat i) = Some p /\ is_Some (m !! p) /\
     (p < src \/ src + Z.of_nat (length l) <= p) /\ (p < dst \/ dst + Z.of_nat (length l) <= p) /\
     off_table T p 1) ->
  (forall i j p, (i < length l)%nat -> (j < length l)%nat -> uva m T (dstva + Z.of_nat i) = Some p ->
     uva m T (dstva + Z.of_nat j) = Some p -> i = j) ->
  owned m dst (Z.of_nat (length l)) -> off_table T dst (Z.of_nat (length l)) ->
  exists m1, copyout root dstva src (Z.of_nat (length l)) (m, a) = Done (0, (m1, a)) /\
    (forall q, (forall i, (i < length l)%nat -> uva m T (dstva + Z.of_nat i) <> Some q) -> m1 !! q = m !! q) /\
    copyin root dst dstva (Z.of_nat (length l)) (m1, a) = Done (0, (put_bytes dst l m1, a)).
Proof.
  intros Hw Hwf Hva Hb Hl Hinj Ho Hoff. unfold copyout, copyin. rewrite Nat2Z.id.
  destruct (copyout_loop_spec root T (S (length l)) m a dstva src l) as (m1 & HE & [Hw1 Hwf1 Hu1 Hl1 Hq1 Hs1]);
    [done|done|done|done| |done|lia|].
  { intros i Hi. destruct (Hl i Hi) as (p & H1 & H2 & H3 & _ & H4). by exists p. }
  exists m1. split; [done|]. split; [done|].
  apply copyin_loop_spec with (T := T); [done|done|done| | |done|lia].
  - intros i x Hi. destruct (Hl i) as (p & H1 & H2 & H3 & H4 & H5); [by eapply lookup_lt_Some|].
    exists p. rewrite Hu1. split; [done|]. split; [by apply (Hl1 i)|done].
  - by eapply owned_frame.
Qed.

(** C7. [free_pagetable] gives back every page of a table exactly once: it
    ends, the allocator then owns what it owned and the table's pages (with
    [do_free] also the pages that the leaves map), no page is freed that it
    has already, and no other memory changes.  A null table is left alone. *)
Theorem free_pagetable_frees fuel m a root T do_free :
  freeable m root T do_free -> alloc_inv m a -> (forall q r, node m T do_free q r -> ~ owns a r) -> (3 <= fuel)%nat ->
  free_pagetable fuel 0 do_free (m, a) = Done (tt, (m, a)) /\
  exists m' a', free_pagetable fuel root do_free (m, a) = Done (tt, (m', a')) /\ alloc_inv m' a' /\
    (forall r, owns a' r <-> owns a r \/ exists q, node m T do_free q r) /\
    (forall x, (forall r, owns a r -> ~ page_of r x) -> (forall q r, node m T do_free q r -> ~ page_of r x) ->
       m' !! x = m !! x).
Proof.
  intros HF Ha Hno Hfuel. split; [by destruct fuel; [lia|]|].
  destruct (free_pagetable_spec m root T do_free HF fuel [] root m a) as (m' & a' & HE & H1 & H2 & H3);
    [simpl; lia|by apply (pt_root _ _ _ (fr_wf _ _ _ _ HF))| |].
  - split; [done|]. intros r [q Hq]. split; [by apply (Hno q)|done].
  - exists m', a'. split; [done|]. split; [done|]. split; [exact H2|].
    intros x X1 X2. apply H3. split; [done|]. intros r [q Hq]. by apply (X2 q).
Qed.

End Theorems.

(** ** A table with one user page

    Eight zero pages from 4096: the root, two lower tables, a data page and
    kernel buffers above. *)

Definition demo_mem : mem := zeros 4096 (Z.to_nat 32768).
Definition demo_leaf : Z := Z.lor (Z.lor (PA2PTE 16384) 22) PTE_V.
Definition demo_m1 : mem := put_le 8 (4096 + 8 * 0) (Z.lor (PA2PTE 8192) PTE_V) demo_mem.
Definition demo_m2 : mem := put_le 8 (8192 + 8 * 0) (Z.lor (PA2PTE 12288) PTE_V) demo_m1.
Definition demo_m3 : mem := put_le 8 (12288 + 8 * PX 0 0) demo_leaf demo_m2.
Definition demo_T0 : dir := {[ [] := 4096 ]}.
Definition demo_T : dir := <[ [0] ++ [0] := 12288 ]> (<[ [] ++ [0] := 8192 ]> demo_T0).

Lemma demo_zero a n : 4096 <= a -> a + Z.of_nat n <= 36864 -> bytes_at demo_mem a (replicate n 0).
Proof.
  intros H1 H2 i x Hi. apply lookup_replicate in Hi as [-> Hi].
  assert (bytes_at demo_mem 4096 (replicate (Z.to_nat 32768) 0)) as Hb by apply put_bytes_at.
  replace (a + Z.of_nat i) with (4096 + Z.of_nat (Z.to_nat (a + Z.of_nat i - 4096))) by lia.
  apply Hb. apply lookup_replicate_2. lia.
Qed.

Lemma demo_wf3 : wf_mem demo_m3.
Proof.
  do 3 apply put_le_wf. apply wf_put_bytes; [|apply wf_mem_empty].
  apply Forall_replicate. lia.
Qed.

Lemma demo_page k : (1 <= k <= 8)%nat -> is_page (Z.of_nat k * 4096).
Proof. intros H. unfold is_page, PGSIZE. split; [lia|]. split; [lia|]. by apply Z.mod_mul. Qed.

Lemma demo_inv :
  vm_inv demo_m3 [] 4096 demo_T /\
  (forall va, pte_of demo_m3 demo_T va = if decide (vpn va = vpn 0) then demo_leaf else 0).
Proof.
  assert (pt_wf demo_mem 4096 demo_T0) as H0
    by (apply pt_wf_empty; [exact (demo_page 1 ltac:(lia))|apply demo_zero; simpl; lia]).
  assert (forall q d, demo_T0 !! q = Some d -> q = [] /\ d = 4096) as HT0
    by (intros q d H; unfold demo_T0 in H; apply lookup_singleton_Some in H as [<- <-]; done).
  destruct (link_page demo_mem 4096 demo_T0 [] 4096 0 8192 demo_mem H0 (lookup_singleton_eq [] 4096)
    ltac:(simpl; lia) ltac:(unfold px; lia) (lookup_singleton_ne [] [0] 4096 ltac:(done))
    (demo_page 2 ltac:(lia)) ltac:(intros q d [_ ->]%HT0; done) ltac:(done)
    ltac:(apply demo_zero; simpl; lia)) as [H1 Hp1].
  assert (forall q d, <[[] ++ [0] := 8192]> demo_T0 !! q = Some d ->
            q = [0] /\ d = 8192 \/ q = [] /\ d = 4096) as HT1.
  { intros q d [[<- <-]|[_ H]]%lookup_insert_Some; [by left|right; by apply HT0]. }
  destruct (link_page demo_m1 4096 (<[[] ++ [0] := 8192]> demo_T0) [0] 8192 0 12288 demo_m1 H1
    (lookup_insert_eq _ _ _) ltac:(simpl; lia) ltac:(unfold px; lia)) as [H2 Hp2].
  - destruct (_ !! _) as [d|] eqn:E; [|done]. apply HT1 in E as [[? _]|[? _]]; done.
  - exact (demo_page 3 ltac:(lia)).
  - intros q d [[_ ->]|[_ ->]]%HT1; done.
  - done.
  - eapply bytes_at_frame; [apply (demo_zero 12288 4096); simpl; lia|].
    intros q Hq. apply put_le_lookup_out. simpl. lia.
  - assert (vm_inv demo_m2 ([] : list Z) 4096 demo_T) as HI.
    { split; [exact H2|]. split; [split; [constructor|by intros p ?%elem_of_nil]|].
      intros p b _. apply not_elem_of_nil. }
    destruct (set_leaf demo_m2 [] 4096 demo_T 0 12288 demo_leaf HI) as (HI3 & Hp3 & _);
      [by vm_compute|by vm_compute|].
    split; [exact HI3|]. intros va. unfold demo_m3. rewrite Hp3. destruct (decide _); [done|].
    change demo_T with (<[[0] ++ [0]:=12288]> (<[[] ++ [0]:=8192]> demo_T0)).
    unfold demo_m2. rewrite Hp2. unfold demo_m1. rewrite Hp1. unfold pte_of, demo_T0.
    by rewrite lookup_singleton_ne.
Qed.

Lemma demo_T_pages p b : demo_T !! p = Some b -> b = 4096 \/ b = 8192 \/ b = 12288.
Proof.
  unfold demo_T, demo_T0. rewrite !lookup_insert_Some, lookup_singleton_Some.
  intros [[_ <-]|[_ [[_ <-]|[_ [_ <-]]]]]; auto.
Qed.

Lemma demo_m3_zero a n : 16384 <= a -> a + Z.of_nat n <= 36864 -> bytes_at demo_m3 a (replicate n 0).
Proof.
  intros H1 H2. eapply bytes_at_frame; [apply demo_zero; lia|]. intros q Hq.
  rewrite length_replicate in Hq. unfold demo_m3, demo_m2, demo_m1.
  rewrite !put_le_lookup_out; [done|simpl; lia|simpl; lia|]. change (PX 0 0) with 0. simpl. lia.
Qed.

Lemma demo_uva i : (i < 3)%nat -> uva demo_m3 demo_T (5 + Z.of_nat i) = Some (16389 + Z.of_nat i).
Proof.
  intros Hi. unfold uva. rewrite (proj2 demo_inv).
  destruct i as [|[|[|i]]]; [by vm_compute|by vm_compute|by vm_compute|lia].
Qed.

Lemma demo_taken va n : 0 < va / PGSIZE -> ~ taken demo_m3 demo_T va n.
Proof.
  intros Hva (v & Hr & Hv). apply Hv. rewrite (proj2 demo_inv), decide_False; [done|].
  change (vpn 0) with 0. lia.
Qed.

Lemma vm_map_maps_witness :
  (exists m' T', vm_map 4096 4096 20480 4096 22 false (demo_m3, [] : list Z) = Done (0, (m', [])) /\
     vm_inv m' ([] : list Z) 4096 T' /\ dom T' = range_dirs 4096 1 ∪ dom demo_T) /\
  vm_map 4096 (2 ^ 30) 20480 4096 22 false (demo_m3, [] : list Z) = Panic no_space /\
  vm_map 4096 0 20480 4096 22 false (demo_m3, [] : list Z) = Panic "vm_map: remap".
Proof.
  split; [|split].
  - destruct (vm_map_maps demo_m3 ([] : list Z) 4096 demo_T 4096 20480 4096 22 false (proj1 demo_inv)
      ltac:(lia) ltac:(lia) eq_refl ltac:(lia) ltac:(lia) eq_refl ltac:(unfold PGSIZE; lia) ltac:(lia)) as [H _].
    rewrite decide_True in H by by vm_compute.
    destruct H as (m' & a' & T' & HE & HI & _ & _ & HD & HA); [right; by apply demo_taken|].
    assert (a' = []) as -> by (destruct a'; [done|cbn in HA; lia]).
    exists m', T'. split; [exact HE|]. split; [exact HI|exact HD].
  - destruct (vm_map_maps demo_m3 ([] : list Z) 4096 demo_T (2 ^ 30) 20480 4096 22 false (proj1 demo_inv)
      ltac:(lia) ltac:(lia) eq_refl ltac:(lia) ltac:(lia) eq_refl ltac:(unfold PGSIZE; lia) ltac:(lia)) as [H _].
    rewrite decide_False in H by (vm_compute; lia).
    apply H. right. by apply demo_taken.
  - destruct (vm_map_maps demo_m3 ([] : list Z) 4096 demo_T 0 20480 4096 22 false (proj1 demo_inv)
      ltac:(lia) ltac:(lia) eq_refl ltac:(lia) ltac:(lia) eq_refl ltac:(unfold PGSIZE; lia) ltac:(lia)) as [_ H].
    assert (taken demo_m3 demo_T 0 (S (Z.to_nat ((4096 - 1) / PGSIZE)))) as Ht.
    { exists 0. split; [by vm_compute|]. rewrite (proj2 demo_inv). by vm_compute. }
    destruct (H eq_refl Ht) as [E|[Hs _]]; [exact E|]. exfalso. vm_compute in Hs. lia.
Defined.

Lemma vm_unmap_clears_witness :
  exists m', vm_unmap 4096 0 (Z.of_nat 1) false (demo_m3, [] : list Z) = Done (tt, (m', [])) /\
    pte_of m' demo_T 0 = 0.
Proof.
  destruct (vm_unmap_clears demo_m3 ([] : list Z) 4096 demo_T 0 1 (proj1 demo_inv)) as (_ & _ & H).
  - lia.
  - unfold PGSIZE. simpl. lia.
  - destruct H as (m' & HE & _ & _ & Hp).
    + reflexivity.
    + intros i Hi. replace i with 0 by lia. rewrite (proj2 demo_inv). by vm_compute.
    + exists m'. split; [exact HE|]. rewrite Hp. reflexivity.
Defined.

Lemma copyout_copyin_roundtrip_witness :
  exists m1, copyout 4096 5 20480 3 (demo_m3, [] : list Z) = Done (0, (m1, [])) /\
    copyin 4096 24576 5 3 (m1, [] : list Z) = Done (0, (put_bytes 24576 [0; 0; 0] m1, [])).
Proof.
  destruct (copyout_copyin_roundtrip demo_m3 ([] : list Z) 4096 demo_T 5 20480 24576 [0; 0; 0])
    as (m1 & H1 & _ & H2).
  - apply demo_inv.
  - apply demo_wf3.
  - lia.
  - apply (demo_m3_zero 20480 3); simpl; lia.
  - intros i Hi. simpl in Hi. exists (16389 + Z.of_nat i). split; [by apply demo_uva|].
    split; [|split; [simpl; lia|split; [simpl; lia|]]].
    + pose proof (bytes_at_owned _ _ _ (demo_m3_zero 16384 100 ltac:(lia) ltac:(simpl; lia))) as Ho.
      replace (16389 + Z.of_nat i) with (16384 + (5 + Z.of_nat i)) by lia. apply Ho. simpl. lia.
    + intros p b Hb q Hq. apply demo_T_pages in Hb. unfold page_of, PGSIZE in Hq. lia.
  - intros i j p Hi Hj. simpl in Hi, Hj. rewrite !demo_uva by lia. intros [= <-] [= E]. lia.
  - pose proof (bytes_at_owned _ _ _ (demo_m3_zero 24576 3 ltac:(lia) ltac:(simpl; lia))) as Ho.
    exact Ho.
  - intros p b Hb q Hq. apply demo_T_pages in Hb. unfold page_of, PGSIZE in Hq. simpl. lia.
  - exists m1. split; [exact H1|exact H2].
Defined.

(** The entries of the table above. *)
Definition entry_ok (m : mem) (b i : Z) : bool :=
  match word m (b + 8 * i) with
  | Some e => (Z.land e PTE_V =? 0) ||
      (if b =? 12288 then negb (is_pagetable e) && (i =? 0) && (PTE2PA e =? 16384) else is_pagetable e)
  | None => true
  end.

Lemma demo_entries_ok : forallb (fun b => forallb (entry_ok demo_m3 b) (seqZ 0 512)) [4096; 8192; 12288] = true.
Proof. vm_compute. reflexivity. Qed.

Lemma entry_ok_inv m b i e : entry_ok m b i = true -> word m (b + 8 * i) = Some e -> Z.land e PTE_V <> 0 ->
  if b =? 12288 then is_pagetable e = false /\ i = 0 /\ PTE2PA e = 16384 else is_pagetable e = true.
Proof.
  unfold entry_ok. intros Hall He Hv. rewrite He, (proj2 (Z.eqb_neq _ 0) Hv) in Hall. cbn [orb] in Hall.
  destruct (b =? 12288); [|done]. apply andb_true_iff in Hall as [[H1 H2]%andb_true_iff H3].
  split_and!; [by apply negb_true_iff|lia|lia].
Qed.

Lemma demo_entry b i e :
  In b [4096; 8192; 12288] -> px i -> word demo_m3 (b + 8 * i) = Some e -> Z.land e PTE_V <> 0 ->
  if b =? 12288 then is_pagetable e = false /\ i = 0 /\ PTE2PA e = 16384 else is_pagetable e = true.
Proof.
  intros Hb Hi. apply entry_ok_inv.
  assert (In i (seqZ 0 512)) as Hi' by (apply list_elem_of_In, elem_of_seqZ; unfold px in Hi; lia).
  exact (proj1 (forallb_forall _ _) (proj1 (forallb_forall _ _) demo_entries_ok b Hb) i Hi').
Qed.

Lemma demo_path p b : demo_T !! p = Some b ->
  p = [] /\ b = 4096 \/ p = [0] /\ b = 8192 \/ p = [0; 0] /\ b = 12288.
Proof.
  unfold demo_T, demo_T0. rewrite !lookup_insert_Some, lookup_singleton_Some.
  intros [[<- <-]|[_ [[<- <-]|[_ [<- <-]]]]]; auto.
Qed.

Lemma demo_node do_free q r : node demo_m3 demo_T do_free q r ->
  q = [] /\ r = 4096 \/ q = [0] /\ r = 8192 \/ q = [0; 0] /\ r = 12288 \/ q = [0; 0; 0] /\ r = 16384.
Proof.
  intros [H%demo_path|(_ & p & b & i & e & -> & Hl & Hb & Hi & He & Hv & ->)]; [tauto|].
  assert (p = [0; 0] /\ b = 12288) as [-> ->].
  { clear He. apply demo_path in Hb as [[-> _]|[[-> _]|Hb]]; [discriminate Hl|discriminate Hl|exact Hb]. }
  pose proof (demo_entry 12288 i e ltac:(simpl; auto) Hi He Hv) as (_ & -> & ->). clear. auto.
Qed.

Lemma demo_freeable do_free : freeable demo_m3 4096 demo_T do_free.
Proof.
  split; [apply demo_inv| | |].
  - intros p b i e Hp Hi He Hv. pose proof (demo_path _ _ Hp) as Hc.
    assert (In b [4096; 8192; 12288]) as Hb by (destruct Hc as [[_ ->]|[[_ ->]|[_ ->]]]; simpl; auto).
    pose proof (demo_entry b i e Hb Hi He Hv) as H. clear He Hp.
    destruct Hc as [[-> ->]|[[-> ->]|[-> ->]]]; [exact H|exact H|exact (proj1 H)].
  - intros q r Hn. assert (exists k, (1 <= k <= 4)%nat /\ r = Z.of_nat k * 4096) as (k & Hk & ->).
    { apply demo_node in Hn as [[_ ->]|[[_ ->]|[[_ ->]|[_ ->]]]];
        [exists 1%nat|exists 2%nat|exists 3%nat|exists 4%nat]; lia. }
    split; [apply demo_page; lia|].
    pose proof (bytes_at_owned _ _ _ (demo_zero (Z.of_nat k * 4096) 4096 ltac:(lia) ltac:(simpl; lia))) as Ho.
    assert (forall m0 p v, is_Some (get_le 8 m0 p) -> owned m0 (Z.of_nat k * 4096) PGSIZE ->
              owned (put_le 8 p v m0) (Z.of_nat k * 4096) PGSIZE) as Hput.
    { intros m0 p v Hs. apply owned_frame. intros x Hx. by apply put_le_dom. }
    rewrite length_replicate in Ho. unfold demo_m3, demo_m2, demo_m1.
    apply Hput; [by vm_compute; eexists|]. apply Hput; [by vm_compute; eexists|].
    apply Hput; [by vm_compute; eexists|]. exact Ho.
  - intros q q' r Hq%demo_node Hq'%demo_node. naive_solver lia.
Qed.

Lemma free_pagetable_frees_witness :
  exists m' a', free_pagetable 4 4096 true (demo_m3, [] : list Z) = Done (tt, (m', a')) /\
    (forall r, owns a' r <-> owns ([] : list Z) r \/ exists q, node demo_m3 demo_T true q r).
Proof.
  destruct (free_pagetable_frees 4 demo_m3 ([] : list Z) 4096 demo_T true) as [_ (m' & a' & HE & _ & Ho & _)].
  - apply demo_freeable.
  - split; [constructor|]. intros p Hp. by apply elem_of_nil in Hp.
  - intros q r _ Hr. by apply elem_of_nil in Hr.
  - lia.
  - exists m', a'. split; [exact HE|exact Ho].
Defined.
