(* ===== verification/Mmap.v ===== *)
(** * User memory maps: mmap.c

    Regions of a task's address space are kept in a red-black tree per task
    ([Mmap_t], nodes of [RbTree] carrying a [MmapNode_t]); pages appear lazily
    in the page-fault handler, and fork shares pages copy-on-write under a
    global tree of reference counts.  The file composes [RbTree], [Vm] and
    the small-block allocator (interface [BlockAlloc]); page tables, trees and
    counters are parts of one state.

    A local [struct rb_node cmp_node] is an extra node at the address
    [cmp_node] of the tree's store for the time of a search.  Fields of local
    structs and of fresh blocks that the C code reads without having written
    them come from the stream [junk].  The messages printed are not part of
    the state. *)
From S2P Require Import Prelude RbTree Memory Klib Vm.

(** The small blocks of [mem_malloc], [None] its panic "no space in heap";
    [live] gives the blocks handed out.  The pages that are cut into small
    blocks are taken to be the pool's own, apart from those of [PageAlloc]. *)
Class BlockAlloc (B : Type) : Type := {
  blk_malloc : B -> option (Z * B);
  blk_free : Z -> B -> B;
  live : B -> gset Z;
  blk_malloc_law : forall b p b', blk_malloc b = Some (p, b') ->
    0 < p /\ p ∉ live b /\ live b' = {[ p ]} ∪ live b;
  blk_free_law : forall b p, p ∈ live b -> live (blk_free p b) = live b ∖ {[ p ]}
}.

(** ** Data *)

Definition PERM_R : Z := Z.shiftl 1 1.
Definition PERM_W : Z := Z.shiftl 1 2.
Definition PERM_X : Z := Z.shiftl 1 3.
Definition MAP_ANONYMOUS : Z := 1.
Definition MAP_PRIVATE : Z := 2.
Definition MAP_SHARED : Z := 4.
Definition MAP_ZERO : Z := 8.
Definition VA_ANYNOMOUS : Z := Z.shiftr MAXVA 1.

(** The structs behind [node->data]; [dptr] is the address of the block. *)
Record MmapNode_t := mkRegion { dptr : Z; addr : Z; sz : Z; perm : Z; flag : Z }.
Record RefCntNode_t := mkRef { rptr : Z; raddr : Z; ref_cnt : Z }.

Record Mmap_t := mkMmap { tree : rb_tree MmapNode_t; high_level : Z }.

(** The fields of [task_t] that mmap.c uses. *)
Record task_t := mkTask { mmap_obj : Z; pagetable : Z }.

Definition compf (l r : MmapNode_t) : bool := addr l <? addr r.
Definition ref_cnt_compf (l r : RefCntNode_t) : bool := ref_cnt l <? ref_cnt r.

(** The address of the local comparison node, and of the static [ref]'s
    head: no block of the allocator. *)
Definition cmp_node : Z := -1.
Definition ref_head : Z := -2.

(** ** Nodes of a tree *)

Section Nodes.
Context {D : Type}.

Definition map_nodes (f : gmap Z (rb_node D) -> gmap Z (rb_node D)) : M (rb_tree D) unit :=
  modify (fun s => mkTree (f (t_nodes s)) (t_head s) (t_multi s) (t_size s)).
Definition get_data (p : Z) : M (rb_tree D) D :=
  d <- rd data p;; match d with Some d => ret d | None => fault end.
Definition set_data (p : Z) (d : D) : M (rb_tree D) unit :=
  wr (fun n => mkNode (_parent n) (_left n) (_right n) (_color n) (_isnil n) (Some d)) p.
(** A block that becomes a node, one that is freed, and the local node. *)
Definition new_node (p : Z) (d : D) : M (rb_tree D) unit :=
  map_nodes (<[p := mkNode 0 0 0 RED false (Some d)]>).
Definition drop_node (p : Z) : M (rb_tree D) unit := map_nodes (delete p).
Definition with_cmp_node {R} (d : D) (f : Z -> M (rb_tree D) R) : M (rb_tree D) R :=
  new_node cmp_node d;;; r <- f cmp_node;; drop_node cmp_node;;; ret r.

(** A tree object in uninitialised memory. *)
Definition raw_tree (hd : Z) : rb_tree D := mkTree {[ hd := mkNode 0 0 0 RED false None ]} hd false 0.
End Nodes.

Section Mmap.
Context {A B : Type} `{!PageAlloc A} `{!BlockAlloc B}.

(** The memory with the page allocator, the small blocks, the static [ref]
    and [ref_lock] (held by the running task or not), the [Mmap_t] objects,
    and the words found in uninitialised memory. *)
Record mst := mkMst {
  vm : vst (A := A);
  blocks : B;
  ref : rb_tree RefCntNode_t;
  ref_lock : bool;
  objs : gmap Z Mmap_t;
  junk : nat -> Z;
  drawn : nat
}.

Definition on_vm {R} (f : M (vst (A := A)) R) : M mst R :=
  zoom vm (fun v s => mkMst v (blocks s) (ref s) (ref_lock s) (objs s) (junk s) (drawn s)) f.
Definition on_ref {R} (f : M (rb_tree RefCntNode_t) R) : M mst R :=
  zoom ref (fun r s => mkMst (vm s) (blocks s) r (ref_lock s) (objs s) (junk s) (drawn s)) f.
Definition set_objs (o : gmap Z Mmap_t) : M mst unit :=
  modify (fun s => mkMst (vm s) (blocks s) (ref s) (ref_lock s) o (junk s) (drawn s)).
Definition set_lock (b : bool) : M mst unit :=
  modify (fun s => mkMst (vm s) (blocks s) (ref s) b (objs s) (junk s) (drawn s)).
Definition malloc_block : M mst Z := fun s =>
  match blk_malloc (blocks s) with
  | Some (p, b) => Done (p, mkMst (vm s) b (ref s) (ref_lock s) (objs s) (junk s) (drawn s))
  | None => Panic no_space
  end.
Definition free_block (p : Z) : M mst unit :=
  modify (fun s => mkMst (vm s) (blk_free p (blocks s)) (ref s) (ref_lock s) (objs s) (junk s) (drawn s)).
Definition uninit : M mst Z := fun s =>
  Done (junk s (drawn s), mkMst (vm s) (blocks s) (ref s) (ref_lock s) (objs s) (junk s) (S (drawn s))).

Definition get_obj (o : Z) : M mst Mmap_t :=
  m <- gets objs;; match m !! o with Some x => ret x | None => fault end.
Definition put_obj (o : Z) (x : Mmap_t) : M mst unit := m <- gets objs;; set_objs (<[o := x]> m).
Definition on_obj {R} (o : Z) (f : M (rb_tree MmapNode_t) R) : M mst R :=
  x <- get_obj o;;
  r <- (fun s => match f (tree x) with
                 | Done (r, t) => Done ((r, t), s)
                 | Panic msg => Panic msg
                 | Fault => Fault
                 | NoFuel => NoFuel
                 | Blocked => Blocked
                 end);;
  put_obj o (mkMmap r.2 (high_level x));;; ret r.1.

(** [ref_lock], for the task that runs. *)
Definition lm_lock : M mst unit :=
  h <- gets ref_lock;; if h : bool then panic "holding lock" else set_lock true.
Definition lm_unlock : M mst unit :=
  h <- gets ref_lock;; if h : bool then set_lock false else panic "unlock".
Definition check_lock : M mst bool :=
  h <- gets ref_lock;; if h : bool then ret false else lm_lock;;; ret true.

(** A [for(i = start; i < stop; i += PGSIZE)]. *)
Fixpoint for_pages (fuel : nat) (i stop : Z) (body : Z -> M mst unit) : M mst unit :=
  match fuel with
  | O => nofuel
  | S fuel => if i <? stop then body i;;; for_pages fuel (u64 (i + PGSIZE)) stop body else ret tt
  end.
Definition region_pages (d : MmapNode_t) (body : Z -> M mst unit) : M mst unit :=
  for_pages (S (S (Z.to_nat (sz d / PGSIZE)))) (addr d) (u64 (addr d + sz d)) body.

(** ** Reference counts *)

Definition ref_cnt_alloc (pa cnt : Z) : M mst Z :=
  node <- malloc_block;;
  dblk <- malloc_block;;
  if (dblk =? 0) || (node =? 0) then fault
  else on_ref (new_node node (mkRef dblk pa cnt));;; ret node.

Definition ref_find (pa : Z) : M mst Z :=
  w <- uninit;;
  on_ref (with_cmp_node (mkRef 0 pa w) (fun cmp => rb_find ref_cnt_compf cmp)).

Definition ref_cnt_inc (pa : Z) : M mst Z :=
  locked <- check_lock;;
  node <- ref_find pa;;
  head <- on_ref rb_head;;
  (if node =? head then
     node <- ref_cnt_alloc pa 1;;
     on_ref (rb_insert ref_cnt_compf node);;; ret tt
   else
     d <- on_ref (get_data node);;
     on_ref (set_data node (mkRef (rptr d) (raddr d) (u64 (ref_cnt d + 1)))));;;
  when locked lm_unlock;;;
  ret 0.

Definition ref_cnt_dec (pa : Z) : M mst Z :=
  locked <- check_lock;;
  node <- ref_find pa;;
  head <- on_ref rb_head;;
  if node =? head then when locked lm_unlock;;; ret (-1)
  else
    d <- on_ref (get_data node);;
    on_ref (set_data node (mkRef (rptr d) (raddr d) (u64 (ref_cnt d - 1))));;;
    d <- on_ref (get_data node);;
    when (ref_cnt d =? 0)
      (on_ref (rb_erase node);;;
       d <- on_ref (get_data node);;
       on_vm (free_page (raddr d));;;
       free_block (rptr d);;;
       on_ref (drop_node node);;; free_block node);;;
    when locked lm_unlock;;;
    ret 0.

Definition ref_cnt_get (pa : Z) : M mst Z :=
  locked <- check_lock;;
  node <- ref_find pa;;
  head <- on_ref rb_head;;
  if node =? head then when locked lm_unlock;;; ret 0
  else
    when locked lm_unlock;;;
    d <- on_ref (get_data node);; ret (ref_cnt d).

(** ** Objects and regions *)

Definition mmap_dump (o node : Z) : M mst unit :=
  d <- on_obj o (get_data node);;
  region_pages d (fun i => ref_cnt_get i;;; ret tt).

(** [node->type] is [MmapNode] for every node of an object's tree. *)
Definition mmap_free (o node : Z) : M mst unit :=
  mmap_dump o node;;;
  d <- on_obj o (get_data node);;
  free_block (dptr d);;;
  on_obj o (drop_node node);;; free_block node.

Definition mmap_freef (o n : Z) : M mst unit :=
  d <- on_obj o (get_data n);;
  region_pages d (fun i => ref_cnt_dec i;;; ret tt);;;
  mmap_free o n.

Definition mmap_init : M mst unit :=
  on_ref (put (raw_tree ref_head);;; rb_init false);;; set_lock false.

Definition mmap_create : M mst Z :=
  obj <- malloc_block;;
  if obj =? 0 then fault
  else
    high <- uninit;;
    put_obj obj (mkMmap (raw_tree obj) high);;;
    on_obj obj (rb_init false);;;
    ret obj.

(** [mmap_freef] on the nodes that [rb_clear_free] hands out, in order. *)
Fixpoint freef_all (o : Z) (l : list Z) : M mst unit :=
  match l with
  | [] => ret tt
  | n :: l => mmap_freef o n;;; freef_all o l
  end.
Definition mmap_destroy (obj : Z) : M mst unit :=
  if obj =? 0 then ret tt
  else
    freed <- on_obj obj rb_clear_free;;
    freef_all obj freed;;;
    m <- gets objs;; set_objs (delete obj m);;; free_block obj.

(** The node joins the store of the object it is made for. *)
Definition mmap_alloc (o addr sz perm flag : Z) : M mst Z :=
  dblk <- malloc_block;;
  node <- malloc_block;;
  if (dblk =? 0) || (node =? 0) then fault
  else on_obj o (new_node node (mkRegion dblk addr sz perm flag));;; ret node.
Definition mmap_alloc_copy (o : Z) (d : MmapNode_t) : M mst Z :=
  mmap_alloc o (addr d) (sz d) (perm d) (flag d).

Fixpoint uvm_mappages_loop (fuel : nat) (pagetable a last perm : Z) : M mst Z :=
  match fuel with
  | O => nofuel
  | S fuel =>
    pa <- on_vm malloc_page;;
    if pa =? 0 then ret (-1)
    else
      r <- on_vm (uvm_map pagetable a pa PGSIZE perm false);;
      if r <? 0 then ret (-1)
      else
        ref_cnt_inc pa;;;
        if a =? last then ret 0 else uvm_mappages_loop fuel pagetable (u64 (a + PGSIZE)) last perm
  end.
Definition uvm_mappages (pagetable va sz perm : Z) : M mst Z :=
  if sz =? 0 then ret 0
  else
    let a := PGROUNDDOWN va in
    let last := PGROUNDDOWN (u64 (va + sz - 1)) in
    uvm_mappages_loop (S (Z.to_nat (u64 (last - a) / PGSIZE))) pagetable a last perm.

Definition mmap_by_obj (obj pagetable addr sz perm flag : Z) (alloc_phy : bool) : M mst Z :=
  if negb (Z.land flag MAP_PRIVATE =? 0) && negb (Z.land flag MAP_SHARED =? 0) then
    panic "mmap: MAP_PRIVATE and MAP_SHARED can't be used together"
  else
    let flag := if Z.land flag MAP_SHARED =? 0 then Z.lor flag MAP_PRIVATE else flag in
    let addr := PGROUNDDOWN addr in
    let sz := PGROUNDUP sz in
    let rand_memory := (addr =? 0) && (Z.land flag MAP_ZERO =? 0) && negb (Z.land flag MAP_ANONYMOUS =? 0) in
    x <- get_obj obj;;
    let addr := if rand_memory then u64 (VA_ANYNOMOUS + high_level x) else addr in
    node <- mmap_alloc obj addr sz perm flag;;
    '(r, out) <- on_obj obj (rb_insert compf node);;
    head <- on_obj obj rb_head;;
    (if negb (out =? 0) && negb (r =? head) then
       when rand_memory
         (x <- get_obj obj;; put_obj obj (mkMmap (tree x) (u64 (high_level x + sz))))
     else panic "mmap failed");;;
    when alloc_phy (uvm_mappages pagetable addr sz (s32 perm);;; ret tt);;;
    ret addr.

Definition mmap (t : task_t) (addr sz perm flag : Z) (alloc_phy : bool) : M mst Z :=
  mmap_by_obj (mmap_obj t) (pagetable t) addr sz perm flag alloc_phy.

(** The value stored in [a0]. *)
Definition sys_mmap (t : task_t) (a0 a1 a2 a3 : Z) : M mst Z := mmap t a0 a1 a2 a3 false.

(** The comparison only reads [addr] of the local data. *)
Definition key_node (a : Z) : MmapNode_t := mkRegion 0 a 0 0 0.

Definition mmap_find (obj a : Z) : M mst (option MmapNode_t) :=
  on_obj obj (
    node <- with_cmp_node (key_node a) (fun cmp => rb_ubnd compf cmp);;
    lm <- rb_lmst;;
    if node =? lm then ret None
    else node <- rb_prev node;; d <- get_data node;; ret (Some d)).

(** ** Faults *)

Definition handle_accessfault : M mst unit := panic "access fault".

(** [*pte |= PTE_W] *)
Definition or_pte (pte bits : Z) : M mst unit :=
  on_vm (e <- load64 pte;; store64 pte (Z.lor e bits)).

(** [r_stval()], [r_scause()] and [mytask()] are arguments. *)
Definition handle_pagefault (t : task_t) (stval scause : Z) : M mst unit :=
  let va := PGROUNDDOWN stval in
  r <- mmap_find (mmap_obj t) va;;
  match r with
  | None => panic "page fault can't find the mapping"
  | Some mmap_node =>
    if negb ((addr mmap_node <=? va) && (va <? u64 (addr mmap_node + sz mmap_node))) then
      panic "page fault can't find the mapping"
    else
      pte <- on_vm (walk (pagetable t) va false);;
      e <- (if pte =? 0 then ret 0 else on_vm (load64 pte));;
      if negb (pte =? 0) && negb (Z.land e PTE_V =? 0) then
        let access_perm :=
          if scause =? 12 then PERM_X else if scause =? 13 then PERM_R
          else if scause =? 15 then PERM_W else 0 in
        if Z.land (perm mmap_node) access_perm =? 0 then panic "access fault permission denied"
        else
          let flags := PTE_FLAGS e in
          when ((Z.land flags PTE_W =? 0) && (access_perm =? PERM_W))
            (lm_lock;;;
             c <- ref_cnt_get va;;
             (if c =? 1 then or_pte pte PTE_W
              else
                e <- on_vm (load64 pte);;
                ref_cnt_dec (PTE2PA e);;;
                pa <- on_vm malloc_page;;
                if pa =? 0 then panic "access fault can't allocate physical memory"
                else
                  e <- on_vm (load64 pte);;
                  on_vm (on_mem (memcpy pa (PTE2PA e) PGSIZE));;;
                  on_vm (store64 pte (Z.lor (Z.lor (PA2PTE pa) flags) PTE_W));;;
                  ref_cnt_inc pa;;; ret tt);;;
             lm_unlock)
      else
        when (negb (Z.land (flag mmap_node) MAP_ANONYMOUS =? 0))
          (pa <- on_vm malloc_page;;
           if pa =? 0 then panic "page fault can't allocate physical memory"
           else
             r <- on_vm (uvm_map (pagetable t) va pa PGSIZE (s32 (perm mmap_node)) false);;
             if r <? 0 then panic "page fault can't map physical memory"
             else ref_cnt_inc pa;;; ret tt)
  end.

(** ** Fork and unmap *)

(** One page of [copy_mmap]; [~PTE_W] is a 64-bit mask. *)
Definition copy_page (t nt : task_t) (d : MmapNode_t) (va : Z) : M mst unit :=
  pte <- on_vm (walk (pagetable t) va false);;
  e <- (if pte =? 0 then ret 0 else on_vm (load64 pte));;
  if (pte =? 0) || (Z.land e PTE_V =? 0) then ret tt
  else
    let mask := if negb (Z.land (flag d) MAP_PRIVATE =? 0)
                then Z.land (2 ^ 64 - 1) (u64 (Z.lnot PTE_W)) else 2 ^ 64 - 1 in
    let pa := PTE2PA e in
    let p := s32 (Z.land (perm d) mask) in
    r <- on_vm (uvm_map (pagetable t) va pa PGSIZE p true);;
    if r <? 0 then panic "copy_mmap: uvm_map"
    else
      r <- on_vm (uvm_map (pagetable nt) va pa PGSIZE p false);;
      if r <? 0 then panic "copy_mmap: uvm_map"
      else ref_cnt_inc pa;;; ret tt.

Fixpoint copy_loop (fuel : nat) (t nt : task_t) (node head : Z) : M mst unit :=
  match fuel with
  | O => nofuel
  | S fuel =>
    if node =? head then ret tt
    else
      d <- on_obj (mmap_obj t) (get_data node);;
      n <- mmap_alloc_copy (mmap_obj nt) d;;
      '(_, out) <- on_obj (mmap_obj nt) (rb_insert compf n);;
      if out =? 0 then panic "copy_mmap: rb_insert"
      else
        d' <- on_obj (mmap_obj nt) (get_data n);;
        region_pages d' (copy_page t nt d');;;
        next <- on_obj (mmap_obj t) (rb_next node);;
        copy_loop fuel t nt next head
  end.

Definition copy_mmap (t nt : task_t) : M mst unit :=
  node <- on_obj (mmap_obj t) rb_lmst;;
  head <- on_obj (mmap_obj t) rb_head;;
  fuel <- on_obj (mmap_obj t) loop_fuel;;
  copy_loop fuel t nt node head;;;
  x <- get_obj (mmap_obj t);;
  nx <- get_obj (mmap_obj nt);;
  put_obj (mmap_obj nt) (mkMmap (tree nx) (high_level x)).

Definition unmap_page (t : task_t) (va : Z) : M mst unit :=
  pte <- on_vm (walk (pagetable t) va false);;
  e <- (if pte =? 0 then ret 0 else on_vm (load64 pte));;
  if (pte =? 0) || (Z.land e PTE_V =? 0) then ret tt
  else
    let pa := PTE2PA e in
    on_vm (vm_unmap (pagetable t) va 1 false);;;
    ref_cnt_dec pa;;; ret tt.

Definition munmap (t : task_t) (a : Z) : M mst Z :=
  node <- on_obj (mmap_obj t) (with_cmp_node (key_node a) (fun cmp => rb_find compf cmp));;
  head <- on_obj (mmap_obj t) rb_head;;
  if node =? head then ret (-1)
  else
    d <- on_obj (mmap_obj t) (get_data node);;
    lm_lock;;;
    region_pages d (unmap_page t);;;
    lm_unlock;;;
    on_obj (mmap_obj t) (rb_erase node);;;
    mmap_free (mmap_obj t) node;;;
    ret 0.

Definition sys_munmap (t : task_t) (a0 : Z) : M mst Z := munmap t a0.

End Mmap.

Arguments mst : clear implicits.
