(* ===== verification/MmapRef.v ===== *)
(** * The reference counts of mmap.c

    The tree [ref] is ordered by the counts, which change in place, so its
    listing is not sorted; the lemmas of this file use its shape only: every
    operation ends, follows good pointers and keeps a red-black tree. *)
From S2P Require Import Prelude RbTree RbSpec RbInsert RbBalance RbSearch RbProofs RbTheorems RbErase RbRemove RbShape Memory Klib Vm Mmap.

#[export] Instance compf_order : StrictWeakOrder compf := key_order addr.
#[export] Instance ref_cnt_compf_order : StrictWeakOrder ref_cnt_compf := key_order ref_cnt.

(** ** Searches only read, and see the data through the comparison *)

(** [agree s1 s2 m]: the routine has the same outcome in both states, and
    changes neither. *)
Definition agree {S R : Type} (s1 s2 : S) (m : M S R) : Prop :=
  match m s1, m s2 with
  | Done (a, t1), Done (b, t2) => a = b /\ t1 = s1 /\ t2 = s2
  | Panic x, Panic y => x = y
  | Fault, Fault | NoFuel, NoFuel | Blocked, Blocked => True
  | _, _ => False
  end.

Lemma agree_bind {S R Q : Type} (s1 s2 : S) (m : M S R) (k : R -> M S Q) :
  agree s1 s2 m -> (forall a, agree s1 s2 (k a)) -> agree s1 s2 (bind m k).
Proof.
  unfold agree at 1 3, bind. intros Hm Hk.
  destruct (m s1) as [[a t1]| | | |], (m s2) as [[b t2]| | | |]; try done.
  destruct Hm as (<- & -> & ->). apply Hk.
Qed.

Lemma agree_ret {S R : Type} (s1 s2 : S) (a : R) : agree s1 s2 (ret a).
Proof. done. Qed.

Section Searches.
Context {D : Type} (comp : D -> D -> bool) (h : gmap Z (rb_node D)) (q : Z) (d1 d2 : D) (hd : Z) (mu : bool) (sz : Z).
Hypothesis Hl : forall d, comp d1 d = comp d2 d.
Hypothesis Hr : forall d, comp d d1 = comp d d2.

Let n (d : D) : rb_node D := mkNode 0 0 0 RED false (Some d).
Let s1 := mkTree (<[q := n d1]> h) hd mu sz.
Let s2 := mkTree (<[q := n d2]> h) hd mu sz.

Lemma agree_rd {R} (f : rb_node D -> R) p : f (n d1) = f (n d2) -> agree s1 s2 (rd f p).
Proof.
  intros E. unfold agree, rd, s1, s2. cbn. destruct (decide (p = q)) as [->|Hp].
  - rewrite !lookup_insert_eq. by split_and!.
  - rewrite !lookup_insert_ne by done. by destruct (h !! p).
Qed.

Lemma agree_comp a b : agree s1 s2 (impl_comp comp a b).
Proof.
  unfold agree, impl_comp, bind, rd, s1, s2. cbn.
  destruct (decide (a = q)) as [->|Ha].
  - rewrite !lookup_insert_eq. cbn. destruct (decide (b = q)) as [->|Hb].
    + rewrite !lookup_insert_eq. cbn. by rewrite Hl, Hr.
    + rewrite !lookup_insert_ne by done. destruct (h !! b) as [nb|]; cbn; [|done]. destruct (data nb); cbn; [by rewrite Hl|done].
  - rewrite !lookup_insert_ne by done. destruct (h !! a) as [na|]; cbn; [|done]. destruct (decide (b = q)) as [->|Hb].
    + rewrite !lookup_insert_eq. cbn. destruct (data na); cbn; [by rewrite Hr|done].
    + rewrite !lookup_insert_ne by done. destruct (h !! b) as [nb|]; cbn; [|done]. by destruct (data na), (data nb).
Qed.

Lemma agree_lbnd_loop fuel : forall parent node val, agree s1 s2 (lbnd_loop comp fuel parent node val).
Proof.
  induction fuel as [|fuel IH]; intros parent node val; [done|]. cbn [lbnd_loop].
  apply agree_bind; [by apply agree_rd|]. intros [|]; [apply agree_ret|].
  apply agree_bind; [apply agree_comp|]. intros [|]; (apply agree_bind; [by apply agree_rd|]); intros r; apply IH.
Qed.

Lemma agree_find val : agree s1 s2 (rb_find comp val).
Proof.
  unfold rb_find, rb_lbnd, impl_lbnd. repeat apply agree_bind.
  - done.
  - intros p. apply agree_bind; [by apply agree_rd|]. intros r. apply agree_bind.
    + unfold agree, loop_fuel, gets, s1, s2. cbn. split_and!; try done. do 2 f_equal.
      rewrite <- !size_dom, !dom_insert_L. done.
    + intros fuel. apply agree_lbnd_loop.
  - intros fr. apply agree_bind; [done|]. intros p. destruct (fr =? p); [apply agree_ret|].
    apply agree_bind; [apply agree_comp|]. intros b. apply agree_ret.
Qed.

Lemma with_cmp_same s R (F : Z -> M (rb_tree D) R) : q = cmp_node -> s = mkTree h hd mu sz -> agree s1 s2 (F cmp_node) ->
  with_cmp_node d1 F s = with_cmp_node d2 F s.
Proof.
  intros Hq -> HF. unfold with_cmp_node, new_node, drop_node, map_nodes. rewrite !bind_modify. cbn.
  rewrite <- !Hq in *. unfold agree in HF. unfold s1, s2, n in HF. unfold bind.
  destruct (F q (mkTree (<[q := mkNode 0 0 0 RED false (Some d1)]> h) hd mu sz)) as [[a t1]| | | |],
    (F q (mkTree (<[q := mkNode 0 0 0 RED false (Some d2)]> h) hd mu sz)) as [[b t2]| | | |]; try done.
  - destruct HF as (<- & -> & ->). unfold modify. cbn. unfold ret. do 3 f_equal. by rewrite !delete_insert_eq.
  - by rewrite HF.
Qed.
End Searches.

Section Ref.
Context {A B : Type} `{!PageAlloc A} `{!BlockAlloc B}.
Implicit Types (s : mst A B).

Lemma ref_find_same pa pa' s : ref_find pa s = ref_find pa' s.
Proof.
  assert (forall w r, with_cmp_node (mkRef 0 pa w) (fun cmp => rb_find ref_cnt_compf cmp) r =
    with_cmp_node (mkRef 0 pa' w) (fun cmp => rb_find ref_cnt_compf cmp) r) as E.
  { intros w [h hd mu sz]. eapply (with_cmp_same h cmp_node (mkRef 0 pa w) (mkRef 0 pa' w)); [done|done|]. by apply agree_find. }
  unfold ref_find, uninit, bind, on_ref, zoom. cbv beta iota. by rewrite E.
Qed.

(** The page a reference-count routine is called for does not matter:
    [ref_cnt_dec] and [ref_cnt_get] of any two pages do the same to every
    state, because [ref_cnt_compf] (mmap.c:16) compares the counts, and the
    count of the node searched for is never set. *)
Theorem refcount_ignores_page (pa pa' : Z) s :
  ref_cnt_dec pa s = ref_cnt_dec pa' s /\ ref_cnt_get pa s = ref_cnt_get pa' s.
Proof.
  unfold ref_cnt_dec, ref_cnt_get, bind. destruct (check_lock s) as [[lk s0]| | | |]; [|done..].
  by rewrite (ref_find_same pa pa' s0).
Qed.

(** ** Running the parts *)

Definition set_vm s (v : vst) : mst A B := mkMst v (blocks s) (ref s) (ref_lock s) (objs s) (junk s) (drawn s).
Definition set_ref s (r : rb_tree RefCntNode_t) : mst A B := mkMst (vm s) (blocks s) r (ref_lock s) (objs s) (junk s) (drawn s).

Lemma on_vm_run {R} (f : M vst R) s r v : f (vm s) = Done (r, v) -> on_vm f s = Done (r, set_vm s v).
Proof. intros E. unfold on_vm, zoom. by rewrite E. Qed.
Lemma on_vm_panic {R} (f : M vst R) s msg : f (vm s) = Panic msg -> on_vm f s = Panic msg.
Proof. intros E. unfold on_vm, zoom. by rewrite E. Qed.
Lemma on_ref_run {R} (f : M (rb_tree RefCntNode_t) R) s r t : f (ref s) = Done (r, t) -> on_ref f s = Done (r, set_ref s t).
Proof. intros E. unfold on_ref, zoom. by rewrite E. Qed.

(** [more b k]: the next [k] small blocks can be had. *)
Fixpoint more (k : nat) (b : B) : Prop :=
  match k with
  | O => True
  | S k => match blk_malloc b with Some (_, b') => more k b' | None => False end
  end.

Lemma more_le j k b : (j <= k)%nat -> more k b -> more j b.
Proof.
  revert j b. induction k as [|k IH]; intros [|j] b Hj; cbn [more]; try done; [lia|].
  destruct (blk_malloc b) as [[p b']|]; [|done]. apply IH. lia.
Qed.

(** The reference counts are a red-black tree of live blocks. *)
Record ref_ok s : Prop := {
  ro_shape : exists l, rb_shape (ref s) l;
  ro_multi : t_multi (ref s) = false;
  ro_head : t_head (ref s) = ref_head;
  ro_live : forall p, p ∈ dom (t_nodes (ref s)) -> p = ref_head \/ 0 < p /\ p ∈ live (blocks s)
}.

(** What [ref_cnt_inc] may change, with at most [k] blocks taken. *)
Record ref_step (k : nat) s s' : Prop := {
  rs_ok : ref_ok s';
  rs_vm : vm s' = vm s;
  rs_objs : objs s' = objs s;
  rs_lock : ref_lock s' = ref_lock s;
  rs_live : live (blocks s) ⊆ live (blocks s');
  rs_more : forall n, more (n + k) (blocks s) -> more n (blocks s')
}.

Lemma with_cmp_find s pa w : ref_ok s ->
  exists r, with_cmp_node (mkRef 0 pa w) (fun cmp => rb_find ref_cnt_compf cmp) (ref s) = Done (r, ref s) /\
    (r = ref_head \/ exists l d, rb_shape (ref s) l /\ (r, d) ∈ l).
Proof.
  intros [[l Hl] Hm Hh Hlv]. destruct (ref s) as [h hd mu sz] eqn:Er. cbn [t_nodes t_head t_multi] in *.
  assert (cmp_node ∉ dom h) as Hc by (intros [?|[? _]]%Hlv; done).
  assert (cmp_node ∉ t_head (mkTree h hd mu sz) :: l.*1) as Hcl.
  { cbn [t_head]. intros [E|Hin]%elem_of_cons; [by rewrite Hh in E|]. apply list_elem_of_fmap in Hin as (e & E & Hin).
    destruct (shape_data ref_cnt_compf _ _ _ Hl Hin) as (n & Hn & _). apply Hc. rewrite E. apply elem_of_dom. eauto. }
  unfold with_cmp_node, new_node, drop_node, map_nodes. rewrite !bind_modify. cbn [t_nodes t_head t_multi t_size].
  set (h1 := <[cmp_node := mkNode 0 0 0 RED false (Some (mkRef 0 pa w))]> h).
  assert (rb_shape (mkTree h1 hd mu sz) l) as Hl1.
  { apply (shape_frame (mkTree h hd mu sz)); [done|]. intros q Hq. apply lookup_insert_ne. by intros <-. }
  destruct (rb_find_shape ref_cnt_compf (mkTree h1 hd mu sz) l cmp_node _ (mkRef 0 pa w) Hl1 (lookup_insert_eq _ _ _) eq_refl)
    as (r & E & Hr). rewrite (bind_done _ _ _ _ _ E). exists r. split.
  - rewrite bind_modify. cbn. unfold h1. rewrite delete_insert_eq, delete_id by (by apply not_elem_of_dom). done.
  - destruct Hr as [->|[d Hd]]; [by left|right; by exists l, d].
Qed.

(** The part of [ref_cnt_inc] under the lock. *)
Definition inc_body (pa : Z) : M (mst A B) unit :=
  node <- ref_find pa;;
  head <- on_ref rb_head;;
  if node =? head then
    node <- ref_cnt_alloc pa 1;;
    on_ref (rb_insert ref_cnt_compf node);;; ret tt
  else
    d <- on_ref (get_data node);;
    on_ref (set_data node (mkRef (rptr d) (raddr d) (u64 (ref_cnt d + 1)))).

Lemma ref_cnt_alloc_spec pa cnt s l : rb_shape (ref s) l -> ref_ok s -> more 2 (blocks s) ->
  exists node n d s', ref_cnt_alloc pa cnt s = Done (node, s') /\ ref_step 2 s s' /\
    rb_shape (ref s') l /\ node ∉ t_head (ref s') :: l.*1 /\ t_nodes (ref s') !! node = Some n /\ data n = Some d.
Proof.
  intros Hl [_ Hmu Hh Hlv] Hmore. unfold ref_cnt_alloc. unfold malloc_block at 1. unfold bind at 1.
  cbn [more] in Hmore. destruct (blk_malloc (blocks s)) as [[p b1]|] eqn:E1; [|done].
  unfold malloc_block. unfold bind at 1. cbn [blocks].
  destruct (blk_malloc b1) as [[q b2]|] eqn:E2; [|done].
  apply blk_malloc_law in E1 as HL1. destruct HL1 as (Hp0 & Hpl & Hl1).
  apply blk_malloc_law in E2 as HL2. destruct HL2 as (Hq0 & Hql & Hl2).
  rewrite (proj2 (Z.eqb_neq q 0)), (proj2 (Z.eqb_neq p 0)) by lia. cbn [orb].
  set (n := mkNode 0 0 0 RED false (Some (mkRef q pa cnt))). set (h := t_nodes (ref s)) in *.
  assert (p ∉ dom h) as Hpd by (intros [?|[_ ?]]%Hlv; [unfold ref_head in *; lia|done]).
  assert (p ∉ t_head (ref s) :: l.*1) as Hpn.
  { intros [E|Hin]%elem_of_cons; [rewrite Hh in E; unfold ref_head in E; lia|]. apply list_elem_of_fmap in Hin as (e & -> & Hin).
    destruct (shape_data ref_cnt_compf _ _ _ Hl Hin) as (n' & Hn' & _). apply Hpd. apply elem_of_dom. eauto. }
  set (r := mkTree (<[p := n]> h) (t_head (ref s)) (t_multi (ref s)) (t_size (ref s))).
  assert (rb_shape r l) as Hr by (apply (shape_frame (ref s)); [done|]; intros x Hx; apply lookup_insert_ne; by intros <-).
  exists p, n, (mkRef q pa cnt). eexists. split; [reflexivity|]. split; [|split_and!; try done; by apply lookup_insert_eq].
  split; cbn [vm blocks ref ref_lock objs]; try done.
  - split; cbn; [by exists l|done|done|]. intros x. rewrite dom_insert_L. intros [->%elem_of_singleton|Hx]%elem_of_union.
    + right. split; [done|]. rewrite Hl2, Hl1. set_solver.
    + destruct (Hlv x Hx) as [?|[? ?]]; [by left|right]. split; [done|]. rewrite Hl2, Hl1. set_solver.
  - rewrite Hl2, Hl1. set_solver.
  - intros k Hk. replace (k + 2)%nat with (S (S k)) in Hk by lia. cbn [more] in Hk. rewrite E1, E2 in Hk. tauto.
Qed.

Lemma ref_step_trans j k s1 s2 s3 : ref_step j s1 s2 -> ref_step k s2 s3 -> ref_step (j + k) s1 s3.
Proof.
  intros [O1 V1 B1 L1 I1 M1] [O2 V2 B2 L2 I2 M2]. split; try congruence; [set_solver|].
  intros n Hn. apply M2, M1. by replace (n + k + j)%nat with (n + (j + k))%nat by lia.
Qed.

Lemma inc_body_spec pa s : ref_ok s -> more 2 (blocks s) -> exists s', inc_body pa s = Done (tt, s') /\ ref_step 2 s s'.
Proof.
  intros Hok Hmore. unfold inc_body, ref_find, uninit. rewrite bind_assoc. unfold bind at 1.
  set (s1 := mkMst (vm s) (blocks s) (ref s) (ref_lock s) (objs s) (junk s) (S (drawn s))).
  assert (ref_step 0 s s1) as HS1.
  { split; try done; [destruct Hok; by split|]. intros n. by rewrite Nat.add_0_r. }
  pose proof (rs_ok _ _ _ HS1) as Hok1.
  destruct (with_cmp_find s1 pa (junk s (drawn s)) Hok1) as (r & E & Hr).
  rewrite (bind_done _ _ _ _ _ (on_ref_run _ s1 _ _ E)). change (set_ref s1 (ref s1)) with s1.
  rewrite (bind_done _ _ _ _ _ (on_ref_run rb_head s1 _ _ eq_refl)). change (set_ref s1 (ref s1)) with s1.
  change (t_head (ref s1)) with (t_head (ref s)). rewrite (ro_head _ Hok).
  destruct (Z.eqb_spec r ref_head) as [->|Hne].
  - destruct (ro_shape _ Hok1) as [l Hl].
    destruct (ref_cnt_alloc_spec pa 1 s1 l Hl Hok1 Hmore) as (p & n & d & s2 & E2 & HS2 & Hl2 & Hp & Hn & Hd).
    rewrite (bind_done _ _ _ _ _ E2). pose proof (rs_ok _ _ _ HS2) as [_ Hmu2 Hh2 Hlv2].
    destruct (rb_insert_shape ref_cnt_compf (ref s2) l p n d Hl2 Hmu2 Hp Hn Hd) as (o & r3 & l3 & E3 & Hl3 & Hh3 & Hmu3 & Hd3).
    rewrite (bind_done _ _ _ _ _ (on_ref_run _ s2 _ _ E3)). eexists. split; [reflexivity|].
    replace 2%nat with (0 + (2 + 0))%nat by lia. eapply ref_step_trans; [exact HS1|]. eapply ref_step_trans; [exact HS2|].
    split; cbn; try done; [|intros k; by rewrite Nat.add_0_r].
    split; cbn; [by exists l3|done|congruence|]. intros x. rewrite Hd3. apply Hlv2.
  - destruct Hr as [->|(l & d & Hl & Hin)]; [done|].
    destruct (shape_data ref_cnt_compf _ _ _ Hl Hin) as (n & Hn & Hd). cbn [fst snd] in *.
    assert (get_data r (ref s1) = Done (d, ref s1)) as Eg by (unfold get_data, bind, rd; by rewrite Hn, Hd).
    rewrite (bind_done _ _ _ _ _ (on_ref_run _ s1 _ _ Eg)). change (set_ref s1 (ref s1)) with s1.
    set (d' := mkRef (rptr d) (raddr d) (u64 (ref_cnt d + 1))).
    destruct (set_data_shape ref_cnt_compf (ref s1) l (r, d) n d' Hl Hin Hn) as (l' & _ & Hl'). cbn [fst] in Hl'.
    assert (set_data r d' (ref s1) = Done (tt, mkTree (<[r := mkNode (_parent n) (_left n) (_right n) (_color n) (_isnil n) (Some d')]>
      (t_nodes (ref s1))) (t_head (ref s1)) (t_multi (ref s1)) (t_size (ref s1)))) as Es by (unfold set_data, wr; by rewrite Hn).
    eexists. split; [exact (on_ref_run _ s1 _ _ Es)|]. destruct Hok1 as [_ Hmu1 Hh1 Hlv1]. split; cbn; try done.
    + split; cbn; [by eexists|done|done|]. intros x. rewrite dom_insert_L. intros [->%elem_of_singleton|Hx]%elem_of_union; [|by apply Hlv1].
      apply Hlv1. apply elem_of_dom. eauto.
    + intros k. apply more_le. lia.
Qed.

(** [ref_cnt_inc] returns 0 and touches nothing but the counts. *)
Lemma ref_cnt_inc_spec pa s : ref_ok s -> more 2 (blocks s) ->
  exists s', ref_cnt_inc pa s = Done (0, s') /\ ref_step 2 s s'.
Proof.
  intros Hok Hmore.
  assert (ref_cnt_inc pa s = bind check_lock (fun lk => inc_body pa;;; when lk lm_unlock;;; ret 0) s) as ->.
  { unfold ref_cnt_inc. apply bind_ext. intros lk s0. unfold inc_body. rewrite bind_assoc. apply bind_ext. intros node s1.
    rewrite bind_assoc. by apply bind_ext. }
  unfold check_lock. rewrite bind_assoc, bind_gets. destruct (ref_lock s) eqn:Elk.
  - rewrite bind_ret. destruct (inc_body_spec pa s Hok Hmore) as (s' & E & HS).
    rewrite (bind_done _ _ _ _ _ E). by exists s'.
  - unfold lm_lock. rewrite bind_assoc, bind_assoc, bind_gets, Elk. unfold set_lock. rewrite bind_modify, bind_ret.
    set (s1 := mkMst _ _ _ true _ _ _). assert (ref_ok s1) as Hok1 by (by destruct Hok).
    destruct (inc_body_spec pa s1 Hok1 Hmore) as (s' & E & [O V Ob L I Mo]).
    rewrite (bind_done _ _ _ _ _ E). cbn [when]. unfold lm_unlock. rewrite bind_assoc, bind_gets, L. cbn [ref_lock s1].
    unfold set_lock. rewrite bind_modify. eexists. split; [reflexivity|]. split; cbn; try done. by destruct O.
Qed.

End Ref.
