(* ===== verification/MmapRegions.v ===== *)
(** * Looking regions up and placing new ones

    [mmap_find] against the listing of an object's tree, and the step from an
    operation on a tree to the operation on the object. *)
From S2P Require Import Prelude RbTree RbSpec RbInsert RbBalance RbSearch RbProofs RbTheorems RbErase RbRemove RbShape Memory Klib Vm VmProofs Mmap MmapRef.

(** ** Trees *)

Section Tree.
Context {D : Type} (comp : D -> D -> bool) `{!StrictWeakOrder comp}.
Implicit Types (t : rb_tree D) (l : list (Z * D)).

Lemma sorted_split l d : sorted comp l -> l = upto comp d l ++ beyond comp d l.
Proof.
  unfold upto, beyond. induction l as [|e l IH]; [done|]. intros [He Hs]. rewrite !filter_cons.
  destruct (comp d e.2) eqn:E.
  - assert (filter (fun e0 => comp d e0.2 = false) l = []) as Hn.
    { apply filter_none. eapply Forall_impl; [exact He|]. cbn. intros e' He' Hc. by rewrite (swo_trans d e.2 e'.2) in Hc. }
    rewrite decide_False, decide_True by done. rewrite Hn in IH |- *. cbn in *. f_equal. by apply IH.
  - rewrite decide_True, decide_False by done. cbn. f_equal. by apply IH.
Qed.

Lemma view_prev_head t l : rb_view comp t l ->
  rb_prev (t_head t) t = Done (match last l with Some e => e.1 | None => t_head t end, t).
Proof.
  destruct t as [h hd mu sz]. intros (u & [HZ _] & _ & <-). cbn [t_nodes t_head] in *.
  pose proof (Zhead _ _ _ _ _ _ HZ) as Hh. change (mkTree h hd mu sz) with (st h hd mu sz).
  unfold rb_prev, node_prev. erewrite rd_bind by exact Hh. cbn [_isnil hnode]. erewrite rd_run by exact Hh. done.
Qed.

Lemma view_lmst t l : rb_view comp t l -> rb_lmst t = Done (first_or (t_head t) l, t).
Proof.
  destruct t as [h hd mu sz]. intros (u & [HZ _] & _ & <-). cbn [t_nodes t_head] in *.
  pose proof (Zhead _ _ _ _ _ _ HZ) as Hh. change (mkTree h hd mu sz) with (st h hd mu sz).
  unfold rb_lmst, impl_lmst. rewrite head_bind. erewrite rd_run by exact Hh. done.
Qed.

(** The view does not see a node outside the tree. *)
Lemma view_frame t h' l : rb_view comp t l -> (forall q, q ∈ t_head t :: l.*1 -> h' !! q = t_nodes t !! q) ->
  rb_view comp (mkTree h' (t_head t) (t_multi t) (t_size t)) l.
Proof.
  intros (u & [HZ Hsz] & Hw & <-) Hq. exists u. split; [|done]. split; [|done]. cbn.
  eapply Zrep_frame; [exact HZ|]. intros q. unfold own. cbn [plug]. intros Hin. apply Hq. by rewrite fst_elems.
Qed.

Lemma view_data t l e : rb_view comp t l -> e ∈ l -> exists n, t_nodes t !! e.1 = Some n /\ data n = Some e.2.
Proof. intros HV. apply (shape_data comp). by eapply view_shape. Qed.

Lemma view_dom t l q : rb_view comp t l -> q ∈ l.*1 -> q ∈ dom (t_nodes t).
Proof.
  intros HV Hq. apply list_elem_of_fmap in Hq as (e & -> & He). destruct (view_data _ _ _ HV He) as (n & Hn & _).
  apply elem_of_dom. eauto.
Qed.

Lemma view_head_dom t l : rb_view comp t l -> t_head t ∈ dom (t_nodes t).
Proof. intros (u & [HZ _] & _ & _). pose proof (Zhead _ _ _ _ _ _ HZ). apply elem_of_dom. eauto. Qed.

(** A search with a local comparison node leaves the tree as it was. *)
Lemma with_cmp_view t l (d : D) (F : Z -> M (rb_tree D) Z) r : rb_view comp t l -> cmp_node ∉ dom (t_nodes t) ->
  (forall t1 n, rb_view comp t1 l -> t_head t1 = t_head t -> t_nodes t1 !! cmp_node = Some n -> data n = Some d ->
     F cmp_node t1 = Done (r, t1)) ->
  with_cmp_node d F t = Done (r, t).
Proof.
  intros HV Hc HF. destruct t as [h hd mu sz]. cbn [t_nodes t_head] in *.
  unfold with_cmp_node, new_node, drop_node, map_nodes. rewrite !bind_modify. cbn [t_nodes t_head t_multi t_size].
  set (h1 := <[cmp_node := _]> h).
  assert (rb_view comp (mkTree h1 hd mu sz) l) as HV1.
  { apply (view_frame (mkTree h hd mu sz)); [done|]. intros q Hq. apply lookup_insert_ne. intros <-. apply Hc.
    apply elem_of_cons in Hq as [->|Hq]; [by apply (view_head_dom _ _ HV)|by apply (view_dom _ _ _ HV)]. }
  rewrite (bind_done _ _ _ _ _ (HF _ _ HV1 eq_refl (lookup_insert_eq _ _ _) eq_refl)). rewrite bind_modify. cbn.
  unfold h1. rewrite delete_insert_eq, delete_id by (by apply not_elem_of_dom). done.
Qed.
End Tree.

(** ** Objects *)

Section Objects.
Context {A B : Type} `{!PageAlloc A} `{!BlockAlloc B}.
Implicit Types (s : mst A B) (l : list (Z * MmapNode_t)).

Definition set_obj s (o : Z) (x : Mmap_t) : mst A B :=
  mkMst (vm s) (blocks s) (ref s) (ref_lock s) (<[o := x]> (objs s)) (junk s) (drawn s).

Lemma on_obj_run {R} o (f : M (rb_tree MmapNode_t) R) s x r t : objs s !! o = Some x -> f (tree x) = Done (r, t) ->
  on_obj o f s = Done (r, set_obj s o (mkMmap t (high_level x))).
Proof.
  intros Ho E. unfold on_obj, get_obj. rewrite bind_assoc, bind_gets, Ho, bind_ret. unfold bind. by rewrite E.
Qed.

Lemma set_obj_same s o x : objs s !! o = Some x -> set_obj s o (mkMmap (tree x) (high_level x)) = s.
Proof. destruct s as [? ? ? ? om ? ?], x. unfold set_obj. cbn. intros H. by rewrite insert_id. Qed.

Lemma on_obj_read {R} o (f : M (rb_tree MmapNode_t) R) s x r : objs s !! o = Some x -> f (tree x) = Done (r, tree x) ->
  on_obj o f s = Done (r, s).
Proof. intros Ho E. by rewrite (on_obj_run _ _ _ _ _ _ Ho E), set_obj_same. Qed.

(** The object at [o] holds the regions [l], in order of address. *)
Record obj_ok s (o : Z) (x : Mmap_t) l : Prop := {
  oo_obj : objs s !! o = Some x;
  oo_view : rb_view compf (tree x) l;
  oo_multi : t_multi (tree x) = false;
  oo_live : forall p, p ∈ dom (t_nodes (tree x)) -> 0 < p /\ p ∈ live (blocks s)
}.

Lemma obj_cmp s o x l : obj_ok s o x l -> cmp_node ∉ dom (t_nodes (tree x)).
Proof. intros H Hin. apply (oo_live _ _ _ _ H) in Hin. unfold cmp_node in Hin. lia. Qed.

Lemma sub_filter a l : upto compf (key_node a) l = filter (fun e => addr e.2 <= a) l.
Proof. apply list_filter_iff. intros e. unfold compf. cbn. lia. Qed.

(** [mmap_find] returns the last region that starts at or below the
    address, and NULL when there is none; it changes nothing. *)
Lemma mmap_find_last s o x l a : obj_ok s o x l ->
  mmap_find o a s = Done (snd <$> last (filter (fun e => addr e.2 <= a) l), s).
Proof.
  intros Hok. pose proof (oo_view _ _ _ _ Hok) as HV. pose proof (view_listed _ _ _ HV) as [Hnd Hs].
  unfold mmap_find. eapply on_obj_read; [by eapply oo_obj|]. rewrite <- sub_filter.
  set (t := tree x) in *. set (v := key_node a).
  erewrite bind_done.
  2:{ eapply (with_cmp_view compf t l v _ (first_or (t_head t) (beyond compf v l))); [done|by eapply obj_cmp|].
      intros t1 n HV1 <- Hn Hd. by destruct (rb_bounds_refine compf t1 l cmp_node n v HV1 Hn Hd). }
  rewrite (bind_done _ _ _ _ _ (view_lmst _ _ _ HV)). pose proof (sorted_split compf l v Hs) as El.
  remember (upto compf v l) as u eqn:Eu. remember (beyond compf v l) as b eqn:Eb. clear Eu Eb.
  assert (forall e, e ∈ u -> get_data e.1 t = Done (e.2, t)) as Hget.
  { intros e He. destruct (view_data compf t l e HV) as (n & Hn & Hd); [rewrite El; set_solver|].
    unfold get_data, bind, rd. by rewrite Hn, Hd. }
  destruct u as [|e0 u] using rev_ind; [cbn in El; rewrite <- El, Z.eqb_refl; done|]. clear IHu.
  rewrite last_snoc. cbn [fmap option_fmap option_map].
  assert ((first_or (t_head t) b =? first_or (t_head t) l) = false) as ->.
  { apply Z.eqb_neq. intros E. rewrite El, fmap_app in Hnd. rewrite El in E.
    assert (first_or (t_head t) ((u ++ [e0]) ++ b) ∈ (u ++ [e0]).*1) as Hin by (destruct u; cbn; left).
    rewrite <- E in Hin. apply list.NoDup_cons in Hnd as [Hh Hnd]. apply list.NoDup_app in Hnd as (_ & Hdis & _).
    destruct b as [|e1 b]; cbn [first_or] in Hin; [apply Hh; by apply elem_of_app; left|].
    apply (Hdis _ Hin). by left. }
  assert (rb_prev (first_or (t_head t) b) t = Done (e0.1, t)) as Ep.
  { destruct b as [|e1 b].
    - cbn [first_or]. rewrite (view_prev_head _ _ _ HV). rewrite El, app_nil_r, last_snoc. done.
    - rewrite El in HV. destruct (rb_iteration_refines compf t _ e1 b HV) as (_ & Hp & _). rewrite last_snoc in Hp. exact Hp. }
  rewrite (bind_done _ _ _ _ _ Ep), (bind_done _ _ _ _ _ (Hget e0 ltac:(set_solver))). done.
Qed.
End Objects.

(** ** Adding regions: mmap *)

Section Regions.
Context {A B : Type} `{!PageAlloc A} `{!BlockAlloc B}.
Implicit Types (s : mst A B) (l : list (Z * MmapNode_t)).

(** The parts of the state that an operation on the object [o] leaves alone. *)
Record only_obj (o : Z) s s' : Prop := {
  ob_vm : vm s' = vm s;
  ob_ref : ref s' = ref s;
  ob_lock : ref_lock s' = ref_lock s;
  ob_others : forall o', o' <> o -> objs s' !! o' = objs s !! o';
  ob_live : live (blocks s) ⊆ live (blocks s')
}.

Lemma only_obj_ref o s s' : only_obj o s s' -> ref_ok s -> ref_ok s'.
Proof.
  intros [_ Hr _ _ Hl] [H1 H2 H3 H4]. split; rewrite ?Hr; try done.
  intros p Hp. destruct (H4 p Hp) as [?|[? ?]]; [by left|right]. split; [done|set_solver].
Qed.

Lemma only_obj_ok o s s' o' x l : only_obj o s s' -> o' <> o -> obj_ok s o' x l -> obj_ok s' o' x l.
Proof.
  intros [_ _ _ Ho Hl] Hne [H1 H2 H3 H4]. split; try done; [by rewrite Ho|].
  intros p Hp. destruct (H4 p Hp). split; [done|set_solver].
Qed.

Lemma mmap_alloc_spec o a z p f s x l : obj_ok s o x l -> more 2 (blocks s) ->
  exists node d n s' x', mmap_alloc o a z p f s = Done (node, s') /\ obj_ok s' o x' l /\ only_obj o s s' /\
    (forall k, more (k + 2) (blocks s) -> more k (blocks s')) /\
    high_level x' = high_level x /\ t_head (tree x') = t_head (tree x) /\ node ∉ t_head (tree x') :: l.*1 /\
    t_nodes (tree x') !! node = Some n /\ data n = Some (mkRegion d a z p f) /\
    dom (t_nodes (tree x')) = {[ node ]} ∪ dom (t_nodes (tree x)).
Proof.
  intros [Ho HV Hmu Hlv] Hmore. unfold mmap_alloc. unfold malloc_block at 1. unfold bind at 1.
  cbn [more] in Hmore. destruct (blk_malloc (blocks s)) as [[d b1]|] eqn:E1; [|done].
  unfold malloc_block. unfold bind at 1. cbn [blocks].
  destruct (blk_malloc b1) as [[q b2]|] eqn:E2; [|done].
  apply blk_malloc_law in E1 as HL1. destruct HL1 as (Hd0 & Hdl & Hl1).
  apply blk_malloc_law in E2 as HL2. destruct HL2 as (Hq0 & Hql & Hl2).
  rewrite (proj2 (Z.eqb_neq d 0)), (proj2 (Z.eqb_neq q 0)) by lia. cbn [orb].
  set (n := mkNode 0 0 0 RED false (Some (mkRegion d a z p f))). set (t := tree x) in *.
  set (t' := mkTree (<[q := n]> (t_nodes t)) (t_head t) (t_multi t) (t_size t)).
  assert (new_node q (mkRegion d a z p f) t = Done (tt, t')) as En by done.
  set (s1 := mkMst (vm s) b2 (ref s) (ref_lock s) (objs s) (junk s) (drawn s)).
  rewrite (bind_done _ _ _ _ _ (on_obj_run o _ s1 x _ _ Ho En)).
  assert (q ∉ dom (t_nodes t)) as Hqd by (intros Hin; apply Hlv in Hin as [_ Hin]; set_solver).
  assert (forall y, y ∈ t_head t :: l.*1 -> y <> q) as Hqn.
  { intros y Hy ->. apply Hqd. apply elem_of_cons in Hy as [->|Hy]; [by apply (view_head_dom compf _ _ HV)|by apply (view_dom compf _ _ _ HV)]. }
  exists q, d, n. eexists _, (mkMmap t' (high_level x)). split; [reflexivity|]. split; [|split; [|split]].
  - split; cbn; [by rewrite lookup_insert_eq| |done|].
    + apply (view_frame compf t); [done|]. intros y Hy. apply lookup_insert_ne. by intros <-; eapply Hqn.
    + intros y. rewrite dom_insert_L. intros [->%elem_of_singleton|Hy]%elem_of_union; rewrite Hl2; [split; [done|set_solver]|].
      destruct (Hlv y Hy). split; [done|]. rewrite Hl1. set_solver.
  - split; cbn; try done; [intros o' Hne; by rewrite lookup_insert_ne|]. rewrite Hl2, Hl1. set_solver.
  - intros k Hk. replace (k + 2)%nat with (S (S k)) in Hk by lia. cbn [more] in Hk. rewrite E1, E2 in Hk. cbn. tauto.
  - cbn [tree high_level t_head t_nodes t']. split_and!; try done.
    + intros Hin. by apply (Hqn _ Hin).
    + by rewrite lookup_insert_eq.
    + by rewrite dom_insert_L.
Qed.

(** The region list with one more. *)
Definition add_region (node : Z) (d : MmapNode_t) l : list (Z * MmapNode_t) :=
  filter (fun e => addr e.2 <= addr d) l ++ (node, d) :: filter (fun e => addr d < addr e.2) l.

Definition listed_at (a : Z) l : option (Z * MmapNode_t) := List.find (fun e => addr e.2 =? a) l.

Lemma listed_find l d : List.find (fun e => equiv_key compf e.2 d) l = listed_at (addr d) l.
Proof.
  unfold listed_at. induction l as [|e l IH]; [done|]. cbn [List.find]. rewrite IH.
  assert (equiv_key compf e.2 d = (addr e.2 =? addr d)) as -> by (unfold equiv_key, compf; lia). done.
Qed.

Lemma place_add node d l : place compf node d l = add_region node d l.
Proof.
  unfold place, add_region, upto, beyond. f_equal; [|f_equal]; apply list_filter_iff; intros e; unfold compf; lia.
Qed.

(** Inserting a region's node into its object. *)
Lemma insert_region o s x l node n d : obj_ok s o x l -> node ∉ t_head (tree x) :: l.*1 ->
  t_nodes (tree x) !! node = Some n -> data n = Some d ->
  exists s' x', on_obj o (rb_insert compf node) s =
      Done (match listed_at (addr d) l with Some e => (e.1, 0) | None => (node, 1) end, s') /\
    obj_ok s' o x' (match listed_at (addr d) l with Some _ => l | None => add_region node d l end) /\ only_obj o s s' /\
    blocks s' = blocks s /\ high_level x' = high_level x /\ t_head (tree x') = t_head (tree x) /\
    s' = set_obj s o x'.
Proof.
  intros [Ho HV Hmu Hlv] Hnode Hn Hd.
  assert (exists t, rb_insert compf node (tree x) =
      Done (match listed_at (addr d) l with Some e => (e.1, 0) | None => (node, 1) end, t) /\
    rb_view compf t (match listed_at (addr d) l with Some _ => l | None => place compf node d l end) /\
    t_head t = t_head (tree x) /\ t_multi t = false /\ same (t_nodes (tree x)) (t_nodes t) (node :: t_head (tree x) :: l.*1))
    as (t & E & HV' & Hh & Hmu' & [Hdom _]).
  { rewrite <- listed_find. destruct (List.find _ l) as [e|] eqn:Hf;
      [by apply (rb_insert_found compf _ l node n d e)|by apply (rb_insert_placed compf _ l node n d)]. }
  exists (set_obj s o (mkMmap t (high_level x))), (mkMmap t (high_level x)).
  split; [exact (on_obj_run o _ s x _ _ Ho E)|]. split; [|split_and!; try done].
  - split; cbn; [by rewrite lookup_insert_eq| |done|by rewrite Hdom]. rewrite <- place_add. exact HV'.
  - split; cbn; try done. intros o' Hne. by rewrite lookup_insert_ne.
Qed.

Lemma only_obj_trans o s1 s2 s3 : only_obj o s1 s2 -> only_obj o s2 s3 -> only_obj o s1 s3.
Proof.
  intros [V1 R1 L1 O1 I1] [V2 R2 L2 O2 I2]. split; try congruence; [|set_solver].
  intros o' Hne. by rewrite O2, O1.
Qed.

(** The address and the flags a request is given. *)
Definition is_rand (a f : Z) : bool :=
  (PGROUNDDOWN a =? 0) && (Z.land f MAP_ZERO =? 0) && negb (Z.land f MAP_ANONYMOUS =? 0).
Definition region_addr (x : Mmap_t) (a f : Z) : Z :=
  if is_rand a f then u64 (VA_ANYNOMOUS + high_level x) else PGROUNDDOWN a.
Definition region_flag (f : Z) : Z := if Z.land f MAP_SHARED =? 0 then Z.lor f MAP_PRIVATE else f.

Lemma is_rand_flag a f :
  (PGROUNDDOWN a =? 0) && (Z.land (region_flag f) MAP_ZERO =? 0) && negb (Z.land (region_flag f) MAP_ANONYMOUS =? 0) = is_rand a f.
Proof.
  unfold is_rand, region_flag. destruct (Z.land f MAP_SHARED =? 0); [|done].
  rewrite !Z.land_lor_distr_l. change (Z.land MAP_PRIVATE MAP_ZERO) with 0. change (Z.land MAP_PRIVATE MAP_ANONYMOUS) with 0.
  by rewrite !Z.lor_0_r.
Qed.

(** Adding a region, for the theorems below. *)
Lemma mmap_region_spec s o x l pt a z p f : obj_ok s o x l -> more 2 (blocks s) ->
  (Z.land f MAP_PRIVATE =? 0) || (Z.land f MAP_SHARED =? 0) = true ->
  let a' := region_addr x a f in
  match listed_at a' l with
  | Some _ => mmap_by_obj o pt a z p f false s = Panic "mmap failed"
  | None => exists node d s' x', mmap_by_obj o pt a z p f false s = Done (a', s') /\
      obj_ok s' o x' (add_region node (mkRegion d a' (PGROUNDUP z) p (region_flag f)) l) /\ only_obj o s s' /\
      (forall k, more (k + 2) (blocks s) -> more k (blocks s')) /\
      high_level x' = if is_rand a f then u64 (high_level x + PGROUNDUP z) else high_level x
  end.
Proof.
  intros Hok Hmore Hf a'. set (z' := PGROUNDUP z).
  destruct (mmap_alloc_spec o a' z' p (region_flag f) s x l Hok Hmore)
    as (node & d & n & s1 & x1 & E1 & Hok1 & HO1 & Hm1 & Hh1 & Hhd1 & Hnode & Hn & Hd & _).
  destruct (insert_region o s1 x1 l node n _ Hok1 Hnode Hn Hd) as (s2 & x2 & E2 & Hok2 & HO2 & Hb2 & Hh2 & Hhd2 & ->).
  cbn [addr] in E2, Hok2.
  assert (mmap_by_obj o pt a z p f false s =
    bind (mmap_alloc o a' z' p (region_flag f)) (fun node =>
      '(r, out) <- on_obj o (rb_insert compf node);;
      head <- on_obj o rb_head;;
      (if negb (out =? 0) && negb (r =? head) then
         when (is_rand a f) (x <- get_obj o;; put_obj o (mkMmap (tree x) (u64 (high_level x + z'))))
       else panic "mmap failed");;;
      ret a') s) as ->.
  { unfold mmap_by_obj. fold (region_flag f). assert (negb (Z.land f MAP_PRIVATE =? 0) && negb (Z.land f MAP_SHARED =? 0) = false) as ->
      by (by destruct (Z.land f MAP_PRIVATE =? 0), (Z.land f MAP_SHARED =? 0)).
    rewrite is_rand_flag. unfold get_obj at 1. rewrite bind_assoc, bind_gets, (oo_obj _ _ _ _ Hok), bind_ret. fold a'.
    change (if is_rand a f then u64 (VA_ANYNOMOUS + high_level x) else PGROUNDDOWN a) with a'. done. }
  rewrite (bind_done _ _ _ _ _ E1), (bind_done _ _ _ _ _ E2).
  pose proof (oo_obj _ _ _ _ Hok2) as Ho2.
  destruct (listed_at a' l) as [e|] eqn:El.
  { rewrite (bind_done _ _ _ _ _ (on_obj_read o rb_head _ x2 _ Ho2 eq_refl)). done. }
  rewrite (bind_done _ _ _ _ _ (on_obj_read o rb_head _ x2 _ Ho2 eq_refl)).
  rewrite (proj2 (Z.eqb_neq node (t_head (tree x2)))).
  2:{ intros Hx. apply Hnode. rewrite Hx, Hhd2. left. }
  cbn [negb andb Z.eqb]. exists node, d. destruct (is_rand a f); cbn [when].
  - unfold get_obj, put_obj, set_objs. rewrite bind_assoc, bind_assoc, bind_gets, Ho2, bind_ret, bind_assoc, bind_gets, bind_modify.
    eexists _, (mkMmap (tree x2) _). split; [reflexivity|]. cbn. split; [|split; [|split]].
    + destruct Hok2 as [_ HV2 Hmu2 Hlv2]. split; cbn; [by rewrite lookup_insert_eq|done|done|done].
    + eapply only_obj_trans; [exact HO1|]. eapply only_obj_trans; [exact HO2|]. split; cbn; try done.
      intros o' Hne. by rewrite !lookup_insert_ne.
    + done.
    + by rewrite Hh2, Hh1.
  - rewrite bind_ret. eexists _, x2. split; [reflexivity|]. split; [exact Hok2|]. split; [by eapply only_obj_trans|].
    split; [done|]. by rewrite Hh2, Hh1.
Qed.

(** [mmap] without physical memory adds one region: page-aligned, of
    the rounded size, private unless shared is asked for, at the address asked
    for or, for an anonymous request without one, at the end of the area of
    such mappings, which grows by the size.  A region that starts at the same
    address makes the kernel panic.  Nothing else changes. *)
Theorem mmap_adds_region s o x l pt a z p f : obj_ok s o x l -> more 2 (blocks s) ->
  (Z.land f MAP_PRIVATE =? 0) || (Z.land f MAP_SHARED =? 0) = true ->
  let a' := region_addr x a f in
  match listed_at a' l with
  | Some _ => mmap_by_obj o pt a z p f false s = Panic "mmap failed"
  | None => exists node d s' x', mmap_by_obj o pt a z p f false s = Done (a', s') /\
      obj_ok s' o x' (add_region node (mkRegion d a' (PGROUNDUP z) p (region_flag f)) l) /\ only_obj o s s' /\
      (forall k, more (k + 2) (blocks s) -> more k (blocks s')) /\
      high_level x' = if is_rand a f then u64 (high_level x + PGROUNDUP z) else high_level x
  end.
Proof. apply mmap_region_spec. Qed.

(** *** Mappings at addresses of the kernel's choice *)

Definition flags_ok (f : Z) : bool := (Z.land f MAP_PRIVATE =? 0) || (Z.land f MAP_SHARED =? 0).

Lemma add_region_last node d l : (forall e, e ∈ l -> addr e.2 < addr d) -> add_region node d l = l ++ [(node, d)].
Proof.
  intros H. unfold add_region. rewrite (filter_all (fun e => addr e.2 <= addr d)), (filter_none (fun e => addr d < addr e.2)); [done|..];
    apply Forall_forall; intros e He; specialize (H e He); lia.
Qed.

Lemma listed_none a l : (forall e, e ∈ l -> addr e.2 <> a) -> listed_at a l = None.
Proof.
  intros H. unfold listed_at. destruct (List.find _ l) as [e|] eqn:E; [|done].
  apply List.find_some in E as [Hin E]. apply list_elem_of_In in Hin. apply Z.eqb_eq in E. by apply H in Hin.
Qed.

Lemma listed_some a l e : e ∈ l -> addr e.2 = a -> exists e', listed_at a l = Some e'.
Proof.
  intros Hin E. unfold listed_at. destruct (List.find _ l) as [e'|] eqn:Ef; [by exists e'|].
  apply list_elem_of_In in Hin. eapply List.find_none in Ef; [|exact Hin]. cbn in Ef. lia.
Qed.

(** Successive requests of a task. *)
Record request := mkReq { q_addr : Z; q_sz : Z; q_perm : Z; q_flag : Z }.
Fixpoint mmaps (o pt : Z) (rs : list request) : M (mst A B) (list Z) :=
  match rs with
  | [] => ret []
  | r :: rs =>
    a <- mmap_by_obj o pt (q_addr r) (q_sz r) (q_perm r) (q_flag r) false;;
    addrs <- mmaps o pt rs;; ret (a :: addrs)
  end.

(** The kernel places a request. *)
Definition by_kernel (r : request) : bool := is_rand (q_addr r) (q_flag r).
(** Where the requests go when the kernel's area is used up to [h]. *)
Fixpoint placed (h : Z) (rs : list request) : list Z :=
  match rs with
  | [] => []
  | r :: rs => if by_kernel r then u64 (VA_ANYNOMOUS + h) :: placed (u64 (h + PGROUNDUP (q_sz r))) rs
               else PGROUNDDOWN (q_addr r) :: placed h rs
  end.
(** The sizes of those that the kernel places. *)
Fixpoint kernel_size (rs : list request) : Z :=
  match rs with [] => 0 | r :: rs => (if by_kernel r then PGROUNDUP (q_sz r) else 0) + kernel_size rs end.

(** A region without the address of its block. *)
Definition shown (d : MmapNode_t) : Z * Z * Z * Z := (addr d, sz d, perm d, flag d).
Definition asked (a : Z) (r : request) : Z * Z * Z * Z := (a, PGROUNDUP (q_sz r), q_perm r, region_flag (q_flag r)).
Definition starts l : list Z := (fun e => addr e.2) <$> l.

Lemma add_region_perm node d l : add_region node d l ≡ₚ (node, d) :: l.
Proof.
  unfold add_region. rewrite <- Permutation_middle. apply Permutation_skip. induction l as [|e l IH]; [done|].
  rewrite !filter_cons. destruct (decide (addr e.2 <= addr d)), (decide (addr d < addr e.2)); try lia; cbn.
  - by apply Permutation_skip.
  - rewrite <- Permutation_middle. by apply Permutation_skip.
Qed.

Lemma listed_starts a l : listed_at a l = None <-> a ∉ starts l.
Proof.
  unfold starts. split.
  - intros H (e & -> & He)%list_elem_of_fmap. destruct (listed_some _ _ e He eq_refl) as [e' E]. congruence.
  - intros H. apply listed_none. intros e He <-. apply H. by apply (list_elem_of_fmap_2 (fun e : Z * MmapNode_t => addr e.2)).
Qed.

Lemma PGROUNDUP_range z : 0 <= PGROUNDUP z.
Proof. unfold PGROUNDUP. apply Z.land_nonneg. left. unfold u64. apply Z.mod_pos_bound. lia. Qed.

Lemma kernel_size_nonneg rs : 0 <= kernel_size rs.
Proof. induction rs as [|r rs IH]; cbn; [lia|]. pose proof (PGROUNDUP_range (q_sz r)). destruct (by_kernel r); lia. Qed.

(** The requests that the kernel places get the addresses from [h] on. *)
Lemma placed_above : forall rs h i r a, 0 <= h -> VA_ANYNOMOUS + h + kernel_size rs < 2 ^ 64 ->
  rs !! i = Some r -> by_kernel r = true -> placed h rs !! i = Some a -> VA_ANYNOMOUS + h <= a.
Proof.
  assert (0 < VA_ANYNOMOUS) as Hva by done.
  induction rs as [|q rs IH]; intros h i r a Hh Hb Hi Hk Ha; [done|]. cbn [placed kernel_size] in *.
  pose proof (kernel_size_nonneg rs). pose proof (PGROUNDUP_range (q_sz q)).
  destruct i as [|i]; cbn in Hi.
  - injection Hi as ->. rewrite Hk in Ha. injection Ha as <-. rewrite Hk in Hb. unfold u64. rewrite Z.mod_small; lia.
  - revert Hb Ha. destruct (by_kernel q); intros Hb Ha; cbn in Ha.
    + unfold u64 in Ha. rewrite Z.mod_small in Ha by lia. pose proof (IH (h + PGROUNDUP (q_sz q)) i r a ltac:(lia) ltac:(lia) Hi Hk Ha). lia.
    + by eapply IH; [| |exact Hi| |exact Ha].
Qed.

Lemma placed_apart : forall rs h i j r1 r2 a1 a2, 0 <= h -> VA_ANYNOMOUS + h + kernel_size rs < 2 ^ 64 -> (i < j)%nat ->
  rs !! i = Some r1 -> rs !! j = Some r2 -> by_kernel r1 = true -> by_kernel r2 = true ->
  placed h rs !! i = Some a1 -> placed h rs !! j = Some a2 -> a1 + PGROUNDUP (q_sz r1) <= a2.
Proof.
  assert (0 < VA_ANYNOMOUS) as Hva by done.
  induction rs as [|q rs IH]; intros h i j r1 r2 a1 a2 Hh Hb Hij Hi Hj Hk1 Hk2 Ha1 Ha2; [done|]. cbn [placed kernel_size] in *.
  pose proof (kernel_size_nonneg rs). pose proof (PGROUNDUP_range (q_sz q)).
  destruct j as [|j]; [lia|]. cbn in Hj. destruct i as [|i]; cbn in Hi.
  - injection Hi as ->. rewrite Hk1 in Ha1, Ha2, Hb. cbn in Ha1, Ha2. injection Ha1 as <-. unfold u64 in Ha2 |- *.
    rewrite Z.mod_small in Ha2 |- * by lia. pose proof (placed_above rs (h + PGROUNDUP (q_sz r1)) j r2 a2 ltac:(lia) ltac:(lia) Hj Hk2 Ha2). lia.
  - revert Hb Ha1 Ha2. destruct (by_kernel q); intros Hb Ha1 Ha2; cbn in Ha1, Ha2.
    + unfold u64 in Ha1. unfold u64 in Ha2. rewrite Z.mod_small in Ha1, Ha2 by lia.
      eapply (IH (h + PGROUNDUP (q_sz q)) i j); [| | |exact Hi|exact Hj|done|done|exact Ha1|exact Ha2]; lia.
    + eapply (IH h i j); [| | |exact Hi|exact Hj|done|done|exact Ha1|exact Ha2]; lia.
Qed.

Lemma starts_NoDup s o x l : obj_ok s o x l -> NoDup (starts l).
Proof.
  intros Hok. destruct (view_listed _ _ _ (oo_view _ _ _ _ Hok)) as [_ Hs]. clear Hok. unfold starts.
  induction l as [|e l IH]; [constructor|]. destruct Hs as [He Hs]. cbn. apply NoDup_cons. split; [|by apply IH].
  intros (e' & E & He')%list_elem_of_fmap. rewrite Forall_forall in He. specialize (He e' He'). unfold compf in He. lia.
Qed.

Lemma placed_fst h r rs : placed h (r :: rs) =
  (if by_kernel r then u64 (VA_ANYNOMOUS + h) else PGROUNDDOWN (q_addr r)) ::
  placed (if by_kernel r then u64 (h + PGROUNDUP (q_sz r)) else h) rs.
Proof. cbn. by destruct (by_kernel r). Qed.

(** All the requests, one after the other. *)
Lemma mmaps_spec o pt : forall rs s x l, obj_ok s o x l -> more (2 * length rs) (blocks s) ->
  Forall (fun r => flags_ok (q_flag r) = true) rs ->
  if decide (NoDup (starts l ++ placed (high_level x) rs)) then
    exists s' x' l', mmaps o pt rs s = Done (placed (high_level x) rs, s') /\ obj_ok s' o x' l' /\ only_obj o s s' /\
      (shown ∘ snd <$> l') ≡ₚ zip_with asked (placed (high_level x) rs) rs ++ (shown ∘ snd <$> l)
  else mmaps o pt rs s = Panic "mmap failed".
Proof.
  induction rs as [|r rs IH]; intros s x l Hok Hmore Hf.
  - cbn [placed mmaps zip_with]. rewrite app_nil_r, decide_True by (by eapply starts_NoDup).
    exists s, x, l. split; [done|]. split; [done|]. by split.
  - apply Forall_cons in Hf as [Hf Hfs]. cbn [length] in Hmore. rewrite placed_fst. cbn [mmaps zip_with].
    pose proof (mmap_region_spec s o x l pt (q_addr r) (q_sz r) (q_perm r) (q_flag r) Hok (more_le 2 (2 * S (length rs)) _ ltac:(lia) Hmore) Hf) as H.
    cbn zeta in H. unfold region_addr in H. fold (by_kernel r) in H.
    set (a := if by_kernel r then u64 (VA_ANYNOMOUS + high_level x) else PGROUNDDOWN (q_addr r)) in *.
    destruct (listed_at a l) as [e|] eqn:El.
    { rewrite decide_False; [by apply bind_panic|]. rewrite NoDup_app. intros (_ & Hn & _).
      assert (listed_at a l <> None) as Hne by congruence. rewrite listed_starts in Hne.
      apply Hne. intros Hin. apply (Hn a Hin). by left. }
    destruct H as (node & d & s1 & x1 & E & Hok1 & HO1 & Hm1 & Hx1). rewrite (bind_done _ _ _ _ _ E).
    set (d1 := mkRegion d a (PGROUNDUP (q_sz r)) (q_perm r) (region_flag (q_flag r))) in *.
    specialize (IH s1 x1 _ Hok1 (Hm1 (2 * length rs)%nat ltac:(eapply more_le; [|exact Hmore]; lia)) Hfs). rewrite Hx1 in IH.
    assert (starts (add_region node d1 l) ++ placed (if by_kernel r then u64 (high_level x + PGROUNDUP (q_sz r)) else high_level x) rs ≡ₚ
            starts l ++ a :: placed (if by_kernel r then u64 (high_level x + PGROUNDUP (q_sz r)) else high_level x) rs) as HP.
    { rewrite <- Permutation_middle. unfold starts. rewrite (add_region_perm node d1 l). done. }
    unfold by_kernel in IH at 1 2 3 4. fold (by_kernel r) in IH.
    destruct (decide (NoDup (starts (add_region node d1 l) ++ _))) as [Hd|Hd] in IH.
    + rewrite decide_True by by rewrite <- HP. destruct IH as (s2 & x2 & l2 & E2 & Hok2 & HO2 & HP2).
      rewrite (bind_done _ _ _ _ _ E2). exists s2, x2, l2. split; [done|]. split; [done|]. split; [by eapply only_obj_trans|].
      rewrite HP2, (add_region_perm node d1 l). cbn. by rewrite <- Permutation_middle.
    + rewrite decide_False by by rewrite <- HP. by apply bind_panic.
Qed.


(** A request of size 0 makes the next anonymous one panic the kernel:
    the empty region takes the address without moving the end of the area. *)
Theorem empty_mmap_panics s o x l pt a p f : obj_ok s o x l -> more 4 (blocks s) ->
  is_rand a f = true -> flags_ok f = true -> listed_at (u64 (VA_ANYNOMOUS + high_level x)) l = None ->
  exists s', mmap_by_obj o pt a 0 p f false s = Done (u64 (VA_ANYNOMOUS + high_level x), s') /\
    forall pt2 a2 z2 p2 f2, is_rand a2 f2 = true -> flags_ok f2 = true ->
      mmap_by_obj o pt2 a2 z2 p2 f2 false s' = Panic "mmap failed".
Proof.
  intros Hok Hmore Hr Hf Hn. pose proof (mmap_region_spec s o x l pt a 0 p f Hok (more_le 2 4 _ ltac:(lia) Hmore) Hf) as H. cbn zeta in H.
  assert (region_addr x a f = u64 (VA_ANYNOMOUS + high_level x)) as Ea by (unfold region_addr; by rewrite Hr).
  rewrite Ea, Hn in H. destruct H as (node & d & s' & x' & E & Hok' & _ & Hm & Hx). exists s'. split; [exact E|].
  intros pt2 a2 z2 p2 f2 Hr2 Hf2. pose proof (mmap_region_spec s' o x' _ pt2 a2 z2 p2 f2 Hok' (Hm 2%nat Hmore) Hf2) as H2. cbn zeta in H2.
  assert (region_addr x' a2 f2 = u64 (VA_ANYNOMOUS + high_level x)) as Ea2.
  { unfold region_addr. rewrite Hr2, Hx, Hr. change (PGROUNDUP 0) with 0. rewrite Z.add_0_r. unfold u64. by rewrite Zplus_mod_idemp_r. }
  rewrite Ea2 in H2.
  destruct (listed_some (u64 (VA_ANYNOMOUS + high_level x)) (add_region node (mkRegion d (u64 (VA_ANYNOMOUS + high_level x)) (PGROUNDUP 0) p (region_flag f)) l)
    (node, mkRegion d (u64 (VA_ANYNOMOUS + high_level x)) (PGROUNDUP 0) p (region_flag f))) as (e' & Ee); [|done|].
  { unfold add_region. apply elem_of_app. right. by left. }
  rewrite Ee in H2. exact H2.
Qed.
End Regions.
