(* ===== verification/MmapFault.v ===== *)
(** * Page faults *)
From S2P Require Import Prelude RbTree RbSpec RbProofs Memory Klib Vm VmProofs Mmap MmapRef MmapRegions.

(** ** Single pages *)

Section Pages.
Context {A : Type} `{!PageAlloc A}.
Implicit Types (m : mem) (a : A) (T : dir).

(** A leaf entry. *)
Definition leaf (pa perm : Z) : Z := Z.lor (Z.lor (PA2PTE pa) (Z.lor perm PTE_U)) PTE_V.

(** An entry that is not a page of the table may be mapped. *)
Definition mappable (pa : Z) : Prop := 0 <= pa /\ pa + PGSIZE <= 2 ^ 56 /\ pa mod PGSIZE = 0.

Lemma is_page_mappable p : is_page p -> mappable p.
Proof. intros (H1 & H2 & H3). split; [lia|]. by split. Qed.

Lemma uvm_map_page m a root T va pa perm remap : vm_inv m a root T ->
  0 <= va -> va mod PGSIZE = 0 -> va + PGSIZE < 2 ^ 39 -> mappable pa -> 0 <= perm < 1024 ->
  remap = true \/ Z.land (pte_of m T va) PTE_V = 0 ->
  let run := uvm_map root va pa PGSIZE perm remap (m, a) in
  (avail a < missing (dirs va) T)%nat /\ run = Panic no_space \/
  exists m' a' T', run = Done (0, (m', a')) /\ vm_inv m' a' root T' /\
    (forall q, foreign T a q -> m' !! q = m !! q /\ foreign T' a' q) /\ spends (dirs va) T a T' a' /\
    (forall va', pte_of m' T' va' = if decide (vpn va' = va / PGSIZE) then leaf pa perm else pte_of m T va').
Proof.
  intros HI Hva Hal Hhi (Hp1 & Hp2 & Hp3) Hperm Hfree. unfold uvm_map, vm_map.
  assert (PGROUNDDOWN (u64 (va + PGSIZE - 1)) = va + Z.of_nat 0 * PGSIZE) as ->.
  { rewrite PGROUNDDOWN_eq. unfold u64, PGSIZE in *. rewrite Z.mod_small by lia. zdiv. }
  replace (u64 (va + Z.of_nat 0 * PGSIZE - va) / PGSIZE) with 0 by (by rewrite Z.add_simpl_l).
  assert (0 <= Z.lor perm PTE_U < 1024) as Hpu.
  { split; [apply Z.lor_nonneg; split; [lia|done]|].
    destruct (decide (Z.lor perm PTE_U = 0)) as [->|Hne]; [lia|]. change 1024 with (2 ^ 10).
    apply Z.log2_lt_pow2; [assert (0 <= Z.lor perm PTE_U) by (apply Z.lor_nonneg; split; [lia|done]); lia|].
    rewrite Z.log2_lor by (done || lia). apply Z.max_lub_lt; [|done].
    destruct (decide (perm = 0)) as [->|]; [done|]. apply Z.log2_lt_pow2; lia. }
  assert (remap = false -> ~ taken m T va 1) as Hnt.
  { intros -> (va' & Hr & Hv). destruct Hfree as [?|Hfree]; [done|].
    rewrite (pte_of_vpn m T va' va) in Hv; [done|]. rewrite (vpn_page va Hva Hal) by (unfold PGSIZE in *; lia). lia. }
  destruct (vm_map_loop_spec root (Z.lor perm PTE_U) remap 0 (S (Z.to_nat 0)) m a T va pa HI) as
    [[HA HE]|[(HR & HT & HE)|(m' & a' & T' & HR & HE & HI' & Hmem & HS & Hm)]]; try done; try (unfold PGSIZE in *; lia);
    cbn [range_dirs] in *; rewrite ?(right_id_L ∅ (∪)) in *.
  - left. by split.
  - by destruct (Hnt HR).
  - right. exists m', a', T'. split_and!; try done. intros va'. rewrite Hm.
    destruct (decide (vpn va' = va / PGSIZE)) as [E|E].
    + rewrite decide_True by lia. by rewrite E, Z.sub_diag, Z.add_0_r.
    + by rewrite decide_False by lia.
Qed.

(** A page from the allocator is no page of the table. *)
Lemma malloc_page_spec m a root T : vm_inv m a root T ->
  avail a = 0%nat /\ malloc_page (m, a) = Panic no_space \/
  exists p m1 a1, malloc_page (m, a) = Done (p, (m1, a1)) /\ vm_inv m1 a1 root T /\
    (forall va, pte_of m1 T va = pte_of m T va) /\ (forall q, foreign T a q -> m1 !! q = m !! q /\ foreign T a1 q) /\
    p <> 0 /\ is_page p /\ owned m1 p PGSIZE /\ owns a p /\ (forall q, page_of p q -> foreign T a1 q) /\ avail a = S (avail a1).
Proof.
  intros (Hw & Ha & Hno). unfold malloc_page. cbn [fst snd]. destruct (mem_malloc m a) as [[[p m1] a1]|] eqn:E.
  2:{ left. by apply (malloc_none m a Ha) in E. }
  destruct (malloc_law m a p m1 a1 Ha E) as (Ha1 & Hout & Hpg & Hpo & Hown & Ho & Hav). right. exists p, m1, a1. split; [done|].
  assert (forall q d, T !! q = Some d -> forall x, page_of d x -> m1 !! x = m !! x) as Hsame.
  { intros q d Hq x Hx. apply Hout. intros r Hr Hrx. eapply page_disjoint; [| | |exact Hx|exact Hrx].
    - by eapply (pt_page _ _ _ Hw).
    - exact (owns_page _ _ _ Ha Hr).
    - intros ->. by eapply Hno. }
  destruct (pt_wf_same _ _ _ _ Hw Hsame) as [Hw1 Hpte].
  assert (forall r, owns a1 r -> owns a r) as Hsub by (intros r Hr; apply Ho in Hr; tauto).
  assert (forall q b, T !! q = Some b -> ~ owns a1 b) as Hno1 by (intros q b Hq Hb; apply Hsub in Hb; by eapply Hno).
  split; [by split|]. split; [done|]. split.
  - intros q [H1 H2]. split; [by apply Hout|]. split; [|done]. intros r Hr. by apply H1, Hsub.
  - split; [destruct Hpg; lia|]. split_and!; try done. intros q Hq. split.
    + intros r Hr. apply Ho in Hr as [Hr Hne]. eapply page_disjoint; [exact Hpg|exact (owns_page _ _ _ Ha Hr)| |exact Hq]. congruence.
    + intros x b Hx. eapply page_disjoint; [exact Hpg|by eapply (pt_page _ _ _ Hw)| |exact Hq].
      intros <-. by eapply Hno.
Qed.

(** Reading the entry of a page through [walk]. *)
Definition entry_addr T va : Z := match T !! vpath va with Some b => b + 8 * PX 0 va | None => 0 end.

Lemma walk_entry m a root T va : pt_wf m root T -> walk root va false (m, a) = Done (entry_addr T va, (m, a)).
Proof. intros Hw. by rewrite (walk_noalloc m a root T va Hw). Qed.

Lemma entry_load m a root T va : pt_wf m root T ->
  entry_addr T va = 0 /\ pte_of m T va = 0 \/
  entry_addr T va <> 0 /\ load64 (entry_addr T va) (m, a) = Done (pte_of m T va, (m, a)).
Proof.
  intros Hw. unfold entry_addr, pte_of. destruct (T !! vpath va) as [b|] eqn:Hb; [right|by left].
  destruct (pt_page _ _ _ Hw _ _ Hb) as [[H0 _] Ho]. pose proof (PX_range 0 va ltac:(lia)) as Hx.
  destruct (word_owned _ _ _ Hx Ho) as [e He]. unfold px in Hx. split; [lia|].
  rewrite <- (bind_ret tt (fun _ => load64 (b + 8 * PX 0 va)) (m, a)).
  unfold load64, on_mem, ld64, ld, ret, bind. cbn [fst snd]. unfold word in He |- *. by rewrite He.
Qed.

(** The test that the fault handler, fork and unmapping begin with: the entry
    address and the entry, 0 if there is none. *)
Lemma entry_bind {B} m a root T va (K : Z -> Z -> M (vst (A := A)) B) : pt_wf m root T ->
  (forall e, K 0 e (m, a) = K 0 0 (m, a)) ->
  (pte <- walk root va false;; e <- (if pte =? 0 then ret 0 else load64 pte);; K pte e) (m, a) =
    K (entry_addr T va) (pte_of m T va) (m, a).
Proof.
  intros Hw HK. rewrite (bind_done _ _ _ _ _ (walk_entry m a root T va Hw)).
  destruct (entry_load m a root T va Hw) as [[-> ->]|[Hne E]]; [by rewrite Z.eqb_refl, bind_ret|].
  rewrite (proj2 (Z.eqb_neq _ _) Hne). by rewrite (bind_done _ _ _ _ _ E).
Qed.
End Pages.

Section Fault.
Context {A B : Type} `{!PageAlloc A} `{!BlockAlloc B}.
Implicit Types (s : mst A B) (l : list (Z * MmapNode_t)) (m : mem) (a : A) (T : dir).

(** The same for the whole state. *)
Lemma entry_bind_m {R} s m a root T va (K : Z -> Z -> M (mst A B) R) : vm s = (m, a) -> pt_wf m root T ->
  (pte <- on_vm (walk root va false);; e <- (if pte =? 0 then ret 0 else on_vm (load64 pte));; K pte e) s =
    K (entry_addr T va) (pte_of m T va) s.
Proof.
  intros Hv Hw. assert (set_vm s (m, a) = s) as Es by (destruct s; cbn in *; by subst).
  rewrite (bind_done _ _ _ _ _ (on_vm_run _ s _ _ (eq_trans (f_equal _ Hv) (walk_entry m a root T va Hw)))), Es.
  destruct (entry_load m a root T va Hw) as [[-> ->]|[Hne E]]; [by rewrite Z.eqb_refl, bind_ret|].
  rewrite (proj2 (Z.eqb_neq _ _) Hne).
  by rewrite (bind_done _ _ _ _ _ (on_vm_run _ s _ _ (eq_trans (f_equal _ Hv) E))), Es.
Qed.

(** The region a fault at the page [va] is for. *)
Definition region_of l (va : Z) : option MmapNode_t :=
  match last (filter (fun e => addr e.2 <= va) l) with
  | Some (_, d) => if va <? u64 (addr d + sz d) then Some d else None
  | None => None
  end.

Definition access_perm (scause : Z) : Z :=
  if scause =? 12 then PERM_X else if scause =? 13 then PERM_R else if scause =? 15 then PERM_W else 0.

(** A write to a page mapped without [PTE_W]. *)
Definition cow_fault (e scause : Z) : bool :=
  (Z.land (PTE_FLAGS e) PTE_W =? 0) && (access_perm scause =? PERM_W).

(** A fresh page [p] of the allocator is mapped at [va] for the region [d]. *)
Definition lazily_mapped s m a root T (d : MmapNode_t) (va : Z) (out : result (unit * mst A B)) : Prop :=
  exists p m' a' T' s', out = Done (tt, s') /\ vm s' = (m', a') /\ vm_inv m' a' root T' /\
    is_page p /\ owns a p /\ (forall q, page_of p q -> foreign T' a' q) /\
    (forall va', pte_of m' T' va' = if decide (vpn va' = va / PGSIZE) then leaf p (perm d) else pte_of m T va') /\
    (forall q, foreign T a q -> m' !! q = m !! q) /\
    ref_ok s' /\ objs s' = objs s /\ ref_lock s' = ref_lock s.

Lemma last_filter_le l va x d : last (filter (fun e => addr e.2 <= va) l) = Some (x, d) -> addr d <= va /\ (x, d) ∈ l.
Proof.
  intros H. assert ((x, d) ∈ filter (fun e => addr e.2 <= va) l) as Hin.
  { apply last_Some in H as (l' & ->). apply elem_of_app. right. by left. }
  apply list_elem_of_filter in Hin as [? ?]. by split.
Qed.

Lemma s32_small z : 0 <= z < 2 ^ 31 -> s32 z = z.
Proof. intros H. unfold s32. rewrite Z.mod_small; lia. Qed.

(** Mapping a fresh page, as the handler does for an anonymous region. *)
Lemma anonymous_fault s m a root T d va : vm s = (m, a) -> vm_inv m a root T -> ref_ok s -> more 2 (blocks s) ->
  0 <= va -> va mod PGSIZE = 0 -> va + PGSIZE < 2 ^ 39 -> 0 <= perm d < 1024 -> Z.land (pte_of m T va) PTE_V = 0 ->
  let f := pa <- on_vm malloc_page;;
           if pa =? 0 then panic "page fault can't allocate physical memory"
           else
             r <- on_vm (uvm_map root va pa PGSIZE (s32 (perm d)) false);;
             if r <? 0 then panic "page fault can't map physical memory"
             else ref_cnt_inc pa;;; ret tt in
  if decide (S (missing (dirs va) T) <= avail a)%nat then lazily_mapped s m a root T d va (f s) else f s = Panic no_space.
Proof.
  intros Hv HI Hok Hmore Hva Hal Hhi Hperm Hpte f.
  assert (f s = bind (on_vm malloc_page) (fun pa => if pa =? 0 then panic "page fault can't allocate physical memory"
     else r <- on_vm (uvm_map root va pa PGSIZE (s32 (perm d)) false);;
       if r <? 0 then panic "page fault can't map physical memory" else ref_cnt_inc pa;;; ret tt) s) as Ef by done.
  destruct (malloc_page_spec m a root T HI) as [[HA E1]|(p & m1 & a1 & E1 & HI1 & Hpte1 & Hmem1 & Hp0 & Hpg & Hpo & Hown & Hfor & Hav)].
  { rewrite decide_False by lia. rewrite Ef. apply bind_panic, on_vm_panic. by rewrite Hv. }
  rewrite (bind_done _ _ _ _ _ (on_vm_run _ s _ _ (eq_trans (f_equal _ Hv) E1))) in Ef.
  rewrite (proj2 (Z.eqb_neq p 0) Hp0), s32_small in Ef by lia.
  destruct (uvm_map_page m1 a1 root T va p (perm d) false HI1 Hva Hal Hhi (is_page_mappable _ Hpg) Hperm) as
    [[HA E2]|(m2 & a2 & T2 & E2 & HI2 & Hmem2 & [HD HS] & Hr)]; [right; by rewrite Hpte1| |].
  { rewrite decide_False by lia. rewrite Ef. apply bind_panic, on_vm_panic. exact E2. }
  rewrite (bind_done _ _ _ _ _ (on_vm_run _ (set_vm s (m1, a1)) _ _ E2)) in Ef. rewrite decide_True by lia.
  set (s2 := set_vm (set_vm s (m1, a1)) (m2, a2)) in *.
  assert (ref_ok s2) as Hok2 by (destruct Hok; by split).
  destruct (ref_cnt_inc_spec p s2 Hok2 Hmore) as (s3 & E3 & [O3 V3 Ob3 L3 _ _]).
  exists p, m2, a2, T2, s3. split; [|split; [by rewrite V3|split; [done|split; [done|split; [done|split; [|split; [|split; [|split; [done|by rewrite Ob3, L3]]]]]]]]].
  - rewrite Ef. change (0 <? 0) with false. cbv iota. by rewrite (bind_done _ _ _ _ _ E3).
  - intros q Hq. by apply Hmem2, Hfor.
  - intros va'. rewrite Hr. by rewrite Hpte1.
  - intros q Hq. destruct (Hmem1 q Hq) as [E Hq1]. destruct (Hmem2 q Hq1) as [E' _]. by rewrite E'.
Qed.

End Fault.
