(* ===== verification/MmapFork.v ===== *)
(** * Fork: copy_mmap shares the parent's pages copy-on-write *)
From S2P Require Import Prelude RbTree RbSpec RbBalance RbSearch RbProofs RbTheorems Memory Klib Vm VmProofs Mmap MmapRef MmapRegions MmapFault.

(** ** Two page tables in one memory *)

Section Two.
Context {A : Type} `{!PageAlloc A}.
Implicit Types (m : mem) (a : A) (T : dir).

Record vm2 m a r1 T1 r2 T2 : Prop := {
  vm2_left : vm_inv m a r1 T1;
  vm2_right : vm_inv m a r2 T2;
  vm2_apart : forall p q b c, T1 !! p = Some b -> T2 !! q = Some c -> b <> c
}.

Lemma vm2_sym m a r1 T1 r2 T2 : vm2 m a r1 T1 r2 T2 -> vm2 m a r2 T2 r1 T1.
Proof. intros [H1 H2 H3]. split; [done..|]. intros p q b c Hp Hq ->. by eapply H3. Qed.

(** The directories of a mapped page are there. *)
Lemma mapped_dirs m root T va : pt_wf m root T -> Z.land (pte_of m T va) PTE_V <> 0 -> dirs va ⊆ dom T.
Proof.
  intros Hw Hv. unfold pte_of in Hv. destruct (T !! vpath va) as [b|] eqn:Hb; [|done].
  destruct (pt_parent _ _ _ Hw [PX 2 va] (PX 1 va) b Hb) as [c Hc]. unfold dirs.
  intros q [->%elem_of_singleton| ->%elem_of_singleton]%elem_of_union; by apply elem_of_dom.
Qed.

(** Mapping a page in one table leaves the other alone. *)
Lemma uvm_map_two m a r1 T1 r2 T2 va pa perm remap : vm2 m a r1 T1 r2 T2 ->
  0 <= va -> va mod PGSIZE = 0 -> va + PGSIZE < 2 ^ 39 -> mappable pa -> 0 <= perm < 1024 ->
  remap = true \/ Z.land (pte_of m T1 va) PTE_V = 0 ->
  let run := uvm_map r1 va pa PGSIZE perm remap (m, a) in
  (avail a < missing (dirs va) T1)%nat /\ run = Panic no_space \/
  exists m' a' T1', run = Done (0, (m', a')) /\ vm2 m' a' r1 T1' r2 T2 /\ spends (dirs va) T1 a T1' a' /\
    (forall q, foreign T1 a q -> foreign T2 a q -> m' !! q = m !! q /\ foreign T1' a' q /\ foreign T2 a' q) /\
    (forall va', pte_of m' T2 va' = pte_of m T2 va') /\
    (forall va', pte_of m' T1' va' = if decide (vpn va' = va / PGSIZE) then leaf pa perm else pte_of m T1 va').
Proof.
  intros [H1 H2 H3] Hva Hal Hhi Hpa Hperm Hfree.
  destruct (uvm_map_page m a r1 T1 va pa perm remap H1 Hva Hal Hhi Hpa Hperm Hfree) as [?|(m' & a' & T1' & E & HI & Hmem & HS & Hr)];
    [by left|right].
  assert (forall p b, T2 !! p = Some b -> forall y, page_of b y -> foreign T1 a y) as Hfor.
  { intros p b Hp y Hy. destruct H2 as (Hw2 & Ha2 & Hno2). split.
    - intros z Hz. eapply page_disjoint; [by eapply (pt_page _ _ _ Hw2)|exact (owns_page _ _ _ Ha2 Hz)| |exact Hy].
      intros ->. by eapply Hno2.
    - intros q c Hq. eapply page_disjoint; [by eapply (pt_page _ _ _ Hw2)|by eapply (pt_page _ _ _ (proj1 H1))| |exact Hy].
      intros ->. by eapply H3. }
  destruct (pt_wf_same m m' r2 T2 (proj1 H2)) as [Hw2 Hpte2].
  { intros p b Hp y Hy. by apply Hmem, (Hfor p b). }
  assert (forall p b, T2 !! p = Some b -> page_of b b) as Hself by (intros p b _; unfold page_of, PGSIZE; lia).
  assert (vm_inv m' a' r2 T2) as HI2.
  { split; [done|]. split; [apply HI|]. intros p b Hp Ho. destruct (Hmem b) as [_ [Hf _]]; [by eapply Hfor, Hself|].
    eapply Hf; [exact Ho|by eapply Hself]. }
  exists m', a', T1'. split; [exact E|]. split; [|split; [done|split; [|by split]]].
  - split; [done|done|]. intros p q b c Hp Hq ->. destruct (Hmem c) as [_ [_ Hf]]; [by eapply Hfor, Hself|].
    eapply Hf; [exact Hp|by eapply Hself].
  - intros q Hq1 Hq2. destruct (Hmem q Hq1) as [Em Hq1']. split_and!; [done|done|]. split; [apply Hq1'|apply Hq2].
Qed.
End Two.

(** ** What a region's pages become *)

Definition valid (e : Z) : bool := negb (Z.land e PTE_V =? 0).
(** A private region loses the write permission. *)
Definition cow_perm (d : MmapNode_t) : Z :=
  if Z.land (flag d) MAP_PRIVATE =? 0 then perm d else Z.ldiff (perm d) PTE_W.
Definition cow_entry (d : MmapNode_t) (e : Z) : Z := leaf (PTE2PA e) (cow_perm d).

(** The region of a page number. *)
Definition in_region (n : Z) (d : MmapNode_t) : bool := (addr d / PGSIZE <=? n) && (n <? addr d / PGSIZE + sz d / PGSIZE).
Definition region_at (l : list MmapNode_t) (n : Z) : option MmapNode_t := List.find (in_region n) l.
(** The first [i] pages of a region. *)
Definition cut (d : MmapNode_t) (i : nat) : MmapNode_t := mkRegion (dptr d) (addr d) (Z.of_nat i * PGSIZE) (perm d) (flag d).

Lemma mask_perm p f : 0 <= p < 1024 ->
  s32 (Z.land p (if negb (Z.land f MAP_PRIVATE =? 0) then Z.land (2 ^ 64 - 1) (u64 (Z.lnot PTE_W)) else 2 ^ 64 - 1)) =
    (if Z.land f MAP_PRIVATE =? 0 then p else Z.ldiff p PTE_W) /\
  0 <= (if Z.land f MAP_PRIVATE =? 0 then p else Z.ldiff p PTE_W) < 1024.
Proof.
  intros Hp.
  assert (0 <= Z.ldiff p PTE_W < 1024) as Hd.
  { assert (0 <= Z.ldiff p PTE_W) as H0 by (apply Z.ldiff_nonneg; lia). split; [done|].
    destruct (decide (Z.ldiff p PTE_W = 0)) as [->|Hne]; [lia|]. change 1024 with (2 ^ 10). apply Z.log2_lt_pow2; [lia|].
    assert (Z.ldiff p PTE_W = Z.land p 1019) as ->.
    { rewrite Z.ldiff_land. rewrite <- (Z.mod_small p 1024) at 1 by lia. change 1024 with (2 ^ 10).
      rewrite <- Z.land_ones by lia. by rewrite <- Z.land_assoc. }
    pose proof (Z.log2_land p 1019 ltac:(lia) ltac:(lia)) as Hlog. change (Z.log2 1019) with 9 in Hlog. lia. }
  assert (Z.land p (Z.ones 64) = p) as E64 by (rewrite Z.land_ones by lia; apply Z.mod_small; lia).
  destruct (Z.land f MAP_PRIVATE =? 0); cbn [negb].
  - change (2 ^ 64 - 1) with (Z.ones 64). rewrite E64. split; [apply s32_small|]; lia.
  - assert (Z.land p (Z.land (2 ^ 64 - 1) (u64 (Z.lnot PTE_W))) = Z.ldiff p PTE_W) as ->.
    { rewrite Z.ldiff_land. rewrite <- E64 at 2. by rewrite <- Z.land_assoc. }
    split; [apply s32_small; lia|done].
Qed.

Section Fork.
Context {A B : Type} `{!PageAlloc A} `{!BlockAlloc B}.
Implicit Types (s : mst A B) (m : mem) (a : A) (T : dir).

(** The memory, the tables, the objects and the lock before, and the two
    tasks. *)
Context (m0 : mem) (a0 : A) (T10 T20 : dir) (O0 : gmap Z Mmap_t) (b0 : bool) (t nt : task_t).
Abbreviation F0 := (pte_of m0 T10).
Abbreviation G0 := (pte_of m0 T20).

(** After the regions [l] have been copied: their present pages have the
    same entry in both tables; nothing else has changed. *)
Definition shared (l : list MmapNode_t) m T1 T2 : Prop := forall va,
  match region_at l (vpn va) with
  | Some d => if valid (F0 va) then pte_of m T1 va = cow_entry d (F0 va) /\ pte_of m T2 va = cow_entry d (F0 va)
              else pte_of m T1 va = F0 va /\ pte_of m T2 va = G0 va
  | None => pte_of m T1 va = F0 va /\ pte_of m T2 va = G0 va
  end.

(** The directories that the child needs: for the pages that the parent has
    touched. *)
Definition page_dirs (va : Z) : paths := if valid (F0 va) then dirs va else ∅.
Fixpoint touched_dirs (va : Z) (n : nat) : paths :=
  match n with O => ∅ | S n => page_dirs va ∪ touched_dirs (va + PGSIZE) n end.
Definition region_dirs (d : MmapNode_t) : paths := touched_dirs (addr d) (Z.to_nat (sz d / PGSIZE)).
Fixpoint fork_dirs (l : list (Z * MmapNode_t)) : paths :=
  match l with [] => ∅ | e :: l => region_dirs e.2 ∪ fork_dirs l end.

Lemma fork_dirs_app l1 l2 : fork_dirs (l1 ++ l2) = fork_dirs l1 ∪ fork_dirs l2.
Proof. induction l1 as [|e l1 IH]; cbn [fork_dirs app]; [set_solver|]. rewrite IH. set_solver. Qed.

(** The child has got the directories [X], the parent none. *)
Record copied (l : list MmapNode_t) (X : paths) s : Prop := {
  cp_vm : exists m a T1 T2, vm s = (m, a) /\ vm2 m a (pagetable t) T1 (pagetable nt) T2 /\ shared l m T1 T2 /\
    dom T1 = dom T10 /\ spends X T20 a0 T2 a /\
    forall q, foreign T10 a0 q -> foreign T20 a0 q -> m !! q = m0 !! q /\ foreign T1 a q /\ foreign T2 a q;
  cp_ref : ref_ok s
}.

(** Too few pages for the child's directories. *)
Definition short (X : paths) : Prop := (avail a0 < missing X T20)%nat.

Lemma region_at_snoc l d n : region_at (l ++ [d]) n = match region_at l n with Some d' => Some d' | None => if in_region n d then Some d else None end.
Proof. unfold region_at. induction l as [|e l IH]; cbn; [done|]. by destruct (in_region n e). Qed.

Lemma in_cut n d i : in_region n (cut d (S i)) = (n =? addr d / PGSIZE + Z.of_nat i) || in_region n (cut d i).
Proof.
  unfold in_region, cut. cbn [addr sz]. rewrite !Z.div_mul by done. 
  apply eq_true_iff_eq. rewrite orb_true_iff, !andb_true_iff, Z.eqb_eq, !Z.leb_le, !Z.ltb_lt. lia.
Qed.

Lemma in_region_cut_end d i : in_region (addr d / PGSIZE + Z.of_nat i) (cut d i) = false.
Proof. unfold in_region, cut. cbn [addr sz]. rewrite Z.div_mul by done. lia. Qed.

(** One page more. *)
Lemma shared_step l d i va m T1 T2 m' T1' T2' : vpn va = addr d / PGSIZE + Z.of_nat i ->
  region_at l (vpn va) = None -> shared (l ++ [cut d i]) m T1 T2 ->
  (valid (F0 va) = true -> forall va', pte_of m' T1' va' = (if decide (vpn va' = vpn va) then cow_entry d (F0 va) else pte_of m T1 va') /\
    pte_of m' T2' va' = (if decide (vpn va' = vpn va) then cow_entry d (F0 va) else pte_of m T2 va')) ->
  (valid (F0 va) = false -> forall va', pte_of m' T1' va' = pte_of m T1 va' /\ pte_of m' T2' va' = pte_of m T2 va') ->
  shared (l ++ [cut d (S i)]) m' T1' T2'.
Proof.
  intros Hva Hl Hs Hv Hn va'. specialize (Hs va'). rewrite region_at_snoc in Hs |- *.
  destruct (decide (vpn va' = vpn va)) as [E|E].
  - pose proof (pte_of_vpn m0 T10 _ _ E) as EF. pose proof (pte_of_vpn m0 T20 _ _ E) as EG. rewrite E, Hl in Hs |- *.
    rewrite in_cut, Hva, Z.eqb_refl. cbn [orb]. rewrite Hva, in_region_cut_end in Hs.
    rewrite EF, EG in *. destruct (valid (F0 va)) eqn:Ev.
    + destruct (Hv eq_refl va') as [-> ->]. by rewrite !decide_True by done.
    + by destruct (Hn eq_refl va') as [-> ->].
  - rewrite in_cut. rewrite (proj2 (Z.eqb_neq (vpn va') _)) by congruence. cbn [orb].
    assert (pte_of m' T1' va' = pte_of m T1 va' /\ pte_of m' T2' va' = pte_of m T2 va') as [-> ->].
    { destruct (valid (F0 va)) eqn:Ev; [|by apply Hn]. destruct (Hv eq_refl va') as [-> ->]. by rewrite !decide_False. }
    by destruct (region_at l (vpn va')), (in_region (vpn va') (cut d i)).
Qed.

(** What the objects see of a step on pages. *)
Record page_step (k : nat) s s' : Prop := {
  ps_objs : objs s' = objs s;
  ps_lock : ref_lock s' = ref_lock s;
  ps_live : live (blocks s) ⊆ live (blocks s');
  ps_more : forall n, more (n + k) (blocks s) -> more n (blocks s')
}.

Lemma page_step_trans j k s1 s2 s3 : page_step j s1 s2 -> page_step k s2 s3 -> page_step (j + k) s1 s3.
Proof.
  intros [O1 K1 L1 M1] [O2 K2 L2 M2]. split; [congruence|congruence|set_solver|].
  intros n Hn. apply M2, M1. by replace (n + k + j)%nat with (n + (j + k))%nat by lia.
Qed.

Lemma page_step_obj k s s' o x l : page_step k s s' -> obj_ok s o x l -> obj_ok s' o x l.
Proof.
  intros [O _ L _] [H1 H2 H3 H4]. split; try done; [by rewrite O|]. intros p Hp. destruct (H4 p Hp). split; [done|set_solver].
Qed.

(** Geometry of a region that can be forked. *)
Definition region_ok (d : MmapNode_t) : Prop :=
  0 <= addr d /\ addr d mod PGSIZE = 0 /\ 0 <= sz d /\ sz d mod PGSIZE = 0 /\ addr d + sz d < MAXVA /\ 0 <= perm d < 1024.

Lemma region_page d i : region_ok d -> Z.of_nat i * PGSIZE < sz d -> let va := addr d + Z.of_nat i * PGSIZE in
  0 <= va /\ va mod PGSIZE = 0 /\ va + PGSIZE < 2 ^ 39 /\ vpn va = addr d / PGSIZE + Z.of_nat i /\ va / PGSIZE = vpn va.
Proof.
  intros (H1 & H2 & H3 & H4 & H5 & _) Hi va. change MAXVA with (2 ^ 38) in H5. unfold PGSIZE in *.
  assert (va mod 4096 = 0) as Hm by (unfold va; rewrite Z.mod_add; lia).
  assert (0 <= va /\ va + 4096 < 2 ^ 39) as [Ha Hb] by (unfold va; lia).
  pose proof (vpn_page va Ha Hm ltac:(unfold PGSIZE; lia)) as Hv. unfold PGSIZE in Hv. split_and!; try done. rewrite Hv. unfold va. by rewrite Z.div_add.
Qed.

(** One page of [copy_mmap]: skipped when the parent has not touched it. *)
Lemma copy_page_spec rs X d i s : let va := addr d + Z.of_nat i * PGSIZE in
  copied (rs ++ [cut d i]) X s -> region_ok d -> Z.of_nat i * PGSIZE < sz d -> region_at rs (vpn va) = None ->
  (valid (F0 va) = true -> mappable (PTE2PA (F0 va))) -> valid (G0 va) = false -> more 2 (blocks s) ->
  short (X ∪ page_dirs va) /\ copy_page t nt d va s = Panic no_space \/
  exists s', copy_page t nt d va s = Done (tt, s') /\ copied (rs ++ [cut d (S i)]) (X ∪ page_dirs va) s' /\ page_step 2 s s'.
Proof.
  intros va [(m & a & T1 & T2 & Hv & H2 & Hsh & HD1 & HS & Hfr) Hok] Hd Hi Hrs Hmap HG Hmore.
  destruct (region_page d i Hd Hi) as (Hva & Hal & Hhi & Hvpn & Hdiv). fold va in Hva, Hal, Hhi, Hvpn, Hdiv.
  pose proof (Hsh va) as Hat. rewrite region_at_snoc, Hrs, Hvpn, in_region_cut_end in Hat. destruct Hat as [E1 E2].
  unfold copy_page. rewrite (entry_bind_m s m a (pagetable t) T1 va _ Hv (proj1 (vm2_left _ _ _ _ _ _ H2))), E1.
  assert (valid (F0 va) = false \/ valid (F0 va) = true /\ entry_addr T1 va <> 0) as [Hnv|[Hvd Hent]].
  { destruct (valid (F0 va)) eqn:Ev; [right; split; [done|]|by left].
    destruct (entry_load m a _ T1 va (proj1 (vm2_left _ _ _ _ _ _ H2))) as [[_ E]|[? _]]; [|done].
    rewrite E1 in E. unfold valid in Ev. by rewrite E in Ev. }
  { assert ((entry_addr T1 va =? 0) || (Z.land (F0 va) PTE_V =? 0) = true) as ->.
    { unfold valid in Hnv. apply negb_false_iff in Hnv. rewrite Hnv. apply orb_true_r. }
    right. exists s. split; [done|]. split.
    - split; [|done]. exists m, a, T1, T2. unfold page_dirs. rewrite Hnv, (right_id_L ∅ (∪)). split_and!; try done; try apply HS.
      eapply shared_step; [exact Hvpn|done|exact Hsh|congruence|done].
    - split; try done. intros n. apply more_le. lia. }
  assert ((entry_addr T1 va =? 0) || (Z.land (F0 va) PTE_V =? 0) = false) as ->.
  { rewrite (proj2 (Z.eqb_neq _ _) Hent). unfold valid in Hvd. by apply negb_true_iff in Hvd. }
  destruct (mask_perm (perm d) (flag d)) as [-> Hcp]; [apply Hd|]. fold (cow_perm d) in Hcp |- *.
  set (pa := PTE2PA (F0 va)) in *. specialize (Hmap Hvd).
  assert (dirs va ⊆ dom T1) as Hdirs.
  { apply (mapped_dirs m _ _ va (proj1 (vm2_left _ _ _ _ _ _ H2))). rewrite E1. unfold valid in Hvd.
    by apply negb_true_iff, Z.eqb_neq in Hvd. }
  destruct (uvm_map_two m a _ T1 _ T2 va pa (cow_perm d) true H2 Hva Hal Hhi Hmap Hcp (or_introl eq_refl))
    as [[HA _]|(m1 & a1 & T1' & Er & H2' & [HD1' HA1] & Hf1 & Hp2 & Hp1)].
  { rewrite missing_in in HA by done. lia. }
  rewrite missing_in, Nat.add_0_r in HA1 by done.
  rewrite (bind_done _ _ _ _ _ (on_vm_run _ s _ _ (eq_trans (f_equal _ Hv) Er))).
  change (0 <? 0) with false. cbv iota. unfold page_dirs. rewrite Hvd.
  assert (spends X T20 a0 T2 a1) as HS1 by (destruct HS; split; [done|congruence]).
  destruct (uvm_map_two m1 a1 _ T2 _ T1' va pa (cow_perm d) false (vm2_sym _ _ _ _ _ _ H2') Hva Hal Hhi Hmap Hcp)
    as [[HA Er2]|(m2 & a2 & T2' & Er2 & H2'' & HS2 & Hf2 & Hp1' & Hp2')].
  { right. rewrite Hp2, E2. unfold valid in HG. apply negb_false_iff in HG. by apply Z.eqb_eq. }
  { left. split; [by eapply short_trans|]. by apply bind_panic, on_vm_panic. }
  rewrite (bind_done _ _ _ _ _ (on_vm_run _ (set_vm s (m1, a1)) _ _ Er2)).
  change (0 <? 0) with false. cbv iota. right.
  set (s2 := set_vm (set_vm s (m1, a1)) (m2, a2)).
  assert (ref_ok s2) as Hok2 by (destruct Hok; by split).
  destruct (ref_cnt_inc_spec pa s2 Hok2 Hmore) as (s3 & E3 & [O3 V3 Ob3 L3 I3 Mo3]).
  exists s3. split; [by rewrite (bind_done _ _ _ _ _ E3)|]. split; [|by split].
  split; [|done]. exists m2, a2, T1', T2'. split; [by rewrite V3|]. split; [by apply vm2_sym|].
  split; [|split; [|split; [by eapply spends_trans|]]].
  - eapply shared_step; [exact Hvpn|done|exact Hsh| |by rewrite Hvd]. intros _ va'.
    rewrite Hp1', Hp1, Hp2', Hp2, Hdiv. done.
  - rewrite HD1', <- HD1. set_solver.
  - intros q Hq1 Hq2. destruct (Hfr q Hq1 Hq2) as (-> & Q1 & Q2) || destruct (Hfr q Hq1 Hq2) as (Em & Q1 & Q2).
    destruct (Hf1 q Q1 Q2) as (Em1 & Q1' & Q2'). destruct (Hf2 q Q2' Q1') as (Em2 & Q2'' & Q1'').
    split; [congruence|done].
Qed.

(** *** All pages of a region *)

Lemma shared_start rs d m T1 T2 : shared (rs ++ [cut d 0]) m T1 T2 <-> shared rs m T1 T2.
Proof.
  assert (forall n, region_at (rs ++ [cut d 0]) n = region_at rs n) as E.
  { intros n. rewrite region_at_snoc. destruct (region_at rs n); [done|].
    assert (in_region n (cut d 0) = false) as ->; [|done]. unfold in_region, cut. cbn [addr sz]. rewrite Z.div_mul by done. apply andb_false_iff. rewrite Z.leb_gt, Z.ltb_ge. lia. }
  unfold shared. split; intros H va; specialize (H va); by rewrite E in *.
Qed.

Lemma cut_all d n : Z.of_nat n * PGSIZE = sz d -> cut d n = d.
Proof. destruct d. unfold cut. cbn. by intros ->. Qed.

(** The regions [rs] are clear of [d]. *)
Definition clear_of (rs : list MmapNode_t) (d : MmapNode_t) : Prop :=
  forall n, in_region n d = true -> region_at rs n = None.

(** The parent's pages of a region can be shared, the child has none there. *)
Definition can_share (d : MmapNode_t) : Prop := forall va, in_region (vpn va) d = true ->
  (valid (F0 va) = true -> mappable (PTE2PA (F0 va))) /\ valid (G0 va) = false.

Lemma copy_pages_spec rs d : region_ok d -> clear_of rs d -> can_share d ->
  forall k i fuel X s, Z.of_nat (i + k) * PGSIZE = sz d -> (k < fuel)%nat -> copied (rs ++ [cut d i]) X s -> more (2 * k) (blocks s) ->
  let va := addr d + Z.of_nat i * PGSIZE in
  let run := for_pages fuel va (addr d + sz d) (copy_page t nt d) s in
  short (X ∪ touched_dirs va k) /\ run = Panic no_space \/
  exists s', run = Done (tt, s') /\ copied (rs ++ [d]) (X ∪ touched_dirs va k) s' /\ page_step (2 * k) s s'.
Proof.
  intros Hd Hcl Hsh. induction k as [|k IH]; intros i [|fuel] X s Hsz Hf Hc Hmore; try lia; cbn zeta; cbn [for_pages].
  - rewrite Nat.add_0_r in Hsz. rewrite <- Hsz, Z.ltb_irrefl. right. exists s. rewrite (cut_all d i Hsz) in Hc.
    cbn [touched_dirs]. rewrite (right_id_L ∅ (∪)).
    split; [done|]. split; [done|]. split; try done. intros n. by rewrite Nat.add_0_r.
  - assert (Z.of_nat i * PGSIZE < sz d) as Hi by (rewrite <- Hsz; unfold PGSIZE; lia).
    rewrite (proj2 (Z.ltb_lt _ _)) by lia.
    destruct (region_page d i Hd Hi) as (Hva & Hal & Hhi & Hvpn & _). set (va := addr d + Z.of_nat i * PGSIZE) in *.
    assert (in_region (vpn va) d = true) as Hin.
    { unfold in_region. rewrite Hvpn. rewrite <- Hsz, Z.div_mul by done. apply andb_true_iff. rewrite Z.leb_le, Z.ltb_lt. lia. }
    destruct (Hsh va Hin) as [Hmap HG].
    destruct (copy_page_spec rs X d i s Hc Hd Hi (Hcl _ Hin) Hmap HG) as [[HA E]|(s1 & E & Hc1 & HS1)];
      [by eapply more_le; [|exact Hmore]; lia| |]; fold va in E.
    { left. split; [eapply short_mono; [|exact HA]; cbn [touched_dirs]; fold va; set_solver|by apply bind_panic]. }
    cbn [touched_dirs]. rewrite (assoc_L (∪)). fold va in Hc1.
    assert (va + PGSIZE = addr d + Z.of_nat (S i) * PGSIZE) as Enext by (unfold va; lia).
    rewrite (bind_done _ _ _ _ _ E). replace (u64 (va + PGSIZE)) with (addr d + Z.of_nat (S i) * PGSIZE).
    2:{ rewrite <- Enext. unfold u64. rewrite Z.mod_small; unfold va, PGSIZE in *; lia. }
    rewrite Enext.
    destruct (IH (S i) fuel (X ∪ page_dirs va) s1) as [E2|(s2 & E2 & Hc2 & HS2)]; [rewrite <- Hsz; f_equal; lia|lia|done| | |].
    { apply HS1. by replace (2 * k + 2)%nat with (2 * S k)%nat by lia. }
    { by left. }
    right. exists s2. split; [exact E2|]. split; [done|]. replace (2 * S k)%nat with (2 + 2 * k)%nat by lia.
    by eapply page_step_trans.
Qed.

Definition region_blocks (d : MmapNode_t) : nat := 2 * Z.to_nat (sz d / PGSIZE).

Lemma copy_region_spec rs X d s : region_ok d -> clear_of rs d -> can_share d -> copied rs X s -> more (region_blocks d) (blocks s) ->
  short (X ∪ region_dirs d) /\ region_pages d (copy_page t nt d) s = Panic no_space \/
  exists s', region_pages d (copy_page t nt d) s = Done (tt, s') /\ copied (rs ++ [d]) (X ∪ region_dirs d) s' /\ page_step (region_blocks d) s s'.
Proof.
  intros Hd Hcl Hsh Hc Hmore. unfold region_pages. pose proof Hd as (H1 & H2 & H3 & H4 & H5 & _).
  assert (u64 (addr d + sz d) = addr d + sz d) as ->.
  { apply Z.mod_small. change MAXVA with (2 ^ 38) in H5. lia. }
  pose proof (copy_pages_spec rs d Hd Hcl Hsh (Z.to_nat (sz d / PGSIZE)) 0 (S (S (Z.to_nat (sz d / PGSIZE)))) X s) as H.
  cbn zeta in H. rewrite Z.mul_0_l, Z.add_0_r in H. apply H; [|lia| |done].
  - unfold PGSIZE in *. rewrite Nat.add_0_l, Z2Nat.id by (apply Z.div_pos; lia). zdiv.
  - destruct Hc as [(m & a & T1 & T2 & Hv & H6 & H7 & H8 & [H9 H10] & H11) Hr]. split; [|done]. exists m, a, T1, T2.
    split_and!; try done. by apply shared_start.
Qed.

(** ** The regions, in order *)

Definition same_region (d d' : MmapNode_t) : Prop := addr d = addr d' /\ sz d = sz d' /\ perm d = perm d' /\ flag d = flag d'.

Fixpoint fork_blocks (l : list (Z * MmapNode_t)) : nat :=
  match l with [] => 0 | e :: l => 2 + region_blocks e.2 + fork_blocks l end.

(** What fork asks of the parent's regions. *)
Record forkable (l : list (Z * MmapNode_t)) : Prop := {
  fk_ok : forall e, e ∈ l -> region_ok e.2;
  fk_apart : forall e1 e2, e1 ∈ l -> e2 ∈ l -> addr e1.2 < addr e2.2 -> addr e1.2 + sz e1.2 <= addr e2.2;
  fk_share : forall e, e ∈ l -> can_share e.2
}.

Lemma copied_obj rs X o s s' : only_obj o s s' -> copied rs X s -> copied rs X s'.
Proof.
  intros HO [Hv Hr]. split; [|by eapply only_obj_ref]. by rewrite (ob_vm _ _ _ HO).
Qed.

Lemma clear_before (rs : list MmapNode_t) d : (forall d', d' ∈ rs -> addr d' + sz d' <= addr d) ->
  (forall d', d' ∈ rs -> region_ok d') -> region_ok d -> clear_of rs d.
Proof.
  intros Hb Hok Hd n Hn. unfold region_at. destruct (List.find _ rs) as [d'|] eqn:E; [|done]. exfalso.
  apply List.find_some in E as [Hin E]. apply list_elem_of_In in Hin. specialize (Hb d' Hin). destruct (Hok d' Hin) as (? & ? & ? & ? & _).
  destruct Hd as (? & ? & ? & ? & _). unfold in_region, PGSIZE in *. apply andb_true_iff in E as [_ E], Hn as [Hn _]. zdiv.
Qed.

Lemma same_region_ok d d' : same_region d d' -> (region_ok d <-> region_ok d') /\ (can_share d <-> can_share d') /\
  region_blocks d = region_blocks d' /\ (forall n, in_region n d = in_region n d').
Proof.
  intros (E1 & E2 & E3 & E4). unfold region_ok, can_share, region_blocks, in_region. rewrite E1, E2, E3. done.
Qed.

(** ** The loop over the regions *)

Record fork_state (L l1 l2 lc : list (Z * MmapNode_t)) (x nx : Mmap_t) s : Prop := {
  fs_split : L = l1 ++ l2;
  fs_parent : obj_ok s (mmap_obj t) x L;
  fs_child : obj_ok s (mmap_obj nt) nx lc;
  fs_same : Forall2 (fun e e' => same_region e.2 e'.2) l1 lc;
  fs_copied : copied lc.*2 (fork_dirs l1) s;
  fs_others : forall o, o <> mmap_obj nt -> objs s !! o = O0 !! o;
  fs_lock : ref_lock s = b0;
  fs_more : more (fork_blocks l2) (blocks s)
}.

Lemma same_before (l1 lc : list (Z * MmapNode_t)) d' : Forall2 (fun e e' => same_region e.2 e'.2) l1 lc -> d' ∈ lc.*2 ->
  exists e, e ∈ l1 /\ same_region e.2 d'.
Proof.
  intros HF Hin. apply list_elem_of_fmap in Hin as (e' & -> & Hin). apply list_elem_of_lookup in Hin as [i Hi].
  destruct (Forall2_lookup_r _ _ _ _ _ HF Hi) as (e & He & Hs). exists e. split; [|done]. by eapply list_elem_of_lookup_2.
Qed.

(** One region. *)
Lemma copy_turn L l1 e l2 lc x nx s fuel : mmap_obj t <> mmap_obj nt -> forkable L -> fork_state L l1 (e :: l2) lc x nx s ->
  let run n s := copy_loop (A := A) (B := B) n t nt (first_or (t_head (tree x)) (e :: l2)) (t_head (tree x)) s in
  short (fork_dirs L) /\ run (S fuel) s = Panic no_space \/ exists s' nx' e', fork_state L (l1 ++ [e]) l2 (lc ++ [e']) x nx' s' /\
    run (S fuel) s = copy_loop fuel t nt (first_or (t_head (tree x)) l2) (t_head (tree x)) s'.
Proof.
  intros Hobj Hfk [-> Hp Hc Hsame Hcp Hoth Hlk Hmore]. cbn zeta. cbn [copy_loop first_or]. set (L := l1 ++ e :: l2) in *.
  pose proof (oo_view _ _ _ _ Hp) as HV. pose proof (view_listed _ _ _ HV) as [Hnd Hsorted].
  assert (e ∈ L) as HeL by (apply elem_of_app; right; by left).
  rewrite (proj2 (Z.eqb_neq _ _)).
  2:{ intros E. apply list.NoDup_cons in Hnd as [Hn _]. apply Hn. rewrite <- E. by apply list_elem_of_fmap_2. }
  destruct (view_data compf _ _ e HV HeL) as (n & Hn & Hd).
  assert (get_data e.1 (tree x) = Done (e.2, tree x)) as Eg by (unfold get_data, bind, rd; by rewrite Hn, Hd).
  rewrite (bind_done _ _ _ _ _ (on_obj_read _ _ _ _ _ (oo_obj _ _ _ _ Hp) Eg)).
  cbn [fork_blocks] in Hmore.
  destruct (mmap_alloc_spec (mmap_obj nt) (addr e.2) (sz e.2) (perm e.2) (flag e.2) s nx lc Hc ltac:(eapply more_le; [|exact Hmore]; lia))
    as (nd & dp & n1 & s1 & x1 & E1 & Hc1 & HO1 & Hm1 & _ & Hhd1 & Hnd1 & Hn1 & Hd1 & _).
  unfold mmap_alloc_copy. rewrite (bind_done _ _ _ _ _ E1). set (d' := mkRegion dp _ _ _ _) in *.
  assert (same_region e.2 d') as Hsd by done.
  assert (forall d0, d0 ∈ lc.*2 -> region_ok d0 /\ addr d0 < addr d' /\ addr d0 + sz d0 <= addr d') as Hbefore.
  { intros d0 Hin. destruct (same_before _ _ _ Hsame Hin) as (e0 & He0 & Hs0).
    assert (e0 ∈ L) as He0L by (apply elem_of_app; by left).
    assert (addr e0.2 < addr e.2) as Hlt.
    { apply sorted_app in Hsorted as (_ & _ & Hall). rewrite Forall_forall in Hall. specialize (Hall e0 He0).
      rewrite Forall_forall in Hall. specialize (Hall e ltac:(by left)). unfold compf in Hall. by apply Z.ltb_lt. }
    pose proof (fk_apart _ Hfk e0 e He0L HeL Hlt). destruct (same_region_ok _ _ Hs0) as [[Hr _] _].
    split; [apply Hr; by apply (fk_ok _ Hfk)|]. destruct Hs0 as (<- & <- & _). by split. }
  destruct (insert_region (mmap_obj nt) s1 x1 lc nd n1 d' Hc1 Hnd1 Hn1 Hd1) as (s2 & x2 & E2 & Hc2 & HO2 & Hb2 & _ & _ & _).
  assert (listed_at (addr d') lc = None) as Hnone.
  { apply listed_none. intros e0 He0. destruct (Hbefore e0.2 ltac:(by apply list_elem_of_fmap_2)) as (_ & ? & _). lia. }
  rewrite Hnone in E2, Hc2.
  rewrite add_region_last in Hc2 by (intros e0 He0; apply (Hbefore e0.2); by apply list_elem_of_fmap_2).
  rewrite (bind_done _ _ _ _ _ E2). cbn [Z.eqb]. pose proof (oo_view _ _ _ _ Hc2) as HV2.
  destruct (view_data compf _ _ (nd, d') HV2) as (n2 & Hn2 & Hd2); [apply elem_of_app; right; by left|]. cbn [fst snd] in *.
  assert (get_data nd (tree x2) = Done (d', tree x2)) as Eg2 by (unfold get_data, bind, rd; by rewrite Hn2, Hd2).
  rewrite (bind_done _ _ _ _ _ (on_obj_read _ _ _ _ _ (oo_obj _ _ _ _ Hc2) Eg2)).
  destruct (same_region_ok _ _ Hsd) as ([Hrk _] & [Hcs _] & Hrb & _).
  specialize (Hrk (fk_ok _ Hfk e HeL)). specialize (Hcs (fk_share _ Hfk e HeL)).
  assert (only_obj (mmap_obj nt) s s2) as HO by (by eapply only_obj_trans).
  assert (more (fork_blocks l2 + region_blocks d') (blocks s2)) as Hmore2.
  { rewrite Hb2. apply Hm1. eapply more_le; [|exact Hmore]. rewrite Hrb. lia. }
  assert (region_dirs d' = region_dirs e.2) as Hrd by (by destruct Hsd as (E4 & E5 & _); unfold region_dirs; rewrite E4, E5).
  destruct (copy_region_spec lc.*2 (fork_dirs l1) d' s2 Hrk) as [[HA E3]|(s3 & E3 & Hcp3 & HS3)].
  { apply clear_before; [| |done]; intros d0 Hin; by apply Hbefore. }
  { done. }
  { by eapply copied_obj. }
  { eapply more_le; [|exact Hmore2]. lia. }
  { left. split; [|by apply bind_panic]. eapply short_mono; [|exact HA]. rewrite Hrd. unfold L. rewrite fork_dirs_app.
    cbn [fork_dirs]. set_solver. }
  right. rewrite (bind_done _ _ _ _ _ E3).
  pose proof (page_step_obj _ _ _ _ _ _ HS3 (only_obj_ok _ _ _ _ _ _ HO Hobj Hp)) as Hp3.
  destruct (rb_iteration_refines compf (tree x) l1 e l2 HV) as (Hnext & _).
  rewrite (bind_done _ _ _ _ _ (on_obj_read _ _ _ _ _ (oo_obj _ _ _ _ Hp3) Hnext)).
  exists s3, x2, (nd, d'). split; [|done]. split; try done.
  - unfold L. by rewrite <- app_assoc.
  - by eapply page_step_obj.
  - apply Forall2_app; [done|]. by constructor.
  - rewrite fmap_app, fork_dirs_app. cbn [fork_dirs]. rewrite (right_id_L ∅ (∪)), <- Hrd. exact Hcp3.
  - intros o Ho. rewrite (ps_objs _ _ _ HS3), (ob_others _ _ _ HO o Ho). by apply Hoth.
  - by rewrite (ps_lock _ _ _ HS3), (ob_lock _ _ _ HO).
  - by apply HS3.
Qed.

Lemma copy_loop_spec L x : mmap_obj t <> mmap_obj nt -> forkable L -> forall l2 l1 lc nx s fuel,
  fork_state L l1 l2 lc x nx s -> (length l2 < fuel)%nat ->
  short (fork_dirs L) /\ copy_loop fuel t nt (first_or (t_head (tree x)) l2) (t_head (tree x)) s = Panic no_space \/
  exists s' nx' lc', copy_loop fuel t nt (first_or (t_head (tree x)) l2) (t_head (tree x)) s = Done (tt, s') /\
    fork_state L L [] lc' x nx' s'.
Proof.
  intros Hobj Hfk. induction l2 as [|e l2 IH]; intros l1 lc nx s [|fuel] Hst Hf; cbn [length] in Hf; try lia.
  - right. cbn [copy_loop first_or]. rewrite Z.eqb_refl. exists s, nx, lc. split; [done|].
    assert (L = l1) as -> by (rewrite (fs_split _ _ _ _ _ _ _ Hst); apply app_nil_r).
    destruct Hst. split; try done.
  - destruct (copy_turn L l1 e l2 lc x nx s fuel Hobj Hfk Hst) as [?|(s1 & nx1 & e' & Hst1 & E)]; [by left|].
    cbn zeta in E. rewrite E. eapply IH; [exact Hst1|lia].
Qed.

End Fork.
