(* ===== verification/MmapDemo.v ===== *)
(** * The theorems on memory maps at a concrete state

    A parent task with one private anonymous region of two pages, the first of
    them touched, a child with an empty page table, and two free pages. *)
From S2P Require Import Prelude RbTree RbSpec RbProofs RbTheorems RbRemove RbShape Memory Klib Vm VmProofs VmTheorems Mmap MmapRef MmapRegions MmapFault MmapFork.

(** Blocks of increasing addresses. *)
Definition above (l : list Z) : Z := foldr Z.max 0 l + 8.

Lemma above_ge l p : p ∈ l -> p < above l.
Proof.
  unfold above. induction l as [|q l IH]; [by intros ?%elem_of_nil|]. intros [->|H]%elem_of_cons; cbn; [lia|].
  specialize (IH H). lia.
Qed.

Lemma above_pos l : 0 < above l.
Proof. unfold above. induction l; cbn; lia. Qed.

#[export] Instance block_list : BlockAlloc (list Z).
Proof.
  refine {| blk_malloc := fun b => Some (above b, above b :: b); blk_free := fun p b => filter (fun q => q <> p) b;
            live := list_to_set |}.
  - intros b p b' [= <- <-]. split; [apply above_pos|]. split; [|done].
    intros H%elem_of_list_to_set%above_ge. lia.
  - intros b p _. apply set_eq. intros q. rewrite elem_of_list_to_set, list_elem_of_filter. set_solver.
Defined.

Definition demo_region : MmapNode_t := mkRegion 116 0 8192 6 3.
Definition demo_parent : Mmap_t :=
  mkMmap (mkTree (<[100 := hnode 100 108 108 108]> {[ 108 := mkNode 100 100 100 BLACK false (Some demo_region) ]}) 100 false 1) 0.
Definition demo_child : Mmap_t := mkMmap (mkTree {[ 200 := hnode 200 200 200 200 ]} 200 false 0) 0.
Definition demo_ref : rb_tree RefCntNode_t := mkTree {[ ref_head := hnode ref_head ref_head ref_head ref_head ]} ref_head false 0.
Definition demo_regions : list (Z * MmapNode_t) := [(108, demo_region)].

Definition demo_mst : mst (list Z) (list Z) :=
  mkMst (demo_m3, [24576; 28672]) [100; 108; 116; 200] demo_ref false
    (<[100 := demo_parent]> {[ 200 := demo_child ]}) (fun n => Z.of_nat n) 0.
Definition demo_t : task_t := mkTask 100 4096.
Definition demo_nt : task_t := mkTask 200 20480.

Lemma demo_parent_view : rb_view compf (tree demo_parent) demo_regions.
Proof.
  exists (T 108 BLACK demo_region E E). split; [|split; [|done]].
  - split; [|done]. split; cbn.
    + by rewrite lookup_insert_eq.
    + split_and!; [|done|done]. by vm_compute.
    + done.
    + apply (bool_decide_unpack _). by vm_compute.
  - split; [exists 1%nat; by repeat constructor|done|simpl; by repeat constructor].
Qed.

Lemma demo_child_view : rb_view compf (tree demo_child) [].
Proof.
  exists E. split; [|split; [|done]].
  - split; [|done]. split; cbn; [by vm_compute|done|done|apply NoDup_singleton].
  - split; [exists 0%nat; constructor|done|done].
Qed.

Lemma demo_parent_ok : obj_ok demo_mst 100 demo_parent demo_regions.
Proof.
  split; [by vm_compute|apply demo_parent_view|done|]. intros p. unfold demo_parent. cbn [tree t_nodes]. rewrite dom_insert_L, dom_singleton_L.
  intros [->%elem_of_singleton| ->%elem_of_singleton]%elem_of_union; (split; [lia|cbn; set_solver]).
Qed.

Lemma demo_child_ok : obj_ok demo_mst 200 demo_child [].
Proof.
  split; [by vm_compute|apply demo_child_view|done|]. intros p. unfold demo_child. cbn [tree t_nodes]. rewrite dom_singleton_L.
  intros ->%elem_of_singleton. split; [lia|cbn; set_solver].
Qed.

Lemma demo_ref_ok : ref_ok demo_mst.
Proof.
  split.
  - exists [], E, 0%nat. split; [|by repeat constructor].
    split; [|done]. split; cbn; [by vm_compute|done|done|apply NoDup_singleton].
  - done.
  - done.
  - intros p. change (t_nodes (ref demo_mst)) with ({[ ref_head := hnode ref_head ref_head ref_head ref_head ]} : gmap Z (rb_node RefCntNode_t)).
    rewrite dom_singleton_L. intros ->%elem_of_singleton. by left.
Qed.

Lemma demo_alloc_inv : list_inv demo_m3 [24576; 28672].
Proof.
  split; [apply (bool_decide_unpack _); by vm_compute|].
  intros p [->|[->|[]%elem_of_nil]%elem_of_cons]%elem_of_cons; split;
    [exact (demo_page 6 ltac:(lia))| |exact (demo_page 7 ltac:(lia))|].
  - pose proof (bytes_at_owned _ _ _ (demo_m3_zero 24576 4096 ltac:(lia) ltac:(simpl; lia))) as Ho. exact Ho.
  - pose proof (bytes_at_owned _ _ _ (demo_m3_zero 28672 4096 ltac:(lia) ltac:(simpl; lia))) as Ho. exact Ho.
Qed.

Definition demo_T2 : dir := {[ [] := 20480 ]}.

Lemma demo_T2_pages p b : demo_T2 !! p = Some b -> b = 20480.
Proof. unfold demo_T2. by intros [_ <-]%lookup_singleton_Some. Qed.

Lemma demo_vm2 : vm2 demo_m3 [24576; 28672] 4096 demo_T 20480 demo_T2.
Proof.
  split.
  - split; [apply demo_inv|]. split; [exact demo_alloc_inv|]. intros p b Hb. apply demo_T_pages in Hb. cbn. unfold list_owns.
    set_solver by lia.
  - split; [apply pt_wf_empty; [exact (demo_page 5 ltac:(lia))|apply demo_m3_zero; simpl; lia]|]. split; [exact demo_alloc_inv|].
    intros p b Hb. apply demo_T2_pages in Hb as ->. cbn. unfold list_owns. set_solver by lia.
  - intros p q b c Hb Hc. apply demo_T_pages in Hb. apply demo_T2_pages in Hc as ->. lia.
Qed.

Lemma demo_pte2 va : pte_of demo_m3 demo_T2 va = 0.
Proof. unfold pte_of, demo_T2. by rewrite lookup_singleton_ne. Qed.

Lemma demo_find :
  mmap_find 100 4100 demo_mst = Done (Some demo_region, demo_mst) /\ mmap_find 200 4100 demo_mst = Done (None, demo_mst).
Proof.
  split.
  - exact (mmap_find_last demo_mst 100 demo_parent demo_regions 4100 demo_parent_ok).
  - exact (mmap_find_last demo_mst 200 demo_child [] 4100 demo_child_ok).
Qed.

Lemma mmap_adds_region_witness :
  exists node d s' x', mmap_by_obj 100 4096 12288 100 6 0 false demo_mst = Done (12288, s') /\
    obj_ok s' 100 x' [(108, demo_region); (node, mkRegion d 12288 4096 6 2)].
Proof.
  destruct (mmap_adds_region demo_mst 100 demo_parent demo_regions 4096 12288 100 6 0 demo_parent_ok
    ltac:(by vm_compute) eq_refl) as (node & d & s' & x' & E & H & _).
  exists node, d, s', x'. split; [exact E|exact H].
Defined.

Definition demo_requests : list request :=
  [mkReq 0 5000 6 MAP_ANONYMOUS; mkReq 12288 100 6 0; mkReq 0 4096 2 MAP_ANONYMOUS].


Lemma empty_mmap_panics_witness :
  exists s', mmap_by_obj 100 4096 0 0 6 MAP_ANONYMOUS false demo_mst = Done (VA_ANYNOMOUS, s') /\
    mmap_by_obj 100 4096 0 4096 6 MAP_ANONYMOUS false s' = Panic "mmap failed".
Proof.
  destruct (empty_mmap_panics demo_mst 100 demo_parent demo_regions 4096 0 6 MAP_ANONYMOUS demo_parent_ok
    ltac:(by vm_compute) eq_refl eq_refl ltac:(by vm_compute)) as (s' & E & H).
  exists s'. split; [exact E|]. apply H; reflexivity.
Defined.


Lemma demo_forkable : forkable demo_m3 demo_T demo_T2 demo_regions.
Proof.
  split.
  - intros e ->%list_elem_of_singleton. by vm_compute.
  - intros e1 e2 ->%list_elem_of_singleton ->%list_elem_of_singleton. cbn. lia.
  - intros e ->%list_elem_of_singleton va _. rewrite (proj2 demo_inv), demo_pte2. split; [|done].
    destruct (decide _); [|by vm_compute]. intros _. by vm_compute.
Qed.

