(* ===== verification/Lock.v ===== *)
(** * Locks: lock.c

    [push_off] and [pop_off] on a hart's record, the spin lock as a step
    machine that interleaves the memory accesses of all harts, the sleep lock
    as a step machine over tasks, and the semaphore with its doubly linked
    queue of waiters. *)
From S2P Require Import Prelude.

(** ** A hart: [struct cpu] and its SIE bit *)

Record cpu : Type := mkCpu {
  noff : Z;
  intena : bool;
  sie : bool
}.

Definition push_off (c : cpu) : cpu :=
  let old := sie c in
  mkCpu (noff c + 1) (if noff c =? 0 then old else intena c) false.

Definition pop_off (c : cpu) : result cpu :=
  if sie c then Panic "pop_off - interruptible"
  else if noff c <? 1 then Panic "pop_off"
  else
    let n := noff c - 1 in
    Done (mkCpu n (intena c) (if (n =? 0) && intena c then true else sie c)).

Module Spin.

(** Where a hart is in [lm_lock] and [lm_unlock] of one lock.  Each
    constructor is a point between two accesses to the shared lock. *)
Inductive pc : Type :=
| Out        (* not in a routine of this lock *)
| Check1     (* lm_lock: push_off done, holding is to read locked *)
| Check2     (* holding is to read cpu *)
| Spinning   (* before the atomic swap *)
| Got        (* swap returned 0, cpu not yet written *)
| In         (* the critical section *)
| Un1        (* lm_unlock: holding is to read locked *)
| Un2        (* holding is to read cpu *)
| UnCpu      (* cpu is to become -1 *)
| UnRel.     (* locked is to become 0, then pop_off *)

Record hart : Type := mkHart { at_ : pc; hcpu : cpu }.

(** [lm_lock_t] without its name. *)
Record lm_lock_t : Type := mkLock { locked : Z; lcpu : Z }.

Record state : Type := mkState { lk : lm_lock_t; harts : list hart }.

Definition lm_lockinit : lm_lock_t := mkLock 0 (-1).

Definition go (i : nat) (p : pc) (c : cpu) (l : lm_lock_t) : M state unit :=
  modify (fun s => mkState l (<[i := mkHart p c]> (harts s))).

(** One step of hart [i]: its next access to the lock with the private code
    around it. *)
Definition hart_step (i : nat) : M state unit :=
  s <- get;;
  match harts s !! i with
  | None => fault
  | Some (mkHart p c) =>
    let l := lk s in
    match p with
    | Out => go i Check1 (push_off c) l
    | Check1 => go i (if locked l =? 0 then Spinning else Check2) c l
    | Check2 => if lcpu l =? Z.of_nat i then panic "holding lock" else go i Spinning c l
    | Spinning => go i (if locked l =? 0 then Got else Spinning) c (mkLock 1 (lcpu l))
    | Got => go i In c (mkLock (locked l) (Z.of_nat i))
    | In => go i Un1 c l
    | Un1 => if locked l =? 0 then panic "unlock" else go i Un2 c l
    | Un2 => if lcpu l =? Z.of_nat i then go i UnCpu c l else panic "unlock"
    | UnCpu => go i UnRel c (mkLock (locked l) (-1))
    | UnRel => match pop_off c with
               | Done c' => go i Out c' (mkLock 0 (lcpu l))
               | Panic m => panic m
               | Fault => fault
               | NoFuel => nofuel
               | Blocked => blocked
               end
    end
  end.

(** [check_lock]: what it returns, and whether it goes on to [lm_lock]. *)
Definition holding (l : lm_lock_t) (cpuid : Z) : bool :=
  negb (locked l =? 0) && (lcpu l =? cpuid).
Definition check_lock (l : lm_lock_t) (cpuid : Z) : Z := if holding l cpuid then 0 else 1.

Inductive step : state -> state -> Prop :=
| step_hart i s s' : hart_step i s = Done (tt, s') -> step s s'.

Definition steps : state -> state -> Prop := rtc step.

(** Initially the lock is free and every hart is outside, at any depth of
    [push_off] that left its interrupts off. *)
Definition cpu_ok (c : cpu) : Prop := 0 <= noff c /\ (0 < noff c -> sie c = false).
Definition initial (cs : list cpu) (s : state) : Prop :=
  s = mkState lm_lockinit (mkHart Out <$> cs) /\ Forall cpu_ok cs.

(** The hart has swapped in the 1, respectively is the one [cpu] names. *)
Definition owns (p : pc) : bool :=
  match p with Got | In | Un1 | Un2 | UnCpu | UnRel => true | _ => false end.
Definition named (p : pc) : bool :=
  match p with In | Un1 | Un2 | UnCpu => true | _ => false end.

End Spin.

Module Sleep.

(** What the sleep lock sees of a task. *)
Inductive tstate : Type :=
| Idle      (* neither holds the lock nor wants it *)
| Asleep    (* SLEEPING on the lock as its channel *)
| Awake     (* made RUNNABLE again, about to test [locked] again *)
| Holder.

Record lm_sleeplock_t : Type := mkSleep { locked : Z; pid : Z; tasks : gmap Z tstate }.

Definition lm_sleeplockinit (tasks : gmap Z tstate) : lm_sleeplock_t := mkSleep 0 0 tasks.

(** [wakeup] on the lock's channel: every other sleeping task. *)
Definition wake (me : Z) (ts : gmap Z tstate) : gmap Z tstate :=
  map_imap (fun t x => Some (if decide (t = me) then x
                             else match x with Asleep => Awake | x => x end)) ts.

(** The loop of [lm_sleeplock], up to the next call of [sched]: all of it
    under the spin lock. *)
Definition sleeplock_loop (t : Z) : M lm_sleeplock_t unit :=
  s <- get;;
  if negb (locked s =? 0)
  then put (mkSleep (locked s) (pid s) (<[t := Asleep]> (tasks s)))
  else put (mkSleep 1 t (<[t := Holder]> (tasks s))).

Definition lm_sleeplock (t : Z) : M lm_sleeplock_t unit :=
  s <- get;;
  if (locked s =? 1) && (pid s =? t) then panic "sleeplock" else sleeplock_loop t.

Definition lm_sleepunlock (t : Z) : M lm_sleeplock_t unit :=
  s <- get;;
  if (locked s =? 0) || negb (pid s =? t) then panic "unlock"
  else put (mkSleep 0 (-1) (wake t (<[t := Idle]> (tasks s)))).

Definition lm_holdingsleep (t : Z) : M lm_sleeplock_t bool :=
  gets (fun s => negb (locked s =? 0) && (pid s =? t)).

(** A scheduled task takes a turn; a task that sleeps has no step. *)
Inductive step : lm_sleeplock_t -> lm_sleeplock_t -> Prop :=
| step_enter t s s' :
    tasks s !! t = Some Idle -> lm_sleeplock t s = Done (tt, s') -> step s s'
| step_again t s s' :
    tasks s !! t = Some Awake -> sleeplock_loop t s = Done (tt, s') -> step s s'
| step_release t s s' :
    tasks s !! t = Some Holder -> lm_sleepunlock t s = Done (tt, s') -> step s s'.

Definition initial (s : lm_sleeplock_t) : Prop :=
  locked s = 0 /\ map_Forall (fun _ x => x = Idle) (tasks s).

End Sleep.

(** What the semaphore needs of the allocator: [mem_malloc] gives a nonzero
    address that no live list node has. *)
Class NodeAlloc (A : Type) : Type := {
  mem_malloc : gmap Z A -> Z;
  mem_malloc_fresh : forall h, h !! mem_malloc h = None;
  mem_malloc_pos : forall h, 0 < mem_malloc h
}.

Module Sem.

Record task_list : Type := mkTl { tl_task : Z; tl_next : Z; tl_prev : Z }.

Inductive tstate : Type := RUNNABLE | RUNNING | SLEEPING.

(** The semaphore, the list nodes and the tasks' states; address 0 is NULL. *)
Record semophore_t : Type := mkSem {
  value : Z;
  head : Z;
  tail : Z;
  nodes : gmap Z task_list;
  tasks : gmap Z tstate
}.

Definition rd {A} (f : task_list -> A) (p : Z) : M semophore_t A :=
  fun s => match nodes s !! p with Some n => Done (f n, s) | None => Fault end.
Definition wr (g : task_list -> task_list) (p : Z) : M semophore_t unit :=
  fun s => match nodes s !! p with
           | Some n => Done (tt, mkSem (value s) (head s) (tail s) (<[p := g n]> (nodes s)) (tasks s))
           | None => Fault
           end.
Definition set_prev (p v : Z) : M semophore_t unit :=
  wr (fun n => mkTl (tl_task n) (tl_next n) v) p.
Definition set_next (p v : Z) : M semophore_t unit :=
  wr (fun n => mkTl (tl_task n) v (tl_prev n)) p.
Definition set_value (v : Z) : M semophore_t unit :=
  modify (fun s => mkSem v (head s) (tail s) (nodes s) (tasks s)).
Definition set_head (v : Z) : M semophore_t unit :=
  modify (fun s => mkSem (value s) v (tail s) (nodes s) (tasks s)).
Definition set_tail (v : Z) : M semophore_t unit :=
  modify (fun s => mkSem (value s) (head s) v (nodes s) (tasks s)).
Definition set_state (t : Z) (x : tstate) : M semophore_t unit :=
  modify (fun s => mkSem (value s) (head s) (tail s) (nodes s) (<[t := x]> (tasks s))).
Definition set_node (p : Z) (n : task_list) : M semophore_t unit :=
  modify (fun s => mkSem (value s) (head s) (tail s) (<[p := n]> (nodes s)) (tasks s)).
Definition mem_free (p : Z) : M semophore_t unit :=
  modify (fun s => mkSem (value s) (head s) (tail s) (delete p (nodes s)) (tasks s)).

Definition lm_sem_init (v : Z) : M semophore_t unit :=
  if v <? 0 then panic "sem_init: value < 0" else set_value v;;; set_head 0.

(** [lm_P] by task [t], up to its call of [sched]. *)
Definition lm_P `{!NodeAlloc task_list} (t : Z) : M semophore_t unit :=
  v <- gets value;; set_value (s32 (v - 1));;;
  v <- gets value;;
  if v <? 0 then
    tl <- gets (fun s => mem_malloc (nodes s));;
    hd <- gets head;;
    set_node tl (mkTl t hd 0);;;
    (if negb (hd =? 0) then set_prev hd tl else set_tail tl);;;
    set_head tl;;;
    set_state t SLEEPING
  else ret tt.

Definition lm_V : M semophore_t unit :=
  v <- gets value;; set_value (s32 (v + 1));;;
  v <- gets value;;
  if v <=? 0 then
    tl <- gets tail;;
    prev <- rd tl_prev tl;;
    t <- rd tl_task tl;;
    set_tail prev;;;
    (if prev =? 0 then set_head 0 else set_next prev 0);;;
    mem_free tl;;;
    set_state t RUNNABLE
  else ret tt.

(** The queue as a list of addresses and tasks, head first. *)
Fixpoint queue (h : gmap Z task_list) (prev p : Z) (l : list (Z * Z)) : Prop :=
  match l with
  | [] => p = 0
  | (a, t) :: l =>
    p = a /\ a <> 0 /\
    h !! a = Some (mkTl t (match l with [] => 0 | (b, _) :: _ => b end) prev) /\
    queue h a (match l with [] => 0 | (b, _) :: _ => b end) l
  end.

(** [sem_view s v ws]: counter [v] and waiting tasks [ws], the one that has
    waited longest at the end. *)
Definition sem_view (s : semophore_t) (v : Z) (ws : list Z) : Prop :=
  exists l, l.*2 = ws /\ NoDup l.*1 /\ queue (nodes s) 0 (head s) l /\
            (l <> [] -> tail s = default 0 (last l.*1)) /\ value s = v /\
            Z.of_nat (length ws) = Z.max 0 (- v).

End Sem.
