(* ===== verification/LockProofs.v ===== *)
(** * Proofs about locks

    Mutual exclusion and release of the spin lock over all interleavings, the
    nesting of [push_off], the sleep lock's wake-ups and the semaphore's
    queue. *)
From S2P Require Import Prelude Lock.

(** ** push_off and pop_off *)

Fixpoint pops (n : nat) (c : cpu) : result cpu :=
  match n with
  | O => Done c
  | S n => match pop_off c with
           | Done c' => pops n c'
           | Panic m => Panic m
           | Fault => Fault
           | NoFuel => NoFuel
           | Blocked => Blocked
           end
  end.

Definition pushes (n : nat) (c : cpu) : cpu := Nat.iter n push_off c.

Lemma push_pop c :
  Spin.cpu_ok c ->
  exists c', pop_off (push_off c) = Done c' /\ noff c' = noff c /\ sie c' = sie c /\
             (0 < noff c -> c' = c).
Proof.
  intros [H0 H1]. unfold pop_off, push_off. cbn [sie noff intena].
  rewrite (proj2 (Z.ltb_ge (noff c + 1) 1)) by lia.
  eexists. split; [reflexivity|]. cbn [sie noff intena].
  replace (noff c + 1 - 1) with (noff c) by lia. destruct (Z.eqb_spec (noff c) 0) as [E|E].
  - split_and!; [done|by destruct (sie c)|lia].
  - rewrite H1 by lia. split_and!; [done|done|]. intros H2. destruct c as [a b d]. simpl in *.
    by rewrite (H1 H2).
Qed.

Lemma push_ok c : Spin.cpu_ok c -> Spin.cpu_ok (push_off c).
Proof. intros [H0 H1]. split; simpl; [lia|done]. Qed.

Lemma pushes_ok n c : Spin.cpu_ok c -> Spin.cpu_ok (pushes n c).
Proof. intros H. induction n as [|n IH]; simpl; [done|]. by apply push_ok. Qed.

Lemma pushes_noff n c : noff (pushes n c) = noff c + Z.of_nat n.
Proof.
  induction n as [|n IH]; [unfold pushes; simpl; lia|].
  change (pushes (S n) c) with (push_off (pushes n c)). cbn [noff push_off]. lia.
Qed.

Module SpinProofs.
Import Spin.

(** The invariant of the spin lock; [cs] are the harts' records at the start. *)
Record inv (cs : list cpu) (s : state) : Prop := {
  inv_len : length (harts s) = length cs;
  inv_free : locked (lk s) = 0 -> forall i h, harts s !! i = Some h -> owns (at_ h) = false;
  inv_held : locked (lk s) <> 0 -> locked (lk s) = 1 /\
    exists i h, harts s !! i = Some h /\ owns (at_ h) = true;
  inv_one : forall i j h k, harts s !! i = Some h -> harts s !! j = Some k ->
    owns (at_ h) = true -> owns (at_ k) = true -> i = j;
  inv_cpu : forall i h, harts s !! i = Some h ->
    (lcpu (lk s) = Z.of_nat i <-> named (at_ h) = true);
  inv_hart : forall i h, harts s !! i = Some h -> exists c0, cs !! i = Some c0 /\ cpu_ok c0 /\
    match at_ h with
    | Out => noff (hcpu h) = noff c0 /\ sie (hcpu h) = sie c0
    | _ => noff (hcpu h) = noff c0 + 1 /\ sie (hcpu h) = false /\
           (noff c0 = 0 -> intena (hcpu h) = sie c0)
    end
}.

Lemma initial_inv cs s : initial cs s -> inv cs s.
Proof.
  intros [-> Hok]. split; simpl.
  - by rewrite length_fmap.
  - intros _ i h Hh. rewrite list_lookup_fmap in Hh.
    destruct (cs !! i) as [c|]; [by injection Hh as <-|done].
  - done.
  - intros i j h k Hh _ Ho. rewrite list_lookup_fmap in Hh.
    destruct (cs !! i) as [c|]; [by injection Hh as <-|done].
  - intros i h Hh. rewrite list_lookup_fmap in Hh.
    destruct (cs !! i) as [c|]; [injection Hh as <-|done]. simpl. split; [lia|done].
  - intros i h Hh. rewrite list_lookup_fmap in Hh.
    destruct (cs !! i) as [c|] eqn:Hc; [injection Hh as <-|done].
    exists c. split; [done|]. split; [by eapply Forall_lookup_1|done].
Qed.

(** Replacing hart [i]: the invariant follows from facts about [i] alone. *)
Lemma inv_update cs s i h0 h l :
  inv cs s -> harts s !! i = Some h0 ->
  (owns (at_ h) = true -> locked l = 1 /\ (owns (at_ h0) = true \/ locked (lk s) = 0)) ->
  (owns (at_ h) = false ->
     (owns (at_ h0) = true -> locked l = 0) /\
     (owns (at_ h0) = false -> locked l = locked (lk s))) ->
  (lcpu l = Z.of_nat i <-> named (at_ h) = true) ->
  (lcpu l = lcpu (lk s) \/ owns (at_ h0) = true /\ (lcpu l = Z.of_nat i \/ lcpu l = -1)) ->
  (exists c0, cs !! i = Some c0 /\ cpu_ok c0 /\
    match at_ h with
    | Out => noff (hcpu h) = noff c0 /\ sie (hcpu h) = sie c0
    | _ => noff (hcpu h) = noff c0 + 1 /\ sie (hcpu h) = false /\
           (noff c0 = 0 -> intena (hcpu h) = sie c0)
    end) ->
  inv cs (mkState l (<[i := h]> (harts s))).
Proof.
  intros HI Hi Hown Hnot Hnm Hlc Hc.
  assert (i < length (harts s))%nat as Hlt by (by eapply lookup_lt_Some).
  assert (forall j k, <[i := h]> (harts s) !! j = Some k ->
            j = i /\ k = h \/ j <> i /\ harts s !! j = Some k) as Hlook.
  { intros j k. destruct (decide (j = i)) as [->|Hne].
    - rewrite list_lookup_insert_eq by done. intros [= <-]. by left.
    - rewrite list_lookup_insert_ne by done. by right. }
  split; cbn [harts lk].
  - rewrite length_insert. apply HI.
  - intros Hl j k Hj. apply Hlook in Hj as [[-> ->]|[Hne Hj]].
    + destruct (owns (at_ h)) eqn:E; [|done]. destruct (Hown eq_refl). lia.
    + destruct (owns (at_ k)) eqn:E; [|done]. exfalso.
      destruct (owns (at_ h)) eqn:E1; [destruct (Hown eq_refl); lia|].
      destruct (owns (at_ h0)) eqn:E0.
      * by apply Hne, (inv_one _ _ HI j i k h0).
      * destruct (Hnot eq_refl) as [_ H2]. rewrite H2 in Hl by done.
        by rewrite (inv_free _ _ HI Hl j k Hj) in E.
  - intros Hl. destruct (owns (at_ h)) eqn:E.
    + split; [by apply Hown|]. exists i, h. by rewrite list_lookup_insert_eq.
    + destruct (owns (at_ h0)) eqn:E0; [destruct (Hnot eq_refl) as [H1 _]; by rewrite H1 in Hl|].
      destruct (Hnot eq_refl) as [_ H2]. rewrite H2 in Hl |- * by done.
      destruct (inv_held _ _ HI Hl) as (H1 & j & k & Hj & Hk). split; [done|].
      exists j, k. rewrite list_lookup_insert_ne; [done|]. intros ->. congruence.
  - assert (forall j k, j <> i -> harts s !! j = Some k -> owns (at_ h) = true ->
              owns (at_ k) = true -> False) as Hex.
    { intros j k Hne Hj Hh Hk. destruct (Hown Hh) as [_ [H0|H0]].
      - by apply Hne, (inv_one _ _ HI j i k h0).
      - by rewrite (inv_free _ _ HI H0 j k Hj) in Hk. }
    intros j j' k k' Hj Hj' Hk Hk'.
    apply Hlook in Hj as [[-> ->]|[Hne Hj]]; apply Hlook in Hj' as [[-> ->]|[Hne' Hj']].
    + done.
    + by destruct (Hex j' k' Hne' Hj' Hk Hk').
    + by destruct (Hex j k Hne Hj Hk' Hk).
    + by eapply (inv_one _ _ HI).
  - intros j k Hj. apply Hlook in Hj as [[-> ->]|[Hne Hj]]; [done|].
    destruct Hlc as [->|[Ho Hlc]]; [by apply (inv_cpu _ _ HI)|].
    assert (named (at_ k) = false) as ->.
    { destruct (named (at_ k)) eqn:E; [|done]. exfalso. apply Hne.
      apply (inv_one _ _ HI j i k h0); [done|done| |done]. by destruct (at_ k). }
    split; [lia|done].
  - intros j k Hj. apply Hlook in Hj as [[-> ->]|[Hne Hj]]; [done|]. by apply (inv_hart _ _ HI).
Qed.

(** A step of a hart of the machine never panics and keeps the invariant. *)
Lemma hart_step_inv cs s i h :
  inv cs s -> harts s !! i = Some h -> exists s', hart_step i s = Done (tt, s') /\ inv cs s'.
Proof.
  intros HI Hi. unfold hart_step. rewrite bind_get, Hi. destruct h as [p c].
  pose proof (inv_hart _ _ HI i _ Hi) as (c0 & Hc0 & Hok & Hh). cbn [at_ hcpu] in Hh.
  pose proof (inv_cpu _ _ HI i _ Hi) as Hcpu. cbn [at_] in Hcpu.
  assert (owns p = true -> locked (lk s) = 1) as Hown.
  { intros Ho. destruct (decide (locked (lk s) = 0)) as [E|E].
    - pose proof (inv_free _ _ HI E i _ Hi) as H. simpl in H. congruence.
    - by apply (inv_held _ _ HI). }
  destruct Hok as [Hok0 Hok1].
  destruct p; cbn [named owns] in Hcpu, Hown; unfold go, modify.
  - eexists. split; [reflexivity|]. eapply inv_update; [done|exact Hi|done|done|done|by left|].
    exists c0. split; [done|]. split; [done|]. simpl. destruct Hh as [Hn Hs]. split_and!; [lia|done|].
    intros E. rewrite Hn, E. done.
  - eexists. split; [reflexivity|].
    destruct (locked (lk s) =? 0); (eapply inv_update; [done|exact Hi|done|done|done|by left|];
    by exists c0).
  - destruct (Z.eqb_spec (lcpu (lk s)) (Z.of_nat i)) as [E|E]; [by apply Hcpu in E|].
    eexists. split; [reflexivity|]. eapply inv_update; [done|exact Hi|done|done|done|by left|].
    by exists c0.
  - eexists. split; [reflexivity|]. destruct (Z.eqb_spec (locked (lk s)) 0) as [E|E].
    + eapply inv_update; [done|exact Hi|simpl; by auto|done|simpl; exact Hcpu|by left|]. by exists c0.
    + pose proof (inv_held _ _ HI E) as [E1 _].
      eapply inv_update; [done|exact Hi|done| |simpl; exact Hcpu|by left|by exists c0].
      simpl. intros _. by split.
  - eexists. split; [reflexivity|].
    eapply inv_update; [done|exact Hi|simpl; by auto|done|done|simpl; by auto|]. by exists c0.
  - eexists. split; [reflexivity|].
    eapply inv_update; [done|exact Hi|simpl; by auto|done|done|simpl; by auto|]. by exists c0.
  - rewrite Hown by done. simpl. eexists. split; [reflexivity|].
    eapply inv_update; [done|exact Hi|simpl; by auto|done|done|simpl; by auto|]. by exists c0.
  - rewrite (proj2 (Z.eqb_eq _ _)) by (by apply Hcpu). eexists. split; [reflexivity|].
    eapply inv_update; [done|exact Hi|simpl; by auto|done|done|simpl; by auto|]. by exists c0.
  - eexists. split; [reflexivity|].
    eapply inv_update; [done|exact Hi|simpl; by auto|done|simpl; split; [lia|done]|simpl; by auto|].
    by exists c0.
  - destruct Hh as (Hn & Hs & Hint).
    unfold pop_off. rewrite Hs. rewrite (proj2 (Z.ltb_ge (noff c) 1)) by lia.
    eexists. split; [reflexivity|].
    eapply inv_update; [done|exact Hi|done|simpl; by auto|exact Hcpu|by left|].
    exists c0. split; [done|]. split; [done|]. simpl.
    split; [lia|]. replace (noff c - 1) with (noff c0) by lia.
    destruct (Z.eqb_spec (noff c0) 0) as [E|E]; simpl.
    + rewrite Hint by done. by destruct (sie c0).
    + rewrite Hok1 by lia. done.
Qed.

Lemma hart_step_done i s s' : hart_step i s = Done (tt, s') -> exists h, harts s !! i = Some h.
Proof. unfold hart_step. rewrite bind_get. destruct (harts s !! i); [eauto|done]. Qed.

Lemma step_inv cs s s' : inv cs s -> step s s' -> inv cs s'.
Proof.
  intros HI Hst. destruct Hst as [i s0 s1 HE]. destruct (hart_step_done _ _ _ HE) as [h Hi].
  destruct (hart_step_inv cs s0 i h HI Hi) as (s2 & HE2 & HI2). congruence.
Qed.

Lemma reachable_inv cs s0 s : initial cs s0 -> steps s0 s -> inv cs s.
Proof.
  intros H0 Hs. apply initial_inv in H0.
  induction Hs as [|x y z Hxy _ IH]; [done|]. by eapply IH, step_inv.
Qed.

(** The owner's own steps free the lock. *)
Fixpoint run (k : nat) (i : nat) (s : state) : result (unit * state) :=
  match k with O => Done (tt, s) | S k => bind (hart_step i) (fun _ => run k i) s end.

Definition rank (p : pc) : nat :=
  match p with Got => 6 | In => 5 | Un1 => 4 | Un2 => 3 | UnCpu => 2 | UnRel => 1 | _ => 0 end.

Lemma owner_step cs s i h :
  inv cs s -> harts s !! i = Some h -> owns (at_ h) = true ->
  exists s' h', hart_step i s = Done (tt, s') /\ inv cs s' /\ harts s' !! i = Some h' /\
    rank (at_ h) = S (rank (at_ h')) /\ (rank (at_ h') = 0%nat -> locked (lk s') = 0) /\
    (rank (at_ h') <> 0%nat -> owns (at_ h') = true).
Proof.
  intros HI Hi Ho. destruct (hart_step_inv cs s i h HI Hi) as (s' & HE & HI').
  assert (i < length (harts s))%nat as Hlt by (by eapply lookup_lt_Some).
  pose proof HE as HE'. unfold hart_step in HE'. rewrite bind_get, Hi in HE'.
  destruct h as [p c]. cbn [at_] in *.
  destruct p; try done; unfold go, modify in HE'.
  all: try (injection HE' as <-;
    eexists _, _; split; [exact HE|]; split; [done|];
    split; [cbn [harts]; by rewrite list_lookup_insert_eq|done]).
  - destruct (locked (lk s) =? 0); [done|]. injection HE' as <-.
    eexists _, _; split; [exact HE|]; split; [done|];
    split; [cbn [harts]; by rewrite list_lookup_insert_eq|done].
  - destruct (lcpu (lk s) =? Z.of_nat i); [|done]. injection HE' as <-.
    eexists _, _; split; [exact HE|]; split; [done|];
    split; [cbn [harts]; by rewrite list_lookup_insert_eq|done].
  - destruct (pop_off c) as [c'| | | |]; try done. injection HE' as <-.
    eexists _, _; split; [exact HE|]; split; [done|];
    split; [cbn [harts]; by rewrite list_lookup_insert_eq|done].
Qed.

Lemma owner_releases cs k : forall s i h,
  inv cs s -> harts s !! i = Some h -> owns (at_ h) = true -> rank (at_ h) = k ->
  exists s', run k i s = Done (tt, s') /\ locked (lk s') = 0.
Proof.
  induction k as [|k IH]; intros s i h HI Hi Ho Hk; [by destruct (at_ h)|].
  destruct (owner_step cs s i h HI Hi Ho) as (s' & h' & HE & HI' & Hi' & Hr & H0 & H1).
  cbn [run]. rewrite (bind_done _ _ _ _ _ HE). destruct k as [|k].
  - exists s'. split; [done|]. apply H0. lia.
  - apply (IH s' i h'); [done|done|apply H1; lia|lia].
Qed.

End SpinProofs.

Module SleepProofs.
Import Sleep.

(** The holder is the task [pid] names; a task sleeps only while somebody
    holds the lock. *)
Record inv (s : lm_sleeplock_t) : Prop := {
  inv_holder : forall t, tasks s !! t = Some Holder <-> locked s <> 0 /\ pid s = t;
  inv_locked : locked s = 0 \/ locked s = 1;
  inv_asleep : forall t, tasks s !! t = Some Asleep -> locked s = 1
}.

Lemma wake_lookup me ts t :
  wake me ts !! t =
    (fun x => if decide (t = me) then x else match x with Asleep => Awake | x => x end) <$> ts !! t.
Proof. unfold wake. rewrite map_lookup_imap. by destruct (ts !! t). Qed.

Lemma sleep_initial_inv s : initial s -> inv s.
Proof.
  intros [H0 Hi]. split.
  - intros t. split; [intros Ht; by specialize (Hi _ _ Ht)|]. rewrite H0. by intros [].
  - by left.
  - intros t Ht. by specialize (Hi _ _ Ht).
Qed.

Lemma loop_inv t s :
  inv s -> (tasks s !! t = Some Idle \/ tasks s !! t = Some Awake) ->
  exists s', sleeplock_loop t s = Done (tt, s') /\ inv s'.
Proof.
  intros HI Ht. unfold sleeplock_loop. rewrite bind_get.
  destruct (Z.eqb_spec (locked s) 0) as [E|E]; cbn [negb]; unfold put; eexists;
    (split; [reflexivity|]); split; cbn [locked pid tasks].
  - intros u. destruct (decide (u = t)) as [->|Hne].
    + rewrite lookup_insert_eq. done.
    + rewrite lookup_insert_ne by done. rewrite (inv_holder _ HI). rewrite E. split; [by intros []|].
      by intros [_ ->].
  - by right.
  - done.
  - intros u. destruct (decide (u = t)) as [->|Hne].
    + rewrite lookup_insert_eq. split; [done|]. intros Hp%(inv_holder _ HI).
      destruct Ht; congruence.
    + rewrite lookup_insert_ne by done. apply (inv_holder _ HI).
  - apply HI.
  - intros u _. by destruct (inv_locked _ HI).
Qed.

Lemma enter_inv t s :
  inv s -> tasks s !! t = Some Idle -> exists s', lm_sleeplock t s = Done (tt, s') /\ inv s'.
Proof.
  intros HI Ht. unfold lm_sleeplock. rewrite bind_get.
  destruct ((locked s =? 1) && (pid s =? t)) eqn:E; [|apply loop_inv; by auto].
  exfalso. apply andb_prop in E as [E1%Z.eqb_eq E2%Z.eqb_eq].
  assert (tasks s !! t = Some Holder) by (apply (inv_holder _ HI); split; [lia|done]). congruence.
Qed.

Lemma unlock_inv t s :
  inv s -> tasks s !! t = Some Holder -> exists s', lm_sleepunlock t s = Done (tt, s') /\ inv s'.
Proof.
  intros HI Ht. pose proof Ht as [Hl Hp]%(inv_holder _ HI).
  unfold lm_sleepunlock. rewrite bind_get.
  rewrite (proj2 (Z.eqb_neq _ 0)), (proj2 (Z.eqb_eq (pid s) t)) by done. cbn [negb orb].
  eexists. split; [reflexivity|].
  assert (forall u x, wake t (<[t := Idle]> (tasks s)) !! u = Some x -> x <> Holder /\ x <> Asleep) as Hw.
  { intros u x. rewrite wake_lookup. destruct (decide (u = t)) as [->|Hne].
    - rewrite lookup_insert_eq. by intros [= <-].
    - rewrite lookup_insert_ne by done. destruct (tasks s !! u) as [y|] eqn:Hu; [|done].
      intros [= <-]. destruct y; try done.
      apply (inv_holder _ HI) in Hu as [_ Hu]. congruence. }
  split; cbn [locked pid tasks].
  - intros u. split; [intros [? ?]%Hw; done|by intros []].
  - by left.
  - intros u [? ?]%Hw. done.
Qed.

Lemma sleep_reachable_inv s0 s : initial s0 -> rtc step s0 s -> inv s.
Proof.
  intros H0 Hs. apply sleep_initial_inv in H0. induction Hs as [|x y z Hxy _ IH]; [done|].
  apply IH. destruct Hxy as [t x y Ht HE|t x y Ht HE|t x y Ht HE].
  - destruct (enter_inv t x H0 Ht) as (y' & HE' & HI). congruence.
  - destruct (loop_inv t x H0) as (y' & HE' & HI); [by auto|]. congruence.
  - destruct (unlock_inv t x H0 Ht) as (y' & HE' & HI). congruence.
Qed.

End SleepProofs.

Module SemProofs.
Import Sem.

Lemma queue_frame h h' pv p l :
  queue h pv p l -> (forall a, a ∈ l.*1 -> h' !! a = h !! a) -> queue h' pv p l.
Proof.
  revert pv p. induction l as [|[a t] l IH]; intros pv p; simpl; [done|].
  intros (-> & Ha & Hh & Hq) Hf. split_and!; [done|done| |].
  - rewrite Hf; [done|]. by left.
  - apply IH; [done|]. intros b Hb. apply Hf. by right.
Qed.

Lemma queue_nz h pv p l a : queue h pv p l -> a ∈ l.*1 -> a <> 0 /\ is_Some (h !! a).
Proof.
  revert pv p. induction l as [|[b t] l IH]; intros pv p; simpl; [by intros _ ?%elem_of_nil|].
  intros (-> & Ha & Hh & Hq) [->|Hin]%elem_of_cons; [by eauto|]. by eapply IH.
Qed.

Lemma queue_head h pv p l : queue h pv p l -> p = match l with [] => 0 | (b, _) :: _ => b end.
Proof. destruct l as [|[b t] l]; simpl; [done|]. by intros []. Qed.

(** A new node in front of the queue. *)
Lemma queue_push h p l a t :
  NoDup l.*1 -> queue h 0 p l -> a <> 0 -> a ∉ l.*1 ->
  match l with
  | [] => queue (<[a := mkTl t p 0]> h) 0 a [(a, t)]
  | (b, u) :: _ => forall n, h !! b = Some n ->
      queue (<[b := mkTl (tl_task n) (tl_next n) a]> (<[a := mkTl t p 0]> h)) 0 a ((a, t) :: l)
  end.
Proof.
  destruct l as [|[b u] l]; simpl.
  - intros _ -> Ha _. by rewrite lookup_insert_eq.
  - intros [Hb Hnd]%NoDup_cons (-> & Hb0 & Hh & Hq) Ha [Hab Hal]%not_elem_of_cons n Hn.
    rewrite Hn in Hh. injection Hh as ->. simpl.
    rewrite lookup_insert_ne by done. rewrite !lookup_insert_eq. split_and!; try done.
    eapply queue_frame; [exact Hq|]. intros c Hc.
    rewrite !lookup_insert_ne by (intros ->; done). done.
Qed.

Lemma queue_last h pv p l a t :
  queue h pv p (l ++ [(a, t)]) ->
  h !! a = Some (mkTl t 0 (default pv (last l.*1))) /\ a <> 0.
Proof.
  revert pv p. induction l as [|[b u] l IH]; intros pv p; cbn [app queue].
  - intros (-> & Ha & Hh & _). by split.
  - intros (-> & Hb & Hh & Hq). apply IH in Hq as [Hq Ha]. split; [|done]. rewrite Hq.
    rewrite fmap_cons, last_cons. simpl. by destruct (last l.*1).
Qed.

(** The last node unlinked. *)
Lemma queue_pop h pv p l b u a t n :
  NoDup (l ++ [(b, u); (a, t)]).*1 -> queue h pv p (l ++ [(b, u); (a, t)]) -> h !! b = Some n ->
  queue (delete a (<[b := mkTl (tl_task n) 0 (tl_prev n)]> h)) pv p (l ++ [(b, u)]).
Proof.
  revert pv p. induction l as [|[c w] l IH]; intros pv p; simpl.
  - intros [Hba _]%NoDup_cons (-> & Hb & Hh & _) Hn. rewrite Hn in Hh. injection Hh as ->. simpl.
    assert (a <> b) by (intros ->; apply Hba; by left).
    rewrite lookup_delete_ne by done. by rewrite lookup_insert_eq.
  - intros [Hc Hnd]%NoDup_cons (-> & Hc0 & Hh & Hq) Hn. rewrite fmap_app in Hc. simpl in Hc.
    assert (a <> c /\ b <> c) as [Hac Hbc]
      by (split; intros ->; apply Hc; apply elem_of_app; right; set_solver).
    rewrite lookup_delete_ne, lookup_insert_ne by done.
    replace (match l ++ [(b, u)] with [] => 0 | (b0, _) :: _ => b0 end)
      with (match l ++ [(b, u); (a, t)] with [] => 0 | (b0, _) :: _ => b0 end)
      by (by destruct l as [|[d x] l]).
    split_and!; try done. by apply IH.
Qed.

Lemma sem_rd_bind {A B} (f : task_list -> A) p n (K : A -> M semophore_t B) s :
  nodes s !! p = Some n -> bind (rd f p) K s = K (f n) s.
Proof. intros H. unfold bind, rd. by rewrite H. Qed.

Lemma lm_P_spec `{!NodeAlloc task_list} t s v ws :
  sem_view s v ws -> - 2 ^ 31 < v < 2 ^ 31 ->
  exists s', lm_P t s = Done (tt, s') /\ sem_view s' (v - 1) (if v <=? 0 then t :: ws else ws) /\
             tasks s' = (if v <=? 0 then <[t := SLEEPING]> (tasks s) else tasks s).
Proof.
  intros (l & <- & Hnd & Hq & Htl & Hv & Hlen) Hr. unfold lm_P.
  rewrite !bind_gets, Hv. unfold set_value. rewrite bind_modify, bind_gets. cbn [value].
  replace (s32 (v - 1)) with (v - 1) by (unfold s32; rewrite Z.mod_small; lia).
  rewrite length_fmap in Hlen.
  destruct (Z.leb_spec v 0) as [Hv0|Hv0].
  - rewrite (proj2 (Z.ltb_lt (v - 1) 0)) by lia. rewrite !bind_gets. cbn [nodes head].
    set (a := mem_malloc (nodes s)).
    pose proof (mem_malloc_pos (nodes s)) as Hpos. fold a in Hpos.
    assert (a ∉ l.*1) as Hfresh.
    { intros Hin. destruct (queue_nz _ _ _ _ _ Hq Hin) as [_ [n Hn]].
      unfold a in Hn. by rewrite mem_malloc_fresh in Hn. }
    unfold set_node. rewrite bind_modify. cbn [value head tail nodes tasks].
    pose proof (queue_push (nodes s) (head s) l a t Hnd Hq ltac:(lia) Hfresh) as Hpush.
    pose proof (queue_head _ _ _ _ Hq) as Hhd.
    destruct l as [|[b u] l].
    + rewrite Hhd. cbn [Z.eqb negb]. unfold set_tail, set_head, set_state.
      rewrite !bind_modify. cbn [value head tail nodes tasks].
      eexists. split; [reflexivity|]. split; [|done].
      exists [(a, t)]. cbn [value head tail nodes tasks].
      split; [done|]. split; [by apply NoDup_singleton|]. split; [by rewrite Hhd in Hpush|].
      split; [done|]. split; [done|]. simpl in *. lia.
    + destruct (queue_nz _ _ _ _ b Hq) as [Hb [n Hn]]; [by left|].
      rewrite Hhd. rewrite (proj2 (Z.eqb_neq b 0)) by done. cbn [negb].
      assert (a <> b) as Hab by (intros ->; apply Hfresh; by left).
      unfold set_prev, wr. unfold bind at 1. cbn [nodes value head tail tasks].
      rewrite lookup_insert_ne, Hn by done.
      unfold set_head, set_state. rewrite !bind_modify. cbn [value head tail nodes tasks].
      eexists. split; [reflexivity|]. split; [|done].
      exists ((a, t) :: (b, u) :: l). cbn [value head tail nodes tasks].
      split; [done|]. split; [apply NoDup_cons; by split|]. split; [rewrite Hhd in Hpush; by apply Hpush|].
      split; [intros _; by rewrite Htl|]. split; [done|]. simpl length in *. rewrite length_fmap. lia.
  - rewrite (proj2 (Z.ltb_ge (v - 1) 0)) by lia. eexists. split; [reflexivity|]. split; [|done].
    exists l. cbn [value head tail nodes tasks]. split_and!; try done. rewrite length_fmap. lia.
Qed.

Lemma lm_V_spec s v ws :
  sem_view s v ws -> - 2 ^ 31 <= v < 2 ^ 31 - 1 ->
  exists s', lm_V s = Done (tt, s') /\
    if v <? 0
    then exists ws' t, ws = ws' ++ [t] /\ sem_view s' (v + 1) ws' /\
                       tasks s' = <[t := RUNNABLE]> (tasks s)
    else sem_view s' (v + 1) ws /\ tasks s' = tasks s.
Proof.
  intros (l & <- & Hnd & Hq & Htl & Hv & Hlen) Hr. unfold lm_V.
  rewrite !bind_gets, Hv. unfold set_value. rewrite bind_modify, bind_gets. cbn [value].
  replace (s32 (v + 1)) with (v + 1) by (unfold s32; rewrite Z.mod_small; lia).
  rewrite length_fmap in Hlen.
  destruct (Z.ltb_spec v 0) as [Hv0|Hv0].
  - rewrite (proj2 (Z.leb_le (v + 1) 0)) by lia. rewrite bind_gets. cbn [tail].
    destruct l as [|[a t] l _] using rev_ind; [simpl in Hlen; lia|].
    rewrite Htl by (by destruct l). rewrite fmap_app, last_app. cbn [fmap list_fmap last default].
    destruct (queue_last _ _ _ _ _ _ Hq) as [Ha Ha0].
    do 2 (erewrite sem_rd_bind by (cbn [nodes]; exact Ha)).
    rewrite length_app in Hlen. simpl in Hlen.
    destruct l as [|[b u] l _] using rev_ind.
    + unfold set_tail, set_head, mem_free, set_state. cbn [tl_prev last fmap list_fmap default Z.eqb].
      rewrite !bind_modify. eexists. split; [reflexivity|]. exists [], t.
      split; [done|]. split; [|done]. exists []. cbn [value head tail nodes tasks].
      split_and!; try done; [constructor|simpl in *; lia].
    + rewrite <- app_assoc in Hq, Hnd. simpl in Hq, Hnd.
      destruct (queue_nz _ _ _ _ b Hq) as [Hb [n Hn]]; [rewrite fmap_app; set_solver|].
      assert (default 0 (last (l ++ [(b, u)]).*1) = b) as Hlast by (by rewrite fmap_app, last_app).
      cbn [tl_prev tl_task]. rewrite Hlast. unfold set_tail. rewrite bind_modify. rewrite (proj2 (Z.eqb_neq b 0)) by done.
      unfold set_next, wr. unfold bind at 1. cbn [nodes value head tail tasks]. rewrite Hn.
      unfold mem_free, set_state. rewrite bind_modify. cbn [value head tail nodes tasks].
      eexists. split; [reflexivity|]. exists (l ++ [(b, u)]).*2, t.
      split; [by rewrite !fmap_app|]. split; [|done].
      exists (l ++ [(b, u)]). cbn [value head tail nodes tasks]. split_and!; try done.
      * replace (l ++ [(b, u); (a, t)]) with ((l ++ [(b, u)]) ++ [(a, t)]) in Hnd
          by (by rewrite <- app_assoc).
        rewrite fmap_app in Hnd. by apply NoDup_app in Hnd as [Hnd _].
      * by eapply queue_pop.
      * rewrite length_fmap. rewrite length_app in *. simpl in *. lia.
  - rewrite (proj2 (Z.leb_gt (v + 1) 0)) by lia. eexists. split; [reflexivity|]. split; [|done].
    exists l. cbn [value head tail nodes tasks]. split_and!; try done. rewrite length_fmap. lia.
Qed.

End SemProofs.
