(* ===== verification/LockTheorems.v ===== *)
(** * What lock.c guarantees *)
From S2P Require Import Prelude Lock LockProofs.

(** any number of [push_off]s turn interrupts off, and as many
    [pop_off]s put depth and interrupt flag back, whatever they were. *)
Theorem push_pop_nesting n c :
  Spin.cpu_ok c ->
  exists c', pops n (pushes n c) = Done c' /\ noff c' = noff c /\ sie c' = sie c /\
             ((0 < n)%nat -> sie (pushes n c) = false).
Proof.
  intros Hc.
  assert (forall k c', Spin.cpu_ok c' -> pops (S k) (push_off c') =
            match pop_off (push_off c') with Done d => pops k d | Panic m => Panic m
                                           | Fault => Fault | NoFuel => NoFuel
                                           | Blocked => Blocked end) as Hs
    by done.
  assert (exists c', pops n (pushes n c) = Done c' /\ noff c' = noff c /\ sie c' = sie c)
    as (c' & H1 & H2 & H3).
  { destruct n as [|n]; [by exists c|].
    induction n as [|n IH].
    - destruct (push_pop c Hc) as (c' & HE & Hn & Hi & _). exists c'. simpl. by rewrite HE.
    - change (pushes (S (S n)) c) with (push_off (pushes (S n) c)).
      rewrite Hs by (by apply pushes_ok).
      destruct (push_pop (pushes (S n) c)) as (c' & HE & _ & _ & Heq); [by apply pushes_ok|].
      rewrite HE, Heq; [exact IH|]. rewrite pushes_noff. destruct Hc. lia. }
  exists c'. split_and!; try done. destruct n; [lia|done].
Qed.

(** C12: from any start with the lock free, under every interleaving of the
    harts' steps, at most one hart is between the swap that returned 0 and the
    store that frees the lock; that hart runs with its interrupts off and
    [holding] tells it so; and no routine panics. *)
Theorem spin_mutual_exclusion cs s0 s i j h k :
  Spin.initial cs s0 -> Spin.steps s0 s ->
  Spin.harts s !! i = Some h -> Spin.harts s !! j = Some k ->
  Spin.owns (Spin.at_ h) = true ->
  (Spin.owns (Spin.at_ k) = true -> i = j) /\ sie (Spin.hcpu h) = false /\
  (Spin.at_ h = Spin.In -> Spin.holding (Spin.lk s) (Z.of_nat i) = true /\
                           Spin.check_lock (Spin.lk s) (Z.of_nat i) = 0) /\
  (exists s', Spin.hart_step j s = Done (tt, s')).
Proof.
  intros H0 Hs Hi Hj Ho. pose proof (SpinProofs.reachable_inv _ _ _ H0 Hs) as HI.
  split; [|split; [|split]].
  - intros Hk. by eapply (SpinProofs.inv_one _ _ HI).
  - destruct (SpinProofs.inv_hart _ _ HI i h Hi) as (c0 & _ & _ & H).
    destruct (Spin.at_ h); try done; by destruct H as (_ & ? & _).
  - intros Hin. pose proof (SpinProofs.inv_cpu _ _ HI i h Hi) as [_ Hc]. rewrite Hin in Hc.
    assert (Spin.locked (Spin.lk s) <> 0).
    { intros E. pose proof (SpinProofs.inv_free _ _ HI E i h Hi). congruence. }
    assert (Spin.holding (Spin.lk s) (Z.of_nat i) = true) as Hh.
    { unfold Spin.holding. rewrite Hc by done. rewrite Z.eqb_refl.
      by rewrite (proj2 (Z.eqb_neq _ 0)). }
    split; [done|]. unfold Spin.check_lock. by rewrite Hh.
  - destruct (SpinProofs.hart_step_inv _ _ j k HI Hj) as (s' & HE & _). eauto.
Qed.

(** a hart that is back outside has the interrupt state and the
    [push_off] depth that it started with. *)
Theorem spin_restores_interrupts cs s0 s i h c0 :
  Spin.initial cs s0 -> Spin.steps s0 s -> Spin.harts s !! i = Some h -> cs !! i = Some c0 ->
  Spin.at_ h = Spin.Out -> sie (Spin.hcpu h) = sie c0 /\ noff (Spin.hcpu h) = noff c0.
Proof.
  intros H0 Hs Hi Hc Hout. pose proof (SpinProofs.reachable_inv _ _ _ H0 Hs) as HI.
  destruct (SpinProofs.inv_hart _ _ HI i h Hi) as (c1 & Hc1 & _ & H). rewrite Hout in H.
  rewrite Hc in Hc1. injection Hc1 as <-. destruct H. by split.
Qed.

(** the lock is never lost: while it is taken there is an owner, and at
    most six steps of that owner alone free it; while it is free, a spinning
    hart's next step takes it. *)
Theorem spin_progress cs s0 s :
  Spin.initial cs s0 -> Spin.steps s0 s ->
  if Spin.locked (Spin.lk s) =? 0
  then forall i c, Spin.harts s !! i = Some (Spin.mkHart Spin.Spinning c) ->
       exists s', Spin.hart_step i s = Done (tt, s') /\
                  Spin.harts s' !! i = Some (Spin.mkHart Spin.Got c)
  else exists i n s', (n <= 6)%nat /\ SpinProofs.run n i s = Done (tt, s') /\
                      Spin.locked (Spin.lk s') = 0.
Proof.
  intros H0 Hs. pose proof (SpinProofs.reachable_inv _ _ _ H0 Hs) as HI.
  destruct (Z.eqb_spec (Spin.locked (Spin.lk s)) 0) as [E|E].
  - intros i c Hi. unfold Spin.hart_step. rewrite bind_get, Hi, E.
    eexists. split; [reflexivity|]. simpl. rewrite list_lookup_insert_eq; [done|].
    by eapply lookup_lt_Some.
  - destruct (SpinProofs.inv_held _ _ HI E) as (_ & i & h & Hi & Ho).
    destruct (SpinProofs.owner_releases cs _ s i h HI Hi Ho eq_refl) as (s' & HE & Hl).
    exists i, (SpinProofs.rank (Spin.at_ h)), s'. split_and!; [|done|done].
    destruct (Spin.at_ h); simpl; lia.
Qed.

(** C13: the sleep lock has at most one holder, the task [pid] names; nobody
    sleeps on a free lock (no wake-up is lost); and the calls of tasks that
    do not hold it twice never panic. *)
Theorem sleeplock_correct s0 s :
  Sleep.initial s0 -> rtc Sleep.step s0 s ->
  (forall t, Sleep.tasks s !! t = Some Sleep.Holder <->
             Sleep.lm_holdingsleep t s = Done (true, s)) /\
  (forall t u, Sleep.tasks s !! t = Some Sleep.Holder ->
               Sleep.tasks s !! u = Some Sleep.Holder -> t = u) /\
  (forall t, Sleep.tasks s !! t = Some Sleep.Asleep ->
             exists u, Sleep.tasks s !! u = Some Sleep.Holder) /\
  (forall t, match Sleep.tasks s !! t with
             | Some Sleep.Idle => exists s', Sleep.lm_sleeplock t s = Done (tt, s')
             | Some Sleep.Holder => exists s', Sleep.lm_sleepunlock t s = Done (tt, s')
             | _ => True
             end).
Proof.
  intros H0 Hs. pose proof (SleepProofs.sleep_reachable_inv _ _ H0 Hs) as HI.
  split; [|split; [|split]].
  - intros t. rewrite (SleepProofs.inv_holder _ HI). unfold Sleep.lm_holdingsleep, gets. split.
    + intros [Hl <-]. rewrite Z.eqb_refl. by rewrite (proj2 (Z.eqb_neq _ 0)).
    + intros H. injection H as H. apply andb_prop in H as [H1 H2]. lia.
  - intros t u Ht%(SleepProofs.inv_holder _ HI) Hu%(SleepProofs.inv_holder _ HI).
    destruct Ht, Hu. congruence.
  - intros t Ht%(SleepProofs.inv_asleep _ HI). exists (Sleep.pid s).
    apply (SleepProofs.inv_holder _ HI). split; [lia|done].
  - intros t. destruct (Sleep.tasks s !! t) as [[]|] eqn:Ht; try done.
    + destruct (SleepProofs.enter_inv t s HI Ht) as (s' & HE & _). eauto.
    + destruct (SleepProofs.unlock_inv t s HI Ht) as (s' & HE & _). eauto.
Qed.

(** C14: [lm_P] and [lm_V] refine a counting semaphore with a first-in
    first-out queue: [P] at a count of zero or less puts the caller to sleep
    at the back, [V] at a negative count wakes the task that has waited
    longest; the doubly linked list in memory stays well formed. *)
Theorem semaphore_refines_fifo `{!NodeAlloc Sem.task_list} s v ws t :
  Sem.sem_view s v ws -> - 2 ^ 31 < v < 2 ^ 31 - 1 ->
  (exists s', Sem.lm_P t s = Done (tt, s') /\
     Sem.sem_view s' (v - 1) (if v <=? 0 then t :: ws else ws) /\
     Sem.tasks s' = (if v <=? 0 then <[t := Sem.SLEEPING]> (Sem.tasks s) else Sem.tasks s)) /\
  (exists s', Sem.lm_V s = Done (tt, s') /\
     if v <? 0
     then exists ws' u, ws = ws' ++ [u] /\ Sem.sem_view s' (v + 1) ws' /\
                        Sem.tasks s' = <[u := Sem.RUNNABLE]> (Sem.tasks s)
     else Sem.sem_view s' (v + 1) ws /\ Sem.tasks s' = Sem.tasks s).
Proof.
  intros Hv Hr. split.
  - apply SemProofs.lm_P_spec; [done|lia].
  - apply SemProofs.lm_V_spec; [done|lia].
Qed.

(** ** Concrete runs *)

Definition demo_cpus : list cpu := [mkCpu 0 false true; mkCpu 0 false true].
Definition demo_spin : Spin.state := Spin.mkState Spin.lm_lockinit (Spin.mkHart Spin.Out <$> demo_cpus).

Lemma demo_initial : Spin.initial demo_cpus demo_spin.
Proof. split; [done|]. repeat constructor; simpl; lia. Qed.

(** Hart 0 takes the lock while hart 1 spins. *)
Definition demo_trace : list nat := [0; 1; 0; 1; 0; 0; 1]%nat.
Definition run_trace (l : list nat) (s : Spin.state) : result (unit * Spin.state) :=
  fold_left (fun r i => match r with Done (_, s) => Spin.hart_step i s | r => r end) l (Done (tt, s)).
Definition demo_held : Spin.state :=
  match run_trace demo_trace demo_spin with Done (_, s) => s | _ => demo_spin end.

Lemma run_trace_steps l s r :
  run_trace l s = Done (tt, r) -> Spin.steps s r.
Proof.
  revert s. unfold run_trace. induction l as [|i l IH]; intros s; simpl.
  - intros [= <-]. constructor.
  - destruct (Spin.hart_step i s) as [[[] s']| | | |] eqn:HE.
    + intros H. econstructor; [by econstructor|]. by apply IH.
    + clear. intros H. exfalso. by induction l.
    + clear. intros H. exfalso. by induction l.
    + clear. intros H. exfalso. by induction l.
    + clear. intros H. exfalso. by induction l.
Qed.

Lemma demo_steps : Spin.steps demo_spin demo_held.
Proof. apply (run_trace_steps demo_trace). by vm_compute. Qed.

(** An allocator that takes the address after the highest one in use. *)
Definition next_addr {A} (h : gmap Z A) : Z := map_fold (fun k _ m => Z.max (k + 1) m) 1 h.

Lemma next_addr_above {A} (h : gmap Z A) : 1 <= next_addr h /\ forall k, is_Some (h !! k) -> k < next_addr h.
Proof.
  unfold next_addr. apply (map_fold_weak_ind (fun m h => 1 <= m /\ forall k, is_Some (h !! k) -> k < m)).
  - split; [lia|]. intros k [x Hx]. by rewrite lookup_empty in Hx.
  - intros i x h' m Hi [H1 IH]. split; [lia|]. intros k. destruct (decide (k = i)) as [->|Hne].
    + lia.
    + rewrite lookup_insert_ne by done. intros Hk%IH. lia.
Qed.

#[export] Instance next_alloc A : NodeAlloc A.
Proof.
  refine {| mem_malloc := next_addr |}.
  - intros h. destruct (h !! next_addr h) as [x|] eqn:E; [|done]. exfalso.
    destruct (next_addr_above h) as [_ H]. specialize (H (next_addr h)). rewrite E in H.
    specialize (H ltac:(eauto)). lia.
  - intros h. destruct (next_addr_above h). lia.
Defined.

Lemma push_pop_nesting_witness :
  exists c', pops 3 (pushes 3 (mkCpu 0 false true)) = Done c' /\ sie c' = true.
Proof.
  destruct (push_pop_nesting 3 (mkCpu 0 false true)) as (c' & H1 & _ & H2 & _).
  - split; simpl; lia.
  - exists c'. split; [exact H1|exact H2].
Defined.

Lemma spin_mutual_exclusion_witness :
  (Spin.owns Spin.Spinning = true -> 0%nat = 1%nat) /\
  Spin.locked (Spin.lk demo_held) = 1.
Proof.
  split; [|reflexivity].
  exact (proj1 (spin_mutual_exclusion demo_cpus demo_spin demo_held 0 1
    (Spin.mkHart Spin.In (mkCpu 1 true false)) (Spin.mkHart Spin.Spinning (mkCpu 1 true false))
    demo_initial demo_steps eq_refl eq_refl eq_refl)).
Defined.

Lemma spin_restores_interrupts_witness :
  sie (mkCpu 0 false true) = true /\ noff (mkCpu 0 false true) = 0.
Proof.
  exact (spin_restores_interrupts demo_cpus demo_spin demo_spin 0
    (Spin.mkHart Spin.Out (mkCpu 0 false true)) (mkCpu 0 false true)
    demo_initial (rtc_refl _ _) eq_refl eq_refl eq_refl).
Defined.

Lemma spin_progress_witness :
  exists i n s', (n <= 6)%nat /\ SpinProofs.run n i demo_held = Done (tt, s') /\
                 Spin.locked (Spin.lk s') = 0.
Proof. exact (spin_progress demo_cpus demo_spin demo_held demo_initial demo_steps). Defined.

Definition demo_sleep0 : Sleep.lm_sleeplock_t :=
  Sleep.lm_sleeplockinit (<[1 := Sleep.Idle]> (<[2 := Sleep.Idle]> ∅)).
Definition demo_sleep : Sleep.lm_sleeplock_t :=
  Sleep.mkSleep 1 1 (<[1 := Sleep.Holder]> (Sleep.tasks demo_sleep0)).

Lemma sleeplock_correct_witness : Sleep.lm_holdingsleep 1 demo_sleep = Done (true, demo_sleep).
Proof.
  apply (sleeplock_correct demo_sleep0 demo_sleep).
  - split; [reflexivity|]. repeat apply map_Forall_insert_2; done.
  - apply rtc_once. apply (Sleep.step_enter 1); reflexivity.
  - reflexivity.
Defined.

Definition demo_sem : Sem.semophore_t :=
  Sem.mkSem (-1) 5 5 (<[5 := Sem.mkTl 7 0 0]> ∅) (<[7 := Sem.SLEEPING]> ∅).

Lemma semaphore_refines_fifo_witness :
  exists s', Sem.lm_P (NodeAlloc0 := next_alloc _) 8 demo_sem = Done (tt, s') /\
             Sem.sem_view s' (-2) [8; 7].
Proof.
  destruct (semaphore_refines_fifo demo_sem (-1) [7] 8) as [(s' & H1 & H2 & _) _].
  - exists [(5, 7)]. split; [reflexivity|]. split; [apply NoDup_singleton|].
    split; [simpl; split_and!; done|]. by split_and!.
  - lia.
  - exists s'. split; [exact H1|exact H2].
Defined.
