(* ===== verification/Console.v ===== *)
(** * The console: console.c

    The line discipline on a ring of 128 bytes with three free-running 32-bit
    indices: [r] for the reader, [w] for the end of the finished lines, [e] for
    the end of the line being typed.  [out] is what goes to the serial port,
    [wakes] counts the wake-ups of the reader. *)
From S2P Require Import Prelude.

Definition INPUT_BUF_SIZE : Z := 128.
Definition BACKSPACE : Z := 256.
(** [C(x)], control-x. *)
Definition C (x : Z) : Z := x - 64.

Record cons_t : Type := mkCons {
  buf : list Z;
  r : Z;
  w : Z;
  e : Z;
  out : list Z;
  wakes : Z
}.

Definition uart_putc (c : Z) : M cons_t unit :=
  modify (fun s => mkCons (buf s) (r s) (w s) (e s) (out s ++ [u8 c]) (wakes s)).
Definition consputc (c : Z) : M cons_t unit :=
  if c =? BACKSPACE then uart_putc 8;;; uart_putc 32;;; uart_putc 8 else uart_putc c.

Definition set_r (v : Z) : M cons_t unit :=
  modify (fun s => mkCons (buf s) (u32 v) (w s) (e s) (out s) (wakes s)).
Definition set_w (v : Z) : M cons_t unit :=
  modify (fun s => mkCons (buf s) (r s) (u32 v) (e s) (out s) (wakes s)).
Definition set_e (v : Z) : M cons_t unit :=
  modify (fun s => mkCons (buf s) (r s) (w s) (u32 v) (out s) (wakes s)).
Definition wakeup : M cons_t unit :=
  modify (fun s => mkCons (buf s) (r s) (w s) (e s) (out s) (wakes s + 1)).
Definition buf_get (i : Z) : M cons_t Z := fun s =>
  match arr_get (buf s) (u32 i mod INPUT_BUF_SIZE) with Some c => Done (c, s) | None => Fault end.
Definition buf_set (i c : Z) : M cons_t unit :=
  modify (fun s => mkCons (arr_set (buf s) (u32 i mod INPUT_BUF_SIZE) (u8 c))
                          (r s) (w s) (e s) (out s) (wakes s)).

(** The loop of control-u. *)
Fixpoint kill_loop (fuel : nat) : M cons_t unit :=
  match fuel with
  | O => nofuel
  | S fuel =>
    s <- get;;
    if e s =? w s then ret tt
    else
      c <- buf_get (e s - 1);;
      if c =? 10 then ret tt
      else set_e (e s - 1);;; consputc BACKSPACE;;; kill_loop fuel
  end.

Definition console_intr (c : Z) : M cons_t unit :=
  if c =? C 80 then ret tt       (* procdump prints, and changes nothing *)
  else if c =? C 85 then kill_loop 129
  else if (c =? C 72) || (c =? 127) then
    s <- get;;
    when (negb (e s =? w s)) (set_e (e s - 1);;; consputc BACKSPACE)
  else
    s <- get;;
    when (negb (c =? 0) && (u32 (e s - r s) <? INPUT_BUF_SIZE))
      (let c := if c =? 13 then 10 else c in
       consputc c;;;
       s <- get;; buf_set (e s) c;;; set_e (e s + 1);;;
       s <- get;;
       when ((c =? 10) || (c =? C 68) || (u32 (e s - r s) =? INPUT_BUF_SIZE))
         (set_w (e s);;; wakeup)).

(** What a turn of [console_read] ends in: it returns a count, or it sleeps
    with [dst] and [n] as they are, to go on when it is woken. *)
Inductive turn : Type :=
| Ret (v : Z)
| Sleeps (dst n : Z).

Section Read.
(** Whether [either_copyout] of one byte to the address succeeds, and whether
    the task has been killed. *)
Context (writable : Z -> bool) (killed : bool).

(** The [while(n > 0)] of [console_read]; the result lists the bytes copied
    out, each with its destination. *)
Fixpoint read_loop (fuel : nat) (target dst n : Z) : M cons_t (turn * list (Z * Z)) :=
  match fuel with
  | O => nofuel
  | S fuel =>
    if n =? 0 then ret (Ret (u64 (target - n)), [])
    else
      s <- get;;
      if r s =? w s then
        (if killed then ret (Ret (u64 (-1)), []) else ret (Sleeps dst n, []))
      else
        c <- buf_get (r s);; set_r (r s + 1);;;
        if c =? C 68 then
          (if n <? target then s <- get;; set_r (r s - 1) else ret tt);;;
          ret (Ret (u64 (target - n)), [])
        else if negb (writable dst) then ret (Ret (u64 (target - n)), [])
        else if c =? 10 then ret (Ret (u64 (target - (n - 1))), [(dst, c)])
        else
          '(t, l) <- read_loop fuel target (u64 (dst + 1)) (n - 1);;
          ret (t, (dst, c) :: l)
  end.

Definition console_read (dst n : Z) : M cons_t (turn * list (Z * Z)) :=
  read_loop (S (Z.to_nat n)) (u32 n) dst n.
End Read.

(** [console_write] on the bytes at [src]; [None] is a byte that
    [either_copyin] cannot read. *)
Fixpoint write_loop (src : list (option Z)) (i : Z) : M cons_t Z :=
  match src with
  | [] => ret i
  | None :: _ => ret i
  | Some c :: src => uart_putc c;;; write_loop src (i + 1)
  end.
Definition console_write (src : list (option Z)) : M cons_t Z := write_loop src 0.

(** ** A line editor on lists

    [done] are the finished lines not read yet, [line] the line being typed. *)

Definition editor : Type := list Z * list Z.

Definition type_char (c : Z) (ed : editor) : editor :=
  let '(dn, line) := ed in
  if c =? C 80 then ed
  else if c =? C 85 then (dn, [])
  else if (c =? C 72) || (c =? 127) then (dn, removelast line)
  else if (c =? 0) || (128 <=? Z.of_nat (length dn + length line)) then ed
  else
    let c := if c =? 13 then 10 else c in
    let line := line ++ [c] in
    if (c =? 10) || (c =? C 68) || (Z.of_nat (length dn + length line) =? 128)
    then (dn ++ line, []) else (dn, line).

Fixpoint read_line (writable : Z -> bool) (killed : bool) (target dst n : Z) (dn : list Z)
  : turn * list (Z * Z) * list Z :=
  if n =? 0 then (Ret (u64 (target - n)), [], dn)
  else match dn with
  | [] => ((if killed then Ret (u64 (-1)) else Sleeps dst n), [], [])
  | c :: dn' =>
    if c =? C 68 then (Ret (u64 (target - n)), [], if n <? target then dn else dn')
    else if negb (writable dst) then (Ret (u64 (target - n)), [], dn')
    else if c =? 10 then (Ret (u64 (target - (n - 1))), [(dst, c)], dn')
    else let '(t, l, rest) := read_line writable killed target (u64 (dst + 1)) (n - 1) dn' in
         (t, (dst, c) :: l, rest)
  end.

(** The ring holds [dn] from [r] to [w] and [line] from [w] to [e]. *)
Definition cons_view (s : cons_t) (ed : editor) : Prop :=
  let '(dn, line) := ed in
  length (buf s) = 128%nat /\
  0 <= r s < 2 ^ 32 /\
  w s = u32 (r s + Z.of_nat (length dn)) /\
  e s = u32 (r s + Z.of_nat (length dn + length line)) /\
  Z.of_nat (length dn + length line) <= 128 /\
  (forall i c, (dn ++ line) !! i = Some c ->
     buf s !! Z.to_nat ((r s + Z.of_nat i) mod 128) = Some c) /\
  Forall (fun c => c <> 10) line.
