(* ===== verification/ConsoleProofs.v ===== *)
(** * The console refines a line editor *)
From S2P Require Import Prelude Console.

Lemma u32_eq_small a b k : u32 (a + k) = u32 (a + b) -> 0 <= k < 2 ^ 32 -> 0 <= b < 2 ^ 32 -> k = b.
Proof. unfold u32. intros H Hk Hb. zdiv. Qed.

Lemma u32_sub_small a k : 0 <= k < 2 ^ 32 -> u32 (u32 (a + k) - a) = k.
Proof.
  intros Hk. unfold u32. rewrite Zminus_mod_idemp_l.
  replace (a + k - a) with k by lia. by apply Z.mod_small.
Qed.

Lemma ring_index a : u32 (u32 a) mod INPUT_BUF_SIZE = a mod 128.
Proof.
  rewrite u32_mod; [|by exists (2 ^ 25)|unfold INPUT_BUF_SIZE; lia].
  apply u32_mod; [by exists (2 ^ 25)|lia].
Qed.

Lemma ring_index' a b : u32 (u32 a - b) mod INPUT_BUF_SIZE = (a - b) mod 128.
Proof.
  replace (u32 (u32 a - b)) with (u32 (u32 (a - b))); [apply ring_index|].
  unfold u32. rewrite Zminus_mod_idemp_l. by rewrite Zmod_mod.
Qed.

Lemma ring_ne a i k : 0 <= i < k -> k < 128 -> (a + i) mod 128 <> (a + k) mod 128.
Proof. intros Hi Hk H. zdiv. Qed.

Lemma arr_get_in {A} (l : list A) i x : 0 <= i -> l !! Z.to_nat i = Some x -> arr_get l i = Some x.
Proof. intros Hi H. unfold arr_get. by rewrite (proj2 (Z.ltb_ge i 0)). Qed.

(** Reading the ring at the [k]-th character. *)
Lemma buf_get_bind {B} s dn line i k c (K : Z -> M cons_t B) :
  cons_view s (dn, line) -> (dn ++ line) !! k = Some c ->
  u32 i mod INPUT_BUF_SIZE = (r s + Z.of_nat k) mod 128 ->
  bind (buf_get i) K s = K c s.
Proof.
  intros (_ & _ & _ & _ & _ & Hb & _) Hk Hi. unfold bind, buf_get. rewrite Hi.
  erewrite arr_get_in; [done|zdiv|by apply Hb].
Qed.

(** Moving the edit index back over the last character of the line. *)
Lemma view_back s dn line x o :
  cons_view s (dn, line ++ [x]) ->
  cons_view (mkCons (buf s) (r s) (w s) (u32 (e s - 1)) o (wakes s)) (dn, line).
Proof.
  intros (Hl & Hr & Hw & He & Hn & Hb & Hc). rewrite length_app in *. simpl in *.
  split; [done|]. split; [done|]. split; [done|]. split; [|split; [lia|split]].
  - simpl. rewrite He. unfold u32. rewrite Zminus_mod_idemp_l. f_equal. lia.
  - intros i c Hi. apply Hb. rewrite app_assoc. by apply lookup_app_l_Some.
  - by apply Forall_app in Hc as [Hc _].
Qed.

Lemma view_e_w s dn line :
  cons_view s (dn, line) -> (e s =? w s) = match line with [] => true | _ => false end.
Proof.
  intros (Hl & Hr & Hw & He & Hn & Hb & Hc). rewrite Hw, He, Nat2Z.inj_add, Z.add_assoc.
  destruct line as [|x line]; [rewrite Z.add_0_r; apply Z.eqb_refl|].
  apply Z.eqb_neq. intros E. rewrite <- (Z.add_0_r (r s + Z.of_nat (length dn))) in E at 2.
  apply u32_eq_small in E; simpl in *; lia.
Qed.

Lemma kill_loop_spec fuel s dn line :
  cons_view s (dn, line) -> (length line < fuel)%nat ->
  exists s', kill_loop fuel s = Done (tt, s') /\ cons_view s' (dn, []) /\ wakes s' = wakes s.
Proof.
  revert s fuel. induction line as [|x line IH] using rev_ind; intros s [|fuel] Hv Hf; try lia;
    cbn [kill_loop]; rewrite bind_get, (view_e_w _ _ _ Hv).
  - exists s. done.
  - rewrite length_app in Hf. simpl in Hf.
    assert ((match line ++ [x] with [] => true | _ => false end) = false) as -> by (by destruct line).
    pose proof Hv as (Hl & Hr & Hw & He & Hn & Hb & Hc).
    rewrite (buf_get_bind s dn (line ++ [x]) _ (length dn + length line) x).
    + apply Forall_app in Hc as [_ Hc]. apply Forall_cons in Hc as [Hx _].
      rewrite (proj2 (Z.eqb_neq x 10)) by done.
      unfold set_e, consputc, BACKSPACE, uart_putc. cbn [Z.eqb Pos.eqb]. rewrite bind_modify.
      rewrite !bind_assoc, !bind_modify, bind_assoc, !bind_modify. cbn [buf r w e out wakes].
      destruct (IH (mkCons (buf s) (r s) (w s) (u32 (e s - 1))
        (((out s ++ [u8 8]) ++ [u8 32]) ++ [u8 8]) (wakes s)) fuel) as (s' & HE & HV & HW);
        [by eapply view_back|lia|].
      exists s'. split; [exact HE|]. by split.
    + done.
    + rewrite app_assoc, lookup_app_r by (rewrite length_app; lia).
      rewrite length_app, Nat.sub_diag. done.
    + rewrite He, ring_index'. rewrite length_app. simpl. f_equal. lia.
Qed.

(** Typing one character into the ring. *)
Lemma put_char_view s dn line c o :
  cons_view s (dn, line) -> Z.of_nat (length dn + length line) < 128 -> 0 <= c < 256 ->
  let s' := mkCons (arr_set (buf s) (u32 (e s) mod INPUT_BUF_SIZE) (u8 c)) (r s) (w s)
                   (u32 (e s + 1)) o (wakes s) in
  (c <> 10 -> cons_view s' (dn, line ++ [c])) /\
  cons_view (mkCons (buf s') (r s') (u32 (e s')) (e s') o (wakes s + 1)) (dn ++ line ++ [c], []).
Proof.
  intros (Hl & Hr & Hw & He & Hn & Hb & Hc) Hlt Hch s'.
  assert (forall i x, (dn ++ line ++ [c]) !! i = Some x ->
            buf s' !! Z.to_nat ((r s + Z.of_nat i) mod 128) = Some x) as Hring.
  { intros i x. unfold s', arr_set. cbn [buf]. rewrite He, ring_index.
    rewrite app_assoc. intros [Hi|[Hi Hx]]%lookup_app_Some.
    - rewrite list_lookup_insert_ne; [by apply Hb|]. apply lookup_lt_Some in Hi.
      rewrite length_app in Hi. intros E.
      apply (ring_ne (r s) (Z.of_nat i) (Z.of_nat (length dn + length line))); [lia|lia|zdiv].
    - apply list_lookup_singleton_Some in Hx as [Hx <-].
      rewrite length_app in *. replace i with (length dn + length line)%nat by lia.
      rewrite list_lookup_insert_eq; [by unfold u8; rewrite Z.mod_small by lia|]. rewrite Hl. zdiv. }
  assert (length (buf s') = 128%nat) as Hl' by (unfold s', arr_set; simpl; by rewrite length_insert).
  assert (e s' = u32 (r s + Z.of_nat (length dn + length (line ++ [c])))) as He'.
  { unfold s'. cbn [e]. rewrite He, u32_add. f_equal. rewrite length_app. simpl. lia. }
  assert (Z.of_nat (length dn + length (line ++ [c])) <= 128) as Hn'
    by (rewrite length_app; simpl; lia).
  split.
  - intros Hc10. repeat (split; [done|]). apply Forall_app. split; [done|]. by repeat constructor.
  - split; [done|]. split; [done|]. split; [|split; [|split; [|split]]].
    + cbn [w r]. rewrite He'. unfold u32. rewrite Zmod_mod. f_equal.
      change (r s') with (r s). rewrite !length_app. simpl. lia.
    + cbn [e r]. rewrite He'. change (r s') with (r s). f_equal. rewrite !length_app. simpl. lia.
    + rewrite !length_app in *. simpl in *. lia.
    + cbn [buf r]. change (r s') with (r s). rewrite app_nil_r. exact Hring.
    + constructor.
Qed.

(** C17: the interrupt handler of the console is a line editor: each typed
    character does to the ring what [type_char] does to the lists of finished
    lines and of the line being typed, for all indices, wrap-around included;
    the ring never holds more than its 128 bytes, and the reader is woken
    whenever there is more to read. *)
Theorem console_intr_refines s ed c :
  cons_view s ed -> 0 <= c < 256 ->
  exists s', console_intr c s = Done (tt, s') /\ cons_view s' (type_char c ed) /\
             ((length ed.1 < length (type_char c ed).1)%nat -> wakes s' = wakes s + 1).
Proof.
  destruct ed as [dn line]. intros Hv Hc. unfold console_intr, type_char.
  pose proof Hv as (Hl & Hr & Hw & He & Hn & Hb & Hnl).
  destruct (c =? C 80); [exists s; split; [done|]; split; [done|simpl; lia]|].
  destruct (c =? C 85).
  { destruct (kill_loop_spec 129 s dn line Hv) as (s' & HE & HV & HW); [lia|].
    exists s'. split; [done|]. split; [done|simpl; lia]. }
  destruct ((c =? C 72) || (c =? 127)).
  { rewrite bind_get, (view_e_w _ _ _ Hv). destruct line as [|x line _] using rev_ind.
    - exists s. split; [done|]; split; [done|simpl; lia].
    - assert ((match line ++ [x] with [] => true | _ => false end) = false) as -> by (by destruct line).
      rewrite removelast_last. cbn [negb when].
      unfold set_e, consputc, BACKSPACE, uart_putc. cbn [Z.eqb Pos.eqb].
      rewrite !bind_modify. cbn [buf r w e out wakes].
      eexists. split; [reflexivity|]. split; [|simpl; lia]. by eapply (view_back s dn line x). }
  rewrite bind_get.
  replace (u32 (e s - r s)) with (Z.of_nat (length dn + length line))
    by (rewrite He, u32_sub_small; lia).
  change (Z.ltb (Z.of_nat (length dn + length line)) INPUT_BUF_SIZE)
    with (Z.of_nat (length dn + length line) <? 128).
  rewrite Z.leb_antisym.
  destruct (Z.eqb_spec c 0) as [->|Hc0]; [exists s; split; [done|]; split; [done|simpl; lia]|].
  destruct (Z.ltb_spec (Z.of_nat (length dn + length line)) 128) as [Hlt|Hge];
    [|exists s; split; [done|]; split; [done|simpl; lia]].
  cbn [negb andb orb when]. set (d := if c =? 13 then 10 else c).
  assert (0 <= d < 256) as Hd by (unfold d; destruct (c =? 13); lia).
  assert (consputc d = uart_putc d) as ->.
  { unfold consputc, BACKSPACE. by rewrite (proj2 (Z.eqb_neq d 256)) by lia. }
  unfold uart_putc, buf_set, set_e. rewrite bind_modify, bind_get, !bind_modify, bind_get.
  cbn [buf r w e out wakes].
  destruct (put_char_view s dn line d (out s ++ [u8 d]) Hv Hlt Hd) as [Hput Hcommit].
  replace (u32 (u32 (e s + 1) - r s)) with (Z.of_nat (length dn + length (line ++ [d]))).
  2:{ rewrite He, u32_add. rewrite <- Z.add_assoc, u32_sub_small; rewrite ?length_app; simpl; lia. }
  unfold INPUT_BUF_SIZE. destruct ((d =? 10) || (d =? C 68) || _) eqn:Hcase.
  - unfold set_w, wakeup. cbn [when]. rewrite bind_modify. eexists. split; [reflexivity|].
    split; [exact Hcommit|]. done.
  - eexists. split; [reflexivity|]. split; [|simpl; lia]. apply Hput. intros ->. done.
Qed.

(** The reader takes the first finished byte. *)
Lemma view_take s dn line c :
  cons_view s (c :: dn, line) ->
  cons_view (mkCons (buf s) (u32 (r s + 1)) (w s) (e s) (out s) (wakes s)) (dn, line).
Proof.
  intros (Hl & Hr & Hw & He & Hn & Hb & Hnl). simpl length in *.
  split; [done|]. split; [apply u32_range|]. cbn [buf r w e].
  split; [|split; [|split; [lia|split; [|done]]]].
  - rewrite Hw, u32_add. f_equal. lia.
  - rewrite He, u32_add. f_equal. lia.
  - intros i x Hi.
    replace ((u32 (r s + 1) + Z.of_nat i) mod 128) with ((r s + Z.of_nat (S i)) mod 128).
    + by apply (Hb (S i)).
    + rewrite <- (Zplus_mod_idemp_l (u32 (r s + 1))), u32_mod by (lia || by exists (2 ^ 25)).
      rewrite Zplus_mod_idemp_l. f_equal. lia.
Qed.

Lemma u32_undo a : 0 <= a < 2 ^ 32 -> u32 (u32 (a + 1) - 1) = a.
Proof.
  intros Ha. unfold u32. rewrite Zminus_mod_idemp_l. replace (a + 1 - 1) with a by lia.
  by apply Z.mod_small.
Qed.

Lemma read_loop_spec writable killed target dn : forall fuel s line dst n,
  cons_view s (dn, line) -> 0 <= n -> (Z.to_nat n < fuel)%nat ->
  let '(t, l, rest) := read_line writable killed target dst n dn in
  exists s', read_loop writable killed fuel target dst n s = Done ((t, l), s') /\
             cons_view s' (rest, line).
Proof.
  induction dn as [|c dn IH]; intros [|fuel] s line dst n Hv Hn Hf; try lia;
    cbn [read_line read_loop]; (destruct (Z.eqb_spec n 0) as [E|E]; [by exists s|]);
    rewrite bind_get; pose proof Hv as (Hl & Hr & Hw & He & Hlen & Hb & Hnl).
  - assert ((r s =? w s) = true) as ->.
    { rewrite Hw. simpl. rewrite Z.add_0_r. apply Z.eqb_eq. symmetry. by apply Z.mod_small. }
    destruct killed; by exists s.
  - assert ((r s =? w s) = false) as ->.
    { apply Z.eqb_neq. rewrite Hw. intros H. simpl in Hlen.
      rewrite <- (Z.mod_small (r s) (2 ^ 32)) in H at 1 by done.
      rewrite <- (Z.add_0_r (r s)) in H at 1. apply u32_eq_small in H; simpl in *; lia. }
    rewrite (buf_get_bind s (c :: dn) line (r s) 0 c _ Hv);
      [|done|unfold INPUT_BUF_SIZE; rewrite u32_mod; [f_equal; lia|by exists (2 ^ 25)|lia]].
    unfold set_r. rewrite bind_modify. cbn [buf r w e out wakes].
    pose proof (view_take s dn line c Hv) as Hv'.
    destruct (c =? C 68).
    + destruct (n <? target).
      * eexists. split; [reflexivity|]. cbn [buf r w e out wakes]. rewrite u32_undo by done.
        by destruct s.
      * eexists. split; [reflexivity|]. done.
    + destruct (negb (writable dst)); [eexists; split; [reflexivity|done]|].
      destruct (c =? 10); [eexists; split; [reflexivity|done]|].
      pose proof (IH fuel _ line (u64 (dst + 1)) (n - 1) Hv' ltac:(lia) ltac:(lia)) as Hrec.
      destruct (read_line writable killed target (u64 (dst + 1)) (n - 1) dn) as [[t l] rest].
      destruct Hrec as (s' & HE & HV). rewrite (bind_done _ _ _ _ _ HE).
      exists s'. by split.
Qed.

(** C18: a turn of [console_read] takes from the ring exactly what
    [read_line] takes from the list of finished lines: it delivers the bytes
    in order up to the end of a line, stops at control-d (kept for the next
    call when something was delivered), sleeps only when nothing is finished,
    and leaves the line being typed alone. *)
Theorem console_read_refines writable killed s dn line dst n :
  cons_view s (dn, line) -> 0 <= n < 2 ^ 32 ->
  let '(t, l, rest) := read_line writable killed n dst n dn in
  exists s', console_read writable killed dst n s = Done ((t, l), s') /\ cons_view s' (rest, line).
Proof.
  intros Hv Hn. unfold console_read. replace (u32 n) with n by (symmetry; by apply Z.mod_small).
  apply read_loop_spec; [done|lia|lia].
Qed.

(** ** A run: "hi", a backspace, "o", carriage return *)

Definition demo_cons : cons_t := mkCons (replicate 128 0) (2 ^ 32 - 1) (2 ^ 32 - 1) (2 ^ 32 - 1) [] 0.

Lemma demo_cons_view : cons_view demo_cons ([], []).
Proof.
  split; [done|]. split; [split; [done|vm_compute; done]|]. split; [done|]. split; [done|].
  split; [done|]. split; [by intros i c|done].
Qed.

Definition demo_typed : cons_t :=
  match (console_intr 104;;; console_intr 105;;; console_intr 127;;; console_intr 111;;;
         console_intr 13) demo_cons with
  | Done (_, s) => s
  | _ => demo_cons
  end.

Lemma demo_typed_view : cons_view demo_typed ([104; 111; 10], []).
Proof.
  split; [done|]. split; [split; [done|vm_compute; done]|]. split; [done|]. split; [done|].
  split; [vm_compute; done|]. split; [|done]. intros i c Hi.
  do 3 (destruct i as [|i]; [simpl in Hi; injection Hi as <-; by vm_compute|]). done.
Qed.

Lemma console_intr_refines_witness :
  exists s', console_intr 104 demo_cons = Done (tt, s') /\ cons_view s' ([], [104]).
Proof.
  destruct (console_intr_refines demo_cons ([], []) 104 demo_cons_view) as (s' & H1 & H2 & _);
    [lia|]. exists s'. split; [exact H1|exact H2].
Defined.

Lemma console_read_refines_witness :
  exists s', console_read (fun _ => true) false 500 10 demo_typed =
               Done ((Ret 3, [(500, 104); (501, 111); (502, 10)]), s') /\ cons_view s' ([], []).
Proof.
  exact (console_read_refines (fun _ => true) false demo_typed [104; 111; 10] [] 500 10
           demo_typed_view ltac:(lia)).
Defined.
