(* ===== verification/Uart.v ===== *)
(** * The serial port: uart.c

    The registers of the 16550 are an interface: [waiting] are the characters
    it has received and nobody has read.  The interrupt handler feeds them to
    the line editor of [Console].  [uart_putc] waits for the transmitter; the
    nesting of [push_off] around it is left out. *)
From S2P Require Import Prelude Console.

Definition RHR : Z := 0.
Definition THR : Z := 0.
Definition IER : Z := 1.
Definition LCR : Z := 3.
Definition LSR : Z := 5.
Definition IER_RX_ENABLE : Z := 1.
Definition LCR_EIGHT_BITS : Z := 3.
Definition LCR_BAUD_LATCH : Z := 128.
Definition LSR_RX_READY : Z := 1.
Definition LSR_TX_IDLE : Z := 32.

(** The documented behaviour of the receiver: bit 0 of [LSR] says whether a
    character waits, and reading [RHR] takes the first one. *)
Class Uart (V : Type) : Type := {
  ReadReg : Z -> V -> Z * V;
  WriteReg : Z -> Z -> V -> V;
  waiting : V -> list Z;
  read_byte r v : 0 <= (ReadReg r v).1 < 256;
  lsr_keeps v : waiting (ReadReg LSR v).2 = waiting v;
  lsr_ready v : Z.testbit (ReadReg LSR v).1 0 = negb (bool_decide (waiting v = []));
  rhr_takes v c l : waiting v = c :: l -> (ReadReg RHR v).1 = c /\ waiting (ReadReg RHR v).2 = l
}.

Section Uart.
Context {V : Type} `{!Uart V}.

(** The port and the console. *)
Record port : Type := mkPort { dev : V; cons : cons_t }.

Definition read (r : Z) : M port Z := fun s => let '(x, v) := ReadReg r (dev s) in Done (x, mkPort v (cons s)).
Definition write (r x : Z) : M port unit := fun s => Done (tt, mkPort (WriteReg r x (dev s)) (cons s)).
Definition console_intr (c : Z) : M port unit := zoom cons (fun c s => mkPort (dev s) c) (Console.console_intr c).

Definition uart_init : M port unit :=
  write IER 0;;;
  write LCR LCR_BAUD_LATCH;;;
  write 0 3;;;
  write 1 0;;;
  write LCR LCR_EIGHT_BITS;;;
  write IER IER_RX_ENABLE.

(** The wait for the transmitter, at most [fuel] looks. *)
Fixpoint uart_putc (fuel : nat) (c : Z) : M port unit :=
  match fuel with
  | O => nofuel
  | S fuel =>
    x <- read LSR;;
    if Z.land x LSR_TX_IDLE =? 0 then uart_putc fuel c else write THR c
  end.

Definition uart_getc : M port Z :=
  x <- read LSR;;
  if negb (Z.land x LSR_RX_READY =? 0) then read RHR else ret (-1).

Fixpoint intr_loop (fuel : nat) : M port unit :=
  match fuel with
  | O => nofuel
  | S fuel =>
    c <- uart_getc;;
    if c =? -1 then ret tt else console_intr c;;; intr_loop fuel
  end.
Definition uart_intr : M port unit :=
  fuel <- gets (fun s => S (length (waiting (dev s))));;
  intr_loop fuel.

(** ** Properties *)

(** The console's handler on one character after the other. *)
Fixpoint feed (l : list Z) : M cons_t unit :=
  match l with
  | [] => ret tt
  | c :: l => Console.console_intr c;;; feed l
  end.

Lemma getc_empty s : waiting (dev s) = [] ->
  exists s', uart_getc s = Done (-1, s') /\ waiting (dev s') = [] /\ cons s' = cons s.
Proof.
  intros Hw. unfold uart_getc, bind, read. pose proof (lsr_ready (dev s)) as Hr. pose proof (lsr_keeps (dev s)) as Hk.
  destruct (ReadReg LSR (dev s)) as [x v]. cbn in Hr, Hk. rewrite Hw in Hr. cbn in Hr.
  assert (Z.land x LSR_RX_READY = 0) as ->.
  { change LSR_RX_READY with (Z.ones 1). rewrite Z.land_ones by lia. change (2 ^ 1) with 2. rewrite Zmod_odd.
    by rewrite Hr. }
  exists (mkPort v (cons s)). cbn. by rewrite Hk, Hw.
Qed.

Lemma getc_takes s c l : waiting (dev s) = c :: l ->
  exists s', uart_getc s = Done (c, s') /\ waiting (dev s') = l /\ cons s' = cons s /\ 0 <= c.
Proof.
  intros Hw. unfold uart_getc, bind, read. pose proof (lsr_ready (dev s)) as Hr. pose proof (lsr_keeps (dev s)) as Hk.
  destruct (ReadReg LSR (dev s)) as [x v] eqn:E. cbn in Hr, Hk. rewrite Hw in Hr, Hk. cbn in Hr.
  assert (Z.land x LSR_RX_READY = 1) as ->.
  { change LSR_RX_READY with (Z.ones 1). rewrite Z.land_ones by lia. change (2 ^ 1) with 2. rewrite Zmod_odd.
    by rewrite Hr. }
  cbn [Z.eqb negb dev]. pose proof (read_byte RHR v) as Hb. destruct (rhr_takes v c l Hk) as [Hc Hl].
  destruct (ReadReg RHR v) as [y v']. cbn in Hb, Hc, Hl. subst y. exists (mkPort v' (cons s)). cbn. split_and!; [done..|lia].
Qed.

Lemma intr_loop_feeds l : forall s, waiting (dev s) = l ->
  match feed l (cons s) with
  | Done (_, c) => exists s', intr_loop (S (length l)) s = Done (tt, s') /\ waiting (dev s') = [] /\ cons s' = c
  | Panic msg => intr_loop (S (length l)) s = Panic msg
  | Fault => intr_loop (S (length l)) s = Fault
  | NoFuel => intr_loop (S (length l)) s = NoFuel
  | Blocked => intr_loop (S (length l)) s = Blocked
  end.
Proof.
  induction l as [|c l IH]; intros s Hw; cbn [length intr_loop feed].
  - destruct (getc_empty s Hw) as (s' & H & Hw' & Hc). rewrite (bind_done _ _ _ _ _ H). cbn. by exists s'.
  - destruct (getc_takes s c l Hw) as (s' & H & Hw' & Hc & H0). rewrite (bind_done _ _ _ _ _ H).
    rewrite (proj2 (Z.eqb_neq c (-1))) by lia. unfold console_intr, zoom. unfold bind. rewrite Hc.
    destruct (Console.console_intr c (cons s)) as [[[] c']| | | |]; [|done..].
    specialize (IH (mkPort (dev s') c') Hw'). exact IH.
Qed.

(** The serial interrupt reads every character that waits, once and in
    order, and hands each to the console before it looks at the next; it ends,
    with none waiting, whenever the console's handler does. *)
Theorem uart_intr_feeds_console s :
  match feed (waiting (dev s)) (cons s) with
  | Done (_, c) => exists s', uart_intr s = Done (tt, s') /\ waiting (dev s') = [] /\ cons s' = c
  | Panic msg => uart_intr s = Panic msg
  | Fault => uart_intr s = Fault
  | NoFuel => uart_intr s = NoFuel
  | Blocked => uart_intr s = Blocked
  end.
Proof. unfold uart_intr. rewrite bind_gets. by apply intr_loop_feeds. Qed.
End Uart.

(** A port with three characters waiting, the last a line's end. *)
Definition fifo_read (r : Z) (v : list Z) : Z * list Z :=
  if r =? 0 then (u8 (hd 0 v), tail v) else if r =? 5 then (if bool_decide (v = []) then 32 else 33, v) else (0, v).

#[export] Program Instance list_uart : Uart (list Z) := {
  ReadReg := fifo_read;
  WriteReg r x v := v;
  waiting v := u8 <$> v
}.
Next Obligation.
  intros r v. unfold fifo_read. destruct (r =? 0); [apply u8_range|]. destruct (r =? 5); [|done].
  by destruct (bool_decide (v = [])).
Qed.
Next Obligation. done. Qed.
Next Obligation. intros v. by destruct v. Qed.
Next Obligation. intros [|x v] c l H; [done|]. cbn in H. injection H as <- <-. done. Qed.

Definition demo_port : port := mkPort [104; 105; 13] (mkCons (replicate 128 0) 0 0 0 [] 0).

Example demo_uart : match uart_intr demo_port with
  | Done (_, s) => out (cons s) = [104; 105; 10] /\ w (cons s) = 3 /\ wakes (cons s) = 1 /\ dev s = []
  | _ => False
  end.
Proof. vm_compute. done. Qed.
