(* ===== verification/Input.v ===== *)
(** * The keyboard: keyboard.c and virtio_input.c

    The event buffer of the keyboard device, filled by the interrupt handler
    and drained by reads, and the interrupt handler of the virtio input device
    that feeds it from the used ring. *)
From S2P Require Import Prelude.

Definition BUF_SIZE : Z := 128.
Definition NUM : Z := 64.

Record keyboard_event_t : Type := mkEvent { ev_type : Z; ev_code : Z; ev_value : Z }.

Record keyboard_t : Type := mkKb {
  lock_held : bool;
  buffer : list keyboard_event_t;
  head : Z;
  tail : Z
}.

Definition lm_lock : M keyboard_t unit :=
  s <- get;; if lock_held s then panic "holding lock"
             else put (mkKb true (buffer s) (head s) (tail s)).
Definition lm_unlock : M keyboard_t unit :=
  modify (fun s => mkKb false (buffer s) (head s) (tail s)).
Definition set_head (v : Z) : M keyboard_t unit :=
  modify (fun s => mkKb (lock_held s) (buffer s) (s32 v) (tail s)).
Definition set_tail (v : Z) : M keyboard_t unit :=
  modify (fun s => mkKb (lock_held s) (buffer s) (head s) (s32 v)).
Definition set_buffer (i : Z) (x : keyboard_event_t) : M keyboard_t unit := fun s =>
  match arr_get (buffer s) i with
  | Some _ => Done (tt, mkKb (lock_held s) (arr_set (buffer s) i x) (head s) (tail s))
  | None => Fault
  end.

(** [struct virtio_input_event] has 16, 16 and 32 bits, the stored event 8, 8
    and 16. *)
Definition keyboard_intr (event : keyboard_event_t) : M keyboard_t unit :=
  lm_lock;;;
  if negb (ev_type event =? 1) then lm_unlock
  else
    s <- get;;
    set_buffer (Z.rem (head s) BUF_SIZE)
      (mkEvent (u8 (ev_type event)) (u8 (ev_code event)) (u16 (ev_value event)));;;
    s <- get;; set_head (head s + 1);;;
    s <- get;;
    when (BUF_SIZE <? head s - tail s) (s <- get;; set_tail (head s - BUF_SIZE));;;
    lm_unlock.

(** The four bytes of an event in memory. *)
Definition ev_bytes (x : keyboard_event_t) : list Z :=
  [ev_type x; ev_code x; ev_value x mod 256; ev_value x / 256].

(** [k] bytes of the array from the element [i]; out of its bounds is a fault. *)
Definition buffer_bytes (i k : Z) : M keyboard_t (list Z) := fun s =>
  let l := concat (ev_bytes <$> buffer s) in
  if (0 <=? i) && (4 * i + k <=? Z.of_nat (length l))
  then Done (take (Z.to_nat k) (drop (Z.to_nat (4 * i)) l), s) else Fault.

(** Result and bytes copied out; [copyout] is what [either_copyout] returns. *)
Definition keyboard_read_event (copyout n : Z) : M keyboard_t (Z * list Z) :=
  if n <? 4 then ret (u64 (-1), [])
  else
    lm_lock;;;
    s <- get;;
    if head s =? tail s then lm_unlock;;; ret (0, [])
    else
      let avail := u64 (4 * u64 (head s - tail s)) in
      let copy_size := if avail <? n then avail else n in
      l <- buffer_bytes (tail s) copy_size;;
      if negb (copyout =? 0) then ret (u64 (-1), [])
      else set_tail (head s);;; lm_unlock;;; ret (copy_size, l).

Definition keyboard_init (s : keyboard_t) : keyboard_t := mkKb false (buffer s) 0 0.

(** ** virtio_input.c *)

Record input_t : Type := mkInput {
  used_idx : Z;                      (* how far the driver has looked *)
  dev_idx : Z;                       (* used->idx, written by the device *)
  ring : list Z;                     (* used->ring[].id *)
  info : list keyboard_event_t;      (* the event buffers *)
  avail_idx : Z;                     (* avail->idx *)
  keyboard : keyboard_t
}.

Definition run_kb (m : M keyboard_t unit) : M input_t unit := fun s =>
  match m (keyboard s) with
  | Done (_, k) => Done (tt, mkInput (used_idx s) (dev_idx s) (ring s) (info s) (avail_idx s) k)
  | Panic m => Panic m
  | Fault => Fault
  | NoFuel => NoFuel
  | Blocked => Blocked
  end.

(** The first loop of [virtio_input_intr]. *)
Fixpoint drain (fuel : nat) : M input_t unit :=
  match fuel with
  | O => nofuel
  | S fuel =>
    s <- get;;
    if used_idx s =? dev_idx s then ret tt
    else
      match arr_get (ring s) (used_idx s mod NUM) with
      | None => fault
      | Some id =>
        modify (fun s => mkInput (u16 (used_idx s + 1)) (dev_idx s) (ring s) (info s)
                                 (avail_idx s) (keyboard s));;;
        match arr_get (info s) id with
        | None => fault
        | Some ev => run_kb (keyboard_intr ev);;; drain fuel
        end
      end
  end.

(** The second loop; the comparison is between [int]s. *)
Fixpoint refill (fuel : nat) : M input_t unit :=
  match fuel with
  | O => nofuel
  | S fuel =>
    s <- get;;
    if avail_idx s - dev_idx s <? NUM then
      modify (fun s => mkInput (used_idx s) (dev_idx s) (ring s) (info s)
                               (u16 (avail_idx s + 1)) (keyboard s));;;
      refill fuel
    else ret tt
  end.

Definition virtio_input_intr (fuel : nat) : M input_t unit := drain (Z.to_nat 65537);;; refill fuel.

(** ** Views *)

(** [evs] are all the events the keyboard has accepted, newest last. *)
Definition kb_view (s : keyboard_t) (evs : list keyboard_event_t) : Prop :=
  length (buffer s) = 128%nat /\ lock_held s = false /\
  head s = Z.of_nat (length evs) /\ 0 <= tail s <= head s /\ head s - tail s <= 128 /\
  (forall i x, tail s <= Z.of_nat i -> evs !! i = Some x ->
     buffer s !! Z.to_nat (Z.of_nat i mod 128) = Some x).

Definition stored (x : keyboard_event_t) : keyboard_event_t :=
  mkEvent (u8 (ev_type x)) (u8 (ev_code x)) (u16 (ev_value x)).
Definition accept (evs : list keyboard_event_t) (x : keyboard_event_t) : list keyboard_event_t :=
  if ev_type x =? 1 then evs ++ [stored x] else evs.

(** ** Proofs *)

Lemma concat_drop n l :
  drop (4 * n) (concat (ev_bytes <$> l)) = concat (ev_bytes <$> drop n l).
Proof.
  revert n. induction l as [|x l IH]; intros [|n]; [done..|].
  replace (4 * S n)%nat with (S (S (S (S (4 * n))))) by lia.
  cbn [fmap list_fmap concat ev_bytes app drop]. apply IH.
Qed.

Lemma concat_take n l :
  take (4 * n) (concat (ev_bytes <$> l)) = concat (ev_bytes <$> take n l).
Proof.
  revert n. induction l as [|x l IH]; intros [|n]; [done..|].
  replace (4 * S n)%nat with (S (S (S (S (4 * n))))) by lia.
  cbn [fmap list_fmap concat ev_bytes app take]. by rewrite IH.
Qed.

Lemma concat_length l : length (concat (ev_bytes <$> l)) = (4 * length l)%nat.
Proof.
  induction l as [|x l IH]; [done|].
  cbn [fmap list_fmap concat ev_bytes app length]. change (list_fmap _ _ ev_bytes l) with (ev_bytes <$> l). rewrite IH. lia.
Qed.

Lemma lm_lock_free s :
  lock_held s = false -> lm_lock s = Done (tt, mkKb true (buffer s) (head s) (tail s)).
Proof. intros H. unfold lm_lock. by rewrite bind_get, H. Qed.

(** the interrupt handler appends each key event to the buffer and drops
    events of other types; when the buffer is full it forgets the oldest one,
    so the buffer always holds the latest events, at most 128. *)
Theorem keyboard_keeps_latest s evs x :
  kb_view s evs -> Z.of_nat (length evs) < 2 ^ 31 - 1 ->
  exists s', keyboard_intr x s = Done (tt, s') /\ kb_view s' (accept evs x) /\
             tail s' = Z.max (tail s) (Z.of_nat (length (accept evs x)) - 128).
Proof.
  intros (Hl & Hk & Hh & Ht & Hd & Hb) Hlen. unfold keyboard_intr, lm_unlock, accept.
  rewrite (bind_done _ _ _ _ _ (lm_lock_free s Hk)).
  destruct (Z.eqb_spec (ev_type x) 1) as [Hx|Hx]; cbn [negb].
  2:{ eexists. split; [reflexivity|]. split; [split_and!; (done || simpl; lia)|]. simpl. lia. }
  rewrite bind_get. unfold set_buffer, bind at 1. cbn [buffer head lock_held tail].
  rewrite Hh, Z.rem_mod_nonneg by (unfold BUF_SIZE; lia).
  set (i := Z.of_nat (length evs) mod BUF_SIZE).
  assert (0 <= i < 128) as Hi by (apply Z.mod_pos_bound; unfold BUF_SIZE; lia).
  destruct (lookup_lt_is_Some_2 (buffer s) (Z.to_nat i)) as [y Hy]; [lia|].
  unfold arr_get. cbn [buffer]. rewrite (proj2 (Z.ltb_ge i 0)) by lia. rewrite Hy.
  rewrite bind_get. unfold set_head, set_tail. rewrite bind_modify, bind_get.
  cbn [buffer head lock_held tail].
  replace (s32 (Z.of_nat (length evs) + 1)) with (Z.of_nat (length evs) + 1)
    by (unfold s32; rewrite Z.mod_small; lia).
  set (b := arr_set (buffer s) i (stored x)).
  change (mkEvent (u8 (ev_type x)) (u8 (ev_code x)) (u16 (ev_value x))) with (stored x). fold b.
  assert (forall t, Z.max (tail s) (Z.of_nat (length evs) + 1 - 128) <= t ->
    forall j y, t <= Z.of_nat j -> (evs ++ [stored x]) !! j = Some y ->
    b !! Z.to_nat (Z.of_nat j mod 128) = Some y) as Hring.
  { intros t Htm j z Hj [Hz|[Hz Hz']]%lookup_app_Some; unfold b, arr_set.
    - rewrite list_lookup_insert_ne; [apply Hb; [lia|done]|].
      apply lookup_lt_Some in Hz. unfold i, BUF_SIZE. intros E. zdiv.
    - apply list_lookup_singleton_Some in Hz' as [Hz' <-].
      replace j with (length evs) by lia. rewrite list_lookup_insert_eq; [done|].
      rewrite Hl. lia. }
  assert (length b = 128%nat) as Hlb by (unfold b, arr_set; by rewrite length_insert).
  unfold BUF_SIZE. destruct (Z.ltb_spec 128 (Z.of_nat (length evs) + 1 - tail s)) as [Hlt|Hge].
  - cbn [when]. rewrite bind_assoc, bind_get. unfold bind, modify. cbn [buffer head lock_held tail].
    replace (s32 (Z.of_nat (length evs) + 1 - 128)) with (Z.of_nat (length evs) + 1 - 128)
      by (unfold s32; rewrite Z.mod_small; lia).
    eexists. split; [reflexivity|]. unfold kb_view. cbn [buffer head lock_held tail].
    rewrite length_app. simpl. split_and!; try done; try lia. intros j z Hj. apply Hring with (t := Z.of_nat j); lia.
  - cbn [when]. rewrite bind_ret. eexists. split; [reflexivity|].
    unfold kb_view. cbn [buffer head lock_held tail].
    rewrite length_app. simpl. split_and!; try done; try lia. apply Hring. lia.
Qed.

(** C19: a read with room for all pending events delivers exactly their bytes,
    oldest first, and empties the buffer, as long as they do not cross the end
    of the array; when they do, the code, which does not reduce its start
    index modulo the buffer size, reads past the array. *)
Theorem keyboard_read_pending s evs n :
  kb_view s evs -> tail s < head s -> 4 * (head s - tail s) <= n -> 4 <= n ->
  Z.of_nat (length evs) < 2 ^ 31 ->
  if head s <=? 128 then
    exists s', keyboard_read_event 0 n s =
      Done ((4 * (head s - tail s), concat (ev_bytes <$> drop (Z.to_nat (tail s)) evs)), s') /\
      kb_view s' evs /\ tail s' = head s'
  else keyboard_read_event 0 n s = Fault.
Proof.
  intros (Hl & Hk & Hh & Ht & Hd & Hb) Hlt Hn H4 Hlen.
  unfold keyboard_read_event. rewrite (proj2 (Z.ltb_ge n 4)) by done.
  rewrite (bind_done _ _ _ _ _ (lm_lock_free s Hk)), bind_get.
  cbn [buffer head lock_held tail]. rewrite (proj2 (Z.eqb_neq (head s) (tail s))) by lia.
  assert (u64 (4 * u64 (head s - tail s)) = 4 * (head s - tail s)) as ->
    by (unfold u64; rewrite (Z.mod_small (head s - tail s)) by lia; apply Z.mod_small; lia).
  assert ((if 4 * (head s - tail s) <? n then 4 * (head s - tail s) else n) = 4 * (head s - tail s))
    as -> by (destruct (Z.ltb_spec (4 * (head s - tail s)) n); lia).
  cbv zeta. destruct (Z.leb_spec (head s) 128) as [H128|H128].
  2:{ apply bind_fault. unfold buffer_bytes. cbn [buffer]. rewrite concat_length, Hl.
      rewrite (proj2 (Z.leb_gt (4 * tail s + 4 * (head s - tail s)) _)) by lia.
      by rewrite andb_false_r. }
  erewrite bind_done.
  2:{ unfold buffer_bytes. cbn [buffer]. rewrite concat_length, Hl.
      rewrite (proj2 (Z.leb_le 0 (tail s))), (proj2 (Z.leb_le (4 * tail s + _) _)) by lia.
      reflexivity. }
  unfold set_tail, lm_unlock, bind, modify, ret. cbn [buffer head lock_held tail negb Z.eqb].
  assert (s32 (head s) = head s) as Hs by (unfold s32; rewrite Z.mod_small; lia). rewrite Hs.
  eexists. split.
  - do 3 f_equal.
    replace (Z.to_nat (4 * tail s)) with (4 * Z.to_nat (tail s))%nat by lia.
    replace (Z.to_nat (4 * (head s - tail s))) with (4 * Z.to_nat (head s - tail s))%nat by lia.
    rewrite concat_drop, concat_take. f_equal. f_equal. apply list_eq. intros j.
    destruct (decide (j < Z.to_nat (head s - tail s))%nat) as [Hj|Hj].
    + rewrite lookup_take_lt, !lookup_drop by done.
      destruct (lookup_lt_is_Some_2 evs (Z.to_nat (tail s) + j)) as [z Hz]; [lia|].
      rewrite Hz. pose proof (Hb (Z.to_nat (tail s) + j)%nat z ltac:(lia) Hz) as Hbz.
      apply lookup_lt_Some in Hz.
      rewrite Z.mod_small in Hbz by lia. by rewrite Nat2Z.id in Hbz.
    + rewrite lookup_take_ge, lookup_drop by lia. symmetry. apply lookup_ge_None. lia.
  - unfold kb_view. cbn [buffer head lock_held tail]. split_and!; try done; try lia.
    intros j z Hj Hz. apply lookup_lt_Some in Hz. lia.
Qed.

Lemma drain_step s fuel id ev k :
  used_idx s <> dev_idx s ->
  arr_get (ring s) (used_idx s mod NUM) = Some id -> arr_get (info s) id = Some ev ->
  keyboard_intr ev (keyboard s) = Done (tt, k) ->
  drain (S fuel) s =
    drain fuel (mkInput (u16 (used_idx s + 1)) (dev_idx s) (ring s) (info s) (avail_idx s) k).
Proof.
  intros Hne Hid Hev Hk. cbn [drain]. rewrite bind_get, (proj2 (Z.eqb_neq _ _)) by done.
  rewrite Hid, bind_modify, Hev. unfold run_kb, bind. cbn [keyboard]. by rewrite Hk.
Qed.

(** The events the device has queued between the two indices. *)
Fixpoint queued (k : nat) (idx : Z) (rg : list Z) (inf : list keyboard_event_t) :
    option (list keyboard_event_t) :=
  match k with
  | O => Some []
  | S k =>
    match arr_get rg (idx mod NUM) with
    | None => None
    | Some id =>
      match arr_get inf id, queued k (u16 (idx + 1)) rg inf with
      | Some ev, Some l => Some (ev :: l)
      | _, _ => None
      end
    end
  end.

Lemma drain_spec l : forall fuel s evs,
  0 <= used_idx s < 2 ^ 16 -> kb_view (keyboard s) evs ->
  dev_idx s = u16 (used_idx s + Z.of_nat (length l)) -> Z.of_nat (length l) < 2 ^ 16 ->
  queued (length l) (used_idx s) (ring s) (info s) = Some l -> (length l < fuel)%nat ->
  Z.of_nat (length evs + length l) < 2 ^ 31 ->
  exists s', drain fuel s = Done (tt, s') /\ used_idx s' = dev_idx s /\ dev_idx s' = dev_idx s /\
    avail_idx s' = avail_idx s /\ kb_view (keyboard s') (fold_left accept l evs).
Proof.
  induction l as [|ev l IH]; intros [|fuel] s evs Hu Hv Hd Hl Hq Hf Hm; simpl in Hf; try lia.
  - exists s. cbn [drain]. rewrite bind_get.
    assert (used_idx s = dev_idx s) as E
      by (rewrite Hd; simpl; rewrite Z.add_0_r; symmetry; by apply Z.mod_small).
    rewrite (proj2 (Z.eqb_eq _ _) E). by rewrite E.
  - cbn [queued length] in Hq. destruct (arr_get (ring s) _) as [id|] eqn:Hid; [|done].
    destruct (arr_get (info s) id) as [ev'|] eqn:Hev; [|done].
    destruct (queued (length l) _ _ _) as [l'|] eqn:Hql; [|done]. injection Hq as -> ->.
    simpl in Hm. destruct (keyboard_keeps_latest (keyboard s) evs ev Hv) as (k & Hk & Hkv & _); [lia|].
    assert (used_idx s <> dev_idx s) as Hne.
    { rewrite Hd. unfold u16. simpl length in *. intros E. zdiv. }
    rewrite (drain_step s fuel id ev k Hne Hid Hev Hk).
    destruct (IH fuel (mkInput (u16 (used_idx s + 1)) (dev_idx s) (ring s) (info s) (avail_idx s) k)
      (accept evs ev)) as (s' & HE & H1 & H2 & H3 & H4); cbn [used_idx dev_idx ring info keyboard avail_idx].
    + apply Z.mod_pos_bound. lia.
    + done.
    + rewrite Hd. unfold u16. rewrite Zplus_mod_idemp_l. f_equal. simpl length. lia.
    + simpl in Hl. lia.
    + done.
    + lia.
    + unfold accept. destruct (ev_type ev =? 1); rewrite ?length_app; simpl; lia.
    + exists s'. by split_and!.
Qed.

Lemma refill_diverges fuel s :
  0 <= avail_idx s < 2 ^ 16 -> 2 ^ 16 - NUM <= dev_idx s ->
  refill fuel s = NoFuel.
Proof.
  revert s. induction fuel as [|fuel IH]; intros s Ha Hd; [done|]. cbn [refill].
  rewrite bind_get. unfold NUM in *. rewrite (proj2 (Z.ltb_lt _ _)) by lia.
  rewrite bind_modify. apply IH; cbn [avail_idx dev_idx]; [apply Z.mod_pos_bound; lia|lia].
Qed.

Lemma refill_ends k : forall s fuel,
  0 <= avail_idx s -> dev_idx s + NUM < 2 ^ 16 ->
  k = Z.to_nat (dev_idx s + NUM - avail_idx s) -> (k < fuel)%nat ->
  exists s', refill fuel s = Done (tt, s') /\ avail_idx s' = Z.max (avail_idx s) (dev_idx s + NUM) /\
             keyboard s' = keyboard s /\ used_idx s' = used_idx s.
Proof.
  unfold NUM. induction k as [|k IH]; intros s [|fuel] Ha Hd Hk Hf; try lia; cbn [refill];
    rewrite bind_get; unfold NUM.
  - rewrite (proj2 (Z.ltb_ge _ _)) by lia. exists s. split_and!; try done. lia.
  - rewrite (proj2 (Z.ltb_lt _ _)) by lia. rewrite bind_modify.
    destruct (IH (mkInput (used_idx s) (dev_idx s) (ring s) (info s) (u16 (avail_idx s + 1)) (keyboard s))
      fuel) as (s' & HE & H1 & H2 & H3); cbn [avail_idx dev_idx keyboard used_idx].
    + unfold u16. apply Z.mod_pos_bound. lia.
    + lia.
    + unfold u16. rewrite Z.mod_small by lia. lia.
    + lia.
    + exists s'. split_and!; [done| |done|done]. rewrite H1. cbn [avail_idx dev_idx].
      unfold u16. rewrite Z.mod_small by lia. lia.
Qed.

(** an interrupt hands every queued event to the keyboard, in order, and
    catches up with the device, and it gives all buffers back to the device;
    but once the device's 16-bit index is within 64 of wrapping, the refill
    loop compares across the wrap and never ends. *)
Theorem virtio_input_intr_drains s evs l :
  0 <= used_idx s < 2 ^ 16 -> 0 <= avail_idx s < 2 ^ 16 -> kb_view (keyboard s) evs ->
  dev_idx s = u16 (used_idx s + Z.of_nat (length l)) -> (length l <= 64)%nat ->
  queued (length l) (used_idx s) (ring s) (info s) = Some l ->
  Z.of_nat (length evs + length l) < 2 ^ 31 ->
  if dev_idx s + NUM <? 2 ^ 16 then
    exists s', virtio_input_intr (Z.to_nat 65537) s = Done (tt, s') /\ used_idx s' = dev_idx s /\
      avail_idx s' = Z.max (avail_idx s) (dev_idx s + NUM) /\
      kb_view (keyboard s') (fold_left accept l evs)
  else forall fuel, virtio_input_intr fuel s = NoFuel.
Proof.
  intros Hu Ha Hv Hd Hl Hq Hm. unfold virtio_input_intr.
  destruct (drain_spec l (Z.to_nat 65537) s evs Hu Hv Hd ltac:(lia) Hq ltac:(lia) Hm)
    as (s1 & HE & H1 & H2 & H3 & H4).
  destruct (Z.ltb_spec (dev_idx s + NUM) (2 ^ 16)) as [Hlt|Hge].
  - destruct (refill_ends _ s1 (Z.to_nat 65537) ltac:(lia) ltac:(lia) eq_refl) as (s2 & HE2 & H5 & H6 & H7).
    { rewrite H2. unfold NUM in *. lia. }
    exists s2. split_and!; [by rewrite (bind_done _ _ _ _ _ HE)|congruence|congruence|by rewrite H6].
  - intros fuel. rewrite (bind_done _ _ _ _ _ HE). apply refill_diverges; [lia|].
    rewrite H2. unfold NUM in *. lia.
Qed.

(** ** Runs *)

Definition key (c : Z) : keyboard_event_t := mkEvent 1 c 1.
Definition demo_kb : keyboard_t := mkKb false (replicate 128 (mkEvent 0 0 0)) 0 0.
Definition demo_input (u : Z) : input_t :=
  mkInput u (u16 (u + 2)) (replicate 64 3) (replicate 64 (key 30)) u demo_kb.

Lemma demo_kb_view : kb_view demo_kb [].
Proof. split_and!; try done; simpl; try lia. Qed.

Lemma keyboard_keeps_latest_witness :
  exists s', keyboard_intr (key 30) demo_kb = Done (tt, s') /\ kb_view s' [key 30].
Proof.
  destruct (keyboard_keeps_latest demo_kb [] (key 30) demo_kb_view) as (s' & H1 & H2 & _);
    [simpl; lia|]. exists s'. split; [exact H1|exact H2].
Defined.

Definition demo_kb1 : keyboard_t :=
  mkKb false (arr_set (buffer demo_kb) 0 (key 30)) 1 0.
Lemma demo_kb1_view : kb_view demo_kb1 [key 30].
Proof.
  split_and!; try done; simpl; try lia. intros i x _ Hi.
  destruct i as [|i]; [by injection Hi as <-|done].
Qed.

Lemma keyboard_read_pending_witness :
  exists s', keyboard_read_event 0 64 demo_kb1 = Done ((4, [1; 30; 1; 0]), s') /\
             kb_view s' [key 30].
Proof.
  destruct (keyboard_read_pending demo_kb1 [key 30] 64 demo_kb1_view) as (s' & H1 & H2 & _);
    [simpl; lia..|]. exists s'. split; [exact H1|exact H2].
Defined.

Lemma virtio_input_intr_drains_witness :
  (exists s', virtio_input_intr (Z.to_nat 65537) (demo_input 7) = Done (tt, s') /\
              kb_view (keyboard s') [key 30; key 30]) /\
  (forall fuel, virtio_input_intr fuel (demo_input 65500) = NoFuel).
Proof.
  split.
  - destruct (virtio_input_intr_drains (demo_input 7) [] [key 30; key 30]) as (s' & H1 & _ & _ & H2);
      [simpl; lia|simpl; lia|apply demo_kb_view|reflexivity|simpl; lia|reflexivity|simpl; lia|].
    exists s'. split; [exact H1|exact H2].
  - exact (virtio_input_intr_drains (demo_input 65500) [] [key 30; key 30]
      ltac:(simpl; lia) ltac:(simpl; lia) demo_kb_view eq_refl ltac:(simpl; lia) eq_refl
      ltac:(simpl; lia)).
Defined.
