(* ===== verification/Virtq.v ===== *)
(** * Virtio queues: virtio.h

    What the drivers of the disk and of the display share: the registers of a
    device behind memory-mapped I/O, the constants of the descriptors, and the
    rings between a driver and its device. *)
From S2P Require Import Prelude.

Definition NUM : Z := 64.
Definition VRING_DESC_F_NEXT : Z := 1.
Definition VRING_DESC_F_WRITE : Z := 2.

Definition VIRTIO_MMIO_MAGIC_VALUE : Z := 0.
Definition VIRTIO_MMIO_VERSION : Z := 4.
Definition VIRTIO_MMIO_DEVICE_ID : Z := 8.
Definition VIRTIO_MMIO_VENDOR_ID : Z := 12.
Definition VIRTIO_MMIO_DEVICE_FEATURES : Z := 16.
Definition VIRTIO_MMIO_DRIVER_FEATURES : Z := 32.
Definition VIRTIO_MMIO_QUEUE_SEL : Z := 48.
Definition VIRTIO_MMIO_QUEUE_NUM_MAX : Z := 52.
Definition VIRTIO_MMIO_QUEUE_NUM : Z := 56.
Definition VIRTIO_MMIO_QUEUE_READY : Z := 68.
Definition VIRTIO_MMIO_STATUS : Z := 112.
Definition VIRTIO_MMIO_QUEUE_DESC_LOW : Z := 128.

Section Mmio.
(** The state is the sequence of register writes so far; a read returns what
    the device answers after them. *)
Variable mmio : list (Z * Z) -> Z -> Z.

Definition R (r : Z) : M (list (Z * Z)) Z := fun log => Done (u32 (mmio log r), log).
Definition W (r v : Z) : M (list (Z * Z)) unit := fun log => Done (tt, log ++ [(r, u32 v)]).

Definition write_addr (low p : Z) : M (list (Z * Z)) unit := W low p;;; W (low + 4) (Z.shiftr p 32).

(** The drivers turn feature bits down one by one. *)
Definition refuse (bits : list Z) (f : Z) : Z := fold_left (fun f k => Z.ldiff f (2 ^ k)) bits f.

(** *** The set-up of a device, as each driver writes it out

    The device must be a virtio device of version 2 with the kind [id]. *)
Definition probe (id : Z) (msg : string) : M (list (Z * Z)) unit :=
  m <- R VIRTIO_MMIO_MAGIC_VALUE;; v <- R VIRTIO_MMIO_VERSION;;
  d <- R VIRTIO_MMIO_DEVICE_ID;; n <- R VIRTIO_MMIO_VENDOR_ID;;
  if negb (m =? 1953655158) || negb (v =? 2) || negb (d =? id) || negb (n =? 1431127377)
  then panic msg else ret tt.

(** The status register, as read back after FEATURES_OK. *)
Definition negotiate (refused : list Z) (msg : string) : M (list (Z * Z)) Z :=
  W VIRTIO_MMIO_STATUS 0;;;
  W VIRTIO_MMIO_STATUS 1;;;
  W VIRTIO_MMIO_STATUS 3;;;
  f <- R VIRTIO_MMIO_DEVICE_FEATURES;;
  W VIRTIO_MMIO_DRIVER_FEATURES (refuse refused f);;;
  W VIRTIO_MMIO_STATUS 11;;;
  st <- R VIRTIO_MMIO_STATUS;;
  if Z.land st 8 =? 0 then panic msg
  else ret st.

(** Queue [k] at the addresses that [mem_malloc] returned, with the driver's
    messages; [nomem] is what happens when one of them is the null pointer. *)
Definition setup_queue (ready none short : string) (nomem : M (list (Z * Z)) unit) (k desc avail used : Z) :
    M (list (Z * Z)) unit :=
  W VIRTIO_MMIO_QUEUE_SEL k;;;
  r <- R VIRTIO_MMIO_QUEUE_READY;;
  if negb (r =? 0) then panic ready
  else
    max <- R VIRTIO_MMIO_QUEUE_NUM_MAX;;
    if max =? 0 then panic none
    else if max <? NUM then panic short
    else if (desc =? 0) || (avail =? 0) || (used =? 0) then nomem
    else
      W VIRTIO_MMIO_QUEUE_NUM NUM;;;
      write_addr VIRTIO_MMIO_QUEUE_DESC_LOW desc;;;
      write_addr (VIRTIO_MMIO_QUEUE_DESC_LOW + 16) avail;;;
      write_addr (VIRTIO_MMIO_QUEUE_DESC_LOW + 32) used;;;
      W VIRTIO_MMIO_QUEUE_READY 1.

End Mmio.

Definition entries {A} (x : A) : gmap Z A := gset_to_gmap x (list_to_set (seqZ 0 NUM)).

(** ** Rings *)

(** The entries [q] of a ring between the indices [lo] and [hi]. *)
Definition ring (m : gmap Z Z) (lo : Z) (q : list Z) (hi : Z) : Prop :=
  0 <= lo < 2 ^ 16 /\ hi = u16 (lo + Z.of_nat (length q)) /\
  forall k x, q !! k = Some x -> m !! ((lo + Z.of_nat k) mod NUM) = Some x.

Lemma u16_mod z : u16 z mod NUM = z mod NUM.
Proof. unfold u16, NUM. change (2 ^ 16) with (64 * 1024). rewrite Z.rem_mul_r, Z.mul_comm, Z.mod_add, Z.mod_mod; lia. Qed.

Lemma ring_push m lo q hi x :
  ring m lo q hi -> (length q < 64)%nat -> ring (<[hi mod NUM := x]> m) lo (q ++ [x]) (u16 (hi + 1)).
Proof.
  intros (Hlo & -> & Hq) Hlen. split; [done|]. split.
  - rewrite length_app. simpl length. unfold u16. rewrite Zplus_mod_idemp_l. f_equal. lia.
  - intros k y Hk. rewrite u16_mod. destruct (decide (k = length q)) as [->|Hne].
    + rewrite lookup_app_r, Nat.sub_diag in Hk by lia. injection Hk as <-. apply lookup_insert_eq.
    + assert (k < length q)%nat as Hlt.
      { apply lookup_lt_Some in Hk. rewrite length_app in Hk. simpl in Hk. lia. }
      rewrite lookup_app_l in Hk by done. rewrite lookup_insert_ne; [by apply Hq|].
      unfold NUM. intros E. zdiv.
Qed.

Lemma ring_pop m lo x q hi :
  ring m lo (x :: q) hi -> m !! (lo mod NUM) = Some x /\ ring m (u16 (lo + 1)) q hi.
Proof.
  intros (Hlo & -> & Hq). split.
  - specialize (Hq 0%nat x eq_refl). by rewrite Z.add_0_r in Hq.
  - split; [apply Z.mod_pos_bound; lia|]. split.
    + simpl length. unfold u16. rewrite Zplus_mod_idemp_l. f_equal. lia.
    + intros k y Hk. specialize (Hq (S k) y Hk). rewrite <- Hq. f_equal.
      rewrite <- Zplus_mod_idemp_l, u16_mod, Zplus_mod_idemp_l. f_equal. lia.
Qed.

Lemma ring_empty m lo q hi : ring m lo q hi -> (length q < 64)%nat -> (lo = hi <-> q = []).
Proof.
  intros (Hlo & -> & _) Hlen. unfold u16. split.
  - intros E. destruct q as [|x q]; [done|]. simpl length in *. zdiv.
  - intros ->. simpl. rewrite Z.add_0_r. by rewrite Z.mod_small.
Qed.

(** ** Lists of descriptors *)

Lemma nodup_range_length (l : list Z) n :
  NoDup l -> Forall (fun i => 0 <= i < Z.of_nat n) l -> (length l <= n)%nat.
Proof.
  intros Hn Hf. assert (length (seqZ 0 (Z.of_nat n)) = n) as <- by (rewrite length_seqZ; lia).
  apply submseteq_length, NoDup_submseteq; [done|]. intros x Hx. apply elem_of_seqZ.
  eapply Forall_forall in Hf; [|exact Hx]. lia.
Qed.

Lemma NoDup_map_inj {A B} (f : A -> B) l x y :
  NoDup (map f l) -> x ∈ l -> y ∈ l -> f x = f y -> x = y.
Proof.
  induction l as [|z l IH]; [by intros _ ?%elem_of_nil|]. cbn. intros [Hz Hn]%NoDup_cons Hx Hy E.
  rewrite !elem_of_cons in Hx, Hy.
  assert (forall w, w ∈ l -> f w <> f z) as Hne.
  { intros w Hw Ew. apply Hz. rewrite <- Ew. apply list_elem_of_fmap. by exists w. }
  destruct Hx as [->|Hx], Hy as [->|Hy]; [done| | |by apply IH].
  - by destruct (Hne y Hy).
  - by destruct (Hne x Hx).
Qed.

Lemma entries_lookup {A} (x : A) i : 0 <= i < NUM -> (entries x : gmap Z A) !! i = Some x.
Proof.
  intros Hi. unfold entries. apply lookup_gset_to_gmap_Some. split; [|done].
  apply elem_of_list_to_set, elem_of_seqZ. lia.
Qed.

Lemma refuse_bits l f k :
  0 <= k -> Forall (fun j => 0 <= j) l ->
  Z.testbit (refuse l f) k = Z.testbit f k && negb (bool_decide (k ∈ l)).
Proof.
  intros Hk. unfold refuse. revert f. induction l as [|j l IH]; intros f Hl; cbn [fold_left].
  - rewrite bool_decide_eq_false_2 by (by intros ?%elem_of_nil). by rewrite andb_true_r.
  - apply Forall_cons in Hl as [Hj Hl]. rewrite IH by done. rewrite Z.ldiff_spec, <- andb_assoc. f_equal.
    rewrite Z.pow2_bits_eqb by done. rewrite (bool_decide_ext (k ∈ j :: l) (k = j \/ k ∈ l)) by apply elem_of_cons.
    destruct (Z.eqb_spec j k) as [->|Hne].
    + by rewrite (bool_decide_eq_true_2 (k = k \/ k ∈ l)) by (by left).
    + cbn. f_equal. apply bool_decide_ext. split; [by right|]. by intros [->|?].
Qed.

(** ** What the set-up of a device writes *)

Section Setup.
Variable mmio : list (Z * Z) -> Z -> Z.

(** The register writes up to the first read of the features, and up to the
    second one of the status. *)
Definition log3 : list (Z * Z) := [(112, 0); (112, 1); (112, 3)].
Definition log5 (f : Z) : list (Z * Z) := log3 ++ [(32, f); (112, 11)].
Definition queue_log (k d a u : Z) : list (Z * Z) :=
  [(48, u32 k); (56, 64); (128, u32 d); (132, u32 (Z.shiftr d 32)); (144, u32 a); (148, u32 (Z.shiftr a 32));
   (160, u32 u); (164, u32 (Z.shiftr u 32)); (68, 1)].

(** A computation that does not return. *)
Definition fails {S A} (r : result (A * S)) : Prop := match r with Done _ => False | _ => True end.

Lemma bind_fails {S A B} (m : M S A) (k : A -> M S B) s : fails (m s) -> fails (bind m k s).
Proof. unfold bind. by destruct (m s) as [[a s']| | | |]. Qed.

Lemma probe_outcome id msg log : fails (probe mmio id msg log) \/ probe mmio id msg log = Done (tt, log).
Proof. unfold probe, bind, R. destruct (_ || _); [by left|by right]. Qed.

Lemma negotiate_outcome refused msg :
  fails (negotiate mmio refused msg []) \/
  (exists f st, negotiate mmio refused msg [] = Done (st, log5 f) /\ st = u32 (mmio (log5 f) 112) /\
     Z.testbit st 3 = true /\ f = u32 (refuse refused (u32 (mmio log3 16)))).
Proof.
  set (f := u32 (refuse refused (u32 (mmio log3 16)))).
  set (st := u32 (mmio (log5 f) 112)).
  assert (negotiate mmio refused msg [] = if Z.land st 8 =? 0 then Panic msg else Done (st, log5 f)) as ->.
  { unfold st, negotiate, bind, R, W, panic, ret. by destruct (Z.land _ 8 =? 0). }
  destruct (Z.eqb_spec (Z.land st 8) 0) as [E|E]; [by left|]. right. exists f, st.
  split; [done|]. split; [done|]. split; [|done].
  apply not_false_is_true. intros Hb. apply E. apply Z.bits_inj'. intros k Hk.
  rewrite Z.land_spec, Z.bits_0. change 8 with (2 ^ 3). rewrite Z.pow2_bits_eqb by lia.
  destruct (Z.eqb_spec 3 k) as [<-|]; [by rewrite Hb|apply andb_false_r].
Qed.

Lemma setup_queue_outcome ready none short nomem k d a u log :
  (forall log, fails (nomem log)) ->
  fails (setup_queue mmio ready none short nomem k d a u log) \/
  (setup_queue mmio ready none short nomem k d a u log = Done (tt, log ++ queue_log k d a u) /\
     NUM <= u32 (mmio (log ++ [(48, u32 k)]) 52) /\ d <> 0 /\ a <> 0 /\ u <> 0).
Proof.
  intros Hn. set (max := u32 (mmio (log ++ [(48, u32 k)]) 52)).
  assert (setup_queue mmio ready none short nomem k d a u log =
    if negb (u32 (mmio (log ++ [(48, u32 k)]) 68) =? 0) then Panic ready
    else if max =? 0 then Panic none
    else if max <? NUM then Panic short
    else if (d =? 0) || (a =? 0) || (u =? 0) then nomem (log ++ [(48, u32 k)])
    else Done (tt, log ++ queue_log k d a u)) as ->.
  { unfold max, setup_queue, write_addr, bind, R, W, panic, ret, queue_log. cbn -[Z.eqb Z.ltb u32 Z.shiftr NUM].
    destruct (negb _); [done|]. destruct (_ =? 0); [done|]. destruct (_ <? NUM); [done|].
    destruct (_ || _); [done|]. by rewrite <- !app_assoc. }
  destruct (negb _); [by left|]. destruct (max =? 0); [by left|].
  destruct (Z.ltb_spec max NUM); [by left|].
  destruct ((d =? 0) || (a =? 0) || (u =? 0)) eqn:E; [left; apply Hn|]. right. split; [done|].
  rewrite !orb_false_iff, !Z.eqb_neq in E. tauto.
Qed.

(** What a driver offers: the features of the device but for those it turns
    down. *)
Lemma offered_bits refused f k : Forall (fun j => 0 <= j) refused -> 0 <= k < 32 ->
  Z.testbit (u32 (refuse refused (u32 f))) k = Z.testbit f k && negb (bool_decide (k ∈ refused)).
Proof.
  intros Hr Hk. unfold u32. rewrite Z.mod_pow2_bits_low by lia.
  rewrite refuse_bits by (lia || done). by rewrite Z.mod_pow2_bits_low by lia.
Qed.

End Setup.
