(* ===== verification/VirtioInput.v ===== *)
(** * The virtio input device: set-up, and delivery of its events

    [virtio_input_init] and [queue_init] of virtio_input.c, and the driver of
    [Input] together with its device and the keyboard's readers. *)
From S2P Require Import Prelude Virtq Input.

Definition EVENT_Q : Z := 0.
Definition STATUS_Q : Z := 1.
Definition SIZEOF_EVENT : Z := 8.

(** A descriptor; its address is that of a buffer [info[EVENT_Q][b]], or null. *)
Record event_desc : Type := mkEDesc { e_addr : option Z; e_len : Z; e_flags : Z; e_next : Z }.

(** The driver with the memory of its event queue.  That of the status queue
    is cleared and not used. *)
Record vinput : Type := mkVinput {
  desc : gmap Z event_desc;
  avail_ring : gmap Z Z;
  drv : input_t
}.

Section Init.
Variable mmio : list (Z * Z) -> Z -> Z.

(** The feature bits the driver turns down. *)
Definition refused : list Z := [27; 29; 28].

Definition probe : M (list (Z * Z)) unit := Virtq.probe mmio 18 "could not find virtio input".
Definition negotiate : M (list (Z * Z)) Z := Virtq.negotiate mmio refused "virtio input FEATURES_OK unset".

(** The three addresses come from [mem_malloc] and are not tested; clearing
    memory at the null pointer is a fault. *)
Definition queue_init (idx desc avail used : Z) : M (list (Z * Z)) unit :=
  Virtq.setup_queue mmio "virtio input should not be ready" "virtio input has no queue 0"
    "virtio input max queue too short" fault idx desc avail used.

(** The event queue after [memset]. *)
Definition fresh_input (s : input_t) : vinput :=
  mkVinput (entries (mkEDesc None 0 0 0)) (entries 0)
    (mkInput 0 0 (replicate 64 0) (info s) 0 (keyboard s)).

(** The loop that fills the queue with buffers, from [i] on. *)
Fixpoint populate (k : nat) (i : Z) (v : vinput) : vinput :=
  match k with
  | O => v
  | S k =>
    let s := drv v in
    populate k (i + 1)
      (mkVinput (<[i := mkEDesc (Some i) SIZEOF_EVENT VRING_DESC_F_WRITE 0]> (desc v)) (<[i := i]> (avail_ring v))
        (mkInput (used_idx s) (dev_idx s) (ring s) (info s) (u16 (avail_idx s + 1)) (keyboard s)))
  end.

Definition virtio_input_init (d0 a0 u0 d1 a1 u1 : Z) (s : input_t) : M (list (Z * Z)) vinput :=
  probe;;; st <- negotiate;;
  queue_init EVENT_Q d0 a0 u0;;;
  queue_init STATUS_Q d1 a1 u1;;;
  let v := populate (Z.to_nat Virtq.NUM) 0 (fresh_input s) in
  W VIRTIO_MMIO_STATUS (Z.lor st 4);;;
  ret v.

End Init.

(** ** The driver, its device and the readers of the keyboard

    The device takes the next buffer of the available ring, fills it with one
    event and returns it at once; [dev_last] is how far it has looked, [sent]
    the events it has reported, oldest first. *)
Record sys : Type := mkSys { input : vinput; dev_last : Z; sent : list keyboard_event_t }.

Definition with_drv (s : input_t) (v : vinput) : vinput := mkVinput (desc v) (avail_ring v) s.

(** The device reports [ev] in the buffer [b] of the descriptor [h]. *)
Definition report (h b : Z) (ev : keyboard_event_t) (s : input_t) : input_t :=
  mkInput (used_idx s) (u16 (dev_idx s + 1)) (arr_set (ring s) (dev_idx s mod Virtq.NUM) h)
    (arr_set (info s) b ev) (avail_idx s) (keyboard s).

Definition with_keyboard (k : keyboard_t) (s : input_t) : input_t :=
  mkInput (used_idx s) (dev_idx s) (ring s) (info s) (avail_idx s) k.

Definition interrupt : M input_t unit := virtio_input_intr (Z.to_nat 65537).

Inductive step : sys -> sys -> Prop :=
| step_event s ev h b e :
    dev_last s <> avail_idx (drv (input s)) ->
    avail_ring (input s) !! (dev_last s mod Virtq.NUM) = Some h ->
    desc (input s) !! h = Some e -> e_addr e = Some b -> SIZEOF_EVENT <= e_len e -> e_flags e = VRING_DESC_F_WRITE ->
    step s (mkSys (with_drv (report h b ev (drv (input s))) (input s)) (u16 (dev_last s + 1)) (sent s ++ [ev]))
| step_intr s d :
    interrupt (drv (input s)) = Done (tt, d) ->
    step s (mkSys (with_drv d (input s)) (dev_last s) (sent s))
| step_read s n r k :
    keyboard_read_event 0 n (keyboard (drv (input s))) = Done (r, k) ->
    step s (mkSys (with_drv (with_keyboard k (drv (input s))) (input s)) (dev_last s) (sent s)).

(** After [virtio_input_init] on a device that accepts it, and
    [keyboard_init]. *)
Definition initial (s : sys) : Prop :=
  exists mmio d0 a0 u0 d1 a1 u1 s0 kb log,
    virtio_input_init mmio d0 a0 u0 d1 a1 u1 s0 [] = Done (input s, log) /\
    keyboard s0 = keyboard_init kb /\ length (buffer kb) = 128%nat /\ length (info s0) = 64%nat /\
    dev_last s = 0 /\ sent s = [].

(** ** Proofs *)

Definition full_desc (i : Z) : event_desc := mkEDesc (Some i) SIZEOF_EVENT VRING_DESC_F_WRITE 0.

(** All buffers are in the queue, the buffer [i] at place [i] of the ring. *)
Definition populated (v : vinput) : Prop :=
  forall i, 0 <= i < 64 -> desc v !! i = Some (full_desc i) /\ avail_ring v !! i = Some i.

Lemma populate_spec k : forall i v, 0 <= i -> i + Z.of_nat k = 64 -> avail_idx (drv v) = i ->
  (forall j, 0 <= j < i -> desc v !! j = Some (full_desc j) /\ avail_ring v !! j = Some j) ->
  let w := populate k i v in
  populated w /\ drv w = mkInput (used_idx (drv v)) (dev_idx (drv v)) (ring (drv v)) (info (drv v)) 64 (keyboard (drv v)).
Proof.
  induction k as [|k IH]; intros i v Hi Hk Ha Hj; cbn [populate].
  - assert (i = 64) as -> by lia. split; [exact Hj|]. rewrite <- Ha. by destruct (drv v).
  - match goal with |- context [populate k (i + 1) ?v'] => apply (IH (i + 1) v') end;
      cbn [drv desc avail_ring avail_idx]; [lia|lia|rewrite Ha; apply Z.mod_small; lia|].
    intros j Hj'. destruct (decide (j = i)) as [->|]; [by rewrite !lookup_insert_eq|].
    rewrite !lookup_insert_ne by done. apply Hj. lia.
Qed.

(** Set-up fails or follows the specification's sequence: reset, acknowledge,
    offer exactly the device's features without the refused ones, check
    FEATURES_OK, describe both queues, fill the event queue and only then set
    DRIVER_OK. *)
Lemma virtio_input_init_sequence mmio d0 a0 u0 d1 a1 u1 s :
  fails (virtio_input_init mmio d0 a0 u0 d1 a1 u1 s []) \/
  (exists f st, virtio_input_init mmio d0 a0 u0 d1 a1 u1 s [] =
     Done (populate 64 0 (fresh_input s), log5 f ++ queue_log 0 d0 a0 u0 ++ queue_log 1 d1 a1 u1 ++ [(112, u32 (Z.lor st 4))]) /\
   st = u32 (mmio (log5 f) 112) /\ Z.testbit st 3 = true /\
   (forall k, 0 <= k < 32 -> Z.testbit f k = Z.testbit (mmio log3 16) k && negb (bool_decide (k ∈ refused)))).
Proof.
  unfold virtio_input_init, probe, negotiate, queue_init, EVENT_Q, STATUS_Q.
  destruct (probe_outcome mmio 18 "could not find virtio input" []) as [H1|H1]; [left; by apply bind_fails|].
  rewrite (bind_done _ _ _ _ _ H1).
  destruct (negotiate_outcome mmio refused "virtio input FEATURES_OK unset") as [H2|(f & st & H2 & Hst & Hok & Hf)];
    [left; by apply bind_fails|].
  rewrite (bind_done _ _ _ _ _ H2).
  destruct (setup_queue_outcome mmio "virtio input should not be ready" "virtio input has no queue 0"
    "virtio input max queue too short" fault 0 d0 a0 u0 (log5 f)) as [H3|(H3 & _)]; [done|left; by apply bind_fails|].
  rewrite (bind_done _ _ _ _ _ H3).
  destruct (setup_queue_outcome mmio "virtio input should not be ready" "virtio input has no queue 0"
    "virtio input max queue too short" fault 1 d1 a1 u1 (log5 f ++ queue_log 0 d0 a0 u0)) as [H4|(H4 & _)];
    [done|left; by apply bind_fails|].
  rewrite (bind_done _ _ _ _ _ H4). right. exists f, st. split; [|split; [done|split; [done|]]].
  - unfold bind, W, ret. rewrite <- !app_assoc. done.
  - intros k Hk. rewrite Hf. apply offered_bits; [by repeat constructor|done].
Qed.

(** *** What the interrupt handler and a read leave alone *)

Definition same_queue (s s' : input_t) : Prop := dev_idx s' = dev_idx s /\ ring s' = ring s /\ info s' = info s.

Lemma drain_keeps fuel : forall s s', drain fuel s = Done (tt, s') -> same_queue s s'.
Proof.
  induction fuel as [|fuel IH]; intros s s' H; [done|]. cbn [drain] in H. rewrite bind_get in H.
  destruct (used_idx s =? dev_idx s); [by injection H as <-|].
  destruct (arr_get (ring s) _) as [id|]; [|done]. rewrite bind_modify in H.
  destruct (arr_get (info s) id) as [ev|]; [|done].
  apply bind_inv in H as ([] & s1 & H1 & H). apply IH in H.
  unfold run_kb in H1. destruct (keyboard_intr ev _) as [[[] k]| | | |]; [|done..]. by injection H1 as <-.
Qed.

Lemma refill_keeps fuel : forall s s', refill fuel s = Done (tt, s') -> same_queue s s'.
Proof.
  induction fuel as [|fuel IH]; intros s s' H; [done|]. cbn [refill] in H. rewrite bind_get in H.
  destruct (avail_idx s - dev_idx s <? Input.NUM); [|by injection H as <-]. rewrite bind_modify in H.
  by apply IH in H.
Qed.

Lemma intr_keeps fuel s s' : virtio_input_intr fuel s = Done (tt, s') -> same_queue s s'.
Proof.
  intros H. apply bind_inv in H as ([] & s1 & H1%drain_keeps & H2%refill_keeps).
  destruct H1 as (E1 & E2 & E3), H2 as (F1 & F2 & F3). repeat split; congruence.
Qed.

Lemma read_view k evs n r k' : kb_view k evs -> Z.of_nat (length evs) < 2 ^ 31 ->
  keyboard_read_event 0 n k = Done (r, k') -> kb_view k' evs.
Proof.
  intros Hv Hlen H. pose proof Hv as (Hl & Hk & Hh & Ht & Hd & Hb). unfold keyboard_read_event in H.
  destruct (n <? 4); [by injection H as _ <-|].
  rewrite (bind_done _ _ _ _ _ (lm_lock_free k Hk)), bind_get in H.
  destruct (_ =? _); [injection H as <- <-; destruct k; cbn in Hk; subst; exact Hv|].
  apply bind_inv in H as (l & k1 & H1 & H). unfold buffer_bytes in H1.
  destruct (_ && _); [|done]. injection H1 as <- <-. injection H as <- <-.
  cbn [head]. unfold s32. rewrite Z.mod_small by lia.
  split_and!; cbn [buffer lock_held head tail]; try done; try lia.
  intros i x Hi Hx%lookup_lt_Some. lia.
Qed.

(** *** The invariant *)

Definition accepted (l : list keyboard_event_t) : list keyboard_event_t := fold_left accept l [].

Lemma accepted_app l l' : accepted (l ++ l') = fold_left accept l' (accepted l).
Proof. apply fold_left_app. Qed.

Lemma accepted_length l : (length (accepted l) <= length l)%nat.
Proof.
  induction l as [|x l IH] using rev_ind; [done|]. rewrite accepted_app. cbn. unfold accept.
  destruct (_ =? 1); rewrite ?length_app; cbn; lia.
Qed.

(** The driver has seen the first [u] events. *)
Record inv (s : sys) (u : nat) : Prop := {
  I_queue : populated (input s);
  I_count : (u <= length (sent s) <= u + 64)%nat /\ Z.of_nat u + 64 < 2 ^ 16;
  I_idx : used_idx (drv (input s)) = Z.of_nat u /\ dev_idx (drv (input s)) = Z.of_nat (length (sent s)) /\
    avail_idx (drv (input s)) = Z.of_nat u + 64 /\ dev_last s = Z.of_nat (length (sent s));
  I_len : length (ring (drv (input s))) = 64%nat /\ length (info (drv (input s))) = 64%nat;
  I_buf : forall j ev, (u <= j)%nat -> sent s !! j = Some ev ->
    ring (drv (input s)) !! (j mod 64)%nat = Some (Z.of_nat (j mod 64)) /\ info (drv (input s)) !! (j mod 64)%nat = Some ev;
  I_kb : kb_view (keyboard (drv (input s))) (accepted (take u (sent s)))
}.

Lemma input_initial_inv s : initial s -> inv s 0.
Proof.
  intros (mmio & d0 & a0 & u0 & d1 & a1 & u1 & s0 & kb & log & H & Hk & Hb & Hi & Hl & Hs).
  destruct (virtio_input_init_sequence mmio d0 a0 u0 d1 a1 u1 s0) as [E|(f & st & E & _)]; rewrite H in E; [done|].
  apply done_inv in E as [E _].
  pose proof (populate_spec 64 0 (fresh_input s0)) as P.
  lapply P; [clear P; intros P|lia]. lapply P; [clear P; intros P|done]. lapply P; [clear P; intros P|done].
  lapply P; [clear P; intros P|intros j Hj; lia]. cbv zeta in P. rewrite <- E in P. clear E. destruct P as [Hp Hd].
  constructor; rewrite ?Hd, ?Hs; cbn [used_idx dev_idx ring info avail_idx keyboard drv fresh_input sent length].
  - done.
  - lia.
  - by split_and!.
  - by rewrite length_replicate.
  - by intros [|j] ev _.
  - rewrite Hk. split_and!; cbn; try done; try lia.
Qed.

(** The events that the driver has not seen are those of the used ring. *)
Lemma queued_spec rg inf k : forall (u : nat) l, length l = k -> Z.of_nat (u + k) < 65536 ->
  (forall j ev, (j < k)%nat -> l !! j = Some ev ->
     rg !! ((u + j) mod 64)%nat = Some (Z.of_nat ((u + j) mod 64)) /\ inf !! ((u + j) mod 64)%nat = Some ev) ->
  queued k (Z.of_nat u) rg inf = Some l.
Proof.
  induction k as [|k IH]; intros u l Hl Hu Hj; destruct l as [|ev l]; try done.
  cbn [queued]. destruct (Hj 0%nat ev ltac:(lia) eq_refl) as [Hr Hi]. rewrite Nat.add_0_r in Hr, Hi.
  assert (Z.of_nat u mod Input.NUM = Z.of_nat (u mod 64)) as -> by by rewrite Nat2Z.inj_mod.
  unfold arr_get. rewrite !(proj2 (Z.ltb_ge _ _)) by lia. rewrite Nat2Z.id, Hr.
  rewrite (proj2 (Z.ltb_ge _ _)) by lia. rewrite Nat2Z.id, Hi.
  assert (u16 (Z.of_nat u + 1) = Z.of_nat (S u)) as -> by (unfold u16; rewrite Z.mod_small; lia).
  rewrite (IH (S u) l); [done|by injection Hl|lia|].
  intros j e Hlt He. replace (S u + j)%nat with (u + S j)%nat by lia. apply (Hj (S j) e); [lia|done].
Qed.

(** What the handler does in a reachable state. *)
Lemma interrupt_outcome s u : inv s u ->
  if Z.of_nat (length (sent s)) <? 65472 then
    exists d, interrupt (drv (input s)) = Done (tt, d) /\ kb_view (keyboard d) (accepted (sent s)) /\
      inv (mkSys (with_drv d (input s)) (dev_last s) (sent s)) (length (sent s))
  else forall fuel, virtio_input_intr fuel (drv (input s)) = NoFuel.
Proof.
  intros [Hp [Hu Hu2] (Eu & Ed & Ea & El) [Hl1 Hl2] Hb Hk].
  set (l := drop u (sent s)). assert (length l = (length (sent s) - u)%nat) as Hl by (unfold l; by rewrite length_drop).
  pose proof (accepted_length (take u (sent s))) as Hacc. rewrite length_take in Hacc.
  pose proof (virtio_input_intr_drains (drv (input s)) (accepted (take u (sent s))) l) as H.
  rewrite Eu, Ed, Ea in H.
  lapply H; [clear H; intros H|lia]. lapply H; [clear H; intros H|lia]. specialize (H Hk).
  lapply H; [clear H; intros H|unfold u16; rewrite Z.mod_small; lia]. lapply H; [clear H; intros H|lia].
  lapply H; [clear H; intros H|].
  2:{ apply queued_spec; [done|lia|]. intros j ev Hj He. unfold l in He. rewrite lookup_drop in He. apply Hb; [lia|done]. }
  lapply H; [clear H; intros H|lia]. unfold Input.NUM in H.
  rewrite <- accepted_app in H. unfold l in H. rewrite take_drop in H. clear Hl. clearbody l.
  destruct (Z.ltb_spec (Z.of_nat (length (sent s))) 65472).
  - rewrite (proj2 (Z.ltb_lt _ _)) in H by lia. destruct H as (d & Hd & H1 & H2 & H3).
    exists d. split; [exact Hd|]. split; [done|]. destruct (intr_keeps _ _ _ Hd) as (F1 & F2 & F3).
    constructor; cbn [input with_drv drv sent dev_last]; rewrite ?F1, ?F2, ?F3; try done.
    + lia.
    + split_and!; [done|done|lia|done].
    + intros j ev Hj He%lookup_lt_Some. lia.
    + by rewrite firstn_all.
  - by rewrite (proj2 (Z.ltb_ge _ _)) in H by lia.
Qed.

Lemma event_inv s u ev h b e : inv s u -> dev_last s <> avail_idx (drv (input s)) ->
  avail_ring (input s) !! (dev_last s mod Virtq.NUM) = Some h -> desc (input s) !! h = Some e -> e_addr e = Some b ->
  inv (mkSys (with_drv (report h b ev (drv (input s))) (input s)) (u16 (dev_last s + 1)) (sent s ++ [ev])) u.
Proof.
  intros [Hp [Hu Hu2] (Eu & Ed & Ea & El) [Hl1 Hl2] Hb Hk] Hne Hr Hd Hx.
  set (n := length (sent s)) in *. rewrite Ea, El in Hne. assert (n mod 64 < 64)%nat as Hm by (apply Nat.mod_upper_bound; lia).
  assert (dev_last s mod Virtq.NUM = Z.of_nat (n mod 64)) as Em by (rewrite El, Nat2Z.inj_mod; done).
  assert (h = Z.of_nat (n mod 64)) as ->.
  { rewrite Em in Hr. destruct (Hp (Z.of_nat (n mod 64))) as [_ H]; [lia|]. congruence. }
  assert (b = Z.of_nat (n mod 64)) as ->.
  { destruct (Hp (Z.of_nat (n mod 64))) as [H _]; [lia|]. rewrite H in Hd. injection Hd as <-. by injection Hx. }
  assert (u16 (Z.of_nat n + 1) = Z.of_nat n + 1) as Eu16 by (unfold u16; apply Z.mod_small; lia).
  assert (Z.of_nat n mod Virtq.NUM = Z.of_nat (n mod 64)) as Em' by by rewrite Nat2Z.inj_mod.
  constructor; cbn [input with_drv drv report sent dev_last used_idx dev_idx ring info avail_idx keyboard]; rewrite ?length_app.
  - done.
  - cbn. lia.
  - rewrite Ed, El, Eu16. cbn [length]. split_and!; try done; lia.
  - unfold arr_set. by rewrite !length_insert.
  - intros j x Hj Hx'. unfold arr_set. rewrite Ed, Em', Nat2Z.id. apply lookup_app_Some in Hx' as [Hx'|[Hge Hx']].
    + pose proof (lookup_lt_Some _ _ _ Hx'). fold n in H. assert ((n mod 64) <> (j mod 64))%nat as Hn.
      { intros E%(f_equal Z.of_nat). rewrite !Nat2Z.inj_mod in E. zdiv. }
      rewrite !list_lookup_insert_ne by done. by apply Hb.
    + apply list_lookup_singleton_Some in Hx' as [Hj0 <-]. replace j with n by lia.
      rewrite !list_lookup_insert_eq by lia. done.
  - by rewrite take_app_le by lia.
Qed.

Lemma input_step_inv s s' u : inv s u -> step s s' -> exists u', inv s' u'.
Proof.
  intros HI Hs. inversion Hs as [? ev h b e Hne Hr Hd Hx _ _|? d Hd|? n r k Hr]; subst.
  - exists u. by eapply event_inv.
  - pose proof (interrupt_outcome s u HI) as H. destruct (_ <? _).
    + destruct H as (d' & Hd' & _ & HI'). rewrite Hd in Hd'. apply done_inv in Hd' as [_ <-]. by eexists.
    + unfold interrupt in Hd. by rewrite H in Hd.
  - exists u. destruct HI as [Hp Hu Hi Hl Hb Hk]. split; try done.
    eapply read_view; [exact Hk| |exact Hr].
    pose proof (accepted_length (take u (sent s))) as Ha. rewrite length_take in Ha. cbn [sent]. lia.
Qed.


(** ** A concrete device that accepts, and one key press *)

Definition demo_input_mmio (log : list (Z * Z)) (r : Z) : Z :=
  if r =? 0 then 1953655158 else if r =? 4 then 2 else if r =? 8 then 18 else if r =? 12 then 1431127377
  else if r =? 16 then 514 else if r =? 52 then 1024 else if r =? 112 then 11 else 0.
Definition demo_before : input_t := mkInput 0 0 [] (replicate 64 (key 0)) 0 demo_kb.
Definition demo_vinput : vinput := populate 64 0 (fresh_input demo_before).
Definition demo_idle : sys := mkSys demo_vinput 0 [].
Definition demo_pressed : sys := 
  mkSys (with_drv (report 0 0 (key 30) (drv (input demo_idle))) (input demo_idle)) (u16 (dev_last demo_idle + 1)) (sent demo_idle ++ [key 30]).

Lemma demo_idle_initial : initial demo_idle.
Proof.
  assert (exists log, virtio_input_init demo_input_mmio 4096 8192 12288 16384 20480 24576 demo_before [] = Done (demo_vinput, log)) as [log H]
    by (eexists; vm_compute; reflexivity).
  exists demo_input_mmio, 4096, 8192, 12288, 16384, 20480, 24576, demo_before, demo_kb, log. by split_and!.
Qed.

Lemma demo_press : rtc step demo_idle demo_pressed.
Proof.
  assert (dev_last demo_idle <> avail_idx (drv (input demo_idle))) as H1 by (vm_compute; discriminate).
  assert (avail_ring (input demo_idle) !! (dev_last demo_idle mod Virtq.NUM) = Some 0) as H2 by (vm_compute; reflexivity).
  assert (desc (input demo_idle) !! 0 = Some (full_desc 0)) as H3 by (vm_compute; reflexivity).
  apply rtc_once. exact (step_event demo_idle (key 30) 0 0 (full_desc 0) H1 H2 H3 eq_refl (Z.le_refl 8) eq_refl).
Qed.

