(* ===== verification/VirtioDisk.v ===== *)
(** * The disk driver: virtio_disk.c

    The descriptor table, the available and used rings and the driver's own
    bookkeeping, as arrays of [NUM] entries.  Pointers handed to the device
    are named by what they point to.  [virtio_disk_rw] is cut where it sleeps:
    [rw_submit] up to the notification and [rw_wait] after it; each part runs
    under [vdisk_lock].  The device is the part of the step relation at the
    end, as the virtio specification describes it. *)
From S2P Require Import Prelude Virtq.

Definition BSIZE : Z := 1024.
Definition VIRTIO_BLK_T_IN : Z := 0.
Definition VIRTIO_BLK_T_OUT : Z := 1.

(** What a descriptor's address is: [&ops[i]], [b->data], [&info[i].status]. *)
Inductive dptr : Type :=
| PNull
| POp (i : Z)
| PData (b : Z)
| PStatus (i : Z).

Record virtq_desc : Type := mkDesc { addr : dptr; len : Z; flags : Z; next : Z }.
Record virtio_blk_req : Type := mkReq { type : Z; reserved : Z; sector : Z }.
Record info_t : Type := mkInfo { info_b : option Z; status : Z }.

(** Channels of [sleep] and [wakeup]: [&disk.free[0]] and a buffer. *)
Inductive chan : Type :=
| ChFree
| ChBuf (b : Z).

Record disk : Type := mkDisk {
  desc : gmap Z virtq_desc;
  free : gmap Z bool;
  info : gmap Z info_t;
  ops : gmap Z virtio_blk_req;
  avail_ring : gmap Z Z;
  avail_idx : Z;
  used_ring : gmap Z Z;
  dev_used_idx : Z;           (* disk.used->idx *)
  used_idx : Z;               (* disk.used_idx *)
  bdisk : gmap Z bool;        (* b->disk *)
  bblockno : gmap Z Z;        (* b->blockno *)
  woken : list chan
}.

Definition dk (A : Type) : Type := M disk A.

Definition set_desc (i : Z) (x : virtq_desc) (d : disk) : disk :=
  mkDisk (<[i := x]> (desc d)) (free d) (info d) (ops d) (avail_ring d) (avail_idx d) (used_ring d)
         (dev_used_idx d) (used_idx d) (bdisk d) (bblockno d) (woken d).
Definition set_free (i : Z) (x : bool) (d : disk) : disk :=
  mkDisk (desc d) (<[i := x]> (free d)) (info d) (ops d) (avail_ring d) (avail_idx d) (used_ring d)
         (dev_used_idx d) (used_idx d) (bdisk d) (bblockno d) (woken d).
Definition set_info (i : Z) (x : info_t) (d : disk) : disk :=
  mkDisk (desc d) (free d) (<[i := x]> (info d)) (ops d) (avail_ring d) (avail_idx d) (used_ring d)
         (dev_used_idx d) (used_idx d) (bdisk d) (bblockno d) (woken d).
Definition set_op (i : Z) (x : virtio_blk_req) (d : disk) : disk :=
  mkDisk (desc d) (free d) (info d) (<[i := x]> (ops d)) (avail_ring d) (avail_idx d) (used_ring d)
         (dev_used_idx d) (used_idx d) (bdisk d) (bblockno d) (woken d).
Definition set_avail (i x : Z) (d : disk) : disk :=
  mkDisk (desc d) (free d) (info d) (ops d) (<[i := x]> (avail_ring d)) (avail_idx d) (used_ring d)
         (dev_used_idx d) (used_idx d) (bdisk d) (bblockno d) (woken d).
Definition set_avail_idx (x : Z) (d : disk) : disk :=
  mkDisk (desc d) (free d) (info d) (ops d) (avail_ring d) x (used_ring d)
         (dev_used_idx d) (used_idx d) (bdisk d) (bblockno d) (woken d).
Definition set_used (i x idx : Z) (d : disk) : disk :=
  mkDisk (desc d) (free d) (info d) (ops d) (avail_ring d) (avail_idx d) (<[i := x]> (used_ring d))
         idx (used_idx d) (bdisk d) (bblockno d) (woken d).
Definition set_used_idx (x : Z) (d : disk) : disk :=
  mkDisk (desc d) (free d) (info d) (ops d) (avail_ring d) (avail_idx d) (used_ring d)
         (dev_used_idx d) x (bdisk d) (bblockno d) (woken d).
Definition set_bdisk (b : Z) (x : bool) (d : disk) : disk :=
  mkDisk (desc d) (free d) (info d) (ops d) (avail_ring d) (avail_idx d) (used_ring d)
         (dev_used_idx d) (used_idx d) (<[b := x]> (bdisk d)) (bblockno d) (woken d).
Definition wake (c : chan) (d : disk) : disk :=
  mkDisk (desc d) (free d) (info d) (ops d) (avail_ring d) (avail_idx d) (used_ring d)
         (dev_used_idx d) (used_idx d) (bdisk d) (bblockno d) (c :: woken d).

(** An array access: outside the array it is a fault. *)
Definition rd {A} (f : disk -> gmap Z A) (i : Z) : dk A := fun d =>
  match f d !! i with Some x => Done (x, d) | None => Fault end.

Definition wakeup (c : chan) : dk unit := modify (wake c).

(** ** Descriptors *)

Fixpoint alloc_desc_loop (k : nat) (i : Z) : dk Z :=
  match k with
  | O => ret (-1)
  | S k => f <- rd free i;;
           if f : bool then modify (set_free i false);;; ret i else alloc_desc_loop k (i + 1)
  end.
Definition alloc_desc : dk Z := alloc_desc_loop (Z.to_nat NUM) 0.

Definition free_desc (i : Z) : dk unit :=
  if NUM <=? i then panic "free_desc 1"
  else
    f <- rd free i;;
    if f : bool then panic "free_desc 2"
    else
      modify (set_desc i (mkDesc PNull 0 0 0));;;
      modify (set_free i true);;;
      wakeup ChFree.

Fixpoint free_chain (fuel : nat) (i : Z) : dk unit :=
  match fuel with
  | O => nofuel
  | S fuel =>
    x <- rd desc i;;
    free_desc i;;;
    if negb (Z.land (flags x) VRING_DESC_F_NEXT =? 0) then free_chain fuel (next x) else ret tt
  end.

Fixpoint free_all (idx : list Z) : dk unit :=
  match idx with
  | [] => ret tt
  | i :: idx => free_desc i;;; free_all idx
  end.

(** [alloc3_desc]: [k] descriptors to go, [idx] so far. *)
Fixpoint alloc3_loop (k : nat) (idx : list Z) : dk (option (list Z)) :=
  match k with
  | O => ret (Some idx)
  | S k => i <- alloc_desc;;
           if i <? 0 then free_all idx;;; ret None else alloc3_loop k (idx ++ [i])
  end.
Definition alloc3_desc : dk (option (list Z)) := alloc3_loop 3 [].

(** ** Requests *)

(** The three descriptors of a request and its bookkeeping. *)
Definition format (b : Z) (write : bool) (sec i0 i1 i2 : Z) : dk unit :=
  modify (set_op i0 (mkReq (if write then VIRTIO_BLK_T_OUT else VIRTIO_BLK_T_IN) 0 sec));;;
  modify (set_desc i0 (mkDesc (POp i0) 16 VRING_DESC_F_NEXT i1));;;
  modify (set_desc i1 (mkDesc (PData b) BSIZE
            (Z.lor (if write then 0 else VRING_DESC_F_WRITE) VRING_DESC_F_NEXT) i2));;;
  x <- rd info i0;;
  modify (set_info i0 (mkInfo (info_b x) 255));;;
  modify (set_desc i2 (mkDesc (PStatus i0) 1 VRING_DESC_F_WRITE 0));;;
  modify (set_bdisk b true);;;
  modify (set_info i0 (mkInfo (Some b) 255)).

(** [virtio_disk_rw] up to its second sleep: [None] is a sleep for
    descriptors, [Some i] a request sent with head [i]. *)
Definition rw_submit (b : Z) (write : bool) : dk (option Z) :=
  n <- rd bblockno b;;
  r <- alloc3_desc;;
  match r with
  | Some [i0; i1; i2] =>
      format b write (u32 (n * (BSIZE / 512))) i0 i1 i2;;;
      a <- gets avail_idx;;
      modify (set_avail (a mod NUM) i0);;;
      modify (set_avail_idx (u16 (a + 1)));;;
      ret (Some i0)
  | _ => ret None
  end.

(** The rest, run when the task wakes up: whether the request is over. *)
Definition rw_wait (b i0 : Z) : dk bool :=
  busy <- rd bdisk b;;
  if busy : bool then ret false
  else
    x <- rd info i0;;
    modify (set_info i0 (mkInfo None (status x)));;;
    free_chain (S (Z.to_nat NUM)) i0;;;
    ret true.

Fixpoint intr_loop (fuel : nat) : dk unit :=
  match fuel with
  | O => nofuel
  | S fuel =>
    u <- gets used_idx;; n <- gets dev_used_idx;;
    if u =? n then ret tt
    else
      id <- rd used_ring (u mod NUM);;
      x <- rd info id;;
      if negb (status x =? 0) then panic "virtio_disk_intr status"
      else
        match info_b x with
        | None => fault
        | Some b =>
            modify (set_bdisk b false);;; wakeup (ChBuf b);;;
            modify (set_used_idx (u16 (u + 1)));;;
            intr_loop fuel
        end
  end.
Definition virtio_disk_intr : dk unit :=
  fuel <- gets (fun d => S (Z.to_nat (u16 (dev_used_idx d - used_idx d))));;
  intr_loop fuel.

(** ** Device set-up

    [log] is the sequence of register writes so far; a read returns what the
    device answers after them. *)
Section Init.
Variable mmio : list (Z * Z) -> Z -> Z.

(** The feature bits the driver turns down. *)
Definition refused : list Z := [5; 7; 11; 12; 27; 29; 28].

Definition probe : M (list (Z * Z)) unit := Virtq.probe mmio 2 "could not find virtio disk".
Definition negotiate : M (list (Z * Z)) Z := Virtq.negotiate mmio refused "virtio disk FEATURES_OK unset".

(** The queue at the addresses [desc], [avail] and [used] that [mem_malloc]
    returned. *)
Definition setup_queue (desc avail used : Z) : M (list (Z * Z)) unit :=
  Virtq.setup_queue mmio "virtio disk should not be ready" "virtio disk has no queue 0" "virtio disk max queue too short"
    (panic "virtio disk mem_malloc") 0 desc avail used.

(** The memory of the queue after [memset], and the static data, all zero
    but for the flags [free]. *)
Definition fresh_disk (blocks : gmap Z Z) : disk :=
  mkDisk (entries (mkDesc PNull 0 0 0)) (entries true) (entries (mkInfo None 0))
         (entries (mkReq 0 0 0)) (entries 0) 0 (entries 0) 0 0 (fmap (fun _ => false) blocks) blocks [].

Definition virtio_disk_init (desc avail used : Z) (blocks : gmap Z Z) : M (list (Z * Z)) disk :=
  probe;;; st <- negotiate;;
  setup_queue desc avail used;;;
  W VIRTIO_MMIO_STATUS (Z.lor st 4);;;
  ret (fresh_disk blocks).

End Init.

(** ** The driver and its device

    [dev_last] is the device's index in the available ring and [outst] the
    requests it has taken; [threads] are the tasks that wait in
    [virtio_disk_rw], with their local [idx[0]]; [results] records, for a
    request's head, the status that the device has answered it with since it
    was sent.  The task that calls [virtio_disk_rw] on a buffer holds it, so no
    two do on the same. *)
Record sys : Type := mkSys {
  drv : disk;
  dev_last : Z;
  outst : list Z;
  threads : list (Z * Z);
  results : gmap Z Z
}.

(** The status byte of the request with head [h]: the third descriptor's. *)
Definition dev_status_of (d : disk) (h : Z) : option Z :=
  match desc d !! h with
  | Some x => match desc d !! next x with
              | Some y => match desc d !! next y with
                          | Some z => match addr z with PStatus i => Some i | _ => None end
                          | None => None
                          end
              | None => None
              end
  | None => None
  end.

(** The device completes request [h] with the status byte [st]: 0 for
    success, 1 for an I/O error, 2 for an unsupported request. *)
Definition dev_complete (st h i : Z) (d : disk) : disk :=
  set_used (dev_used_idx d mod NUM) h (u16 (dev_used_idx d + 1))
    (match info d !! i with Some x => set_info i (mkInfo (info_b x) st) d | None => d end).

Inductive step : sys -> sys -> Prop :=
| step_submit s b w r d :
    b ∉ (threads s).*1 -> rw_submit b w (drv s) = Done (r, d) ->
    step s (mkSys d (dev_last s) (outst s)
              (match r with Some i => (b, i) :: threads s | None => threads s end)
              (match r with Some i => delete i (results s) | None => results s end))
| step_wait s b i l1 l2 r d :
    threads s = l1 ++ (b, i) :: l2 -> rw_wait b i (drv s) = Done (r, d) ->
    step s (mkSys d (dev_last s) (outst s) (if r then l1 ++ l2 else threads s) (results s))
| step_intr s d :
    virtio_disk_intr (drv s) = Done (tt, d) -> step s (mkSys d (dev_last s) (outst s) (threads s) (results s))
| step_take s h :
    dev_last s <> avail_idx (drv s) -> avail_ring (drv s) !! (dev_last s mod NUM) = Some h ->
    step s (mkSys (drv s) (u16 (dev_last s + 1)) (h :: outst s) (threads s) (results s))
| step_complete s h i st l1 l2 : 0 <= st < 256 ->
    outst s = l1 ++ h :: l2 -> dev_status_of (drv s) h = Some i ->
    step s (mkSys (dev_complete st h i (drv s)) (dev_last s) (l1 ++ l2) (threads s) (<[h := st]> (results s))).

Definition initial (s : sys) : Prop :=
  exists blocks, s = mkSys (fresh_disk blocks) 0 [] [] ∅.
