(* ===== verification/VirtioDiskTheorems.v ===== *)
(** * The disk driver: proofs and properties *)
From S2P Require Import Prelude Virtq VirtioDisk.

(** ** Allocating and freeing descriptors *)

Lemma disk_rd_bind {A B} (f : disk -> gmap Z A) i x d (K : A -> dk B) :
  f d !! i = Some x -> bind (rd f i) K d = K x d.
Proof. intros H. unfold bind, rd. by rewrite H. Qed.

(** [l] are the descriptors in use. *)
Definition in_use (d : disk) (l : list Z) : Prop :=
  forall i, 0 <= i < NUM -> free d !! i = Some (bool_decide (~ (i ∈ l))).

(** Everything but the free flags and the descriptors not in [l]. *)
Definition keeps (l : list Z) (d d' : disk) : Prop :=
  info d' = info d /\ ops d' = ops d /\ avail_ring d' = avail_ring d /\ avail_idx d' = avail_idx d /\
  used_ring d' = used_ring d /\ dev_used_idx d' = dev_used_idx d /\ used_idx d' = used_idx d /\
  bdisk d' = bdisk d /\ bblockno d' = bblockno d /\
  (forall i, i ∈ l -> desc d' !! i = desc d !! i) /\
  (forall i, is_Some (desc d !! i) -> is_Some (desc d' !! i)).

Lemma keeps_refl l d : keeps l d d.
Proof. unfold keeps. by split_and!. Qed.

Lemma keeps_trans l d1 d2 d3 : keeps l d1 d2 -> keeps l d2 d3 -> keeps l d1 d3.
Proof.
  unfold keeps. intros (? & ? & ? & ? & ? & ? & ? & ? & ? & Ha & Hb) (? & ? & ? & ? & ? & ? & ? & ? & ? & Hc & Hd).
  split_and!; try congruence; [|by auto]. intros i Hi. by rewrite Hc, Ha.
Qed.

Lemma in_use_alloc d l i : in_use d l -> in_use (set_free i false d) (i :: l).
Proof.
  intros H j Hj. cbn. destruct (decide (i = j)) as [->|Hne].
  - rewrite lookup_insert_eq. f_equal. symmetry. apply bool_decide_eq_false. set_solver.
  - rewrite lookup_insert_ne, H by done. f_equal. apply bool_decide_ext. set_solver.
Qed.

Lemma in_use_ext d l l' : (forall i, i ∈ l <-> i ∈ l') -> in_use d l -> in_use d l'.
Proof. intros E H i Hi. rewrite H by done. f_equal. apply bool_decide_ext. by rewrite E. Qed.

Lemma alloc_desc_loop_spec d l : in_use d l -> forall k i,
  0 <= i -> i + Z.of_nat k = NUM ->
  (exists j, 0 <= j < NUM /\ ~ (j ∈ l) /\ alloc_desc_loop k i d = Done (j, set_free j false d)) \/
  (alloc_desc_loop k i d = Done (-1, d) /\ forall j, i <= j < NUM -> j ∈ l).
Proof.
  intros Hu. induction k as [|k IH]; intros i Hi Hk; cbn [alloc_desc_loop];
    [right; split; [done|lia]|].
  rewrite (disk_rd_bind _ _ _ _ _ (Hu i ltac:(lia))). case_bool_decide as Hin.
  - left. exists i. split; [lia|]. done.
  - destruct (IH (i + 1)) as [H|[H Hall]]; [lia..|by left|right]. split; [done|].
    intros j Hj. destruct (decide (j = i)) as [->|]; [done|apply Hall; lia].
Qed.

Lemma alloc_desc_spec d l :
  in_use d l ->
  (exists j, 0 <= j < NUM /\ ~ (j ∈ l) /\ alloc_desc d = Done (j, set_free j false d)) \/
  (alloc_desc d = Done (-1, d) /\ forall j, 0 <= j < NUM -> j ∈ l).
Proof. intros Hu. apply (alloc_desc_loop_spec d l Hu); reflexivity || lia. Qed.

(** The state after [free_desc i]. *)
Definition freed (i : Z) (d : disk) : disk :=
  wake ChFree (set_free i true (set_desc i (mkDesc PNull 0 0 0) d)).

Lemma free_desc_spec d l i :
  in_use d l -> 0 <= i < NUM -> i ∈ l -> free_desc i d = Done (tt, freed i d).
Proof.
  intros Hu Hi Hin. unfold free_desc. rewrite (proj2 (Z.leb_gt NUM i)) by lia.
  rewrite (disk_rd_bind _ _ _ _ _ (Hu i Hi)). by rewrite bool_decide_eq_false_2 by auto.
Qed.

Lemma in_use_free d l l' i :
  in_use d l -> (forall j, j ∈ l' <-> j ∈ l /\ j <> i) -> in_use (freed i d) l'.
Proof.
  intros Hu E j Hj. cbn. destruct (decide (i = j)) as [->|Hne].
  - rewrite lookup_insert_eq. f_equal. symmetry. apply bool_decide_eq_true. rewrite E. tauto.
  - rewrite lookup_insert_ne, Hu by done. f_equal. apply bool_decide_ext. rewrite E. naive_solver.
Qed.

Lemma keeps_freed l d i : i ∉ l -> keeps l d (freed i d).
Proof.
  intros Hi. unfold keeps, freed. cbn. split_and!; try done.
  - intros j Hj. apply lookup_insert_ne. by intros ->.
  - intros j Hj. destruct (decide (i = j)) as [->|]; [rewrite lookup_insert_eq; eauto|by rewrite lookup_insert_ne].
Qed.

Lemma keeps_set_free l d i b : keeps l d (set_free i b d).
Proof. unfold keeps. by split_and!. Qed.

Lemma free_all_spec l : forall idx d,
  in_use d (idx ++ l) -> NoDup idx -> Forall (fun i => 0 <= i < NUM /\ i ∉ l) idx ->
  exists d', free_all idx d = Done (tt, d') /\ in_use d' l /\ keeps l d d'.
Proof.
  induction idx as [|i idx IH]; intros d Hu Hn Hf; cbn [free_all].
  - exists d. split; [done|]. split; [done|apply keeps_refl].
  - apply NoDup_cons in Hn as [Hi Hn]. apply Forall_cons in Hf as [[Hr Hl] Hf].
    rewrite (bind_done _ _ _ _ _ (free_desc_spec d _ i Hu Hr ltac:(by left))).
    destruct (IH (freed i d)) as (d' & -> & Hu' & Hk); [|done|done|].
    + eapply in_use_free; [exact Hu|]. intros j. cbn [app]. rewrite elem_of_cons, elem_of_app.
      split; [|naive_solver]. intros H. split; [tauto|]. intros ->. tauto.
    + exists d'. split; [done|]. split; [done|]. eapply keeps_trans; [by apply keeps_freed|done].
Qed.

Definition outside (l : list Z) (idx : list Z) : Prop :=
  NoDup idx /\ Forall (fun i => 0 <= i < NUM /\ ~ (i ∈ l)) idx.

(** Fewer than [n] descriptors are left beside [l]. *)
Definition full (n : nat) (l : list Z) : Prop :=
  exists idx, (length idx < n)%nat /\ forall j, 0 <= j < NUM -> j ∈ idx ++ l.

Lemma full_length n l : full n l -> (64 < n + length l)%nat.
Proof.
  intros (idx & Hn & Hall). assert (length (seqZ 0 64) = 64)%nat as E by (rewrite length_seqZ; lia).
  assert (length (seqZ 0 64) <= length (idx ++ l))%nat as H.
  { apply submseteq_length, NoDup_submseteq; [apply NoDup_seqZ|]. intros x Hx%elem_of_seqZ. apply Hall.
    unfold NUM. lia. }
  rewrite length_app in H. lia.
Qed.

Lemma alloc3_loop_spec l : forall k idx d,
  in_use d (idx ++ l) -> outside l idx ->
  exists d', keeps l d d' /\
    ((exists idx', alloc3_loop k idx d = Done (Some idx', d') /\ length idx' = (length idx + k)%nat /\
        in_use d' (idx' ++ l) /\ outside l idx') \/
     (alloc3_loop k idx d = Done (None, d') /\ in_use d' l /\ full (length idx + k) l)).
Proof.
  induction k as [|k IH]; intros idx d Hu [Hn Hf]; cbn [alloc3_loop].
  - exists d. split; [apply keeps_refl|]. left. exists idx. split; [done|]. split; [lia|]. by split.
  - destruct (alloc_desc_spec d _ Hu) as [(j & Hj & Hnj & Ha)|[Ha Hall]]; rewrite (bind_done _ _ _ _ _ Ha).
    + rewrite (proj2 (Z.ltb_ge j 0)) by lia. rewrite elem_of_app in Hnj.
      destruct (IH (idx ++ [j]) (set_free j false d)) as (d' & Hk & HIH).
      * eapply in_use_ext; [|by apply in_use_alloc]. intros i. set_solver.
      * split; [apply NoDup_app; split; [done|]; split; [|apply NoDup_singleton]; set_solver|].
        apply Forall_app. split; [done|]. constructor; [|done]. tauto.
      * exists d'. split; [eapply keeps_trans; [apply keeps_set_free|exact Hk]|].
        rewrite length_app in HIH. simpl length in HIH.
        by replace (length idx + S k)%nat with (length idx + 1 + k)%nat by lia.
    + cbn [Z.ltb Z.compare]. destruct (free_all_spec l idx d Hu Hn Hf) as (d' & Hfree & Hu' & Hk).
      exists d'. split; [done|]. right. rewrite (bind_done _ _ _ _ _ Hfree). split; [done|]. split; [done|].
      exists idx. split; [lia|done].
Qed.

Lemma alloc3_desc_spec d l :
  in_use d l -> exists d', keeps l d d' /\
    ((exists i0 i1 i2, alloc3_desc d = Done (Some [i0; i1; i2], d') /\
        in_use d' (i0 :: i1 :: i2 :: l) /\ outside l [i0; i1; i2]) \/
     (alloc3_desc d = Done (None, d') /\ in_use d' l /\ full 3 l)).
Proof.
  intros Hu. destruct (alloc3_loop_spec l 3 [] d Hu) as (d' & Hk & H).
  { by split; [constructor|]. }
  exists d'. split; [done|]. destruct H as [(idx & H & Hlen & Hu' & Ho)|H]; [|by right].
  left. destruct idx as [|i0 [|i1 [|i2 [|? ?]]]]; try discriminate Hlen. by exists i0, i1, i2.
Qed.

(** ** Requests in flight *)

Record req : Type := mkRq { rb : Z; rw : bool; r0 : Z; r1 : Z; r2 : Z }.

Definition idxs (r : req) : list Z := [r0 r; r1 r; r2 r].
Definition slots (rs : list req) : list Z := flat_map idxs rs.

(** What the device finds at the head of request [r]: a header for a read or
    a write of the buffer's block, the buffer, and a status byte. *)
Definition described (d : disk) (r : req) : Prop :=
  (exists n, bblockno d !! rb r = Some n /\
     ops d !! r0 r = Some (mkReq (if rw r then VIRTIO_BLK_T_OUT else VIRTIO_BLK_T_IN) 0 (u32 (2 * n)))) /\
  desc d !! r0 r = Some (mkDesc (POp (r0 r)) 16 VRING_DESC_F_NEXT (r1 r)) /\
  desc d !! r1 r = Some (mkDesc (PData (rb r)) BSIZE
    (if rw r then VRING_DESC_F_NEXT else VRING_DESC_F_NEXT + VRING_DESC_F_WRITE) (r2 r)) /\
  desc d !! r2 r = Some (mkDesc (PStatus (r0 r)) 1 VRING_DESC_F_WRITE 0) /\
  (exists st, info d !! r0 r = Some (mkInfo (Some (rb r)) st)).

(** [rs] are the requests of the waiting tasks; [aq] those the device has
    not taken yet, [uq] those it has completed and the driver not yet seen;
    [ex] are further descriptors in use, in the middle of an operation. *)
Record inv (s : sys) (ex : list Z) (rs : list req) (aq uq : list Z) : Prop := {
  I_threads : threads s = map (fun r => (rb r, r0 r)) rs;
  I_nodup : NoDup (slots rs);
  I_range : Forall (fun i => 0 <= i < NUM) (slots rs);
  I_use : in_use (drv s) (ex ++ slots rs);
  I_full : forall i, 0 <= i < NUM -> is_Some (desc (drv s) !! i) /\ is_Some (info (drv s) !! i);
  I_bs : NoDup (map rb rs);
  I_desc : Forall (described (drv s)) rs;
  I_busy : Forall (fun r => bdisk (drv s) !! rb r = Some (bool_decide (r0 r ∈ aq ++ outst s ++ uq))) rs;
  I_q : NoDup (aq ++ outst s ++ uq);
  I_heads : forall h, h ∈ aq ++ outst s ++ uq -> h ∈ map r0 rs;
  I_done : forall h, h ∈ uq -> exists b st, info (drv s) !! h = Some (mkInfo b st) /\ results s !! h = Some st;
  I_av : ring (avail_ring (drv s)) (dev_last s) aq (avail_idx (drv s));
  I_us : ring (used_ring (drv s)) (used_idx (drv s)) uq (dev_used_idx (drv s));
  I_open : forall h, h ∈ aq ++ outst s -> results s !! h = None;
  I_seen : Forall (fun r => ~ (r0 r ∈ aq ++ outst s ++ uq) -> results s !! r0 r = Some 0) rs
}.

Lemma elem_of_slots i rs : i ∈ slots rs <-> exists r, r ∈ rs /\ i ∈ idxs r.
Proof.
  unfold slots. rewrite list_elem_of_In, in_flat_map.
  split; intros (r & H1 & H2); exists r; [rewrite !list_elem_of_In|rewrite <- !list_elem_of_In]; done.
Qed.

Lemma head_slot h rs : h ∈ map r0 rs -> h ∈ slots rs.
Proof.
  intros (r & -> & Hr)%list_elem_of_fmap. apply elem_of_slots. exists r. split; [done|]. by left.
Qed.

Lemma slots_length rs : length (slots rs) = (3 * length rs)%nat.
Proof. induction rs as [|r rs IH]; [done|]. cbn [slots flat_map]. rewrite length_app. fold (slots rs). rewrite IH. cbn. lia. Qed.

(** At most 21 requests are in flight, so the rings never fill up. *)
Lemma inv_small s ex rs aq uq : inv s ex rs aq uq -> (length (aq ++ outst s ++ uq) < 22)%nat.
Proof.
  intros HI. pose proof (nodup_range_length (slots rs) 64 (I_nodup _ _ _ _ _ HI) (I_range _ _ _ _ _ HI)) as H.
  rewrite slots_length in H.
  assert (length (aq ++ outst s ++ uq) <= length (map r0 rs))%nat as H'.
  { apply submseteq_length, NoDup_submseteq; [apply HI|]. apply HI. }
  rewrite length_map in H'. lia.
Qed.

Definition with_drv (s : sys) (d : disk) : sys := mkSys d (dev_last s) (outst s) (threads s) (results s).

Lemma described_frame d d' r :
  described d r -> bblockno d' = bblockno d -> ops d' !! r0 r = ops d !! r0 r ->
  (forall i, i ∈ idxs r -> desc d' !! i = desc d !! i) ->
  (forall st, info d !! r0 r = Some (mkInfo (Some (rb r)) st) -> exists st', info d' !! r0 r = Some (mkInfo (Some (rb r)) st')) ->
  described d' r.
Proof.
  intros (H1 & H2 & H3 & H4 & st & H5) Eb Eo Ed Ei. unfold described. rewrite Eb, Eo, !Ed by set_solver.
  split_and!; [done|done|done|done|]. by apply (Ei st).
Qed.

Lemma inv_keeps s ex ex' rs aq uq d :
  inv s ex rs aq uq -> keeps (slots rs) (drv s) d -> in_use d (ex' ++ slots rs) ->
  inv (with_drv s d) ex' rs aq uq.
Proof.
  intros HI (E1 & E2 & E3 & E4 & E5 & E6 & E7 & E8 & E9 & Hd & Hd') Hu.
  constructor; cbn [drv with_drv threads outst dev_last]; try apply HI; try done.
  - intros i Hi. destruct (I_full _ _ _ _ _ HI i Hi) as [H1 H2]. rewrite E1. auto.
  - apply Forall_forall. intros r Hr. pose proof (I_desc _ _ _ _ _ HI) as H.
    eapply Forall_forall in H; [|exact Hr]. apply (described_frame (drv s)); [done|done|by rewrite E2| |].
    + intros i Hi. apply Hd. apply elem_of_slots. by exists r.
    + rewrite E1. eauto.
  - rewrite E8. apply HI.
  - rewrite E1. apply HI.
  - rewrite E3, E4. apply HI.
  - rewrite E5, E6, E7. apply HI.
Qed.

(** The writes of [format], and the entry in the available ring. *)
Definition sent (b : Z) (w : bool) (n i0 i1 i2 : Z) (d : disk) : disk :=
  set_avail_idx (u16 (avail_idx d + 1)) (set_avail (avail_idx d mod NUM) i0
  (set_info i0 (mkInfo (Some b) 255) (set_bdisk b true
  (set_desc i2 (mkDesc (PStatus i0) 1 VRING_DESC_F_WRITE 0)
  (set_info i0 (mkInfo (match info d !! i0 with Some x => info_b x | None => None end) 255)
  (set_desc i1 (mkDesc (PData b) BSIZE (Z.lor (if w then 0 else VRING_DESC_F_WRITE) VRING_DESC_F_NEXT) i2)
  (set_desc i0 (mkDesc (POp i0) 16 VRING_DESC_F_NEXT i1)
  (set_op i0 (mkReq (if w then VIRTIO_BLK_T_OUT else VIRTIO_BLK_T_IN) 0 (u32 (n * (BSIZE / 512)))) d)))))))).

Definition send (b : Z) (w : bool) (n i0 i1 i2 : Z) : dk (option Z) :=
  format b w (u32 (n * (BSIZE / 512))) i0 i1 i2;;;
  a <- gets avail_idx;;
  modify (set_avail (a mod NUM) i0);;;
  modify (set_avail_idx (u16 (a + 1)));;;
  ret (Some i0).

Lemma send_run b w n i0 i1 i2 d :
  is_Some (info d !! i0) -> send b w n i0 i1 i2 d = Done (Some i0, sent b w n i0 i1 i2 d).
Proof.
  intros [x Hx]. unfold send, format, sent. rewrite Hx.
  unfold bind, modify, gets, ret, rd. cbn. by rewrite Hx.
Qed.

Lemma slots_cons r rs : slots (r :: rs) = r0 r :: r1 r :: r2 r :: slots rs.
Proof. reflexivity. Qed.

Lemma sent_described b w n i0 i1 i2 d :
  NoDup [i0; i1; i2] -> bblockno d !! b = Some n -> described (sent b w n i0 i1 i2 d) (mkRq b w i0 i1 i2).
Proof.
  intros Hn Hb. apply NoDup_cons in Hn as [H0 Hn]. apply NoDup_cons in Hn as [H1 _].
  assert (i0 <> i1 /\ i0 <> i2 /\ i1 <> i2) as (N1 & N2 & N3) by set_solver.
  unfold described, sent. cbn [rb rw r0 r1 r2].
  replace (n * (BSIZE / 512)) with (2 * n) by (change (BSIZE / 512) with 2; lia).
  cbn -[Z.mul].
  split; [exists n; split; [done|]; by rewrite lookup_insert_eq|].
  split; [rewrite !(lookup_insert_ne _ _ i0) by done; apply lookup_insert_eq|].
  split; [rewrite (lookup_insert_ne _ i2 i1), lookup_insert_eq by done; by destruct w|].
  split; [by rewrite lookup_insert_eq|]. exists 255. apply lookup_insert_eq.
Qed.

Lemma sent_other b w n i0 i1 i2 d r :
  described d r -> (forall i, i ∈ idxs r -> ~ (i ∈ [i0; i1; i2])) ->
  described (sent b w n i0 i1 i2 d) r.
Proof.
  intros Hr Hi. assert (forall i, i ∈ idxs r -> i0 <> i /\ i1 <> i /\ i2 <> i) as Hne by (intros i Hin; specialize (Hi i Hin); set_solver).
  destruct (Hne (r0 r) ltac:(by left)) as (N1 & N2 & N3).
  apply (described_frame d); [done|done| | |].
  - cbn. by rewrite lookup_insert_ne.
  - intros i Hin. destruct (Hne i Hin) as (? & ? & ?). cbn. by rewrite !lookup_insert_ne.
  - intros st Hst. exists st. cbn. by rewrite !lookup_insert_ne.
Qed.

Lemma sent_inv s rs aq uq b w n i0 i1 i2 :
  inv s [i0; i1; i2] rs aq uq -> outside (slots rs) [i0; i1; i2] -> ~ (b ∈ map rb rs) ->
  bblockno (drv s) !! b = Some n ->
  inv (mkSys (sent b w n i0 i1 i2 (drv s)) (dev_last s) (outst s) ((b, i0) :: threads s) (delete i0 (results s))) []
      (mkRq b w i0 i1 i2 :: rs) (aq ++ [i0]) uq.
Proof.
  intros HI [Hn Hf] Hb Hbn.
  assert (forall i, i ∈ slots rs -> i0 <> i /\ i1 <> i /\ i2 <> i) as Hne.
  { intros i Hi. rewrite !Forall_cons in Hf. split_and!; intros ->; tauto. }
  assert (forall h, h ∈ aq ++ outst s ++ uq -> i0 <> h) as Hq.
  { intros h Hh. apply Hne, head_slot, (I_heads _ _ _ _ _ HI), Hh. }
  assert (i0 ∈ (aq ++ [i0]) ++ outst s ++ uq) as Hin0 by set_solver.
  pose proof (inv_small _ _ _ _ _ HI) as Hsm. rewrite length_app in Hsm.
  constructor; cbn [drv threads outst dev_last].
  - cbn. f_equal. apply HI.
  - rewrite slots_cons. cbn [r0 r1 r2]. change (NoDup ([i0; i1; i2] ++ slots rs)).
    apply NoDup_app. split; [done|]. split; [|apply HI].
    intros x Hx Hx'. destruct (Hne x Hx') as (? & ? & ?). set_solver.
  - rewrite slots_cons. cbn [r0 r1 r2]. change (Forall (fun i => 0 <= i < NUM) ([i0; i1; i2] ++ slots rs)).
    apply Forall_app. split; [|apply HI]. eapply Forall_impl; [exact Hf|]. by intros x [? _].
  - exact (I_use _ _ _ _ _ HI).
  - intros i Hi. destruct (I_full _ _ _ _ _ HI i Hi). cbn. by rewrite !lookup_insert_is_Some'; auto.
  - cbn. apply NoDup_cons. split; [done|]. apply HI.
  - constructor; [by apply sent_described|]. pose proof (I_desc _ _ _ _ _ HI) as H.
    apply Forall_forall. intros r Hr. eapply Forall_forall in H; [|exact Hr]. apply sent_other; [done|].
    intros i Hi Hin. destruct (Hne i) as (? & ? & ?); [apply elem_of_slots; by exists r|]. set_solver.
  - constructor; cbn.
    + rewrite lookup_insert_eq. f_equal. symmetry. by apply bool_decide_eq_true.
    + pose proof (I_busy _ _ _ _ _ HI) as H. apply Forall_forall. intros r Hr.
      eapply Forall_forall in H; [|exact Hr]. rewrite lookup_insert_ne, H.
      * f_equal. apply bool_decide_ext. assert (i0 <> r0 r); [|set_solver].
        apply Hne, head_slot, list_elem_of_fmap. by exists r.
      * intros ->. apply Hb, list_elem_of_fmap. by exists r.
  - rewrite <- app_assoc. cbn [app]. rewrite <- Permutation_middle. apply NoDup_cons.
    split; [intros H; by apply (Hq i0)|apply HI].
  - intros h Hh. cbn. rewrite elem_of_cons. destruct (decide (h = i0)) as [->|Hh0]; [by left|right].
    apply (I_heads _ _ _ _ _ HI). set_solver.
  - intros h Hh. destruct (I_done _ _ _ _ _ HI h Hh) as (x & st & Hx & Hs). exists x, st. cbn.
    assert (i0 <> h) by (apply Hq; set_solver). by rewrite !lookup_insert_ne, lookup_delete_ne.
  - apply ring_push; [apply HI|lia].
  - apply HI.
  - intros h Hh. cbn. destruct (decide (i0 = h)) as [->|Hh0]; [apply lookup_delete_eq|].
    rewrite lookup_delete_ne by done. apply (I_open _ _ _ _ _ HI). set_solver.
  - constructor; [by intros []|]. pose proof (I_seen _ _ _ _ _ HI) as H. apply Forall_forall. intros r Hr Hnq.
    eapply Forall_forall in H; [|exact Hr]. cbn. rewrite lookup_delete_ne.
    + apply H. set_solver.
    + apply Hne, head_slot, list_elem_of_fmap. by exists r.
Qed.

Lemma rw_submit_spec s rs aq uq b w :
  inv s [] rs aq uq -> ~ (b ∈ map rb rs) -> is_Some (bblockno (drv s) !! b) ->
  exists o d, rw_submit b w (drv s) = Done (o, d) /\ bblockno d = bblockno (drv s) /\
    match o with
    | Some i0 => exists i1 i2,
        inv (mkSys d (dev_last s) (outst s) ((b, i0) :: threads s) (delete i0 (results s))) []
            (mkRq b w i0 i1 i2 :: rs) (aq ++ [i0]) uq
    | None => inv (with_drv s d) [] rs aq uq /\ (61 < 3 * length rs)%nat
    end.
Proof.
  intros HI Hb [n Hn]. unfold rw_submit. rewrite (disk_rd_bind _ _ _ _ _ Hn).
  destruct (alloc3_desc_spec (drv s) (slots rs) (I_use _ _ _ _ _ HI))
    as (d1 & Hk & [(i0 & i1 & i2 & Ha & Hu & Ho)|(Ha & Hu & Hfull)]); rewrite (bind_done _ _ _ _ _ Ha).
  - pose proof (inv_keeps s [] [i0; i1; i2] rs aq uq d1 HI Hk Hu) as HI1.
    assert (bblockno d1 = bblockno (drv s)) as Eb by apply Hk.
    assert (is_Some (info d1 !! i0)) as Hi.
    { apply (I_full _ _ _ _ _ HI1). destruct Ho as [_ Ho]. apply Forall_cons in Ho as [[? _] _]. done. }
    exists (Some i0), (sent b w n i0 i1 i2 d1). split; [exact (send_run b w n i0 i1 i2 d1 Hi)|].
    split; [exact Eb|]. exists i1, i2.
    refine (sent_inv (with_drv s d1) rs aq uq b w n i0 i1 i2 HI1 Ho Hb _). cbn. by rewrite Eb.
  - exists None, d1. split; [done|]. split; [apply Hk|].
    split; [by apply (inv_keeps s [] [])|]. apply full_length in Hfull. rewrite slots_length in Hfull. lia.
Qed.

(** ** The end of a request *)

Lemma free_chain_step fuel i x d l :
  desc d !! i = Some x -> in_use d l -> 0 <= i < NUM -> i ∈ l ->
  free_chain (S fuel) i d =
    if negb (Z.land (flags x) VRING_DESC_F_NEXT =? 0) then free_chain fuel (next x) (freed i d)
    else Done (tt, freed i d).
Proof.
  intros Hx Hu Hi Hl. cbn [free_chain]. rewrite (disk_rd_bind _ _ _ _ _ Hx).
  rewrite (bind_done _ _ _ _ _ (free_desc_spec d l i Hu Hi Hl)). by destruct (negb _).
Qed.

Lemma free_chain_spec fuel r d l :
  (exists d0, described d0 r /\ desc d = desc d0) -> in_use d (idxs r ++ l) -> NoDup (idxs r) -> outside l (idxs r) ->
  exists d', free_chain (S (S (S fuel))) (r0 r) d = Done (tt, d') /\ in_use d' l /\ keeps l d d'.
Proof.
  intros (d0 & (_ & H0 & H1 & H2 & _) & E) Hu Hn [_ Hf]. unfold idxs in *. rewrite <- E in H0, H1, H2.
  rewrite !Forall_cons in Hf. destruct Hf as ([R0 O0] & [R1 O1] & [R2 O2] & _).
  apply NoDup_cons in Hn as [N0 Hn]. apply NoDup_cons in Hn as [N1 _].
  assert (r0 r <> r1 r /\ r0 r <> r2 r /\ r1 r <> r2 r) as (A & B & C) by set_solver.
  assert (in_use (freed (r0 r) d) (r1 r :: r2 r :: l)) as Hu1.
  { eapply in_use_free; [exact Hu|]. intros j. cbn [app]. rewrite !elem_of_cons. naive_solver. }
  assert (in_use (freed (r1 r) (freed (r0 r) d)) (r2 r :: l)) as Hu2.
  { eapply in_use_free; [exact Hu1|]. intros j. rewrite !elem_of_cons. naive_solver. }
  exists (freed (r2 r) (freed (r1 r) (freed (r0 r) d))). split; [|split].
  - rewrite (free_chain_step _ _ _ _ _ H0 Hu R0) by (by left). cbn [flags next]. cbn [Z.land VRING_DESC_F_NEXT Pos.land Z.eqb negb].
    rewrite (free_chain_step _ _ (mkDesc (PData (rb r)) BSIZE
       (if rw r then VRING_DESC_F_NEXT else VRING_DESC_F_NEXT + VRING_DESC_F_WRITE) (r2 r)) _ (r1 r :: r2 r :: l)); [|cbn; by rewrite lookup_insert_ne|done|done|by left].
    cbn [flags next].
    replace (negb (Z.land (if rw r then _ else _) _ =? 0)) with true by (by destruct (rw r)).
    rewrite (free_chain_step _ _ (mkDesc (PStatus (r0 r)) 1 VRING_DESC_F_WRITE 0) _ (r2 r :: l)); [done|cbn; by rewrite !lookup_insert_ne|done|done|by left].
  - eapply in_use_free; [exact Hu2|]. intros j. rewrite elem_of_cons. naive_solver.
  - apply (keeps_trans l _ (freed (r0 r) d)); [by apply keeps_freed|].
    apply (keeps_trans l _ (freed (r1 r) (freed (r0 r) d))); by apply keeps_freed.
Qed.

Lemma inv_remove s rs1 r rs2 aq uq l1 l2 :
  inv s [] (rs1 ++ r :: rs2) aq uq -> ~ (r0 r ∈ aq ++ outst s ++ uq) ->
  l1 = map (fun r => (rb r, r0 r)) rs1 -> l2 = map (fun r => (rb r, r0 r)) rs2 ->
  inv (mkSys (drv s) (dev_last s) (outst s) (l1 ++ l2) (results s)) (idxs r) (rs1 ++ rs2) aq uq /\
  outside (slots (rs1 ++ rs2)) (idxs r).
Proof.
  intros HI Hq -> ->.
  assert (slots (rs1 ++ r :: rs2) ≡ₚ idxs r ++ slots (rs1 ++ rs2)) as EP.
  { unfold slots. rewrite !flat_map_app. cbn [flat_map]. rewrite !app_assoc.
    apply Permutation_app_tail, Permutation_app_comm. }
  pose proof (I_nodup _ _ _ _ _ HI) as Hn. rewrite EP in Hn. apply NoDup_app in Hn as (Hn1 & Hn2 & Hn3).
  pose proof (I_range _ _ _ _ _ HI) as Hr. rewrite EP in Hr. apply Forall_app in Hr as [Hr1 Hr2].
  assert (forall P : req -> Prop, Forall P (rs1 ++ r :: rs2) -> Forall P (rs1 ++ rs2)) as Hdrop.
  { intros P [H1 [_ H2]%Forall_cons]%Forall_app. by apply Forall_app. }
  split.
  - constructor; cbn [drv threads outst dev_last]; try apply HI; try done.
    + by rewrite map_app.
    + eapply in_use_ext; [|apply (I_use _ _ _ _ _ HI)]. intros i. cbn [app]. by rewrite EP.
    + pose proof (I_bs _ _ _ _ _ HI) as Hb. rewrite map_app in Hb |- *. cbn [map] in Hb.
      rewrite <- Permutation_middle in Hb. by apply NoDup_cons in Hb as [_ Hb].
    + apply Hdrop, HI.
    + apply Hdrop, HI.
    + intros h Hh. pose proof (I_heads _ _ _ _ _ HI h Hh) as H. rewrite map_app in H |- *. cbn [map] in H.
      rewrite elem_of_app, elem_of_cons in H. rewrite elem_of_app.
      destruct H as [H|[->|H]]; [by left|done|by right].
    + apply Hdrop, HI.
  - split; [done|]. apply Forall_forall. intros i Hi. split; [by eapply Forall_forall in Hr1|by apply Hn2].
Qed.

Lemma set_info_inv s ex rs aq uq i x :
  inv s ex rs aq uq -> ~ (i ∈ slots rs) -> inv (with_drv s (set_info i x (drv s))) ex rs aq uq.
Proof.
  intros HI Hi. constructor; cbn [drv with_drv threads outst dev_last]; try apply HI.
  - intros j Hj. destruct (I_full _ _ _ _ _ HI j Hj) as [H1 H2]. split; [done|]. cbn.
    apply lookup_insert_is_Some'. by right.
  - pose proof (I_desc _ _ _ _ _ HI) as H. apply Forall_forall. intros r Hr.
    eapply Forall_forall in H; [|exact Hr]. apply (described_frame (drv s)); [done..|].
    intros st Hst. exists st. cbn. rewrite lookup_insert_ne; [done|]. intros ->. apply Hi, elem_of_slots.
    exists r. split; [done|by left].
  - intros h Hh. destruct (I_done _ _ _ _ _ HI h Hh) as (b & st & Hb & Hs). exists b, st. cbn.
    rewrite lookup_insert_ne; [done|]. intros ->. apply Hi, head_slot, (I_heads _ _ _ _ _ HI). set_solver.
Qed.

Lemma rw_wait_spec s rs aq uq b i l1 l2 :
  inv s [] rs aq uq -> threads s = l1 ++ (b, i) :: l2 ->
  exists (o : bool) d, rw_wait b i (drv s) = Done (o, d) /\ bblockno d = bblockno (drv s) /\
    (if o then results s !! i = Some 0 /\
       exists rs', inv (mkSys d (dev_last s) (outst s) (l1 ++ l2) (results s)) [] rs' aq uq
     else d = drv s).
Proof.
  intros HI Ht. rewrite (I_threads _ _ _ _ _ HI) in Ht.
  apply map_eq_app in Ht as (rs1 & rs' & -> & E1 & E2). destruct rs' as [|r rs2]; [done|].
  injection E2 as <- <- E2.
  pose proof (I_busy _ _ _ _ _ HI) as [_ [Hb _]%Forall_cons]%Forall_app.
  unfold rw_wait. rewrite (disk_rd_bind _ _ _ _ _ Hb). case_bool_decide as Hin; [by exists false, (drv s)|].
  pose proof (I_desc _ _ _ _ _ HI) as [_ [Hdesc _]%Forall_cons]%Forall_app.
  destruct (inv_remove s rs1 r rs2 aq uq l1 l2 HI Hin (eq_sym E1) (eq_sym E2)) as [HI1 Ho].
  pose proof Hdesc as (_ & _ & _ & _ & st & Hst). rewrite (disk_rd_bind _ _ _ _ _ Hst). cbn [status].
  rewrite bind_modify.
  pose proof Ho as [Hnd Hf].
  set (d1 := set_info (r0 r) (mkInfo None st) (drv s)).
  assert (~ (r0 r ∈ slots (rs1 ++ rs2))) as Hr0 by (apply Forall_cons in Hf as [[_ ?] _]; done).
  pose proof (set_info_inv _ _ _ _ _ _ (mkInfo None st) HI1 Hr0) as HI2. cbn [drv] in HI2. fold d1 in HI2.
  destruct (free_chain_spec (Z.to_nat NUM - 2) r d1 (slots (rs1 ++ rs2))) as (d' & Hd' & Hu & Hk);
    [by exists (drv s)|exact (I_use _ _ _ _ _ HI1)|done|done|].
  exists true, d'. split; [by rewrite (bind_done _ _ _ _ _ Hd')|]. split; [apply Hk|].
  pose proof (I_seen _ _ _ _ _ HI) as [_ [Hseen _]%Forall_cons]%Forall_app.
  split; [by apply Hseen|]. exists (rs1 ++ rs2). exact (inv_keeps _ _ [] _ _ _ d' HI2 Hk Hu).
Qed.

(** ** Completion *)

Lemma NoDup_heads rs : NoDup (slots rs) -> NoDup (map r0 rs).
Proof.
  induction rs as [|r rs IH]; [constructor|]. rewrite slots_cons. intros Hn.
  apply NoDup_cons in Hn as [H0 Hn]. apply NoDup_cons in Hn as [_ Hn]. apply NoDup_cons in Hn as [_ Hn].
  cbn. apply NoDup_cons. split; [|by apply IH]. intros H%head_slot. apply H0. set_solver.
Qed.

Lemma head_req s ex rs aq uq h :
  inv s ex rs aq uq -> h ∈ aq ++ outst s ++ uq ->
  exists r, r ∈ rs /\ h = r0 r /\ described (drv s) r.
Proof.
  intros HI Hh. apply (I_heads _ _ _ _ _ HI), list_elem_of_fmap in Hh as (r & -> & Hr).
  exists r. split; [done|]. split; [done|]. by eapply Forall_forall in Hr; [|apply HI].
Qed.

(** One round of [virtio_disk_intr]. *)
Definition seen (b : Z) (d : disk) : disk :=
  set_used_idx (u16 (used_idx d + 1)) (wake (ChBuf b) (set_bdisk b false d)).

Lemma seen_inv s rs aq h uq r :
  inv s [] rs aq (h :: uq) -> r ∈ rs -> h = r0 r -> results s !! h = Some 0 -> inv (with_drv s (seen (rb r) (drv s))) [] rs aq uq.
Proof.
  intros HI Hr -> Hres. pose proof (I_q _ _ _ _ _ HI) as Hq.
  assert (aq ++ outst s ++ r0 r :: uq ≡ₚ r0 r :: aq ++ outst s ++ uq) as EP.
  { rewrite !app_assoc. symmetry. apply Permutation_middle. }
  rewrite EP in Hq. apply NoDup_cons in Hq as [Hr0 Hq].
  constructor; cbn [drv with_drv threads outst dev_last seen]; try apply HI; try done.
  - pose proof (I_busy _ _ _ _ _ HI) as H. apply Forall_forall. intros r' Hr'.
    eapply Forall_forall in H; [|exact Hr']. cbn. destruct (decide (rb r = rb r')) as [E|Hne].
    + pose proof (NoDup_map_inj rb rs r r' (I_bs _ _ _ _ _ HI) Hr Hr' E) as <-.
      rewrite lookup_insert_eq. f_equal. symmetry. by apply bool_decide_eq_false.
    + rewrite lookup_insert_ne, H by done. f_equal. apply bool_decide_ext. rewrite EP, elem_of_cons.
      split; [|by right]. intros [E|?]; [|done].
      pose proof (NoDup_map_inj r0 rs r' r (NoDup_heads _ (I_nodup _ _ _ _ _ HI)) Hr' Hr E) as ->. done.
  - intros h Hh. apply (I_heads _ _ _ _ _ HI). rewrite EP. by right.
  - intros h Hh. apply (I_done _ _ _ _ _ HI). by right.
  - pose proof (I_us _ _ _ _ _ HI) as H. by apply ring_pop in H as [_ ?].
  - pose proof (I_seen _ _ _ _ _ HI) as H. apply Forall_forall. intros r' Hr' Hn. eapply Forall_forall in H; [|exact Hr'].
    destruct (decide (r0 r' = r0 r)) as [->|Hne]; [done|]. apply H. rewrite EP, elem_of_cons. tauto.
Qed.

(** All completions in [uq] are successes. *)
Definition all_ok (s : sys) (uq : list Z) : Prop := forall h, h ∈ uq -> results s !! h = Some 0.
Definition some_failed (s : sys) (uq : list Z) : Prop := exists h st, h ∈ uq /\ results s !! h = Some st /\ st <> 0.
Definition disk_error : string := "virtio_disk_intr status".

Lemma intr_loop_spec rs aq : forall uq s, inv s [] rs aq uq ->
  some_failed s uq /\ intr_loop (S (length uq)) (drv s) = Panic disk_error \/
  all_ok s uq /\ exists d, intr_loop (S (length uq)) (drv s) = Done (tt, d) /\ bblockno d = bblockno (drv s) /\
    inv (with_drv s d) [] rs aq [].
Proof.
  induction uq as [|h uq IH]; intros s HI; cbn [intr_loop length]; rewrite !bind_gets;
    pose proof (I_us _ _ _ _ _ HI) as HU; pose proof (inv_small _ _ _ _ _ HI) as Hsm; rewrite !length_app in Hsm.
  - rewrite (proj2 (Z.eqb_eq _ _)); [|by apply (ring_empty _ _ _ _ HU); simpl; [lia|]].
    right. split; [by intros h ?%elem_of_nil|]. exists (drv s). split; [done|]. split; [done|]. by destruct s.
  - rewrite (proj2 (Z.eqb_neq _ _)); [|intros E; by apply (ring_empty _ _ _ _ HU) in E; [|lia]].
    destruct (ring_pop _ _ _ _ _ HU) as [Hh _]. rewrite (disk_rd_bind _ _ _ _ _ Hh).
    destruct (head_req _ _ _ _ _ h HI) as (r & Hr & -> & Hd); [rewrite !elem_of_app; right; right; by left|].
    destruct Hd as (_ & _ & _ & _ & st & Hst).
    destruct (I_done _ _ _ _ _ HI (r0 r)) as (b & st' & Hb & Hres); [by left|]. rewrite Hst in Hb. injection Hb as <- <-.
    rewrite (disk_rd_bind _ _ _ _ _ Hst). cbn [status info_b]. destruct (Z.eqb_spec st 0) as [->|Hne]; cbn [negb].
    2:{ left. split; [|done]. exists (r0 r), st. split; [by left|done]. }
    unfold wakeup. rewrite !bind_modify.
    destruct (IH _ (seen_inv s rs aq (r0 r) uq r HI Hr eq_refl Hres)) as [[(h & st & Hin & Hf) Hrun]|[Hall (d & Hrun & Eb & HI')]].
    + left. split; [|exact Hrun]. exists h, st. split; [by right|exact Hf].
    + right. split; [intros h [->|Hin]%elem_of_cons; [done|by apply Hall]|].
      exists d. split; [exact Hrun|]. split; [exact Eb|exact HI'].
Qed.

Lemma virtio_disk_intr_spec s rs aq uq : inv s [] rs aq uq ->
  some_failed s uq /\ virtio_disk_intr (drv s) = Panic disk_error \/
  all_ok s uq /\ exists d, virtio_disk_intr (drv s) = Done (tt, d) /\ bblockno d = bblockno (drv s) /\
    inv (with_drv s d) [] rs aq [].
Proof.
  intros HI. assert (virtio_disk_intr (drv s) = intr_loop (S (length uq)) (drv s)) as ->; [|by apply intr_loop_spec].
  unfold virtio_disk_intr. rewrite bind_gets. do 2 f_equal.
  pose proof (inv_small _ _ _ _ _ HI) as Hsm. rewrite !length_app in Hsm.
  destruct (I_us _ _ _ _ _ HI) as (Hlo & -> & _). unfold u16. zdiv.
Qed.

(** The device's steps. *)
Lemma take_inv s rs aq uq h :
  inv s [] rs aq uq -> dev_last s <> avail_idx (drv s) ->
  avail_ring (drv s) !! (dev_last s mod NUM) = Some h ->
  exists aq', aq = h :: aq' /\ inv (mkSys (drv s) (u16 (dev_last s + 1)) (h :: outst s) (threads s) (results s)) [] rs aq' uq.
Proof.
  intros HI Hne Hh. pose proof (I_av _ _ _ _ _ HI) as HA.
  pose proof (inv_small _ _ _ _ _ HI) as Hsm. rewrite !length_app in Hsm.
  destruct aq as [|h' aq]; [destruct Hne; by apply (ring_empty _ _ _ _ HA); [simpl; lia|]|].
  destruct (ring_pop _ _ _ _ _ HA) as [Hh' HA']. rewrite Hh in Hh'. injection Hh' as <-.
  exists aq. split; [done|].
  assert ((h :: aq) ++ outst s ++ uq ≡ₚ aq ++ (h :: outst s) ++ uq) as EP by (cbn; apply Permutation_middle).
  constructor; cbn [drv threads outst dev_last]; try apply HI; try done.
  - pose proof (I_busy _ _ _ _ _ HI) as H. eapply Forall_impl; [exact H|]. cbn beta. intros r ->.
    f_equal. apply bool_decide_ext. by rewrite EP.
  - rewrite <- EP. apply HI.
  - intros h' H. apply (I_heads _ _ _ _ _ HI). by rewrite EP.
  - intros h' H. apply (I_open _ _ _ _ _ HI). set_solver.
  - pose proof (I_seen _ _ _ _ _ HI) as H. eapply Forall_impl; [exact H|]. cbn beta. intros r Hr Hn.
    apply Hr. by rewrite EP.
Qed.

Lemma status_described d r : described d r -> dev_status_of d (r0 r) = Some (r0 r).
Proof.
  intros (_ & H0 & H1 & H2 & _). unfold dev_status_of. rewrite H0. cbn [next]. rewrite H1.
  cbn [next]. by rewrite H2.
Qed.

Lemma complete_inv s rs aq uq h i st0 l1 l2 :
  inv s [] rs aq uq -> outst s = l1 ++ h :: l2 -> dev_status_of (drv s) h = Some i ->
  inv (mkSys (dev_complete st0 h i (drv s)) (dev_last s) (l1 ++ l2) (threads s) (<[h := st0]> (results s))) [] rs aq (uq ++ [h]).
Proof.
  intros HI Ho Hi.
  assert (aq ++ outst s ++ uq ≡ₚ aq ++ (l1 ++ l2) ++ uq ++ [h]) as EP.
  { rewrite Ho. apply Permutation_app_head. rewrite <- Permutation_middle. cbn.
    rewrite (Permutation_app_comm uq [h]). cbn. apply Permutation_middle. }
  destruct (head_req _ _ _ _ _ h HI) as (r & Hr & -> & Hd).
  { rewrite EP, !elem_of_app. right. right. right. by left. }
  rewrite (status_described _ _ Hd) in Hi. injection Hi as <-.
  pose proof Hd as (_ & _ & _ & _ & st & Hst).
  pose proof (inv_small _ _ _ _ _ HI) as Hsm. rewrite !length_app in Hsm.
  unfold dev_complete. rewrite Hst. cbn [info_b].
  set (d := set_info (r0 r) (mkInfo (Some (rb r)) st0) (drv s)).
  assert (forall r', r' ∈ rs -> described (drv s) r') as Hall.
  { intros r' Hr'. pose proof (I_desc _ _ _ _ _ HI) as H. by eapply Forall_forall in H. }
  constructor; cbn [drv threads outst dev_last]; try apply HI.
  - intros j Hj. destruct (I_full _ _ _ _ _ HI j Hj) as [H1 H2]. split; [done|]. cbn.
    apply lookup_insert_is_Some'. by right.
  - apply Forall_forall. intros r' Hr'. apply (described_frame (drv s)); [by apply Hall|done..|].
    intros st' Hst'. cbn. destruct (decide (r0 r = r0 r')) as [E|Hne].
    + exists st0. rewrite <- E in Hst' |- *. rewrite Hst in Hst'. injection Hst' as <- <-. apply lookup_insert_eq.
    + exists st'. by rewrite lookup_insert_ne.
  - pose proof (I_busy _ _ _ _ _ HI) as H. eapply Forall_impl; [exact H|]. cbn. intros r' ->.
    f_equal. apply bool_decide_ext. by rewrite EP.
  - rewrite <- EP. apply HI.
  - intros h Hh. apply (I_heads _ _ _ _ _ HI). by rewrite EP.
  - intros h [Hh| ->%list_elem_of_singleton]%elem_of_app; cbn; [|eexists _, st0; by rewrite !lookup_insert_eq].
    destruct (decide (r0 r = h)) as [<-|Hne]; [eexists _, st0; by rewrite !lookup_insert_eq|].
    rewrite !lookup_insert_ne by done. by apply (I_done _ _ _ _ _ HI).
  - apply ring_push; [apply HI|lia].
  - intros h Hh. cbn. pose proof (I_q _ _ _ _ _ HI) as Hnd. rewrite Ho in Hnd.
    rewrite lookup_insert_ne.
    + apply (I_open _ _ _ _ _ HI). rewrite Ho. set_solver.
    + intros <-. rewrite <- !app_assoc in Hnd. apply NoDup_app in Hnd as (_ & N1 & Hnd). apply NoDup_app in Hnd as (_ & N2 & Hnd).
      cbn [app] in Hnd. apply NoDup_cons in Hnd as [N3 _]. set_solver.
  - pose proof (I_seen _ _ _ _ _ HI) as H. eapply Forall_impl; [exact H|]. cbn. intros r' Hr' Hn.
    rewrite lookup_insert_ne.
    + apply Hr'. by rewrite EP.
    + intros E. apply Hn. rewrite <- E. set_solver.
Qed.

(** ** Reachable states *)

Lemma initial_disk_inv s : initial s -> inv s [] [] [] [].
Proof.
  intros [blocks ->]. constructor; cbn; try done; try apply NoDup_nil_2.
  - intros i Hi. cbn. by rewrite entries_lookup.
  - intros i Hi. rewrite !entries_lookup by done. eauto.
  - by intros h ?%elem_of_nil.
Qed.

Lemma step_disk_inv s s' rs aq uq :
  step s s' -> inv s [] rs aq uq ->
  bblockno (drv s') = bblockno (drv s) /\ exists rs' aq' uq', inv s' [] rs' aq' uq'.
Proof.
  intros Hstep HI. destruct Hstep as [s b w r d Hb Hrun|s b i l1 l2 r d Ht Hrun|s d Hrun|s h Hne Hh|s h i st l1 l2 Hst Ho Hi].
  - destruct (bblockno (drv s) !! b) as [n|] eqn:Hn; cycle 1.
    { exfalso. unfold rw_submit, bind, rd in Hrun. by rewrite Hn in Hrun. }
    destruct (rw_submit_spec s rs aq uq b w HI) as (o & d' & Hrun' & Eb & H); [|by eexists|].
    { rewrite (I_threads _ _ _ _ _ HI) in Hb. intros Hin. apply Hb.
      apply list_elem_of_fmap in Hin as (r' & -> & Hr'). rewrite list_elem_of_fmap. exists (rb r', r0 r').
      split; [done|]. apply list_elem_of_fmap. by exists r'. }
    rewrite Hrun in Hrun'. injection Hrun' as <- <-. split; [exact Eb|].
    destruct r as [i0|]; [destruct H as (i1 & i2 & H)|destruct H as [H _]]; eauto.
  - destruct (rw_wait_spec s rs aq uq b i l1 l2 HI Ht) as (o & d' & Hrun' & Eb & H).
    rewrite Hrun in Hrun'. injection Hrun' as <- <-. split; [exact Eb|].
    destruct r; [destruct H as (_ & rs' & H); eauto|]. subst d. exists rs, aq, uq. by destruct s.
  - destruct (virtio_disk_intr_spec s rs aq uq HI) as [[_ E]|[_ (d' & Hrun' & Eb & H)]]; [congruence|].
    rewrite Hrun in Hrun'. injection Hrun' as <-. split; [exact Eb|]. eauto.
  - destruct (take_inv s rs aq uq h HI Hne Hh) as (aq' & -> & H). split; [done|]. eauto.
  - split; [|exists rs, aq, (uq ++ [h]); by eapply complete_inv].
    unfold dev_complete. by destruct (info (drv s) !! i).
Qed.

Lemma reachable_disk_inv s0 s :
  initial s0 -> rtc step s0 s ->
  bblockno (drv s) = bblockno (drv s0) /\ exists rs aq uq, inv s [] rs aq uq.
Proof.
  intros H0 Hs. apply initial_disk_inv in H0.
  assert (exists rs aq uq, inv s0 [] rs aq uq) as H by eauto. clear H0.
  induction Hs as [|x y z Hxy _ IH]; [done|]. destruct H as (rs & aq & uq & HI).
  destruct (step_disk_inv _ _ _ _ _ Hxy HI) as [E H]. rewrite <- E. by apply IH.
Qed.

(** What the waiting tasks see of an interrupt. *)
Lemma thread_req s rs aq uq b i : inv s [] rs aq uq -> (b, i) ∈ threads s -> exists r, r ∈ rs /\ b = rb r /\ i = r0 r.
Proof. intros HI. rewrite (I_threads _ _ _ _ _ HI). intros (r & [= -> ->] & Hr)%list_elem_of_fmap. by exists r. Qed.

Lemma head_thread s rs aq uq h : inv s [] rs aq uq -> h ∈ uq -> exists b, (b, h) ∈ threads s.
Proof.
  intros HI Hh. destruct (head_req _ _ _ _ _ h HI) as (r & Hr & -> & _); [set_solver|]. exists (rb r).
  rewrite (I_threads _ _ _ _ _ HI). apply list_elem_of_fmap. by exists r.
Qed.

Lemma intr_outcome s rs aq uq : inv s [] rs aq uq ->
  (forall b i st, (b, i) ∈ threads s -> results s !! i = Some st -> st = 0) /\
    (exists d, virtio_disk_intr (drv s) = Done (tt, d) /\
       forall b i, (b, i) ∈ threads s -> bdisk d !! b = Some (bool_decide (results s !! i = None))) \/
  (exists b i st, (b, i) ∈ threads s /\ results s !! i = Some st /\ st <> 0) /\
    virtio_disk_intr (drv s) = Panic "virtio_disk_intr status".
Proof.
  intros HI. destruct (virtio_disk_intr_spec s rs aq uq HI) as [[(h & st & Hh & Hf) E]|[Hall (d & E & _ & HI')]].
  - right. split; [|exact E]. destruct (head_thread _ _ _ _ _ HI Hh) as [b Hb]. by exists b, h, st.
  - assert (forall r, r ∈ rs -> r0 r ∈ aq ++ outst s \/ results s !! r0 r = Some 0) as Hcase.
    { intros r Hr. destruct (decide (r0 r ∈ aq ++ outst s)) as [?|Hn]; [by left|right].
      destruct (decide (r0 r ∈ uq)) as [Hu|Hu]; [by apply Hall|]. pose proof (I_seen _ _ _ _ _ HI) as H.
      eapply Forall_forall in H; [|exact Hr]. apply H. set_solver. }
    left. split.
    + intros b i st (r & Hr & -> & ->)%(thread_req _ _ _ _ _ _ HI) Hres. destruct (Hcase r Hr) as [Ho|?]; [|congruence].
      rewrite (I_open _ _ _ _ _ HI _ Ho) in Hres. done.
    + exists d. split; [exact E|]. intros b i (r & Hr & -> & ->)%(thread_req _ _ _ _ _ _ HI).
      pose proof (I_busy _ _ _ _ _ HI') as H. eapply Forall_forall in H; [|exact Hr]. cbn in H. rewrite H. f_equal.
      apply bool_decide_ext. rewrite app_nil_r. destruct (Hcase r Hr) as [Ho|E0].
      * by rewrite (I_open _ _ _ _ _ HI _ Ho).
      * rewrite E0. split; [|done]. intros Ho. rewrite (I_open _ _ _ _ _ HI _ Ho) in E0. done.
Qed.

(** ** Properties of the disk driver *)

(** C21. However tasks, interrupts and the device interleave, and whatever
    status the device answers: a new request and a waking task run to their
    end, and the device finds the status byte of every request it has taken.
    The interrupt handler runs to its end, and then frees the buffer of every
    request that was answered, unless the device has answered a request with
    another status than 0 (success): then, and only then, it panics.  A request
    is turned away for lack of descriptors only when 21 requests are in flight,
    and a task leaves only after the device has answered its request with
    status 0. *)
Theorem virtio_disk_safe s0 s :
  initial s0 -> rtc step s0 s ->
  (forall b w, ~ (b ∈ (threads s).*1) -> is_Some (bblockno (drv s) !! b) ->
     exists o d, rw_submit b w (drv s) = Done (o, d) /\
       (o = None -> (21 <= length (threads s))%nat)) /\
  (forall b i, (b, i) ∈ threads s ->
     exists (o : bool) d, rw_wait b i (drv s) = Done (o, d) /\ (o = true -> results s !! i = Some 0)) /\
  ((forall b i st, (b, i) ∈ threads s -> results s !! i = Some st -> st = 0) /\
     (exists d, virtio_disk_intr (drv s) = Done (tt, d) /\
        forall b i, (b, i) ∈ threads s -> bdisk d !! b = Some (bool_decide (results s !! i = None))) \/
   (exists b i st, (b, i) ∈ threads s /\ results s !! i = Some st /\ st <> 0) /\
     virtio_disk_intr (drv s) = Panic "virtio_disk_intr status") /\
  (forall h, h ∈ outst s -> dev_status_of (drv s) h = Some h) /\
  (length (threads s) <= 21)%nat.
Proof.
  intros H0 Hs. destruct (reachable_disk_inv s0 s H0 Hs) as (_ & rs & aq & uq & HI).
  assert (length (threads s) = length rs) as El by (rewrite (I_threads _ _ _ _ _ HI); apply length_map).
  rewrite El. split; [|split; [|split; [|split]]].
  - intros b w Hb Hn. destruct (rw_submit_spec s rs aq uq b w HI) as (o & d & Hrun & _ & H); [|done|].
    + rewrite (I_threads _ _ _ _ _ HI) in Hb. intros (r & -> & Hr)%list_elem_of_fmap. apply Hb.
      rewrite list_elem_of_fmap. exists (rb r, r0 r). split; [done|]. apply list_elem_of_fmap. by exists r.
    + exists o, d. split; [done|]. intros ->. destruct H as [_ H]. lia.
  - intros b i (l1 & l2 & Ht)%list_elem_of_split.
    destruct (rw_wait_spec s rs aq uq b i l1 l2 HI Ht) as (o & d & Hrun & _ & H).
    exists o, d. split; [done|]. intros ->. by destruct H.
  - by eapply intr_outcome.
  - intros h Hh. destruct (head_req _ _ _ _ _ h HI) as (r & _ & -> & Hd); [set_solver|].
    by apply status_described.
  - pose proof (nodup_range_length (slots rs) 64 (I_nodup _ _ _ _ _ HI) (I_range _ _ _ _ _ HI)) as H.
    rewrite slots_length in H. lia.
Qed.

(** C22. The requests of the waiting tasks use pairwise different descriptors,
    every other descriptor is free, and the chain at a task's head describes
    the transfer between its buffer and the buffer's block: a header with the
    direction and the sector, the block's data, and the status byte. *)
Theorem virtio_disk_requests s0 s :
  initial s0 -> rtc step s0 s ->
  exists rs, threads s = map (fun r => (rb r, r0 r)) rs /\
    NoDup (slots rs) /\
    (forall i, 0 <= i < NUM -> VirtioDisk.free (drv s) !! i = Some (bool_decide (~ (i ∈ slots rs)))) /\
    Forall (described (drv s)) rs.
Proof.
  intros H0 Hs. destruct (reachable_disk_inv s0 s H0 Hs) as (_ & rs & aq & uq & HI).
  exists rs. split; [apply HI|]. split; [apply HI|]. split; [|apply HI]. exact (I_use _ _ _ _ _ HI).
Qed.

(** ** Set-up *)

(** Set-up either panics or follows the specification's sequence: reset,
    acknowledge, offer exactly the device's features without the refused
    ones, check FEATURES_OK, describe queue 0 and only then set DRIVER_OK; the
    driver starts with all descriptors free. *)
Theorem virtio_disk_init_sequence mmio d a u blocks :
  fails (virtio_disk_init mmio d a u blocks []) \/
  (exists f st log, virtio_disk_init mmio d a u blocks [] = Done (fresh_disk blocks, log) /\
     log = log5 f ++ queue_log 0 d a u ++ [(112, u32 (Z.lor st 4))] /\
     st = u32 (mmio (log5 f) 112) /\ Z.testbit st 3 = true /\
     (forall k, 0 <= k < 32 -> Z.testbit f k =
        Z.testbit (mmio log3 16) k && negb (bool_decide (k ∈ refused))) /\
     NUM <= u32 (mmio (log5 f ++ [(48, 0)]) 52) /\ d <> 0 /\ a <> 0 /\ u <> 0).
Proof.
  unfold virtio_disk_init, probe, negotiate, setup_queue.
  destruct (probe_outcome mmio 2 "could not find virtio disk" []) as [H1|H1]; [left; by apply bind_fails|].
  rewrite (bind_done _ _ _ _ _ H1).
  destruct (negotiate_outcome mmio refused "virtio disk FEATURES_OK unset") as [H2|(f & st & H2 & Hst & Hok & Hf)];
    [left; by apply bind_fails|].
  rewrite (bind_done _ _ _ _ _ H2).
  destruct (setup_queue_outcome mmio "virtio disk should not be ready" "virtio disk has no queue 0"
    "virtio disk max queue too short" (panic "virtio disk mem_malloc") 0 d a u (log5 f)) as [H3|(H3 & Hmax & Hp)];
    [done|left; by apply bind_fails|].
  rewrite (bind_done _ _ _ _ _ H3). right. exists f, st. eexists. split; [reflexivity|].
  split; [by rewrite <- app_assoc|]. split; [exact Hst|]. split; [done|]. split; [|by split].
  intros k Hk. rewrite Hf. apply offered_bits; [by repeat constructor|done].
Qed.

(** ** A concrete run: a read of block 9, taken and completed by the device *)

Lemma run_one b h st d0 d1 : 0 <= st < 256 ->
  rw_submit b false d0 = Done (Some h, d1) -> avail_idx d1 = 1 -> avail_ring d1 !! 0 = Some h ->
  dev_status_of d1 h = Some h ->
  rtc step (mkSys d0 0 [] [] ∅) (mkSys (dev_complete st h h d1) 1 [] [(b, h)] (<[h := st]> (delete h ∅))).
Proof.
  intros Hst Hs Hi Hr Hd. apply (rtc_l _ _ (mkSys d1 0 [] [(b, h)] (delete h ∅))); [|apply (rtc_l _ _ (mkSys d1 1 [h] [(b, h)] (delete h ∅)))].
  - apply (step_submit (mkSys d0 0 [] [] ∅) b false (Some h) d1); [by intros ?%elem_of_nil|exact Hs].
  - exact (step_take (mkSys d1 0 [] [(b, h)] (delete h ∅)) h ltac:(cbn; lia) Hr).
  - apply rtc_once. exact (step_complete (mkSys d1 1 [h] [(b, h)] (delete h ∅)) h h st [] [] Hst eq_refl Hd).
Qed.

Definition demo_blocks : gmap Z Z := {[ 7 := 9 ]}.
Definition demo_sent : disk :=
  match rw_submit 7 false (fresh_disk demo_blocks) with Done (_, d) => d | _ => fresh_disk ∅ end.
(** The device has answered with [st]. *)
Definition demo_sys (st : Z) : sys := mkSys (dev_complete st 0 0 demo_sent) 1 [] [(7, 0)] (<[0 := st]> (delete 0 ∅)).

Lemma demo_sys_initial : initial (mkSys (fresh_disk demo_blocks) 0 [] [] ∅).
Proof. by eexists. Qed.

Lemma demo_sys_reachable st : 0 <= st < 256 -> rtc step (mkSys (fresh_disk demo_blocks) 0 [] [] ∅) (demo_sys st).
Proof. intros Hst. apply run_one; [done|vm_compute; reflexivity..]. Qed.

Lemma virtio_disk_safe_witness :
  (exists d, virtio_disk_intr (drv (demo_sys 0)) = Done (tt, d) /\ bdisk d !! 7 = Some false) /\
  virtio_disk_intr (drv (demo_sys 1)) = Panic "virtio_disk_intr status".
Proof.
  split.
  - destruct (virtio_disk_safe _ (demo_sys 0) demo_sys_initial (demo_sys_reachable 0 ltac:(lia)))
      as (_ & _ & [[_ (d & H & Hb)]|[(b & i & st & Hin & Hr & Hne) _]] & _).
    + exists d. split; [exact H|]. exact (Hb 7 0 ltac:(by left)).
    + exfalso. apply list_elem_of_singleton in Hin as [= -> ->]. cbn [results demo_sys] in Hr. rewrite lookup_insert_eq in Hr. congruence.
  - destruct (virtio_disk_safe _ (demo_sys 1) demo_sys_initial (demo_sys_reachable 1 ltac:(lia)))
      as (_ & _ & [[Hz _]|[_ H]] & _); [|exact H].
    specialize (Hz 7 0 1 ltac:(by left) eq_refl). discriminate Hz.
Defined.

Lemma virtio_disk_requests_witness : exists rs, threads (demo_sys 0) = map (fun r => (rb r, r0 r)) rs.
Proof.
  destruct (virtio_disk_requests _ (demo_sys 0) demo_sys_initial (demo_sys_reachable 0 ltac:(lia))) as (rs & H & _).
  exists rs. exact H.
Defined.

(** A device that offers features 5 and 9 and accepts. *)
Definition demo_mmio (log : list (Z * Z)) (r : Z) : Z :=
  if r =? 0 then 1953655158 else if r =? 4 then 2 else if r =? 8 then 2 else if r =? 12 then 1431127377
  else if r =? 16 then 544 else if r =? 52 then 1024 else if r =? 112 then 11 else 0.

Example demo_init : exists log, virtio_disk_init demo_mmio 4096 8192 12288 ∅ [] = Done (fresh_disk ∅, log) /\
  (32, 512) ∈ log /\ last log = Some (112, 15).
Proof. eexists. split; [vm_compute; reflexivity|]. split; [|reflexivity]. set_solver. Qed.
