(* ===== verification/Gpu.v ===== *)
(** * The display driver: virtio_gpu.c

    Two queues of [NUM] descriptors with the driver's bookkeeping.  A command
    and the place for its answer live in the stack frame of the task that
    sends it, which the descriptors point to.  Every function that sends a
    command is cut where it sleeps: [.._req] builds the command, [.._send]
    looks for descriptors and hands the command to the device, [wait_call]
    runs when the task is woken.  Each part after the first runs under
    [vgpu_lock].  The device is the part of the step relation at the end that
    moves heads from the available to the used ring; what a command makes the
    display do is the interface [Display].  The picture that [mandelbrot.c]
    draws into the frame buffer is left out. *)
From S2P Require Import Prelude Virtq.

Definition CTRL_Q : Z := 0.
Definition CURSOR_Q : Z := 1.
Definition VIRTIO_GPU_CMD_GET_DISPLAY_INFO : Z := 256.
Definition VIRTIO_GPU_CMD_RESOURCE_CREATE_2D : Z := 257.
Definition VIRTIO_GPU_CMD_SET_SCANOUT : Z := 259.
Definition VIRTIO_GPU_CMD_RESOURCE_FLUSH : Z := 260.
Definition VIRTIO_GPU_CMD_TRANSFER_TO_HOST_2D : Z := 261.
Definition VIRTIO_GPU_CMD_RESOURCE_ATTACH_BACKING : Z := 262.
Definition VIRTIO_GPU_RESP_OK_NODATA : Z := 4352.
Definition VIRTIO_GPU_FORMAT_B8G8R8A8_UNORM : Z := 1.

(** ** Commands and answers *)

Record virtio_gpu_ctrl_hdr : Type := mkHdr { type : Z; hflags : Z; fence_id : Z; ctx_id : Z; padding : Z }.
Record virtio_gpu_rect : Type := mkRect { rect_x : Z; rect_y : Z; rect_width : Z; rect_height : Z }.
Record display_one : Type := mkMode { mode_r : virtio_gpu_rect; enabled : Z; dflags : Z }.
Record virtio_gpu_mem_entry : Type := mkEntry { entry_addr : Z; entry_length : Z }.

(** The command structures; members that the code leaves unset are left out. *)
Inductive request : Type :=
| ctrl_hdr (hdr : virtio_gpu_ctrl_hdr)
| set_scanout (hdr : virtio_gpu_ctrl_hdr) (r : virtio_gpu_rect) (scanout_id resource_id : Z)
| resource_flush (hdr : virtio_gpu_ctrl_hdr) (r : virtio_gpu_rect) (resource_id : Z)
| transfer_to_host_2d (hdr : virtio_gpu_ctrl_hdr) (r : virtio_gpu_rect) (offset resource_id : Z)
| resource_attach_backing (hdr : virtio_gpu_ctrl_hdr) (resource_id nr_entries : Z)
| resource_create_2d (hdr : virtio_gpu_ctrl_hdr) (resource_id format width height : Z).

(** [sizeof] of the command structures, and of the answer. *)
Definition sizeof (q : request) : Z :=
  match q with
  | ctrl_hdr _ => 24
  | set_scanout _ _ _ _ => 48
  | resource_flush _ _ _ => 48
  | transfer_to_host_2d _ _ _ _ => 56
  | resource_attach_backing _ _ _ => 32
  | resource_create_2d _ _ _ _ _ => 40
  end.
Definition SIZEOF_HDR : Z := 24.
Definition SIZEOF_ENTRY : Z := 16.
Definition SIZEOF_DISPLAY_INFO : Z := 24 + 16 * 24.

(** An answer: the header's type, and the modes of a display info. *)
Record response : Type := mkResp { rtype : Z; pmodes : list display_one }.

(** The locals of a task inside a call. *)
Record frame : Type := mkFrame { req : request; entry : option virtio_gpu_mem_entry; resp : option response }.

(** What a descriptor's address is: [&req], [&entry] or [&resp] of a task. *)
Inductive dptr : Type :=
| PNull
| PReq (t : nat)
| PEntry (t : nat)
| PResp (t : nat).

Record virtq_desc : Type := mkDesc { addr : dptr; len : Z; flags : Z; next : Z }.

(** Channels of [sleep] and [wakeup]: [&free[q][0]], [&info[q][i].pending]. *)
Inductive chan : Type :=
| ChFree
| ChPending (i : Z).

Record vqueue : Type := mkVq {
  desc : gmap Z virtq_desc;
  avail_ring : gmap Z Z;
  avail_idx : Z;
  used_ring : gmap Z Z;
  dev_used_idx : Z;           (* gpu.used[q]->idx *)
  free : gmap Z bool;
  used_idx : Z;               (* gpu.used_idx[q] *)
  pending : gmap Z bool;      (* gpu.info[q][i].pending *)
  woken : list chan
}.

Record virtio_gpu_dev : Type := mkGpu {
  ctrl : vqueue;
  cursor : vqueue;
  width : Z;
  height : Z;
  framebuffer : Z;
  pixels : Z;
  resource_id : Z;
  frames : gmap nat frame
}.

Definition set_desc (i : Z) (a : virtq_desc) (q : vqueue) : vqueue :=
  mkVq (<[i := a]> (desc q)) (avail_ring q) (avail_idx q) (used_ring q) (dev_used_idx q) (free q) (used_idx q)
       (pending q) (woken q).
Definition set_avail (i h : Z) (q : vqueue) : vqueue :=
  mkVq (desc q) (<[i := h]> (avail_ring q)) (avail_idx q) (used_ring q) (dev_used_idx q) (free q) (used_idx q)
       (pending q) (woken q).
Definition set_avail_idx (a : Z) (q : vqueue) : vqueue :=
  mkVq (desc q) (avail_ring q) a (used_ring q) (dev_used_idx q) (free q) (used_idx q) (pending q) (woken q).
Definition set_used (i h idx : Z) (q : vqueue) : vqueue :=
  mkVq (desc q) (avail_ring q) (avail_idx q) (<[i := h]> (used_ring q)) idx (free q) (used_idx q) (pending q) (woken q).
Definition set_free (i : Z) (b : bool) (q : vqueue) : vqueue :=
  mkVq (desc q) (avail_ring q) (avail_idx q) (used_ring q) (dev_used_idx q) (<[i := b]> (free q)) (used_idx q)
       (pending q) (woken q).
Definition set_used_idx (u : Z) (q : vqueue) : vqueue :=
  mkVq (desc q) (avail_ring q) (avail_idx q) (used_ring q) (dev_used_idx q) (free q) u (pending q) (woken q).
Definition set_pending (i : Z) (b : bool) (q : vqueue) : vqueue :=
  mkVq (desc q) (avail_ring q) (avail_idx q) (used_ring q) (dev_used_idx q) (free q) (used_idx q)
       (<[i := b]> (pending q)) (woken q).
Definition wake (c : chan) (q : vqueue) : vqueue :=
  mkVq (desc q) (avail_ring q) (avail_idx q) (used_ring q) (dev_used_idx q) (free q) (used_idx q) (pending q)
       (c :: woken q).

Definition set_ctrl (q : vqueue) (g : virtio_gpu_dev) : virtio_gpu_dev :=
  mkGpu q (cursor g) (width g) (height g) (framebuffer g) (pixels g) (resource_id g) (frames g).
Definition set_cursor (q : vqueue) (g : virtio_gpu_dev) : virtio_gpu_dev :=
  mkGpu (ctrl g) q (width g) (height g) (framebuffer g) (pixels g) (resource_id g) (frames g).
Definition set_frames (fs : gmap nat frame) (g : virtio_gpu_dev) : virtio_gpu_dev :=
  mkGpu (ctrl g) (cursor g) (width g) (height g) (framebuffer g) (pixels g) (resource_id g) fs.

(** An array access: outside the array it is a fault. *)
Definition rd {A} (f : vqueue -> gmap Z A) (i : Z) : M vqueue A := fun q =>
  match f q !! i with Some a => Done (a, q) | None => Fault end.

Definition wakeup (c : chan) : M vqueue unit := modify (wake c).

(** ** Descriptors

    The routines that take a queue's index work on that queue. *)

Definition on (queue_idx : Z) {A} (m : M vqueue A) : M virtio_gpu_dev A :=
  if queue_idx =? CTRL_Q then zoom ctrl set_ctrl m else zoom cursor set_cursor m.

Fixpoint alloc_desc_loop (k : nat) (i : Z) : M vqueue Z :=
  match k with
  | O => ret (-1)
  | S k => f <- rd free i;;
           if f : bool then modify (set_free i false);;; ret i else alloc_desc_loop k (i + 1)
  end.
Definition alloc_desc : M vqueue Z := alloc_desc_loop (Z.to_nat NUM) 0.

Definition free_desc (i : Z) : M vqueue unit :=
  if NUM <=? i then panic "free_desc 1"
  else
    f <- rd free i;;
    if f : bool then panic "free_desc 2"
    else
      modify (set_desc i (mkDesc PNull 0 0 0));;;
      modify (set_free i true);;;
      wakeup ChFree.

Fixpoint free_chain_loop (fuel : nat) (i : Z) : M vqueue unit :=
  match fuel with
  | O => nofuel
  | S fuel =>
    d <- rd desc i;;
    free_desc i;;;
    if negb (Z.land (flags d) VRING_DESC_F_NEXT =? 0) then free_chain_loop fuel (next d) else ret tt
  end.
Definition free_chain (i : Z) : M vqueue unit := free_chain_loop (S (Z.to_nat NUM)) i.

Fixpoint free_all (idx : list Z) : M vqueue unit :=
  match idx with
  | [] => ret tt
  | i :: idx => free_desc i;;; free_all idx
  end.

(** [n] descriptors to go, [idx] so far. *)
Fixpoint allocn_loop (n : nat) (idx : list Z) : M vqueue (option (list Z)) :=
  match n with
  | O => ret (Some idx)
  | S n => i <- alloc_desc;;
           if i <? 0 then free_all idx;;; ret None else allocn_loop n (idx ++ [i])
  end.
Definition allocn_desc (n : nat) : M vqueue (option (list Z)) :=
  if NUM <? Z.of_nat n then ret None else allocn_loop n [].

(** ** Sending a command *)

Definition hdr_of (type : Z) : virtio_gpu_ctrl_hdr := mkHdr type 0 0 0 0.

(** The whole display. *)
Definition screen (g : virtio_gpu_dev) : virtio_gpu_rect := mkRect 0 0 (width g) (height g).

Definition get_display_info_req (g : virtio_gpu_dev) : request :=
  ctrl_hdr (hdr_of VIRTIO_GPU_CMD_GET_DISPLAY_INFO).
Definition virtio_gpu_set_scanout_req (g : virtio_gpu_dev) : request :=
  set_scanout (hdr_of VIRTIO_GPU_CMD_SET_SCANOUT) (screen g) 0 (resource_id g).
Definition virtio_gpu_resource_flush_req (g : virtio_gpu_dev) : request :=
  resource_flush (hdr_of VIRTIO_GPU_CMD_RESOURCE_FLUSH) (screen g) (resource_id g).
Definition virtio_gpu_transfer_to_host_2d_req (g : virtio_gpu_dev) : request :=
  transfer_to_host_2d (hdr_of VIRTIO_GPU_CMD_TRANSFER_TO_HOST_2D) (screen g) 0 (resource_id g).
Definition virtio_gpu_resource_attach_backing_req (g : virtio_gpu_dev) : request :=
  resource_attach_backing (hdr_of VIRTIO_GPU_CMD_RESOURCE_ATTACH_BACKING) (resource_id g) 1.
Definition virtio_gpu_resource_create_2d_req (g : virtio_gpu_dev) : request :=
  resource_create_2d (hdr_of VIRTIO_GPU_CMD_RESOURCE_CREATE_2D) (resource_id g)
    VIRTIO_GPU_FORMAT_B8G8R8A8_UNORM (width g) (height g).

(** The memory entry of [virtio_gpu_resource_attach_backing]. *)
Definition backing (g : virtio_gpu_dev) : virtio_gpu_mem_entry :=
  mkEntry (framebuffer g) (u32 (u64 (pixels g * 4))).

(** From [info[idx[0]].pending = 1] to the notification. *)
Definition notify (i0 : Z) : M vqueue unit :=
  modify (set_pending i0 true);;;
  a <- gets avail_idx;;
  modify (set_avail (a mod NUM) i0);;;
  modify (set_avail_idx (u16 (a + 1))).

(** A command of [l0] bytes with an answer of [l1]: [None] is a sleep for
    descriptors, [Some i] a command sent with head [i]. *)
Definition send2 (t : nat) (l0 l1 : Z) : M vqueue (option Z) :=
  idx <- allocn_desc 2;;
  match idx with
  | Some [i0; i1] =>
      modify (set_desc i0 (mkDesc (PReq t) l0 VRING_DESC_F_NEXT i1));;;
      modify (set_desc i1 (mkDesc (PResp t) l1 VRING_DESC_F_WRITE 0));;;
      notify i0;;;
      ret (Some i0)
  | _ => ret None
  end.

Definition get_display_info_send (t : nat) : M virtio_gpu_dev (option Z) :=
  on CTRL_Q (send2 t 24 SIZEOF_DISPLAY_INFO).
Definition virtio_gpu_set_scanout_send (t : nat) : M virtio_gpu_dev (option Z) :=
  on CTRL_Q (send2 t 48 SIZEOF_HDR).
Definition virtio_gpu_resource_flush_send (t : nat) : M virtio_gpu_dev (option Z) :=
  on CTRL_Q (send2 t 48 SIZEOF_HDR).
Definition virtio_gpu_transfer_to_host_2d_send (t : nat) : M virtio_gpu_dev (option Z) :=
  on CTRL_Q (send2 t 56 SIZEOF_HDR).
Definition virtio_gpu_resource_create_2d_send (t : nat) : M virtio_gpu_dev (option Z) :=
  on CTRL_Q (send2 t 40 SIZEOF_HDR).

Definition set_entry (t : nat) (g : virtio_gpu_dev) : virtio_gpu_dev :=
  set_frames (alter (fun f => mkFrame (req f) (Some (backing g)) (resp f)) t (frames g)) g.

Definition virtio_gpu_resource_attach_backing_send (t : nat) : M virtio_gpu_dev (option Z) :=
  idx <- on CTRL_Q (allocn_desc 3);;
  match idx with
  | Some [i0; i1; i2] =>
      modify (set_entry t);;;
      on CTRL_Q (
        modify (set_desc i0 (mkDesc (PReq t) 32 VRING_DESC_F_NEXT i1));;;
        modify (set_desc i1 (mkDesc (PEntry t) SIZEOF_ENTRY VRING_DESC_F_NEXT i2));;;
        modify (set_desc i2 (mkDesc (PResp t) SIZEOF_HDR VRING_DESC_F_WRITE 0));;;
        notify i0);;;
      ret (Some i0)
  | _ => ret None
  end.

(** The loop that waits for the answer, one turn: whether it has come, after
    which the chain is free. *)
Definition wait_call (i0 : Z) : M vqueue bool :=
  p <- rd pending i0;;
  if p : bool then ret false else free_chain i0;;; ret true.

Definition panic_on (cond : bool) (s : string) : M virtio_gpu_dev unit := if cond then panic s else ret tt.

Inductive command : Type :=
| GetDisplayInfo | SetScanout | ResourceFlush | TransferToHost2d | AttachBacking | Create2d.

#[export] Instance command_eq_dec : EqDecision command.
Proof. solve_decision. Defined.

Definition req_of (c : command) : virtio_gpu_dev -> request :=
  match c with
  | GetDisplayInfo => get_display_info_req
  | SetScanout => virtio_gpu_set_scanout_req
  | ResourceFlush => virtio_gpu_resource_flush_req
  | TransferToHost2d => virtio_gpu_transfer_to_host_2d_req
  | AttachBacking => virtio_gpu_resource_attach_backing_req
  | Create2d => virtio_gpu_resource_create_2d_req
  end.

Definition send (c : command) : nat -> M virtio_gpu_dev (option Z) :=
  match c with
  | GetDisplayInfo => get_display_info_send
  | SetScanout => virtio_gpu_set_scanout_send
  | ResourceFlush => virtio_gpu_resource_flush_send
  | TransferToHost2d => virtio_gpu_transfer_to_host_2d_send
  | AttachBacking => virtio_gpu_resource_attach_backing_send
  | Create2d => virtio_gpu_resource_create_2d_send
  end.

(** What a function does with the answer before it returns. *)
Definition check (c : command) (a : response) : M virtio_gpu_dev unit :=
  let bad := negb (rtype a =? VIRTIO_GPU_RESP_OK_NODATA) in
  match c with
  | GetDisplayInfo => ret tt
  | SetScanout => panic_on bad "virtio_gpu_set_scanout failed"
  | ResourceFlush => panic_on bad "virtio_gpu_resource_flush failed"
  | TransferToHost2d => panic_on bad "virtio_gpu_transfer_to_host_2d failed"
  | AttachBacking => panic_on bad "virtio_gpu_resource_attach_backing failed"
  | Create2d => panic_on bad "virtio_gpu_resource_create_2d failed"
  end.

(** A call begins: its frame holds the command, the answer is not written. *)
Definition begin_call (c : command) (t : nat) : M virtio_gpu_dev unit :=
  modify (fun g => set_frames (<[t := mkFrame (req_of c g) None None]> (frames g)) g).

(** The end of a call, run when the task is woken: [None] is more sleep, else
    the frame goes, with the answer as the result. *)
Definition end_call (c : command) (t : nat) (i0 : Z) : M virtio_gpu_dev (option response) :=
  over <- on CTRL_Q (wait_call i0);;
  if over : bool then
    f <- gets (fun g => frames g !! t);;
    match f with
    | Some (mkFrame _ _ (Some a)) =>
        modify (fun g => set_frames (delete t (frames g)) g);;;
        check c a;;; ret (Some a)
    | _ => fault
    end
  else ret None.

(** ** The interrupt handler *)

Fixpoint intr_loop (fuel : nat) : M vqueue unit :=
  match fuel with
  | O => nofuel
  | S fuel =>
    u <- gets used_idx;; n <- gets dev_used_idx;;
    if u =? n then ret tt
    else
      id <- rd used_ring (u mod NUM);;
      rd pending id;;;
      modify (set_pending id false);;;
      wakeup (ChPending id);;;
      modify (set_used_idx (u16 (u + 1)));;;
      intr_loop fuel
  end.
Definition virtio_gpu_intr : M virtio_gpu_dev unit :=
  on CTRL_Q (
    fuel <- gets (fun q => S (Z.to_nat (u16 (dev_used_idx q - used_idx q))));;
    intr_loop fuel).

(** ** Set-up *)

Record monitor_t : Type := mkMonitor { buf : Z; buf_len : Z; mwidth : Z; mheight : Z }.

Section Init.
Variable mmio : list (Z * Z) -> Z -> Z.
(** The feature bits the driver turns down. *)
Definition refused : list Z := [0; 1; 27; 29; 28].

Definition probe : M (list (Z * Z)) unit := Virtq.probe mmio 16 "could not find virtio gpu".
Definition negotiate : M (list (Z * Z)) Z := Virtq.negotiate mmio refused "virtio gpu FEATURES_OK unset".

(** Queue [k] at the addresses that [mem_malloc] returned, which are not
    tested; clearing memory at the null pointer is a fault. *)
Definition setup_queue (k : Z) (none : string) (desc avail used : Z) : M (list (Z * Z)) unit :=
  Virtq.setup_queue mmio "virtio gpu should not be ready" none "virtio gpu max queue too short" fault k desc avail used.

(** A queue after [memset], with all its descriptors free. *)
Definition fresh_queue : vqueue :=
  mkVq (entries (mkDesc PNull 0 0 0)) (entries 0) 0 (entries 0) 0 (entries true) 0 (entries false) [].

Definition fresh_gpu : virtio_gpu_dev := mkGpu fresh_queue fresh_queue 0 0 0 0 1 ∅.

(** [virtio_gpu_init] up to [get_display_info]. *)
Definition virtio_gpu_start (d0 a0 u0 d1 a1 u1 : Z) : M (list (Z * Z)) virtio_gpu_dev :=
  probe;;; st <- negotiate;;
  setup_queue 0 "virtio gpu has no queue 0" d0 a0 u0;;;
  setup_queue 1 "virtio gpu has no queue 1" d1 a1 u1;;;
  W VIRTIO_MMIO_STATUS (Z.lor st 4);;;
  ret fresh_gpu.

End Init.

(** The rest of [virtio_gpu_init]: what it does with the display info [a];
    [malloc] gives the address [mem_malloc] returns for a size. *)
Definition configure (malloc : Z -> Z) (a : response) : M (virtio_gpu_dev * monitor_t) unit := fun s =>
  match pmodes a with
  | [] => Fault
  | m :: _ =>
      let w := rect_width (mode_r m) in
      let h := rect_height (mode_r m) in
      let g := s.1 in
      let fb := malloc (u32 (u32 (w * h) * 4)) in
      let px := u32 (w * h) in
      Done (tt, (mkGpu (ctrl g) (cursor g) w h fb px (resource_id g) (frames g),
                 mkMonitor fb (px * 4) (s32 w) (s32 h)))
  end.

(** The calls of [virtio_gpu_init] and of [monitor_write], in order. *)
Inductive item : Type :=
| ICall (c : command)
| IConfigure.

Definition init_prog : list item :=
  [ICall GetDisplayInfo; IConfigure; ICall Create2d; ICall AttachBacking; ICall SetScanout;
   ICall TransferToHost2d; ICall ResourceFlush].
Definition write_prog : list item := [ICall TransferToHost2d; ICall ResourceFlush].

(** ** The driver, its tasks and its device

    A task is between two calls, inside one and looking for descriptors, or
    waiting for the answer to a command with a given head.  [results] are the
    commands whose calls have returned, with their entries and answers, and [calls] all
    the calls the task ever had to make. *)

(** What a command does, with the memory entry that follows it. *)
Class Display (V : Type) : Type := {
  execute : V -> request -> option virtio_gpu_mem_entry -> response * V
}.

Inductive stage : Type :=
| Idle
| Looking (c : command)
| Waiting (c : command) (i0 : Z).

Record thread : Type := mkThread {
  prog : list item;
  at_ : stage;
  results : list (request * option virtio_gpu_mem_entry * response);
  calls : list command
}.

Definition calls_of (p : list item) : list command :=
  omap (fun i => match i with ICall c => Some c | IConfigure => None end) p.

Record served_t : Type := mkServed { s_task : nat; s_req : request; s_entry : option virtio_gpu_mem_entry; s_resp : response }.

(** [dev_last] is the device's index in the available ring, [outst] the
    commands it has taken and [served] those it has executed. *)
Record sys (V : Type) : Type := mkSys {
  drv : virtio_gpu_dev;
  mon : monitor_t;
  dev_last : Z;
  outst : list Z;
  served : list served_t;
  display : V;
  threads : gmap nat thread
}.
Arguments mkSys {V}.
Arguments drv {V}.
Arguments mon {V}.
Arguments dev_last {V}.
Arguments outst {V}.
Arguments served {V}.
Arguments display {V}.
Arguments threads {V}.

(** What the device finds at head [h]: a command as long as its descriptor
    says, an entry when the chain goes on before a place to write, and room
    for the answer, all in the frame of one task. *)
Definition dev_fetch (g : virtio_gpu_dev) (h : Z) : option (nat * frame) :=
  d0 ← desc (ctrl g) !! h;
  match addr d0 with
  | PReq t =>
      f ← frames g !! t;
      d1 ← desc (ctrl g) !! next d0;
      d2 ← (match addr d1 with
            | PEntry t' => if decide (t' = t /\ len d1 = SIZEOF_ENTRY /\ flags d1 = VRING_DESC_F_NEXT /\ is_Some (entry f))
                           then desc (ctrl g) !! next d1 else None
            | _ => Some d1
            end);
      match addr d2 with
      | PResp t' => if decide (t' = t /\ len d0 = sizeof (req f) /\ flags d0 = VRING_DESC_F_NEXT /\
                               SIZEOF_HDR <= len d2 /\ flags d2 = VRING_DESC_F_WRITE)
                    then Some (t, f) else None
      | _ => None
      end
  | _ => None
  end.

(** The device writes the answer [a] for task [t] and returns the head. *)
Definition dev_answer (t : nat) (h : Z) (a : response) (g : virtio_gpu_dev) : virtio_gpu_dev :=
  let q := ctrl g in
  set_ctrl (set_used (dev_used_idx q mod NUM) h (u16 (dev_used_idx q + 1)) q)
    (set_frames (alter (fun f => mkFrame (req f) (entry f) (Some a)) t (frames g)) g).

Section Sys.
Context {V : Type} `{!Display V}.
Variable malloc : Z -> Z.
Implicit Types (s : sys V) (th : thread).

Definition with_drv (g : virtio_gpu_dev) s : sys V :=
  mkSys g (mon s) (dev_last s) (outst s) (served s) (display s) (threads s).
Definition with_thread (t : nat) th s : sys V :=
  mkSys (drv s) (mon s) (dev_last s) (outst s) (served s) (display s) (<[t := th]> (threads s)).

(** A task that begins [monitor_write] while it is in no other call. *)
Definition writing (o : option thread) : option thread :=
  match o with
  | None => Some (mkThread write_prog Idle [] (calls_of write_prog))
  | Some (mkThread [] Idle rs cs) => Some (mkThread write_prog Idle rs (cs ++ calls_of write_prog))
  | _ => None
  end.

Inductive step : sys V -> sys V -> Prop :=
| step_write s t th :
    writing (threads s !! t) = Some th -> step s (with_thread t th s)
| step_begin s t c p rs cs g :
    threads s !! t = Some (mkThread (ICall c :: p) Idle rs cs) ->
    begin_call c t (drv s) = Done (tt, g) ->
    step s (with_thread t (mkThread (ICall c :: p) (Looking c) rs cs) (with_drv g s))
| step_send s t c p rs cs o g :
    threads s !! t = Some (mkThread p (Looking c) rs cs) ->
    send c t (drv s) = Done (o, g) ->
    step s (with_thread t (mkThread p (match o with Some i0 => Waiting c i0 | None => Looking c end) rs cs) (with_drv g s))
| step_wait s t c i0 p rs cs f o g :
    threads s !! t = Some (mkThread p (Waiting c i0) rs cs) -> frames (drv s) !! t = Some f ->
    end_call c t i0 (drv s) = Done (o, g) ->
    step s (with_thread t (match o with
                           | Some a => mkThread (tail p) Idle (rs ++ [(req f, entry f, a)]) cs
                           | None => mkThread p (Waiting c i0) rs cs
                           end) (with_drv g s))
| step_configure s t p rs a q cs g m :
    threads s !! t = Some (mkThread (IConfigure :: p) Idle (rs ++ [(q, a)]) cs) ->
    configure malloc a (drv s, mon s) = Done (tt, (g, m)) ->
    step s (mkSys g m (dev_last s) (outst s) (served s) (display s)
              (<[t := mkThread p Idle (rs ++ [(q, a)]) cs]> (threads s)))
| step_intr s g :
    virtio_gpu_intr (drv s) = Done (tt, g) -> step s (with_drv g s)
| step_take s h :
    dev_last s <> avail_idx (ctrl (drv s)) -> avail_ring (ctrl (drv s)) !! (dev_last s mod NUM) = Some h ->
    step s (mkSys (drv s) (mon s) (u16 (dev_last s + 1)) (h :: outst s) (served s) (display s) (threads s))
| step_complete s h l1 l2 t f a v :
    outst s = l1 ++ h :: l2 -> dev_fetch (drv s) h = Some (t, f) ->
    execute (display s) (req f) (entry f) = (a, v) ->
    step s (mkSys (dev_answer t h a (drv s)) (mon s) (dev_last s) (l1 ++ l2)
              (served s ++ [mkServed t (req f) (entry f) a]) v (threads s)).

(** The task [boot] in [virtio_gpu_init], after the set-up of the device. *)
Definition initial (boot : nat) s : Prop :=
  drv s = fresh_gpu /\ dev_last s = 0 /\ outst s = [] /\ served s = [] /\
  threads s = {[ boot := mkThread init_prog Idle [] (calls_of init_prog) ]}.
End Sys.
