(* ===== verification/GpuQueue.v ===== *)
(** * A queue of the display driver and the chains in flight *)
From S2P Require Import Prelude Virtq Gpu.

(** ** Allocating and freeing descriptors *)

Lemma vq_rd_bind {A B} (f : vqueue -> gmap Z A) i a q (K : A -> M vqueue B) :
  f q !! i = Some a -> bind (rd f i) K q = K a q.
Proof. intros H. unfold bind, rd. by rewrite H. Qed.

(** [l] are the descriptors in use. *)
Definition in_use (q : vqueue) (l : list Z) : Prop :=
  forall i, 0 <= i < NUM -> free q !! i = Some (bool_decide (~ (i ∈ l))).

(** Everything but the free flags, the channels woken and the descriptors not
    in [l]. *)
Definition keeps (l : list Z) (q q' : vqueue) : Prop :=
  avail_ring q' = avail_ring q /\ avail_idx q' = avail_idx q /\ used_ring q' = used_ring q /\
  dev_used_idx q' = dev_used_idx q /\ used_idx q' = used_idx q /\ pending q' = pending q /\
  (forall i, i ∈ l -> desc q' !! i = desc q !! i) /\
  (forall i, is_Some (desc q !! i) -> is_Some (desc q' !! i)).

Lemma gpu_keeps_refl l q : keeps l q q.
Proof. unfold keeps. by split_and!. Qed.

Lemma gpu_keeps_trans l q1 q2 q3 : keeps l q1 q2 -> keeps l q2 q3 -> keeps l q1 q3.
Proof.
  unfold keeps. intros (? & ? & ? & ? & ? & ? & Ha & Hb) (? & ? & ? & ? & ? & ? & Hc & Hd).
  split_and!; try congruence; [|by auto]. intros i Hi. by rewrite Hc, Ha.
Qed.

Lemma gpu_in_use_ext q l l' : (forall i, i ∈ l <-> i ∈ l') -> in_use q l -> in_use q l'.
Proof. intros E H i Hi. rewrite H by done. f_equal. apply bool_decide_ext. by rewrite E. Qed.

Lemma in_use_set q l l' i b : in_use q l -> (forall j, j <> i -> j ∈ l' <-> j ∈ l) -> b = bool_decide (~ (i ∈ l')) ->
  in_use (set_free i b q) l'.
Proof.
  intros H E -> j Hj. cbn. destruct (decide (i = j)) as [->|Hne]; [by rewrite lookup_insert_eq|].
  rewrite lookup_insert_ne, H by done. f_equal. apply bool_decide_ext. by rewrite E by congruence.
Qed.

Lemma gpu_in_use_alloc q l i : in_use q l -> in_use (set_free i false q) (i :: l).
Proof.
  intros H. eapply in_use_set; [exact H|set_solver|]. symmetry. apply bool_decide_eq_false. set_solver.
Qed.

Lemma gpu_alloc_desc_loop_spec q l : in_use q l -> forall k i,
  0 <= i -> i + Z.of_nat k = NUM ->
  (exists j, 0 <= j < NUM /\ ~ (j ∈ l) /\ alloc_desc_loop k i q = Done (j, set_free j false q)) \/
  (alloc_desc_loop k i q = Done (-1, q) /\ forall j, i <= j < NUM -> j ∈ l).
Proof.
  intros Hu. induction k as [|k IH]; intros i Hi Hk; cbn [alloc_desc_loop];
    [right; split; [done|lia]|].
  rewrite (vq_rd_bind _ _ _ _ _ (Hu i ltac:(lia))). case_bool_decide as Hin.
  - left. exists i. split; [lia|]. done.
  - destruct (IH (i + 1)) as [H|[H Hall]]; [lia..|by left|right]. split; [done|].
    intros j Hj. destruct (decide (j = i)) as [->|]; [done|apply Hall; lia].
Qed.

Lemma gpu_alloc_desc_spec q l :
  in_use q l ->
  (exists j, 0 <= j < NUM /\ ~ (j ∈ l) /\ alloc_desc q = Done (j, set_free j false q)) \/
  (alloc_desc q = Done (-1, q) /\ forall j, 0 <= j < NUM -> j ∈ l).
Proof. intros Hu. apply (gpu_alloc_desc_loop_spec q l Hu); reflexivity || lia. Qed.

(** The state after [free_desc i]. *)
Definition freed (i : Z) (q : vqueue) : vqueue :=
  wake ChFree (set_free i true (set_desc i (mkDesc PNull 0 0 0) q)).

Lemma gpu_free_desc_spec q l i :
  in_use q l -> 0 <= i < NUM -> i ∈ l -> free_desc i q = Done (tt, freed i q).
Proof.
  intros Hu Hi Hin. unfold free_desc. rewrite (proj2 (Z.leb_gt NUM i)) by lia.
  rewrite (vq_rd_bind _ _ _ _ _ (Hu i Hi)). by rewrite bool_decide_eq_false_2 by auto.
Qed.

Lemma in_use_freed q l i : in_use q (i :: l) -> i ∉ l -> in_use (freed i q) l.
Proof.
  intros Hu Hi. apply (in_use_set (set_desc i (mkDesc PNull 0 0 0) q) (i :: l)); [exact Hu|set_solver|].
  symmetry. by apply bool_decide_eq_true.
Qed.

Lemma gpu_keeps_freed l q i : i ∉ l -> keeps l q (freed i q).
Proof.
  intros Hi. unfold keeps, freed. cbn. split_and!; try done.
  - intros j Hj. apply lookup_insert_ne. by intros ->.
  - intros j Hj. apply lookup_insert_is_Some'. by right.
Qed.

Lemma gpu_keeps_set_free l q i b : keeps l q (set_free i b q).
Proof. unfold keeps. by split_and!. Qed.

(** Descriptors that [l] does not have. *)
Definition outside (l : list Z) (idx : list Z) : Prop :=
  NoDup idx /\ Forall (fun i => 0 <= i < NUM /\ ~ (i ∈ l)) idx.

Lemma outside_cons l i idx : outside l (i :: idx) -> 0 <= i < NUM /\ i ∉ idx ++ l /\ outside l idx.
Proof.
  intros [[Hi Hn]%NoDup_cons [[Hr Hl] Hf]%Forall_cons]. split; [done|]. split; [|done].
  rewrite elem_of_app. tauto.
Qed.

Lemma gpu_free_all_spec l : forall idx q,
  in_use q (idx ++ l) -> outside l idx ->
  exists q', free_all idx q = Done (tt, q') /\ in_use q' l /\ keeps l q q'.
Proof.
  induction idx as [|i idx IH]; intros q Hu Ho; cbn [free_all].
  - exists q. split; [done|]. split; [done|apply gpu_keeps_refl].
  - apply outside_cons in Ho as (Hr & Hi & Ho).
    rewrite (bind_done _ _ _ _ _ (gpu_free_desc_spec q _ i Hu Hr ltac:(by left))).
    destruct (IH (freed i q)) as (q' & -> & Hu' & Hk); [by apply in_use_freed|done|].
    exists q'. split; [done|]. split; [done|]. apply (gpu_keeps_trans l _ (freed i q)); [|done]. apply gpu_keeps_freed. set_solver.
Qed.

(** Fewer than [n] descriptors are left beside [l]. *)
Definition full (n : nat) (l : list Z) : Prop :=
  exists idx, (length idx < n)%nat /\ forall j, 0 <= j < NUM -> j ∈ idx ++ l.

Lemma gpu_full_length n l : full n l -> (64 < n + length l)%nat.
Proof.
  intros (idx & Hn & Hall). assert (length (seqZ 0 64) = 64)%nat as E by (rewrite length_seqZ; lia).
  assert (length (seqZ 0 64) <= length (idx ++ l))%nat as H.
  { apply submseteq_length, NoDup_submseteq; [apply NoDup_seqZ|]. intros x Hx%elem_of_seqZ. apply Hall.
    unfold NUM. lia. }
  rewrite length_app in H. lia.
Qed.

Lemma allocn_loop_spec l : forall n idx q,
  in_use q (idx ++ l) -> outside l idx ->
  exists q', keeps l q q' /\
    ((exists idx', allocn_loop n idx q = Done (Some idx', q') /\ length idx' = (length idx + n)%nat /\
        in_use q' (idx' ++ l) /\ outside l idx') \/
     (allocn_loop n idx q = Done (None, q') /\ in_use q' l /\ full (length idx + n) l)).
Proof.
  induction n as [|n IH]; intros idx q Hu Ho; cbn [allocn_loop].
  - exists q. split; [apply gpu_keeps_refl|]. left. exists idx. split; [done|]. split; [lia|]. by split.
  - destruct (gpu_alloc_desc_spec q _ Hu) as [(j & Hj & Hnj & Ha)|[Ha Hall]]; rewrite (bind_done _ _ _ _ _ Ha).
    + rewrite (proj2 (Z.ltb_ge j 0)) by lia. rewrite elem_of_app in Hnj.
      destruct (IH (idx ++ [j]) (set_free j false q)) as (q' & Hk & HIH).
      * eapply gpu_in_use_ext; [|by apply gpu_in_use_alloc]. intros i. set_solver.
      * destruct Ho as [Hn Hf].
        split; [apply NoDup_app; split; [done|]; split; [|apply NoDup_singleton]; set_solver|].
        apply Forall_app. split; [done|]. constructor; [|done]. tauto.
      * exists q'. split; [eapply gpu_keeps_trans; [apply gpu_keeps_set_free|exact Hk]|].
        rewrite length_app in HIH. simpl length in HIH.
        by replace (length idx + S n)%nat with (length idx + 1 + n)%nat by lia.
    + cbn [Z.ltb Z.compare]. destruct (gpu_free_all_spec l idx q Hu Ho) as (q' & Hfree & Hu' & Hk).
      exists q'. split; [done|]. right. rewrite (bind_done _ _ _ _ _ Hfree). split; [done|]. split; [done|].
      exists idx. split; [lia|done].
Qed.

Lemma allocn_desc_spec q l n :
  in_use q l -> (n <= 64)%nat -> exists q', keeps l q q' /\
    ((exists idx, allocn_desc n q = Done (Some idx, q') /\ length idx = n /\ in_use q' (idx ++ l) /\ outside l idx) \/
     (allocn_desc n q = Done (None, q') /\ in_use q' l /\ full n l)).
Proof.
  intros Hu Hn. unfold allocn_desc. rewrite (proj2 (Z.ltb_ge NUM _)) by (unfold NUM; lia).
  apply (allocn_loop_spec l n [] q Hu). by split; [constructor|].
Qed.

(** ** Chains *)

(** The descriptors [idx] chain the buffers [bs], the last of which is the
    device's to write. *)
Fixpoint chained (m : gmap Z virtq_desc) (idx : list Z) (bs : list (dptr * Z)) : Prop :=
  match idx, bs with
  | [i], [(p, l)] => m !! i = Some (mkDesc p l VRING_DESC_F_WRITE 0)
  | i :: (j :: _) as idx', (p, l) :: bs' => m !! i = Some (mkDesc p l VRING_DESC_F_NEXT j) /\ chained m idx' bs'
  | _, _ => False
  end.

Lemma chained_frame m m' idx bs :
  (forall i, i ∈ idx -> m' !! i = m !! i) -> chained m idx bs -> chained m' idx bs.
Proof.
  revert bs. induction idx as [|i [|j idx] IH]; intros [|[p l] bs] Hm H; try done.
  - cbn in *. destruct bs; [|done]. by rewrite Hm by (by left).
  - destruct H as [H1 H2]. split; [by rewrite Hm by (by left)|]. apply IH; [|done].
    intros k Hk. apply Hm. by right.
Qed.

Lemma free_chain_loop_spec l : forall idx bs q fuel i,
  chained (desc q) idx bs -> head idx = Some i -> in_use q (idx ++ l) -> outside l idx -> (length idx <= fuel)%nat ->
  exists q', free_chain_loop fuel i q = Done (tt, q') /\ in_use q' l /\ keeps l q q'.
Proof.
  induction idx as [|i0 idx IH]; intros bs q fuel i Hc Hh Hu Ho Hf; [done|]. injection Hh as <-.
  destruct fuel as [|fuel]; [cbn in Hf; lia|]. cbn [free_chain_loop]. cbn [app] in Hu.
  apply outside_cons in Ho as (Hr & Hi & Ho).
  pose proof (gpu_free_desc_spec q _ i0 Hu Hr ltac:(by left)) as Hfree.
  assert (keeps l q (freed i0 q)) as Hk by (apply gpu_keeps_freed; set_solver).
  pose proof (in_use_freed _ _ _ Hu Hi) as Hu'.
  destruct idx as [|j idx], bs as [|[p b] bs]; try done.
  - cbn in Hc. destruct bs; [|done]. rewrite (vq_rd_bind _ _ _ _ _ Hc), (bind_done _ _ _ _ _ Hfree).
    by exists (freed i0 q).
  - destruct Hc as [Hc1 Hc2]. rewrite (vq_rd_bind _ _ _ _ _ Hc1), (bind_done _ _ _ _ _ Hfree). cbn [flags next].
    change (negb (Z.land VRING_DESC_F_NEXT VRING_DESC_F_NEXT =? 0)) with true.
    destruct (IH bs (freed i0 q) fuel j) as (q' & -> & Hu'' & Hk'); [|done|done|done|cbn in *; lia|].
    + eapply chained_frame; [|exact Hc2]. intros k Hin. cbn. apply lookup_insert_ne. set_solver.
    + exists q'. split; [done|]. split; [done|]. by eapply gpu_keeps_trans.
Qed.

(** ** The commands in flight on a queue *)

Record flight : Type := mkFl { f_idx : list Z; f_bufs : list (dptr * Z) }.

Definition head_of (r : flight) : Z := hd 0 (f_idx r).
Definition slots (rs : list flight) : list Z := flat_map f_idx rs.

(** The chain of a flight, of at least two descriptors. *)
Definition linked (q : vqueue) (r : flight) : Prop :=
  chained (desc q) (f_idx r) (f_bufs r) /\ (2 <= length (f_idx r))%nat.

(** [aq] are the heads that the device has not taken yet, from its index [dl]
    on, [oq] those it works on, and [uq] those it has returned and the driver
    not yet seen; [ex] are further descriptors in use, in the middle of an
    operation. *)
Record qinv (q : vqueue) (ex : list Z) (dl : Z) (rs : list flight) (aq oq uq : list Z) : Prop := {
  Q_use : in_use q (ex ++ slots rs);
  Q_full : forall i, 0 <= i < NUM -> is_Some (desc q !! i) /\ is_Some (pending q !! i);
  Q_nodup : NoDup (slots rs);
  Q_range : Forall (fun i => 0 <= i < NUM) (slots rs);
  Q_desc : Forall (linked q) rs;
  Q_pend : Forall (fun r => pending q !! head_of r = Some (bool_decide (head_of r ∈ aq ++ oq ++ uq))) rs;
  Q_q : NoDup (aq ++ oq ++ uq);
  Q_heads : forall h, h ∈ aq ++ oq ++ uq -> h ∈ map head_of rs;
  Q_av : ring (avail_ring q) dl aq (avail_idx q);
  Q_us : ring (used_ring q) (used_idx q) uq (dev_used_idx q)
}.

Lemma gpu_elem_of_slots i rs : i ∈ slots rs <-> exists r, r ∈ rs /\ i ∈ f_idx r.
Proof.
  unfold slots. rewrite list_elem_of_In, in_flat_map.
  split; intros (r & H1 & H2); exists r; [rewrite !list_elem_of_In|rewrite <- !list_elem_of_In]; done.
Qed.

Lemma linked_head q r : linked q r -> head (f_idx r) = Some (head_of r) /\ head_of r ∈ f_idx r.
Proof. intros [_ H]. unfold head_of. destruct (f_idx r) as [|i l]; [cbn in H; lia|]. split; [done|by left]. Qed.

Lemma gpu_head_slot q h rs : Forall (linked q) rs -> h ∈ map head_of rs -> h ∈ slots rs.
Proof.
  intros Hf (r & -> & Hr)%list_elem_of_fmap. apply gpu_elem_of_slots. exists r. split; [done|].
  eapply Forall_forall in Hf; [|exact Hr]. by apply linked_head in Hf as [_ ?].
Qed.

Lemma gpu_slots_length q rs : Forall (linked q) rs -> (2 * length rs <= length (slots rs))%nat.
Proof.
  induction 1 as [|r rs [_ Hr] _ IH]; [done|]. cbn [slots flat_map]. rewrite length_app. cbn. fold (slots rs). lia.
Qed.

Lemma gpu_NoDup_heads q rs : Forall (linked q) rs -> NoDup (slots rs) -> NoDup (map head_of rs).
Proof.
  induction 1 as [|r rs Hr Hf IH]; [constructor|]. cbn [slots flat_map map]. intros (_ & Hd & Hn)%NoDup_app.
  apply NoDup_cons. split; [|by apply IH]. intros Hin%(gpu_head_slot q); [|done].
  by apply (Hd (head_of r)); [apply (linked_head q)|].
Qed.

Section Queue.
Context {q : vqueue} {ex : list Z} {dl : Z} {rs : list flight} {aq oq uq : list Z}.
Hypothesis HQ : qinv q ex dl rs aq oq uq.

(** At most 32 commands are in flight, so the rings never fill up. *)
Lemma qinv_small : (length aq + length oq + length uq <= 32)%nat.
Proof.
  pose proof (nodup_range_length (slots rs) 64 (Q_nodup _ _ _ _ _ _ _ HQ) (Q_range _ _ _ _ _ _ _ HQ)) as H.
  pose proof (gpu_slots_length q rs (Q_desc _ _ _ _ _ _ _ HQ)) as H2.
  assert (length (aq ++ oq ++ uq) <= length (map head_of rs))%nat as H'.
  { apply submseteq_length, NoDup_submseteq; [apply HQ|]. apply HQ. }
  rewrite length_map, !length_app in H'. lia.
Qed.

Lemma flight_of_head h : h ∈ aq ++ oq ++ uq -> exists r, r ∈ rs /\ h = head_of r /\ linked q r.
Proof.
  intros (r & -> & Hr)%(Q_heads _ _ _ _ _ _ _ HQ)%list_elem_of_fmap. exists r. split; [done|]. split; [done|].
  by eapply Forall_forall in Hr; [|apply HQ].
Qed.

Lemma qinv_keeps ex' q' : keeps (slots rs) q q' -> in_use q' (ex' ++ slots rs) -> qinv q' ex' dl rs aq oq uq.
Proof.
  intros (E1 & E2 & E3 & E4 & E5 & E6 & Hd & Hd') Hu. constructor; try apply HQ; try done.
  - intros i Hi. destruct (Q_full _ _ _ _ _ _ _ HQ i Hi) as [H1 H2]. rewrite E6. auto.
  - apply Forall_forall. intros r Hr. pose proof (Q_desc _ _ _ _ _ _ _ HQ) as H.
    eapply Forall_forall in H; [|exact Hr]. destruct H as [H ?]. split; [|done].
    eapply chained_frame; [|exact H]. intros i Hi. apply Hd, gpu_elem_of_slots. by exists r.
  - rewrite E6. apply HQ.
  - rewrite E1, E2. apply HQ.
  - rewrite E3, E4, E5. apply HQ.
Qed.
End Queue.

(** The writes of [notify]. *)
Definition notified (i0 : Z) (q : vqueue) : vqueue :=
  set_avail_idx (u16 (avail_idx q + 1)) (set_avail (avail_idx q mod NUM) i0 (set_pending i0 true q)).

(** Descriptors [idx] chained for a command; nothing else changes. *)
Definition relinked (idx : list Z) (bs : list (dptr * Z)) (q q' : vqueue) : Prop :=
  chained (desc q') idx bs /\ (forall i, i ∉ idx -> desc q' !! i = desc q !! i) /\
  avail_ring q' = avail_ring q /\ avail_idx q' = avail_idx q /\ used_ring q' = used_ring q /\
  dev_used_idx q' = dev_used_idx q /\ used_idx q' = used_idx q /\ pending q' = pending q /\ free q' = free q.

Lemma chained_dom m idx bs i : chained m idx bs -> i ∈ idx -> is_Some (m !! i).
Proof.
  revert bs. induction idx as [|i0 [|j idx] IH]; intros [|[p l] bs] H Hi; try done.
  - apply list_elem_of_singleton in Hi as ->. cbn in H. destruct bs; [eauto|done].
  - destruct H as [H1 H2]. apply elem_of_cons in Hi as [->|Hi]; [eauto|]. by apply (IH bs).
Qed.

Lemma notified_qinv q q1 idx bs i0 dl rs aq oq uq :
  qinv q idx dl rs aq oq uq -> outside (slots rs) idx -> relinked idx bs q q1 -> head idx = Some i0 ->
  (2 <= length idx)%nat -> qinv (notified i0 q1) [] dl (mkFl idx bs :: rs) (aq ++ [i0]) oq uq.
Proof.
  intros HQ [Hn Hf] (Hc & Hd & E1 & E2 & E3 & E4 & E5 & E6 & E7) Hh Hl.
  assert (i0 ∈ idx) as Hi0 by (destruct idx; [done|injection Hh as <-; by left]).
  assert (forall i, i ∈ slots rs -> i ∉ idx) as Hne.
  { intros i Hi Hin. eapply Forall_forall in Hf; [|exact Hin]. tauto. }
  assert (forall r, r ∈ rs -> linked q r) as Hall.
  { intros r Hr. pose proof (Q_desc _ _ _ _ _ _ _ HQ) as H. by eapply Forall_forall in H. }
  assert (forall r, r ∈ rs -> i0 <> head_of r) as Hneh.
  { intros r Hr ->. apply (Hne (head_of r)); [|done]. apply gpu_elem_of_slots. exists r. split; [done|].
    by apply (linked_head q), Hall. }
  assert (i0 ∉ aq ++ oq ++ uq) as Hq.
  { intros (r & Hr & -> & _)%(flight_of_head HQ). by apply (Hneh r). }
  assert (aq ++ [i0] ++ oq ++ uq ≡ₚ i0 :: aq ++ oq ++ uq) as EP by (symmetry; apply Permutation_middle).
  assert (head_of (mkFl idx bs) = i0) as Eh by (destruct idx; [done|injection Hh as <-; done]).
  pose proof (qinv_small HQ) as Hsm.
  constructor; cbn [notified set_avail_idx set_avail set_pending desc avail_ring avail_idx used_ring dev_used_idx free
    used_idx pending woken].
  - intros i Hi. cbn. rewrite E7. by apply (Q_use _ _ _ _ _ _ _ HQ).
  - intros i Hi. destruct (Q_full _ _ _ _ _ _ _ HQ i Hi). rewrite E6. split; [|by apply lookup_insert_is_Some'; right].
    destruct (decide (i ∈ idx)); [by eapply chained_dom|by rewrite Hd].
  - cbn [slots flat_map f_idx]. apply NoDup_app. split; [done|]. split; [|apply HQ]. intros i Hi Hi'. by apply (Hne i).
  - cbn [slots flat_map f_idx]. apply Forall_app. split; [|apply HQ]. eapply Forall_impl; [exact Hf|]. by intros i [? _].
  - constructor; [by split|]. apply Forall_forall. intros r Hr. destruct (Hall r Hr) as [Hr1 Hr2].
    split; [|done]. eapply chained_frame; [|exact Hr1]. intros i Hi. cbn. apply Hd, Hne, gpu_elem_of_slots. by exists r.
  - constructor.
    + rewrite Eh, lookup_insert_eq. f_equal. symmetry. apply bool_decide_eq_true. set_solver.
    + apply Forall_forall. intros r Hr. pose proof (Q_pend _ _ _ _ _ _ _ HQ) as H.
      eapply Forall_forall in H; [|exact Hr]. specialize (Hneh r Hr). cbn beta in H.
      rewrite lookup_insert_ne, E6, H by done. f_equal. apply bool_decide_ext. set_solver.
  - rewrite <- app_assoc, EP. apply NoDup_cons. split; [done|apply HQ].
  - intros h. rewrite <- app_assoc, EP, elem_of_cons. cbn [map]. rewrite Eh, elem_of_cons. intros [->|Hh']; [by left|].
    right. by apply (Q_heads _ _ _ _ _ _ _ HQ).
  - rewrite E1, E2. apply ring_push; [apply HQ|lia].
  - rewrite E3, E4, E5. apply HQ.
Qed.

Lemma notify_run i0 q : notify i0 q = Done (tt, notified i0 q).
Proof. reflexivity. Qed.

Lemma link2 q i0 i1 p0 l0 p1 l1 : NoDup [i0; i1] ->
  relinked [i0; i1] [(p0, l0); (p1, l1)] q
    (set_desc i1 (mkDesc p1 l1 VRING_DESC_F_WRITE 0) (set_desc i0 (mkDesc p0 l0 VRING_DESC_F_NEXT i1) q)).
Proof.
  intros [Hi _]%NoDup_cons. assert (i1 <> i0) by set_solver. unfold relinked. cbn. split_and!; try done.
  - by rewrite lookup_insert_ne, lookup_insert_eq.
  - by rewrite lookup_insert_eq.
  - intros i Hni. rewrite !lookup_insert_ne by set_solver. done.
Qed.

Lemma link3 q i0 i1 i2 p0 l0 p1 l1 p2 l2 : NoDup [i0; i1; i2] ->
  relinked [i0; i1; i2] [(p0, l0); (p1, l1); (p2, l2)] q
    (set_desc i2 (mkDesc p2 l2 VRING_DESC_F_WRITE 0) (set_desc i1 (mkDesc p1 l1 VRING_DESC_F_NEXT i2)
      (set_desc i0 (mkDesc p0 l0 VRING_DESC_F_NEXT i1) q))).
Proof.
  intros [Hi [Hj _]%NoDup_cons]%NoDup_cons. assert (i1 <> i0 /\ i2 <> i0 /\ i2 <> i1) as (? & ? & ?) by set_solver.
  unfold relinked. cbn. split_and!; try done.
  - by rewrite (lookup_insert_ne _ i2), lookup_insert_ne, lookup_insert_eq.
  - by rewrite lookup_insert_ne, lookup_insert_eq.
  - by rewrite lookup_insert_eq.
  - intros i Hni. rewrite !lookup_insert_ne by set_solver. done.
Qed.

(** Descriptors for a command, or none because less than [n] are free. *)
Lemma allocn_qinv q dl rs aq oq uq n :
  qinv q [] dl rs aq oq uq -> (n <= 64)%nat ->
  (exists idx q', allocn_desc n q = Done (Some idx, q') /\ length idx = n /\ outside (slots rs) idx /\
     qinv q' idx dl rs aq oq uq) \/
  (exists q', allocn_desc n q = Done (None, q') /\ qinv q' [] dl rs aq oq uq /\ (64 < n + length (slots rs))%nat).
Proof.
  intros HQ Hn. destruct (allocn_desc_spec q (slots rs) n (Q_use _ _ _ _ _ _ _ HQ) Hn)
    as (q' & Hk & [(idx & Ha & Hl & Hu & Ho)|(Ha & Hu & Hfull)]).
  - left. exists idx, q'. split_and!; [done..|]. by apply (qinv_keeps HQ).
  - right. exists q'. split; [done|]. split; [by apply (qinv_keeps HQ)|]. by apply gpu_full_length.
Qed.

Lemma send2_qinv q dl rs aq oq uq t l0 l1 :
  qinv q [] dl rs aq oq uq ->
  (exists i0 i1 q', send2 t l0 l1 q = Done (Some i0, q') /\ i0 ∉ slots rs /\
     qinv q' [] dl (mkFl [i0; i1] [(PReq t, l0); (PResp t, l1)] :: rs) (aq ++ [i0]) oq uq) \/
  (exists q', send2 t l0 l1 q = Done (None, q') /\ qinv q' [] dl rs aq oq uq /\ (62 < length (slots rs))%nat).
Proof.
  intros HQ. unfold send2. destruct (allocn_qinv _ _ _ _ _ _ 2 HQ ltac:(lia))
    as [(idx & q' & Ha & Hl & Ho & HQ')|(q' & Ha & HQ' & Hs)]; rewrite (bind_done _ _ _ _ _ Ha).
  - destruct idx as [|i0 [|i1 [|? ?]]]; try discriminate Hl. left. rewrite !bind_modify.
    exists i0, i1. eexists. split; [by rewrite (bind_done _ _ _ _ _ (notify_run _ _))|]. split.
    + destruct Ho as [_ Ho]. by apply Forall_cons in Ho as [[_ ?] _].
    + eapply notified_qinv; [exact HQ'|done|apply link2, Ho|done|done].
  - right. exists q'. split; [done|]. split; [done|lia].
Qed.

(** ** The end of a command *)

Lemma slots_perm rs r rs' : rs ≡ₚ r :: rs' -> slots rs ≡ₚ f_idx r ++ slots rs'.
Proof.
  intros E. unfold slots. rewrite !flat_map_concat_map. change (f_idx r ++ concat (map f_idx rs')) with (concat (map f_idx (r :: rs'))).
  by rewrite E.
Qed.

Lemma qinv_perm q ex dl rs rs' aq oq uq : rs ≡ₚ rs' -> qinv q ex dl rs aq oq uq -> qinv q ex dl rs' aq oq uq.
Proof.
  intros E HQ. assert (slots rs ≡ₚ slots rs') as ES by (unfold slots; rewrite !flat_map_concat_map; by rewrite E).
  constructor; try apply HQ; rewrite <- ?ES, <- ?E; try apply HQ.
  - eapply gpu_in_use_ext; [|apply HQ]. intros i. by rewrite ES.
  - intros h Hh. rewrite <- E. by apply (Q_heads _ _ _ _ _ _ _ HQ).
Qed.

Lemma qinv_remove q dl r rs aq oq uq :
  qinv q [] dl (r :: rs) aq oq uq -> ~ (head_of r ∈ aq ++ oq ++ uq) ->
  qinv q (f_idx r) dl rs aq oq uq /\ outside (slots rs) (f_idx r).
Proof.
  intros HQ Hh. pose proof (Q_nodup _ _ _ _ _ _ _ HQ) as Hn. cbn [slots flat_map] in Hn.
  apply NoDup_app in Hn as (Hn1 & Hn2 & Hn3).
  pose proof (Q_range _ _ _ _ _ _ _ HQ) as [Hr1 Hr2]%Forall_app. split.
  - constructor; try apply HQ; try done.
    + exact (Forall_inv_tail (Q_desc _ _ _ _ _ _ _ HQ)).
    + exact (Forall_inv_tail (Q_pend _ _ _ _ _ _ _ HQ)).
    + intros h Hin. pose proof (Q_heads _ _ _ _ _ _ _ HQ h Hin) as H. cbn [map] in H.
      apply elem_of_cons in H as [->|H]; done.
  - split; [done|]. apply Forall_forall. intros i Hi. split; [by eapply Forall_forall in Hr1|by apply Hn2].
Qed.

Lemma wait_call_spec q dl r rs aq oq uq :
  qinv q [] dl (r :: rs) aq oq uq ->
  (head_of r ∈ aq ++ oq ++ uq /\ wait_call (head_of r) q = Done (false, q)) \/
  (~ (head_of r ∈ aq ++ oq ++ uq) /\ exists q', wait_call (head_of r) q = Done (true, q') /\ qinv q' [] dl rs aq oq uq).
Proof.
  intros HQ. unfold wait_call. rewrite (vq_rd_bind _ _ _ _ _ (Forall_inv (Q_pend _ _ _ _ _ _ _ HQ))).
  case_bool_decide as Hin; [by left|]. right. split; [done|].
  destruct (qinv_remove _ _ _ _ _ _ _ HQ Hin) as [HQ' Ho].
  pose proof (Forall_inv (Q_desc _ _ _ _ _ _ _ HQ)) as Hlk. pose proof Hlk as [Hc _].
  destruct (linked_head _ _ Hlk) as [Hh _].
  destruct (free_chain_loop_spec (slots rs) _ _ q (S (Z.to_nat NUM)) _ Hc Hh) as (q' & Hrun & Hu & Hk).
  - apply (Q_use _ _ _ _ _ _ _ HQ').
  - done.
  - pose proof (nodup_range_length (f_idx r) 64 (proj1 Ho)) as H. change (Z.to_nat NUM) with 64%nat.
    enough (length (f_idx r) <= 64)%nat by lia. apply H. eapply Forall_impl; [apply Ho|]. by intros i [? _].
  - exists q'. unfold free_chain. rewrite (bind_done _ _ _ _ _ Hrun). split; [done|].
    by apply (qinv_keeps HQ').
Qed.

(** ** The interrupt handler *)

(** One round. *)
Definition seen (h : Z) (q : vqueue) : vqueue :=
  set_used_idx (u16 (used_idx q + 1)) (wake (ChPending h) (set_pending h false q)).

Lemma seen_qinv q dl rs aq oq h uq :
  qinv q [] dl rs aq oq (h :: uq) -> qinv (seen h q) [] dl rs aq oq uq.
Proof.
  intros HQ. pose proof (Q_q _ _ _ _ _ _ _ HQ) as Hq.
  assert (aq ++ oq ++ h :: uq ≡ₚ h :: aq ++ oq ++ uq) as EP.
  { rewrite !app_assoc. symmetry. apply Permutation_middle. }
  rewrite EP in Hq. apply NoDup_cons in Hq as [Hh Hq].
  constructor; cbn [seen set_used_idx wake set_pending desc avail_ring avail_idx used_ring dev_used_idx free used_idx
    pending woken]; try apply HQ; try done.
  - intros i Hi. destruct (Q_full _ _ _ _ _ _ _ HQ i Hi). split; [done|]. apply lookup_insert_is_Some'. by right.
  - pose proof (Q_pend _ _ _ _ _ _ _ HQ) as H. eapply Forall_impl; [exact H|]. cbn. intros r Hr.
    destruct (decide (h = head_of r)) as [->|Hne].
    + rewrite lookup_insert_eq. f_equal. symmetry. by apply bool_decide_eq_false.
    + rewrite lookup_insert_ne, Hr by done. f_equal. apply bool_decide_ext. rewrite EP. set_solver.
  - intros h' Hh'. apply (Q_heads _ _ _ _ _ _ _ HQ). rewrite EP. by right.
  - pose proof (Q_us _ _ _ _ _ _ _ HQ) as H. by apply ring_pop in H as [_ ?].
Qed.

Lemma gpu_intr_loop_spec dl rs aq oq : forall uq q, qinv q [] dl rs aq oq uq ->
  exists q', intr_loop (S (length uq)) q = Done (tt, q') /\ qinv q' [] dl rs aq oq [].
Proof.
  induction uq as [|h uq IH]; intros q HQ; cbn [intr_loop length]; rewrite !bind_gets;
    pose proof (Q_us _ _ _ _ _ _ _ HQ) as HU; pose proof (qinv_small HQ) as Hsm; cbn [length] in Hsm.
  - rewrite (proj2 (Z.eqb_eq _ _)); [|by apply (ring_empty _ _ _ _ HU); simpl; [lia|]].
    by exists q.
  - rewrite (proj2 (Z.eqb_neq _ _)); [|intros E; by apply (ring_empty _ _ _ _ HU) in E; [|cbn; lia]].
    destruct (ring_pop _ _ _ _ _ HU) as [Hh _]. rewrite (vq_rd_bind _ _ _ _ _ Hh).
    destruct (flight_of_head HQ h) as (r & Hr & -> & Hlk); [rewrite !elem_of_app; right; right; by left|].
    pose proof (Q_pend _ _ _ _ _ _ _ HQ) as Hp. eapply Forall_forall in Hp; [|exact Hr].
    rewrite (vq_rd_bind _ _ _ _ _ Hp). unfold wakeup. rewrite !bind_modify.
    apply IH. by apply seen_qinv.
Qed.

Lemma virtio_gpu_intr_spec g dl rs aq oq uq : qinv (ctrl g) [] dl rs aq oq uq ->
  exists q', virtio_gpu_intr g = Done (tt, set_ctrl q' g) /\ qinv q' [] dl rs aq oq [].
Proof.
  intros HQ. destruct (gpu_intr_loop_spec dl rs aq oq uq (ctrl g) HQ) as (q' & H & H').
  exists q'. split; [|done]. unfold virtio_gpu_intr, on, zoom. cbn [Z.eqb CTRL_Q]. rewrite bind_gets.
  replace (S (Z.to_nat (u16 (dev_used_idx (ctrl g) - used_idx (ctrl g))))) with (S (length uq)); [by rewrite H|].
  f_equal. pose proof (qinv_small HQ) as Hsm. destruct (Q_us _ _ _ _ _ _ _ HQ) as (Hlo & -> & _). unfold u16. zdiv.
Qed.

(** ** The device *)

Lemma take_qinv q dl rs aq oq uq h :
  qinv q [] dl rs aq oq uq -> dl <> avail_idx q -> avail_ring q !! (dl mod NUM) = Some h ->
  exists aq', aq = h :: aq' /\ qinv q [] (u16 (dl + 1)) rs aq' (h :: oq) uq.
Proof.
  intros HQ Hne Hh. pose proof (Q_av _ _ _ _ _ _ _ HQ) as HA. pose proof (qinv_small HQ) as Hsm.
  destruct aq as [|h' aq]; [destruct Hne; by apply (ring_empty _ _ _ _ HA); [simpl; lia|]|].
  destruct (ring_pop _ _ _ _ _ HA) as [Hh' HA']. rewrite Hh in Hh'. injection Hh' as <-.
  exists aq. split; [done|].
  assert ((h :: aq) ++ oq ++ uq ≡ₚ aq ++ (h :: oq) ++ uq) as EP by (cbn; apply Permutation_middle).
  constructor; try apply HQ; try done.
  - pose proof (Q_pend _ _ _ _ _ _ _ HQ) as H. eapply Forall_impl; [exact H|]. cbn beta. intros r ->.
    f_equal. apply bool_decide_ext. by rewrite EP.
  - rewrite <- EP. apply HQ.
  - intros h' H. apply (Q_heads _ _ _ _ _ _ _ HQ). by rewrite EP.
Qed.

Lemma complete_qinv q dl rs aq l1 h l2 uq :
  qinv q [] dl rs aq (l1 ++ h :: l2) uq ->
  qinv (set_used (dev_used_idx q mod NUM) h (u16 (dev_used_idx q + 1)) q) [] dl rs aq (l1 ++ l2) (uq ++ [h]).
Proof.
  intros HQ.
  assert (aq ++ (l1 ++ h :: l2) ++ uq ≡ₚ aq ++ (l1 ++ l2) ++ uq ++ [h]) as EP.
  { apply Permutation_app_head. rewrite <- Permutation_middle. cbn.
    rewrite (Permutation_app_comm uq [h]). cbn. apply Permutation_middle. }
  pose proof (qinv_small HQ) as Hsm.
  constructor; cbn [set_used desc avail_ring avail_idx used_ring dev_used_idx free used_idx pending woken];
    try apply HQ.
  - pose proof (Q_pend _ _ _ _ _ _ _ HQ) as H. eapply Forall_impl; [exact H|]. cbn beta. intros r ->.
    f_equal. apply bool_decide_ext. by rewrite EP.
  - rewrite <- EP. apply HQ.
  - intros h' H. apply (Q_heads _ _ _ _ _ _ _ HQ). by rewrite EP.
  - apply ring_push; [apply HQ|lia].
Qed.
