(* ===== verification/GpuProofs.v ===== *)
(** * The invariant of the display driver and its tasks *)
From S2P Require Import Prelude Virtq Gpu GpuQueue.

(** ** Commands *)

Definition cmd_of (q : request) : command :=
  match q with
  | ctrl_hdr _ => GetDisplayInfo
  | set_scanout _ _ _ _ => SetScanout
  | resource_flush _ _ _ => ResourceFlush
  | transfer_to_host_2d _ _ _ _ => TransferToHost2d
  | resource_attach_backing _ _ _ => AttachBacking
  | resource_create_2d _ _ _ _ _ => Create2d
  end.

Lemma cmd_of_req c g : cmd_of (req_of c g) = c.
Proof. by destruct c. Qed.

(** The buffers of a command of task [t]. *)
Definition bufs (c : command) (t : nat) : list (dptr * Z) :=
  match c with
  | GetDisplayInfo => [(PReq t, 24); (PResp t, SIZEOF_DISPLAY_INFO)]
  | SetScanout | ResourceFlush => [(PReq t, 48); (PResp t, SIZEOF_HDR)]
  | TransferToHost2d => [(PReq t, 56); (PResp t, SIZEOF_HDR)]
  | Create2d => [(PReq t, 40); (PResp t, SIZEOF_HDR)]
  | AttachBacking => [(PReq t, 32); (PEntry t, SIZEOF_ENTRY); (PResp t, SIZEOF_HDR)]
  end.

Lemma bufs_task c c' t t' : bufs c t = bufs c' t' -> t = t'.
Proof. destruct c, c'; intros E; injection E; intros; subst; done. Qed.

Lemma chained_length m idx bs : chained m idx bs -> length idx = length bs.
Proof.
  revert bs. induction idx as [|i [|j idx] IH]; intros [|[p l] bs] H; try done; [by destruct bs|].
  destruct H as [_ H]. cbn. f_equal. by apply IH.
Qed.

Lemma chained2 m idx p0 l0 p1 l1 : chained m idx [(p0, l0); (p1, l1)] ->
  exists i0 i1, idx = [i0; i1] /\ m !! i0 = Some (mkDesc p0 l0 VRING_DESC_F_NEXT i1) /\
    m !! i1 = Some (mkDesc p1 l1 VRING_DESC_F_WRITE 0).
Proof.
  intros H. pose proof (chained_length _ _ _ H) as E. destruct idx as [|i0 [|i1 [|i2 idx]]]; try discriminate E.
  destruct H. by exists i0, i1.
Qed.

Lemma chained3 m idx p0 l0 p1 l1 p2 l2 : chained m idx [(p0, l0); (p1, l1); (p2, l2)] ->
  exists i0 i1 i2, idx = [i0; i1; i2] /\ m !! i0 = Some (mkDesc p0 l0 VRING_DESC_F_NEXT i1) /\
    m !! i1 = Some (mkDesc p1 l1 VRING_DESC_F_NEXT i2) /\ m !! i2 = Some (mkDesc p2 l2 VRING_DESC_F_WRITE 0).
Proof.
  intros H. pose proof (chained_length _ _ _ H) as E. destruct idx as [|i0 [|i1 [|i2 [|i3 idx]]]]; try discriminate E.
  destruct H as (? & ? & ?). by exists i0, i1, i2.
Qed.

Lemma on_ctrl {A} (m : M vqueue A) g a q' : m (ctrl g) = Done (a, q') -> on CTRL_Q m g = Done (a, set_ctrl q' g).
Proof. intros H. unfold on, zoom. cbn [Z.eqb CTRL_Q]. by rewrite H. Qed.

(** The state after a successful [send], but for the queue. *)
Definition with_entry (c : command) (t : nat) (g : virtio_gpu_dev) : virtio_gpu_dev :=
  match c with AttachBacking => set_entry t g | _ => g end.

Lemma send_attach g dl rs aq oq uq t : qinv (ctrl g) [] dl rs aq oq uq ->
  (exists i0 idx q', virtio_gpu_resource_attach_backing_send t g = Done (Some i0, set_ctrl q' (set_entry t g)) /\
     i0 ∉ slots rs /\ head idx = Some i0 /\ qinv q' [] dl (mkFl idx (bufs AttachBacking t) :: rs) (aq ++ [i0]) oq uq) \/
  (exists q', virtio_gpu_resource_attach_backing_send t g = Done (None, set_ctrl q' g) /\
     qinv q' [] dl rs aq oq uq /\ (61 < length (slots rs))%nat).
Proof.
  intros HQ. unfold virtio_gpu_resource_attach_backing_send.
  destruct (allocn_qinv _ _ _ _ _ _ 3 HQ ltac:(lia)) as [(idx & q' & Ha & Hl & Ho & HQ')|(q' & Ha & HQ' & Hs)];
    [left|right]; pose proof (on_ctrl _ _ _ _ Ha) as Hon.
  - destruct idx as [|i0 [|i1 [|i2 [|? ?]]]]; try discriminate Hl.
    exists i0, [i0; i1; i2], (notified i0 (set_desc i2 (mkDesc (PResp t) SIZEOF_HDR VRING_DESC_F_WRITE 0)
      (set_desc i1 (mkDesc (PEntry t) SIZEOF_ENTRY VRING_DESC_F_NEXT i2)
      (set_desc i0 (mkDesc (PReq t) 32 VRING_DESC_F_NEXT i1) q')))).
    split; [by rewrite (bind_done _ _ _ _ _ Hon)|].
    split_and!.
    + destruct Ho as [_ Ho]. by apply Forall_cons in Ho as [[_ ?] _].
    + done.
    + eapply notified_qinv; [exact HQ'|done|apply link3, Ho|done|cbn; lia].
  - exists q'. split; [by rewrite (bind_done _ _ _ _ _ Hon)|]. split; [done|lia].
Qed.

Lemma send_spec c g dl rs aq oq uq t : qinv (ctrl g) [] dl rs aq oq uq ->
  (exists i0 idx q', send c t g = Done (Some i0, set_ctrl q' (with_entry c t g)) /\
     i0 ∉ slots rs /\ head idx = Some i0 /\ qinv q' [] dl (mkFl idx (bufs c t) :: rs) (aq ++ [i0]) oq uq) \/
  (exists q', send c t g = Done (None, set_ctrl q' g) /\ qinv q' [] dl rs aq oq uq /\ (61 < length (slots rs))%nat).
Proof.
  intros HQ. destruct c; try (by apply send_attach); cbn [send with_entry bufs];
    unfold get_display_info_send, virtio_gpu_set_scanout_send, virtio_gpu_resource_flush_send,
      virtio_gpu_transfer_to_host_2d_send, virtio_gpu_resource_create_2d_send;
    match goal with |- context [(PReq t, ?l0) :: (PResp t, ?l1) :: _] =>
      destruct (send2_qinv _ _ _ _ _ _ t l0 l1 HQ) as [(i0 & i1 & q' & H & Hi & HQ')|(q' & H & HQ' & Hs)]
    end;
    first [left; exists i0, [i0; i1], q'; by rewrite (on_ctrl _ _ _ _ H)
          |right; exists q'; rewrite (on_ctrl _ _ _ _ H); split_and!; [done|done|lia]].
Qed.

(** ** What the device finds *)

Lemma dev_fetch_spec g r c t f :
  linked (ctrl g) r -> f_bufs r = bufs c t -> frames g !! t = Some f -> cmd_of (req f) = c ->
  (c = AttachBacking -> is_Some (entry f)) -> dev_fetch g (head_of r) = Some (t, f).
Proof.
  intros [Hc _] Eb Hf Hcmd He. rewrite Eb in Hc. unfold dev_fetch, head_of.
  destruct c; cbn [bufs] in Hc;
    first [apply chained2 in Hc as (i0 & i1 & -> & H0 & H1); cbn [hd]; rewrite H0; cbn; rewrite Hf; cbn; rewrite H1; cbn
          |apply chained3 in Hc as (i0 & i1 & i2 & -> & H0 & H1 & H2); cbn [hd]; rewrite H0; cbn; rewrite Hf; cbn;
           rewrite H1; cbn; rewrite decide_True by auto; rewrite H2; cbn];
    (case_decide as Hd; [done|]); destruct Hd; unfold SIZEOF_HDR, SIZEOF_DISPLAY_INFO;
    (split_and!; [done|by destruct (req f)|done|lia|done]).
Qed.

(** ** Tasks *)

(** The frame [fr] of a task and its stage agree; [live] are the heads that
    the device has not answered. *)
Definition stage_ok (fr : option frame) (live : list Z) (th : thread) : Prop :=
  match at_ th with
  | Idle => True
  | Looking c => (exists p, prog th = ICall c :: p) /\
      exists f, fr = Some f /\ cmd_of (req f) = c /\ resp f = None
  | Waiting c i0 => (exists p, prog th = ICall c :: p) /\
      exists f, fr = Some f /\ cmd_of (req f) = c /\ (c = AttachBacking -> is_Some (entry f)) /\
        (resp f = None <-> i0 ∈ live)
  end.

Definition thread_ok (fr : option frame) (live : list Z) (th : thread) : Prop :=
  calls th = map (fun e => cmd_of e.1.1) (results th) ++ calls_of (prog th) /\ stage_ok fr live th.

(** The answer that a task has not seen yet. *)
Definition answered (fr : option frame) (th : thread) : list (request * option virtio_gpu_mem_entry * response) :=
  match at_ th, fr with
  | Waiting _ _, Some f => match resp f with Some a => [(req f, entry f, a)] | None => [] end
  | _, _ => []
  end.

(** The commands of task [t] that the device has executed. *)
Definition log_of (t : nat) (l : list served_t) : list (request * option virtio_gpu_mem_entry * response) :=
  map (fun e => (s_req e, s_entry e, s_resp e)) (filter (fun e => s_task e = t) l).

Definition waiting_at (th : thread) (c : command) (i0 : Z) : Prop := at_ th = Waiting c i0.

Ltac fields := cbn [drv mon dev_last outst served display threads ctrl frames set_ctrl set_frames] in *.

Section Inv.
Context {V : Type} `{!Display V}.
Implicit Types (s : sys V) (th : thread) (t : nat) (rs : list flight).

Record inv s rs (aq uq : list Z) : Prop := {
  I_q : qinv (ctrl (drv s)) [] (dev_last s) rs aq (outst s) uq;
  I_wait : forall t th c i0, threads s !! t = Some th -> at_ th = Waiting c i0 ->
    exists r, r ∈ rs /\ head_of r = i0 /\ f_bufs r = bufs c t;
  I_fl : forall r, r ∈ rs -> exists t th c,
    threads s !! t = Some th /\ at_ th = Waiting c (head_of r) /\ f_bufs r = bufs c t;
  I_thread : forall t th, threads s !! t = Some th -> thread_ok (frames (drv s) !! t) (aq ++ outst s) th;
  I_log : forall t, log_of t (served s) =
    match threads s !! t with Some th => results th ++ answered (frames (drv s) !! t) th | None => [] end
}.

(** Two flights with one head are the same. *)
Lemma flight_inj s rs aq uq r r' : inv s rs aq uq -> r ∈ rs -> r' ∈ rs -> head_of r = head_of r' -> r = r'.
Proof.
  intros HI Hr Hr' E. apply (NoDup_map_inj head_of rs); [|done..].
  apply (gpu_NoDup_heads (ctrl (drv s))); [apply (I_q _ _ _ _ HI)|apply (I_q _ _ _ _ HI)].
Qed.

(** A head belongs to one waiting task. *)
Lemma head_inj s rs aq uq t t' th th' c c' i0 : inv s rs aq uq ->
  threads s !! t = Some th -> at_ th = Waiting c i0 -> threads s !! t' = Some th' -> at_ th' = Waiting c' i0 -> t = t'.
Proof.
  intros HI Ht Ha Ht' Ha'.
  destruct (I_wait _ _ _ _ HI _ _ _ _ Ht Ha) as (r & Hr & Eh & Eb).
  destruct (I_wait _ _ _ _ HI _ _ _ _ Ht' Ha') as (r' & Hr' & Eh' & Eb').
  rewrite (flight_inj s rs aq uq r r' HI Hr Hr') in Eb by congruence. rewrite Eb in Eb'. by apply bufs_task in Eb'.
Qed.

(** A change of task [t] that neither begins nor ends its wait, with a queue
    that stays well formed. *)
Lemma inv_local s rs aq uq uq' t th' g m :
  inv s rs aq uq ->
  (forall th c i0, threads s !! t = Some th -> at_ th <> Waiting c i0) -> (forall c i0, at_ th' <> Waiting c i0) ->
  qinv (ctrl g) [] (dev_last s) rs aq (outst s) uq' ->
  (forall t', t' <> t -> frames g !! t' = frames (drv s) !! t') ->
  thread_ok (frames g !! t) (aq ++ outst s) th' ->
  results th' = match threads s !! t with Some th => results th | None => [] end ->
  inv (mkSys g m (dev_last s) (outst s) (served s) (display s) (<[t := th']> (threads s))) rs aq uq'.
Proof.
  intros HI Hold Hnew HQ Hfr Hok Hres. constructor; fields; try done.
  - intros t1 th1 c i0 [[<- <-]|[Hne H1]]%lookup_insert_Some Ha; [by destruct (Hnew c i0)|].
    by apply (I_wait _ _ _ _ HI t1 th1).
  - intros r Hr. destruct (I_fl _ _ _ _ HI r Hr) as (t1 & th1 & c & H1 & Ha & Eb). exists t1, th1, c.
    rewrite lookup_insert_ne; [done|]. intros <-. by destruct (Hold th1 c (head_of r) H1).
  - intros t1 th1 [[<- <-]|[Hne H1]]%lookup_insert_Some; [done|]. rewrite Hfr by done. by apply (I_thread _ _ _ _ HI).
  - intros t1. rewrite (I_log _ _ _ _ HI t1). destruct (decide (t = t1)) as [<-|Hne].
    + rewrite lookup_insert_eq, Hres.
      assert (forall fr, answered fr th' = []) as ->.
      { intros fr. unfold answered. destruct (at_ th') eqn:E; [done..|]. by destruct (Hnew c i0). }
      destruct (threads s !! t) as [th|] eqn:Ht; [|done]. rewrite app_nil_r.
      unfold answered. destruct (at_ th) eqn:E; [by rewrite app_nil_r..|]. by destruct (Hold th c i0 eq_refl).
    + rewrite lookup_insert_ne by done. by rewrite Hfr.
Qed.

(** ** The end of a call *)

Definition answer_ok (c : command) (a : response) : Prop :=
  c = GetDisplayInfo \/ rtype a = VIRTIO_GPU_RESP_OK_NODATA.

Lemma check_spec c a g :
  (answer_ok c a /\ check c a g = Done (tt, g)) \/ (~ answer_ok c a /\ exists msg, check c a g = Panic msg).
Proof.
  unfold answer_ok, check, panic_on. destruct (Z.eqb_spec (rtype a) VIRTIO_GPU_RESP_OK_NODATA) as [E|E].
  - left. split; [by right|]. by destruct c.
  - destruct c; [left; split; [by left|done]|right; (split; [intros [?|?]; done|by eexists])..].
Qed.

(** The state when the call of task [t] is over, the queue being [q]. *)
Definition returned t (q : vqueue) (g : virtio_gpu_dev) : virtio_gpu_dev :=
  set_frames (delete t (frames g)) (set_ctrl q g).

Lemma end_call_spec s rs aq uq t th c i0 :
  inv s rs aq uq -> threads s !! t = Some th -> at_ th = Waiting c i0 ->
  exists f, frames (drv s) !! t = Some f /\
    (end_call c t i0 (drv s) = Done (None, drv s) \/
     exists a q r rs', resp f = Some a /\ rs ≡ₚ r :: rs' /\ head_of r = i0 /\ f_bufs r = bufs c t /\
       qinv q [] (dev_last s) rs' aq (outst s) uq /\
       ((answer_ok c a /\ end_call c t i0 (drv s) = Done (Some a, returned t q (drv s))) \/
        (~ answer_ok c a /\ exists msg, end_call c t i0 (drv s) = Panic msg))).
Proof.
  intros HI Ht Ha. destruct (I_thread _ _ _ _ HI t th Ht) as [_ Hs]. unfold stage_ok in Hs. rewrite Ha in Hs.
  destruct Hs as (_ & f & Hf & _ & _ & Hresp). exists f. split; [done|].
  destruct (I_wait _ _ _ _ HI _ _ _ _ Ht Ha) as (r & Hr & <- & Eb).
  apply elem_of_Permutation in Hr as [rs' Ep].
  destruct (wait_call_spec _ _ _ _ _ _ _ (qinv_perm _ _ _ _ _ _ _ _ Ep (I_q _ _ _ _ HI)))
    as [[_ Hw]|(Hn & q & Hw & HQ)]; apply on_ctrl in Hw; unfold end_call; rewrite (bind_done _ _ _ _ _ Hw).
  - left. by destruct (drv s).
  - right. destruct (resp f) as [a|] eqn:Er.
    2:{ destruct Hn. pose proof (proj1 Hresp eq_refl). set_solver. }
    exists a, q, r, rs'. split_and!; [done..|]. rewrite bind_gets. cbn [frames set_ctrl]. rewrite Hf.
    destruct f as [rq e ra]. cbn in Er. subst ra. rewrite bind_modify.
    destruct (check_spec c a (returned t q (drv s))) as [[? Hc]|[? [msg Hc]]]; [left|right]; (split; [done|]).
    + by rewrite (bind_done _ _ _ _ _ Hc).
    + exists msg. by apply bind_panic.
Qed.

Lemma returned_inv s rs rs' aq uq t c i0 p l cs f a q r :
  inv s rs aq uq -> threads s !! t = Some (mkThread p (Waiting c i0) l cs) -> frames (drv s) !! t = Some f ->
  resp f = Some a -> rs ≡ₚ r :: rs' -> head_of r = i0 -> f_bufs r = bufs c t ->
  qinv q [] (dev_last s) rs' aq (outst s) uq ->
  inv (with_thread t (mkThread (tail p) Idle (l ++ [(req f, entry f, a)]) cs) (with_drv (returned t q (drv s)) s)) rs' aq uq.
Proof.
  intros HI Ht Hf Er Ep Eh Eb HQ.
  assert (r ∈ rs) as Hr by (rewrite Ep; by left).
  assert (forall r', r' ∈ rs' -> r' ∈ rs) as Hsub by (intros r' H; rewrite Ep; by right).
  assert (r ∉ rs') as Hnr.
  { pose proof (gpu_NoDup_heads _ _ (Q_desc _ _ _ _ _ _ _ (I_q _ _ _ _ HI)) (Q_nodup _ _ _ _ _ _ _ (I_q _ _ _ _ HI))) as Hn.
    rewrite Ep in Hn. cbn in Hn. apply NoDup_cons in Hn as [Hn _]. intros H. apply Hn, list_elem_of_fmap. by exists r. }
  destruct (I_thread _ _ _ _ HI t _ Ht) as [Hcalls Hs]. cbn [stage_ok at_ prog results calls] in Hcalls, Hs.
  destruct Hs as ([p' Hp] & f' & Hf' & Hcmd & _ & _). cbn in Hp. subst p. rewrite Hf in Hf'. injection Hf' as <-.
  constructor; unfold with_thread, with_drv, returned; fields; try done.
  - intros t1 th1 c1 i1 [[<- <-]|[Hne H1]]%lookup_insert_Some Ha; [done|].
    destruct (I_wait _ _ _ _ HI _ _ _ _ H1 Ha) as (r1 & Hr1 & E1 & Eb1). exists r1. split; [|done].
    rewrite Ep in Hr1. apply elem_of_cons in Hr1 as [->|?]; [|done].
    destruct Hne. by eapply (head_inj s rs aq uq t t1 _ th1 c c1 i0); [..|exact H1|congruence].
  - intros r1 Hr1. destruct (I_fl _ _ _ _ HI r1 (Hsub _ Hr1)) as (t1 & th1 & c1 & H1 & Ha & Eb1).
    exists t1, th1, c1. rewrite lookup_insert_ne; [done|]. intros <-. rewrite Ht in H1. injection H1 as <-.
    injection Ha as -> ->. apply Hnr. by rewrite (flight_inj s rs aq uq r r1 HI Hr (Hsub _ Hr1)).
  - intros t1 th1 [[<- <-]|[Hne H1]]%lookup_insert_Some.
    + split; [|done]. cbn. rewrite Hcalls, map_app, <- app_assoc. cbn. by rewrite Hcmd.
    + rewrite lookup_delete_ne by done. by apply (I_thread _ _ _ _ HI).
  - intros t1. rewrite (I_log _ _ _ _ HI t1). destruct (decide (t = t1)) as [<-|Hne].
    + rewrite Ht, lookup_insert_eq. cbn. rewrite Hf, Er. by rewrite app_nil_r.
    + by rewrite lookup_insert_ne, lookup_delete_ne by done.
Qed.

(** ** A command is sent *)

Lemma gpu_sent_inv s rs aq uq t c p l cs idx i0 q :
  inv s rs aq uq -> threads s !! t = Some (mkThread p (Looking c) l cs) ->
  i0 ∉ slots rs -> head idx = Some i0 ->
  qinv q [] (dev_last s) (mkFl idx (bufs c t) :: rs) (aq ++ [i0]) (outst s) uq ->
  inv (with_thread t (mkThread p (Waiting c i0) l cs) (with_drv (set_ctrl q (with_entry c t (drv s))) s))
      (mkFl idx (bufs c t) :: rs) (aq ++ [i0]) uq.
Proof.
  intros HI Ht Hi0 Hh HQ.
  assert (head_of (mkFl idx (bufs c t)) = i0) as Eh by (destruct idx; [done|injection Hh as <-; done]).
  destruct (I_thread _ _ _ _ HI t _ Ht) as [Hcalls Hs]. cbn [stage_ok at_ prog results calls] in Hcalls, Hs.
  destruct Hs as (Hp & f & Hf & Hcmd & Hresp).
  set (f' := match c with AttachBacking => mkFrame (req f) (Some (backing (drv s))) (resp f) | _ => f end).
  assert (frames (with_entry c t (drv s)) !! t = Some f') as Hf'.
  { destruct c; cbn; rewrite ?lookup_alter_eq, Hf; done. }
  assert (forall t', t' <> t -> frames (with_entry c t (drv s)) !! t' = frames (drv s) !! t') as Hoth.
  { intros t' Hne. destruct c; cbn; rewrite ?lookup_alter_ne by congruence; done. }
  assert (resp f' = None /\ req f' = req f) as [Er' Eq'] by (by destruct c).
  assert (forall t1 th1 c1 i1, threads s !! t1 = Some th1 -> at_ th1 = Waiting c1 i1 -> i1 <> i0) as Hne0.
  { intros t1 th1 c1 i1 H1 Ha ->. destruct (I_wait _ _ _ _ HI _ _ _ _ H1 Ha) as (r & Hr & <- & _). apply Hi0.
    apply gpu_elem_of_slots. exists r. split; [done|]. apply (linked_head (ctrl (drv s))).
    pose proof (Q_desc _ _ _ _ _ _ _ (I_q _ _ _ _ HI)) as H. by eapply Forall_forall in H. }
  constructor; unfold with_thread, with_drv; fields; try done.
  - intros t1 th1 c1 i1 [[<- <-]|[Hne H1]]%lookup_insert_Some Ha.
    + injection Ha as <- <-. exists (mkFl idx (bufs c t)). split; [by left|done].
    + destruct (I_wait _ _ _ _ HI _ _ _ _ H1 Ha) as (r1 & Hr1 & E1). exists r1. split; [by right|done].
  - intros r [->|Hr]%elem_of_cons.
    + exists t, (mkThread p (Waiting c i0) l cs), c. rewrite lookup_insert_eq, Eh. done.
    + destruct (I_fl _ _ _ _ HI r Hr) as (t1 & th1 & c1 & H1 & Ha & Eb). exists t1, th1, c1.
      rewrite lookup_insert_ne; [done|]. intros <-. rewrite Ht in H1. injection H1 as <-. done.
  - intros t1 th1 [[<- <-]|[Hne H1]]%lookup_insert_Some.
    + split; [done|]. split; [done|]. exists f'. rewrite Er', Eq'. split_and!; [done|done| |set_solver].
      intros ->. cbn. eauto.
    + rewrite Hoth by done. destruct (I_thread _ _ _ _ HI t1 th1 H1) as [? Hs1]. split; [done|].
      unfold stage_ok in *. destruct (at_ th1) as [|?|c1 i1] eqn:Ea; [done..|].
      destruct Hs1 as (? & f1 & ? & ? & ? & Hr1). split; [done|]. exists f1. split_and!; try done.
      rewrite Hr1. specialize (Hne0 t1 th1 c1 i1 H1 Ea). set_solver.
  - intros t1. rewrite (I_log _ _ _ _ HI t1). destruct (decide (t = t1)) as [<-|Hne].
    + rewrite Ht, lookup_insert_eq. cbn. by rewrite Hf', Er'.
    + by rewrite lookup_insert_ne, Hoth by done.
Qed.

(** ** The device *)

(** A frame that changes only for the device's eyes: the same stages with
    another list of unanswered heads. *)
Lemma stage_live fr live live' th : (forall h, h ∈ live <-> h ∈ live') -> stage_ok fr live th -> stage_ok fr live' th.
Proof.
  intros E. unfold stage_ok. destruct (at_ th); [done..|]. intros (Hp & f & H1 & H2 & H3 & H4). split; [done|].
  exists f. split_and!; try done. by rewrite H4.
Qed.

Lemma gpu_take_inv s rs aq uq h :
  inv s rs aq uq -> dev_last s <> avail_idx (ctrl (drv s)) -> avail_ring (ctrl (drv s)) !! (dev_last s mod NUM) = Some h ->
  exists aq', inv (mkSys (drv s) (mon s) (u16 (dev_last s + 1)) (h :: outst s) (served s) (display s) (threads s)) rs aq' uq.
Proof.
  intros HI Hne Hh. destruct (take_qinv _ _ _ _ _ _ _ (I_q _ _ _ _ HI) Hne Hh) as (aq' & -> & HQ).
  exists aq'. constructor; fields; try apply HI; try done.
  intros t th Ht. destruct (I_thread _ _ _ _ HI t th Ht) as [? Hs]. split; [done|].
  eapply stage_live; [|exact Hs]. intros x. set_solver.
Qed.

Lemma fetch_inv s rs aq uq h :
  inv s rs aq uq -> h ∈ aq ++ outst s ->
  exists t th c f, threads s !! t = Some th /\ at_ th = Waiting c h /\ frames (drv s) !! t = Some f /\
    dev_fetch (drv s) h = Some (t, f) /\ resp f = None.
Proof.
  intros HI Hh. destruct (flight_of_head (I_q _ _ _ _ HI) h) as (r & Hr & -> & Hlk); [set_solver|].
  destruct (I_fl _ _ _ _ HI r Hr) as (t & th & c & Ht & Ha & Eb).
  destruct (I_thread _ _ _ _ HI t th Ht) as [_ Hs]. unfold stage_ok in Hs. rewrite Ha in Hs.
  destruct Hs as (_ & f & Hf & Hcmd & He & Hresp). exists t, th, c, f. split_and!; try done.
  - by eapply dev_fetch_spec.
  - by apply Hresp.
Qed.

Lemma gpu_complete_inv s rs aq uq h l1 l2 t f a v :
  inv s rs aq uq -> outst s = l1 ++ h :: l2 -> dev_fetch (drv s) h = Some (t, f) ->
  inv (mkSys (dev_answer t h a (drv s)) (mon s) (dev_last s) (l1 ++ l2)
         (served s ++ [mkServed t (req f) (entry f) a]) v (threads s)) rs aq (uq ++ [h]).
Proof.
  intros HI Ho Hfe.
  destruct (fetch_inv s rs aq uq h HI) as (t' & th & c & f' & Ht & Ha & Hf & Hfe' & Hr); [rewrite Ho; set_solver|].
  rewrite Hfe in Hfe'. injection Hfe' as <- <-.
  assert (h ∉ aq ++ l1 ++ l2) as Hh.
  { pose proof (Q_q _ _ _ _ _ _ _ (I_q _ _ _ _ HI)) as Hn. rewrite Ho in Hn.
    assert (aq ++ (l1 ++ h :: l2) ++ uq ≡ₚ h :: (aq ++ l1 ++ l2) ++ uq) as EP.
    { rewrite <- Permutation_middle. cbn. rewrite <- Permutation_middle. by rewrite <- !app_assoc. }
    rewrite EP in Hn. apply NoDup_cons in Hn as [Hn _]. set_solver. }
  unfold dev_answer. constructor; fields; try apply HI.
  - apply complete_qinv. rewrite <- Ho. apply HI.
  - intros t1 th1 H1. destruct (I_thread _ _ _ _ HI t1 th1 H1) as [Hcalls Hs]. split; [done|].
    unfold stage_ok in *. destruct (decide (t = t1)) as [<-|Hne].
    + rewrite Ht in H1. injection H1 as <-. rewrite Ha in *. destruct Hs as (Hp & f1 & Hf1 & Hcmd & He & _).
      rewrite Hf in Hf1. injection Hf1 as <-. split; [done|]. eexists. rewrite lookup_alter_eq, Hf.
      split_and!; [done|done|done|]. cbn. split; [done|]. done.
    + rewrite lookup_alter_ne by done. destruct (at_ th1) as [|?|c1 i1] eqn:Ea; [done..|].
      destruct Hs as (Hp & f1 & Hf1 & Hcmd & He & Hr1). split; [done|]. exists f1. split_and!; try done.
      rewrite Hr1, Ho. assert (i1 <> h); [|set_solver]. intros ->. apply Hne. by eapply head_inj.
  - intros t1. unfold log_of. rewrite filter_app, map_app. fold (log_of t1 (served s)). rewrite (I_log _ _ _ _ HI t1).
    rewrite filter_cons. cbn [s_task filter list_filter]. destruct (decide (t = t1)) as [<-|Hne].
    + rewrite Ht, lookup_alter_eq, Hf. unfold answered. rewrite Ha. cbn. rewrite Hr. by rewrite app_nil_r.
    + rewrite lookup_alter_ne by done. by rewrite app_nil_r.
Qed.

(** ** Every step *)

Lemma calls_of_app p p' : calls_of (p ++ p') = calls_of p ++ calls_of p'.
Proof. apply omap_app. Qed.

Lemma not_waiting th c i0 : at_ th = Idle -> at_ th <> Waiting c i0.
Proof. by intros ->. Qed.

Lemma write_inv s rs aq uq t th : inv s rs aq uq -> writing (threads s !! t) = Some th ->
  inv (with_thread t th s) rs aq uq.
Proof.
  intros HI Hw. unfold with_thread. unfold writing in Hw.
  destruct (threads s !! t) as [[p [| |] l cs]|] eqn:Ht; [destruct p; [|done]|by destruct p|by destruct p|].
  - injection Hw as <-. eapply inv_local; try done; [|apply HI| |by rewrite Ht].
    { intros th c i0. rewrite Ht. intros [= <-]. done. }
    destruct (I_thread _ _ _ _ HI t _ Ht) as [Hc _]. split; [|done]. cbn in *. by rewrite Hc, app_nil_r.
  - injection Hw as <-. eapply inv_local; try done; [|apply HI|by rewrite Ht].
    { intros th c i0. by rewrite Ht. }
Qed.

Lemma begin_inv s rs aq uq t c p l cs g : inv s rs aq uq ->
  threads s !! t = Some (mkThread (ICall c :: p) Idle l cs) -> begin_call c t (drv s) = Done (tt, g) ->
  inv (with_thread t (mkThread (ICall c :: p) (Looking c) l cs) (with_drv g s)) rs aq uq.
Proof.
  intros HI Ht [= <-]. unfold with_thread, with_drv. fields.
  destruct (I_thread _ _ _ _ HI t _ Ht) as [Hc _].
  eapply inv_local; try done; [|apply HI| | |by rewrite Ht]; fields.
  - intros th c0 i0. rewrite Ht. intros [= <-]. done.
  - intros t' Hne. by rewrite lookup_insert_ne.
  - split; [done|]. split; [by exists p|]. rewrite lookup_insert_eq. eexists. split; [done|].
    split; [apply cmd_of_req|done].
Qed.

Lemma send_step_inv s rs aq uq t c p l cs o g : inv s rs aq uq ->
  threads s !! t = Some (mkThread p (Looking c) l cs) -> send c t (drv s) = Done (o, g) ->
  exists rs' aq', inv (with_thread t (mkThread p (match o with Some i0 => Waiting c i0 | None => Looking c end) l cs)
    (with_drv g s)) rs' aq' uq.
Proof.
  intros HI Ht Hrun.
  destruct (send_spec c (drv s) _ _ _ _ _ t (I_q _ _ _ _ HI)) as [(i0 & idx & q & H & Hi0 & Hh & HQ)|(q & H & HQ & _)];
    rewrite Hrun in H; injection H as -> ->.
  - eexists _, _. by eapply gpu_sent_inv.
  - exists rs, aq. destruct (I_thread _ _ _ _ HI t _ Ht) as [Hc Hs].
    unfold with_thread, with_drv. fields. eapply (inv_local s); [exact HI| |done|exact HQ|done|by split|by rewrite Ht].
    intros th c0 i0. rewrite Ht. intros [= <-]. done.
Qed.

Lemma wait_step_inv s rs aq uq t c i0 p l cs f o g : inv s rs aq uq ->
  threads s !! t = Some (mkThread p (Waiting c i0) l cs) -> frames (drv s) !! t = Some f ->
  end_call c t i0 (drv s) = Done (o, g) ->
  exists rs', inv (with_thread t (match o with
      | Some a => mkThread (tail p) Idle (l ++ [(req f, entry f, a)]) cs
      | None => mkThread p (Waiting c i0) l cs
      end) (with_drv g s)) rs' aq uq.
Proof.
  intros HI Ht Hf Hrun.
  destruct (end_call_spec s rs aq uq t _ c i0 HI Ht eq_refl) as (f' & Hf' & [H|(a & q & r & rs' & Er & Ep & Eh & Eb & HQ & H)]).
  - rewrite Hrun in H. injection H as -> ->. exists rs. unfold with_thread, with_drv.
    rewrite insert_id by done. by destruct s.
  - rewrite Hf in Hf'. injection Hf' as <-.
    destruct H as [[_ H]|[_ [msg H]]]; rewrite Hrun in H; [|done]. injection H as -> ->.
    exists rs'. by eapply returned_inv.
Qed.

Lemma configure_inv malloc s rs aq uq t p l cs a g m : inv s rs aq uq ->
  threads s !! t = Some (mkThread (IConfigure :: p) Idle l cs) ->
  configure malloc a (drv s, mon s) = Done (tt, (g, m)) ->
  inv (mkSys g m (dev_last s) (outst s) (served s) (display s) (<[t := mkThread p Idle l cs]> (threads s))) rs aq uq.
Proof.
  intros HI Ht Hrun. unfold configure in Hrun. destruct (pmodes a) as [|md ms]; [done|]. injection Hrun as <- <-.
  eapply inv_local; try done; fields; [|apply HI| |by rewrite Ht].
  - intros th c i0. rewrite Ht. intros [= <-]. done.
  - destruct (I_thread _ _ _ _ HI t _ Ht) as [Hc _]. by split.
Qed.

Lemma intr_inv s rs aq uq : inv s rs aq uq ->
  exists g, virtio_gpu_intr (drv s) = Done (tt, g) /\ inv (with_drv g s) rs aq [].
Proof.
  intros HI. destruct (virtio_gpu_intr_spec _ _ _ _ _ _ (I_q _ _ _ _ HI)) as (q & H & HQ).
  exists (set_ctrl q (drv s)). split; [done|]. constructor; unfold with_drv; fields; try apply HI. done.
Qed.

Lemma gpu_step_inv malloc s s' rs aq uq : step malloc s s' -> inv s rs aq uq -> exists rs' aq' uq', inv s' rs' aq' uq'.
Proof.
  intros Hstep HI. destruct Hstep as
    [s t th Hw|s t c p l cs g Ht Hrun|s t c p l cs o g Ht Hrun|s t c i0 p l cs f o g Ht Hf Hrun
    |s t p l a q cs g m Ht Hrun|s g Hrun|s h Hne Hh|s h l1 l2 t f a v Ho Hfe Hx].
  - eauto using write_inv.
  - eauto using begin_inv.
  - destruct (send_step_inv s rs aq uq t c p l cs o g HI Ht Hrun) as (rs' & aq' & H). eauto.
  - destruct (wait_step_inv s rs aq uq t c i0 p l cs f o g HI Ht Hf Hrun) as (rs' & H). eauto.
  - eauto using configure_inv.
  - destruct (intr_inv s rs aq uq HI) as (g' & Hrun' & H). rewrite Hrun in Hrun'. injection Hrun' as <-. eauto.
  - destruct (gpu_take_inv s rs aq uq h HI Hne Hh) as (aq' & H). eauto.
  - eauto using gpu_complete_inv.
Qed.

Lemma gpu_initial_inv boot s : initial boot s -> inv s [] [] [].
Proof.
  intros (Hd & Hl & Ho & Hs & Ht). constructor; rewrite ?Hd, ?Hl, ?Ho, ?Hs, ?Ht; cbn [fresh_gpu ctrl].
  - constructor; try done; try apply NoDup_nil_2; cbn -[entries].
    + intros i Hi. cbn -[entries]. by rewrite entries_lookup.
    + intros i Hi. rewrite !entries_lookup by done. eauto.
  - intros t th c i0 [<- <-]%lookup_singleton_Some. done.
  - by intros r ?%elem_of_nil.
  - intros t th [<- <-]%lookup_singleton_Some. done.
  - intros t. destruct (decide (boot = t)) as [<-|Hne]; [by rewrite lookup_singleton_eq|].
    by rewrite lookup_singleton_ne.
Qed.

Lemma gpu_reachable_inv malloc boot s0 s : initial boot s0 -> rtc (step malloc) s0 s -> exists rs aq uq, inv s rs aq uq.
Proof.
  intros H0 Hs. apply gpu_initial_inv in H0. assert (exists rs aq uq, inv s0 rs aq uq) as H by eauto. clear H0.
  induction Hs as [|x y z Hxy _ IH]; [done|]. destruct H as (rs & aq & uq & HI). apply IH. by eapply gpu_step_inv.
Qed.
End Inv.
