(* ===== verification/GpuBoot.v ===== *)
(** * What the display driver sends while it boots

    The geometry that the display reports governs every later command of the
    task that runs [virtio_gpu_init]. *)
From S2P Require Import Prelude Virtq Gpu GpuQueue GpuProofs.

(** The memory entry that goes with a command. *)
Definition entry_of (c : command) (g : virtio_gpu_dev) : option virtio_gpu_mem_entry :=
  match c with AttachBacking => Some (backing g) | _ => None end.

(** What the commands depend on. *)
Definition same_geometry (g g' : virtio_gpu_dev) : Prop :=
  width g' = width g /\ height g' = height g /\ framebuffer g' = framebuffer g /\ pixels g' = pixels g /\
  resource_id g' = resource_id g.

Lemma req_of_geometry c g g' : same_geometry g g' -> req_of c g' = req_of c g /\ entry_of c g' = entry_of c g.
Proof.
  intros (E1 & E2 & E3 & E4 & E5). unfold entry_of, backing. rewrite E3, E4. split; [|by destruct c].
  destruct c; cbn; unfold virtio_gpu_set_scanout_req, virtio_gpu_resource_flush_req,
    virtio_gpu_transfer_to_host_2d_req, virtio_gpu_resource_attach_backing_req, virtio_gpu_resource_create_2d_req, screen;
    by rewrite ?E1, ?E2, ?E5.
Qed.

Lemma entry_geometry c t g : same_geometry g (with_entry c t g).
Proof. by destruct c. Qed.

(** The frame of a task inside a call holds what the geometry asks for. *)
Definition frame_ok (g : virtio_gpu_dev) (fr : option frame) (th : thread) : Prop :=
  match at_ th with
  | Idle => True
  | Looking c => fr = Some (mkFrame (req_of c g) None None)
  | Waiting c _ => exists a, fr = Some (mkFrame (req_of c g) (entry_of c g) a)
  end.

Lemma frame_ok_geometry g g' fr th : same_geometry g g' -> frame_ok g fr th -> frame_ok g' fr th.
Proof.
  intros E. unfold frame_ok. destruct (at_ th) as [|c|c i0]; [done|..];
    destruct (req_of_geometry c g g' E) as [E1 E2]; by rewrite ?E1, ?E2.
Qed.

(** A call that returned: the command and the entry that the geometry asks
    for, and an answer that passed the check. *)
Definition result_ok (g : virtio_gpu_dev) (e : request * option virtio_gpu_mem_entry * response) : Prop :=
  exists c, e.1 = (req_of c g, entry_of c g) /\ answer_ok c e.2.

Lemma result_ok_geometry g g' e : same_geometry g g' -> result_ok g e -> result_ok g' e.
Proof.
  intros E (c & H & Ha). exists c. destruct (req_of_geometry c g g' E) as [-> ->]. done.
Qed.

(** The driver and the monitor follow the first mode of the display info [a]. *)
Definition configured (malloc : Z -> Z) (a : response) (g : virtio_gpu_dev) (m : monitor_t) : Prop :=
  exists md mds, pmodes a = md :: mds /\
    let w := rect_width (mode_r md) in
    let h := rect_height (mode_r md) in
    width g = w /\ height g = h /\ framebuffer g = malloc (u32 (u32 (w * h) * 4)) /\ pixels g = u32 (w * h) /\
    m = mkMonitor (framebuffer g) (pixels g * 4) (s32 w) (s32 h).

Lemma configured_geometry malloc a g g' m : same_geometry g g' -> configured malloc a g m -> configured malloc a g' m.
Proof. intros (E1 & E2 & E3 & E4 & _). unfold configured. by rewrite E1, E2, E3, E4. Qed.

Definition info_cmd : request * option virtio_gpu_mem_entry := (ctrl_hdr (hdr_of VIRTIO_GPU_CMD_GET_DISPLAY_INFO), None).

(** How far the task is: before the display info, before [configure], or
    after it. *)
Definition progress (malloc : Z -> Z) (g : virtio_gpu_dev) (m : monitor_t) (th : thread) : Prop :=
  (prog th = init_prog /\ results th = []) \/
  (prog th = tail init_prog /\ at_ th = Idle /\ exists a, results th = [(info_cmd, a)]) \/
  (IConfigure ∉ prog th /\ exists a l, results th = (info_cmd, a) :: l /\ configured malloc a g m /\ Forall (result_ok g) l).

Lemma progress_geometry malloc g g' m th : same_geometry g g' -> progress malloc g m th -> progress malloc g' m th.
Proof.
  intros E [H|[H|(Hp & a & l & Hr & Hc & Hl)]]; [by left|by right; left|right; right].
  split; [done|]. exists a, l. split; [done|]. split; [by eapply configured_geometry|].
  eapply Forall_impl; [exact Hl|]. intros e. by apply result_ok_geometry.
Qed.

Section Boot.
Context {V : Type} `{!Display V}.
Variable malloc : Z -> Z.
Variable boot : nat.
Implicit Types (s : sys V) (th : thread) (t : nat).

Record boot_inv s th : Prop := {
  B_thread : threads s !! boot = Some th;
  B_progress : progress malloc (drv s) (mon s) th;
  B_frame : frame_ok (drv s) (frames (drv s) !! boot) th;
  B_resource : resource_id (drv s) = 1;
  B_other : forall t th', t <> boot -> threads s !! t = Some th' -> IConfigure ∉ prog th';
  B_calls : exists ws, calls th = calls_of init_prog ++ ws
}.

(** A step of another task, of the device or of the interrupt handler. *)
Lemma boot_other s th g dl os sv v ths : boot_inv s th -> same_geometry (drv s) g ->
  ths !! boot = threads s !! boot -> frame_ok g (frames g !! boot) th ->
  (forall t th', t <> boot -> ths !! t = Some th' -> IConfigure ∉ prog th') ->
  boot_inv (mkSys g (mon s) dl os sv v ths) th.
Proof.
  intros [Ht Hp Hf Hr Ho Hc] E Eb Hf' Ho'. constructor; fields; try done.
  - by rewrite Eb.
  - by eapply progress_geometry.
  - destruct E as (_ & _ & _ & _ & ->). done.
Qed.

Lemma other_insert s th t th' : boot_inv s th -> t <> boot -> IConfigure ∉ prog th' ->
  <[t := th']> (threads s) !! boot = threads s !! boot /\
  (forall t1 th1, t1 <> boot -> <[t := th']> (threads s) !! t1 = Some th1 -> IConfigure ∉ prog th1).
Proof.
  intros HB Hne Hn. split; [by rewrite lookup_insert_ne|].
  intros t1 th1 Hb [[<- <-]|[_ H]]%lookup_insert_Some; [done|]. by apply (B_other _ _ HB t1).
Qed.

(** A step of the task itself that is not the configuration. *)
Lemma boot_same s th g th' : boot_inv s th -> same_geometry (drv s) g -> progress malloc (drv s) (mon s) th' ->
  frame_ok g (frames g !! boot) th' -> (exists ws, calls th' = calls th ++ ws) ->
  boot_inv (with_thread boot th' (with_drv g s)) th'.
Proof.
  intros [Ht Hp Hf Hr Ho [ws Hc]] E Hp' Hf' [ws' Hc']. constructor; unfold with_thread, with_drv; fields; try done.
  - by rewrite lookup_insert_eq.
  - by eapply progress_geometry.
  - destruct E as (_ & _ & _ & _ & ->). done.
  - intros t th1 Hne. rewrite lookup_insert_ne by done. by apply Ho.
  - exists (ws ++ ws'). by rewrite Hc', Hc, app_assoc.
Qed.

Lemma same_geometry_refl g : same_geometry g g.
Proof. by split_and!. Qed.

Lemma boot_write s th t th' : boot_inv s th -> writing (threads s !! t) = Some th' ->
  exists th1, boot_inv (with_thread t th' s) th1.
Proof.
  intros HB Hw. pose proof (same_geometry_refl (drv s)) as E.
  assert (prog th' = write_prog) as Hp'.
  { unfold writing in Hw. destruct (threads s !! t) as [[[|? ?] [| |] l cs]|]; try done; by injection Hw as <-. }
  assert (IConfigure ∉ prog th') as Hn by (rewrite Hp'; set_solver).
  destruct (decide (t = boot)) as [->|Hne].
  - rewrite (B_thread _ _ HB) in Hw. destruct th as [p st l cs]. cbn [writing] in Hw. destruct p; [|done].
    destruct st; try done. injection Hw as <-. eexists.
    replace (with_thread boot _ s) with (with_thread boot (mkThread write_prog Idle l (cs ++ calls_of write_prog)) (with_drv (drv s) s)) by (by destruct s).
    apply (boot_same s _ _ _ HB); [done| |done|by eexists].
    right; right. split; [done|]. destruct (B_progress _ _ HB) as [[H _]|[(H & _)|(_ & H)]]; [done..|exact H].
  - exists th. destruct (other_insert s th t th' HB Hne Hn) as [E1 E2]. by apply boot_other; [..|apply HB|].
Qed.

Lemma boot_begin s th t c p l cs g : boot_inv s th -> threads s !! t = Some (mkThread (ICall c :: p) Idle l cs) ->
  begin_call c t (drv s) = Done (tt, g) ->
  exists th1, boot_inv (with_thread t (mkThread (ICall c :: p) (Looking c) l cs) (with_drv g s)) th1.
Proof.
  intros HB Ht [= <-]. destruct (decide (t = boot)) as [->|Hne].
  - rewrite (B_thread _ _ HB) in Ht. injection Ht as ->. eexists. apply (boot_same s _ _ _ HB); [by split_and!| | |].
    + destruct (B_progress _ _ HB) as [H|[(H & _)|H]]; [by left|done|by right; right].
    + cbn. rewrite lookup_insert_eq. by destruct c.
    + exists []. by rewrite app_nil_r.
  - exists th. destruct (other_insert s th t (mkThread (ICall c :: p) (Looking c) l cs) HB Hne) as [E1 E2].
    { exact (B_other _ _ HB t _ Hne Ht). }
    unfold with_thread, with_drv; fields. apply (boot_other s); [exact HB|by split_and!|exact E1| |exact E2]. cbn. rewrite lookup_insert_ne by done.
    eapply frame_ok_geometry; [|apply HB]. by split_and!.
Qed.

Lemma boot_send s th rs aq uq t c p l cs o g : boot_inv s th -> inv s rs aq uq ->
  threads s !! t = Some (mkThread p (Looking c) l cs) -> send c t (drv s) = Done (o, g) ->
  exists th1, boot_inv (with_thread t (mkThread p (match o with Some i0 => Waiting c i0 | None => Looking c end) l cs)
    (with_drv g s)) th1.
Proof.
  intros HB HI Ht Hrun. set (th' := mkThread p _ l cs).
  assert (exists q, g = set_ctrl q (match o with Some _ => with_entry c t (drv s) | None => drv s end)) as [q ->].
  { destruct (send_spec c (drv s) _ _ _ _ _ t (I_q _ _ _ _ HI)) as [(i0 & idx & q & H & _)|(q & H & _)];
      rewrite Hrun in H; injection H as -> ->; by exists q. }
  set (g := set_ctrl q _).
  assert (same_geometry (drv s) g) as E by (destruct o; [by destruct c|by split_and!]).
  destruct (decide (t = boot)) as [->|Hne].
  - rewrite (B_thread _ _ HB) in Ht. injection Ht as ->. exists th'. apply (boot_same s _ _ _ HB); [done| | |].
    + destruct (B_progress _ _ HB) as [H|[(_ & H & _)|H]]; [by left|done|by right; right].
    + pose proof (B_frame _ _ HB) as Hf. unfold frame_ok in Hf |- *. subst th' g. cbn [at_] in *.
      destruct o as [i0|]; [|by destruct c]. exists None. destruct c; cbn in *; rewrite ?lookup_alter_eq, Hf; done.
    + exists []. by rewrite app_nil_r.
  - exists th. destruct (other_insert s th t th' HB Hne) as [E1 E2]; [exact (B_other _ _ HB t _ Hne Ht)|].
    unfold with_thread, with_drv. fields. apply (boot_other s); [exact HB|exact E|exact E1| |exact E2].
    eapply frame_ok_geometry; [exact E|]. pose proof (B_frame _ _ HB) as Hf. subst g.
    destruct o as [i0|]; [|exact Hf]. destruct c; cbn; rewrite ?lookup_alter_ne by done; exact Hf.
Qed.

Lemma boot_wait s th rs aq uq t c i0 p l cs f o g : boot_inv s th -> inv s rs aq uq ->
  threads s !! t = Some (mkThread p (Waiting c i0) l cs) -> frames (drv s) !! t = Some f ->
  end_call c t i0 (drv s) = Done (o, g) ->
  exists th1, boot_inv (with_thread t (match o with
      | Some a => mkThread (tail p) Idle (l ++ [(req f, entry f, a)]) cs
      | None => mkThread p (Waiting c i0) l cs
      end) (with_drv g s)) th1.
Proof.
  intros HB HI Ht Hf Hrun.
  destruct (end_call_spec s rs aq uq t _ c i0 HI Ht eq_refl) as (f' & Hf' & [H|(a & q & r & rs' & Er & _ & _ & _ & _ & H)]).
  { rewrite Hrun in H. injection H as -> ->. exists th. unfold with_thread, with_drv. rewrite insert_id by done. by destruct s. }
  destruct H as [[Hok H]|[_ [msg H]]]; rewrite Hrun in H; [|done]. injection H as -> ->.
  assert (same_geometry (drv s) (returned t q (drv s))) as E by (by split_and!).
  set (th' := mkThread (tail p) Idle _ cs).
  destruct (I_thread _ _ _ _ HI t _ Ht) as [_ ([p' Hp] & _)]. cbn in Hp. subst p.
  destruct (decide (t = boot)) as [->|Hne].
  - rewrite (B_thread _ _ HB) in Ht. injection Ht as ->. exists th'. apply (boot_same s _ _ _ HB); [done| |done|].
    2:{ exists []. by rewrite app_nil_r. }
    destruct (B_frame _ _ HB) as [ra Hfr]. cbn in Hfr. rewrite Hf in Hfr. injection Hfr as ->.
    destruct (B_progress _ _ HB) as [[Hp Hl]|[(_ & H & _)|(Hp & a0 & l0 & Hl & Hcf & Hall)]]; [|done|].
    + cbn in Hp, Hl. injection Hp as -> ->. subst l. right; left. split; [done|]. split; [done|]. by exists a.
    + cbn in Hp, Hl. subst l. right; right. split; [cbn; set_solver|]. exists a0, (l0 ++ [(req_of c (drv s), entry_of c (drv s), a)]).
      split; [done|]. split; [done|]. apply Forall_app. split; [done|]. constructor; [|done]. by exists c.
  - exists th. destruct (other_insert s th t th' HB Hne) as [E1 E2].
    { pose proof (B_other _ _ HB t _ Hne Ht) as H. cbn in *. set_solver. }
    unfold with_thread, with_drv. fields. apply (boot_other s); [exact HB|exact E|exact E1| |exact E2].
    eapply frame_ok_geometry; [exact E|]. cbn. rewrite lookup_delete_ne by done. apply HB.
Qed.

Lemma boot_configure s th t p rs a q cs g m : boot_inv s th ->
  threads s !! t = Some (mkThread (IConfigure :: p) Idle (rs ++ [(q, a)]) cs) ->
  configure malloc a (drv s, mon s) = Done (tt, (g, m)) ->
  exists th1, boot_inv (mkSys g m (dev_last s) (outst s) (served s) (display s)
    (<[t := mkThread p Idle (rs ++ [(q, a)]) cs]> (threads s))) th1.
Proof.
  intros HB Ht Hrun. destruct (decide (t = boot)) as [->|Hne].
  2:{ pose proof (B_other _ _ HB t _ Hne Ht) as H. destruct H. by left. }
  rewrite (B_thread _ _ HB) in Ht. injection Ht as ->. exists (mkThread p Idle (rs ++ [(q, a)]) cs). destruct HB as [Ht Hp Hf Hr Ho Hc].
  destruct Hp as [[H _]|[(Hp & _ & a0 & Hl)|(H & _)]]; [done| |destruct H; by left].
  cbn in Hp, Hl. injection Hp as ->. destruct rs; [|by destruct rs]. injection Hl as -> ->.
  unfold configure in Hrun. destruct (pmodes a0) as [|md mds] eqn:Em; [done|]. injection Hrun as <- <-.
  constructor; fields; try done.
  - by rewrite lookup_insert_eq.
  - right; right. split; [cbn; set_solver|]. exists a0, []. split; [done|]. split; [|done]. by exists md, mds.
  - intros t th1 Hne. rewrite lookup_insert_ne by done. by apply Ho.
Qed.

Lemma boot_step s s' th rs aq uq : step malloc s s' -> boot_inv s th -> inv s rs aq uq -> exists th1, boot_inv s' th1.
Proof.
  intros Hstep HB HI. destruct Hstep as
    [s t th' Hw|s t c p l cs g Ht Hrun|s t c p l cs o g Ht Hrun|s t c i0 p l cs f o g Ht Hf Hrun
    |s t p l a q cs g m Ht Hrun|s g Hrun|s h Hne Hh|s h l1 l2 t f a v Ho Hfe Hx].
  - by eapply boot_write.
  - by eapply boot_begin.
  - by eapply boot_send.
  - by eapply boot_wait.
  - by eapply boot_configure.
  - destruct (virtio_gpu_intr_spec _ _ _ _ _ _ (I_q _ _ _ _ HI)) as (q & H & _). rewrite Hrun in H. injection H as ->.
    exists th. apply (boot_other s); [done|by split_and!|done| |apply HB].
    eapply frame_ok_geometry; [|apply HB]. by split_and!.
  - exists th. apply (boot_other s); [done|by split_and!|done|apply HB|apply HB].
  - exists th. assert (same_geometry (drv s) (dev_answer t h a (drv s))) as E by (by split_and!).
    apply (boot_other s); [done|exact E|done| |apply HB].
    eapply frame_ok_geometry; [exact E|]. pose proof (B_frame _ _ HB) as Hfr. unfold frame_ok in *. cbn.
    destruct (decide (t = boot)) as [->|Hne]; [|by rewrite lookup_alter_ne by done].
    destruct (fetch_inv s rs aq uq h HI) as (t' & th' & c & f' & Ht' & Ha & Hf & Hfe' & _); [rewrite Ho; set_solver|].
    rewrite Hfe in Hfe'. injection Hfe' as <- <-. rewrite (B_thread _ _ HB) in Ht'. injection Ht' as <-. rewrite Ha in *.
    destruct Hfr as [ra Hfr]. rewrite lookup_alter_eq, Hfr. by eexists.
Qed.

Lemma boot_initial s : initial boot s -> exists th, boot_inv s th.
Proof.
  intros (Hd & _ & _ & _ & Ht). exists (mkThread init_prog Idle [] (calls_of init_prog)). constructor; rewrite ?Hd, ?Ht; try done.
  - by rewrite lookup_singleton_eq.
  - by left.
  - intros t th' Hne H. apply lookup_singleton_Some in H as [<- _]. done.
  - by exists [].
Qed.

Lemma boot_reachable s0 s : initial boot s0 -> rtc (step malloc) s0 s -> exists th, boot_inv s th.
Proof.
  intros H0 Hs. pose proof (gpu_initial_inv boot s0 H0) as HI. destruct (boot_initial s0 H0) as [th HB]. clear H0.
  assert (exists rs aq uq, inv s0 rs aq uq) as H by eauto. clear HI. revert th HB H.
  induction Hs as [|x y z Hxy _ IH]; [by eauto|]. intros th HB (rs & aq & uq & HI).
  destruct (boot_step _ _ _ _ _ _ Hxy HB HI) as [th1 H1]. eapply IH; [exact H1|]. by eapply gpu_step_inv.
Qed.
End Boot.
