(* ===== verification/GpuTheorems.v ===== *)
(** * Properties of the display driver, and a run of it *)
From S2P Require Import Prelude Virtq Gpu GpuQueue GpuProofs GpuBoot.

Section Theorems.
Context {V : Type} `{!Display V}.
Implicit Types (s : sys V) (th : thread) (t : nat).

Definition is_waiting th : bool := match at_ th with Waiting _ _ => true | _ => false end.

(** The tasks that wait for an answer. *)
Definition waiters s : list (nat * thread) := filter (fun e => is_waiting e.2 = true) (map_to_list (threads s)).

Definition task_of (r : flight) : nat := match f_bufs r with (PReq t, _) :: _ => t | _ => 0%nat end.

Lemma flights_waiters s rs aq uq : inv s rs aq uq -> (length rs <= length (waiters s))%nat.
Proof.
  intros HI. rewrite <- (length_map task_of rs), <- (length_fmap fst (waiters s)).
  assert (forall r, r ∈ rs -> exists th c, threads s !! task_of r = Some th /\ at_ th = Waiting c (head_of r)) as Hall.
  { intros r Hr. destruct (I_fl _ _ _ _ HI r Hr) as (t & th & c & Ht & Ha & Eb). exists th, c.
    replace (task_of r) with t; [done|]. unfold task_of. rewrite Eb. by destruct c. }
  apply submseteq_length, NoDup_submseteq.
  - apply NoDup_fmap_2_strong.
    + intros r r' Hr Hr' E. destruct (Hall r Hr) as (th & c & Ht & Ha). destruct (Hall r' Hr') as (th' & c' & Ht' & Ha').
      rewrite E, Ht' in Ht. injection Ht as <-. apply (flight_inj s rs aq uq); congruence.
    + eapply NoDup_fmap_1. eapply (gpu_NoDup_heads (ctrl (drv s))); apply (I_q _ _ _ _ HI).
  - intros t (r & -> & Hr)%list_elem_of_fmap. destruct (Hall r Hr) as (th & c & Ht & Ha).
    apply list_elem_of_fmap. exists (task_of r, th). split; [done|]. apply list_elem_of_filter.
    split; [by unfold is_waiting; cbn; rewrite Ha|by apply elem_of_map_to_list].
Qed.

(** C23. However tasks, interrupts and the device interleave, the driver's
    checks never fail.  A task that looks for descriptors sends its command,
    or sleeps because at least 21 commands wait for an answer.  A task that
    waits sleeps on, or returns with the device's answer, or stops in the
    [panic_on] of an answer that is an error.  The interrupt handler ends.  The
    device finds, at every head it has taken, a whole command with its memory
    entry and room for the answer, in the frame of the task that waits for
    it. *)
Theorem gpu_safe malloc boot s0 s :
  initial boot s0 -> rtc (step malloc) s0 s ->
  (forall t c p l cs, threads s !! t = Some (mkThread p (Looking c) l cs) ->
     exists o g, send c t (drv s) = Done (o, g) /\ (o = None -> (21 <= length (waiters s))%nat)) /\
  (forall t c i0 p l cs, threads s !! t = Some (mkThread p (Waiting c i0) l cs) ->
     exists f, frames (drv s) !! t = Some f /\
       (end_call c t i0 (drv s) = Done (None, drv s) \/
        exists a, resp f = Some a /\
          ((exists g, end_call c t i0 (drv s) = Done (Some a, g)) \/
           (c <> GetDisplayInfo /\ rtype a <> VIRTIO_GPU_RESP_OK_NODATA /\
            exists msg, end_call c t i0 (drv s) = Panic msg)))) /\
  (exists g, virtio_gpu_intr (drv s) = Done (tt, g)) /\
  (forall h, h ∈ outst s -> exists t th c f, threads s !! t = Some th /\ at_ th = Waiting c h /\
     dev_fetch (drv s) h = Some (t, f) /\ frames (drv s) !! t = Some f).
Proof.
  intros H0 Hs. destruct (gpu_reachable_inv malloc boot s0 s H0 Hs) as (rs & aq & uq & HI). split_and!.
  - intros t c p l cs Ht. destruct (send_spec c (drv s) _ _ _ _ _ t (I_q _ _ _ _ HI))
      as [(i0 & idx & q & H & _)|(q & H & _ & Hlen)]; eexists _, _; (split; [exact H|]); [done|]. intros _.
    pose proof (flights_waiters s rs aq uq HI) as Hw.
    assert (length (slots rs) <= 3 * length rs)%nat; [|lia].
    assert (Forall (fun r => (length (f_idx r) <= 3)%nat) rs) as Hl.
    { apply Forall_forall. intros r Hr. destruct (I_fl _ _ _ _ HI r Hr) as (t1 & th1 & c1 & _ & _ & Eb).
      pose proof (Q_desc _ _ _ _ _ _ _ (I_q _ _ _ _ HI)) as Hd. eapply Forall_forall in Hd as [Hc _]; [|exact Hr].
      apply chained_length in Hc. rewrite Hc, Eb. destruct c1; cbn; lia. }
    clear - Hl. induction Hl as [|r rs Hr _ IH]; [done|]. cbn [slots flat_map]. rewrite length_app. fold (slots rs).
    cbn [length]. lia.
  - intros t c i0 p l cs Ht.
    destruct (end_call_spec s rs aq uq t _ c i0 HI Ht eq_refl) as (f & Hf & [H|(a & q & r & rs' & Er & _ & _ & _ & _ & H)]);
      exists f; (split; [done|]); [by left|right]. exists a. split; [done|].
    destruct H as [[_ H]|[Hn [msg H]]]; [left; by eexists|right]. unfold answer_ok in Hn. split_and!; [tauto..|]. by exists msg.
  - destruct (intr_inv s rs aq uq HI) as (g & H & _). by exists g.
  - intros h Hh. destruct (fetch_inv s rs aq uq h HI) as (t & th & c & f & Ht & Ha & Hf & Hfe & _); [set_solver|].
    by exists t, th, c, f.
Qed.

(** C24. A call sends one command and gets the answer to it: for every task,
    the commands the device has executed, with their memory entries and the
    answers it gave, are those of the calls that have returned, in the order
    of the program, and at most one more whose answer the task has not seen.
    The calls that returned and the calls still to make are exactly the
    task's program. *)
Theorem gpu_calls malloc boot s0 s t th :
  initial boot s0 -> rtc (step malloc) s0 s -> threads s !! t = Some th ->
  log_of t (served s) = results th ++ answered (frames (drv s) !! t) th /\
  (length (answered (frames (drv s) !! t) th) <= 1)%nat /\
  calls th = map (fun e => cmd_of e.1.1) (results th) ++ calls_of (prog th) /\
  (forall c i0, at_ th = Waiting c i0 -> hd_error (calls_of (prog th)) = Some c).
Proof.
  intros H0 Hs Ht. destruct (gpu_reachable_inv malloc boot s0 s H0 Hs) as (rs & aq & uq & HI).
  destruct (I_thread _ _ _ _ HI t th Ht) as [Hc Hst]. split_and!.
  - rewrite (I_log _ _ _ _ HI t). by rewrite Ht.
  - unfold answered. destruct (at_ th); cbn; try lia. destruct (frames (drv s) !! t) as [f|]; [|cbn; lia].
    destruct (resp f); cbn; lia.
  - exact Hc.
  - intros c i0 Ha. unfold stage_ok in Hst. rewrite Ha in Hst. destruct Hst as [[p ->] _]. done.
Qed.

(** C25. When [virtio_gpu_init] is over, the display has been asked for its
    modes and then to create resource 1 in the size of the first mode, to back
    it by the frame buffer, to show it, to read it and to refresh the screen,
    in this order and with success each time; the monitor describes the frame
    buffer that was allocated. *)
Theorem gpu_boot malloc boot s0 s th :
  initial boot s0 -> rtc (step malloc) s0 s -> threads s !! boot = Some th -> (6 <= length (results th))%nat ->
  exists a md mds a1 a2 a3 a4 a5, pmodes a = md :: mds /\
    let w := rect_width (mode_r md) in
    let h := rect_height (mode_r md) in
    let fb := malloc (u32 (u32 (w * h) * 4)) in
    let all := mkRect 0 0 w h in
    take 6 (results th) =
      [(info_cmd, a);
       (resource_create_2d (hdr_of 257) 1 1 w h, None, a1);
       (resource_attach_backing (hdr_of 262) 1 1, Some (mkEntry fb (u32 (u32 (w * h) * 4))), a2);
       (set_scanout (hdr_of 259) all 0 1, None, a3);
       (transfer_to_host_2d (hdr_of 261) all 0 1, None, a4);
       (resource_flush (hdr_of 260) all 1, None, a5)] /\
    Forall (fun x => rtype x = VIRTIO_GPU_RESP_OK_NODATA) [a1; a2; a3; a4; a5] /\
    mon s = mkMonitor fb (u32 (w * h) * 4) (s32 w) (s32 h).
Proof.
  intros H0 Hs Ht Hlen. destruct (boot_reachable malloc boot s0 s H0 Hs) as [th' HB].
  rewrite (B_thread _ _ _ _ HB) in Ht. injection Ht as ->.
  destruct (gpu_reachable_inv malloc boot s0 s H0 Hs) as (rs & aq & uq & HI).
  destruct (I_thread _ _ _ _ HI boot th (B_thread _ _ _ _ HB)) as [Hc _].
  destruct (B_calls _ _ _ _ HB) as [ws Hws]. rewrite Hws in Hc. clear Hws.
  destruct (B_progress _ _ _ _ HB) as [[_ H]|[(_ & _ & a & H)|(_ & a & l & Hr & Hcf & Hl)]];
    [rewrite H in Hlen; cbn in Hlen; lia..|].
  destruct Hcf as (md & mds & Em & Ew & Eh & Ef & Ep & Emon).
  rewrite Hr in Hlen, Hc |- *. clear Hr.
  destruct l as [|[q1 a1] [|[q2 a2] [|[q3 a3] [|[q4 a4] [|[q5 a5] l]]]]]; cbn in Hlen; try lia.
  exists a, md, mds, a1, a2, a3, a4, a5. split; [done|]. cbv zeta.
  rewrite !Forall_cons in Hl. destruct Hl as ((c1 & E1 & K1) & (c2 & E2 & K2) & (c3 & E3 & K3) & (c4 & E4 & K4) & (c5 & E5 & K5) & _).
  cbn in E1, E2, E3, E4, E5, K1, K2, K3, K4, K5. subst q1 q2 q3 q4 q5.
  cbn in Hc. rewrite !cmd_of_req in Hc. injection Hc as <- <- <- <- <- _.
  split; [|split; [|by rewrite Emon, Ef, Ep]].
  - cbn. unfold virtio_gpu_resource_create_2d_req, virtio_gpu_resource_attach_backing_req, virtio_gpu_set_scanout_req,
      virtio_gpu_transfer_to_host_2d_req, virtio_gpu_resource_flush_req, backing, screen.
    rewrite (B_resource _ _ _ _ HB), Ew, Eh, Ef, Ep.
    replace (u32 (u64 (u32 (rect_width (mode_r md) * rect_height (mode_r md)) * 4)))
      with (u32 (u32 (rect_width (mode_r md) * rect_height (mode_r md)) * 4)); [done|]. unfold u32, u64. zdiv.
  - unfold answer_ok in *. repeat constructor; naive_solver.
Qed.
End Theorems.

(** ** The display driver at a concrete display

    A boot with a display of 4 by 3 pixels that accepts everything, step by
    step. *)

Inductive move : Type :=
| MWrite (t : nat) | MBegin (t : nat) | MSend (t : nat) | MWait (t : nat) | MConfigure (t : nat)
| MIntr | MTake | MComplete.

Section Run.
Context {V : Type} `{!Display V}.
Variable malloc : Z -> Z.

(** The state after a move that is possible. *)
Definition run_move (m : move) (s : sys V) : option (sys V) :=
  match m with
  | MWrite t => match writing (threads s !! t) with Some th => Some (with_thread t th s) | None => None end
  | MBegin t =>
      match threads s !! t with
      | Some (mkThread (ICall c :: p) Idle rs cs) =>
          match begin_call c t (drv s) with
          | Done (tt, g) => Some (with_thread t (mkThread (ICall c :: p) (Looking c) rs cs) (with_drv g s))
          | _ => None
          end
      | _ => None
      end
  | MSend t =>
      match threads s !! t with
      | Some (mkThread p (Looking c) rs cs) =>
          match send c t (drv s) with
          | Done (o, g) => Some (with_thread t
              (mkThread p (match o with Some i0 => Waiting c i0 | None => Looking c end) rs cs) (with_drv g s))
          | _ => None
          end
      | _ => None
      end
  | MWait t =>
      match threads s !! t, frames (drv s) !! t with
      | Some (mkThread p (Waiting c i0) rs cs), Some f =>
          match end_call c t i0 (drv s) with
          | Done (o, g) => Some (with_thread t (match o with
              | Some a => mkThread (tail p) Idle (rs ++ [(req f, entry f, a)]) cs
              | None => mkThread p (Waiting c i0) rs cs
              end) (with_drv g s))
          | _ => None
          end
      | _, _ => None
      end
  | MConfigure t =>
      match threads s !! t with
      | Some (mkThread (IConfigure :: p) Idle [(q, a)] cs) =>
          match configure malloc a (drv s, mon s) with
          | Done (tt, (g, m)) => Some (mkSys g m (dev_last s) (outst s) (served s) (display s)
              (<[t := mkThread p Idle [(q, a)] cs]> (threads s)))
          | _ => None
          end
      | _ => None
      end
  | MIntr => match virtio_gpu_intr (drv s) with Done (tt, g) => Some (with_drv g s) | _ => None end
  | MTake =>
      if decide (dev_last s = avail_idx (ctrl (drv s))) then None
      else match avail_ring (ctrl (drv s)) !! (dev_last s mod NUM) with
           | Some h => Some (mkSys (drv s) (mon s) (u16 (dev_last s + 1)) (h :: outst s) (served s) (display s) (threads s))
           | None => None
           end
  | MComplete =>
      match outst s with
      | h :: l =>
          match dev_fetch (drv s) h with
          | Some (t, f) =>
              let av := execute (display s) (req f) (entry f) in
              Some (mkSys (dev_answer t h av.1 (drv s)) (mon s) (dev_last s) l
                (served s ++ [mkServed t (req f) (entry f) av.1]) av.2 (threads s))
          | None => None
          end
      | [] => None
      end
  end.

Lemma run_move_step m s s' : run_move m s = Some s' -> step malloc s s'.
Proof.
  destruct m as [t|t|t|t|t| | |]; cbn [run_move]; intros H.
  - destruct (writing _) eqn:E; [|done]. injection H as <-. by constructor.
  - destruct (threads s !! t) as [[[|[c|] p] [| |] rs cs]|] eqn:E; try done.
    destruct (begin_call c t (drv s)) as [[[] g]| | | |] eqn:E2; try done. injection H as <-. by econstructor.
  - destruct (threads s !! t) as [[p [| |] rs cs]|] eqn:E; try done.
    destruct (send _ _ _) as [[o g]| | | |] eqn:E2; try done. injection H as <-. by econstructor.
  - destruct (threads s !! t) as [[p [| |] rs cs]|] eqn:E; try done.
    destruct (frames (drv s) !! t) as [f|] eqn:Ef; [|done].
    destruct (end_call _ _ _ _) as [[o g]| | | |] eqn:E2; try done. injection H as <-. by econstructor.
  - destruct (threads s !! t) as [[[|[c|] p] [| |] [|[q a] [|? ?]] cs]|] eqn:E; try done.
    destruct (configure _ _ _) as [[[] [g m]]| | | |] eqn:E2; try done. injection H as <-.
    by apply (step_configure malloc s t p [] a q cs g m).
  - destruct (virtio_gpu_intr _) as [[[] g]| | | |] eqn:E; try done. injection H as <-. by constructor.
  - destruct (decide _) as [?|Hne]; [done|]. destruct (avail_ring _ !! _) eqn:E; [|done]. injection H as <-. by constructor.
  - destruct (outst s) as [|h l] eqn:Eo; [done|]. destruct (dev_fetch _ _) as [[t f]|] eqn:Ef; [|done]. injection H as <-.
    apply (step_complete malloc s h [] l t f _ _ Eo Ef). by destruct (execute _ _ _).
Qed.

Fixpoint run_moves (ms : list move) (s : sys V) : option (sys V) :=
  match ms with
  | [] => Some s
  | m :: ms => match run_move m s with Some s' => run_moves ms s' | None => None end
  end.

Lemma run_moves_steps ms s s' : run_moves ms s = Some s' -> rtc (step malloc) s s'.
Proof.
  revert s. induction ms as [|m ms IH]; intros s; cbn; [by intros [= ->]|].
  destruct (run_move m s) as [s1|] eqn:E; [|done]. intros H. eapply rtc_l; [by eapply run_move_step|by apply IH].
Qed.
End Run.

#[export] Instance demo_display : Display unit := {
  execute _ q _ := (match q with
                    | ctrl_hdr _ => mkResp 4353 [mkMode (mkRect 0 0 4 3) 1 0]
                    | _ => mkResp VIRTIO_GPU_RESP_OK_NODATA []
                    end, tt)
}.

Definition demo_malloc (n : Z) : Z := 2147483648.
Definition demo_start : sys unit :=
  mkSys fresh_gpu (mkMonitor 0 0 0 0) 0 [] [] tt {[ 7%nat := mkThread init_prog Idle [] (calls_of init_prog) ]}.
Definition demo_call : list move := [MBegin 7; MSend 7; MTake; MComplete; MIntr; MWait 7].
Definition demo_moves : list move :=
  demo_call ++ MConfigure 7 :: demo_call ++ demo_call ++ demo_call ++ demo_call ++ demo_call.

(** The boot is over; after it, task 7 draws, and sleeps for the answer. *)
Definition demo_end : sys unit := default demo_start (run_moves demo_malloc demo_moves demo_start).
Definition demo_wait : sys unit :=
  default demo_start (run_moves demo_malloc [MWrite 7; MBegin 7; MSend 7; MTake] demo_end).

Lemma demo_start_initial : initial 7 demo_start.
Proof. by split_and!. Qed.

Lemma demo_end_reachable : rtc (step demo_malloc) demo_start demo_end.
Proof. apply (run_moves_steps demo_malloc demo_moves). vm_compute. reflexivity. Qed.

Lemma demo_wait_reachable : rtc (step demo_malloc) demo_start demo_wait.
Proof.
  apply (run_moves_steps demo_malloc (demo_moves ++ [MWrite 7; MBegin 7; MSend 7; MTake])). vm_compute. reflexivity.
Qed.

Lemma gpu_safe_witness : outst demo_wait = [0] /\ exists t th c f, threads demo_wait !! t = Some th /\ at_ th = Waiting c 0 /\
  dev_fetch (drv demo_wait) 0 = Some (t, f) /\ frames (drv demo_wait) !! t = Some f.
Proof.
  split; [vm_compute; reflexivity|].
  destruct (gpu_safe demo_malloc 7 demo_start demo_wait demo_start_initial demo_wait_reachable) as (_ & _ & _ & H).
  apply (H 0). vm_compute. left.
Defined.

Lemma gpu_calls_witness : exists th, threads demo_end !! 7%nat = Some th /\
  log_of 7 (served demo_end) = results th ++ answered (frames (drv demo_end) !! 7%nat) th /\ length (results th) = 6%nat.
Proof.
  eexists. split; [vm_compute; reflexivity|]. split; [|vm_compute; reflexivity].
  eapply (gpu_calls demo_malloc 7 demo_start demo_end 7 _ demo_start_initial demo_end_reachable). vm_compute. reflexivity.
Defined.

Lemma gpu_boot_witness : mon demo_end = mkMonitor 2147483648 48 4 3 /\
  exists a a1 a2 a3 a4 a5, Forall (fun x => rtype x = VIRTIO_GPU_RESP_OK_NODATA) [a1; a2; a3; a4; a5] /\
    exists th, threads demo_end !! 7%nat = Some th /\ head (results th) = Some (info_cmd, a).
Proof.
  assert (exists th, threads demo_end !! 7%nat = Some th /\ (6 <= length (results th))%nat) as (th & Ht & Hl).
  { eexists. split; [vm_compute; reflexivity|]. vm_compute. lia. }
  split; [vm_compute; reflexivity|].
  destruct (gpu_boot demo_malloc 7 demo_start demo_end th demo_start_initial demo_end_reachable Ht Hl)
    as (a & md & mds & a1 & a2 & a3 & a4 & a5 & _ & Htake & Hok & _).
  exists a, a1, a2, a3, a4, a5. split; [exact Hok|]. exists th. split; [exact Ht|].
  destruct (results th) as [|e l]; [discriminate Htake|]. cbn in Htake |- *. injection Htake as -> _. reflexivity.
Defined.

(** A device that offers features 1 and 9 and accepts. *)
Definition demo_gpu_mmio (log : list (Z * Z)) (r : Z) : Z :=
  if r =? 0 then 1953655158 else if r =? 4 then 2 else if r =? 8 then 16 else if r =? 12 then 1431127377
  else if r =? 16 then 514 else if r =? 52 then 1024 else if r =? 112 then 11 else 0.

Example demo_gpu_start : exists log,
  virtio_gpu_start demo_gpu_mmio 4096 8192 12288 16384 20480 24576 [] = Done (fresh_gpu, log) /\
  (32, 512) ∈ log /\ last log = Some (112, 15).
Proof. eexists. split; [vm_compute; reflexivity|]. split; [|reflexivity]. set_solver. Qed.
