(* ===== verification/Bio.v ===== *)
(** * The buffer cache: bio.c

    The [NBUF] buffers with their LRU list.  The list head is address 0 and
    the buffers are the addresses from 1; the fields [next] and [prev], which
    the head has too, are maps, the other fields are records.  A buffer's
    semaphore is its counter: [lm_P] that leaves it negative makes the caller
    wait (its queue is the subject of [Lock]). *)
From S2P Require Import Prelude.

Definition NBUF : nat := 100.

Record buf_t : Type := mkBuf {
  valid : bool;
  dev : Z;
  blockno : Z;
  sem : Z;
  refcnt : Z;
  data : list Z;
  holding_task : Z
}.

Record bcache_t : Type := mkCache {
  next : gmap Z Z;
  prev : gmap Z Z;
  bufs : gmap Z buf_t
}.

Definition bhead : Z := 0.

(** What [bread] and [bwrite] need of the disk driver: transfers of whole
    blocks. *)
Class BlockDev (D : Type) : Type := {
  disk_read : D -> Z -> list Z;
  disk_write : D -> Z -> list Z -> D;
  disk_read_write : forall d b x, disk_read (disk_write d b x) b = x;
  disk_read_other : forall d b c x, b <> c -> disk_read (disk_write d b x) c = disk_read d c
}.

Section Bio.
Context {D : Type} `{!BlockDev D}.

Definition st : Type := bcache_t * D.

Definition getm (f : bcache_t -> gmap Z Z) (p : Z) : M st Z := fun s =>
  match f s.1 !! p with Some v => Done (v, s) | None => Fault end.
Definition set_next (p v : Z) : M st unit := fun s =>
  match next s.1 !! p with
  | Some _ => Done (tt, (mkCache (<[p := v]> (next s.1)) (prev s.1) (bufs s.1), s.2))
  | None => Fault
  end.
Definition set_prev (p v : Z) : M st unit := fun s =>
  match prev s.1 !! p with
  | Some _ => Done (tt, (mkCache (next s.1) (<[p := v]> (prev s.1)) (bufs s.1), s.2))
  | None => Fault
  end.
Definition getb (b : Z) : M st buf_t := fun s =>
  match bufs s.1 !! b with Some x => Done (x, s) | None => Fault end.
Definition setb (b : Z) (f : buf_t -> buf_t) : M st unit := fun s =>
  match bufs s.1 !! b with
  | Some x => Done (tt, (mkCache (next s.1) (prev s.1) (<[b := f x]> (bufs s.1)), s.2))
  | None => Fault
  end.

Definition set_valid (v : bool) (x : buf_t) : buf_t :=
  mkBuf v (dev x) (blockno x) (sem x) (refcnt x) (data x) (holding_task x).
Definition set_key (d b : Z) (x : buf_t) : buf_t :=
  mkBuf (valid x) d b (sem x) (refcnt x) (data x) (holding_task x).
Definition set_sem (v : Z) (x : buf_t) : buf_t :=
  mkBuf (valid x) (dev x) (blockno x) v (refcnt x) (data x) (holding_task x).
Definition set_refcnt (v : Z) (x : buf_t) : buf_t :=
  mkBuf (valid x) (dev x) (blockno x) (sem x) (u32 v) (data x) (holding_task x).
Definition set_data (v : list Z) (x : buf_t) : buf_t :=
  mkBuf (valid x) (dev x) (blockno x) (sem x) (refcnt x) v (holding_task x).
Definition set_holding (v : Z) (x : buf_t) : buf_t :=
  mkBuf (valid x) (dev x) (blockno x) (sem x) (refcnt x) (data x) v.

(** Pushing [b] behind the head, as [binit] and [brelse] do it. *)
Definition push_front (b : Z) : M st unit :=
  n <- getm next bhead;; set_next b n;;;
  set_prev b bhead;;;
  n <- getm next bhead;; set_prev n b;;;
  set_next bhead b.

Fixpoint binit_loop (k : nat) (b : Z) : M st unit :=
  match k with
  | O => ret tt
  | S k =>
    n <- getm next bhead;; set_next b n;;;
    set_prev b bhead;;;
    setb b (set_sem 1);;;
    n <- getm next bhead;; set_prev n b;;;
    set_next bhead b;;;
    binit_loop k (b + 1)
  end.

Definition binit : M st unit :=
  set_prev bhead bhead;;; set_next bhead bhead;;; binit_loop NBUF 1.

(** The two searches of [bget]. *)
Fixpoint find_cached (fuel : nat) (d n b : Z) : M st Z :=
  match fuel with
  | O => nofuel
  | S fuel =>
    if b =? bhead then ret bhead
    else x <- getb b;;
         if (dev x =? d) && (blockno x =? n) then ret b
         else b' <- getm next b;; find_cached fuel d n b'
  end.

Fixpoint find_unused (fuel : nat) (b : Z) : M st Z :=
  match fuel with
  | O => nofuel
  | S fuel =>
    if b =? bhead then ret bhead
    else x <- getb b;;
         if refcnt x =? 0 then ret b
         else b' <- getm prev b;; find_unused fuel b'
  end.

(** [lm_P] on the buffer's semaphore: whether the caller has it at once. *)
Definition lm_P (b : Z) : M st bool :=
  x <- getb b;; setb b (set_sem (s32 (sem x - 1)));;; ret (0 <=? s32 (sem x - 1)).
Definition lm_V (b : Z) : M st unit :=
  x <- getb b;; setb b (set_sem (s32 (sem x + 1))).

Definition list_fuel : M st nat := gets (fun s => S (size (bufs s.1))).

(** The buffer of the block, and whether the caller holds it (otherwise it
    sleeps in the semaphore's queue and goes on in [bget_woken]). *)
Definition bget_woken (pid b : Z) : M st unit := setb b (set_holding pid).

Definition bget (pid d n : Z) : M st (Z * bool) :=
  fuel <- list_fuel;;
  b <- getm next bhead;;
  b <- find_cached fuel d n b;;
  if negb (b =? bhead) then
    x <- getb b;; setb b (set_refcnt (refcnt x + 1));;;
    got <- lm_P b;; when got (bget_woken pid b);;; ret (b, got)
  else
    b <- getm prev bhead;;
    b <- find_unused fuel b;;
    if negb (b =? bhead) then
      setb b (set_key d n);;; setb b (set_valid false);;; setb b (set_refcnt 1);;;
      got <- lm_P b;; when got (bget_woken pid b);;; ret (b, got)
    else panic "bget: no buffers".

(** [virtio_disk_rw]: the driver's transfer between the buffer and its block. *)
Definition virtio_disk_rw (b : Z) (write : bool) : M st unit :=
  x <- getb b;;
  if write then modify (fun s => (s.1, disk_write s.2 (blockno x) (data x)))
  else d <- gets snd;; setb b (set_data (disk_read d (blockno x))).

(** The part of [bread] after [bget] has the buffer. *)
Definition bread_fill (b : Z) : M st unit :=
  x <- getb b;;
  when (negb (valid x)) (virtio_disk_rw b false;;; setb b (set_valid true)).

Definition bread (pid d n : Z) : M st (Z * bool) :=
  '(b, got) <- bget pid d n;;
  when got (bread_fill b);;; ret (b, got).

Definition bwrite (pid b : Z) : M st unit :=
  x <- getb b;;
  if negb (holding_task x =? pid) then panic "bwrite" else virtio_disk_rw b true.

Definition brelse (pid b : Z) : M st unit :=
  x <- getb b;;
  if negb (holding_task x =? pid) then panic "brelse"
  else
    lm_V b;;;
    x <- getb b;; setb b (set_refcnt (refcnt x - 1));;;
    x <- getb b;;
    when (refcnt x =? 0)
      (n <- getm next b;; p <- getm prev b;; set_prev n p;;;
       p <- getm prev b;; n <- getm next b;; set_next p n;;;
       push_front b).

Definition bpin (b : Z) : M st unit := x <- getb b;; setb b (set_refcnt (refcnt x + 1)).
Definition bunpin (b : Z) : M st unit := x <- getb b;; setb b (set_refcnt (refcnt x - 1)).

(** ** The list *)

(** From [a] the fields lead through [l] to [b], in both directions. *)
Fixpoint links (nx pv : gmap Z Z) (a : Z) (l : list Z) (b : Z) : Prop :=
  match l with
  | [] => nx !! a = Some b /\ pv !! b = Some a
  | x :: l => nx !! a = Some x /\ pv !! x = Some a /\ links nx pv x l b
  end.

Definition key (x : buf_t) : Z * Z := (dev x, blockno x).

(** [l] is the order of the buffers, the most recently used first. *)
Record bview (c : bcache_t) (l : list Z) : Prop := {
  bv_ring : links (next c) (prev c) bhead l bhead;
  bv_nodup : NoDup (bhead :: l);
  bv_bufs : forall b, b ∈ l <-> is_Some (bufs c !! b)
}.

(** No block is cached twice (the key (0, 0) is that of a buffer never used). *)
Definition cached_once (c : bcache_t) : Prop :=
  forall b1 b2 x1 x2, bufs c !! b1 = Some x1 -> bufs c !! b2 = Some x2 ->
    key x1 = key x2 -> key x1 <> (0, 0) -> b1 = b2.

(** The choices of [bget] on the order [l]. *)
Definition holds_key (c : bcache_t) (d n b : Z) : bool :=
  match bufs c !! b with Some x => (dev x =? d) && (blockno x =? n) | None => false end.
Definition unused (c : bcache_t) (b : Z) : bool :=
  match bufs c !! b with Some x => refcnt x =? 0 | None => false end.

Inductive choice : Type :=
| Hit (b : Z)
| Recycle (b : Z)
| NoBuffer.

Definition choose (c : bcache_t) (l : list Z) (d n : Z) : choice :=
  match List.find (holds_key c d n) l with
  | Some b => Hit b
  | None => match List.find (unused c) (rev l) with
            | Some b => Recycle b
            | None => NoBuffer
            end
  end.

End Bio.
