(* ===== verification/BioProofs.v ===== *)
(** * Proofs about the buffer cache *)
From S2P Require Import Prelude Bio.

(** ** The doubly linked list *)

Lemma links_frame nx pv nx' pv' a l b :
  (forall x, x ∈ a :: l -> nx' !! x = nx !! x) ->
  (forall x, x ∈ l ++ [b] -> pv' !! x = pv !! x) ->
  links nx pv a l b -> links nx' pv' a l b.
Proof.
  revert a. induction l as [|x l IH]; intros a Hn Hp; simpl.
  - intros [H1 H2]. rewrite Hn by set_solver. rewrite Hp by set_solver. done.
  - intros (H1 & H2 & H3). rewrite Hn by set_solver. rewrite Hp by set_solver.
    split; [done|]. split; [done|]. apply IH; [set_solver|set_solver|done].
Qed.

Lemma links_snoc nx pv a l x b :
  links nx pv a (l ++ [x]) b <-> links nx pv a l x /\ nx !! x = Some b /\ pv !! b = Some x.
Proof. revert a. induction l as [|y l IH]; intros a; simpl; [tauto|]. rewrite IH. tauto. Qed.

Lemma links_first nx pv a l b : links nx pv a l b -> nx !! a = Some (default b (head l)).
Proof. destruct l as [|x l]; simpl; tauto. Qed.

Lemma links_last nx pv a l b : links nx pv a l b -> pv !! b = Some (default a (last l)).
Proof.
  destruct l as [|x l _] using rev_ind; [simpl; tauto|]. rewrite last_snoc, links_snoc. tauto.
Qed.

(** Taking [x] out. *)
Lemma links_unlink nx pv a l1 x l2 b :
  links nx pv a (l1 ++ x :: l2) b -> NoDup (a :: l1 ++ x :: l2) -> b ∉ l1 ++ x :: l2 ->
  exists p n, nx !! x = Some n /\ pv !! x = Some p /\ p ∈ a :: l1 /\ n ∈ l2 ++ [b] /\
              links (<[p := n]> nx) (<[n := p]> pv) a (l1 ++ l2) b.
Proof.
  revert a. induction l1 as [|c l1 IH]; intros a; cbn [app links].
  - intros (H1 & H2 & H3) Hnd Hb. exists a, (default b (head l2)).
    split; [by eapply links_first|]. split; [done|]. split; [set_solver|].
    apply NoDup_cons in Hnd as [Ha Hnd]. apply NoDup_cons in Hnd as [Hx Hnd].
    destruct l2 as [|y l2]; simpl in *.
    + split; [set_solver|]. by rewrite !lookup_insert_eq.
    + destruct H3 as (H4 & H5 & H6). split; [set_solver|]. rewrite !lookup_insert_eq.
      split; [done|]. split; [done|]. apply NoDup_cons in Hnd as [Hy Hnd].
      eapply links_frame; [| |exact H6]; intros z Hz; apply lookup_insert_ne; set_solver.
  - intros (H1 & H2 & H3) Hnd Hb. apply NoDup_cons in Hnd as [Ha Hnd].
    destruct (IH c H3 Hnd) as (p & n & Hn & Hp & Hpin & Hnin & Hl); [set_solver|].
    exists p, n. split; [done|]. split; [done|]. split; [set_solver|]. split; [done|].
    apply NoDup_cons in Hnd as [Hc _].
    rewrite !lookup_insert_ne; [done| |]; set_solver.
Qed.

(** Putting [x] in front. *)
Lemma links_push nx pv l x n :
  links nx pv bhead l bhead -> x ∉ bhead :: l -> NoDup (bhead :: l) -> nx !! bhead = Some n ->
  links (<[bhead := x]> (<[x := n]> nx)) (<[n := x]> (<[x := bhead]> pv)) bhead (x :: l) bhead.
Proof.
  intros Hl Hx Hnd Hn. rewrite (links_first _ _ _ _ _ Hl) in Hn. injection Hn as <-. simpl.
  rewrite lookup_insert_eq. split; [done|].
  destruct l as [|y l]; simpl in *.
  - rewrite lookup_insert_ne by set_solver. rewrite !lookup_insert_eq.
    split; [done|]. rewrite lookup_insert_ne by set_solver. by rewrite lookup_insert_eq.
  - destruct Hl as (H1 & H2 & H3).
    rewrite lookup_insert_ne by set_solver. rewrite !lookup_insert_eq. split; [done|].
    rewrite lookup_insert_ne by set_solver. rewrite lookup_insert_eq. split; [done|].
    split; [done|]. apply NoDup_cons in Hnd as [Hh Hnd]. apply NoDup_cons in Hnd as [Hy _].
    eapply links_frame; [| |exact H3]; intros z Hz;
      rewrite !lookup_insert_ne by set_solver; done.
Qed.

Lemma links_pv nx pv a l b n : links nx pv a l b -> n ∈ l ++ [b] -> is_Some (pv !! n).
Proof.
  revert a. induction l as [|x l IH]; intros a; simpl.
  - intros [_ H] ->%list_elem_of_singleton. eauto.
  - intros (_ & H1 & H2) [->|Hn]%elem_of_cons; [eauto|by eapply IH].
Qed.

Lemma links_nx nx pv a l b p : links nx pv a l b -> p ∈ a :: l -> is_Some (nx !! p).
Proof.
  revert a. induction l as [|x l IH]; intros a; simpl.
  - intros [H _] ->%list_elem_of_singleton. eauto.
  - intros (H & _ & H2) [->|Hp]%elem_of_cons; [eauto|by eapply IH].
Qed.

Lemma filter_ne_id (b : Z) (l : list Z) : b ∉ l -> filter (fun y => y <> b) l = l.
Proof.
  induction l as [|x l IH]; intros H; [done|].
  rewrite filter_cons_True by set_solver. rewrite IH; [done|set_solver].
Qed.

Section Proofs.
Context {D : Type} `{!BlockDev D}.
Implicit Types (c : bcache_t) (dk : D).

Lemma getb_bind {B} b x c dk (K : buf_t -> M (st (D := D)) B) :
  bufs c !! b = Some x -> bind (getb b) K (c, dk) = K x (c, dk).
Proof. intros H. unfold bind, getb. simpl. by rewrite H. Qed.

Lemma setb_bind {B} b x c dk f (K : unit -> M (st (D := D)) B) :
  bufs c !! b = Some x ->
  bind (setb b f) K (c, dk) = K tt (mkCache (next c) (prev c) (<[b := f x]> (bufs c)), dk).
Proof. intros H. unfold bind, setb. simpl. by rewrite H. Qed.

Lemma getm_bind {B} (f : bcache_t -> gmap Z Z) p v c dk (K : Z -> M (st (D := D)) B) :
  f c !! p = Some v -> bind (getm f p) K (c, dk) = K v (c, dk).
Proof. intros H. unfold bind, getm. simpl. by rewrite H. Qed.

Lemma set_next_bind {B} p v c dk (K : unit -> M (st (D := D)) B) :
  is_Some (next c !! p) ->
  bind (set_next p v) K (c, dk) = K tt (mkCache (<[p := v]> (next c)) (prev c) (bufs c), dk).
Proof. intros [x H]. unfold bind, set_next. simpl. by rewrite H. Qed.

Lemma set_prev_bind {B} p v c dk (K : unit -> M (st (D := D)) B) :
  is_Some (prev c !! p) ->
  bind (set_prev p v) K (c, dk) = K tt (mkCache (next c) (<[p := v]> (prev c)) (bufs c), dk).
Proof. intros [x H]. unfold bind, set_prev. simpl. by rewrite H. Qed.

Lemma bview_size c l : bview c l -> (length l <= size (bufs c))%nat.
Proof.
  intros [_ Hnd Hb]. apply NoDup_cons in Hnd as [_ Hnd].
  rewrite <- size_dom. rewrite <- (size_list_to_set (C := gset Z) l) by done.
  apply subseteq_size. intros b Hin%elem_of_list_to_set. apply elem_of_dom. by apply Hb.
Qed.

Lemma bview_zero c l : bview c l -> bhead ∉ l.
Proof. intros [_ Hnd _]. by apply NoDup_cons in Hnd as [? _]. Qed.

Lemma bview_buf c l b : bview c l -> b ∈ l -> exists x, bufs c !! b = Some x /\ b <> bhead.
Proof.
  intros Hv Hb. pose proof (proj1 (bv_bufs _ _ Hv b) Hb) as [x Hx]. exists x.
  split; [done|]. intros ->. by apply (bview_zero _ _ Hv).
Qed.

(** Updating the record of a buffer of the list keeps the list. *)
Lemma bview_setb c l b x y :
  bview c l -> bufs c !! b = Some x ->
  bview (mkCache (next c) (prev c) (<[b := y]> (bufs c))) l.
Proof.
  intros [Hr Hnd Hb] Hx. split; [done|done|]. intros b'. rewrite Hb. simpl.
  destruct (decide (b' = b)) as [->|Hne].
  - rewrite lookup_insert_eq, Hx. split; eauto.
  - by rewrite lookup_insert_ne.
Qed.

Lemma find_cached_spec d n c dk fuel : forall a l,
  links (next c) (prev c) a l bhead -> bhead ∉ l -> (forall b, b ∈ l -> is_Some (bufs c !! b)) ->
  (length l < fuel)%nat ->
  find_cached fuel d n (default bhead (head l)) (c, dk) =
    Done (default bhead (List.find (holds_key c d n) l), (c, dk)).
Proof.
  induction fuel as [|fuel IH]; intros a l Hl Hh Hb Hf; [lia|]. cbn [find_cached].
  destruct l as [|x l]; cbn [head default from_option id List.find].
  { by rewrite Z.eqb_refl. }
  destruct Hl as (H1 & H2 & H3). destruct (Hb x) as [y Hy]; [by left|].
  rewrite (proj2 (Z.eqb_neq x bhead)) by set_solver.
  rewrite (getb_bind _ _ _ _ _ Hy). unfold holds_key at 1. rewrite Hy.
  destruct ((dev y =? d) && (blockno y =? n)); [done|].
  rewrite (getm_bind _ _ _ _ _ _ (links_first _ _ _ _ _ H3)).
  apply (IH x); [done|set_solver|set_solver|simpl in Hf; lia].
Qed.

Lemma find_unused_spec c dk l : forall fuel b,
  links (next c) (prev c) bhead l b -> bhead ∉ l -> (forall b, b ∈ l -> is_Some (bufs c !! b)) ->
  (length l < fuel)%nat ->
  find_unused fuel (default bhead (last l)) (c, dk) =
    Done (default bhead (List.find (unused c) (rev l)), (c, dk)).
Proof.
  induction l as [|x l IH] using rev_ind; intros [|fuel] b Hl Hh Hb Hf; try lia; cbn [find_unused].
  { done. }
  rewrite last_snoc, rev_app_distr. cbn [rev app default from_option id List.find].
  rewrite links_snoc in Hl. destruct Hl as (Hl & H1 & H2).
  destruct (Hb x) as [y Hy]; [set_solver|].
  rewrite (proj2 (Z.eqb_neq x bhead)) by set_solver.
  rewrite (getb_bind _ _ _ _ _ Hy). unfold unused at 1. rewrite Hy.
  destruct (refcnt y =? 0); [done|].
  rewrite (getm_bind _ _ _ _ _ _ (links_last _ _ _ _ _ Hl)).
  apply (IH fuel x Hl); [set_solver|set_solver|]. rewrite length_app in Hf. simpl in Hf. lia.
Qed.

(** The record that [bget] leaves in the buffer it returns. *)
Definition locked_by (pid : Z) (x : buf_t) : buf_t :=
  let y := set_sem (s32 (sem x - 1)) x in
  if 0 <=? s32 (sem x - 1) then set_holding pid y else y.

Lemma lock_buf pid b x c dk :
  bufs c !! b = Some x ->
  (got <- lm_P b;; when got (bget_woken pid b);;; ret (b, got)) (c, dk) =
    Done ((b, 0 <=? s32 (sem x - 1)),
          (mkCache (next c) (prev c) (<[b := locked_by pid x]> (bufs c)), dk)).
Proof.
  intros Hx. unfold lm_P. rewrite !bind_assoc, (getb_bind _ _ _ _ _ Hx).
  rewrite !bind_assoc, (setb_bind _ _ _ _ _ _ Hx), bind_ret. unfold locked_by.
  destruct (0 <=? s32 (sem x - 1)); cbn [when].
  - unfold bget_woken. erewrite setb_bind by (apply lookup_insert_eq).
    cbn [bufs next prev]. by rewrite insert_insert_eq.
  - done.
Qed.

Lemma bget_fuel_bind {B} c dk (K : nat -> M (st (D := D)) B) :
  bind list_fuel K (c, dk) = K (S (size (bufs c))) (c, dk).
Proof. reflexivity. Qed.

Lemma cached_once_update c b x y :
  cached_once c -> bufs c !! b = Some x -> key y = key x ->
  cached_once (mkCache (next c) (prev c) (<[b := y]> (bufs c))).
Proof.
  intros Hc Hx Hk b1 b2 x1 x2. simpl. rewrite !lookup_insert_Some.
  intros [[<- <-]|[Hn1 H1]] [[<- <-]|[Hn2 H2]] He Hz; try done.
  - eapply Hc; [exact Hx|exact H2| |]; congruence.
  - eapply Hc; [exact H1|exact Hx| |]; congruence.
  - by eapply Hc.
Qed.

Lemma cached_once_new c l b x y :
  bview c l -> cached_once c -> bufs c !! b = Some x ->
  (forall b', b' ∈ l -> holds_key c (dev y) (blockno y) b' = false) ->
  cached_once (mkCache (next c) (prev c) (<[b := y]> (bufs c))).
Proof.
  intros Hv Hc Hx Hnone b1 b2 x1 x2. simpl. rewrite !lookup_insert_Some.
  assert (forall b' x', bufs c !! b' = Some x' -> key x' <> key y) as Hne.
  { intros b' x' Hb' Hk. unfold key in Hk. injection Hk as Hd Hn.
    assert (b' ∈ l) as Hin by (apply (bv_bufs _ _ Hv); eauto).
    specialize (Hnone b' Hin). unfold holds_key in Hnone. rewrite Hb', Hd, Hn in Hnone.
    by rewrite !Z.eqb_refl in Hnone. }
  intros [[<- <-]|[Hn1 H1]] [[<- <-]|[Hn2 H2]] He Hz; try done.
  - by destruct (Hne b2 x2 H2).
  - by destruct (Hne b1 x1 H1).
  - by eapply Hc.
Qed.

Lemma find_none_holds c d n l b :
  List.find (holds_key c d n) l = None -> b ∈ l -> holds_key c d n b = false.
Proof. intros H Hb. eapply List.find_none; [exact H|]. by apply list_elem_of_In. Qed.

(** [bget] finds the cached block if there is one, otherwise recycles the
    least recently used buffer nobody refers to, otherwise panics; it keeps
    the list and never caches a block twice. *)
Theorem bget_refines pid d n c dk l :
  bview c l -> cached_once c -> (d, n) <> (0, 0) ->
  match choose c l d n with
  | Hit b => exists x, bufs c !! b = Some x /\ key x = (d, n) /\
      let c' := mkCache (next c) (prev c)
                  (<[b := locked_by pid (set_refcnt (refcnt x + 1) x)]> (bufs c)) in
      bget pid d n (c, dk) = Done ((b, 0 <=? s32 (sem x - 1)), (c', dk)) /\
      bview c' l /\ cached_once c'
  | Recycle b => exists x, bufs c !! b = Some x /\ refcnt x = 0 /\
      (forall b', b' ∈ l -> holds_key c d n b' = false) /\
      let c' := mkCache (next c) (prev c)
        (<[b := locked_by pid (set_refcnt 1 (set_valid false (set_key d n x)))]> (bufs c)) in
      bget pid d n (c, dk) = Done ((b, 0 <=? s32 (sem x - 1)), (c', dk)) /\
      bview c' l /\ cached_once c'
  | NoBuffer => bget pid d n (c, dk) = Panic "bget: no buffers"
  end.
Proof.
  intros Hv Hc Hdn. pose proof (bview_size _ _ Hv) as Hsz. pose proof (bview_zero _ _ Hv) as Hz.
  assert (forall b, b ∈ l -> is_Some (bufs c !! b)) as Hbs by (intros b; apply (bv_bufs _ _ Hv)).
  assert (bget pid d n (c, dk) =
    (if negb (default bhead (List.find (holds_key c d n) l) =? bhead) then
       x <- getb (default bhead (List.find (holds_key c d n) l));;
       setb (default bhead (List.find (holds_key c d n) l)) (set_refcnt (refcnt x + 1));;;
       got <- lm_P (default bhead (List.find (holds_key c d n) l));;
       when got (bget_woken pid (default bhead (List.find (holds_key c d n) l)));;;
       ret (default bhead (List.find (holds_key c d n) l), got)
     else
       let b := default bhead (List.find (unused c) (rev l)) in
       if negb (b =? bhead) then
         setb b (set_key d n);;; setb b (set_valid false);;; setb b (set_refcnt 1);;;
         got <- lm_P b;; when got (bget_woken pid b);;; ret (b, got)
       else panic "bget: no buffers") (c, dk)) as ->.
  { unfold bget. rewrite bget_fuel_bind.
    rewrite (getm_bind _ _ _ _ _ _ (links_first _ _ _ _ _ (bv_ring _ _ Hv))).
    erewrite bind_done by (eapply find_cached_spec; [apply Hv|done|done|lia]).
    destruct (default bhead (List.find (holds_key c d n) l) =? bhead); [|done]. cbn [negb].
    rewrite (getm_bind _ _ _ _ _ _ (links_last _ _ _ _ _ (bv_ring _ _ Hv))).
    by erewrite bind_done by (eapply find_unused_spec; [apply Hv|done|done|lia]). }
  unfold choose. destruct (List.find (holds_key c d n) l) as [b|] eqn:Hf; cbn [default from_option id].
  - apply List.find_some in Hf as [Hin%list_elem_of_In Hh].
    destruct (bview_buf _ _ _ Hv Hin) as (x & Hx & Hb0). exists x. split; [done|].
    unfold holds_key in Hh. rewrite Hx in Hh.
    apply andb_prop in Hh as [Hd%Z.eqb_eq Hn%Z.eqb_eq]. split; [by unfold key; rewrite Hd, Hn|].
    cbv zeta. split; [|split].
    + rewrite (proj2 (Z.eqb_neq b bhead)) by done. cbn [negb].
      rewrite (getb_bind _ _ _ _ _ Hx), (setb_bind _ _ _ _ _ _ Hx).
      erewrite lock_buf by (apply lookup_insert_eq). cbn [bufs next prev].
      by rewrite insert_insert_eq.
    + by eapply bview_setb.
    + eapply cached_once_update; [done|exact Hx|]. unfold locked_by. by destruct (0 <=? _).
  - rewrite Z.eqb_refl. cbn [negb]. destruct (List.find (unused c) (rev l)) as [b|] eqn:Hu; [|done].
    cbn [default from_option id]. apply List.find_some in Hu as [Hin Hr].
    rewrite <- in_rev in Hin. apply list_elem_of_In in Hin.
    destruct (bview_buf _ _ _ Hv Hin) as (x & Hx & Hb0). exists x. split; [done|].
    unfold unused in Hr. rewrite Hx in Hr. apply Z.eqb_eq in Hr. split; [done|].
    assert (forall b', b' ∈ l -> holds_key c d n b' = false) as Hnone
      by (intros b' Hb'; by eapply find_none_holds).
    split; [done|]. cbv zeta. split; [|split].
    + rewrite (proj2 (Z.eqb_neq b bhead)) by done. cbn [negb].
      rewrite (setb_bind _ _ _ _ _ _ Hx).
      do 2 (erewrite setb_bind by (apply lookup_insert_eq); cbn [bufs next prev];
            rewrite insert_insert_eq).
      erewrite lock_buf by (apply lookup_insert_eq). cbn [bufs next prev].
      by rewrite insert_insert_eq.
    + by eapply bview_setb.
    + eapply cached_once_new; [done|done|exact Hx|]. unfold locked_by.
      by destruct (0 <=? _).
Qed.

(** The valid buffers agree with the disk. *)
Definition coherent c dk : Prop :=
  forall b x, bufs c !! b = Some x -> valid x = true -> data x = disk_read dk (blockno x).

Lemma coherent_update c dk b y :
  coherent c dk -> (valid y = true -> data y = disk_read dk (blockno y)) ->
  coherent (mkCache (next c) (prev c) (<[b := y]> (bufs c))) dk.
Proof.
  intros Hc Hy b' x. simpl. rewrite lookup_insert_Some. intros [[<- <-]|[_ H]]; [done|].
  by apply (Hc b').
Qed.

(** After [bget] the buffer has the key; it is valid only if it was cached. *)
Lemma bget_buffer pid d n c dk l b got s' :
  bview c l -> cached_once c -> coherent c dk -> (d, n) <> (0, 0) ->
  bget pid d n (c, dk) = Done ((b, got), s') ->
  exists c' x, s' = (c', dk) /\ bview c' l /\ cached_once c' /\ coherent c' dk /\
    bufs c' !! b = Some x /\ key x = (d, n) /\ (got = true -> holding_task x = pid).
Proof.
  intros Hv Hc Hcoh Hdn HE. pose proof (bget_refines pid d n c dk l Hv Hc Hdn) as H.
  destruct (choose c l d n) as [b0|b0|]; [| |congruence].
  - destruct H as (x & Hx & Hk & HE' & Hv' & Hc'). rewrite HE in HE'. injection HE' as -> -> ->.
    eexists _, _. split; [done|]. split; [done|]. split; [done|]. split; [|split; [apply lookup_insert_eq|]].
    + apply coherent_update; [done|]. intros Hval. pose proof (Hcoh _ _ Hx) as Hxd. revert Hval.
      unfold locked_by. by destruct (0 <=? _).
    + unfold locked_by. by destruct (0 <=? _).
  - destruct H as (x & Hx & _ & _ & HE' & Hv' & Hc'). rewrite HE in HE'. injection HE' as -> -> ->.
    eexists _, _. split; [done|]. split; [done|]. split; [done|]. split; [|split; [apply lookup_insert_eq|]].
    + apply coherent_update; [done|]. unfold locked_by. by destruct (0 <=? _).
    + unfold locked_by. by destruct (0 <=? _).
Qed.

(** when every valid buffer agrees with the disk, [bread] of a block hands
    its holder a valid buffer with the contents of that block, and keeps the
    cache coherent and free of duplicates. *)
Theorem bread_contents pid d n c dk l b s' :
  bview c l -> cached_once c -> coherent c dk -> (d, n) <> (0, 0) ->
  bread pid d n (c, dk) = Done ((b, true), s') ->
  exists c' x, s' = (c', dk) /\ bufs c' !! b = Some x /\ key x = (d, n) /\ valid x = true /\
    data x = disk_read dk n /\ holding_task x = pid /\
    bview c' l /\ cached_once c' /\ coherent c' dk.
Proof.
  intros Hv Hc Hcoh Hdn HE. unfold bread in HE.
  apply bind_inv in HE as ([b0 got] & s1 & HE & HK).
  destruct got; [|by injection HK].
  destruct (bget_buffer _ _ _ _ _ _ _ _ _ Hv Hc Hcoh Hdn HE)
    as (c1 & x & -> & Hv1 & Hc1 & Hcoh1 & Hx & Hk & Hh).
  cbn [when] in HK. apply bind_inv in HK as ([] & s2 & HK & HR). injection HR as -> ->.
  unfold bread_fill in HK. rewrite (getb_bind _ _ _ _ _ Hx) in HK.
  assert (blockno x = n) as Hn by (unfold key in Hk; congruence).
  destruct (valid x) eqn:Hval; cbn [negb when] in HK.
  - injection HK as <-. exists c1, x. split_and!; try done; [|by apply Hh].
    rewrite <- Hn. by apply (Hcoh1 b).
  - unfold virtio_disk_rw in HK. rewrite bind_assoc, (getb_bind _ _ _ _ _ Hx), bind_assoc, bind_gets in HK.
    rewrite (setb_bind _ _ _ _ _ _ Hx) in HK. unfold setb in HK. cbn [bufs fst snd next prev] in HK.
    rewrite lookup_insert_eq, insert_insert_eq in HK. injection HK as <-.
    eexists _, _. split; [done|]. cbn [bufs]. split; [apply lookup_insert_eq|].
    split; [done|]. split; [done|]. split; [by rewrite <- Hn|]. split; [by apply Hh|].
    split; [by eapply bview_setb|]. split; [by eapply cached_once_update|].
    by apply coherent_update.
Qed.

Lemma push_front_spec c dk l b x :
  links (next c) (prev c) bhead l bhead -> NoDup (bhead :: b :: l) ->
  is_Some (next c !! b) -> is_Some (prev c !! b) -> bufs c !! b = Some x ->
  exists nx pv, push_front b (c, dk) = Done (tt, (mkCache nx pv (bufs c), dk)) /\
    links nx pv bhead (b :: l) bhead.
Proof.
  intros Hl Hnd Hn Hp Hx. unfold push_front.
  apply NoDup_cons in Hnd as [Hh Hnd]. pose proof Hnd as [Hb Hnd']%NoDup_cons.
  pose proof (links_first _ _ _ _ _ Hl) as Hf. pose proof (links_last _ _ _ _ _ Hl) as Hla.
  rewrite (getm_bind _ _ _ _ _ _ Hf), set_next_bind by done. cbn [next prev bufs].
  rewrite set_prev_bind by done. cbn [next prev bufs].
  erewrite getm_bind by (cbn [next]; rewrite lookup_insert_ne by set_solver; exact Hf).
  rewrite set_prev_bind.
  2:{ cbn [prev]. destruct (decide (default bhead (head l) = b)) as [->|Hne];
        [rewrite lookup_insert_eq; eauto|rewrite lookup_insert_ne by done].
      destruct l as [|y l]; simpl in *; [rewrite Hla; eauto|]. destruct Hl as (_ & -> & _). eauto. }
  unfold set_next. cbn [next prev bufs fst snd].
  rewrite lookup_insert_ne, Hf by set_solver. eexists _, _. split; [reflexivity|].
  apply links_push; [done|set_solver|apply NoDup_cons; split; [set_solver|done]|done].
Qed.

(** [brelse] by the task that holds the buffer drops one reference; the
    last one moves the buffer to the most recently used end and leaves the
    others in order; any other task panics. *)
Theorem brelse_moves_front pid b x c dk l :
  bview c l -> bufs c !! b = Some x ->
  if holding_task x =? pid then
    exists c', brelse pid b (c, dk) = Done (tt, (c', dk)) /\
      bview c' (if u32 (refcnt x - 1) =? 0 then b :: filter (fun y => y <> b) l else l) /\
      bufs c' = <[b := set_refcnt (refcnt x - 1) (set_sem (s32 (sem x + 1)) x)]> (bufs c)
  else brelse pid b (c, dk) = Panic "brelse".
Proof.
  intros Hv Hx. unfold brelse. rewrite (getb_bind _ _ _ _ _ Hx).
  destruct (Z.eqb_spec (holding_task x) pid) as [Hp|Hp]; cbn [negb]; [|done].
  unfold lm_V. rewrite bind_assoc, (getb_bind _ _ _ _ _ Hx), (setb_bind _ _ _ _ _ _ Hx).
  erewrite getb_bind by (cbn [bufs]; apply lookup_insert_eq).
  erewrite setb_bind by (cbn [bufs]; apply lookup_insert_eq). cbn [bufs next prev].
  rewrite insert_insert_eq.
  erewrite getb_bind by (cbn [bufs]; apply lookup_insert_eq).
  set (y := set_refcnt (refcnt (set_sem (s32 (sem x + 1)) x) - 1) (set_sem (s32 (sem x + 1)) x)).
  change (refcnt y) with (u32 (refcnt x - 1)).
  destruct (u32 (refcnt x - 1) =? 0); cbn [when].
  2:{ eexists. split; [reflexivity|]. split; [by eapply bview_setb|done]. }
  destruct Hv as [Hr Hnd Hb].
  assert (b ∈ l) as Hin by (apply Hb; eauto). apply list_elem_of_split in Hin as (l1 & l2 & ->).
  pose proof Hnd as [Hh Hnd1]%NoDup_cons.
  destruct (links_unlink _ _ _ _ _ _ _ Hr Hnd Hh) as (p & n & Hn & Hpv & Hpin & Hnin & Hl).
  assert (filter (fun z => z <> b) (l1 ++ b :: l2) = l1 ++ l2) as Hfil.
  { apply NoDup_app in Hnd1 as (_ & Hd & Hnd2). apply NoDup_cons in Hnd2 as [Hb2 _].
    rewrite filter_app, filter_cons_False by tauto.
    rewrite !filter_ne_id; [done|set_solver|set_solver]. }
  assert (p <> b /\ n <> b) as [Hpb Hnb].
  { apply NoDup_app in Hnd1 as (_ & Hd & Hnd2). apply NoDup_cons in Hnd2 as [Hb2 _].
    split; intros ->; set_solver. }
  erewrite getm_bind by (cbn [next]; exact Hn).
  erewrite getm_bind by (cbn [prev]; exact Hpv).
  assert (is_Some (prev c !! n)) as Hpn by (eapply links_pv; [exact Hr|set_solver]).
  assert (is_Some (next c !! p)) as Hnp by (eapply links_nx; [exact Hr|set_solver]).
  rewrite set_prev_bind by done. cbn [next prev bufs].
  erewrite getm_bind by (cbn [prev]; rewrite lookup_insert_ne by done; exact Hpv).
  erewrite getm_bind by (cbn [next]; exact Hn).
  rewrite set_next_bind by done. cbn [next prev bufs].
  edestruct (push_front_spec (mkCache (<[p := n]> (next c)) (<[n := p]> (prev c)) (<[b := y]> (bufs c)))
    dk (l1 ++ l2) b y) as (nx & pv & HE & HL); cbn [next prev bufs].
  - exact Hl.
  - rewrite <- Permutation_middle in Hnd. exact Hnd.
  - rewrite lookup_insert_ne by done. eauto.
  - rewrite lookup_insert_ne by done. eauto.
  - apply lookup_insert_eq.
  - cbn [bufs] in HE. rewrite HE. eexists. split; [reflexivity|]. split; [|done].
    rewrite Hfil. split; [done| |].
    + by rewrite <- Permutation_middle in Hnd.
    + intros z. simpl. rewrite Permutation_middle, Hb. destruct (decide (z = b)) as [->|Hne].
      * rewrite lookup_insert_eq. rewrite Hx. split; eauto.
      * by rewrite lookup_insert_ne.
Qed.

(** The buffers [b], [b + 1], ... in the order in which [binit] leaves them. *)
Fixpoint inited (k : nat) (b : Z) (l : list Z) : list Z :=
  match k with O => l | S k => inited k (b + 1) (b :: l) end.

Lemma binit_loop_spec k : forall b c dk l,
  links (next c) (prev c) bhead l bhead -> NoDup (bhead :: l) -> (forall y, y ∈ l -> y < b) -> 0 < b ->
  (forall y, b <= y < b + Z.of_nat k -> is_Some (next c !! y) /\ is_Some (prev c !! y)) ->
  (forall y, b <= y < b + Z.of_nat k -> is_Some (bufs c !! y)) ->
  exists c', binit_loop k b (c, dk) = Done (tt, (c', dk)) /\
    links (next c') (prev c') bhead (inited k b l) bhead /\ NoDup (bhead :: inited k b l) /\
    (forall y, bufs c' !! y = if decide (b <= y < b + Z.of_nat k)
                              then set_sem 1 <$> bufs c !! y else bufs c !! y).
Proof.
  induction k as [|k IH]; intros b c dk l Hl Hnd Hlt Hb Hnp Hbs; cbn [binit_loop inited].
  { exists c. split_and!; try done. intros y. by rewrite decide_False by lia. }
  pose proof Hnd as [Hh Hnd']%NoDup_cons.
  assert (b ∉ l) as Hbl by (intros Hin; specialize (Hlt b Hin); lia).
  pose proof (links_first _ _ _ _ _ Hl) as Hf. pose proof (links_last _ _ _ _ _ Hl) as Hla.
  destruct (Hbs b) as [x Hx]; [lia|]. destruct (Hnp b) as [Hn Hp]; [lia|].
  rewrite (getm_bind _ _ _ _ _ _ Hf), set_next_bind by done. cbn [next prev bufs].
  rewrite set_prev_bind by done. cbn [next prev bufs].
  erewrite setb_bind by (cbn [bufs]; exact Hx). cbn [next prev bufs].
  erewrite getm_bind by (cbn [next]; rewrite lookup_insert_ne by (unfold bhead; lia); exact Hf).
  rewrite set_prev_bind.
  2:{ cbn [prev]. destruct (decide (default bhead (head l) = b)) as [->|Hne];
        [rewrite lookup_insert_eq; eauto|rewrite lookup_insert_ne by done].
      eapply links_pv; [exact Hl|]. destruct l as [|y l]; simpl; set_solver. }
  cbn [next prev bufs].
  rewrite set_next_bind by (cbn [next]; rewrite lookup_insert_ne by (unfold bhead; lia); eauto).
  cbn [next prev bufs].
  edestruct (IH (b + 1) (mkCache (<[bhead := b]> (<[b := default bhead (head l)]> (next c)))
      (<[default bhead (head l) := b]> (<[b := bhead]> (prev c))) (<[b := set_sem 1 x]> (bufs c)))
      dk (b :: l)) as (c' & HE & H1 & H2 & H3); cbn [next prev bufs].
  - apply links_push; [done|intros [E|Hin]%elem_of_cons; [unfold bhead in E; lia|done]|done|done].
  - apply NoDup_cons. split; [intros [E|Hin]%elem_of_cons; [unfold bhead in E; lia|done]|]. apply NoDup_cons. by split.
  - intros y [->|Hy]%elem_of_cons; [lia|]. specialize (Hlt y Hy). lia.
  - lia.
  - intros y Hy. destruct (Hnp y) as [Hny Hpy]; [lia|]. split.
    + rewrite !lookup_insert_ne by (unfold bhead; lia). done.
    + destruct (decide (default bhead (head l) = y)) as [->|Hne];
        [rewrite lookup_insert_eq; eauto|]. rewrite !lookup_insert_ne by (done || lia). done.
  - intros y Hy. rewrite lookup_insert_ne by lia. apply Hbs. lia.
  - exists c'. split; [exact HE|]. split; [done|]. split; [done|]. intros y. rewrite H3. cbn [bufs].
    destruct (decide (y = b)) as [->|Hne].
    + rewrite decide_False, decide_True, lookup_insert_eq by lia. by rewrite Hx.
    + rewrite lookup_insert_ne by done.
      destruct (decide (b <= y < b + Z.of_nat (S k))) as [Hy|Hy];
        [rewrite decide_True by lia; done|rewrite decide_False by lia; done].
Qed.

Lemma inited_elem k : forall b l y, y ∈ inited k b l <-> y ∈ l \/ b <= y < b + Z.of_nat k.
Proof.
  induction k as [|k IH]; intros b l y; cbn [inited]; [split; [auto|intros [?|?]; [done|lia]]|].
  rewrite IH, elem_of_cons. split.
  - intros [[->|?]|?]; [right; lia|by left|right; lia].
  - intros [?|?]; [by left; right|]. destruct (decide (y = b)); [by left; left|right; lia].
Qed.

(** [binit] links all 100 buffers, whatever the static memory held in the
    link fields, with every semaphore at one, and leaves keys and reference
    counts alone: from zeroed memory the cache is well formed. *)
Theorem binit_well_formed c dk :
  (forall b, 0 <= b <= Z.of_nat NBUF -> is_Some (next c !! b) /\ is_Some (prev c !! b)) ->
  (forall b, 1 <= b <= Z.of_nat NBUF <-> is_Some (bufs c !! b)) ->
  (forall b x, bufs c !! b = Some x -> key x = (0, 0)) ->
  exists c' l, binit (c, dk) = Done (tt, (c', dk)) /\ bview c' l /\ cached_once c' /\
    bufs c' = set_sem 1 <$> bufs c /\ length l = NBUF.
Proof.
  intros Hnp Hb Hk. unfold binit. destruct (Hnp bhead) as [Hn0 Hp0]; [unfold bhead; lia|].
  rewrite set_prev_bind by done. cbn [next prev bufs].
  rewrite set_next_bind by done. cbn [next prev bufs].
  edestruct (binit_loop_spec NBUF 1
    (mkCache (<[bhead := bhead]> (next c)) (<[bhead := bhead]> (prev c)) (bufs c)) dk [])
    as (c' & HE & Hl & Hnd & Hbs); cbn [next prev bufs links].
  - by rewrite !lookup_insert_eq.
  - apply NoDup_singleton.
  - set_solver.
  - lia.
  - intros y Hy. rewrite !lookup_insert_ne by (unfold bhead; lia). apply Hnp. lia.
  - intros y Hy. apply Hb. lia.
  - assert (bufs c' = set_sem 1 <$> bufs c) as Heq.
    { apply map_eq. intros y. rewrite Hbs, lookup_fmap. cbn [bufs].
      destruct (decide (1 <= y < 1 + Z.of_nat NBUF)) as [Hy|Hy]; [done|].
      destruct (bufs c !! y) as [x|] eqn:Hx; [|done].
      assert (1 <= y <= Z.of_nat NBUF) by (apply Hb; eauto). lia. }
    exists c', (inited NBUF 1 []). split; [exact HE|]. split.
    + split; [done|done|]. intros b. rewrite inited_elem, Heq, lookup_fmap, fmap_is_Some, <- Hb.
      split; [intros [?%elem_of_nil|?]; [done|lia]|intros ?; right; lia].
    + split; [|split; [done|reflexivity]]. intros b1 b2 x1 x2. rewrite Heq, !lookup_fmap.
      intros H1 _ _ Hne. apply fmap_Some in H1 as (z & Hz & ->). by apply Hk in Hz.
Qed.

End Proofs.

(** ** Runs on two buffers *)

#[export] Instance map_disk : BlockDev (gmap Z (list Z)).
Proof.
  refine {| disk_read := fun d b => default [] (d !! b); disk_write := fun d b x => <[b := x]> d |}.
  - intros d b x. by rewrite lookup_insert_eq.
  - intros d b c x H. by rewrite lookup_insert_ne.
Defined.

Definition demo_buf (d n ref : Z) : buf_t := mkBuf (negb (n =? 0)) d n 1 ref [n] 7.
Definition demo_cache : bcache_t :=
  mkCache (list_to_map [(0, 1); (1, 2); (2, 0)]) (list_to_map [(0, 2); (1, 0); (2, 1)])
          (list_to_map [(1, demo_buf 1 5 1); (2, demo_buf 0 0 0)]).
Definition demo_disk : gmap Z (list Z) := list_to_map [(5, [5]); (6, [6; 6])].

Lemma demo_bview : bview demo_cache [1; 2].
Proof.
  split.
  - by vm_compute.
  - apply (bool_decide_unpack _). by vm_compute.
  - intros b. unfold demo_cache. cbn [bufs]. split.
    + intros [->|[->|?%elem_of_nil]%elem_of_cons]%elem_of_cons; [| |done]; vm_compute; eauto.
    + intros [x Hx]. apply elem_of_list_to_map_2 in Hx. set_solver.
Qed.

Lemma demo_once : cached_once demo_cache.
Proof.
  intros b1 b2 x1 x2 H1 H2. apply elem_of_list_to_map_2 in H1, H2. intros Hk Hz.
  set_unfold. destruct H1 as [[= -> ->]|[[= -> ->]|[]]]; destruct H2 as [[= -> ->]|[[= -> ->]|[]]]; done.
Qed.

Lemma demo_coherent : coherent demo_cache demo_disk.
Proof.
  intros b x H Hv. apply elem_of_list_to_map_2 in H. set_unfold.
  destruct H as [[= -> ->]|[[= -> ->]|[]]]; [by vm_compute|done].
Qed.

Lemma bget_refines_witness :
  exists c', bget 9 1 6 (demo_cache, demo_disk) = Done ((2, true), (c', demo_disk)) /\ bview c' [1; 2].
Proof.
  destruct (bget_refines 9 1 6 demo_cache demo_disk [1; 2] demo_bview demo_once ltac:(discriminate))
    as (x & Hx & _ & _ & HE & HV & _).
  injection (eq_trans (eq_sym Hx) (eq_refl : bufs demo_cache !! 2 = Some (demo_buf 0 0 0))) as ->.
  eexists. split; [exact HE|exact HV].
Defined.

Definition demo_read : Z * bool * (bcache_t * gmap Z (list Z)) :=
  match bread 9 1 6 (demo_cache, demo_disk) with
  | Done r => r
  | _ => (0, false, (demo_cache, demo_disk))
  end.

Lemma bread_contents_witness :
  exists c' x, demo_read.2 = (c', demo_disk) /\ bufs c' !! 2 = Some x /\ data x = [6; 6].
Proof.
  destruct (bread_contents 9 1 6 demo_cache demo_disk [1; 2] 2 demo_read.2 demo_bview demo_once
    demo_coherent ltac:(discriminate) ltac:(vm_compute; reflexivity))
    as (c' & x & H1 & H2 & _ & _ & H3 & _).
  exists c', x. split; [exact H1|]. split; [exact H2|exact H3].
Defined.

Lemma brelse_moves_front_witness :
  exists c', brelse 7 1 (demo_cache, demo_disk) = Done (tt, (c', demo_disk)) /\ bview c' [1; 2].
Proof.
  destruct (brelse_moves_front 7 1 (demo_buf 1 5 1) demo_cache demo_disk [1; 2] demo_bview eq_refl)
    as (c' & HE & HV & _).
  exists c'. split; [exact HE|exact HV].
Defined.

Definition raw_cache : bcache_t :=
  mkCache (list_to_map ((fun n => (Z.of_nat n, 77)) <$> seq 0 101))
          (list_to_map ((fun n => (Z.of_nat n, 88)) <$> seq 0 101))
          (list_to_map ((fun n => (Z.of_nat n, mkBuf false 0 0 0 0 [] 0)) <$> seq 1 100)).

Lemma seq_map_lookup {A} (x : A) k n b :
  is_Some ((list_to_map ((fun n => (Z.of_nat n, x)) <$> seq k n) : gmap Z A) !! b) <->
  Z.of_nat k <= b < Z.of_nat (k + n).
Proof.
  rewrite <- elem_of_dom, dom_list_to_map, elem_of_list_to_set.
  rewrite <- list_fmap_compose. rewrite list_elem_of_fmap. simpl. split.
  - intros (m & -> & Hm%elem_of_seq). lia.
  - intros H. exists (Z.to_nat b). split; [lia|]. apply elem_of_seq. lia.
Qed.

Lemma binit_well_formed_witness :
  exists c' l, binit (raw_cache, demo_disk) = Done (tt, (c', demo_disk)) /\ bview c' l.
Proof.
  destruct (binit_well_formed raw_cache demo_disk) as (c' & l & HE & HV & _).
  - intros b Hb. unfold raw_cache. cbn [next prev]. unfold NBUF in Hb.
    split; apply seq_map_lookup; lia.
  - intros b. unfold raw_cache. cbn [bufs]. rewrite seq_map_lookup. unfold NBUF. lia.
  - intros b x Hx. unfold raw_cache in Hx. cbn [bufs] in Hx.
    apply elem_of_list_to_map_2 in Hx. apply list_elem_of_fmap in Hx as (m & [= _ ->] & _). done.
  - exists c', l. split; [exact HE|exact HV].
Defined.
