(* ===== verification/Fs.v ===== *)
(** * The file system: fs.c and [create] of sysfile.c

    Blocks are lists of [BSIZE] bytes.  The buffer cache shows what [bread]
    returns, the disk what [bwrite] has saved; a block that nobody holds may
    leave the cache ([evict]).  The file system runs under [fs_lock], one
    operation at a time: asking for a buffer or an inode lock that is taken
    is [Blocked], or a panic of [sched] when a spin lock is held ([iput]).  Inodes are their slots in [itable]. *)
From S2P Require Import Prelude.

Definition BSIZE : Z := 1024.
Definition FSMAGIC : Z := 4741210.      (* 0x0048525a *)
Definition NDIRECT : Z := 12.
Definition NINDIRECT : Z := 256.
Definition MAXFILE : Z := NDIRECT + NINDIRECT.
Definition IPB : Z := 16.
Definition BPB : Z := 8192.
Definition DIRSIZ : nat := 14.
Definition DPB : Z := 64.
Definition NINODE : Z := 100.
Definition ROOTDEV : Z := 1.
Definition ROOTINO : Z := 1.
Definition T_DIR : Z := 1.
Definition T_FILE : Z := 2.
Definition T_DEVICE : Z := 3.

Definition s16 (z : Z) : Z := (z + 2 ^ 15) mod 2 ^ 16 - 2 ^ 15.

(** ** Bytes of a block *)

Fixpoint le_val (l : list Z) : Z :=
  match l with [] => 0 | b :: l => b + 256 * le_val l end.
Fixpoint le_bytes (k : nat) (v : Z) : list Z :=
  match k with O => [] | S k => v mod 256 :: le_bytes k (v / 256) end.
Definition slice (off n : Z) (l : list Z) : list Z := take (Z.to_nat n) (drop (Z.to_nat off) l).
Definition splice (off : Z) (x l : list Z) : list Z :=
  take (Z.to_nat off) l ++ x ++ drop (Z.to_nat off + length x) l.
(** The field of [k] bytes at [off]. *)
Definition fld (k : nat) (off : Z) (l : list Z) : Z := le_val (slice off (Z.of_nat k) l).
Definition set_fld (k : nat) (off v : Z) (l : list Z) : list Z := splice off (le_bytes k v) l.

Record superblock : Type := mkSb {
  magic : Z; size : Z; nblocks : Z; ninodes : Z; inodestart : Z; bmapstart : Z
}.

Record inode_t : Type := mkInode {
  dev : Z;
  inum : Z;
  iref : Z;
  valid : bool;
  lock : Z;              (* the semaphore's counter *)
  itype : Z;
  major : Z;
  minor : Z;
  nlink : Z;
  isize : Z;
  addrs : list Z         (* NDIRECT + 1 block numbers *)
}.

(** What the file system needs of [either_copyout] and [either_copyin]: the
    transfer to or from an address of the current task, whether all of it
    went well, and in the second case the bytes that came. *)
Class UserCopy (U : Type) : Type := {
  copy_out : Z -> list Z -> U -> U * bool;
  copy_in : Z -> Z -> U -> list Z * bool;
  copy_in_all : forall p n u l, copy_in p n u = (l, true) -> length l = Z.to_nat n
}.

(** [IBLOCK] is computed in 64 bits, [BBLOCK] in 32. *)
Definition IBLOCK (i : Z) (sb : superblock) : Z := i / IPB + inodestart sb.
Definition BBLOCK (b : Z) (sb : superblock) : Z := u32 (b / BPB + bmapstart sb).

Section Fs.
Context {U : Type} `{!UserCopy U}.

(** A buffer is named by its device and block number. *)
Record fs : Type := mkFs {
  cache : gmap (Z * Z) (list Z);
  dsk : gmap Z (list Z);
  held : list (Z * Z);
  sb : superblock;
  datastart : Z;
  itable : gmap Z inode_t;
  cwd : Z;
  umem : U
}.

Definition st (A : Type) : Type := M fs A.

Definition set_cache (c : gmap (Z * Z) (list Z)) (s : fs) : fs :=
  mkFs c (dsk s) (held s) (sb s) (datastart s) (itable s) (cwd s) (umem s).
Definition set_dsk (d : gmap Z (list Z)) (s : fs) : fs :=
  mkFs (cache s) d (held s) (sb s) (datastart s) (itable s) (cwd s) (umem s).
Definition set_held (h : list (Z * Z)) (s : fs) : fs :=
  mkFs (cache s) (dsk s) h (sb s) (datastart s) (itable s) (cwd s) (umem s).
Definition set_sb (b : superblock) (s : fs) : fs :=
  mkFs (cache s) (dsk s) (held s) b (datastart s) (itable s) (cwd s) (umem s).
Definition set_datastart (d : Z) (s : fs) : fs :=
  mkFs (cache s) (dsk s) (held s) (sb s) d (itable s) (cwd s) (umem s).
Definition set_itable (t : gmap Z inode_t) (s : fs) : fs :=
  mkFs (cache s) (dsk s) (held s) (sb s) (datastart s) t (cwd s) (umem s).
Definition set_umem (u : U) (s : fs) : fs :=
  mkFs (cache s) (dsk s) (held s) (sb s) (datastart s) (itable s) (cwd s) u.

(** ** Buffers *)

(** The contents of a block: those in the cache, else those on the disk; the
    driver panics on a block the disk does not have. *)
Definition block (s : fs) (b : Z * Z) : option (list Z) :=
  match cache s !! b with Some d => Some d | None => dsk s !! b.2 end.

Definition bread (dev n : Z) : st (Z * Z) := fun s =>
  if bool_decide ((dev, n) ∈ held s) then Blocked
  else match block s (dev, n) with
       | Some d => Done ((dev, n), set_held ((dev, n) :: held s) (set_cache (<[(dev, n) := d]> (cache s)) s))
       | None => Panic "virtio_disk_intr status"
       end.
Definition brelse (b : Z * Z) : st unit := fun s =>
  if bool_decide (b ∈ held s) then Done (tt, set_held (filter (fun c => c <> b) (held s)) s)
  else Panic "brelse".
Definition bdata (b : Z * Z) : st (list Z) := fun s =>
  match cache s !! b with Some d => Done (d, s) | None => Fault end.
Definition set_bdata (b : Z * Z) (d : list Z) : st unit := modify (fun s => set_cache (<[b := d]> (cache s)) s).
Definition bwrite (b : Z * Z) : st unit := fun s =>
  if bool_decide (b ∈ held s) then
    match cache s !! b with
    | Some d => Done (tt, set_dsk (<[b.2 := d]> (dsk s)) s)
    | None => Fault
    end
  else Panic "bwrite".
(** The cache drops a block to make room for another. *)
Definition evict (b : Z * Z) (s : fs) : fs :=
  if bool_decide (b ∈ held s) then s else set_cache (delete b (cache s)) s.

(** ** The inode table *)

Definition geti (ip : Z) : st inode_t := fun s =>
  match itable s !! ip with Some x => Done (x, s) | None => Fault end.
Definition seti (ip : Z) (f : inode_t -> inode_t) : st unit := fun s =>
  match itable s !! ip with
  | Some x => Done (tt, set_itable (<[ip := f x]> (itable s)) s)
  | None => Fault
  end.

Definition with_key (d n : Z) (x : inode_t) : inode_t :=
  mkInode d n 1 false (lock x) (itype x) (major x) (minor x) (nlink x) (isize x) (addrs x).
Definition with_ref (r : Z) (x : inode_t) : inode_t :=
  mkInode (dev x) (inum x) r (valid x) (lock x) (itype x) (major x) (minor x) (nlink x) (isize x) (addrs x).
Definition with_valid (v : bool) (x : inode_t) : inode_t :=
  mkInode (dev x) (inum x) (iref x) v (lock x) (itype x) (major x) (minor x) (nlink x) (isize x) (addrs x).
Definition with_lock (l : Z) (x : inode_t) : inode_t :=
  mkInode (dev x) (inum x) (iref x) (valid x) l (itype x) (major x) (minor x) (nlink x) (isize x) (addrs x).
Definition with_type (t : Z) (x : inode_t) : inode_t :=
  mkInode (dev x) (inum x) (iref x) (valid x) (lock x) (s16 t) (major x) (minor x) (nlink x) (isize x) (addrs x).
Definition with_majmin (a b : Z) (x : inode_t) : inode_t :=
  mkInode (dev x) (inum x) (iref x) (valid x) (lock x) (itype x) (s16 a) (s16 b) (nlink x) (isize x) (addrs x).
Definition with_nlink (n : Z) (x : inode_t) : inode_t :=
  mkInode (dev x) (inum x) (iref x) (valid x) (lock x) (itype x) (major x) (minor x) (s16 n) (isize x) (addrs x).
Definition with_size (n : Z) (x : inode_t) : inode_t :=
  mkInode (dev x) (inum x) (iref x) (valid x) (lock x) (itype x) (major x) (minor x) (nlink x) (u32 n) (addrs x).
Definition with_addr (i v : Z) (x : inode_t) : inode_t :=
  mkInode (dev x) (inum x) (iref x) (valid x) (lock x) (itype x) (major x) (minor x) (nlink x) (isize x)
          (arr_set (addrs x) i v).

(** [ip->addrs[i]]. *)
Definition get_addr (x : inode_t) (i : Z) : st Z := fun s =>
  match arr_get (addrs x) i with Some a => Done (a, s) | None => Fault end.

(** [lm_P] and [lm_V] on the inode's lock. *)
Definition lm_P (ip : Z) : st unit := fun s =>
  match itable s !! ip with
  | Some x => if lock x <=? 0 then Blocked
              else Done (tt, set_itable (<[ip := with_lock (lock x - 1) x]> (itable s)) s)
  | None => Fault
  end.
Definition lm_V (ip : Z) : st unit := seti ip (fun x => with_lock (lock x + 1) x).

(** ** The super block *)

Definition sb_of (l : list Z) : superblock :=
  mkSb (fld 4 0 l) (fld 4 4 l) (fld 4 8 l) (fld 4 12 l) (fld 4 16 l) (fld 4 20 l).

Definition readsb (dev : Z) : st unit :=
  bp <- bread dev 1;; d <- bdata bp;; modify (set_sb (sb_of d));;; brelse bp.

Definition get_datastart (b : superblock) : Z :=
  let bits := nblocks b / BPB in
  let Bs := u32 (bits * 8) in
  let blocks := u32 (Bs + BSIZE - 1) / BSIZE in
  u32 (bmapstart b + blocks).

Definition fs_init (dev : Z) : st unit :=
  readsb dev;;;
  b <- gets sb;;
  if negb (magic b =? FSMAGIC) then panic "invalid file system"
  else
    modify (set_datastart (get_datastart b));;;
    modify (fun s => set_itable (fmap (with_lock 1) (itable s)) s).

(** ** Free blocks *)

(** The loop of [balloc]: [k] blocks to go, from block [i]; [b] is the buffer
    of the bitmap block at hand. *)
Fixpoint balloc_loop (k : nat) (i : Z) (b : option (Z * Z)) : st Z :=
  match k with
  | O => panic "balloc: out of blocks"
  | S k =>
    s <- get;;
    b <- (match b with
          | None => bread ROOTDEV (BBLOCK i (sb s))
          | Some b => if b.2 <? BBLOCK i (sb s) then brelse b;;; bread ROOTDEV (BBLOCK i (sb s)) else ret b
          end);;
    let bi := i mod BPB in
    let m := 2 ^ (bi mod 8) in
    d <- bdata b;;
    match arr_get d (bi / 8) with
    | None => fault
    | Some x =>
        if Z.land x m =? 0 then
          set_bdata b (arr_set d (bi / 8) (Z.lor x m));;;
          bwrite b;;; brelse b;;; ret i
        else balloc_loop k (i + 1) (Some b)
    end
  end.
Definition balloc : st Z :=
  s <- get;; balloc_loop (Z.to_nat (nblocks (sb s) - datastart s)) (datastart s) None.

Definition bfree (dev b : Z) : st unit :=
  s <- get;;
  bp <- bread dev (BBLOCK b (sb s));;
  let bi := b mod BPB in
  let m := 2 ^ (bi mod 8) in
  d <- bdata bp;;
  match arr_get d (bi / 8) with
  | None => fault
  | Some x =>
      if Z.land x m =? 0 then panic "bfree: freeing free block"
      else set_bdata bp (arr_set d (bi / 8) (Z.ldiff x m));;; bwrite bp;;; brelse bp
  end.

(** ** Inodes *)

(** The search of [iget]: the slot that holds the inode, else the first empty
    one. *)
Fixpoint iget_loop (k : nat) (ip d n : Z) (empty : option Z) : st (Z + option Z) :=
  match k with
  | O => ret (inr empty)
  | S k =>
    x <- geti ip;;
    if (0 <? iref x) && (dev x =? d) && (inum x =? n) then ret (inl ip)
    else
      let empty := match empty with
                   | None => if iref x =? 0 then Some ip else None
                   | e => e
                   end in
      iget_loop k (ip + 1) d n empty
  end.

Definition iget (d n : Z) : st Z :=
  r <- iget_loop (Z.to_nat NINODE) 0 d n None;;
  match r with
  | inl ip => seti ip (fun x => with_ref (iref x + 1) x);;; ret ip
  | inr None => panic "iget: no inodes"
  | inr (Some ip) => seti ip (with_key d n);;; ret ip
  end.

Definition idup (ip : Z) : st Z := seti ip (fun x => with_ref (iref x + 1) x);;; ret ip.

(** Where inode [i] is in its block. *)
Definition dinode_off (i : Z) : Z := (i mod IPB) * 64.

Fixpoint ialloc_loop (k : nat) (d ty i : Z) (b : option (Z * Z)) : st (option Z) :=
  match k with
  | O => ret None
  | S k =>
    s <- get;;
    b <- (match b with
          | None => bread d (u32 (IBLOCK i (sb s)))
          | Some b => if b.2 <? IBLOCK i (sb s) then brelse b;;; bread d (u32 (IBLOCK i (sb s))) else ret b
          end);;
    x <- bdata b;;
    if fld 2 (dinode_off i) x =? 0 then
      ip <- iget d i;; seti ip (with_type ty);;; brelse b;;; ret (Some ip)
    else ialloc_loop k d ty (i + 1) (Some b)
  end.
(** The search ends with the last buffer still held when there is none. *)
Definition ialloc (d ty : Z) : st (option Z) :=
  s <- get;; ialloc_loop (Z.to_nat (ninodes (sb s) - 1)) d ty 1 None.

Definition addrs_bytes (l : list Z) : list Z := flat_map (le_bytes 4) l.
Definition dinode_bytes (x : inode_t) : list Z :=
  le_bytes 2 (itype x) ++ le_bytes 2 (major x) ++ le_bytes 2 (minor x) ++ le_bytes 2 (nlink x) ++
  le_bytes 4 (isize x) ++ addrs_bytes (addrs x).

Definition iupdate (ip : Z) : st unit :=
  x <- geti ip;; s <- get;;
  bp <- bread ROOTDEV (u32 (IBLOCK (inum x) (sb s)));;
  d <- bdata bp;;
  set_bdata bp (splice (dinode_off (inum x)) (dinode_bytes x) d);;;
  bwrite bp;;; brelse bp.

Definition dinode_addr (l : list Z) (i : nat) : Z := fld 4 (12 + 4 * Z.of_nat i) l.
Definition load_dinode (l : list Z) (x : inode_t) : inode_t :=
  mkInode (dev x) (inum x) (iref x) (valid x) (lock x)
    (s16 (fld 2 0 l)) (s16 (fld 2 2 l)) (s16 (fld 2 4 l)) (s16 (fld 2 6 l)) (fld 4 8 l)
    (map (dinode_addr l) (seq 0 13)).

Definition ilock (ip : option Z) : st unit :=
  match ip with
  | None => panic "ilock"
  | Some ip =>
    x <- geti ip;;
    if iref x <? 1 then panic "ilock"
    else
      lm_P ip;;;
      x <- geti ip;;
      if valid x then ret tt
      else
        s <- get;;
        bp <- bread (dev x) (u32 (IBLOCK (inum x) (sb s)));;
        d <- bdata bp;;
        seti ip (load_dinode (slice (dinode_off (inum x)) 64 d));;;
        brelse bp;;;
        seti ip (with_valid true);;;
        x <- geti ip;;
        if itype x =? 0 then panic "ilock: no type" else ret tt
  end.

Definition iunlock (ip : Z) : st unit := lm_V ip.

(** The direct blocks, and the entries of the indirect block. *)
Fixpoint itrunc_direct (k : nat) (ip i : Z) : st unit :=
  match k with
  | O => ret tt
  | S k =>
    x <- geti ip;; a <- get_addr x i;;
    when (negb (a =? 0)) (bfree ROOTDEV a;;; seti ip (with_addr i 0));;;
    itrunc_direct k ip (i + 1)
  end.
Fixpoint itrunc_indirect (k : nat) (bp : Z * Z) (j : Z) : st unit :=
  match k with
  | O => ret tt
  | S k =>
    d <- bdata bp;;
    let a := fld 4 (4 * j) d in
    when (negb (a =? 0)) (bfree ROOTDEV a);;;
    itrunc_indirect k bp (j + 1)
  end.

Definition itrunc (ip : Z) : st unit :=
  lm_P ip;;;
  itrunc_direct (Z.to_nat NDIRECT) ip 0;;;
  x <- geti ip;; a <- get_addr x NDIRECT;;
  when (negb (a =? 0))
    (bp <- bread ROOTDEV a;;
     itrunc_indirect (Z.to_nat NINDIRECT) bp 0;;;
     brelse bp;;;
     bfree ROOTDEV a;;;
     seti ip (with_addr NDIRECT 0));;;
  seti ip (with_size 0);;;
  iupdate ip;;;
  lm_V ip.

(** A routine run with a spin lock held: where it would wait, [sched] finds
    more than one lock and panics. *)
Definition spin_locked {A} (f : st A) : st A := fun s =>
  match f s with Blocked => Panic "sched locks" | r => r end.

(** [itable.lock] is held throughout. *)
Definition iput (ip : Z) : st unit :=
  x <- geti ip;;
  if (iref x =? 1) && valid x && (nlink x =? 0) then
    spin_locked
      (lm_P ip;;;
       itrunc ip;;;
       seti ip (with_type 0);;;
       iupdate ip;;;
       seti ip (with_valid false);;;
       lm_V ip)
  else seti ip (with_ref (iref x - 1)).

Definition iunlockput (ip : Z) : st unit := iunlock ip;;; iput ip.

(** ** Contents *)

Definition ERR : Z := 2 ^ 32 - 1.       (* a uint_t -1 *)

(** [balloc] for the direct blocks from [i]; whether all went well. *)
Fixpoint append_direct (k : nat) (ip i : Z) : st bool :=
  match k with
  | O => ret true
  | S k =>
    a <- balloc;;
    if a =? 0 then ret false else seti ip (with_addr i a);;; append_direct k ip (i + 1)
  end.
(** The entries of the indirect block [bp] from [i]. *)
Fixpoint append_indirect (k : nat) (bp : Z * Z) (i : Z) : st unit :=
  match k with
  | O => ret tt
  | S k =>
    d <- bdata bp;;
    (if negb (fld 4 (4 * (i - NDIRECT)) d =? 0) then ret tt
     else
       a <- balloc;;
       if a =? 0 then panic "bmap: balloc"
       else d <- bdata bp;; set_bdata bp (set_fld 4 (4 * (i - NDIRECT)) a d));;;
    append_indirect k bp (i + 1)
  end.

Definition bmap_append (ip start end_block : Z) : st Z :=
  r <- (if end_block <? NDIRECT then
          let high := if start <? NDIRECT then start else NDIRECT in
          ok <- append_direct (Z.to_nat (high - end_block)) ip end_block;;
          if negb ok then ret (Some ERR)
          else if start <=? high then x <- geti ip;; a <- get_addr x start;; ret (Some a)
          else ret None
        else ret None);;
  match r with
  | Some a => ret a
  | None =>
    x <- geti ip;; a <- get_addr x NDIRECT;;
    when (a =? 0)
      (a <- balloc;;
       if a =? 0 then panic "bmap: balloc" else seti ip (with_addr NDIRECT a));;;
    x <- geti ip;; a <- get_addr x NDIRECT;;
    bp <- bread (dev x) a;;
    append_indirect (Z.to_nat (start - NDIRECT + 1)) bp NDIRECT;;;
    d <- bdata bp;;
    brelse bp;;; ret (fld 4 (4 * (start - NDIRECT)) d)
  end.

Definition bmap (ip start : Z) : st Z :=
  if MAXFILE <=? start then ret ERR
  else
    x <- geti ip;;
    let end_block := isize x / BSIZE + 1 in
    if end_block <? start then bmap_append ip start end_block
    else if start <? NDIRECT then get_addr x start
    else
      a <- get_addr x NDIRECT;;
      bp <- bread (dev x) a;;
      d <- bdata bp;;
      brelse bp;;; ret (fld 4 (4 * (start - NDIRECT)) d).

(** Rounds of [readi] and [writei]: all but the first and the last move a
    whole block. *)
Definition io_fuel (n : Z) : nat := (Z.to_nat (n / BSIZE) + 3)%nat.

(** [either_copyout] to an address of the task, or to a local variable. *)
Definition either_copyout (dst : option Z) (l : list Z) : st bool :=
  match dst with
  | None => ret true
  | Some p => s <- get;; let '(u, ok) := copy_out p l (umem s) in put (set_umem u s);;; ret ok
  end.

Definition shift (dst : option Z) (m : Z) : option Z :=
  match dst with Some p => Some (p + m) | None => None end.

(** The loop of [readi]: the final [tot], and the bytes copied. *)
Fixpoint readi_loop (fuel : nat) (ip : Z) (dst : option Z) (off n tot : Z) (acc : list Z) : st (Z * list Z) :=
  match fuel with
  | O => nofuel
  | S fuel =>
    if negb (tot <? n) then ret (tot, acc)
    else
      addr <- bmap ip (off / BSIZE);;
      if addr =? 0 then ret (tot, acc)
      else
        x <- geti ip;;
        bp <- bread (dev x) addr;;
        let m := if BSIZE - off mod BSIZE <? n - tot then BSIZE - off mod BSIZE else n - tot in
        d <- bdata bp;;
        ok <- either_copyout dst (slice (off mod BSIZE) m d);;
        if negb ok then brelse bp;;; ret (tot, acc)
        else
          brelse bp;;;
          readi_loop fuel ip (shift dst m) (u32 (off + m)) n (tot + m) (acc ++ slice (off mod BSIZE) m d)
  end.

Definition readi (ip : Z) (dst : option Z) (off n : Z) : st (Z * list Z) :=
  x <- geti ip;;
  if (isize x <? off) || (u32 (off + n) <? off) || (MAXFILE * BSIZE <? u32 (off + n)) then ret (-1, [])
  else readi_loop (io_fuel n) ip dst off n 0 [].

(** [either_copyin] from an address of the task, its only use here: what it
    could read, and whether that is all. *)
Definition either_copyin (src len : Z) : st (list Z * bool) := s <- get;; ret (copy_in src len (umem s)).

(** The loop of [writei]: the final [tot] and [off].  The buffer is released
    without [bwrite]. *)
Fixpoint writei_loop (fuel : nat) (ip src off n tot : Z) : st (Z * Z) :=
  match fuel with
  | O => nofuel
  | S fuel =>
    if negb (tot <? n) then ret (tot, off)
    else
      addr <- bmap ip (off / BSIZE);;
      if addr =? 0 then ret (tot, off)
      else
        x <- geti ip;;
        bp <- bread (dev x) addr;;
        let m := if n - tot <? BSIZE - off mod BSIZE then n - tot else BSIZE - off mod BSIZE in
        '(l, ok) <- either_copyin src m;;
        d <- bdata bp;;
        set_bdata bp (splice (off mod BSIZE) l d);;;
        brelse bp;;;
        if negb ok then ret (tot, off)
        else writei_loop fuel ip (src + m) (u32 (off + m)) n (tot + m)
  end.

Definition writei (ip src off n : Z) : st Z :=
  x <- geti ip;;
  if (isize x <? off) || (u32 (off + n) <? off) then ret (-1)
  else if MAXFILE * BSIZE <? u32 (off + n) then ret (-1)
  else
    '(tot, off) <- writei_loop (io_fuel n) ip src off n 0;;
    x <- geti ip;;
    when (isize x <? off) (seti ip (with_size off));;;
    iupdate ip;;;
    ret tot.

(** ** Names and paths

    A path is the list of its characters before the terminating NUL; the
    array [name] has [DIRSIZ] characters. *)
Definition SLASH : Z := 47.

Fixpoint skip_slashes (p : list Z) : list Z :=
  match p with c :: p' => if c =? SLASH then skip_slashes p' else p | [] => [] end.
(** The characters before the next slash, and the rest. *)
Fixpoint span_elem (p : list Z) : list Z * list Z :=
  match p with
  | c :: p' => if c =? SLASH then ([], p) else let '(e, r) := span_elem p' in (c :: e, r)
  | [] => ([], [])
  end.

Definition skipelem (path name : list Z) : option (list Z * list Z) :=
  match skip_slashes path with
  | [] => None
  | p =>
    let '(e, r) := span_elem p in
    let name' := if (DIRSIZ <=? length e)%nat then take DIRSIZ e
                 else e ++ 0 :: drop (S (length e)) name in
    Some (skip_slashes r, name')
  end.

(** [strncmp] of klib.c on two arrays, which compares one character more than
    [n]; [None] is a read past an array. *)
Fixpoint strncmp (s t : list Z) (n : nat) : option Z :=
  match t, s with
  | c2 :: t', c1 :: s' =>
    if negb (c2 =? 0) && negb (c1 =? 0) && (c1 =? c2) && (0 <? Z.of_nat n)
    then strncmp s' t' (pred n)
    else Some (if (c1 =? 0) && (c2 =? 0) then 0 else c1 - c2)
  | _, _ => None
  end.
Definition namecmp (s t : list Z) : st Z := fun st =>
  match strncmp s t DIRSIZ with Some z => Done (z, st) | None => Fault end.

Fixpoint dirlookup_loop (k : nat) (dp : Z) (name : list Z) (off : Z) : st (option (Z * Z)) :=
  match k with
  | O => nofuel
  | S k =>
    x <- geti dp;;
    if negb (off <? isize x) then ret None
    else
      '(n, de) <- readi dp None off 16;;
      if negb (n =? 16) then panic "dirlookup read"
      else
        let inum := fld 2 0 de in
        if inum =? 0 then dirlookup_loop k dp name (off + 16)
        else
          c <- namecmp name (drop 2 de);;
          if c =? 0 then ip <- iget (dev x) inum;; ret (Some (ip, off))
          else dirlookup_loop k dp name (off + 16)
  end.
(** The inode, and the offset stored in [*poff]. *)
Definition dirlookup (dp : Z) (name : list Z) : st (option (Z * Z)) :=
  x <- geti dp;;
  if negb (itype x =? T_DIR) then panic "dirlookup not DIR"
  else dirlookup_loop (Z.to_nat (isize x / 16) + 2)%nat dp name 0.

Fixpoint namex_loop (fuel : nat) (path : list Z) (nameiparent : bool) (name : list Z) (ip : Z)
    : st (option Z * list Z) :=
  match fuel with
  | O => nofuel
  | S fuel =>
    match skipelem path name with
    | None => if nameiparent then iput ip;;; ret (None, name) else ret (Some ip, name)
    | Some (path, name) =>
      ilock (Some ip);;;
      x <- geti ip;;
      if negb (itype x =? T_DIR) then iunlockput ip;;; ret (None, name)
      else if nameiparent && bool_decide (path = []) then iunlock ip;;; ret (Some ip, name)
      else
        r <- dirlookup ip name;;
        match r with
        | None => iunlockput ip;;; ret (None, name)
        | Some (next, _) => iunlockput ip;;; namex_loop fuel path nameiparent name next
        end
    end
  end.
Definition namex (path : list Z) (nameiparent : bool) (name : list Z) : st (option Z * list Z) :=
  c <- gets cwd;;
  ip <- (if bool_decide (head path = Some SLASH) then iget ROOTDEV ROOTINO else idup c);;
  namex_loop (S (length path)) path nameiparent name ip.

(** [junk] is what the local array [name] holds at first. *)
Definition namei (path junk : list Z) : st (option Z) :=
  '(ip, _) <- namex path false junk;; ret ip.
Definition nameiparent (path name : list Z) : st (option Z * list Z) := namex path true name.

(** [strncpy] of klib.c into the [DIRSIZ] characters of an entry; [name] ends
    with its array. *)
Fixpoint str_prefix (n : nat) (name : list Z) : option (list Z) :=
  match name with
  | [] => None
  | c :: name => if (c =? 0) then Some []
                 else match n with
                      | O => Some []
                      | S n => option_map (cons c) (str_prefix n name)
                      end
  end.
Definition strncpy (old name : list Z) : option (list Z) :=
  match str_prefix DIRSIZ name with
  | Some p => Some (if (length p =? DIRSIZ)%nat then take 13 p ++ [0]
                    else p ++ 0 :: drop (S (length p)) old)
  | None => None
  end.

(** [k] entries to go, entry [i]; [b] is the buffer of direct block [nd]. *)
Fixpoint dirlink_loop (k : nat) (dip : Z) (name : list Z) (inum i nd : Z) (b : option (Z * Z)) : st Z :=
  match k with
  | O => match b with Some b => brelse b | None => ret tt end;;; ret (-1)
  | S k =>
    '(b, nd) <- (if (match b with None => true | Some _ => (nd + 1) * DPB <=? i end) then
        nd <- (match b with Some b => brelse b;;; ret (nd + 1) | None => ret nd end);;
        x <- geti dip;; a <- get_addr x nd;;
        when (a =? 0) (a <- balloc;; seti dip (with_addr nd a));;;
        x <- geti dip;; a <- get_addr x nd;;
        b <- bread (dev x) a;; ret (b, nd)
      else match b with Some b => ret (b, nd) | None => fault end);;
    d <- bdata b;;
    let off := (i mod DPB) * 16 in
    if fld 2 off d =? 0 then
      match strncpy (slice (off + 2) 14 d) name with
      | None => fault
      | Some nm =>
        set_bdata b (splice off (le_bytes 2 inum ++ nm) d);;;
        x <- geti dip;; seti dip (with_size (isize x + 16));;;
        brelse b;;;
        iupdate dip;;; ret 0
      end
    else dirlink_loop k dip name inum (i + 1) nd (Some b)
  end.

Definition dirlink (dip : Z) (name : list Z) (inum : Z) : st Z :=
  x <- geti dip;;
  if negb (itype x =? T_DIR) then panic "add link in non dir"
  else
    r <- dirlookup dip name;;
    match r with
    | Some _ => ret (-1)
    | None => dirlink_loop (Z.to_nat (NDIRECT * DPB)) dip name inum 0 0 None
    end.

(** ** [create] of sysfile.c *)

Definition create_fail (ip dp : Z) : st (option Z) :=
  seti ip (with_nlink 0);;; iupdate ip;;; iunlockput ip;;; iunlockput dp;;; ret None.

(** The part after the new inode is allocated and locked. *)
Definition create_link (dp ip : Z) (name : list Z) (type : Z) : st (option Z) :=
  x <- geti ip;; y <- geti dp;;
  r <- (if type =? T_DIR then
          a <- dirlink ip [46; 0] (inum x);;
          if a <? 0 then ret (-1) else dirlink ip [46; 46; 0] (inum y)
        else ret 0);;
  if r <? 0 then create_fail ip dp
  else
    r <- dirlink dp name (inum x);;
    if r <? 0 then create_fail ip dp
    else
      when (type =? T_DIR) (y <- geti dp;; seti dp (with_nlink (nlink y + 1));;; iupdate dp);;;
      iunlockput dp;;; ret (Some ip).

Definition create (path junk : list Z) (type major minor : Z) : st (option Z) :=
  '(dp, name) <- nameiparent path junk;;
  match dp with
  | None => ret None
  | Some dp =>
    ilock (Some dp);;;
    r <- dirlookup dp name;;
    match r with
    | Some (ip, _) =>
      iunlockput dp;;;
      ilock (Some ip);;;
      x <- geti ip;;
      if (type =? T_FILE) && ((itype x =? T_FILE) || (itype x =? T_DEVICE)) then ret (Some ip)
      else iunlockput ip;;; ret None
    | None =>
      y <- geti dp;;
      r <- ialloc (dev y) type;;
      match r with
      | None => iunlockput dp;;; ret None
      | Some ip =>
        ilock (Some ip);;;
        seti ip (with_majmin major minor);;;
        seti ip (with_nlink 1);;;
        iupdate ip;;;
        create_link dp ip name type
      end
    end
  end.

End Fs.
