(* ===== verification/FsProofs.v ===== *)
(** * Proofs about the file system *)
From S2P Require Import Prelude Fs.

Section FsProofs.
Context {U : Type} `{!UserCopy U}.
#[local] Abbreviation FS := (fs (U := U)).

(** ** States that show the same file system

    Reading fills the cache, which no operation can tell. *)
Definition sees (s s' : FS) : Prop :=
  (forall b, block s' b = block s b) /\ dsk s' = dsk s /\ held s' = held s /\ sb s' = sb s /\
  datastart s' = datastart s /\ itable s' = itable s /\ cwd s' = cwd s /\ umem s' = umem s.

Lemma sees_refl (s : FS) : sees s s.
Proof. by repeat split. Qed.

Lemma sees_trans (s1 s2 s3 : FS) : sees s1 s2 -> sees s2 s3 -> sees s1 s3.
Proof.
  intros (A & ? & ? & ? & ? & ? & ? & ?) (B & ? & ? & ? & ? & ? & ? & ?).
  split; [intros b; by rewrite B, A|]. repeat split; congruence.
Qed.

#[local] Instance sees_preorder : PreOrder sees.
Proof. split; [intros s; apply sees_refl|intros s1 s2 s3; apply sees_trans]. Qed.

(** ** Buffers *)

Definition loaded (b : Z * Z) (d : list Z) (s : FS) : fs := set_cache (<[b := d]> (cache s)) s.
Definition opened (b : Z * Z) (d : list Z) (s : FS) : fs := set_held (b :: held s) (loaded b d s).

Lemma bread_done dev n d (s : FS) :
  ~ ((dev, n) ∈ held s) -> block s (dev, n) = Some d ->
  bread dev n s = Done ((dev, n), opened (dev, n) d s).
Proof. intros Hh Hd. unfold bread. rewrite bool_decide_eq_false_2 by done. by rewrite Hd. Qed.

Lemma bread_blocked dev n (s : FS) : (dev, n) ∈ held s -> bread dev n s = Blocked.
Proof. intros H. unfold bread. by rewrite bool_decide_eq_true_2. Qed.

Lemma bdata_opened {B} b d s (K : list Z -> st (U := U) B) : bind (bdata b) K (opened b d s) = K d (opened b d s).
Proof. unfold bind, bdata. cbn. by rewrite lookup_insert_eq. Qed.

Lemma brelse_opened b d (s : FS) :
  ~ (b ∈ held s) -> brelse b (opened b d s) = Done (tt, loaded b d s).
Proof.
  intros Hb. unfold brelse. rewrite bool_decide_eq_true_2 by (cbn; by left). do 2 f_equal.
  assert (filter (fun c => c <> b) (b :: held s) = held s) as E; cycle 1.
  { unfold opened, set_held. cbn [held]. by rewrite E. }
  rewrite filter_cons_False by auto.
  assert (forall l : list (Z * Z), b ∉ l -> filter (fun c => c <> b) l = l) as Hf; [|by apply Hf].
  clear. induction l as [|c l IH]; intros Hl; [done|].
  rewrite filter_cons_True by (intros ->; apply Hl; by left). f_equal. apply IH. set_solver.
Qed.

Lemma block_loaded b d (s : FS) c : block s b = Some d -> block (loaded b d s) c = block s c.
Proof.
  intros Hd. unfold block. cbn. destruct (decide (b = c)) as [<-|Hne].
  - rewrite lookup_insert_eq. symmetry. exact Hd.
  - by rewrite lookup_insert_ne.
Qed.

Lemma sees_loaded b d (s : FS) : block s b = Some d -> sees s (loaded b d s).
Proof. intros Hd. split; [intros c; by apply block_loaded|]. by repeat split. Qed.

Lemma geti_bind {B} ip x s (K : inode_t -> st (U := U) B) : itable s !! ip = Some x -> bind (geti ip) K s = K x s.
Proof. intros H. unfold bind, geti. by rewrite H. Qed.

Lemma seti_bind {B} ip f x s (K : unit -> st (U := U) B) :
  itable s !! ip = Some x -> bind (seti ip f) K s = K tt (set_itable (<[ip := f x]> (itable s)) s).
Proof. intros H. unfold bind, seti. by rewrite H. Qed.

(** Reading a block and letting it go. *)
Lemma read_block {B} dev n d (s : FS) (K : list Z -> B) :
  ~ ((dev, n) ∈ held s) -> block s (dev, n) = Some d ->
  bind (bread dev n) (fun bp => bind (bdata bp) (fun d => bind (brelse bp) (fun _ => ret (K d)))) s
    = Done (K d, loaded (dev, n) d s).
Proof.
  intros Hh Hd. rewrite (bind_done _ _ _ _ _ (bread_done _ _ _ _ Hh Hd)), bdata_opened.
  by rewrite (bind_done _ _ _ _ _ (brelse_opened (dev, n) d s Hh)).
Qed.

(** ** Reading a file *)

(** The address of block [k] of the file [x]. *)
Definition faddr (s : FS) (x : inode_t) (k : Z) : option Z :=
  if k <? NDIRECT then arr_get (addrs x) k
  else match arr_get (addrs x) NDIRECT with
       | Some a => match block s (dev x, a) with
                   | Some d => Some (fld 4 (4 * (k - NDIRECT)) d)
                   | None => None
                   end
       | None => None
       end.

Lemma get_addr_bind {B} x i a s (K : Z -> st (U := U) B) :
  arr_get (addrs x) i = Some a -> bind (get_addr x i) K s = K a s.
Proof. intros H. unfold bind, get_addr. by rewrite H. Qed.

Lemma bmap_spec (s : FS) ip x k a :
  itable s !! ip = Some x -> held s = [] -> 0 <= k < MAXFILE -> k <= isize x / BSIZE + 1 ->
  faddr s x k = Some a -> exists s', bmap ip k s = Done (a, s') /\ sees s s'.
Proof.
  intros Hx Hh Hk Hsz Ha. unfold bmap. rewrite (proj2 (Z.leb_gt MAXFILE k)) by lia.
  rewrite (geti_bind _ _ _ _ Hx). cbv zeta. rewrite (proj2 (Z.ltb_ge (isize x / BSIZE + 1) k)) by lia.
  unfold faddr in Ha. destruct (k <? NDIRECT).
  - exists s. split; [|apply sees_refl]. unfold get_addr. by rewrite Ha.
  - destruct (arr_get (addrs x) NDIRECT) as [i|] eqn:Hi; [|done].
    destruct (block s (dev x, i)) as [d|] eqn:Hd; [|done]. injection Ha as <-.
    rewrite (get_addr_bind _ _ _ _ _ Hi). exists (loaded (dev x, i) d s).
    split; [|by apply sees_loaded].
    apply (read_block (dev x) i d s (fun d => fld 4 (4 * (k - NDIRECT)) d)); [|done].
    rewrite Hh. apply not_elem_of_nil.
Qed.

Lemma faddr_sees s s' x k : sees s s' -> faddr s' x k = faddr s x k.
Proof. intros [H _]. unfold faddr. destruct (k <? NDIRECT); [done|]. destruct (arr_get _ _); [by rewrite H|done]. Qed.

Lemma slice_slice a m l k n :
  0 <= k -> 0 <= a -> 0 <= m -> a + m <= n -> slice a m (slice k n l) = slice (k + a) m l.
Proof.
  intros Hk Ha Hm Hn. unfold slice. rewrite skipn_firstn_comm, drop_drop.
  rewrite take_take. f_equal; [lia|]. f_equal. lia.
Qed.

Lemma slice_app k m n l : 0 <= k -> 0 <= m -> 0 <= n -> slice k m l ++ slice (k + m) n l = slice k (m + n) l.
Proof.
  intros Hk Hm Hn. unfold slice.
  replace (Z.to_nat (k + m)) with (Z.to_nat k + Z.to_nat m)%nat by lia.
  rewrite <- drop_drop, take_take_drop. f_equal. lia.
Qed.

(** The first blocks of file [x] hold the bytes [l]: the contents, and what
    the last block has after the end of the file. *)
Definition file_holds (s : FS) (x : inode_t) (l : list Z) : Prop :=
  exists K, Z.of_nat (length l) = BSIZE * K /\ 0 <= K <= MAXFILE /\ K <= isize x / BSIZE + 2 /\
    forall k, 0 <= k < K -> exists a, faddr s x k = Some a /\ a <> 0 /\
      block s (dev x, a) = Some (slice (BSIZE * k) BSIZE l).

Lemma file_holds_sees s s' x l : sees s s' -> file_holds s x l -> file_holds s' x l.
Proof.
  intros Hs (K & H1 & H2 & H3 & H4). exists K. do 3 (split; [done|]). intros k Hk.
  destruct (H4 k Hk) as (a & Ha & Hn & Hb). exists a. rewrite (faddr_sees _ _ _ _ Hs). do 2 (split; [done|]).
  destruct Hs as [Hs _]. by rewrite Hs.
Qed.

(** The number of rounds still needed. *)
Definition rounds (off r : Z) : Z := (off mod BSIZE + r + BSIZE - 1) / BSIZE.

Lemma readi_loop_spec ip x l : forall fuel (s : FS) off n tot acc,
  itable s !! ip = Some x -> held s = [] -> file_holds s x l ->
  0 <= off -> 0 <= tot <= n -> off + (n - tot) <= Z.of_nat (length l) ->
  0 < Z.of_nat fuel -> (tot < n -> rounds off (n - tot) < Z.of_nat fuel) ->
  exists s', readi_loop fuel ip None off n tot acc s = Done ((n, acc ++ slice off (n - tot) l), s') /\ sees s s'.
Proof.
  induction fuel as [|fuel IH]; intros s off n tot acc Hx Hh Hl Hoff Htot Hlen Hf0 Hf; [lia|].
  cbn [readi_loop]. destruct (Z.ltb_spec tot n) as [Hlt|Hge]; cbn [negb]; cycle 1.
  { assert (tot = n) as -> by lia. rewrite Z.sub_diag. unfold slice. rewrite take_0, app_nil_r.
    exists s. split; [done|apply sees_refl]. }
  pose proof Hl as (K & HK & HK2 & HK3 & Hb).
  assert (0 <= off / BSIZE < K) as Hk by (unfold BSIZE in *; zdiv).
  destruct (Hb _ Hk) as (a & Ha & Hn0 & Hd).
  destruct (bmap_spec s ip x (off / BSIZE) a Hx Hh) as (s1 & H1 & Hs1); [lia|lia|done|].
  rewrite (bind_done _ _ _ _ _ H1), (proj2 (Z.eqb_neq a 0)) by done.
  pose proof Hs1 as (Eb & _ & Eh & _ & _ & Ei & _).
  assert (itable s1 !! ip = Some x) as Hx1 by (by rewrite Ei).
  assert (~ ((dev x, a) ∈ held s1)) as Hnh by (rewrite Eh, Hh; apply not_elem_of_nil).
  assert (block s1 (dev x, a) = Some (slice (BSIZE * (off / BSIZE)) BSIZE l)) as Hd1 by (by rewrite Eb).
  rewrite (geti_bind _ _ _ _ Hx1), (bind_done _ _ _ _ _ (bread_done _ _ _ _ Hnh Hd1)). cbv zeta.
  set (m := if BSIZE - off mod BSIZE <? n - tot then BSIZE - off mod BSIZE else n - tot).
  assert (0 < m /\ off mod BSIZE + m <= BSIZE /\ m <= n - tot /\
          (m = n - tot \/ off mod BSIZE + m = BSIZE)) as (Hm0 & Hm1 & Hm2 & Hm3).
  { unfold m, BSIZE. destruct (Z.ltb_spec (1024 - off mod 1024) (n - tot)); zdiv. }
  rewrite bdata_opened. unfold either_copyout. rewrite bind_ret. cbn [negb shift].
  rewrite (bind_done _ _ _ _ _ (brelse_opened _ _ _ Hnh)).
  assert (slice (off mod BSIZE) m (slice (BSIZE * (off / BSIZE)) BSIZE l) = slice off m l) as ->.
  { rewrite slice_slice by (unfold BSIZE in *; zdiv). f_equal. unfold BSIZE. zdiv. }
  assert (0 <= off + m <= MAXFILE * BSIZE) as Hom by (unfold MAXFILE, NDIRECT, NINDIRECT, BSIZE in *; lia).
  replace (u32 (off + m)) with (off + m)
    by (symmetry; apply Z.mod_small; unfold MAXFILE, NDIRECT, NINDIRECT, BSIZE in Hom; lia).
  assert (sees s (loaded (dev x, a) (slice (BSIZE * (off / BSIZE)) BSIZE l) s1)) as Hs2
    by (eapply sees_trans; [exact Hs1|by apply sees_loaded]).
  destruct (IH (loaded (dev x, a) (slice (BSIZE * (off / BSIZE)) BSIZE l) s1) (off + m) n (tot + m)
    (acc ++ slice off m l)) as (s' & Hrun & Hs'); [done| |by eapply file_holds_sees|lia|lia|lia| | |].
  - cbn. by rewrite Eh.
  - specialize (Hf Hlt). unfold rounds, BSIZE in *. zdiv.
  - intros Hlt'. specialize (Hf Hlt). unfold rounds, BSIZE in *. zdiv.
  - exists s'. rewrite Hrun. split; [|by eapply sees_trans]. do 2 f_equal.
    rewrite <- app_assoc, slice_app by lia. do 3 f_equal. lia.
Qed.

(** ** A buffer at hand

    [s'] shows the same as [s], with the buffer [b] open. *)
Definition holding (s : FS) (b : option (Z * Z)) (s' : FS) : Prop :=
  (forall c, block s' c = block s c) /\ dsk s' = dsk s /\ held s' = option_list b /\ sb s' = sb s /\
  datastart s' = datastart s /\ itable s' = itable s /\ cwd s' = cwd s /\ umem s' = umem s /\
  (forall c, b = Some c -> cache s' !! c = block s c).

Lemma holding_refl (s : FS) : held s = [] -> holding s None s.
Proof. intros H. unfold holding. by split_and!. Qed.

Lemma holding_open s s' d n x :
  holding s None s' -> block s (d, n) = Some x ->
  exists s'', bread d n s' = Done ((d, n), s'') /\ holding s (Some (d, n)) s''.
Proof.
  intros (Hb & Hd & Hh & H1 & H2 & H3 & H4 & H5 & _) Hx.
  exists (opened (d, n) x s'). split.
  - apply bread_done; [rewrite Hh; apply not_elem_of_nil|by rewrite Hb].
  - unfold holding. split; [intros c; rewrite <- Hb; apply (block_loaded (d, n) x); by rewrite Hb|].
    cbn. rewrite Hh. do 7 (split; [done|]). intros c [= <-]. by rewrite lookup_insert_eq.
Qed.

Lemma holding_close s s' b :
  holding s (Some b) s' -> exists s'', brelse b s' = Done (tt, s'') /\ holding s None s''.
Proof.
  intros (Hb & Hd & Hh & H1 & H2 & H3 & H4 & H5 & _). eexists. split.
  - unfold brelse. rewrite bool_decide_eq_true_2 by (rewrite Hh; by left). reflexivity.
  - assert (filter (fun c => c <> b) (held s') = []) as E by (rewrite Hh; change (option_list (Some b)) with [b]; by rewrite filter_cons_False by auto).
    unfold holding. cbn [set_held cache dsk held sb datastart itable cwd umem]. rewrite E. by split_and!.
Qed.

Lemma holding_data {B} s s' b d (K : list Z -> st (U := U) B) :
  holding s (Some b) s' -> block s b = Some d -> bind (bdata b) K s' = K d s'.
Proof.
  intros (_ & _ & _ & _ & _ & _ & _ & _ & Hc) Hd. unfold bind, bdata. by rewrite (Hc b eq_refl), Hd.
Qed.

(** Going on to the block [n] of an ascending scan. *)
Lemma holding_next s s' b d n x :
  holding s b s' -> block s (d, n) = Some x ->
  (forall c, b = Some c -> c.1 = d /\ c.2 <= n) ->
  exists s'', match b with
              | None => bread d n
              | Some c => if c.2 <? n then bind (brelse c) (fun _ => bread d n) else ret c
              end s' = Done ((d, n), s'') /\ holding s (Some (d, n)) s''.
Proof.
  intros Hs Hx Hb. destruct b as [[d' n']|]; [|by apply (holding_open s s' d n x)].
  destruct (Hb _ eq_refl) as [Ed Hle]. cbn [fst snd] in *. subst d'. destruct (Z.ltb_spec n' n) as [Hlt|Hge].
  - destruct (holding_close s s' _ Hs) as (s1 & H1 & Hs1). rewrite (bind_done _ _ _ _ _ H1).
    by apply (holding_open s s1 d n x).
  - assert (n = n') as -> by lia. by exists s'.
Qed.

(** ** The bitmap *)

Definition bit_of (s : FS) (i : Z) : option bool :=
  match block s (ROOTDEV, BBLOCK i (sb s)) with
  | Some d => match arr_get d (i mod BPB / 8) with
              | Some x => Some (Z.testbit x (i mod 8))
              | None => None
              end
  | None => None
  end.

Lemma land_pow2 x k : 0 <= k -> (Z.land x (2 ^ k) =? 0) = negb (Z.testbit x k).
Proof.
  intros Hk. destruct (Z.testbit x k) eqn:E; cbn.
  - apply Z.eqb_neq. intros H. apply (f_equal (fun z => Z.testbit z k)) in H.
    by rewrite Z.land_spec, E, Z.pow2_bits_true, Z.bits_0 in H by done.
  - apply Z.eqb_eq, Z.bits_inj'. intros j Hj. rewrite Z.land_spec, Z.bits_0, Z.pow2_bits_eqb by done.
    destruct (Z.eqb_spec k j) as [<-|]; [by rewrite E|apply andb_false_r].
Qed.

Lemma bit_index i : i mod BPB mod 8 = i mod 8.
Proof. unfold BPB. zdiv. Qed.

Lemma arr_set_get {A} (l : list A) i j x :
  0 <= i -> 0 <= j -> is_Some (arr_get l i) ->
  arr_get (arr_set l i x) j = if i =? j then Some x else arr_get l j.
Proof.
  intros Hi Hj [y Hy]. unfold arr_get, arr_set in *. rewrite (proj2 (Z.ltb_ge i 0)) in Hy by lia.
  rewrite (proj2 (Z.ltb_ge j 0)) by lia. destruct (Z.eqb_spec i j) as [->|Hne].
  - apply list_lookup_insert_eq. by eapply lookup_lt_Some.
  - apply list_lookup_insert_ne. lia.
Qed.

(** The state after block [i], whose bitmap block has the bytes [d], is taken. *)
Definition taken (s : FS) (i : Z) (s' : FS) : Prop :=
  (forall j, 0 <= j < 2 ^ 32 -> bit_of s' j = if i =? j then Some true else bit_of s j) /\
  (forall c, c.2 <> BBLOCK i (sb s) -> block s' c = block s c) /\
  dsk s' !! BBLOCK i (sb s) = block s' (ROOTDEV, BBLOCK i (sb s)) /\
  held s' = [] /\ itable s' = itable s /\ sb s' = sb s /\ datastart s' = datastart s.

Lemma block_saved (s' : FS) b d c :
  c.2 <> b.2 \/ c = b ->
  block (set_dsk (<[b.2 := d]> (dsk s')) (set_cache (<[b := d]> (cache s')) s')) c =
    if decide (c = b) then Some d else block s' c.
Proof.
  intros Hc. unfold block. cbn. destruct (decide (c = b)) as [->|Hne]; [by rewrite lookup_insert_eq|].
  rewrite lookup_insert_ne by done. destruct (cache s' !! c); [done|]. apply lookup_insert_ne. naive_solver.
Qed.

Lemma take_bit s s' i d x :
  let b := (ROOTDEV, BBLOCK i (sb s)) in
  holding s (Some b) s' -> 0 <= i < 2 ^ 32 -> block s b = Some d -> arr_get d (i mod BPB / 8) = Some x ->
  Z.testbit x (i mod 8) = false ->
  exists s'', bind (set_bdata b (arr_set d (i mod BPB / 8) (Z.lor x (2 ^ (i mod 8))))) (fun _ =>
    bind (bwrite b) (fun _ => bind (brelse b) (fun _ => ret i))) s' = Done (i, s'') /\ taken s i s''.
Proof.
  intros b (Hb & Hd & Hh & H1 & H2 & H3 & _) Hi Hbd Hx Hbit. cbv zeta.
  set (d' := arr_set d (i mod BPB / 8) (Z.lor x (2 ^ (i mod 8)))).
  set (s1 := set_dsk (<[b.2 := d']> (dsk s')) (set_cache (<[b := d']> (cache s')) s')).
  assert (filter (fun c => c <> b) (held s') = []) as E
    by (rewrite Hh; change (option_list (Some b)) with [b]; by rewrite filter_cons_False by auto).
  exists (set_held [] s1). split.
  - unfold set_bdata. rewrite bind_modify. unfold bwrite, brelse, bind at 1 2. cbn [held set_cache].
    rewrite bool_decide_eq_true_2 by (rewrite Hh; by left). cbn [cache set_cache]. rewrite lookup_insert_eq.
    cbn [held set_dsk set_cache]. rewrite bool_decide_eq_true_2 by (rewrite Hh; by left). by rewrite E.
  - assert (forall c, c.2 <> b.2 \/ c = b -> block (set_held [] s1) c = if decide (c = b) then Some d' else block s c) as Hblk.
    { intros c Hc. rewrite <- Hb. exact (block_saved s' b d' c Hc). }
    split; [|split; [|split; [|by split_and!]]].
    + intros j Hj. unfold bit_of. cbn [sb set_held s1 set_dsk set_cache]. rewrite H1.
      destruct (decide (BBLOCK j (sb s) = BBLOCK i (sb s))) as [Ej|Ej].
      * rewrite Ej. rewrite Hblk by (right; done). rewrite decide_True by done. fold b. rewrite Hbd.
        unfold d'. rewrite arr_set_get by (try (unfold BPB; zdiv); eauto).
        destruct (Z.eqb_spec (i mod BPB / 8) (j mod BPB / 8)) as [Eb|Eb].
        -- rewrite <- Eb, Hx, Z.lor_spec, Z.pow2_bits_eqb by zdiv.
           destruct (Z.eqb_spec i j) as [->|Hne]; [by rewrite Z.eqb_refl, orb_true_r|].
           assert (i mod 8 <> j mod 8) as Hm.
           { intros Em. apply Hne. assert (i mod BPB = j mod BPB) by (unfold BPB in *; zdiv).
             unfold BBLOCK, u32, BPB in *. zdiv. }
           by rewrite (proj2 (Z.eqb_neq _ _) Hm), orb_false_r.
        -- rewrite (proj2 (Z.eqb_neq i j)); [done|]. by intros ->.
      * rewrite Hblk by (left; exact Ej). rewrite decide_False by (intros [= H]; done).
        rewrite (proj2 (Z.eqb_neq i j)); [done|]. by intros ->.
    + intros c Hc. rewrite Hblk by (by left). rewrite decide_False; [done|]. by intros ->.
    + rewrite Hblk by (by right). rewrite decide_True by done. cbn. by rewrite lookup_insert_eq.
Qed.

(** A bitmap that covers the blocks from [datastart] to [nblocks]. *)
Definition bitmap_ok (s : FS) : Prop :=
  0 <= datastart s /\ 0 <= bmapstart (sb s) /\ nblocks (sb s) < 2 ^ 32 /\
  bmapstart (sb s) + nblocks (sb s) / BPB < 2 ^ 32 /\
  forall j, datastart s <= j < nblocks (sb s) -> is_Some (bit_of s j).

Lemma BBLOCK_eq s i : bitmap_ok s -> 0 <= i < nblocks (sb s) ->
  BBLOCK i (sb s) = i / BPB + bmapstart (sb s).
Proof.
  intros (_ & Hb & _ & Hs & _) Hi. unfold BBLOCK, u32. apply Z.mod_small.
  assert (i / BPB <= nblocks (sb s) / BPB) by (apply Z.div_le_mono; unfold BPB; lia).
  assert (0 <= i / BPB) by (apply Z.div_pos; unfold BPB; lia). lia.
Qed.

Lemma balloc_loop_spec s : bitmap_ok s -> forall k i b s',
  datastart s <= i -> i + Z.of_nat k = nblocks (sb s) -> holding s b s' ->
  (forall c, b = Some c -> c.1 = ROOTDEV /\ (0 < Z.of_nat k -> c.2 <= BBLOCK i (sb s))) ->
  (exists j s'', balloc_loop k i b s' = Done (j, s'') /\ i <= j < nblocks (sb s) /\
     bit_of s j = Some false /\ (forall l, i <= l < j -> bit_of s l = Some true) /\ taken s j s'') \/
  (balloc_loop k i b s' = Panic "balloc: out of blocks" /\
     forall l, i <= l < nblocks (sb s) -> bit_of s l = Some true).
Proof.
  intros HB. pose proof HB as (Hds & Hbm & Hn32 & _ & Hbits).
  induction k as [|k IH]; intros i b s' Hi Hk Hs Hb; cbn [balloc_loop]; [right; split; [done|lia]|].
  rewrite bind_get. pose proof Hs as (_ & _ & _ & Esb & _). rewrite Esb.
  destruct (Hbits i ltac:(lia)) as [v Hv]. pose proof Hv as Hv'. unfold bit_of in Hv.
  destruct (block s (ROOTDEV, BBLOCK i (sb s))) as [d|] eqn:Hd; [|done].
  destruct (arr_get d (i mod BPB / 8)) as [x|] eqn:Hx; [|done]. injection Hv as <-.
  destruct (holding_next s s' b ROOTDEV (BBLOCK i (sb s)) d Hs Hd) as (s1 & H1 & Hs1).
  { intros c Hc. destruct (Hb c Hc) as [E Hle]. split; [done|]. apply Hle. lia. }
  rewrite (bind_done _ _ _ _ _ H1), (holding_data _ _ _ _ _ Hs1 Hd), bit_index. rewrite Hx.
  rewrite land_pow2 by zdiv. destruct (Z.testbit x (i mod 8)) eqn:Hbit; cbn [negb].
  - destruct (IH (i + 1) (Some (ROOTDEV, BBLOCK i (sb s))) s1) as [(j & s'' & Hr & Hj & Hfree & Hl & Ht)|[Hr Hl]];
      [lia|lia|done| | |].
    + intros c [= <-]. split; [done|]. intros Hk0. cbn. rewrite !BBLOCK_eq by (done || lia).
      pose proof (Z.div_le_mono i (i + 1) BPB). unfold BPB in *. lia.
    + left. exists j, s''. split; [done|]. split; [lia|]. split; [done|]. split; [|done].
      intros l Hl'. destruct (decide (l = i)) as [->|]; [done|apply Hl; lia].
    + right. split; [done|]. intros l Hl'. destruct (decide (l = i)) as [->|]; [done|apply Hl; lia].
  - left. destruct (take_bit s s1 i d x Hs1) as (s'' & Hr & Ht); [lia|done|done|done|].
    exists i, s''. split; [exact Hr|]. split; [lia|]. split; [done|]. split; [lia|done].
Qed.

(** ** The inode table *)

Definition table_full (t : gmap Z inode_t) : Prop := forall ip, 0 <= ip < NINODE <-> is_Some (t !! ip).

Definition holds_inode (t : gmap Z inode_t) (d n ip : Z) : bool :=
  match t !! ip with Some x => (0 <? iref x) && (dev x =? d) && (inum x =? n) | None => false end.
Definition empty_slot (t : gmap Z inode_t) (ip : Z) : bool :=
  match t !! ip with Some x => iref x =? 0 | None => false end.
Definition slots : list Z := seqZ 0 NINODE.

Lemma iget_loop_spec (s : FS) d n : table_full (itable s) -> forall k ip e,
  0 <= ip -> ip + Z.of_nat k = NINODE ->
  iget_loop k ip d n e s =
    Done (match List.find (holds_inode (itable s) d n) (seqZ ip (Z.of_nat k)) with
          | Some j => inl j
          | None => inr (match e with Some e => Some e
                         | None => List.find (empty_slot (itable s)) (seqZ ip (Z.of_nat k)) end)
          end, s).
Proof.
  intros Ht. induction k as [|k IH]; intros ip e Hip Hk; cbn [iget_loop]; [by destruct e|].
  destruct (proj1 (Ht ip) ltac:(lia)) as [x Hx]. rewrite (geti_bind _ _ _ _ Hx).
  rewrite seqZ_cons by lia. replace (Z.pred (Z.of_nat (S k))) with (Z.of_nat k) by lia.
  replace (Z.succ ip) with (ip + 1) by lia. cbn [List.find].
  unfold holds_inode at 1, empty_slot at 1. rewrite Hx.
  destruct ((0 <? iref x) && (dev x =? d) && (inum x =? n)); [done|].
  rewrite IH by lia. do 2 f_equal. destruct (List.find _ _); [done|]. destruct e; [done|].
  by destruct (iref x =? 0).
Qed.

End FsProofs.
