(* ===== verification/FsTheorems.v ===== *)
(** * Properties of the file system *)
From S2P Require Import Prelude Fs FsProofs.

Section FsTheorems.
Context {U : Type} `{!UserCopy U}.
#[local] Abbreviation FS := (fs (U := U)).

(** A read of [n] bytes at an offset inside the file returns exactly the
    bytes of the file's blocks at that place and leaves the file system as it
    was.  The count is not cut at the end of the file: past it the caller gets
    what the last block holds. *)
Theorem readi_reads (s : FS) ip x l off n :
  itable s !! ip = Some x -> held s = [] -> file_holds s x l ->
  0 <= off <= isize x -> 0 <= n -> off + n <= Z.of_nat (length l) ->
  exists s', readi ip None off n s = Done ((n, slice off n l), s') /\ sees s s'.
Proof.
  intros Hx Hh Hl Hoff Hn Hlen. unfold readi. rewrite (geti_bind _ _ _ _ Hx).
  assert (off + n <= MAXFILE * BSIZE) as Hmax by (destruct Hl as (K & HK & HK2 & _); unfold BSIZE in *; lia).
  replace (u32 (off + n)) with (off + n)
    by (symmetry; apply Z.mod_small; unfold MAXFILE, NDIRECT, NINDIRECT, BSIZE in Hmax; lia).
  rewrite (proj2 (Z.ltb_ge (isize x) off)), (proj2 (Z.ltb_ge (off + n) off)),
    (proj2 (Z.ltb_ge (MAXFILE * BSIZE) (off + n))) by lia. cbn [orb].
  destruct (readi_loop_spec ip x l (io_fuel n) s off n 0 [] Hx Hh Hl) as (s' & H & Hs); try lia.
  - unfold io_fuel. lia.
  - intros _. unfold rounds, io_fuel, BSIZE. zdiv.
  - exists s'. rewrite Z.sub_0_r in H. by split.
Qed.

(** C27. [balloc] takes the first block whose bit is clear: it sets that bit
    and no other, in the cache and on the disk, and lets its buffer go; with
    all bits set it panics. *)
Theorem balloc_first_free (s : FS) :
  bitmap_ok s -> held s = [] -> datastart s <= nblocks (sb s) ->
  (exists j s', balloc s = Done (j, s') /\ datastart s <= j < nblocks (sb s) /\ bit_of s j = Some false /\
     (forall i, datastart s <= i < j -> bit_of s i = Some true) /\ taken s j s') \/
  (balloc s = Panic "balloc: out of blocks" /\
     forall i, datastart s <= i < nblocks (sb s) -> bit_of s i = Some true).
Proof.
  intros HB Hh Hle. unfold balloc. rewrite bind_get.
  apply (balloc_loop_spec s HB); [lia|lia|by apply holding_refl|done].
Qed.

(** No inode is in two slots. *)
Definition one_slot (t : gmap Z inode_t) : Prop :=
  forall i j x y, t !! i = Some x -> t !! j = Some y -> 0 < iref x -> 0 < iref y ->
    dev x = dev y -> inum x = inum y -> i = j.

Lemma one_slot_insert t i x :
  one_slot t -> (forall j y, i <> j -> t !! j = Some y -> 0 < iref y -> dev y = dev x -> inum y = inum x -> False) ->
  one_slot (<[i := x]> t).
Proof.
  intros H Hx j1 j2 y1 y2. rewrite !lookup_insert_Some.
  intros [[<- <-]|[H1 Hy1]] [[<- <-]|[H2 Hy2]] R1 R2 D N; [done| | |by eapply H].
  - destruct (Hx j2 y2 H2 Hy2 R2); congruence.
  - destruct (Hx j1 y1 H1 Hy1 R1); congruence.
Qed.

Lemma holds_inode_spec t d n ip :
  holds_inode t d n ip = true <-> exists x, t !! ip = Some x /\ 0 < iref x /\ dev x = d /\ inum x = n.
Proof.
  unfold holds_inode. destruct (t !! ip) as [x|]; [|split; [done|by intros (? & ? & _)]].
  rewrite !andb_true_iff, Z.ltb_lt, !Z.eqb_eq. split; [|intros (? & [= <-] & ?); tauto].
  intros [[? ?] ?]. eauto.
Qed.

(** [iget] by the slots it finds. *)
Lemma iget_run (s : FS) d n : table_full (itable s) ->
  iget d n s =
    match List.find (holds_inode (itable s) d n) slots, List.find (empty_slot (itable s)) slots with
    | Some ip, _ => bind (seti ip (fun x => with_ref (iref x + 1) x)) (fun _ => ret ip) s
    | None, Some ip => bind (seti ip (with_key d n)) (fun _ => ret ip) s
    | None, None => Panic "iget: no inodes"
    end.
Proof.
  intros Ht. unfold iget.
  rewrite (bind_done _ _ _ _ _ (iget_loop_spec s d n Ht (Z.to_nat NINODE) 0 None ltac:(lia) ltac:(done))).
  change (seqZ 0 (Z.of_nat (Z.to_nat NINODE))) with slots.
  destruct (List.find (holds_inode _ _ _) slots); [done|]. by destruct (List.find (empty_slot _) slots).
Qed.

Lemma find_empty t ip : List.find (empty_slot t) slots = Some ip -> exists x, t !! ip = Some x /\ iref x = 0.
Proof.
  intros [_ He]%List.find_some. unfold empty_slot in He. destruct (t !! ip) as [x|]; [|done].
  exists x. split; [done|]. by apply Z.eqb_eq.
Qed.

Lemma find_none_holds_inode (s : FS) d n j y :
  table_full (itable s) -> List.find (holds_inode (itable s) d n) slots = None -> itable s !! j = Some y ->
  holds_inode (itable s) d n j = false.
Proof.
  intros Ht Hf Hy. eapply List.find_none; [exact Hf|]. apply list_elem_of_In, elem_of_seqZ. apply Ht. by eexists.
Qed.

(** C28. [iget] returns the slot that holds the inode, with one reference
    more; else the first empty slot, now holding the inode, unread, with one
    reference; else it panics.  No inode ever gets two slots. *)
Theorem iget_refines (s : FS) d n :
  table_full (itable s) -> one_slot (itable s) ->
  match List.find (holds_inode (itable s) d n) slots, List.find (empty_slot (itable s)) slots with
  | Some ip, _ => exists x, itable s !! ip = Some x /\ dev x = d /\ inum x = n /\
      iget d n s = Done (ip, set_itable (<[ip := with_ref (iref x + 1) x]> (itable s)) s) /\
      one_slot (<[ip := with_ref (iref x + 1) x]> (itable s))
  | None, Some ip => exists x, itable s !! ip = Some x /\ iref x = 0 /\
      iget d n s = Done (ip, set_itable (<[ip := with_key d n x]> (itable s)) s) /\
      one_slot (<[ip := with_key d n x]> (itable s))
  | None, None => iget d n s = Panic "iget: no inodes"
  end.
Proof.
  intros Ht H1. rewrite iget_run by done.
  destruct (List.find (holds_inode _ _ _) slots) as [ip|] eqn:Hf.
  - apply List.find_some in Hf as [_ (x & Hx & Hr & <- & <-)%holds_inode_spec].
    exists x. do 3 (split; [done|]). split; [by rewrite (seti_bind _ _ _ _ _ Hx)|].
    apply one_slot_insert; [done|]. cbn. intros j y Hne Hy Hry Hd Hn. apply Hne. by eapply H1.
  - destruct (List.find (empty_slot _) slots) as [ip|] eqn:He; [|done].
    destruct (find_empty _ _ He) as (x & Hx & Hr).
    exists x. do 2 (split; [done|]). split; [by rewrite (seti_bind _ _ _ _ _ Hx)|].
    apply one_slot_insert; [done|]. cbn. intros j y Hne Hy Hry Hd Hn.
    assert (holds_inode (itable s) d n j = true) as Hj by (apply holds_inode_spec; eauto).
    by rewrite (find_none_holds_inode s d n j y Ht Hf Hy) in Hj.
Qed.

(** A write that starts at a direct block the file does not have yet
    writes nothing and answers 0: the block is never allocated, since [bmap]
    takes new blocks only beyond the block after the end of the file.  So a
    file cannot grow into a new block. *)
Theorem writei_never_grows (s : FS) ip x src off n :
  itable s !! ip = Some x -> 0 <= off <= isize x -> off / BSIZE < NDIRECT ->
  arr_get (addrs x) (off / BSIZE) = Some 0 -> 0 < n -> off + n <= MAXFILE * BSIZE ->
  writei ip src off n s = bind (iupdate ip) (fun _ => ret 0) s.
Proof.
  intros Hx Hoff Hk Ha Hn Hmax. unfold writei. rewrite (geti_bind _ _ _ _ Hx).
  replace (u32 (off + n)) with (off + n)
    by (symmetry; apply Z.mod_small; unfold MAXFILE, NDIRECT, NINDIRECT, BSIZE in Hmax; lia).
  rewrite (proj2 (Z.ltb_ge (isize x) off)), (proj2 (Z.ltb_ge (off + n) off)),
    (proj2 (Z.ltb_ge (MAXFILE * BSIZE) (off + n))) by lia. cbn [orb].
  assert (bmap ip (off / BSIZE) s = Done (0, s)) as Hb.
  { unfold bmap. rewrite (proj2 (Z.leb_gt MAXFILE _)) by (unfold MAXFILE, NINDIRECT, NDIRECT in *; lia).
    rewrite (geti_bind _ _ _ _ Hx). cbv zeta.
    rewrite (proj2 (Z.ltb_ge _ _)) by (unfold BSIZE; zdiv).
    rewrite (proj2 (Z.ltb_lt _ _)) by done. unfold get_addr. by rewrite Ha. }
  assert (writei_loop (io_fuel n) ip src off n 0 s = Done ((0, off), s)) as Hl.
  { unfold io_fuel. rewrite Nat.add_comm. cbn [Nat.add writei_loop].
    rewrite (proj2 (Z.ltb_lt 0 n)) by done. cbn [negb]. by rewrite (bind_done _ _ _ _ _ Hb). }
  rewrite (bind_done _ _ _ _ _ Hl), (geti_bind _ _ _ _ Hx).
  by rewrite (proj2 (Z.ltb_ge (isize x) off)) by lia.
Qed.

(** The last reference of an unlinked inode: [iput] takes the inode's lock
    and calls [itrunc], which asks for it again; with [itable.lock] held, the
    wait is a panic of [sched]. *)
Lemma iput_panics (s : FS) ip x :
  itable s !! ip = Some x -> iref x = 1 -> valid x = true -> nlink x = 0 -> lock x <= 1 ->
  iput ip s = Panic "sched locks".
Proof.
  intros Hx Hr Hv Hn Hl. unfold iput. rewrite (geti_bind _ _ _ _ Hx), Hr, Hv, Hn. cbn [Z.eqb Pos.eqb andb].
  unfold spin_locked, lm_P at 1, bind. rewrite Hx. destruct (Z.leb_spec (lock x) 0); [done|].
  unfold itrunc, bind, lm_P at 1. cbn [itable set_itable]. rewrite lookup_insert_eq. cbn [lock with_lock].
  by rewrite (proj2 (Z.leb_le (lock x - 1) 0)) by lia.
Qed.

(** ** Creating an inode *)

(** The type of inode [i] on the disk. *)
Definition dtype (s : FS) (d i : Z) : option Z :=
  match block s (d, IBLOCK i (sb s)) with Some x => Some (fld 2 (dinode_off i) x) | None => None end.

(** The inode blocks are there, and every inode in use is allocated. *)
Definition inodes_ok (s : FS) (d : Z) : Prop :=
  0 <= inodestart (sb s) /\ inodestart (sb s) + ninodes (sb s) / IPB < 2 ^ 32 /\
  (forall i, 1 <= i < ninodes (sb s) -> is_Some (dtype s d i)) /\
  (forall j x, itable s !! j = Some x -> 0 < iref x -> dev x = d -> dtype s d (inum x) <> Some 0) /\
  (forall j x, itable s !! j = Some x -> iref x = 0 -> lock x = 1).

Lemma IBLOCK_u32 (s : FS) d i : inodes_ok s d -> 0 <= i < ninodes (sb s) -> u32 (IBLOCK i (sb s)) = IBLOCK i (sb s).
Proof.
  intros (H0 & H1 & _) Hi. apply Z.mod_small. unfold IBLOCK.
  assert (i / IPB <= ninodes (sb s) / IPB) by (apply Z.div_le_mono; unfold IPB; lia).
  assert (0 <= i / IPB) by (apply Z.div_pos; unfold IPB; lia). lia.
Qed.

(** Where the scan of [ialloc] ends. *)
Lemma ialloc_loop_spec (s : FS) d ty : inodes_ok s d -> forall k i b s',
  1 <= i -> i + Z.of_nat k = Z.max 1 (ninodes (sb s)) -> holding s b s' ->
  (forall c, b = Some c -> c.1 = d /\ (0 < Z.of_nat k -> c.2 <= IBLOCK i (sb s))) ->
  (exists s'', ialloc_loop k d ty i b s' = Done (None, s'')) \/
  (exists j s'', i <= j < ninodes (sb s) /\ dtype s d j = Some 0 /\
     holding s (Some (d, IBLOCK j (sb s))) s'' /\
     ialloc_loop k d ty i b s' =
       bind (iget d j) (fun ip => bind (seti ip (with_type ty)) (fun _ =>
         bind (brelse (d, IBLOCK j (sb s))) (fun _ => ret (Some ip)))) s'').
Proof.
  intros HI. pose proof HI as (Hst & _ & Hty & _).
  induction k as [|k IH]; intros i b s' Hi Hk Hs Hb; cbn [ialloc_loop]; [left; by eexists|].
  rewrite bind_get. pose proof Hs as (_ & _ & _ & Esb & _). rewrite Esb.
  assert (1 <= i < ninodes (sb s)) as Hi' by lia. destruct (Hty i Hi') as [t Ht].
  pose proof Ht as Ht'. unfold dtype in Ht'. rewrite (IBLOCK_u32 s d) by (done || lia).
  destruct (block s (d, IBLOCK i (sb s))) as [x|] eqn:Hx; [|done]. injection Ht' as E.
  destruct (holding_next s s' b d (IBLOCK i (sb s)) x Hs Hx) as (s1 & H1 & Hs1).
  { intros c Hc. destruct (Hb c Hc) as [Ec Hle]. split; [done|]. apply Hle. lia. }
  rewrite (bind_done _ _ _ _ _ H1), (holding_data _ _ _ _ _ Hs1 Hx), E.
  destruct (Z.eqb_spec t 0) as [->|Hne].
  - right. exists i, s1. split; [lia|]. by split.
  - destruct (IH (i + 1) (Some (d, IBLOCK i (sb s))) s1) as [H|(j & s2 & Hj & H)]; [lia|lia|done| |by left|].
    + intros c [= <-]. split; [done|]. intros _. cbn. unfold IBLOCK.
      pose proof (Z.div_le_mono i (i + 1) IPB). unfold IPB in *. lia.
    + right. exists j, s2. split; [lia|exact H].
Qed.

Lemma holding_itable (s : FS) b s' t : holding s b s' -> holding (set_itable t s) b (set_itable t s').
Proof. intros (? & ? & ? & ? & ? & ? & ? & ? & ?). unfold holding. by split_and!. Qed.

(** The inode as [ilock] leaves it, when [d] are the bytes of its block. *)
Definition locked_inode (d : list Z) (x : inode_t) : inode_t :=
  with_valid true (load_dinode (slice (dinode_off (inum x)) 64 d) (with_lock 0 x)).

(** [ilock] on a slot whose inode is not read yet. *)
Lemma ilock_loads (s s1 : FS) ip x d :
  holding s None s1 -> itable s !! ip = Some x -> 1 <= iref x -> lock x = 1 -> valid x = false ->
  block s (dev x, u32 (IBLOCK (inum x) (sb s))) = Some d ->
  exists s2, ilock (Some ip) s1 =
      (if itype (locked_inode d x) =? 0 then Panic "ilock: no type" else Done (tt, s2)) /\
    holding (set_itable (<[ip := locked_inode d x]> (itable s)) s) None s2.
Proof.
  intros Hs Hx Hr Hl Hv Hd. pose proof Hs as (_ & _ & _ & _ & _ & Hit & _).
  set (t1 := <[ip := with_lock 0 x]> (itable s)).
  destruct (holding_open _ _ (dev x) (u32 (IBLOCK (inum x) (sb s))) d (holding_itable s None s1 t1 Hs) Hd) as (s2 & Hr2 & Hs2).
  pose proof Hs2 as (_ & _ & _ & Hsb & _ & Hit2 & _).
  set (y := load_dinode (slice (dinode_off (inum x)) 64 d) (with_lock 0 x)). set (t2 := <[ip := y]> t1).
  destruct (holding_close _ _ _ (holding_itable _ _ _ t2 Hs2)) as (s3 & Hr3 & Hs3).
  pose proof Hs3 as (_ & _ & _ & _ & _ & Hit3 & _).
  exists (set_itable (<[ip := locked_inode d x]> (itable s3)) s3). split.
  - unfold ilock. rewrite (geti_bind ip x s1) by (by rewrite Hit). rewrite (proj2 (Z.ltb_ge _ 1)) by lia.
    assert (lm_P ip s1 = Done (tt, set_itable t1 s1)) as HP by (unfold lm_P; by rewrite Hit, Hx, Hl).
    rewrite (bind_done _ _ _ _ _ HP), (geti_bind ip (with_lock 0 x)) by apply lookup_insert_eq.
    cbn [valid with_lock]. rewrite Hv, bind_get. cbn [dev inum with_lock].
    change (sb (set_itable t1 s1)) with (sb s1). replace (sb s1) with (sb s) by (by destruct Hs as (_ & _ & _ & -> & _)).
    rewrite (bind_done _ _ _ _ _ Hr2), (holding_data _ _ _ _ _ Hs2 Hd).
    rewrite (seti_bind ip _ (with_lock 0 x)) by (rewrite Hit2; apply lookup_insert_eq). fold y. rewrite Hit2. fold t2.
    rewrite (bind_done _ _ _ _ _ Hr3).
    rewrite (seti_bind ip _ y) by (rewrite Hit3; apply lookup_insert_eq).
    rewrite (geti_bind ip (locked_inode d x)) by apply lookup_insert_eq. by destruct (_ =? 0).
  - rewrite Hit3. change (itable (set_itable t2 (set_itable t1 s))) with t2. unfold t2, t1.
    rewrite !insert_insert_eq.
    exact (holding_itable _ _ _ (<[ip := locked_inode d x]> (itable s)) Hs3).
Qed.

Lemma ilock_no_type (s s1 : FS) d i ip y :
  holding s None s1 -> itable s !! ip = Some y -> iref y = 1 -> lock y = 1 -> valid y = false ->
  dev y = d -> inum y = i -> u32 (IBLOCK i (sb s)) = IBLOCK i (sb s) -> dtype s d i = Some 0 ->
  ilock (Some ip) s1 = Panic "ilock: no type".
Proof.
  intros Hs Hy Hr Hl Hv <- <- Hu Ht. unfold dtype in Ht.
  destruct (block s (dev y, IBLOCK (inum y) (sb s))) as [x|] eqn:Hx; [|done]. injection Ht as Ht.
  destruct (ilock_loads s s1 ip y x) as (s2 & -> & _); try done; [lia|by rewrite Hu|].
  assert (itype (locked_inode x y) = 0) as ->; [|done].
  unfold locked_inode. cbn [itype load_dinode with_valid]. unfold fld. rewrite slice_slice by (unfold dinode_off, IPB; zdiv).
  rewrite Z.add_0_r. unfold fld in Ht. change (Z.of_nat 2) with 2 in *. by rewrite Ht.
Qed.

(** A new inode cannot be used: [ialloc] sets its type in the table but
    not on the disk, and the [ilock] that follows it in [create] reads the
    inode, finds type 0 and panics. *)
Theorem ialloc_ilock_panics (s s1 : FS) d ty ip :
  inodes_ok s d -> table_full (itable s) -> one_slot (itable s) -> held s = [] ->
  ialloc d ty s = Done (Some ip, s1) -> ilock (Some ip) s1 = Panic "ilock: no type".
Proof.
  intros HI Ht H1 Hh Hrun. unfold ialloc in Hrun. rewrite bind_get in Hrun.
  destruct (ialloc_loop_spec s d ty HI (Z.to_nat (ninodes (sb s) - 1)) 1 None s) as [[s2 H]|(i & s2 & Hi & Hty & Hs2 & H)];
    [lia|lia|by apply holding_refl|done|by rewrite H in Hrun|].
  rewrite H in Hrun. clear H. pose proof HI as (_ & _ & _ & Huse & Hlock).
  pose proof Hs2 as (Hblk & _ & _ & Esb & _ & Eit & _). rewrite <- Eit in Ht, H1.
  pose proof (iget_run s2 d i Ht) as Hg.
  destruct (List.find (holds_inode _ _ _) slots) as [j|] eqn:Hf.
  { exfalso. apply List.find_some in Hf as [_ (x & Hx & Hr & Hd & Hn)%holds_inode_spec].
    rewrite Eit in Hx. apply (Huse j x Hx Hr Hd). by rewrite Hn. }
  destruct (List.find (empty_slot _) slots) as [j|] eqn:He; [|by rewrite (bind_panic _ _ _ _ Hg) in Hrun].
  destruct (find_empty _ _ He) as (x & Hx & Hr). rewrite (seti_bind j _ x) in Hg by done.
  rewrite (bind_done _ _ _ _ _ Hg) in Hrun.
  rewrite (seti_bind j _ (with_key d i x)) in Hrun by apply lookup_insert_eq.
  cbn [itable set_itable] in Hrun.
  set (y := with_type ty (with_key d i x)) in Hrun. set (t := <[j := y]> _) in Hrun.
  destruct (holding_close _ _ _ (holding_itable s _ s2 t Hs2)) as (s3 & Hrel & Hs3).
  change (set_itable t (set_itable _ s2)) with (set_itable t s2) in Hrun.
  rewrite (bind_done _ _ _ _ _ Hrel) in Hrun. injection Hrun as <- <-.
  apply (ilock_no_type _ _ d i j y Hs3); try done.
  - apply lookup_insert_eq.
  - cbn. rewrite Eit in Hx. by eapply Hlock.
  - apply (IBLOCK_u32 s d i HI); lia.
Qed.

End FsTheorems.

(** ** A concrete file system: blocks 2 (inodes), 3 (bitmap) and 10 (data) *)

#[export] Program Instance no_copy : UserCopy unit := {
  copy_out _ _ u := (u, true);
  copy_in _ n _ := (replicate (Z.to_nat n) 0, true)
}.
Next Obligation. intros p n u l [= <-]. apply length_replicate. Qed.

Definition zeros : list Z := replicate 1024 0.
Definition demo_file : inode_t := mkInode 1 2 1 true 1 2 0 0 1 5 (10 :: replicate 12 0).
Definition demo_itable : gmap Z inode_t :=
  <[0 := demo_file]> (gset_to_gmap (mkInode 0 0 0 false 1 0 0 0 0 0 (replicate 13 0)) (list_to_set (seqZ 0 100))).
Definition demo_fs : fs (U := unit) :=
  mkFs ∅ (list_to_map [(2, <[128%nat := 2]> zeros); (3, <[0%nat := 31]> zeros); (10, replicate 1024 7)])
       [] (mkSb FSMAGIC 64 20 2 2 3) 4 demo_itable 0 tt.

Lemma demo_itable_full : table_full demo_itable.
Proof.
  intros ip. unfold demo_itable. rewrite lookup_insert_is_Some'.
  assert (is_Some (gset_to_gmap (mkInode 0 0 0 false 1 0 0 0 0 0 (replicate 13 0)) (list_to_set (seqZ 0 100) : gset Z) !! ip)
    <-> 0 <= ip < 100) as E.
  { rewrite <- (elem_of_seqZ 0 100), <- (elem_of_list_to_set (C := gset Z)). rewrite <- elem_of_dom, dom_gset_to_gmap. done. }
  rewrite E. unfold NINODE. lia.
Qed.

Lemma demo_itable_lookup j x : demo_itable !! j = Some x -> (j = 0 /\ x = demo_file) \/ (iref x = 0 /\ lock x = 1).
Proof.
  unfold demo_itable. intros [[<- <-]|[_ H]]%lookup_insert_Some; [by left|right].
  apply lookup_gset_to_gmap_Some in H as [_ <-]. done.
Qed.

Lemma demo_one_slot : one_slot demo_itable.
Proof.
  intros i j x y [[-> ->]|[Hx _]]%demo_itable_lookup [[-> ->]|[Hy _]]%demo_itable_lookup; [done|lia..].
Qed.

Lemma demo_file_holds : file_holds demo_fs demo_file (replicate 1024 7).
Proof.
  exists 1. split; [done|]. split; [done|]. split; [done|]. intros k Hk.
  assert (k = 0) as -> by lia. exists 10. by vm_compute.
Qed.

Lemma demo_bitmap : bitmap_ok demo_fs.
Proof.
  repeat (split; [done|]). intros j Hj. cbn in Hj.
  assert (forallb (fun j => bool_decide (is_Some (bit_of demo_fs j))) (seqZ 4 16) = true) as HF
    by (vm_compute; reflexivity).
  rewrite forallb_forall in HF. eapply bool_decide_eq_true, HF. apply list_elem_of_In, elem_of_seqZ. lia.
Qed.

Lemma demo_inodes : inodes_ok demo_fs 1.
Proof.
  split; [done|]. split; [done|]. split; [|split].
  - intros i Hi. cbn in Hi. assert (i = 1) as -> by lia. eexists. by vm_compute.
  - intros j x [[-> ->]|[Hr _]]%demo_itable_lookup Hx _; [by vm_compute|lia].
  - intros j x [[-> ->]|[_ Hl]]%demo_itable_lookup Hx; done.
Qed.

Lemma readi_reads_witness : exists s', readi 0 None 2 10 demo_fs = Done ((10, replicate 10 7), s').
Proof.
  destruct (readi_reads demo_fs 0 demo_file (replicate 1024 7) 2 10) as (s' & H & _);
    [apply lookup_insert_eq|reflexivity|exact demo_file_holds|split; vm_compute; discriminate|lia|
     rewrite length_replicate; lia|].
  exists s'. exact H.
Defined.

Lemma balloc_first_free_witness : exists j s', balloc demo_fs = Done (j, s') /\ bit_of demo_fs j = Some false.
Proof.
  destruct (balloc_first_free demo_fs demo_bitmap) as [(j & s' & H & _ & Hb & _)|[_ H]];
    [reflexivity|vm_compute; discriminate|by exists j, s'|].
  exfalso. assert (bit_of demo_fs 5 = Some true) as H5 by (apply H; vm_compute; done).
  vm_compute in H5. discriminate H5.
Defined.

Lemma iget_refines_witness : exists x s', demo_itable !! 0 = Some x /\ iget 1 2 demo_fs = Done (0, s').
Proof.
  pose proof (iget_refines demo_fs 1 2 demo_itable_full demo_one_slot) as H.
  assert (List.find (holds_inode (itable demo_fs) 1 2) slots = Some 0) as E by (vm_compute; reflexivity).
  rewrite E in H. destruct H as (x & Hx & _ & _ & H & _). exists x. eexists. split; [exact Hx|exact H].
Defined.

Lemma writei_never_grows_witness :
  writei 0 0 5 2000 (set_itable (<[0 := with_addr 0 0 demo_file]> demo_itable) demo_fs) =
  bind (iupdate 0) (fun _ => ret 0) (set_itable (<[0 := with_addr 0 0 demo_file]> demo_itable) demo_fs).
Proof.
  apply (writei_never_grows _ 0 (with_addr 0 0 demo_file) 0 5 2000); [apply lookup_insert_eq|split; vm_compute; discriminate|
    reflexivity|reflexivity|lia|].
  vm_compute. discriminate.
Defined.

Definition demo_ialloc : fs (U := unit) :=
  match ialloc 1 T_FILE demo_fs with Done (_, s) => s | _ => demo_fs end.

Lemma ialloc_ilock_panics_witness :
  ialloc 1 T_FILE demo_fs = Done (Some 1, demo_ialloc) /\ ilock (Some 1) demo_ialloc = Panic "ilock: no type".
Proof.
  assert (ialloc 1 T_FILE demo_fs = Done (Some 1, demo_ialloc)) as H by (vm_compute; reflexivity).
  split; [exact H|].
  exact (ialloc_ilock_panics demo_fs demo_ialloc 1 T_FILE 1 demo_inodes demo_itable_full demo_one_slot eq_refl H).
Defined.
