(* ===== verification/BioFs.v ===== *)
(** * The buffer cache carries out what the file system asks of it

    [Fs] sees blocks through a cache, a disk and the list of buffers held.
    This file shows that bio.c, on any disk, does to its buffers what the
    operations of [Fs] do to that view: the interface between the two
    components, discharged. *)
From S2P Require Import Prelude Bio BioProofs Fs FsTheorems.

Section BioFs.
Context {D : Type} `{!BlockDev D} {U : Type} `{!UserCopy U}.
Implicit Types (c : bcache_t) (dk : D) (s : fs (U := U)).

(** Between the calls of task [pid], the only one in the file system: the
    buffers with a key are valid and are what is cached; those that [s] holds
    are locked by [pid], the others free; the disk has the blocks of [s]. *)
Record backed (pid : Z) (l : list Z) c dk s : Prop := mkBacked {
  bk_view : bview c l;
  bk_once : cached_once c;
  bk_valid : forall b x, bufs c !! b = Some x -> Bio.valid x = true <-> key x <> (0, 0);
  bk_cache : forall k d, cache s !! k = Some d <->
    exists b x, bufs c !! b = Some x /\ key x = k /\ Bio.valid x = true /\ data x = d;
  bk_dsk : forall n d, dsk s !! n = Some d -> disk_read dk n = d;
  bk_held : forall b x, bufs c !! b = Some x -> key x ∈ held s -> holding_task x = pid /\ refcnt x = 1 /\ sem x = 0;
  bk_free : forall b x, bufs c !! b = Some x -> key x ∉ held s -> refcnt x = 0 /\ sem x = 1;
  bk_cached : forall k, k ∈ held s -> is_Some (cache s !! k)
}.

(** Buffer [b] has block [k]. *)
Definition buffer_of c (b : Z) (k : Z * Z) : Prop := exists x, bufs c !! b = Some x /\ key x = k.

Definition evicted s s0 : Prop := s0 = s \/ exists k, s0 = evict k s.

Lemma held_key pid l c dk s k : backed pid l c dk s -> k ∈ held s -> k <> (0, 0).
Proof.
  intros H [d Hd]%(bk_cached _ _ _ _ _ H). apply (bk_cache _ _ _ _ _ H) in Hd as (b & x & Hx & <- & Hv & _).
  by apply (bk_valid _ _ _ _ _ H b x Hx).
Qed.

(** The one buffer of a block. *)
Lemma buffer_cached pid l c dk s b x k d :
  backed pid l c dk s -> bufs c !! b = Some x -> key x = k -> cache s !! k = Some d -> Bio.valid x = true /\ data x = d.
Proof.
  intros H Hx <- Hd. apply (bk_cache _ _ _ _ _ H) in Hd as (b' & x' & Hx' & Hk & Hv & Hdat).
  pose proof (proj1 (bk_valid _ _ _ _ _ H b' x' Hx') Hv) as Hnz.
  assert (b' = b) as -> by (by eapply (bk_once _ _ _ _ _ H)). rewrite Hx in Hx'. by injection Hx' as ->.
Qed.

(** A buffer whose record becomes [y] and block [key y] with it: the other
    buffers are about other blocks. *)
Lemma backed_update pid l c dk s b x y s' :
  backed pid l c dk s -> bufs c !! b = Some x -> key y <> (0, 0) -> Bio.valid y = true ->
  (forall b' x', b' <> b -> bufs c !! b' = Some x' -> key x' <> key y) ->
  cache s' = <[key y := data y]> (delete (key x) (cache s)) -> dsk s' = dsk s ->
  (forall k, k <> key y -> k <> key x -> k ∈ held s' <-> k ∈ held s) -> (key x = key y \/ key x ∉ held s') ->
  (if decide (key y ∈ held s') then holding_task y = pid /\ refcnt y = 1 /\ sem y = 0 else refcnt y = 0 /\ sem y = 1) ->
  backed pid l (mkCache (Bio.next c) (Bio.prev c) (<[b := y]> (bufs c))) dk s'.
Proof.
  intros H Hx Hy0 Hyv Huniq Hcache Hdsk Hheld Hxh Hy. pose proof H as [B1 B2 B3 B4 B5 B6 B7 B8].
  assert (forall b' x', b' <> b -> bufs c !! b' = Some x' -> key x' = key x -> key x = (0, 0)) as Huniqx.
  { intros b' x' Hb' Hx' Hk. destruct (decide (key x = (0, 0))); [done|]. exfalso. apply Hb'. eapply B2; eauto. by rewrite Hk. }
  assert (forall b' x', b' <> b -> bufs c !! b' = Some x' -> key x' ∈ held s' <-> key x' ∈ held s) as Hother.
  { intros b' x' Hb' Hx'. destruct (decide (key x' = key x)) as [E|E]; [|by apply Hheld; [apply (Huniq b')|]].
    pose proof (Huniqx b' x' Hb' Hx' E) as E0. rewrite E. split.
    - destruct Hxh as [Hxh|Hxh]; [congruence|done].
    - intros Hin. by destruct (held_key _ _ _ _ _ _ H Hin). }
  split; cbn [bufs].
  - by eapply bview_setb.
  - intros b1 b2 x1 x2. cbn [bufs]. rewrite !lookup_insert_Some. intros [[<- <-]|[N1 H1]] [[<- <-]|[N2 H2]] E Z; try done.
    + symmetry in E. by destruct (Huniq b2 x2 (not_eq_sym N2) H2).
    + by destruct (Huniq b1 x1 (not_eq_sym N1) H1).
    + by eapply B2.
  - intros b' x'. rewrite lookup_insert_Some. intros [[<- <-]|[N H']]; [done|by apply B3 in H'].
  - intros k d. rewrite Hcache, lookup_insert_Some, lookup_delete_Some, B4. split.
    + intros [[<- <-]|(Hk & Hkx & b' & x' & H' & <- & Hv & <-)]; [exists b, y; by rewrite lookup_insert_eq|].
      exists b', x'. rewrite lookup_insert_ne; [done|]. intros <-. congruence.
    + intros (b' & x' & H' & <- & Hv & <-). rewrite lookup_insert_Some in H'. destruct H' as [[<- <-]|[N H']]; [by left|].
      right. split; [apply not_eq_sym, (Huniq b'); done|]. split; [|by exists b', x'].
      intros E. pose proof (proj1 (B3 b' x' H') Hv) as Hnz. apply Hnz. rewrite <- E. by apply (Huniqx b' x').
  - by rewrite Hdsk.
  - intros b' x'. rewrite lookup_insert_Some. intros [[<- <-]|[N H']] Hin; [by rewrite decide_True in Hy|].
    apply (B6 b' x' H'). by apply (Hother b').
  - intros b' x'. rewrite lookup_insert_Some. intros [[<- <-]|[N H']] Hin; [by rewrite decide_False in Hy|].
    apply (B7 b' x' H'). intros Hin'. apply Hin. by apply (Hother b').
  - intros k Hk. rewrite Hcache. destruct (decide (key y = k)) as [<-|Hky]; [rewrite lookup_insert_eq; by eexists|].
    rewrite lookup_insert_ne by done. destruct (decide (key x = k)) as [<-|Hkx]; [by destruct Hxh|].
    rewrite lookup_delete_ne by done. apply B8. by apply Hheld.
Qed.

(** ** Reading a block *)

#[local] Abbreviation nbufs c := (base.size (bufs c)).

(** When not all buffers are held, one is free. *)
Lemma free_buffer pid l c dk s :
  backed pid l c dk s -> (length (held s) < nbufs c)%nat -> exists b, List.find (unused c) (rev l) = Some b.
Proof.
  intros H Hlt. destruct (List.find (unused c) (rev l)) as [b|] eqn:Hf; [by exists b|]. exfalso.
  assert (forall b x, bufs c !! b = Some x -> key x ∈ held s) as Hall.
  { intros b x Hx. destruct (decide (key x ∈ held s)) as [|Hin]; [done|].
    assert (b ∈ l) as Hb by (apply (bv_bufs _ _ (bk_view _ _ _ _ _ H)); by eexists).
    assert (unused c b = false) as E by (eapply List.find_none; [exact Hf|]; by apply in_rev; rewrite rev_involutive; apply list_elem_of_In).
    unfold unused in E. rewrite Hx in E. destruct (bk_free _ _ _ _ _ H b x Hx Hin) as [E0 _]. by rewrite E0 in E. }
  assert (NoDup ((fun p => key p.2) <$> map_to_list (bufs c))) as Hnd.
  { apply NoDup_fmap_2_strong; [|apply NoDup_map_to_list].
    intros [b1 x1] [b2 x2] H1%elem_of_map_to_list H2%elem_of_map_to_list E. cbn in E.
    assert (b1 = b2) as <- by (eapply (bk_once _ _ _ _ _ H); eauto using held_key).
    rewrite H1 in H2. by injection H2 as ->. }
  assert (length ((fun p => key p.2) <$> map_to_list (bufs c)) <= length (held s))%nat as Hle.
  { apply submseteq_length, NoDup_submseteq; [done|]. intros k ([b x] & -> & Hp%elem_of_map_to_list)%list_elem_of_fmap. by apply (Hall b). }
  rewrite length_fmap, length_map_to_list in Hle. lia.
Qed.

(** The record of a free buffer that [bget] hands out. *)
Lemma locked_free pid x : sem x = 1 -> locked_by pid (set_refcnt 1 x) = set_holding pid (set_sem 0 (set_refcnt 1 x)).
Proof. intros H. unfold locked_by. cbn [sem set_refcnt]. by rewrite H. Qed.

Lemma bread_hit pid l c dk s d n b x d0 :
  backed pid l c dk s -> (d, n) ∉ held s -> block s (d, n) = Some d0 -> (d, n) <> (0, 0) ->
  bufs c !! b = Some x -> key x = (d, n) ->
  exists c' s', bread_fill b (mkCache (Bio.next c) (Bio.prev c) (<[b := locked_by pid (set_refcnt 1 x)]> (bufs c)), dk) =
      Done (tt, (c', dk)) /\ Fs.bread d n s = Done ((d, n), s') /\ buffer_of c' b (d, n) /\ backed pid l c' dk s' /\
    nbufs c' = nbufs c /\ held s' = (d, n) :: held s.
Proof.
  intros H Hh Hd0 Hnz Hx Hk. rewrite <- Hk in Hh. destruct (bk_free _ _ _ _ _ H b x Hx Hh) as [Hr Hs]. rewrite Hk in Hh.
  assert (Bio.valid x = true) as Hv by (apply (bk_valid _ _ _ _ _ H b x Hx); by rewrite Hk).
  assert (cache s !! (d, n) = Some (data x)) as Hc by (apply (bk_cache _ _ _ _ _ H); by exists b, x).
  rewrite locked_free by done. set (y := set_holding pid _). eexists _, _. split_and!.
  - unfold bread_fill. erewrite getb_bind by apply lookup_insert_eq. cbn [y Bio.valid set_holding set_sem set_refcnt]. rewrite Hv. done.
  - unfold Fs.bread. rewrite bool_decide_eq_false_2 by done. unfold block. rewrite Hc. reflexivity.
  - exists y. split; [apply lookup_insert_eq|done].
  - apply (backed_update pid l c dk s b x y); try done.
    + change (key y) with (key x). by rewrite Hk.
    + intros b' x' Hb' Hx' E. apply Hb'. eapply (bk_once _ _ _ _ _ H); eauto. change (key y) with (key x) in E. by rewrite E, Hk.
    + cbn. change (key y) with (key x). rewrite Hk. by rewrite insert_delete_eq.
    + intros k Hk1 _. cbn. rewrite elem_of_cons. change (key y) with (key x) in Hk1. rewrite Hk in Hk1. tauto.
    + by left.
    + rewrite decide_True; [done|]. cbn. change (key y) with (key x). rewrite Hk. by left.
  - cbn [bufs]. by rewrite map_size_insert_Some by (by eexists).
  - done.
Qed.

Lemma bread_recycle pid l c dk s d n b x d0 :
  backed pid l c dk s -> (d, n) ∉ held s -> block s (d, n) = Some d0 -> (d, n) <> (0, 0) ->
  bufs c !! b = Some x -> refcnt x = 0 -> (forall b' x', bufs c !! b' = Some x' -> key x' <> (d, n)) ->
  exists c' s0 s', bread_fill b (mkCache (Bio.next c) (Bio.prev c)
      (<[b := locked_by pid (set_refcnt 1 (set_valid false (set_key d n x)))]> (bufs c)), dk) = Done (tt, (c', dk)) /\
    evicted s s0 /\ Fs.bread d n s0 = Done ((d, n), s') /\ buffer_of c' b (d, n) /\ backed pid l c' dk s' /\
    nbufs c' = nbufs c /\ held s' = (d, n) :: held s.
Proof.
  intros H Hh Hd0 Hnz Hx Hr Hnew.
  assert (key x ∉ held s) as Hxh.
  { intros Hin. destruct (bk_held _ _ _ _ _ H b x Hx Hin) as (_ & E & _). lia. }
  destruct (bk_free _ _ _ _ _ H b x Hx Hxh) as [_ Hs].
  assert (cache s !! (d, n) = None) as Hc.
  { apply eq_None_not_Some. intros [d1 Hd1]. apply (bk_cache _ _ _ _ _ H) in Hd1 as (b' & x' & Hx' & Hk & _). by apply (Hnew b' x'). }
  unfold block in Hd0. rewrite Hc in Hd0. cbn [snd] in Hd0. pose proof (bk_dsk _ _ _ _ _ H n d0 Hd0) as Hdk.
  rewrite locked_free by done. set (y0 := set_holding pid _). set (y := set_valid true (set_data d0 y0)).
  exists (mkCache (Bio.next c) (Bio.prev c) (<[b := y]> (bufs c))), (evict (key x) s). eexists. split_and!.
  - unfold bread_fill. erewrite getb_bind by apply lookup_insert_eq. cbn [y0 Bio.valid set_holding set_sem set_refcnt set_valid negb when].
    unfold virtio_disk_rw. rewrite bind_assoc. erewrite getb_bind by apply lookup_insert_eq. rewrite bind_assoc, bind_gets.
    erewrite setb_bind by apply lookup_insert_eq. unfold setb. cbn [fst snd bufs Bio.next Bio.prev].
    rewrite lookup_insert_eq, !insert_insert_eq. change (blockno y0) with n. rewrite Hdk. reflexivity.
  - right. by eexists.
  - unfold Fs.bread, evict. rewrite (bool_decide_eq_false_2 _ Hxh). cbn [held set_cache].
    rewrite bool_decide_eq_false_2 by done. unfold block. cbn [cache dsk set_cache snd].
    rewrite lookup_delete_ne, Hc, Hd0 by (apply (Hnew b x Hx)). reflexivity.
  - exists y. split; [apply lookup_insert_eq|done].
  - assert (key y = (d, n)) as Ey by done.
    apply (backed_update pid l c dk s b x y); try done; rewrite ?Ey; try done.
    + intros b' x' _ Hx'. by apply (Hnew b').
    + intros k Hk1 _. cbn. rewrite elem_of_cons. tauto.
    + right. cbn. rewrite elem_of_cons.
      intros [E|Hin]; [by apply (Hnew b x Hx)|done].
    + rewrite decide_True; [done|]. cbn. by left.
  - cbn [bufs]. by rewrite map_size_insert_Some by (by eexists).
  - done.
Qed.

Lemma bread_backed pid l c dk s d n :
  backed pid l c dk s -> (d, n) <> (0, 0) -> (d, n) ∉ held s -> is_Some (block s (d, n)) ->
  (length (held s) < nbufs c)%nat ->
  exists b c' s0 s', Bio.bread pid d n (c, dk) = Done ((b, true), (c', dk)) /\ evicted s s0 /\
    Fs.bread d n s0 = Done ((d, n), s') /\ buffer_of c' b (d, n) /\ backed pid l c' dk s' /\
    nbufs c' = nbufs c /\ held s' = (d, n) :: held s.
Proof.
  intros H Hnz Hh [d0 Hd0] Hroom. pose proof (bget_refines pid d n c dk l (bk_view _ _ _ _ _ H) (bk_once _ _ _ _ _ H) Hnz) as Hg.
  destruct (free_buffer _ _ _ _ _ H Hroom) as [bf Hbf]. unfold choose in Hg. rewrite Hbf in Hg.
  destruct (List.find (holds_key c d n) l) as [b|] eqn:Hf.
  - destruct Hg as (x & Hx & Hk & Hrun & _ & _). assert (key x ∉ held s) as Hxh by (by rewrite Hk).
    destruct (bk_free _ _ _ _ _ H b x Hx Hxh) as [Hr Hs]. rewrite Hr, Hs in Hrun. change (0 + 1) with 1 in Hrun.
    destruct (bread_hit pid l c dk s d n b x d0 H Hh Hd0 Hnz Hx Hk) as (c' & s' & Hfill & Hfs & Hrest).
    exists b, c', s, s'. split; [|split; [by left|by split]].
    unfold Bio.bread. rewrite (bind_done _ _ _ _ _ Hrun). change (0 <=? s32 (1 - 1)) with true. cbn [when].
    by rewrite (bind_done _ _ _ _ _ Hfill).
  - destruct Hg as (x & Hx & Hr & Hnone & Hrun & _ & _).
    assert (forall b' x', bufs c !! b' = Some x' -> key x' <> (d, n)) as Hnew.
    { intros b' x' Hx' Hk. assert (b' ∈ l) as Hin by (apply (bv_bufs _ _ (bk_view _ _ _ _ _ H)); by eexists).
      specialize (Hnone b' Hin). unfold holds_key in Hnone. rewrite Hx' in Hnone. unfold key in Hk. injection Hk as E1 E2.
      by rewrite E1, E2, !Z.eqb_refl in Hnone. }
    destruct (bread_recycle pid l c dk s d n bf x d0 H Hh Hd0 Hnz Hx Hr Hnew) as (c' & s0 & s' & Hfill & Hev & Hfs & Hrest).
    exists bf, c', s0, s'. split; [|exact (conj Hev (conj Hfs Hrest))].
    assert (key x ∉ held s) as Hxh by (intros Hin; destruct (bk_held _ _ _ _ _ H bf x Hx Hin) as (_ & E & _); lia).
    destruct (bk_free _ _ _ _ _ H bf x Hx Hxh) as [_ Hs].
    unfold Bio.bread. rewrite (bind_done _ _ _ _ _ Hrun), Hs. change (0 <=? s32 (1 - 1)) with true. cbn [when].
    by rewrite (bind_done _ _ _ _ _ Hfill).
Qed.

(** ** The other operations *)

(** Storing bytes in a buffer at hand. *)
Lemma store_backed pid l c dk s b k d :
  backed pid l c dk s -> k ∈ held s -> buffer_of c b k ->
  exists c' s', setb b (set_data d) (c, dk) = Done (tt, (c', dk)) /\ set_bdata k d s = Done (tt, s') /\
    buffer_of c' b k /\ backed pid l c' dk s' /\ nbufs c' = nbufs c /\ held s' = held s.
Proof.
  intros H Hk (x & Hx & Ek). pose proof (held_key _ _ _ _ _ _ H Hk) as Hnz.
  set (y := set_data d x). assert (key y = k) as Ey by done.
  assert (Bio.valid x = true) as Hv by (apply (bk_valid _ _ _ _ _ H b x Hx); by rewrite Ek).
  eexists _, _. split_and!.
  - unfold setb. cbn [fst snd]. by rewrite Hx.
  - reflexivity.
  - exists y. split; [apply lookup_insert_eq|done].
  - apply (backed_update pid l c dk s b x y); try done; rewrite ?Ey, ?Ek; try done.
    + intros b' x' Hb' Hx' E. apply Hb'. eapply (bk_once _ _ _ _ _ H); [exact Hx'|exact Hx|congruence|congruence].
    + cbn. by rewrite insert_delete_eq.
    + by left.
    + cbn. rewrite decide_True by done. apply (bk_held _ _ _ _ _ H b x Hx). by rewrite Ek.
  - cbn [bufs]. by rewrite map_size_insert_Some by (by eexists).
  - done.
Qed.

(** Writing a buffer at hand to the disk. *)
Lemma bwrite_backed pid l c dk s b k :
  backed pid l c dk s -> k ∈ held s -> buffer_of c b k ->
  exists dk' s', Bio.bwrite pid b (c, dk) = Done (tt, (c, dk')) /\ Fs.bwrite k s = Done (tt, s') /\
    backed pid l c dk' s' /\ held s' = held s.
Proof.
  intros H Hk (x & Hx & Ek). destruct (bk_cached _ _ _ _ _ H k Hk) as [d Hd].
  destruct (buffer_cached _ _ _ _ _ b x k d H Hx Ek Hd) as [Hv Hdat].
  destruct (bk_held _ _ _ _ _ H b x Hx) as (Hpid & Hr & Hs); [by rewrite Ek|].
  exists (disk_write dk (blockno x) (data x)), (set_dsk (<[k.2 := d]> (dsk s)) s). split_and!.
  - unfold Bio.bwrite. rewrite (getb_bind _ _ _ _ _ Hx), Hpid, Z.eqb_refl. cbn [negb].
    unfold virtio_disk_rw. by rewrite (getb_bind _ _ _ _ _ Hx).
  - unfold Fs.bwrite. by rewrite bool_decide_eq_true_2, Hd.
  - destruct H as [B1 B2 B3 B4 B5 B6 B7 B8]. split; try done. cbn [dsk set_dsk]. intros n d'.
    assert (k.2 = blockno x) as -> by (by rewrite <- Ek).
    rewrite lookup_insert_Some. intros [[<- <-]|[Hn Hd']]; [by rewrite disk_read_write|].
    rewrite disk_read_other by done. by apply B5.
  - done.
Qed.

Lemma elem_of_release (k k' : Z * Z) (h : list (Z * Z)) : k' ∈ filter (fun q => q <> k) h <-> k' <> k /\ k' ∈ h.
Proof. exact (list_elem_of_filter (fun q => q <> k) h k'). Qed.

(** Letting a buffer go: it becomes the most recently used one. *)
Lemma brelse_backed pid l c dk s b k :
  backed pid l c dk s -> k ∈ held s -> buffer_of c b k ->
  exists c' l' s', Bio.brelse pid b (c, dk) = Done (tt, (c', dk)) /\ Fs.brelse k s = Done (tt, s') /\
    backed pid l' c' dk s' /\ nbufs c' = nbufs c /\ held s' = filter (fun q => q <> k) (held s).
Proof.
  intros H Hk (x & Hx & Ek). pose proof (held_key _ _ _ _ _ _ H Hk) as Hnz.
  destruct (bk_held _ _ _ _ _ H b x Hx) as (Hpid & Hr & Hs); [by rewrite Ek|].
  pose proof (brelse_moves_front pid b x c dk l (bk_view _ _ _ _ _ H) Hx) as Hrel.
  rewrite Hpid, Z.eqb_refl in Hrel. destruct Hrel as (c' & Hrun & Hview & Hbufs).
  assert (Bio.valid x = true) as Hv by (apply (bk_valid _ _ _ _ _ H b x Hx); by rewrite Ek).
  rewrite Hr, Hs in Hbufs. set (y := set_refcnt (1 - 1) (set_sem (s32 (0 + 1)) x)) in Hbufs.
  exists c', (if u32 (refcnt x - 1) =? 0 then b :: filter (fun y => y <> b) l else l), (set_held (filter (fun q => q <> k) (held s)) s).
  split_and!; [done|unfold Fs.brelse; by rewrite bool_decide_eq_true_2| | |done].
  - assert (backed pid l (mkCache (Bio.next c) (Bio.prev c) (<[b := y]> (bufs c))) dk (set_held (filter (fun q => q <> k) (held s)) s)) as HB.
    { assert (key y = k) as Ey by done.
      apply (backed_update pid l c dk s b x y); try done; rewrite ?Ey, ?Ek; try done.
      - intros b' x' Hb' Hx' E. apply Hb'. eapply (bk_once _ _ _ _ _ H); [exact Hx'|exact Hx|congruence|congruence].
      - cbn. rewrite insert_delete_eq. symmetry. apply insert_id. apply (bk_cache _ _ _ _ _ H). by exists b, x.
      - intros k' Hk' _. cbn. rewrite elem_of_release. tauto.
      - by left.
      - rewrite decide_False; [done|]. cbn. rewrite elem_of_release. tauto. }
    destruct HB as [_ B2 B3 B4 B5 B6 B7 B8]. cbn [bufs] in *. rewrite <- Hbufs in *. split; try done.
  - rewrite Hbufs. by rewrite map_size_insert_Some by (by eexists).
Qed.

(** C26. bio.c implements the blocks that the file system works on.  While task
    [pid] is in the file system, reading a block that it does not hold gives
    it a buffer, unless all are held, with the bytes that [Fs] sees (after
    [Fs] has dropped at most one block from its cache); looking into a buffer
    at hand, storing bytes in it, writing it to the disk and letting it go
    run to their end and do to the buffers, the list and the disk what they
    do to the view of [Fs]. *)
Theorem bio_implements_blocks pid l c dk s :
  backed pid l c dk s ->
  (forall d n, (d, n) <> (0, 0) -> (d, n) ∉ held s -> is_Some (block s (d, n)) -> (length (held s) < nbufs c)%nat ->
     exists b c' s0 s', Bio.bread pid d n (c, dk) = Done ((b, true), (c', dk)) /\ evicted s s0 /\
       Fs.bread d n s0 = Done ((d, n), s') /\ buffer_of c' b (d, n) /\ backed pid l c' dk s' /\
       nbufs c' = nbufs c /\ held s' = (d, n) :: held s) /\
  (forall b k, k ∈ held s -> buffer_of c b k ->
     (exists x, getb b (c, dk) = Done (x, (c, dk)) /\ bdata k s = Done (data x, s)) /\
     (forall d, exists c' s', setb b (set_data d) (c, dk) = Done (tt, (c', dk)) /\ set_bdata k d s = Done (tt, s') /\
        buffer_of c' b k /\ backed pid l c' dk s' /\ nbufs c' = nbufs c /\ held s' = held s) /\
     (exists dk' s', Bio.bwrite pid b (c, dk) = Done (tt, (c, dk')) /\ Fs.bwrite k s = Done (tt, s') /\
        backed pid l c dk' s' /\ held s' = held s) /\
     (exists c' l' s', Bio.brelse pid b (c, dk) = Done (tt, (c', dk)) /\ Fs.brelse k s = Done (tt, s') /\
        backed pid l' c' dk s' /\ nbufs c' = nbufs c /\ held s' = filter (fun q => q <> k) (held s))).
Proof.
  intros H. split; [intros d n Hnz Hh Hb Hroom; by apply (bread_backed pid l c dk s d n)|]. intros b k Hk Hb. split_and!.
  - destruct Hb as (x & Hx & Ek). exists x. destruct (bk_cached _ _ _ _ _ H k Hk) as [d Hd].
    destruct (buffer_cached _ _ _ _ _ b x k d H Hx Ek Hd) as [_ <-].
    split; [unfold getb; cbn; by rewrite Hx|unfold bdata; by rewrite Hd].
  - intros d. by apply (store_backed pid l c dk s b k d).
  - by apply (bwrite_backed pid l c dk s b k).
  - by apply (brelse_backed pid l c dk s b k).
Qed.

End BioFs.

(** ** A concrete run: two buffers, block 5 cached *)

Definition idle_cache : bcache_t :=
  mkCache (list_to_map [(0, 1); (1, 2); (2, 0)]) (list_to_map [(0, 2); (1, 0); (2, 1)])
          (list_to_map [(1, mkBuf true 1 5 1 0 [5] 7); (2, mkBuf false 0 0 1 0 [] 0)]).
Definition idle_fs : fs (U := unit) :=
  mkFs {[ (1, 5) := [5] ]} demo_disk [] (mkSb 0 0 0 0 0 0) 0 ∅ 0 tt.

Lemma idle_bufs b x : bufs idle_cache !! b = Some x ->
  (b = 1 /\ x = mkBuf true 1 5 1 0 [5] 7) \/ (b = 2 /\ x = mkBuf false 0 0 1 0 [] 0).
Proof. intros H. apply elem_of_list_to_map_2 in H. set_unfold. destruct H as [[= -> ->]|[[= -> ->]|[]]]; auto. Qed.

Lemma idle_backed : backed 9 [1; 2] idle_cache demo_disk idle_fs.
Proof.
  split.
  - split; [by vm_compute|apply (bool_decide_unpack _); by vm_compute|]. intros b. split.
    + intros [->|[->|?%elem_of_nil]%elem_of_cons]%elem_of_cons; [| |done]; vm_compute; eauto.
    + intros [x [[-> _]|[-> _]]%idle_bufs]; set_solver.
  - intros b1 b2 x1 x2 [[-> ->]|[-> ->]]%idle_bufs [[-> ->]|[-> ->]]%idle_bufs; done.
  - intros b x [[-> ->]|[-> ->]]%idle_bufs; cbn; (split; [done|]); [by intros _|by intros []].
  - intros k d. cbn [cache idle_fs]. rewrite lookup_singleton_Some. split.
    + intros [<- <-]. by exists 1, (mkBuf true 1 5 1 0 [5] 7).
    + intros (b & x & [[-> ->]|[-> ->]]%idle_bufs & <- & Hv & <-); done.
  - intros n d Hd. cbn [disk_read map_disk]. change (dsk idle_fs) with demo_disk in Hd. by rewrite Hd.
  - intros b x _ Hin. by apply not_elem_of_nil in Hin.
  - intros b x [[-> ->]|[-> ->]]%idle_bufs _; done.
  - intros k Hin. by apply not_elem_of_nil in Hin.
Qed.

Lemma bio_implements_blocks_witness :
  exists b c' s0 s', Bio.bread 9 1 6 (idle_cache, demo_disk) = Done ((b, true), (c', demo_disk)) /\
    evicted idle_fs s0 /\ Fs.bread 1 6 s0 = Done ((1, 6), s').
Proof.
  destruct (bio_implements_blocks 9 [1; 2] idle_cache demo_disk idle_fs idle_backed) as [Hread _].
  destruct (Hread 1 6) as (b & c' & s0 & s' & H1 & H2 & H3 & _).
  - discriminate.
  - apply not_elem_of_nil.
  - vm_compute. eauto.
  - vm_compute. lia.
  - exists b, c', s0, s'. split; [exact H1|]. split; [exact H2|exact H3].
Defined.
