(* ===== verification/Blocks.v ===== *)
(** * Bytes of a block: slices, fields and on-disk inodes

    What the file system and mkfs share about the bytes they put on the
    disk: reading a part of a block after another part is replaced, and
    inodes as the 64 bytes of [struct dinode]. *)
From S2P Require Import Prelude Fs FsProofs.

(** ** Parts of a list *)

Lemma lookup_slice off n l i :
  slice off n l !! i = if decide (Z.of_nat i < n) then l !! (Z.to_nat off + i)%nat else None.
Proof.
  unfold slice. destruct (decide _).
  - rewrite lookup_take_lt by lia. apply lookup_drop.
  - apply lookup_take_ge. lia.
Qed.

Lemma lookup_splice off x l i :
  0 <= off <= Z.of_nat (length l) ->
  splice off x l !! i =
    if decide (Z.of_nat i < off) then l !! i
    else if decide (Z.of_nat i < off + Z.of_nat (length x)) then x !! (i - Z.to_nat off)%nat else l !! i.
Proof.
  intros H. unfold splice. destruct (decide _).
  - rewrite lookup_app_l by (rewrite length_take; lia). apply lookup_take_lt. lia.
  - rewrite lookup_app_r by (rewrite length_take; lia). rewrite length_take, Nat.min_l by lia.
    destruct (decide _).
    + apply lookup_app_l. lia.
    + rewrite lookup_app_r by lia. rewrite lookup_drop. f_equal. lia.
Qed.

Lemma length_slice off n l :
  0 <= off -> 0 <= n -> off + n <= Z.of_nat (length l) -> length (slice off n l) = Z.to_nat n.
Proof. intros ? ? ?. unfold slice. rewrite length_take, length_drop. lia. Qed.

Lemma length_splice off x l :
  0 <= off -> off + Z.of_nat (length x) <= Z.of_nat (length l) -> length (splice off x l) = length l.
Proof. intros ? ?. unfold splice. rewrite !length_app, length_take, length_drop. lia. Qed.

Lemma slice_splice_eq off x l :
  0 <= off -> off + Z.of_nat (length x) <= Z.of_nat (length l) ->
  slice off (Z.of_nat (length x)) (splice off x l) = x.
Proof.
  intros ? ?. apply list_eq. intros i. rewrite lookup_slice, lookup_splice by lia.
  destruct (decide (Z.of_nat i < Z.of_nat (length x))).
  - rewrite decide_False, decide_True by lia. f_equal. lia.
  - symmetry. apply lookup_ge_None. lia.
Qed.

Lemma slice_splice_ne off x l a n :
  0 <= off -> off + Z.of_nat (length x) <= Z.of_nat (length l) -> 0 <= a ->
  a + n <= off \/ off + Z.of_nat (length x) <= a ->
  slice a n (splice off x l) = slice a n l.
Proof.
  intros ? ? ? Hd. apply list_eq. intros i. rewrite !lookup_slice. destruct (decide _); [|done].
  rewrite lookup_splice by lia. destruct (decide _); [done|]. by rewrite decide_False by lia.
Qed.

(** A change inside a part. *)
Lemma slice_splice_in a n off x l :
  0 <= a -> 0 <= off -> off + Z.of_nat (length x) <= n -> a + n <= Z.of_nat (length l) ->
  slice a n (splice (a + off) x l) = splice off x (slice a n l).
Proof.
  intros ? ? ? ?. apply list_eq. intros i.
  rewrite lookup_slice, !lookup_splice by (rewrite ?length_slice; lia).
  rewrite lookup_slice. repeat case_decide; try lia; try done. f_equal. lia.
Qed.

Lemma slice_splice_whole off x l :
  0 <= off -> off + Z.of_nat (length x) <= Z.of_nat (length l) -> forall a n,
  off <= a -> a + n <= off + Z.of_nat (length x) -> slice a n (splice off x l) = slice (a - off) n x.
Proof.
  intros ? ? a n ? ?. apply list_eq. intros i. rewrite !lookup_slice. case_decide; [|done].
  rewrite lookup_splice, decide_False, decide_True by lia. f_equal. lia.
Qed.

(** ** Little-endian numbers *)

Lemma length_le_bytes k v : length (le_bytes k v) = k.
Proof. revert v. induction k as [|k IH]; intros v; cbn; [done|by rewrite IH]. Qed.

Lemma le_val_le_bytes k v : 0 <= v < 2 ^ (8 * Z.of_nat k) -> le_val (le_bytes k v) = v.
Proof.
  revert v. induction k as [|k IH]; intros v Hv; [cbn in *; lia|]. cbn [le_bytes le_val].
  assert (2 ^ (8 * Z.of_nat (S k)) = 256 * 2 ^ (8 * Z.of_nat k)) as E.
  { replace (8 * Z.of_nat (S k)) with (8 + 8 * Z.of_nat k) by lia. by rewrite Z.pow_add_r by lia. }
  rewrite IH; [pose proof (Z.div_mod v 256); lia|].
  split; [apply Z.div_pos; lia|apply Z.div_lt_upper_bound; lia].
Qed.

Lemma le_val_zeros k : le_val (replicate k 0) = 0.
Proof. induction k as [|k IH]; [done|]. cbn [replicate le_val]. rewrite IH. lia. Qed.

(** ** Fields *)

Lemma fld_slice k a n off l :
  0 <= a -> 0 <= off -> off + Z.of_nat k <= n -> fld k (a + off) l = fld k off (slice a n l).
Proof. intros ? ? ?. unfold fld. rewrite slice_slice by lia. done. Qed.

Lemma set_fld_slice k a n off v l :
  0 <= a -> 0 <= off -> off + Z.of_nat k <= n -> a + n <= Z.of_nat (length l) ->
  slice a n (set_fld k (a + off) v l) = set_fld k off v (slice a n l).
Proof. intros ? ? ? ?. unfold set_fld. apply slice_splice_in; rewrite ?length_le_bytes; lia. Qed.

Lemma fld_set_eq k off v l :
  0 <= off -> off + Z.of_nat k <= Z.of_nat (length l) -> 0 <= v < 2 ^ (8 * Z.of_nat k) ->
  fld k off (set_fld k off v l) = v.
Proof.
  intros ? ? ?. unfold fld, set_fld. rewrite <- (length_le_bytes k v) at 1.
  rewrite slice_splice_eq by (rewrite ?length_le_bytes; lia). by apply le_val_le_bytes.
Qed.

Lemma fld_set_ne k off v l j a :
  0 <= off -> off + Z.of_nat k <= Z.of_nat (length l) -> 0 <= a ->
  a + Z.of_nat j <= off \/ off + Z.of_nat k <= a -> fld j a (set_fld k off v l) = fld j a l.
Proof.
  intros ? ? ? ?. unfold fld, set_fld. f_equal. apply slice_splice_ne; rewrite ?length_le_bytes; lia.
Qed.

Lemma length_set_fld k off v l :
  0 <= off -> off + Z.of_nat k <= Z.of_nat (length l) -> length (set_fld k off v l) = length l.
Proof. intros ? ?. unfold set_fld. apply length_splice; rewrite ?length_le_bytes; lia. Qed.

Lemma fld_zeros k off n : 0 <= off -> fld k off (replicate n 0) = 0.
Proof.
  intros H. unfold fld, slice. rewrite drop_replicate, take_replicate. apply le_val_zeros.
Qed.

(** ** Inodes on the disk *)

(** The fields fit. *)
Definition inode_fits (x : inode_t) : Prop :=
  -2 ^ 15 <= itype x < 2 ^ 15 /\ -2 ^ 15 <= major x < 2 ^ 15 /\ -2 ^ 15 <= minor x < 2 ^ 15 /\
  -2 ^ 15 <= nlink x < 2 ^ 15 /\ 0 <= isize x < 2 ^ 32 /\
  length (addrs x) = 13%nat /\ Forall (fun a => 0 <= a < 2 ^ 32) (addrs x).

Lemma length_addrs_bytes l : length (addrs_bytes l) = (4 * length l)%nat.
Proof.
  induction l as [|a l IH]; [done|]. unfold addrs_bytes in *. cbn [flat_map length].
  rewrite length_app, IH, length_le_bytes. lia.
Qed.

Lemma length_dinode_bytes x : inode_fits x -> length (dinode_bytes x) = 64%nat.
Proof.
  intros (_ & _ & _ & _ & _ & H & _). unfold dinode_bytes.
  rewrite !length_app, !length_le_bytes, length_addrs_bytes, H. done.
Qed.

Lemma s16_le_bytes z : -2 ^ 15 <= z < 2 ^ 15 -> s16 (le_val (le_bytes 2 z)) = z.
Proof. intros H. cbn [le_bytes le_val]. unfold s16. zdiv. Qed.

Lemma le_bytes_mod k v : le_bytes k (v mod 2 ^ (8 * Z.of_nat k)) = le_bytes k v.
Proof.
  revert v. induction k as [|k IH]; intros v; [done|]. cbn [le_bytes].
  assert (2 ^ (8 * Z.of_nat (S k)) = 256 * 2 ^ (8 * Z.of_nat k)) as ->.
  { replace (8 * Z.of_nat (S k)) with (8 + 8 * Z.of_nat k) by lia. by rewrite Z.pow_add_r by lia. }
  rewrite Z.rem_mul_r by lia.
  replace (v mod 256 + 256 * ((v / 256) mod 2 ^ (8 * Z.of_nat k)))
    with (v mod 256 + (v / 256) mod 2 ^ (8 * Z.of_nat k) * 256) by lia.
  f_equal; [by rewrite Z.mod_add, Z.mod_mod by lia|].
  rewrite Z.div_add, Z.div_small, Z.add_0_l by (try apply Z.mod_pos_bound; lia). apply IH.
Qed.

Lemma le_bytes_s16 v : le_bytes 2 (s16 v) = le_bytes 2 v.
Proof.
  rewrite <- (le_bytes_mod 2 (s16 v)), <- (le_bytes_mod 2 v). f_equal. unfold s16. cbn. zdiv.
Qed.

Lemma le_bytes_u32 v : le_bytes 4 (u32 v) = le_bytes 4 v.
Proof. apply (le_bytes_mod 4). Qed.

Lemma slice_prefix x y z : slice (Z.of_nat (length x)) (Z.of_nat (length y)) (x ++ y ++ z) = y.
Proof. unfold slice. rewrite !Nat2Z.id, drop_app_length. apply take_app_length. Qed.

Lemma splice_prefix x y y' z : length y' = length y -> splice (Z.of_nat (length x)) y' (x ++ y ++ z) = x ++ y' ++ z.
Proof.
  intros E. unfold splice. rewrite Nat2Z.id, E, take_app_length, <- drop_drop, !drop_app_length. done.
Qed.

(** Records of 16 bytes, one after the other. *)
Lemma length_records (es : list (list Z)) : Forall (fun e => length e = 16%nat) es -> length (concat es) = (16 * length es)%nat.
Proof.
  induction 1 as [|e es He _ IH]; [done|]. cbn [concat length]. rewrite length_app, IH, He. lia.
Qed.

Lemma slice_record es z i e :
  Forall (fun e => length e = 16%nat) es -> es !! i = Some e -> slice (16 * Z.of_nat i) 16 (concat es ++ z) = e.
Proof.
  intros Hes Hi. rewrite <- (take_drop_middle es i e Hi), concat_app. cbn [concat]. rewrite <- !app_assoc.
  assert (Forall (fun e => length e = 16%nat) (take i es)) as Ht%length_records by (by apply Forall_take).
  assert (i < length es)%nat by (by eapply lookup_lt_Some). rewrite length_take, Nat.min_l in Ht by lia.
  eapply Forall_lookup_1 in Hes as He; [|exact Hi]. cbn beta in He.
  replace (16 * Z.of_nat i) with (Z.of_nat (length (concat (take i es)))) by lia.
  replace 16 with (Z.of_nat (length e)) at 1 by lia. apply slice_prefix.
Qed.

(** Where address [i] is. *)
Lemma addrs_bytes_at l i : (i < length l)%nat ->
  exists l1 l2, length l1 = (4 * i)%nat /\ forall a, addrs_bytes (<[i := a]> l) = l1 ++ le_bytes 4 a ++ l2.
Proof.
  revert i. induction l as [|b l IH]; intros i H; cbn in H; [lia|]. destruct i as [|i].
  - by exists [], (addrs_bytes l).
  - destruct (IH i) as (l1 & l2 & Hl & E); [lia|]. exists (le_bytes 4 b ++ l1), l2.
    rewrite length_app, length_le_bytes. split; [lia|]. intros a. unfold addrs_bytes in *.
    cbn [flat_map insert list_insert]. by rewrite E, <- app_assoc.
Qed.

Lemma dinode_bytes_addr x i : length (addrs x) = 13%nat -> (i < 13)%nat ->
  exists l1 l2, Z.of_nat (length l1) = 12 + 4 * Z.of_nat i /\
    forall a, dinode_bytes (with_addr (Z.of_nat i) a x) = l1 ++ le_bytes 4 a ++ l2.
Proof.
  intros Hx Hi. destruct (addrs_bytes_at (addrs x) i) as (l1 & l2 & Hl & E); [lia|].
  exists (le_bytes 2 (itype x) ++ le_bytes 2 (major x) ++ le_bytes 2 (minor x) ++ le_bytes 2 (nlink x) ++
    le_bytes 4 (isize x) ++ l1), l2.
  rewrite !length_app, !length_le_bytes, Hl. split; [lia|]. intros a. unfold dinode_bytes.
  cbn [with_addr addrs itype major minor nlink isize]. unfold arr_set. rewrite Nat2Z.id, E.
  by rewrite <- !app_assoc.
Qed.

Lemma with_addr_same x i a : addrs x !! i = Some a -> with_addr (Z.of_nat i) a x = x.
Proof. intros H. unfold with_addr, arr_set. rewrite Nat2Z.id, list_insert_id by done. by destruct x. Qed.

Lemma inode_fits_addr x i a : inode_fits x -> addrs x !! i = Some a -> (i < 13)%nat /\ 0 <= a < 2 ^ 32.
Proof.
  intros (_ & _ & _ & _ & _ & Hl & Hf) H. split; [rewrite <- Hl; by eapply lookup_lt_Some|].
  by eapply Forall_lookup_1 in Hf.
Qed.

Lemma fld_dinode_addr x i a :
  inode_fits x -> addrs x !! i = Some a -> fld 4 (12 + 4 * Z.of_nat i) (dinode_bytes x) = a.
Proof.
  intros Hx Ha. destruct (inode_fits_addr _ _ _ Hx Ha) as [Hi Hr].
  destruct (dinode_bytes_addr x i) as (l1 & l2 & Hl & E); [apply Hx|done|].
  rewrite <- (with_addr_same x i a Ha), E, <- Hl. unfold fld.
  rewrite <- (length_le_bytes 4 a) at 1. rewrite slice_prefix. by apply le_val_le_bytes.
Qed.

Lemma set_dinode_addr x i v :
  inode_fits x -> (i < 13)%nat ->
  set_fld 4 (12 + 4 * Z.of_nat i) v (dinode_bytes x) = dinode_bytes (with_addr (Z.of_nat i) v x).
Proof.
  intros Hx Hi. destruct (dinode_bytes_addr x i) as (l1 & l2 & Hl & E); [apply Hx|done|].
  destruct (lookup_lt_is_Some_2 (addrs x) i) as [a Ha]; [destruct Hx as (_ & _ & _ & _ & _ & -> & _); lia|].
  rewrite <- (with_addr_same x i a Ha) at 1. rewrite !E, <- Hl. unfold set_fld. apply splice_prefix.
  by rewrite !length_le_bytes.
Qed.

Lemma set_dinode_type x v : set_fld 2 0 v (dinode_bytes x) = dinode_bytes (with_type v x).
Proof. unfold dinode_bytes, set_fld. cbn [with_type itype major minor nlink isize addrs]. by rewrite le_bytes_s16. Qed.

Lemma set_dinode_major x v : set_fld 2 2 v (dinode_bytes x) = dinode_bytes (with_majmin v (minor x) x).
Proof. unfold dinode_bytes, set_fld. cbn [with_majmin itype major minor nlink isize addrs]. by rewrite !le_bytes_s16. Qed.

Lemma set_dinode_nlink x v : set_fld 2 6 v (dinode_bytes x) = dinode_bytes (with_nlink v x).
Proof. unfold dinode_bytes, set_fld. cbn [with_nlink itype major minor nlink isize addrs]. by rewrite le_bytes_s16. Qed.

Lemma set_dinode_size x v : set_fld 4 8 v (dinode_bytes x) = dinode_bytes (with_size v x).
Proof. unfold dinode_bytes, set_fld. cbn [with_size itype major minor nlink isize addrs]. by rewrite le_bytes_u32. Qed.

Lemma fld_dinode_size x : inode_fits x -> fld 4 8 (dinode_bytes x) = isize x.
Proof. intros (_ & _ & _ & _ & H & _). by apply (le_val_le_bytes 4). Qed.

(** The short fields, as signed and as unsigned numbers. *)
Lemma le_val_short z : le_val (le_bytes 2 z) = z mod 2 ^ 16.
Proof. cbn [le_bytes le_val]. zdiv. Qed.

Lemma fld_dinode_type x : fld 2 0 (dinode_bytes x) = itype x mod 2 ^ 16.
Proof. apply (le_val_short (itype x)). Qed.

Lemma fld_dinode_nlink x : fld 2 6 (dinode_bytes x) = nlink x mod 2 ^ 16.
Proof. apply (le_val_short (nlink x)). Qed.

(** The kernel reads back the inode that was written. *)
Lemma load_dinode_bytes x y :
  inode_fits x ->
  load_dinode (dinode_bytes x) y =
    mkInode (dev y) (inum y) (iref y) (valid y) (lock y) (itype x) (major x) (minor x) (nlink x) (isize x) (addrs x).
Proof.
  intros Hx. pose proof Hx as (Ht & Hj & Hi & Hn & Hs & Hl & _). unfold load_dinode. f_equal.
  - by apply s16_le_bytes.
  - by apply (s16_le_bytes (major x)).
  - by apply (s16_le_bytes (minor x)).
  - by apply (s16_le_bytes (nlink x)).
  - by apply fld_dinode_size.
  - apply list_eq. intros i. rewrite list_lookup_fmap. destruct (decide (i < 13)%nat) as [H|H].
    + rewrite lookup_seq_lt by done. destruct (lookup_lt_is_Some_2 (addrs x) i) as [a Ha]; [lia|].
      rewrite Ha. cbn. f_equal. by apply fld_dinode_addr.
    + rewrite lookup_seq_ge, lookup_ge_None_2 by lia. done.
Qed.
