(* ===== verification/FsDir.v ===== *)
(** * Directories of the file system: looking names up *)
From S2P Require Import Prelude Fs FsProofs FsTheorems Blocks.

(** ** Names *)

(** The characters before the NUL. *)
Fixpoint cname (l : list Z) : list Z :=
  match l with [] => [] | c :: l => if c =? 0 then [] else c :: cname l end.

(** [namecmp] tells whether two names are the same. *)
Lemma strncmp_spec t : forall s n, 0 ∈ s -> 0 ∈ t -> (length s <= S n)%nat ->
  exists z, strncmp s t n = Some z /\ (z = 0 <-> cname s = cname t).
Proof.
  induction t as [|c2 t IH]; intros s n Hs Ht Hn; [by apply not_elem_of_nil in Ht|].
  destruct s as [|c1 s]; [by apply not_elem_of_nil in Hs|]. cbn [strncmp cname].
  destruct (Z.eqb_spec c2 0) as [->|H2]; cbn [negb andb].
  { destruct (Z.eqb_spec c1 0) as [->|H1]; cbn [andb]; [by exists 0|]. exists (c1 - 0). split; [done|]. split; [lia|done]. }
  destruct (Z.eqb_spec c1 0) as [->|H1]; cbn [negb andb].
  { exists (0 - c2). split; [done|]. split; [lia|done]. }
  destruct (Z.eqb_spec c1 c2) as [->|H]; cbn [andb].
  - assert (0 ∈ s) as Hs' by set_solver. assert (0 ∈ t) as Ht' by set_solver.
    assert (0 < length s)%nat by (destruct s; cbn; [by apply not_elem_of_nil in Hs'|lia]). cbn [length] in Hn.
    rewrite (proj2 (Z.ltb_lt 0 _)) by lia. destruct (IH s (pred n) Hs' Ht') as (z & Hz & E); [lia|].
    exists z. split; [done|]. rewrite E. split; [by intros ->|by intros [=]].
  - exists (c1 - c2). split; [done|]. split; [lia|by intros [=]].
Qed.

Lemma cname_app name z : 0 ∉ name -> cname (name ++ 0 :: z) = name.
Proof.
  induction name as [|c name IH]; intros H; [done|]. cbn. rewrite (proj2 (Z.eqb_neq c 0)); [|set_solver].
  f_equal. apply IH. set_solver.
Qed.

(** ** Directories *)

(** The first entry in use with a name: its offset and its inode. *)
Fixpoint find_entry (i : Z) (es : list (list Z)) (name : list Z) : option (Z * Z) :=
  match es with
  | [] => None
  | e :: es => if negb (fld 2 0 e =? 0) && bool_decide (cname (drop 2 e) = name) then Some (16 * i, fld 2 0 e)
               else find_entry (i + 1) es name
  end.

Section FsDir.
Context {U : Type} `{!UserCopy U}.
#[local] Abbreviation FS := (fs (U := U)).

(** The directory whose inode is [x] has the entries [es]; each name in use
    ends inside its entry. *)
Record dir_holds (s : FS) (x : inode_t) (es : list (list Z)) : Prop := mkDirHolds {
  dh_type : itype x = T_DIR;
  dh_size : isize x = 16 * Z.of_nat (length es);
  dh_entries : Forall (fun e => length e = 16%nat) es;
  dh_names : Forall (fun e => fld 2 0 e <> 0 -> 0 ∈ drop 2 e) es;
  dh_bytes : exists z, file_holds s x (concat es ++ z)
}.

Lemma read_entry (s s1 : FS) dp x es i e :
  itable s !! dp = Some x -> held s = [] -> dir_holds s x es -> es !! i = Some e -> sees s s1 ->
  exists s2, readi dp None (16 * Z.of_nat i) 16 s1 = Done ((16, e), s2) /\ sees s s2.
Proof.
  intros Hx Hh [_ Hsz He _ [z Hz]] Hi Hs. pose proof (lookup_lt_Some _ _ _ Hi) as Hlt.
  pose proof Hs as (_ & _ & Eh & _ & _ & Eit & _).
  destruct (readi_reads s1 dp x (concat es ++ z) (16 * Z.of_nat i) 16) as (s2 & Hr & Hs2).
  - by rewrite Eit.
  - by rewrite Eh.
  - by eapply file_holds_sees.
  - lia.
  - lia.
  - rewrite length_app, (length_records es He). lia.
  - rewrite (slice_record es z i e He Hi) in Hr. exists s2. split; [done|]. by eapply sees_trans.
Qed.

Lemma dirlookup_loop_spec (s : FS) dp x es name :
  itable s !! dp = Some x -> held s = [] -> dir_holds s x es -> 0 ∈ name -> (length name <= S DIRSIZ)%nat ->
  forall k i s1, (i <= length es)%nat -> (length es - i < k)%nat -> sees s s1 ->
  exists s2, sees s s2 /\
    dirlookup_loop k dp name (16 * Z.of_nat i) s1 =
      match find_entry (Z.of_nat i) (drop i es) (cname name) with
      | None => Done (None, s2)
      | Some (off, inum) => bind (iget (dev x) inum) (fun ip => ret (Some (ip, off))) s2
      end.
Proof.
  intros Hx Hh Hd Hnul Hlen. induction k as [|k IH]; intros i s1 Hi Hk Hs; [lia|]. cbn [dirlookup_loop].
  pose proof Hs as (_ & _ & _ & _ & _ & Eit & _). rewrite (geti_bind dp x s1) by (by rewrite Eit).
  rewrite (dh_size _ _ _ Hd). destruct (Z.ltb_spec (16 * Z.of_nat i) (16 * Z.of_nat (length es))); cbn [negb]; cycle 1.
  { rewrite drop_ge by lia. by exists s1. }
  destruct (lookup_lt_is_Some_2 es i) as [e He]; [lia|]. rewrite (drop_S es e i He). cbn [find_entry].
  destruct (read_entry s s1 dp x es i e Hx Hh Hd He Hs) as (s2 & Hr & Hs2).
  rewrite (bind_done _ _ _ _ _ Hr). cbn [negb Z.eqb Pos.eqb].
  replace (16 * Z.of_nat i + 16) with (16 * Z.of_nat (S i)) by lia. replace (Z.of_nat i + 1) with (Z.of_nat (S i)) by lia.
  destruct (Z.eqb_spec (fld 2 0 e) 0) as [E0|E0]; cbn [negb andb]; [apply IH; [lia|lia|done]|].
  assert (0 ∈ drop 2 e) as Hnul2 by (pose proof (dh_names _ _ _ Hd) as Hn; eapply Forall_lookup_1 in Hn; [|exact He]; auto).
  destruct (strncmp_spec (drop 2 e) name DIRSIZ Hnul Hnul2 Hlen) as (c & Hc & Ec).
  unfold namecmp at 1, bind at 1. rewrite Hc.
  destruct (Z.eqb_spec c 0) as [->|Hc0].
  - rewrite bool_decide_eq_true_2 by (symmetry; by apply Ec). by exists s2.
  - rewrite bool_decide_eq_false_2 by (intros E; by apply Hc0, Ec). apply IH; [lia|lia|done].
Qed.

(** Looking a name up in a directory gives what [iget] gives for the first
    entry that has the name. *)
Lemma dirlookup_spec (s : FS) dp x es name :
  itable s !! dp = Some x -> held s = [] -> dir_holds s x es -> 0 ∈ name -> (length name <= S DIRSIZ)%nat ->
  exists s', sees s s' /\
    dirlookup dp name s =
      match find_entry 0 es (cname name) with
      | None => Done (None, s')
      | Some (off, inum) => bind (iget (dev x) inum) (fun ip => ret (Some (ip, off))) s'
      end.
Proof.
  intros Hx Hh Hd Hnul Hlen. unfold dirlookup. rewrite (geti_bind _ _ _ _ Hx), (dh_type _ _ _ Hd). cbn [negb Z.eqb].
  change (T_DIR =? T_DIR) with true. cbn [negb].
  apply (dirlookup_loop_spec s dp x es name Hx Hh Hd Hnul Hlen _ 0 s); [lia| |apply sees_refl].
  rewrite (dh_size _ _ _ Hd). replace (16 * Z.of_nat (length es)) with (Z.of_nat (length es) * 16) by lia.
  rewrite Z.div_mul by done. lia.
Qed.

(** ** From a path to an inode *)

Lemma holding_sees (s s1 : FS) : held s = [] -> holding s None s1 -> sees s s1.
Proof. intros Hh (? & ? & Hh1 & ? & ? & ? & ? & ? & _). split_and!; try done. by rewrite Hh. Qed.

Lemma sees_holding (s s1 : FS) : held s = [] -> sees s s1 -> holding s None s1.
Proof. intros Hh (? & ? & Hh1 & ? & ? & ? & ? & ?). unfold holding. split_and!; try done. by rewrite Hh1. Qed.

Lemma find_none {A} (f : A -> bool) l : (forall a, f a = false) -> List.find f l = None.
Proof. intros H. induction l as [|a l IH]; [done|]. cbn. by rewrite H. Qed.

(** [iget] of an inode that no slot holds. *)
Lemma iget_new (s s1 : FS) d n j x :
  holding s None s1 -> table_full (itable s) -> (forall i, holds_inode (itable s) d n i = false) ->
  List.find (empty_slot (itable s)) slots = Some j -> itable s !! j = Some x ->
  exists s2, iget d n s1 = Done (j, s2) /\ holding (set_itable (<[j := with_key d n x]> (itable s)) s) None s2.
Proof.
  intros Hs Ht Hno Hj Hx. pose proof Hs as (_ & _ & _ & _ & _ & Hit & _). rewrite <- Hit in Ht, Hno, Hj, Hx.
  exists (set_itable (<[j := with_key d n x]> (itable s1)) s1). split.
  - rewrite iget_run, (find_none _ _ Hno), Hj by done.
    by rewrite (seti_bind j _ x) by done.
  - rewrite Hit. by apply holding_itable.
Qed.

(** Letting go of a locked inode that has links. *)
Lemma iunlockput_done (s s1 : FS) ip x :
  holding s None s1 -> itable s !! ip = Some x -> nlink x <> 0 ->
  exists s2, iunlockput ip s1 = Done (tt, s2) /\
    holding (set_itable (<[ip := with_ref (iref x - 1) (with_lock (lock x + 1) x)]> (itable s)) s) None s2.
Proof.
  intros Hs Hx Hn. pose proof Hs as (_ & _ & _ & _ & _ & Hit & _).
  set (y := with_lock (lock x + 1) x).
  exists (set_itable (<[ip := with_ref (iref x - 1) y]> (itable s)) s1). split.
  - unfold iunlockput, iunlock, lm_V. rewrite (seti_bind ip _ x) by (by rewrite Hit). fold y.
    unfold iput. rewrite (geti_bind ip y) by apply lookup_insert_eq.
    change (nlink y) with (nlink x). rewrite (proj2 (Z.eqb_neq (nlink x) 0)) by done. rewrite andb_false_r.
    unfold seti. cbn [itable set_itable]. rewrite lookup_insert_eq, insert_insert_eq, Hit. done.
  - by apply holding_itable.
Qed.

(** Starting the file system: the super block is read, the inodes unlocked. *)
Lemma fs_init_done (s : FS) dev d :
  held s = [] -> block s (dev, 1) = Some d -> magic (sb_of d) = FSMAGIC ->
  exists s', fs_init dev s = Done (tt, s') /\ (forall c, block s' c = block s c) /\ held s' = [] /\
    sb s' = sb_of d /\ datastart s' = get_datastart (sb_of d) /\ itable s' = fmap (with_lock 1) (itable s).
Proof.
  intros Hh Hd Hm. destruct (holding_open s s dev 1 d (holding_refl s Hh) Hd) as (s1 & Hr1 & Hs1).
  pose proof Hs1 as (B1 & E1 & E2 & E3 & E4 & E5 & E6 & E7 & E8).
  assert (holding (set_sb (sb_of d) s) (Some (dev, 1)) (set_sb (sb_of d) s1)) as Hs1' by (unfold holding; by split_and!).
  destruct (holding_close _ _ _ Hs1') as (s2 & Hr2 & (B2 & _ & H2 & S2 & _ & T2 & _)).
  exists (set_itable (fmap (with_lock 1) (itable s2)) (set_datastart (get_datastart (sb_of d)) s2)). split.
  - unfold fs_init, readsb. rewrite bind_assoc, (bind_done _ _ _ _ _ Hr1), bind_assoc, (holding_data _ _ _ _ _ Hs1 Hd).
    rewrite bind_assoc, bind_modify, (bind_done _ _ _ _ _ Hr2), bind_gets, S2. cbn [sb set_sb].
    by rewrite Hm, Z.eqb_refl.
  - cbn [block held sb datastart itable set_itable set_datastart]. rewrite S2, T2. by split_and!.
Qed.

(** A file name: neither empty nor too long, without slashes or NULs. *)
Definition plain (name : list Z) : Prop :=
  name <> [] /\ (length name < DIRSIZ)%nat /\ SLASH ∉ name /\ 0 ∉ name.

Lemma span_elem_plain name : SLASH ∉ name -> span_elem name = (name, []).
Proof.
  induction name as [|c name IH]; intros H; [done|]. cbn. rewrite (proj2 (Z.eqb_neq c SLASH)) by set_solver.
  by rewrite IH by set_solver.
Qed.

Lemma skipelem_plain name junk : plain name -> length junk = DIRSIZ ->
  exists nm, skipelem (SLASH :: name) junk = Some ([], nm) /\ length nm = DIRSIZ /\ 0 ∈ nm /\ cname nm = name.
Proof.
  intros (Hne & Hlen & Hs & H0) Hj. exists (name ++ 0 :: drop (S (length name)) junk). split_and!.
  - unfold skipelem. cbn [skip_slashes]. rewrite Z.eqb_refl. destruct name as [|c name]; [done|].
    cbn [skip_slashes]. rewrite (proj2 (Z.eqb_neq c SLASH)) by set_solver.
    rewrite span_elem_plain by done. rewrite (proj2 (Nat.leb_gt _ _)) by done. done.
  - rewrite length_app. cbn [length]. rewrite length_drop. lia.
  - set_solver.
  - by apply cname_app.
Qed.

(** All slots are empty. *)
Definition fresh_table (t : gmap Z inode_t) : Prop :=
  table_full t /\ forall j x, t !! j = Some x -> iref x = 0 /\ lock x = 1.

Lemma slots_split : slots = 0 :: 1 :: seqZ 2 98.
Proof. by vm_compute. Qed.

Lemma table_full_insert t j x : table_full t -> is_Some (t !! j) -> table_full (<[j := x]> t).
Proof.
  intros Ht Hj i. rewrite (Ht i). destruct (decide (j = i)) as [<-|]; [rewrite lookup_insert_eq; by split|by rewrite lookup_insert_ne].
Qed.

(** The path of a file in the root directory, when no inode is in use yet: its
    inode is in slot 1, not read. *)
Lemma namei_root (s : FS) d es y off n name junk x0 x1 :
  held s = [] -> fresh_table (itable s) -> itable s !! 0 = Some x0 -> itable s !! 1 = Some x1 ->
  block s (ROOTDEV, u32 (IBLOCK ROOTINO (sb s))) = Some d ->
  y = locked_inode d (with_key ROOTDEV ROOTINO x0) -> dir_holds s y es -> nlink y <> 0 ->
  plain name -> length junk = DIRSIZ -> find_entry 0 es name = Some (off, n) -> n <> ROOTINO ->
  exists s' z, namei (SLASH :: name) junk s = Done (Some 1, s') /\
    holding (set_itable (<[1 := with_key ROOTDEV n x1]> (<[0 := z]> (itable s))) s) None s'.
Proof.
  intros Hh [Hfull Hfree] Hx0 Hx1 Hd -> Hdir Hnl Hname Hjunk Hfind Hn.
  set (y := locked_inode d (with_key ROOTDEV ROOTINO x0)) in *.
  destruct (Hfree 0 x0 Hx0) as [Hr0 Hl0]. destruct (Hfree 1 x1 Hx1) as [Hr1 Hl1].
  destruct (skipelem_plain name junk Hname Hjunk) as (nm & Hskip & Hnm & Hnul & Hc).
  assert (forall i, holds_inode (itable s) ROOTDEV ROOTINO i = false) as Hno1.
  { intros i. unfold holds_inode. destruct (itable s !! i) as [x|] eqn:Hx; [|done]. destruct (Hfree i x Hx) as [-> _]. done. }
  destruct (iget_new s s ROOTDEV ROOTINO 0 x0) as (s1 & Hrun1 & Hs1);
    [by apply holding_refl|done|done|by rewrite slots_split; cbn; unfold empty_slot at 1; rewrite Hx0, Hr0|done|].
  destruct (ilock_loads _ s1 0 (with_key ROOTDEV ROOTINO x0) d Hs1) as (s2 & Hrun2 & Hs2);
    [apply lookup_insert_eq|done|done|done|done|].
  fold y in Hrun2, Hs2. rewrite (dh_type _ _ _ Hdir) in Hrun2. cbn [itable set_itable] in Hs2. rewrite insert_insert_eq in Hs2.
  set (t := <[0 := y]> (itable s)) in *.
  pose proof Hs2 as (_ & _ & _ & _ & _ & Hit2 & _). cbn [itable set_itable] in Hit2.
  assert (itable s2 !! 0 = Some y) as Hy2 by (rewrite Hit2; apply lookup_insert_eq).
  assert (sees (set_itable t s) s2) as Hsee2 by (by apply holding_sees).
  assert (dir_holds s2 y es) as Hdir2.
  { destruct Hdir as [H1 H2 H3 H4 [z H5]]. split; try done. exists z. by apply (file_holds_sees (set_itable t s)). }
  destruct (dirlookup_spec s2 0 y es nm Hy2) as (s3 & Hsee3 & Hrun3);
    [by destruct Hs2 as (_ & _ & -> & _)|done|done|unfold DIRSIZ in *; lia|].
  rewrite Hc, Hfind in Hrun3.
  assert (holding (set_itable t s) None s3) as Hs3 by (apply sees_holding; [done|by eapply sees_trans]).
  destruct (iget_new _ s3 ROOTDEV n 1 x1 Hs3) as (s4 & Hrun4 & Hs4).
  { cbn. by apply table_full_insert; [|eexists]. }
  { intros i. cbn [itable set_itable]. unfold holds_inode, t. destruct (decide (0 = i)) as [<-|Hi].
    - rewrite lookup_insert_eq. apply andb_false_intro2, Z.eqb_neq. cbn. done.
    - rewrite lookup_insert_ne by done. destruct (itable s !! i) as [x|] eqn:Hx; [|done]. destruct (Hfree i x Hx) as [-> _]. done. }
  { cbn [itable set_itable]. rewrite slots_split. cbn [List.find]. unfold empty_slot at 1 2, t.
    rewrite lookup_insert_eq, lookup_insert_ne, Hx1, Hr1 by done. done. }
  { cbn [itable set_itable]. unfold t. by rewrite lookup_insert_ne by done. }
  cbn [itable set_itable] in Hs4.
  destruct (iunlockput_done _ s4 0 y Hs4) as (s5 & Hrun5 & Hs5);
    [cbn; rewrite lookup_insert_ne by done; apply lookup_insert_eq|done|].
  exists s5, (with_ref (iref y - 1) (with_lock (lock y + 1) y)). split.
  - unfold namei, namex. rewrite bind_assoc, bind_gets, bind_assoc. cbn [head]. rewrite bool_decide_eq_true_2 by done.
    rewrite (bind_done _ _ _ _ _ Hrun1). cbn [length namex_loop]. rewrite Hskip.
    rewrite bind_assoc, (bind_done _ _ _ _ _ Hrun2), bind_assoc, (geti_bind 0 y) by done.
    change (dev y) with ROOTDEV in Hrun3.
    rewrite (dh_type _ _ _ Hdir). change (T_DIR =? T_DIR) with true. cbn [negb andb].
    rewrite bind_assoc. rewrite (bind_done (dirlookup 0 nm) _ s2 (Some (1, off)) s4); [|by rewrite Hrun3, (bind_done _ _ _ _ _ Hrun4)].
    cbv beta iota. rewrite bind_assoc, (bind_done _ _ _ _ _ Hrun5). destruct (length name); done.
  - cbn [itable set_itable] in Hs5. unfold t in Hs5. rewrite insert_insert_ne, insert_insert_eq in Hs5 by done. exact Hs5.
Qed.

End FsDir.
