(* ===== verification/Mkfs.v ===== *)
(** * The disk image tool: mkfs/mkfs.cpp

    mkfs maps the image file into its memory and works on it through pointers.
    The image is its blocks; a [buf] is its block number, a [dinode*] the
    number of the inode it points to.  [bufmap] only remembers, for each block
    number, the pointer that [bread] computes from it.  The host's files are
    behind [Host]; the messages on standard output are left out. *)
From S2P Require Import Prelude Fs.

(** What mkfs asks of the host: whether the image file opens, the size and
    the contents of a file.  A file that opens has the size that [stat] gave. *)
Class Host : Type := {
  open_image : list Z -> bool;
  stat : list Z -> option Z;
  fopen : list Z -> option (list Z);
  stat_size : forall name n, stat name = Some n -> 0 <= n;
  fopen_stat : forall name l, fopen name = Some l -> stat name = Some (Z.of_nat (length l))
}.

Definition IMGSIZE : Z := 256 * 1024 * 1024.

Definition sb : superblock :=
  mkSb FSMAGIC IMGSIZE (IMGSIZE / BSIZE) (1024 * BSIZE / 64) 2 (2 + 1024).

(** ** The image *)

Abbreviation image := (gmap Z (list Z)).
Definition st (A : Type) : Type := M image A.

Definition zero_block : list Z := replicate 1024 0.
Definition blk (d : image) (n : Z) : list Z := default zero_block (d !! n).

(** Block [b] is at [addr + b * BSIZE], a product of unsigned integers. *)
Definition data_block (b : Z) : Z := u32 (b * BSIZE) / BSIZE.

Definition bread (blockno : Z) : st Z := ret blockno.
Definition brelse (b : Z) : st unit := ret tt.
(** Reading and writing the 1024 bytes at [b->data]. *)
Definition bdata (b : Z) : st (list Z) := fun d =>
  if data_block b <? IMGSIZE / BSIZE then Done (blk d (data_block b), d) else Fault.
Definition set_bdata (b : Z) (l : list Z) : st unit := fun d =>
  if data_block b <? IMGSIZE / BSIZE then Done (tt, <[data_block b := l]> d) else Fault.

(** [bwrite]: a structure at the start of a block. *)
Definition bwrite (blockno : Z) (x : list Z) : st unit :=
  d <- bdata blockno;; set_bdata blockno (splice 0 x d).

(** Entry [i] of an indirect block. *)
Definition get_entry (b i : Z) : st Z :=
  if (0 <=? i) && (i <? NINDIRECT) then d <- bdata b;; ret (fld 4 (4 * i) d) else fault.
Definition set_entry (b i v : Z) : st unit :=
  if (0 <=? i) && (i <? NINDIRECT) then d <- bdata b;; set_bdata b (set_fld 4 (4 * i) v d) else fault.

(** The field of [k] bytes at [off] in the inode [dip] points to. *)
Definition get_di (k : nat) (off dip : Z) : st Z :=
  d <- bdata (IBLOCK dip sb);; ret (fld k (dinode_off dip + off) d).
Definition set_di (k : nat) (off dip v : Z) : st unit :=
  d <- bdata (IBLOCK dip sb);; set_bdata (IBLOCK dip sb) (set_fld k (dinode_off dip + off) v d).

Definition di_type : Z := 0.
Definition di_major : Z := 2.
Definition di_nlink : Z := 6.
Definition di_size : Z := 8.
Definition di_addr (i : Z) : Z := 12 + 4 * i.

(** ** Allocation *)

Definition get_datastart : Z :=
  let bits := nblocks sb / BPB in
  let Bs := u32 (bits * 8) in
  let blocks := u32 (Bs + BSIZE - 1) / BSIZE in
  u32 (bmapstart sb + blocks).

(** The buffer at hand in a scan that has come to block [f]. *)
Definition scan (f : Z) (b : option Z) : st Z :=
  match b with
  | None => bread f
  | Some b => if b <? f then brelse b;;; bread f else ret b
  end.

Fixpoint balloc_loop (k : nat) (i : Z) (b : option Z) : st Z :=
  match k with
  | O => ret 0
  | S k =>
    b <- scan (BBLOCK i sb) b;;
    let bi := i mod BPB in
    let m := 2 ^ (bi mod 8) in
    d <- bdata b;;
    match arr_get d (bi / 8) with
    | None => fault
    | Some x =>
        if Z.land x m =? 0 then
          set_bdata b (arr_set d (bi / 8) (Z.lor x m));;; brelse b;;; ret i
        else balloc_loop k (i + 1) (Some b)
    end
  end.
(** The first free block; 0 when there is none. *)
Definition balloc : st Z :=
  balloc_loop (Z.to_nat (nblocks sb - get_datastart)) get_datastart None.

Fixpoint ialloc_loop (k : nat) (type i : Z) (b : option Z) : st (option Z) :=
  match k with
  | O => ret None
  | S k =>
    b <- scan (IBLOCK i sb) b;;
    d <- bdata b;;
    if fld 2 (dinode_off i + di_type) d =? 0 then
      set_bdata b (splice (dinode_off i) (replicate 64 0) d);;;
      set_di 2 di_type i type;;;
      ret (Some i)
    else ialloc_loop k type (i + 1) (Some b)
  end.
(** The inode, which is also what [*inum] becomes; [None] is the null pointer. *)
Definition ialloc (type : Z) : st (option Z) :=
  ialloc_loop (Z.to_nat (ninodes sb - 1)) type 1 None.

(** [ialloc] whose result is used as a pointer right away. *)
Definition ialloc_deref (type : Z) : st Z :=
  r <- ialloc type;; match r with Some i => ret i | None => fault end.

(** ** Directories *)

(** A [dirent] is its 16 bytes. *)
Definition dirent (inum : Z) (name : list Z) : list Z := le_bytes 2 inum ++ name.

(** Puts [ent] in entry [i] of its block [b] if it is free. *)
Definition put_entry (dip : Z) (ent : list Z) (i b : Z) : st bool :=
  d <- bdata b;;
  let off := (i mod DPB) * 16 in
  if fld 2 off d =? 0 then
    set_bdata b (splice off ent d);;;
    n <- get_di 4 di_size dip;; set_di 4 di_size dip (u32 (n + 16));;;
    brelse b;;; ret true
  else ret false.

(** The head of the loops of [dirappend] at entry [i]: the buffer at hand, [b]
    of block [nd], or that of the next block, allocated if it is not there;
    [get] and [put] are the addresses. *)
Definition next_block (get : Z -> st Z) (put : Z -> Z -> st unit) (i nd : Z) (b : option Z) : st (Z * Z) :=
  if (match b with None => true | Some _ => (nd + 1) * DPB <=? i end) then
    nd <- (match b with Some b => brelse b;;; ret (nd + 1) | None => ret nd end);;
    a <- get nd;;
    when (a =? 0) (a <- balloc;; put nd a);;;
    a <- get nd;; b <- bread a;; ret (b, nd)
  else match b with Some b => ret (b, nd) | None => fault end.

(** The loops: [k] entries to go; [true] when the entry is in. *)
Fixpoint append_loop (get : Z -> st Z) (put : Z -> Z -> st unit) (k : nat) (dip : Z) (ent : list Z)
    (i nd : Z) (b : option Z) : st bool :=
  match k with
  | O => ret false
  | S k =>
    '(b, nd) <- next_block get put i nd b;;
    ok <- put_entry dip ent i b;;
    if ok then ret true else append_loop get put k dip ent (i + 1) nd (Some b)
  end.
Definition append_direct (dip : Z) (ent : list Z) : st bool :=
  append_loop (fun nd => get_di 4 (di_addr nd) dip) (fun nd a => set_di 4 (di_addr nd) dip a)
              (Z.to_nat (NDIRECT * DPB)) dip ent 0 0 None.
Definition append_indirect (dip ib : Z) (ent : list Z) : st bool :=
  append_loop (get_entry ib) (set_entry ib) (Z.to_nat (NINDIRECT * DPB)) dip ent 0 0 None.

Definition dirappend (dip : Z) (ent : list Z) : st Z :=
  t <- get_di 2 di_type dip;;
  if negb (t =? T_DIR) then ret 0
  else
    ok <- append_direct dip ent;;
    if ok then ret 0
    else
      a <- get_di 4 (di_addr NDIRECT) dip;;
      when (a =? 0) (a <- balloc;; set_di 4 (di_addr NDIRECT) dip a);;;
      a <- get_di 4 (di_addr NDIRECT) dip;;
      ib <- bread a;;
      ok <- append_indirect dip ib ent;;
      if ok then brelse ib;;; ret 0 else brelse ib;;; ret (-1).

(** [strncpy] of the host's library into a zeroed name, [strcpy] into one
    that holds [old]: it overruns names of [DIRSIZ] characters. *)
Definition strncpy (name : list Z) : list Z :=
  take DIRSIZ name ++ replicate (DIRSIZ - length name) 0.
Definition strcpy (old name : list Z) : option (list Z) :=
  if (length name <? DIRSIZ)%nat then Some (name ++ 0 :: drop (S (length name)) old) else None.

Definition dirlink (dip : Z) (name : list Z) (inum : Z) : st Z :=
  dirappend dip (dirent inum (strncpy name)).

(** The characters of ".", "..", "dev" and the devices' names. *)
Definition dot : list Z := [46].
Definition dotdot : list Z := [46; 46].
Definition dev_name : list Z := [100; 101; 118].
Definition devs : list (list Z * Z) :=
  [([99; 111; 110; 115; 111; 108; 101], 0);           (* console *)
   ([109; 111; 110; 105; 116; 111; 114; 48], 1);      (* monitor0 *)
   ([107; 101; 121; 98; 111; 97; 114; 100], 2)].      (* keyboard *)

Fixpoint add_devices (inode : Z) (l : list (list Z * Z)) : st unit :=
  match l with
  | [] => ret tt
  | (name, id) :: l =>
    r <- ialloc T_DEVICE;;
    match r with
    | None => panic "exception"
    | Some dev_inum =>
      set_di 2 di_major dev_inum id;;;
      dirlink inode name dev_inum;;;
      add_devices inode l
    end
  end.

Definition add_dev (root_dip : Z) : st unit :=
  inum <- ialloc_deref T_DIR;;
  set_di 2 di_nlink inum 1;;;
  dirlink root_dip dev_name inum;;;
  dirlink inum dot inum;;;
  dirlink inum dotdot 1;;;
  n <- get_di 2 di_nlink root_dip;; set_di 2 di_nlink root_dip (n + 1);;;
  add_devices inum devs.

(** ** Files *)

(** What [fread] leaves in the buffer, and the rest set to zero. *)
Definition read_chunk (b : Z) (chunk : list Z) : st unit :=
  let n := Z.of_nat (length chunk) in
  d <- bdata b;; set_bdata b (splice 0 chunk d);;;
  when (n <? BSIZE)
    (d <- bdata b;; set_bdata b (splice n (replicate (Z.to_nat (BSIZE - n)) 0) d)).

(** The part of the loop that stores the number [bno] of block [pblock]; the
    indirect block, if it has been taken. *)
Definition place (dip pblock bno : Z) (indirect : option Z) : st (option Z) :=
  if pblock <? NDIRECT then set_di 4 (di_addr pblock) dip bno;;; ret indirect
  else
    ib <- (match indirect with
           | Some ib => ret ib
           | None => a <- balloc;; set_di 4 (di_addr NDIRECT) dip a;;; bread a
           end);;
    set_entry ib (pblock - NDIRECT) bno;;; ret (Some ib).

(** The loop that writes a file: [size] bytes to go, [rest] not read yet. *)
Fixpoint write_loop (fuel : nat) (dip size : Z) (rest : list Z) (pblock : Z) (indirect : option Z) : st unit :=
  match fuel with
  | O => nofuel
  | S fuel =>
    if negb (0 <? size) then ret tt
    else
      bno <- balloc;;
      b <- bread bno;;
      let chunk := take (Z.to_nat BSIZE) rest in
      read_chunk b chunk;;;
      indirect <- place dip pblock bno indirect;;
      brelse b;;;
      write_loop fuel dip (u64 (size - Z.of_nat (length chunk))) (drop (Z.to_nat BSIZE) rest) (pblock + 1) indirect
  end.
Definition write_fuel (size : Z) : nat := (Z.to_nat (size / BSIZE) + 2)%nat.

(** [name.substr(name.find_last_of('_') + 1)]. *)
Fixpoint after_last (name : list Z) : list Z :=
  match name with
  | [] => []
  | c :: name' => if bool_decide (95 ∈ name') then after_last name' else if c =? 95 then name' else name
  end.

Section Main.
Context {host : Host}.

(** A turn of the loop of [main] on a file; the result is what [ent.name]
    holds after it. *)
Definition add_file (root_dip : Z) (name ent_name : list Z) : st (list Z) :=
  match stat name with
  | None => ret ent_name
  | Some size =>
    if MAXFILE * BSIZE <? size then ret ent_name
    else
      inum <- ialloc_deref T_FILE;;
      set_di 2 di_nlink inum 1;;;
      set_di 4 di_size inum size;;;
      match fopen name with
      | None => ret ent_name
      | Some l =>
        write_loop (write_fuel size) inum size l 0 None;;;
        match strcpy ent_name (after_last name) with
        | None => fault
        | Some ent_name => dirappend root_dip (dirent inum ent_name);;; ret ent_name
        end
      end
  end.

Fixpoint add_files (root_dip : Z) (names : list (list Z)) (ent_name : list Z) : st (list Z) :=
  match names with
  | [] => ret ent_name
  | name :: names => ent_name <- add_file root_dip name ent_name;; add_files root_dip names ent_name
  end.

Definition sb_bytes : list Z :=
  le_bytes 4 (magic sb) ++ le_bytes 4 (size sb) ++ le_bytes 4 (nblocks sb) ++
  le_bytes 4 (ninodes sb) ++ le_bytes 4 (inodestart sb) ++ le_bytes 4 (bmapstart sb).

(** [main]; [junk] is what the local [ent.name] holds at first. *)
Definition main (argv : list (list Z)) (junk : list Z) : st Z :=
  match argv with
  | _ :: imgname :: names =>
    if negb (open_image imgname) then ret (-1)
    else
      put ∅;;;
      bwrite 1 sb_bytes;;;
      root_dip <- ialloc_deref T_DIR;;
      set_di 2 di_nlink root_dip 1;;;
      match strcpy junk dot with
      | None => fault
      | Some ent_name =>
        dirappend root_dip (dirent root_dip ent_name);;;
        add_files root_dip names ent_name;;;
        add_dev root_dip;;;
        ret 0
      end
  | _ => ret (-1)
  end.

End Main.
