(* ===== verification/MkfsProofs.v ===== *)
(** * Proofs about mkfs: the image as inodes and owned blocks *)
From S2P Require Import Prelude Fs FsProofs Blocks Mkfs.

(** ** The image described

    The inodes in use are those below [ni], the blocks in use those from
    [FIRST] on below [next].  Each of these belongs to an inode and has its
    number there, -1 for the indirect block.  mkfs has one block of bitmap,
    which covers the blocks below [LAST]. *)
Definition FIRST : Z := 1027.
Definition LAST : Z := 8192.
Definition BITMAP : Z := 1026.

Record abs : Type := mkAbs {
  inodes : gmap Z inode_t;
  ni : Z;
  data : gmap Z (Z * Z * list Z);
  next : Z
}.

Definition dinode_of (o : option inode_t) : list Z :=
  match o with Some x => dinode_bytes x | None => replicate 64 0 end.
Definition data_of (o : option (Z * Z * list Z)) : list Z :=
  match o with Some (_, c) => c | None => zero_block end.

Record rep (d : image) (A : abs) : Prop := mkRep {
  rep_len : forall n, length (blk d n) = 1024%nat;
  rep_sb : slice 0 24 (blk d 1) = sb_bytes;
  rep_ino : forall i, 1 <= i < 16384 ->
    slice (dinode_off i) 64 (blk d (IBLOCK i sb)) = dinode_of (inodes A !! i);
  rep_used : forall i, is_Some (inodes A !! i) <-> 1 <= i < ni A;
  rep_fits : forall i x, inodes A !! i = Some x -> inode_fits x /\ 0 < itype x;
  rep_bit : forall n, FIRST <= n < LAST -> exists x,
    arr_get (blk d BITMAP) (n / 8) = Some x /\ Z.testbit x (n mod 8) = (n <? next A);
  rep_data : forall n, FIRST <= n < IMGSIZE / BSIZE -> blk d n = data_of (data A !! n);
  rep_owned : forall n, is_Some (data A !! n) <-> FIRST <= n < next A;
  rep_ni : 1 <= ni A <= 16384;
  rep_next : FIRST <= next A <= LAST
}.

(** ** Places of the image *)

Lemma length_zero_block : length zero_block = 1024%nat.
Proof. apply length_replicate. Qed.
#[local] Opaque zero_block.

Lemma blk_insert d b l n : blk (<[b := l]> d) n = if decide (b = n) then l else blk d n.
Proof.
  unfold blk. case_decide as E; [by rewrite E, lookup_insert_eq|by rewrite lookup_insert_ne].
Qed.

Lemma data_block_id b : 0 <= b < IMGSIZE / BSIZE -> data_block b = b.
Proof. change (IMGSIZE / BSIZE) with 262144. intros H. unfold data_block, u32, BSIZE. zdiv. Qed.

Lemma bdata_at b d : 0 <= b < IMGSIZE / BSIZE -> bdata b d = Done (blk d b, d).
Proof.
  intros H. unfold bdata. rewrite data_block_id by done. by rewrite (proj2 (Z.ltb_lt b _)) by lia.
Qed.

Lemma set_bdata_at b l d : 0 <= b < IMGSIZE / BSIZE -> set_bdata b l d = Done (tt, <[b := l]> d).
Proof.
  intros H. unfold set_bdata. rewrite data_block_id by done. by rewrite (proj2 (Z.ltb_lt b _)) by lia.
Qed.

Lemma IBLOCK_at i : 1 <= i < 16384 -> 2 <= IBLOCK i sb < BITMAP.
Proof. unfold IBLOCK, IPB, BITMAP. cbn [inodestart sb]. zdiv. Qed.

Lemma IBLOCK_in i : 1 <= i < 16384 -> 0 <= IBLOCK i sb < IMGSIZE / BSIZE.
Proof. change (IMGSIZE / BSIZE) with 262144. intros H%IBLOCK_at. unfold BITMAP in H. lia. Qed.

Lemma BITMAP_in : 0 <= BITMAP < IMGSIZE / BSIZE.
Proof. by vm_compute. Qed.

Lemma BBLOCK_at n : FIRST <= n < LAST -> BBLOCK n sb = BITMAP.
Proof.
  unfold FIRST, LAST. intros H. unfold BBLOCK, BPB. cbn [bmapstart sb]. rewrite Z.div_small by lia. done.
Qed.

Lemma dinode_off_at i : 0 <= dinode_off i /\ dinode_off i + 64 <= 1024.
Proof. unfold dinode_off, IPB. zdiv. Qed.

(** Two inodes are in different places. *)
Lemma dinode_apart i j :
  i <> j -> IBLOCK i sb = IBLOCK j sb ->
  dinode_off i + 64 <= dinode_off j \/ dinode_off j + 64 <= dinode_off i.
Proof. unfold IBLOCK, dinode_off, IPB. cbn [inodestart sb]. zdiv. Qed.

(** ** Changing one part *)

Definition set_ino (i : Z) (y : inode_t) (A : abs) : abs := mkAbs (<[i := y]> (inodes A)) (ni A) (data A) (next A).
Definition set_data (n : Z) (o : Z * Z) (l : list Z) (A : abs) : abs := mkAbs (inodes A) (ni A) (<[n := (o, l)]> (data A)) (next A).
Definition new_ino (x : inode_t) (A : abs) : abs := mkAbs (<[ni A := x]> (inodes A)) (ni A + 1) (data A) (next A).
(** The next block, with its owner [o]. *)
Definition new_block (o : Z * Z) (A : abs) : abs :=
  mkAbs (inodes A) (ni A) (<[next A := (o, zero_block)]> (data A)) (next A + 1).

Lemma img_set_data d A n o c l :
  rep d A -> data A !! n = Some (o, c) -> length l = 1024%nat -> rep (<[n := l]> d) (set_data n o l A).
Proof.
  intros [H1 H2 H3 H4 H5 H6 H7 H8 H9 H10] Hn Hl.
  assert (FIRST <= n < next A) as Hr by (apply H8; by eexists).
  assert (BITMAP < n /\ FIRST = 1027) as [Hn0 HF] by (unfold BITMAP, FIRST in *; lia).
  split; cbn [set_data inodes ni data next]; auto.
  - intros m. rewrite blk_insert. by case_decide.
  - rewrite blk_insert, decide_False by (unfold BITMAP in *; lia). done.
  - intros i Hi. pose proof (IBLOCK_at i Hi). rewrite blk_insert, decide_False by lia. by apply H3.
  - intros m Hm. rewrite blk_insert, decide_False by lia. by apply H6.
  - intros m Hm. rewrite blk_insert. case_decide as E; [by rewrite E, lookup_insert_eq|].
    rewrite lookup_insert_ne by done. by apply H7.
  - intros m. rewrite <- H8. destruct (decide (n = m)) as [<-|]; [rewrite lookup_insert_eq, Hn; by split|].
    by rewrite lookup_insert_ne.
Qed.

(** Inode [i] replaced by [y]; [A'] is the description after it. *)
Lemma rep_put_ino d A i y l inodes' ni' :
  rep d A -> 1 <= i < 16384 -> inode_fits y -> 0 < itype y -> length l = 1024%nat ->
  slice (dinode_off i) 64 l = dinode_bytes y ->
  (forall j, i <> j -> IBLOCK i sb = IBLOCK j sb ->
     slice (dinode_off j) 64 l = slice (dinode_off j) 64 (blk d (IBLOCK i sb))) ->
  inodes' = <[i := y]> (inodes A) -> 1 <= ni' <= 16384 -> (forall j, is_Some (inodes' !! j) <-> 1 <= j < ni') ->
  rep (<[IBLOCK i sb := l]> d) (mkAbs inodes' ni' (data A) (next A)).
Proof.
  intros [H1 H2 H3 H4 H5 H6 H7 H8 H9 H10] Hi Hy Hty Hl Hs Hne -> Hni Hused.
  pose proof (IBLOCK_at i Hi) as Hb. split; cbn [inodes ni data next]; auto.
  - intros m. rewrite blk_insert. by case_decide.
  - rewrite blk_insert, decide_False by lia. done.
  - intros j Hj. rewrite blk_insert. destruct (decide (i = j)) as [<-|Hij].
    + by rewrite decide_True, lookup_insert_eq by done.
    + rewrite lookup_insert_ne, <- H3 by done. case_decide as E; [|done]. rewrite Hne by done. by rewrite E.
  - intros j x. destruct (decide (i = j)) as [<-|Hij].
    + rewrite lookup_insert_eq. by intros [= <-].
    + rewrite lookup_insert_ne by done. apply H5.
  - intros m Hm. rewrite blk_insert, decide_False by lia. by apply H6.
  - intros m Hm. rewrite blk_insert, decide_False by (unfold FIRST, BITMAP in *; lia). by apply H7.
Qed.

Lemma rep_inode_at d A i x : rep d A -> inodes A !! i = Some x ->
  1 <= i < 16384 /\ slice (dinode_off i) 64 (blk d (IBLOCK i sb)) = dinode_bytes x /\ inode_fits x /\ 0 < itype x.
Proof.
  intros H Hx. assert (1 <= i < ni A) as Hi by (apply (rep_used _ _ H); by eexists).
  pose proof (rep_ni _ _ H) as Hn. split; [lia|]. rewrite (rep_ino _ _ H) by lia. rewrite Hx.
  split; [done|]. by eapply rep_fits.
Qed.

Lemma rep_set_ino d A i x y l :
  rep d A -> inodes A !! i = Some x -> inode_fits y -> 0 < itype y -> length l = 1024%nat ->
  slice (dinode_off i) 64 l = dinode_bytes y ->
  (forall j, i <> j -> IBLOCK i sb = IBLOCK j sb ->
     slice (dinode_off j) 64 l = slice (dinode_off j) 64 (blk d (IBLOCK i sb))) ->
  rep (<[IBLOCK i sb := l]> d) (set_ino i y A).
Proof.
  intros H Hx Hy Hty Hl Hs Hne. destruct (rep_inode_at d A i x H Hx) as (Hi & _).
  apply (rep_put_ino d A i y l); auto; [apply H|]. intros j. rewrite <- (rep_used _ _ H).
  destruct (decide (i = j)) as [<-|]; [rewrite lookup_insert_eq, Hx; by split|by rewrite lookup_insert_ne].
Qed.

(** ** What an operation does

    On every image that [A] describes, [m] returns [r] and leaves an image that
    [A'] describes. *)
Definition does {X} (m : st X) (A : abs) (r : X) (A' : abs) : Prop :=
  forall d, rep d A -> exists d', m d = Done (r, d') /\ rep d' A'.

Lemma does_ret {X} (r : X) A : does (ret r) A r A.
Proof. intros d H. by exists d. Qed.

Lemma does_bind {X Y} (m : st X) (k : X -> st Y) A r A1 r' A2 :
  does m A r A1 -> does (k r) A1 r' A2 -> does (bind m k) A r' A2.
Proof.
  intros H1 H2 d Hd. destruct (H1 d Hd) as (d1 & E1 & Hd1). rewrite (bind_done _ _ _ _ _ E1). by apply H2.
Qed.

Lemma does_when (b : bool) (m : st unit) A A' :
  (b = true -> does m A tt A') -> (b = false -> A' = A) -> does (when b m) A tt A'.
Proof. destruct b; intros H1 H2; [by apply H1|rewrite H2 by done; apply does_ret]. Qed.

(** *** Inodes *)

Lemma does_get_di k off i A x v :
  inodes A !! i = Some x -> 0 <= off -> off + Z.of_nat k <= 64 -> fld k off (dinode_bytes x) = v ->
  does (get_di k off i) A v A.
Proof.
  intros Hx H0 H1 Hv d Hd. destruct (rep_inode_at d A i x Hd Hx) as (Hi & Hs & _). exists d. split; [|done].
  unfold get_di. rewrite (bind_done _ _ _ _ _ (bdata_at _ d (IBLOCK_in i Hi))).
  rewrite (fld_slice k (dinode_off i) 64) by (pose proof (dinode_off_at i); lia). by rewrite Hs, Hv.
Qed.

Lemma does_set_di k off i v A x y :
  inodes A !! i = Some x -> 0 <= off -> off + Z.of_nat k <= 64 ->
  set_fld k off v (dinode_bytes x) = dinode_bytes y -> inode_fits y -> 0 < itype y ->
  does (set_di k off i v) A tt (set_ino i y A).
Proof.
  intros Hx H0 H1 Hv Hy Hty d Hd. destruct (rep_inode_at d A i x Hd Hx) as (Hi & Hs & _).
  pose proof (dinode_off_at i) as Ho. pose proof (rep_len _ _ Hd (IBLOCK i sb)) as Hl.
  eexists. split.
  { unfold set_di. rewrite (bind_done _ _ _ _ _ (bdata_at _ d (IBLOCK_in i Hi))).
    apply set_bdata_at, IBLOCK_in, Hi. }
  apply (rep_set_ino d A i x y); auto.
  - rewrite length_set_fld; lia.
  - rewrite set_fld_slice, Hs by lia. done.
  - intros j Hij Hb. unfold set_fld. pose proof (dinode_apart i j Hij Hb). pose proof (dinode_off_at j).
    apply slice_splice_ne; rewrite ?length_le_bytes; lia.
Qed.

(** The scan of an ascending search is at the block of the search. *)
Lemma scan_at f b (d : image) : (forall c, b = Some c -> c <= f) -> scan f b d = Done (f, d).
Proof.
  intros H. unfold scan. destruct b as [c|]; [|done]. destruct (Z.ltb_spec c f); [done|].
  assert (c = f) as -> by (specialize (H c eq_refl); lia). done.
Qed.

Definition fresh_inode (type : Z) : inode_t := mkInode 0 0 0 false 0 type 0 0 0 0 (replicate 13 0).

Lemma fresh_inode_fits type : 0 < type < 2 ^ 15 -> inode_fits (fresh_inode type).
Proof.
  intros H. unfold inode_fits. cbn [fresh_inode itype major minor nlink isize addrs].
  split_and!; try lia; try done. by apply Forall_replicate.
Qed.

Lemma s16_id z : -2 ^ 15 <= z < 2 ^ 15 -> s16 z = z.
Proof. intros H. unfold s16. zdiv. Qed.

Lemma set_fresh_type type :
  0 <= type < 2 ^ 15 -> set_fld 2 0 type (replicate 64 0) = dinode_bytes (fresh_inode type).
Proof.
  intros H. rewrite (set_dinode_type (fresh_inode 0) type : set_fld 2 0 type (replicate 64 0) = _).
  unfold with_type, fresh_inode. cbn. by rewrite s16_id by lia.
Qed.

Lemma ialloc_loop_found d A type i b k :
  rep d A -> 0 < type < 2 ^ 15 -> i = ni A -> i < 16384 -> (forall c, b = Some c -> c <= IBLOCK i sb) ->
  exists d', ialloc_loop (S k) type i b d = Done (Some i, d') /\ rep d' (new_ino (fresh_inode type) A).
Proof.
  intros Hd Ht -> Hlt Hb. pose proof (rep_ni _ _ Hd) as Hn. assert (1 <= ni A < 16384) as Hi by lia.
  pose proof (dinode_off_at (ni A)) as Ho. pose proof (rep_len _ _ Hd (IBLOCK (ni A) sb)) as Hl.
  assert (inodes A !! ni A = None) as Hx.
  { apply eq_None_not_Some. rewrite (rep_used _ _ Hd). lia. }
  pose proof (rep_ino _ _ Hd (ni A) Hi) as Hs. rewrite Hx in Hs. cbn [dinode_of] in Hs.
  cbn [ialloc_loop]. rewrite (bind_done _ _ _ _ _ (scan_at _ _ d Hb)).
  rewrite (bind_done _ _ _ _ _ (bdata_at _ d (IBLOCK_in _ Hi))).
  rewrite (fld_slice 2 (dinode_off (ni A)) 64), Hs, fld_zeros by (unfold di_type; lia). cbn [Z.eqb].
  rewrite (bind_done _ _ _ _ _ (set_bdata_at _ _ d (IBLOCK_in _ Hi))).
  eexists. split.
  { unfold set_di. rewrite bind_assoc, (bind_done _ _ _ _ _ (bdata_at _ _ (IBLOCK_in _ Hi))).
    rewrite (bind_done _ _ _ _ _ (set_bdata_at _ _ _ (IBLOCK_in _ Hi))). reflexivity. }
  rewrite insert_insert_eq. rewrite blk_insert, decide_True by done.
  set (z := splice (dinode_off (ni A)) (replicate 64 0) (blk d (IBLOCK (ni A) sb))).
  assert (length z = 1024%nat) as Hz by (unfold z; rewrite length_splice; cbn; lia).
  apply (rep_put_ino d A (ni A) (fresh_inode type)); auto using fresh_inode_fits; cbn [itype fresh_inode]; try lia.
  - rewrite length_set_fld; unfold di_type; lia.
  - unfold di_type. rewrite set_fld_slice by lia. unfold z. rewrite (slice_splice_eq _ (replicate 64 0)) by (cbn; lia).
    apply set_fresh_type. lia.
  - intros j Hij Hbj. pose proof (dinode_apart _ j Hij Hbj). pose proof (dinode_off_at j). unfold set_fld, di_type.
    rewrite slice_splice_ne by (rewrite ?length_le_bytes; lia). unfold z. apply slice_splice_ne; cbn; lia.
  - intros j. destruct (decide (ni A = j)) as [<-|Hj]; [rewrite lookup_insert_eq; split; [lia|by eexists]|].
    rewrite lookup_insert_ne by done. rewrite (rep_used _ _ Hd). lia.
Qed.

Lemma ialloc_loop_takes d A type : rep d A -> 0 < type < 2 ^ 15 -> ni A < 16384 -> forall k i b,
  1 <= i <= ni A -> ni A - i < Z.of_nat k -> (forall c, b = Some c -> c <= IBLOCK i sb) ->
  exists d', ialloc_loop k type i b d = Done (Some (ni A), d') /\ rep d' (new_ino (fresh_inode type) A).
Proof.
  intros Hd Ht Hlt. induction k as [|k IH]; intros i b Hi Hk Hb; [lia|].
  destruct (decide (i = ni A)) as [E|E].
  { rewrite <- E. apply ialloc_loop_found; auto; lia. }
  assert (is_Some (inodes A !! i)) as [x Hx] by (apply (rep_used _ _ Hd); lia).
  destruct (rep_inode_at d A i x Hd Hx) as (Hi2 & Hs & Hf & Hty).
  cbn [ialloc_loop]. rewrite (bind_done _ _ _ _ _ (scan_at _ _ d Hb)).
  rewrite (bind_done _ _ _ _ _ (bdata_at _ d (IBLOCK_in _ Hi2))). pose proof (dinode_off_at i).
  rewrite (fld_slice 2 (dinode_off i) 64), Hs by (unfold di_type; lia).
  unfold di_type. rewrite fld_dinode_type, Z.mod_small by (destruct Hf; lia).
  rewrite (proj2 (Z.eqb_neq _ 0)) by lia. apply IH; [lia|lia|].
  intros c [= <-]. unfold IBLOCK, IPB. zdiv.
Qed.

Lemma does_ialloc type A :
  0 < type < 2 ^ 15 -> ni A < 16384 -> does (ialloc type) A (Some (ni A)) (new_ino (fresh_inode type) A).
Proof.
  intros Ht Hlt d Hd. pose proof (rep_ni _ _ Hd). apply ialloc_loop_takes; auto; [lia| |done].
  change (ninodes sb) with 16384. lia.
Qed.

Lemma does_ialloc_deref type A :
  0 < type < 2 ^ 15 -> ni A < 16384 -> does (ialloc_deref type) A (ni A) (new_ino (fresh_inode type) A).
Proof. intros Ht Hlt. eapply does_bind; [by apply does_ialloc|apply does_ret]. Qed.

(** *** Blocks *)

Lemma does_bdata n o c A : data A !! n = Some (o, c) -> does (bdata n) A c A.
Proof.
  intros Hn d Hd. exists d. split; [|done]. assert (FIRST <= n < next A) as Hr by (apply (rep_owned _ _ Hd); by eexists).
  pose proof (rep_next _ _ Hd) as Hx. unfold FIRST, LAST in *.
  rewrite bdata_at by (change (IMGSIZE / BSIZE) with 262144; lia).
  rewrite (rep_data _ _ Hd) by (unfold FIRST; change (IMGSIZE / BSIZE) with 262144; lia). by rewrite Hn.
Qed.

Lemma does_set_bdata n o c l A :
  data A !! n = Some (o, c) -> length l = 1024%nat -> does (set_bdata n l) A tt (set_data n o l A).
Proof.
  intros Hn Hl d Hd. assert (FIRST <= n < next A) as Hr by (apply (rep_owned _ _ Hd); by eexists).
  pose proof (rep_next _ _ Hd) as Hx. unfold FIRST, LAST in *. eexists. split; [|by eapply img_set_data].
  apply set_bdata_at. change (IMGSIZE / BSIZE) with 262144. lia.
Qed.

(** The image with the next block taken. *)
Lemma rep_new_block d A o x l :
  rep d A -> next A < LAST -> arr_get (blk d BITMAP) (next A / 8) = Some x ->
  l = arr_set (blk d BITMAP) (next A / 8) (Z.lor x (2 ^ (next A mod 8))) ->
  rep (<[BITMAP := l]> d) (new_block o A).
Proof.
  intros [H1 H2 H3 H4 H5 H6 H7 H8 H9 H10] Hlt Hx ->. unfold FIRST, LAST, BITMAP in *.
  split; cbn [new_block inodes ni data next]; auto; unfold FIRST, LAST, BITMAP.
  - intros n. rewrite blk_insert. case_decide; [|done]. unfold arr_set. by rewrite length_insert.
  - by rewrite blk_insert, decide_False by lia.
  - intros i Hi. pose proof (IBLOCK_at i Hi) as Hb. unfold BITMAP in Hb.
    rewrite blk_insert, decide_False by lia. by apply H3.
  - intros n Hn. rewrite blk_insert, decide_True by done. rewrite arr_set_get by (try zdiv; by eexists).
    destruct (Z.eqb_spec (next A / 8) (n / 8)) as [E|E].
    + eexists. split; [done|]. destruct (H6 n Hn) as (y & Hy & Hb). rewrite <- E, Hx in Hy. injection Hy as <-.
      rewrite Z.lor_spec, Hb, Z.pow2_bits_eqb by zdiv.
      destruct (Z.eqb_spec (next A mod 8) (n mod 8)) as [E2|E2]; [|rewrite orb_false_r].
      * rewrite orb_true_r. symmetry. apply Z.ltb_lt. zdiv.
      * destruct (Z.ltb_spec n (next A)), (Z.ltb_spec n (next A + 1)); try lia; try done. zdiv.
    + destruct (H6 n Hn) as (y & Hy & Hb). exists y. split; [done|]. rewrite Hb.
      destruct (Z.ltb_spec n (next A)), (Z.ltb_spec n (next A + 1)); try lia; try done.
      assert (n = next A) by lia. congruence.
  - intros n Hn. rewrite blk_insert, decide_False by lia. destruct (decide (next A = n)) as [<-|E].
    + rewrite lookup_insert_eq, H7 by done. assert (data A !! next A = None) as ->; [|done].
      apply eq_None_not_Some. rewrite H8. lia.
    + rewrite lookup_insert_ne by done. by apply H7.
  - intros n. destruct (decide (next A = n)) as [<-|E]; [rewrite lookup_insert_eq; split; [lia|by eexists]|].
    rewrite lookup_insert_ne by done. rewrite H8. lia.
  - lia.
Qed.

Lemma balloc_loop_takes d A o : rep d A -> next A < LAST -> forall k i b,
  FIRST <= i <= next A -> next A - i < Z.of_nat k -> (forall c, b = Some c -> c = BITMAP) ->
  exists d', balloc_loop k i b d = Done (next A, d') /\ rep d' (new_block o A).
Proof.
  intros Hd Hlt. induction k as [|k IH]; intros i b Hi Hk Hb; [lia|]. cbn [balloc_loop].
  assert (FIRST <= i < LAST) as Hil by lia. rewrite (BBLOCK_at i Hil).
  rewrite (bind_done _ _ _ _ _ (scan_at BITMAP b d ltac:(intros c E; rewrite (Hb c E); lia))).
  rewrite (bind_done _ _ _ _ _ (bdata_at _ d BITMAP_in)).
  rewrite bit_index. replace (i mod BPB) with i by (symmetry; apply Z.mod_small; unfold BPB, FIRST, LAST in *; lia).
  destruct (rep_bit _ _ Hd i Hil) as (x & Hx & Hbit). rewrite Hx, land_pow2, Hbit by zdiv.
  destruct (Z.ltb_spec i (next A)); cbn [negb].
  - apply IH; [lia|lia|]. by intros c [= <-].
  - assert (i = next A) as -> by lia. eexists. split; [|by eapply rep_new_block].
    rewrite (bind_done _ _ _ _ _ (set_bdata_at _ _ d BITMAP_in)).
    reflexivity.
Qed.

(** [o] is to own the block. *)
Lemma does_balloc o A : next A < LAST -> does balloc A (next A) (new_block o A).
Proof.
  intros Hlt d Hd. pose proof (rep_next _ _ Hd). unfold balloc. change get_datastart with FIRST.
  apply (balloc_loop_takes d A o Hd Hlt); [lia| |done].
  change (nblocks sb) with 262144. unfold FIRST, LAST in *. lia.
Qed.
