(* ===== verification/MkfsDirs.v ===== *)
(** * Proofs about mkfs: contents of inodes, directories *)
From S2P Require Import Prelude Fs FsProofs Blocks Mkfs MkfsProofs.

(** ** Contents *)

(** The address of block [k], as the kernel finds it. *)
Definition addr_of (A : abs) (x : inode_t) (k : Z) : option Z :=
  if k <? NDIRECT then arr_get (addrs x) k
  else match arr_get (addrs x) NDIRECT with
       | Some a => match data A !! a with
                   | Some (_, d) => Some (fld 4 (4 * (k - NDIRECT)) d)
                   | None => None
                   end
       | None => None
       end.

(** The first [K] blocks of inode [i], whose fields are [x], hold [l]. *)
Record content (A : abs) (i : Z) (x : inode_t) (l : list Z) (K : Z) : Prop := mkContent {
  content_len : Z.of_nat (length l) = BSIZE * K;
  content_max : 0 <= K <= MAXFILE;
  content_indirect : NDIRECT < K ->
    exists a c, arr_get (addrs x) NDIRECT = Some a /\ data A !! a = Some ((i, -1), c) /\ length c = 1024%nat;
  content_block : forall k, 0 <= k < K ->
    exists a, addr_of A x k = Some a /\ data A !! a = Some ((i, k), slice (BSIZE * k) BSIZE l)
}.

(** Inodes other than [i], and their blocks, stay as they are. *)
Record frame (i : Z) (A A' : abs) : Prop := mkFrame {
  frame_ino : forall j, j <> i -> inodes A' !! j = inodes A !! j;
  frame_data : forall n o c, o.1 <> i -> data A !! n = Some (o, c) -> data A' !! n = Some (o, c)
}.

#[export] Instance frame_preorder i : PreOrder (frame i).
Proof.
  split; [intros A; by split|]. intros A B C [H1 H2] [H3 H4]. split; [|by auto].
  intros j Hj. by rewrite H3, H1.
Qed.

(** Inode [j] and its blocks stay as they are. *)
Definition kept (j : Z) (A A' : abs) : Prop :=
  inodes A' !! j = inodes A !! j /\
  forall n k c, data A !! n = Some ((j, k), c) -> data A' !! n = Some ((j, k), c).

#[export] Instance kept_preorder j : PreOrder (kept j).
Proof.
  split; [intros A; by split|]. intros A B C [H1 H2] [H3 H4]. split; [by rewrite H3|auto].
Qed.

Lemma frame_kept i j A A' : frame i A A' -> j <> i -> kept j A A'.
Proof. intros [H1 H2] Hj. split; [by apply H1|]. intros n k c. by apply H2. Qed.

Lemma content_kept j A A' x l K : kept j A A' -> content A j x l K -> content A' j x l K.
Proof.
  intros [_ Hf] [H1 H2 H3 H4]. split; [done|done| |].
  - intros HK. destruct (H3 HK) as (a & c & Ha & Hc & Hl). exists a, c. split; [done|]. split; [by apply Hf|done].
  - intros k Hk. destruct (H4 k Hk) as (a & Ha & Hb). exists a. split; [|by apply Hf].
    unfold addr_of in *. destruct (Z.ltb_spec k NDIRECT); [done|].
    destruct (H3 ltac:(lia)) as (a' & c & Ha' & Hc & _). rewrite Ha', Hc in Ha.
    by rewrite Ha', (Hf a' _ c Hc).
Qed.

Lemma frame_set_ino i x A : frame i A (set_ino i x A).
Proof. split; [|done]. intros j Hj. cbn. by rewrite lookup_insert_ne. Qed.

Lemma frame_set_data i n k c l A : data A !! n = Some ((i, k), c) -> frame i A (set_data n (i, k) l A).
Proof.
  intros Hn. split; [done|]. intros m o c' Ho Hm. cbn. rewrite lookup_insert_ne; [done|].
  intros ->. rewrite Hn in Hm. injection Hm as <- _. done.
Qed.

(** What every described image has. *)
Definition abs_ok (A : abs) : Prop :=
  FIRST <= next A <= LAST /\ 1 <= ni A <= 16384 /\
  (forall n, is_Some (data A !! n) <-> FIRST <= n < next A) /\
  (forall i, is_Some (inodes A !! i) <-> 1 <= i < ni A).

Lemma does_ok {X} (m : st X) A r A' : (abs_ok A -> does m A r A') -> does m A r A'.
Proof.
  intros H d Hd. apply H; [|done]. split; [apply Hd|]. split; [apply Hd|]. split; apply Hd.
Qed.

Lemma frame_new_block i k A : abs_ok A -> frame i A (new_block (i, k) A).
Proof.
  intros (_ & _ & H & _). split; [done|]. intros n o c _ Hn. cbn. rewrite lookup_insert_ne; [done|].
  intros <-. assert (FIRST <= next A < next A) by (apply H; by eexists). lia.
Qed.

Lemma ok_set_ino i x y A : inodes A !! i = Some y -> abs_ok A -> abs_ok (set_ino i x A).
Proof.
  intros Hy (H1 & H2 & H3 & H4). do 3 (split; [done|]). intros j. rewrite <- H4. cbn.
  destruct (decide (i = j)) as [<-|]; [rewrite lookup_insert_eq, Hy; by split|by rewrite lookup_insert_ne].
Qed.

Lemma ok_set_data n o c o' l A : data A !! n = Some (o, c) -> abs_ok A -> abs_ok (set_data n o' l A).
Proof.
  intros Hn (H1 & H2 & H3 & H4). do 2 (split; [done|]). split; [|done]. intros j. rewrite <- H3. cbn.
  destruct (decide (n = j)) as [<-|]; [rewrite lookup_insert_eq, Hn; by split|by rewrite lookup_insert_ne].
Qed.

Lemma ok_new_block o A : next A < LAST -> abs_ok A -> abs_ok (new_block o A).
Proof.
  intros Hn (H1 & H2 & H3 & H4). split; [cbn; lia|]. split; [done|]. split; [|done]. intros j. cbn.
  destruct (decide (next A = j)) as [<-|]; [rewrite lookup_insert_eq; split; [lia|by eexists]|].
  rewrite lookup_insert_ne by done. rewrite H3. lia.
Qed.

Lemma ok_new_ino x A : ni A < 16384 -> abs_ok A -> abs_ok (new_ino x A).
Proof.
  intros Hn (H1 & H2 & H3 & H4). split; [done|]. split; [cbn; lia|]. split; [done|]. intros j. cbn.
  destruct (decide (ni A = j)) as [<-|]; [rewrite lookup_insert_eq; split; [lia|by eexists]|].
  rewrite lookup_insert_ne by done. rewrite H4. lia.
Qed.

(** ** Directories *)

Definition good_entry (e : list Z) : Prop := length e = 16%nat /\ fld 2 0 e <> 0.

(** Directory [i] has [K] direct blocks with the entries [es]. *)
Record dir_room (A : abs) (i : Z) (x : inode_t) (es : list (list Z)) (K : Z) : Prop := mkDirRoom {
  dir_ino : inodes A !! i = Some x;
  dir_fits : inode_fits x;
  dir_type : itype x = T_DIR;
  dir_size : isize x = 16 * Z.of_nat (length es);
  dir_max : 0 <= K <= NDIRECT;
  dir_room_for : Z.of_nat (length es) <= DPB * K;
  dir_good : Forall good_entry es;
  dir_content : content A i x (concat es ++ replicate (Z.to_nat (BSIZE * K - 16 * Z.of_nat (length es))) 0) K;
  dir_rest : forall k, K <= k <= NDIRECT -> arr_get (addrs x) k = Some 0
}.

Lemma good_entries es : Forall good_entry es -> Forall (fun e => length e = 16%nat) es.
Proof. intros H. eapply Forall_impl; [exact H|]. by intros e []. Qed.

Lemma length_entries es : Forall good_entry es -> length (concat es) = (16 * length es)%nat.
Proof. intros H. apply length_records, good_entries, H. Qed.

Lemma fld_entry es z i e : Forall good_entry es -> es !! i = Some e -> fld 2 (16 * Z.of_nat i) (concat es ++ z) <> 0.
Proof.
  intros Hes Hi. replace (16 * Z.of_nat i) with (16 * Z.of_nat i + 0) by lia.
  rewrite (fld_slice 2 _ 16), (slice_record es z i e) by (done || lia || by apply good_entries).
  by eapply Forall_lookup_1 in Hes as [_ He].
Qed.

Lemma fld_free es m : Forall good_entry es -> fld 2 (16 * Z.of_nat (length es)) (concat es ++ replicate m 0) = 0.
Proof.
  intros Hes%length_entries. replace (16 * Z.of_nat (length es)) with (Z.of_nat (length (concat es)) + 0) by lia.
  unfold fld, slice. rewrite Z.add_0_r, !Nat2Z.id, drop_app_length.
  exact (fld_zeros 2 0 m ltac:(lia)).
Qed.

(** The address and bytes of a direct block. *)
Lemma dir_block A i x es K k : dir_room A i x es K -> 0 <= k < K ->
  exists a, arr_get (addrs x) k = Some a /\
    data A !! a = Some ((i, k), slice (BSIZE * k) BSIZE (concat es ++ replicate (Z.to_nat (BSIZE * K - 16 * Z.of_nat (length es))) 0)).
Proof.
  intros H Hk. destruct (content_block _ _ _ _ _ (dir_content _ _ _ _ _ H) k Hk) as (a & Ha & Hd).
  exists a. split; [|done]. unfold addr_of in Ha. pose proof (dir_max _ _ _ _ _ H).
  by rewrite (proj2 (Z.ltb_lt k NDIRECT)) in Ha by lia.
Qed.

(** *** The loop of [dirappend] *)

(** The loop is about to look at entry [i]: it has the buffer of the block of
    the entry before. *)
Definition at_entry (x : inode_t) (i nd : Z) (b : option Z) : Prop :=
  match b with
  | None => i = 0 /\ nd = 0
  | Some a => 0 < i /\ nd = (i - 1) / DPB /\ arr_get (addrs x) nd = Some a
  end.

Abbreviation get_block dip := (fun nd => get_di 4 (di_addr nd) dip).
Abbreviation put_block dip := (fun nd a => set_di 4 (di_addr nd) dip a).

Lemma does_get_addr A i x k a :
  inodes A !! i = Some x -> inode_fits x -> 0 <= k -> arr_get (addrs x) k = Some a ->
  does (get_di 4 (di_addr k) i) A a A.
Proof.
  intros Hx Hf Hk Ha. unfold arr_get in Ha. rewrite (proj2 (Z.ltb_ge k 0)) in Ha by lia.
  destruct (inode_fits_addr x _ a Hf Ha) as [Hlt _]. unfold di_addr.
  apply (does_get_di 4 _ i A x a Hx); [lia|lia|].
  replace k with (Z.of_nat (Z.to_nat k)) by lia. by apply fld_dinode_addr.
Qed.

Lemma with_addr_fits x k a : inode_fits x -> 0 <= a < 2 ^ 32 -> inode_fits (with_addr k a x).
Proof.
  intros (H1 & H2 & H3 & H4 & H5 & H6 & H7) Ha. unfold inode_fits. cbn [with_addr itype major minor nlink isize addrs].
  do 5 (split; [done|]). unfold arr_set. rewrite length_insert. split; [done|]. by apply Forall_insert.
Qed.

Lemma does_set_addr A i x k a :
  inodes A !! i = Some x -> inode_fits x -> 0 < itype x -> 0 <= k <= 12 -> 0 <= a < 2 ^ 32 ->
  does (set_di 4 (di_addr k) i a) A tt (set_ino i (with_addr k a x) A).
Proof.
  intros Hx Hf Ht Hk Ha. unfold di_addr. apply (does_set_di 4 _ i a A x); [done|lia|lia| | |done].
  - replace k with (Z.of_nat (Z.to_nat k)) by lia. apply set_dinode_addr; [done|lia].
  - by apply with_addr_fits.
Qed.

(** A block that is there. *)
Lemma next_block_has A dip x i nd b a :
  inodes A !! dip = Some x -> inode_fits x -> 0 <= i -> at_entry x i nd b ->
  arr_get (addrs x) (i / DPB) = Some a -> a <> 0 ->
  does (next_block (get_block dip) (put_block dip) i nd b) A (a, i / DPB) A.
Proof.
  intros Hx Hf Hi Hb Ha Ha0. pose proof (Z.div_pos i DPB Hi ltac:(done)) as Hq.
  assert (forall k, k = i / DPB -> does (bind (get_di 4 (di_addr k) dip) (fun a => bind (when (a =? 0)
    (bind balloc (fun a => set_di 4 (di_addr k) dip a))) (fun _ => bind (get_di 4 (di_addr k) dip) (fun a =>
    bind (bread a) (fun b => ret (b, k)))))) A (a, i / DPB) A) as Hget.
  { intros k ->. eapply does_bind; [by eapply does_get_addr|].
    eapply does_bind; [apply (does_when _ _ A A); [by intros ?%Z.eqb_eq|done]|].
    eapply does_bind; [by eapply does_get_addr|]. apply does_ret. }
  unfold next_block. destruct b as [a'|].
  - destruct Hb as (Hi0 & -> & Ha'). destruct (Z.leb_spec (((i - 1) / DPB + 1) * DPB) i).
    + eapply does_bind; [apply does_ret|]. apply Hget. unfold DPB in *. zdiv.
    + assert ((i - 1) / DPB = i / DPB) as E by (unfold DPB in *; zdiv). rewrite E in Ha' |- *.
      rewrite Ha in Ha'. injection Ha' as ->. apply does_ret.
  - destruct Hb as [-> ->]. eapply does_bind; [apply does_ret|]. by apply Hget.
Qed.

(** The state with a block more. *)
Definition grown (dip : Z) (x : inode_t) (k : Z) (A : abs) : abs :=
  set_ino dip (with_addr k (next A) x) (new_block (dip, k) A).

(** A block that is not there yet. *)
Lemma next_block_new A dip x i nd b :
  inodes A !! dip = Some x -> inode_fits x -> 0 < itype x -> 0 <= i / DPB < 12 -> i mod DPB = 0 -> at_entry x i nd b ->
  arr_get (addrs x) (i / DPB) = Some 0 -> next A < LAST ->
  does (next_block (get_block dip) (put_block dip) i nd b) A (next A, i / DPB) (grown dip x (i / DPB) A).
Proof.
  intros Hx Hf Ht Hi Hm Hb Ha Hn. apply does_ok. intros (Hnx & _).
  assert (0 <= next A < 2 ^ 32) as Hr by (unfold FIRST, LAST in *; lia).
  assert (does (bind (get_di 4 (di_addr (i / DPB)) dip) (fun a => bind (when (a =? 0)
    (bind balloc (fun a => set_di 4 (di_addr (i / DPB)) dip a))) (fun _ => bind (get_di 4 (di_addr (i / DPB)) dip) (fun a =>
    bind (bread a) (fun b => ret (b, i / DPB)))))) A (next A, i / DPB) (grown dip x (i / DPB) A)) as Hget.
  { eapply does_bind; [by eapply does_get_addr; [..|lia|]|].
    eapply does_bind; [apply (does_when _ _ _ (grown dip x (i / DPB) A)); [intros _|done]|].
    - eapply does_bind; [by apply (does_balloc (dip, i / DPB))|]. apply does_set_addr; try done. lia.
    - eapply does_bind; [|apply does_ret]. eapply does_get_addr; [apply lookup_insert_eq|by apply with_addr_fits|lia|].
      cbn [addrs with_addr]. rewrite arr_set_get by (try lia; by eexists). by rewrite Z.eqb_refl. }
  unfold next_block. destruct b as [a'|].
  - destruct Hb as (Hi0 & -> & Ha'). rewrite (proj2 (Z.leb_le _ _)) by (unfold DPB in *; zdiv).
    eapply does_bind; [apply does_ret|]. replace ((i - 1) / DPB + 1) with (i / DPB) by (unfold DPB in *; zdiv). done.
  - destruct Hb as [-> ->]. eapply does_bind; [apply does_ret|]. done.
Qed.

(** The number of the entry in its block. *)
Lemma entry_place i l :
  0 <= i -> fld 2 ((i mod DPB) * 16) (slice (BSIZE * (i / DPB)) BSIZE l) = fld 2 (16 * i) l.
Proof.
  intros Hi. replace (16 * i) with (BSIZE * (i / DPB) + (i mod DPB) * 16) by (unfold BSIZE, DPB; zdiv).
  symmetry. apply fld_slice; unfold BSIZE, DPB; zdiv.
Qed.

Lemma put_entry_full A dip ent i a o c :
  data A !! a = Some (o, c) -> fld 2 ((i mod DPB) * 16) c <> 0 -> does (put_entry dip ent i a) A false A.
Proof.
  intros Ha Hc. unfold put_entry. eapply does_bind; [by eapply does_bdata|]. cbv zeta.
  rewrite (proj2 (Z.eqb_neq _ 0)) by done. apply does_ret.
Qed.

(** The state with an entry more in block [a] of [dip]. *)
Definition entered (dip : Z) (x : inode_t) (a : Z) (o : Z * Z) (l : list Z) (A : abs) : abs :=
  set_ino dip (with_size (isize x + 16) x) (set_data a o l A).

Lemma with_size_fits x n : inode_fits x -> 0 <= n < 2 ^ 32 -> inode_fits (with_size n x).
Proof.
  intros (H1 & H2 & H3 & H4 & H5 & H6 & H7) Hn. unfold inode_fits. cbn [with_size itype major minor nlink isize addrs].
  do 4 (split; [done|]). split; [apply u32_range|done].
Qed.

Lemma put_entry_free A dip ent i a o c x :
  inodes A !! dip = Some x -> inode_fits x -> 0 < itype x -> isize x + 16 < 2 ^ 32 ->
  data A !! a = Some (o, c) -> length c = 1024%nat -> length ent = 16%nat ->
  fld 2 ((i mod DPB) * 16) c = 0 ->
  does (put_entry dip ent i a) A true (entered dip x a o (splice ((i mod DPB) * 16) ent c) A).
Proof.
  intros Hx Hf Ht Hsz Ha Hlc Hle Hc. unfold put_entry. eapply does_bind; [by eapply does_bdata|]. cbv zeta.
  rewrite Hc. cbn [Z.eqb].
  eapply does_bind; [eapply does_set_bdata; [done|by rewrite length_splice by (rewrite ?Hle, ?Hlc; unfold DPB; zdiv)]|].
  unfold di_size. eapply does_bind; [eapply does_get_di; [exact Hx|lia|lia|by apply fld_dinode_size]|].
  eapply does_bind; [|apply does_bind with (r := tt) (A1 := entered dip x a o (splice (i mod DPB * 16) ent c) A);
    apply does_ret].
  pose proof Hf as (_ & _ & _ & _ & Hs & _). replace (u32 (isize x + 16)) with (isize x + 16)
    by (symmetry; apply Z.mod_small; lia).
  eapply does_set_di; [exact Hx|lia|lia|apply set_dinode_size|apply with_size_fits; [done|lia]|done].
Qed.

(** *** What a directory gets *)

Lemma slice_app_l off n (l z : list Z) : 0 <= off -> off + n <= Z.of_nat (length l) -> slice off n (l ++ z) = slice off n l.
Proof.
  intros Ho Hn. apply list_eq. intros i. rewrite !lookup_slice. case_decide; [|done]. apply lookup_app_l. lia.
Qed.

Lemma slice_last (l z : list Z) off n :
  off = Z.of_nat (length l) -> n = Z.of_nat (length z) -> slice off n (l ++ z) = z.
Proof. intros -> ->. rewrite <- (app_nil_r z) at 2. apply slice_prefix. Qed.

Lemma arr_get_with_addr x i k a :
  inode_fits x -> 0 <= k <= 12 -> 0 <= i ->
  arr_get (addrs (with_addr k a x)) i = if k =? i then Some a else arr_get (addrs x) i.
Proof.
  intros (_ & _ & _ & _ & _ & Hl & _) Hk Hi. cbn [with_addr addrs]. apply arr_set_get; [lia|lia|].
  unfold arr_get. rewrite (proj2 (Z.ltb_ge k 0)) by lia. apply lookup_lt_is_Some_2. lia.
Qed.

Lemma room_extend A i x es K :
  dir_room A i x es K -> K < NDIRECT -> abs_ok A -> next A < LAST ->
  dir_room (grown i x K A) i (with_addr K (next A) x) es (K + 1).
Proof.
  intros H HK (Hn & _ & Hd & _) Hlt. pose proof H as [H1 H2 H3 H4 H5 H6 H7 [C1 C2 _ C4] H9].
  unfold FIRST, LAST, NDIRECT in *.
  assert (concat es ++ replicate (Z.to_nat (BSIZE * (K + 1) - 16 * Z.of_nat (length es))) 0 =
    (concat es ++ replicate (Z.to_nat (BSIZE * K - 16 * Z.of_nat (length es))) 0) ++ zero_block) as E.
  { rewrite <- app_assoc. f_equal. unfold zero_block. rewrite <- replicate_add. f_equal. unfold BSIZE, DPB in *. lia. }
  split; auto; unfold NDIRECT; try (unfold DPB in *; lia).
  - apply lookup_insert_eq.
  - apply with_addr_fits; [done|lia].
  - rewrite E. set (l := concat es ++ _) in *. split; [rewrite length_app, length_zero_block; unfold BSIZE in *; lia|
      unfold MAXFILE, NDIRECT, NINDIRECT in *; lia|unfold NDIRECT; lia|].
    intros k Hk. unfold addr_of. rewrite (proj2 (Z.ltb_lt k NDIRECT)) by (unfold NDIRECT; lia).
    rewrite arr_get_with_addr by (done || lia). cbn [grown set_ino new_block data].
    destruct (Z.eqb_spec K k) as [<-|Hne].
    + exists (next A). split; [done|]. rewrite lookup_insert_eq, slice_last; [done|lia|by rewrite length_zero_block].
    + destruct (C4 k ltac:(lia)) as (a & Ha & Hda). unfold addr_of in Ha.
      rewrite (proj2 (Z.ltb_lt k NDIRECT)) in Ha by (unfold NDIRECT; lia).
      exists a. split; [done|]. rewrite lookup_insert_ne.
      * rewrite slice_app_l by (unfold BSIZE in *; lia). done.
      * intros <-. assert (1027 <= next A < next A) by (apply Hd; by eexists). lia.
  - intros k Hk. rewrite arr_get_with_addr by (done || lia). rewrite (proj2 (Z.eqb_neq K k)) by lia. apply H9. lia.
Qed.

Lemma room_append A i x es K a e :
  dir_room A i x es K -> let n := Z.of_nat (length es) in
  n < DPB * K -> good_entry e -> arr_get (addrs x) (n / DPB) = Some a ->
  let c := slice (BSIZE * (n / DPB)) BSIZE (concat es ++ replicate (Z.to_nat (BSIZE * K - 16 * n)) 0) in
  dir_room (entered i x a (i, n / DPB) (splice ((n mod DPB) * 16) e c) A) i (with_size (isize x + 16) x) (es ++ [e]) K.
Proof.
  intros H n Hn He Ha c. pose proof H as [H1 H2 H3 H4 H5 H6 H7 [C1 C2 _ C4] H9]. fold n in H4, H6, C1, C4.
  set (l := concat es ++ replicate (Z.to_nat (BSIZE * K - 16 * n)) 0) in *.
  pose proof (length_entries es H7) as Hes. destruct He as [He He0].
  assert (concat (es ++ [e]) ++ replicate (Z.to_nat (BSIZE * K - 16 * Z.of_nat (length (es ++ [e])))) 0 = splice (16 * n) e l) as E.
  { unfold l. replace (Z.to_nat (BSIZE * K - 16 * n)) with (16 + Z.to_nat (BSIZE * K - 16 * Z.of_nat (length (es ++ [e]))))%nat
      by (rewrite length_app; cbn [length]; unfold BSIZE, DPB in *; lia).
    rewrite replicate_add, concat_app. cbn [concat]. rewrite app_nil_r, <- app_assoc.
    replace (16 * n) with (Z.of_nat (length (concat es))) by (unfold n; lia). symmetry. by apply splice_prefix. }
  assert (0 <= n < 768) as Hn0 by (unfold DPB, NDIRECT in *; lia).
  assert (isize (with_size (isize x + 16) x) = 16 * (n + 1)) as Hsz.
  { cbn [with_size isize]. rewrite H4. unfold u32. rewrite Z.mod_small; lia. }
  split; auto; try (rewrite Hsz || rewrite E; clear E); try rewrite length_app; cbn [length]; try (unfold DPB in *; lia).
  - apply lookup_insert_eq.
  - apply with_size_fits; [done|lia].
  - apply Forall_app. split; [done|]. by apply Forall_singleton.
  - split; [rewrite length_splice by (unfold BSIZE, DPB in *; lia); done|done|unfold NDIRECT in *; lia|].
    intros k Hk. destruct (C4 k Hk) as (b & Hb & Hdb). exists b. unfold addr_of in Hb |- *.
    rewrite (proj2 (Z.ltb_lt k NDIRECT)) in Hb |- * by lia. split; [exact Hb|].
    cbn [entered set_ino set_data data]. destruct (decide (k = n / DPB)) as [->|Hne].
    + rewrite Ha in Hb. injection Hb as <-. rewrite lookup_insert_eq. do 2 f_equal. unfold c.
      replace (16 * n) with (BSIZE * (n / DPB) + n mod DPB * 16) by (unfold BSIZE, DPB; zdiv).
      symmetry. apply slice_splice_in; rewrite ?He; unfold BSIZE, DPB in *; zdiv.
    + rewrite lookup_insert_ne.
      * rewrite Hdb. do 2 f_equal. symmetry.
        apply slice_splice_ne; rewrite ?He; unfold BSIZE, DPB in *; try lia. zdiv.
      * intros <-. destruct (C4 (n / DPB)) as (a' & Ha' & Hda'); [unfold DPB in *; zdiv|].
        unfold addr_of in Ha'. rewrite (proj2 (Z.ltb_lt _ _)) in Ha' by (unfold DPB, NDIRECT in *; zdiv).
        rewrite Ha in Ha'. injection Ha' as <-. rewrite Hdb in Hda'. injection Hda' as E1 _. done.
Qed.

(** *** [dirappend] *)

(** The blocks that a directory of [n] entries has. *)
Definition dir_blocks (n : nat) : Z := (Z.of_nat n + DPB - 1) / DPB.
Definition dir_at (A : abs) (i : Z) (x : inode_t) (es : list (list Z)) : Prop :=
  dir_room A i x es (dir_blocks (length es)).

(** What adding an entry to directory [i] does to the rest. *)
Record appended (i : Z) (x : inode_t) (es : list (list Z)) (e : list Z) (A : abs) (x' : inode_t) (A' : abs) : Prop := mkAppended {
  app_dir : dir_at A' i x' (es ++ [e]);
  app_frame : frame i A A';
  app_ni : ni A' = ni A;
  app_next : next A' - next A = dir_blocks (S (length es)) - dir_blocks (length es);
  app_nlink : nlink x' = nlink x;
  app_ok : abs_ok A'
}.

(** The entry goes into block [a], which has room for it. *)
Lemma append_at A i x es K a e k nd b (A0 : abs) x0 :
  dir_room A i x es K -> let n := Z.of_nat (length es) in
  n < DPB * K -> good_entry e -> arr_get (addrs x) (n / DPB) = Some a ->
  does (next_block (get_block i) (put_block i) n nd b) A0 (a, n / DPB) A ->
  frame i A0 A -> ni A = ni A0 -> next A - next A0 = K - dir_blocks (length es) -> K = dir_blocks (S (length es)) ->
  nlink x = nlink x0 -> abs_ok A ->
  exists x' A', does (append_loop (get_block i) (put_block i) (S k) i e n nd b) A0 true A' /\ appended i x0 es e A0 x' A'.
Proof.
  intros H n Hn He Ha Hnb Hf Hni Hnx HK Hnl Hok.
  destruct (dir_block A i x es K (n / DPB) H) as (a' & Ha' & Hd); [unfold DPB in *; zdiv|]. fold n in Hd.
  rewrite Ha in Ha'. injection Ha' as <-. set (c := slice _ _ _) in Hd.
  pose proof (dir_max _ _ _ _ _ H) as HKm. unfold NDIRECT in HKm.
  pose proof (content_len _ _ _ _ _ (dir_content _ _ _ _ _ H)) as Hlen. fold n in Hlen.
  eexists _, _. split.
  - cbn [append_loop]. eapply does_bind; [exact Hnb|]. cbv beta iota.
    eapply does_bind; [eapply (put_entry_free A i e n a (i, n / DPB) c x); try done; try apply H|apply does_ret].
    + rewrite (dir_type _ _ _ _ _ H). done.
    + rewrite (dir_size _ _ _ _ _ H). unfold DPB in *. lia.
    + unfold c. rewrite length_slice; unfold BSIZE, DPB in *; zdiv.
    + apply He.
    + unfold c. rewrite entry_place by lia. unfold n. apply fld_free, H.
  - split.
    + unfold dir_at. rewrite length_app. cbn [length]. rewrite Nat.add_1_r, <- HK. by apply room_append.
    + etrans; [exact Hf|]. etrans; [by apply (frame_set_data i a (n / DPB) c)|]. apply frame_set_ino.
    + done.
    + cbn. lia.
    + done.
    + eapply ok_set_ino; [apply H|]. by eapply ok_set_data.
Qed.

Lemma append_loop_takes A i x es e : dir_at A i x es -> abs_ok A -> good_entry e -> let n := Z.of_nat (length es) in
  n < NDIRECT * DPB -> (n mod DPB = 0 -> next A < LAST) -> forall k j nd b,
  0 <= j <= n -> n - j < Z.of_nat k -> at_entry x j nd b ->
  exists x' A', does (append_loop (get_block i) (put_block i) k i e j nd b) A true A' /\ appended i x es e A x' A'.
Proof.
  intros H Hok He n Hn Hroom. unfold dir_at in H. pose proof Hok as (Hnx & _). unfold FIRST in Hnx.
  assert (forall a y l, data A !! a = Some (y, l) -> a <> 0) as Hnz.
  { intros a y l Ha. assert (is_Some (data A !! a)) as Hs by (by eexists). apply Hok in Hs. unfold FIRST in Hs. lia. }
  induction k as [|k IH]; intros j nd b Hj Hk Hb; [lia|].
  destruct (decide (j = n)) as [->|Hne].
  - destruct (decide (n mod DPB = 0)) as [Hm|Hm].
    + assert (dir_blocks (length es) = n / DPB) as EK by (unfold dir_blocks; fold n; unfold DPB in *; zdiv).
      rewrite EK in H. assert (n / DPB < NDIRECT) as Hq by (unfold DPB, NDIRECT in *; zdiv).
      eapply (append_at (grown i x (n / DPB) A) i (with_addr (n / DPB) (next A) x) es (n / DPB + 1) (next A)); try done.
      * by apply room_extend; auto.
      * fold n. unfold DPB. zdiv.
      * fold n. rewrite arr_get_with_addr by (try apply H; unfold DPB, NDIRECT in *; zdiv). by rewrite Z.eqb_refl.
      * apply next_block_new; auto; try apply H.
        -- rewrite (dir_type _ _ _ _ _ H). done.
        -- unfold NDIRECT, DPB in *. zdiv.
        -- lia.
      * etrans; [by apply (frame_new_block i (n / DPB))|apply frame_set_ino].
      * rewrite EK. cbn. lia.
      * unfold dir_blocks. fold n. unfold DPB in *. zdiv.
      * eapply ok_set_ino; [apply H|]. by apply ok_new_block; auto.
    + assert (n / DPB < dir_blocks (length es)) as EK by (unfold dir_blocks; fold n; unfold DPB in *; zdiv).
      destruct (dir_block A i x es _ (n / DPB) H) as (a & Ha & Hd); [split; [unfold DPB in *; zdiv|done]|].
      eapply (append_at A i x es _ a); try done; try lia.
      * unfold dir_blocks. fold n. unfold DPB in *. zdiv.
      * apply (next_block_has A i x n nd b); auto; try apply H; [lia|by eapply Hnz].
      * unfold dir_blocks. fold n. unfold DPB in *. zdiv.
  - assert (j / DPB < dir_blocks (length es)) as EK by (unfold dir_blocks; fold n; unfold DPB in *; zdiv).
    destruct (dir_block A i x es _ (j / DPB) H) as (a & Ha & Hd); [split; [unfold DPB in *; zdiv|done]|].
    destruct (IH (j + 1) (j / DPB) (Some a)) as (x' & A' & Hrun & Hap); [lia|lia| |].
    { split; [lia|]. replace (j + 1 - 1) with j by lia. done. }
    exists x', A'. split; [|done]. cbn [append_loop].
    eapply does_bind; [apply (next_block_has A i x j nd b a); auto; try apply H; [lia|by eapply Hnz]|]. cbv beta iota.
    apply (does_bind _ _ A false A); [|exact Hrun]. eapply put_entry_full; [exact Hd|]. rewrite entry_place by lia.
    destruct (lookup_lt_is_Some_2 es (Z.to_nat j)) as [e' He']; [lia|].
    replace (16 * j) with (16 * Z.of_nat (Z.to_nat j)) by lia. eapply fld_entry; [apply H|done].
Qed.

Lemma does_dirappend A i x es e :
  dir_at A i x es -> good_entry e -> let n := Z.of_nat (length es) in
  n < NDIRECT * DPB -> (n mod DPB = 0 -> next A < LAST) -> abs_ok A ->
  exists x' A', does (dirappend i e) A 0 A' /\ appended i x es e A x' A'.
Proof.
  intros H He n Hn Hroom Hok.
  destruct (append_loop_takes A i x es e H Hok He Hn Hroom (Z.to_nat (NDIRECT * DPB)) 0 0 None) as (x' & A' & Hrun & Hap);
    [lia|fold n; lia|done|].
  exists x', A'. split; [|done]. unfold dirappend.
  eapply does_bind; [eapply does_get_di; [apply H|unfold di_type; lia|unfold di_type; lia|apply fld_dinode_type]|].
  rewrite (dir_type _ _ _ _ _ H). cbn [negb Z.eqb]. change (T_DIR mod 2 ^ 16 =? T_DIR) with true. cbn [negb].
  eapply does_bind; [exact Hrun|]. apply does_ret.
Qed.
