(* ===== verification/MkfsFiles.v ===== *)
(** * Proofs about mkfs: writing files *)
From S2P Require Import Prelude Fs FsProofs Blocks Mkfs MkfsProofs MkfsDirs.

(** ** A block more *)

Lemma content_extend A i x l K A' x' a b :
  content A i x l K -> K < MAXFILE -> length b = 1024%nat ->
  (forall k, 0 <= k < K -> addr_of A' x' k = addr_of A x k) ->
  (forall n k c, 0 <= k < K -> data A !! n = Some ((i, k), c) -> data A' !! n = Some ((i, k), c)) ->
  addr_of A' x' K = Some a -> data A' !! a = Some ((i, K), b) ->
  (NDIRECT <= K -> exists a c, arr_get (addrs x') NDIRECT = Some a /\ data A' !! a = Some ((i, -1), c) /\ length c = 1024%nat) ->
  content A' i x' (l ++ b) (K + 1).
Proof.
  intros [C1 C2 _ C4] HK Hb Haddr Hdata Ha Hda Hind. split; [rewrite length_app; unfold BSIZE in *; lia|lia|intros ?; apply Hind; lia|].
  intros k Hk. destruct (decide (k = K)) as [->|Hne].
  - exists a. split; [done|]. by rewrite slice_last by (unfold BSIZE in *; lia).
  - destruct (C4 k ltac:(lia)) as (a' & Ha' & Hd'). exists a'. rewrite Haddr by lia. split; [done|].
    rewrite slice_app_l by (unfold BSIZE in *; lia). apply Hdata; [lia|done].
Qed.

(** ** Placing a block *)

Lemma does_set_entry b j v A o c :
  data A !! b = Some (o, c) -> length c = 1024%nat -> 0 <= j < NINDIRECT ->
  does (set_entry b j v) A tt (set_data b o (set_fld 4 (4 * j) v c) A).
Proof.
  intros Hb Hl Hj. unfold set_entry. unfold NINDIRECT in *.
  rewrite (proj2 (Z.leb_le 0 j)), (proj2 (Z.ltb_lt j 256)) by lia. cbn [andb].
  eapply does_bind; [by eapply does_bdata|]. eapply does_set_bdata; [done|]. rewrite length_set_fld; lia.
Qed.

(** The first [K] blocks of a file are written; [ind] is its indirect block. *)
Record file_room (A : abs) (i : Z) (x : inode_t) (l : list Z) (K : Z) (ind : option Z) : Prop := mkFileRoom {
  fr_ino : inodes A !! i = Some x;
  fr_fits : inode_fits x;
  fr_type : itype x = T_FILE;
  fr_content : content A i x l K;
  fr_ind : ind = if NDIRECT <? K then arr_get (addrs x) NDIRECT else None
}.

(** What a step of writing changes. *)
Record grew (i : Z) (x : inode_t) (A : abs) (m : Z) (x' : inode_t) (A' : abs) : Prop := mkGrew {
  gr_frame : frame i A A';
  gr_ni : ni A' = ni A;
  gr_next : next A' = next A + m;
  gr_ok : abs_ok A';
  gr_meta : itype x' = itype x /\ nlink x' = nlink x /\ isize x' = isize x
}.

(** The state with block [K] taken and filled with [b]. *)
Definition filled (i K : Z) (b : list Z) (A : abs) : abs := set_data (next A) (i, K) b (new_block (i, K) A).

Lemma filled_data i K b A n :
  data (filled i K b A) !! n = if decide (next A = n) then Some ((i, K), b) else data A !! n.
Proof.
  cbn. rewrite insert_insert_eq. case_decide as E; [by rewrite E, lookup_insert_eq|by rewrite lookup_insert_ne].
Qed.

Lemma filled_ok i K b A : next A < LAST -> abs_ok A -> abs_ok (filled i K b A).
Proof. intros Hn HA. eapply ok_set_data; [apply lookup_insert_eq|by apply ok_new_block]. Qed.

Lemma filled_frame i K b A : abs_ok A -> frame i A (filled i K b A).
Proof.
  intros HA. etrans; [by apply (frame_new_block i K)|]. eapply frame_set_data. apply lookup_insert_eq.
Qed.

(** Nobody has the next block. *)
Lemma next_free A n o c : abs_ok A -> data A !! n = Some (o, c) -> next A <> n /\ FIRST <= n < LAST.
Proof.
  intros HA H. assert (FIRST <= n < next A) by (apply HA; by eexists). destruct HA as [? _]. lia.
Qed.

Lemma filled_keep i K b A n o c :
  abs_ok A -> data A !! n = Some (o, c) -> data (filled i K b A) !! n = Some (o, c).
Proof. intros HA H. rewrite filled_data, decide_False; [done|by eapply next_free]. Qed.

(** A direct block. *)
Lemma place_direct A i x l K b :
  file_room A i x l K None -> K < NDIRECT -> next A < LAST -> abs_ok A -> length b = 1024%nat ->
  exists x' A', does (place i K (next A) None) (filled i K b A) None A' /\
    file_room A' i x' (l ++ b) (K + 1) None /\ grew i x A 1 x' A'.
Proof.
  intros [H1 H2 H3 H4 _] HK Hn HA Hb. pose proof HA as (Hnx & _). unfold FIRST, LAST in *.
  pose proof (content_max _ _ _ _ _ H4) as HK0. unfold NDIRECT in *.
  exists (with_addr K (next A) x), (set_ino i (with_addr K (next A) x) (filled i K b A)).
  assert (forall k, 0 <= k < NDIRECT -> addr_of (set_ino i (with_addr K (next A) x) (filled i K b A)) (with_addr K (next A) x) k =
    if K =? k then Some (next A) else arr_get (addrs x) k) as Haddr.
  { intros k Hk. unfold addr_of. rewrite (proj2 (Z.ltb_lt k NDIRECT)) by lia. apply arr_get_with_addr; [done|lia|lia]. }
  split; [|split].
  - unfold place. rewrite (proj2 (Z.ltb_lt K NDIRECT)) by (unfold NDIRECT; lia).
    eapply does_bind; [|apply does_ret]. apply does_set_addr; [done|done|by rewrite H3|lia|lia].
  - split; [apply lookup_insert_eq|by apply with_addr_fits; [|lia]|done| |].
    + eapply (content_extend A i x l K _ _ (next A)); [done|unfold MAXFILE, NDIRECT, NINDIRECT in *; lia|done| | | | |unfold NDIRECT; lia].
      * intros k Hk. rewrite Haddr by (unfold NDIRECT; lia). rewrite (proj2 (Z.eqb_neq K k)) by lia.
        unfold addr_of. by rewrite (proj2 (Z.ltb_lt k NDIRECT)) by (unfold NDIRECT; lia).
      * intros n k c _ Hd. by apply filled_keep.
      * rewrite Haddr by (unfold NDIRECT; lia). by rewrite Z.eqb_refl.
      * cbn [set_ino data]. by rewrite filled_data, decide_True.
    + by rewrite (proj2 (Z.ltb_ge NDIRECT (K + 1))) by (unfold NDIRECT; lia).
  - split; try done.
    + etrans; [by apply filled_frame|apply frame_set_ino].
    + eapply ok_set_ino; [exact H1|by apply filled_ok].
Qed.

(** An entry of the indirect block. *)
Lemma entry_content A i x l K B y ib c bno b :
  content A i x l K -> NDIRECT <= K < MAXFILE -> length b = 1024%nat -> 0 <= bno < 2 ^ 32 ->
  (forall k, 0 <= k < NDIRECT -> arr_get (addrs y) k = arr_get (addrs x) k) ->
  arr_get (addrs y) NDIRECT = Some ib -> data B !! ib = Some ((i, -1), c) -> length c = 1024%nat ->
  (NDIRECT < K -> arr_get (addrs x) NDIRECT = Some ib /\ data A !! ib = Some ((i, -1), c)) ->
  (forall n k c, 0 <= k -> data A !! n = Some ((i, k), c) -> data B !! n = Some ((i, k), c)) ->
  data B !! bno = Some ((i, K), b) ->
  content (set_data ib (i, -1) (set_fld 4 (4 * (K - NDIRECT)) bno c) B) i y (l ++ b) (K + 1).
Proof.
  intros HC HK Hb Hbno Hdir Hib Hdi Hlc Hold Hkeep Hnew.
  assert (forall n k d, 0 <= k -> data B !! n = Some ((i, k), d) ->
    data (set_data ib (i, -1) (set_fld 4 (4 * (K - NDIRECT)) bno c) B) !! n = Some ((i, k), d)) as Hother.
  { intros n k d Hk Hn. cbn. rewrite lookup_insert_ne; [done|]. intros <-. rewrite Hdi in Hn. injection Hn. lia. }
  unfold MAXFILE, NDIRECT, NINDIRECT in *.
  eapply (content_extend A i x l K _ _ bno); [done|unfold MAXFILE, NDIRECT, NINDIRECT; lia|done| | | | |].
  - intros k Hk. unfold addr_of, NDIRECT. destruct (Z.ltb_spec k 12); [apply Hdir; lia|].
    destruct (Hold ltac:(lia)) as [-> Hda]. rewrite Hib, Hda. cbn [set_data data]. rewrite lookup_insert_eq. f_equal.
    apply fld_set_ne; lia.
  - intros n k d Hk Hn. apply Hother; [lia|]. apply Hkeep; [lia|done].
  - unfold addr_of, NDIRECT. rewrite (proj2 (Z.ltb_ge K 12)), Hib by lia. cbn [set_data data]. rewrite lookup_insert_eq.
    f_equal. apply fld_set_eq; [lia|lia|exact Hbno].
  - apply Hother; [lia|done].
  - intros _. exists ib, (set_fld 4 (4 * (K - 12)) bno c). split; [done|]. cbn [set_data data].
    rewrite lookup_insert_eq. split; [done|]. rewrite length_set_fld; lia.
Qed.

(** The first block behind the indirect block. *)
Lemma place_first A i x l K b :
  file_room A i x l K None -> K = NDIRECT -> next A + 1 < LAST -> abs_ok A -> length b = 1024%nat ->
  exists x' A' ind, does (place i K (next A) None) (filled i K b A) ind A' /\
    file_room A' i x' (l ++ b) (K + 1) ind /\ grew i x A 2 x' A'.
Proof.
  intros [H1 H2 H3 H4 _] HK Hn HA Hb. pose proof HA as (Hnx & _). unfold FIRST, LAST in *.
  set (B1 := filled i K b A). set (ib := next A + 1).
  assert (abs_ok B1) as HB1 by (apply filled_ok; [unfold LAST; lia|done]).
  set (y := with_addr NDIRECT ib x). set (B2 := set_ino i y (new_block (i, -1) B1)).
  assert (inode_fits y) as Hy by (by apply with_addr_fits; [|unfold ib; lia]).
  assert (data B2 !! ib = Some ((i, -1), zero_block)) as Hib by apply lookup_insert_eq.
  assert (forall n o c, data B1 !! n = Some (o, c) -> data B2 !! n = Some (o, c)) as Hkeep.
  { intros n o c Hnd. cbn. rewrite lookup_insert_ne; [done|]. destruct (next_free B1 n o c HB1 Hnd) as [? _]. done. }
  exists y, (set_data ib (i, -1) (set_fld 4 (4 * (K - NDIRECT)) (next A) zero_block) B2), (Some ib).
  split; [|split].
  - unfold place. rewrite (proj2 (Z.ltb_ge K NDIRECT)) by lia.
    eapply (does_bind _ _ _ ib B2).
    + eapply does_bind; [by apply (does_balloc (i, -1) B1); unfold LAST, B1, filled; cbn; lia|].
      eapply does_bind; [|apply does_ret]. change (next B1) with ib.
      apply does_set_addr; [exact H1|done|by rewrite H3|unfold NDIRECT; lia|unfold ib; lia].
    + eapply does_bind; [|apply does_ret]. apply does_set_entry; [done|apply length_zero_block|unfold NINDIRECT; lia].
  - split; [apply lookup_insert_eq|done|done| |].
    + eapply (entry_content A i x l K B2); try done; try (unfold ib; lia); try (unfold MAXFILE, NDIRECT, NINDIRECT in *; lia).
      * intros k Hk. unfold y. rewrite arr_get_with_addr by (unfold NDIRECT in *; done || lia).
        by rewrite (proj2 (Z.eqb_neq NDIRECT k)) by lia.
      * unfold y. rewrite arr_get_with_addr by (unfold NDIRECT in *; done || lia). by rewrite Z.eqb_refl.
      * intros n k c _ Hd. apply Hkeep. by apply filled_keep.
      * apply Hkeep. unfold B1. by rewrite filled_data, decide_True.
    + rewrite (proj2 (Z.ltb_lt NDIRECT (K + 1))) by lia. unfold y.
      rewrite arr_get_with_addr by (unfold NDIRECT in *; done || lia). by rewrite Z.eqb_refl.
  - split; [| | | |done].
    + etrans; [by apply (filled_frame i K b)|]. etrans; [by apply (frame_new_block i (-1))|].
      etrans; [apply (frame_set_ino i y)|]. by eapply frame_set_data.
    + done.
    + cbn. lia.
    + eapply ok_set_data; [exact Hib|]. eapply ok_set_ino; [exact H1|]. apply ok_new_block; [unfold LAST; cbn; lia|done].
Qed.

(** A later one. *)
Lemma place_later A i x l K b ind :
  file_room A i x l K ind -> NDIRECT < K < MAXFILE -> next A < LAST -> abs_ok A -> length b = 1024%nat ->
  exists x' A', does (place i K (next A) ind) (filled i K b A) ind A' /\
    file_room A' i x' (l ++ b) (K + 1) ind /\ grew i x A 1 x' A'.
Proof.
  intros [H1 H2 H3 H4 H5] HK Hn HA Hb. pose proof HA as (Hnx & _). unfold FIRST, LAST in *.
  destruct (content_indirect _ _ _ _ _ H4 ltac:(lia)) as (ib & c & Hib & Hdi & Hlc).
  rewrite (proj2 (Z.ltb_lt NDIRECT K)), Hib in H5 by lia. subst ind.
  pose proof (filled_keep i K b A ib _ _ HA Hdi) as Hdi'.
  exists x, (set_data ib (i, -1) (set_fld 4 (4 * (K - NDIRECT)) (next A) c) (filled i K b A)).
  split; [|split].
  - unfold place. rewrite (proj2 (Z.ltb_ge K NDIRECT)) by lia. eapply does_bind; [apply does_ret|].
    eapply does_bind; [|apply does_ret]. apply does_set_entry; [done|done|unfold MAXFILE, NDIRECT, NINDIRECT in *; lia].
  - split; [done|done|done| |by rewrite (proj2 (Z.ltb_lt NDIRECT (K + 1))) by lia].
    eapply (entry_content A i x l K (filled i K b A)); try done; try lia.
    + intros n k c' _ Hd. by apply filled_keep.
    + by rewrite filled_data, decide_True.
  - split; try done.
    + etrans; [by apply (filled_frame i K b)|]. by eapply frame_set_data.
    + eapply ok_set_data; [exact Hdi'|]. by apply filled_ok.
Qed.

(** *** The loop *)

Lemma grew_trans i x A m x1 A1 m' x2 A2 :
  grew i x A m x1 A1 -> grew i x1 A1 m' x2 A2 -> grew i x A (m + m') x2 A2.
Proof.
  intros [F1 N1 X1 O1 (M1 & M2 & M3)] [F2 N2 X2 O2 (P1 & P2 & P3)]. split; [by etrans|lia|lia|done|split_and!; congruence].
Qed.

Lemma grew_refl i x A : abs_ok A -> grew i x A 0 x A.
Proof. intros H. split; [done|done|lia|done|done]. Qed.

(** The blocks taken for block [K] alone. *)
Definition step_cost (K : Z) : Z := if K =? NDIRECT then 2 else 1.

Lemma place_spec A i x l K b ind :
  file_room A i x l K ind -> K < MAXFILE -> next A + step_cost K <= LAST -> abs_ok A -> length b = 1024%nat ->
  exists x' A' ind', does (place i K (next A) ind) (filled i K b A) ind' A' /\
    file_room A' i x' (l ++ b) (K + 1) ind' /\ grew i x A (step_cost K) x' A'.
Proof.
  intros H HK Hn HA Hb. pose proof H as [_ _ _ HC Hind]. unfold step_cost in *.
  destruct (Z.eqb_spec K NDIRECT) as [E|E].
  - subst ind. rewrite (proj2 (Z.ltb_ge NDIRECT K)) in H |- * by lia. apply place_first; auto. lia.
  - destruct (Z.ltb_spec NDIRECT K).
    + destruct (place_later A i x l K b ind) as (x' & A' & ?); auto; [lia|]. by exists x', A', ind.
    + subst ind. destruct (place_direct A i x l K b) as (x' & A' & ?); auto; [lia|lia|]. by exists x', A', None.
Qed.

Definition file_blocks (n : nat) : Z := (Z.of_nat n + BSIZE - 1) / BSIZE.
(** The bytes with which the last block is filled up. *)
Definition padded (l : list Z) : list Z := l ++ replicate (Z.to_nat (BSIZE * file_blocks (length l)) - length l) 0.
(** The blocks taken for [n] bytes from block [K] on. *)
Definition cost (K : Z) (n : nat) : Z :=
  file_blocks n + (if (K <=? NDIRECT) && (NDIRECT <? K + file_blocks n) then 1 else 0).

Definition padded_chunk (rest : list Z) : list Z :=
  let chunk := take (Z.to_nat BSIZE) rest in chunk ++ replicate (Z.to_nat BSIZE - length chunk) 0.

Lemma length_padded_chunk rest : length (padded_chunk rest) = 1024%nat.
Proof. unfold padded_chunk. rewrite length_app, length_replicate, length_take. unfold BSIZE. lia. Qed.

Lemma file_blocks_drop (rest : list Z) : rest <> [] ->
  file_blocks (length rest) = 1 + file_blocks (length (drop (Z.to_nat BSIZE) rest)).
Proof.
  intros H. assert (0 < length rest)%nat by (destruct rest; cbn; [done|lia]).
  rewrite length_drop. unfold file_blocks, BSIZE. zdiv.
Qed.

Lemma padded_step rest : rest <> [] ->
  padded rest = padded_chunk rest ++ padded (drop (Z.to_nat BSIZE) rest).
Proof.
  intros H. pose proof (file_blocks_drop rest H) as E. unfold padded, padded_chunk.
  set (r := drop _ _) in *. rewrite <- (take_drop (Z.to_nat BSIZE) rest) at 1. fold r.
  assert (0 <= file_blocks (length r)) by (unfold file_blocks, BSIZE; zdiv).
  rewrite <- !app_assoc. f_equal. destruct (decide (length rest <= Z.to_nat BSIZE)%nat).
  - assert (r = []) as Er by (unfold r; by apply drop_ge). rewrite Er in *. cbn [app length].
    change (file_blocks 0) with 0. rewrite Z.mul_0_r. cbn [Z.to_nat Nat.sub replicate app]. rewrite app_nil_r. f_equal.
    cbn [length] in E. change (file_blocks 0) with 0 in E. rewrite length_take, E. unfold BSIZE in *. lia.
  - rewrite length_take, Nat.min_l, Nat.sub_diag by lia. cbn [replicate app]. do 2 f_equal.
    unfold r in *. rewrite length_drop in *. rewrite E. unfold BSIZE in *. lia.
Qed.

Lemma does_read_chunk A b o c rest :
  data A !! b = Some (o, c) -> length c = 1024%nat ->
  does (read_chunk b (take (Z.to_nat BSIZE) rest)) A tt (set_data b o (padded_chunk rest) A).
Proof.
  intros Hb Hl. unfold read_chunk, padded_chunk. set (chunk := take _ rest). cbv zeta.
  assert (length chunk <= 1024)%nat as Hc by (unfold chunk; rewrite length_take; unfold BSIZE; lia).
  assert (length (splice 0 chunk c) = 1024%nat) as Hs by (rewrite length_splice; lia).
  eapply does_bind; [by eapply does_bdata|].
  eapply does_bind; [by eapply does_set_bdata|].
  apply does_when.
  - intros Hn%Z.ltb_lt. eapply does_bind; [eapply does_bdata; apply lookup_insert_eq|].
    replace (set_data b o (chunk ++ replicate (Z.to_nat BSIZE - length chunk) 0) A)
      with (set_data b o (splice (Z.of_nat (length chunk)) (replicate (Z.to_nat (BSIZE - Z.of_nat (length chunk))) 0) (splice 0 chunk c))
        (set_data b o (splice 0 chunk c) A)).
    + eapply does_set_bdata; [apply lookup_insert_eq|].
      rewrite length_splice; rewrite ?length_replicate; unfold BSIZE in *; lia.
    + unfold set_data. cbn [inodes ni data next]. rewrite insert_insert_eq. do 4 f_equal.
      unfold splice at 2. cbn [Z.to_nat take app Nat.add].
      replace (Z.to_nat (BSIZE - Z.of_nat (length chunk))) with (Z.to_nat BSIZE - length chunk)%nat by (unfold BSIZE; lia).
      pose proof (splice_prefix chunk (drop (length chunk) c) (replicate (Z.to_nat BSIZE - length chunk) 0) []) as E.
      rewrite !app_nil_r in E. apply E. rewrite length_replicate, length_drop. unfold BSIZE. lia.
  - intros Hn%Z.ltb_ge. unfold BSIZE in Hn. unfold set_data. do 3 f_equal.
    replace (Z.to_nat BSIZE - length chunk)%nat with 0%nat by (unfold BSIZE; lia).
    unfold splice. cbn [Z.to_nat take app Nat.add replicate]. rewrite drop_ge by lia. done.
Qed.

Lemma cost_step K (rest : list Z) : rest <> [] -> 0 <= K ->
  cost K (length rest) = step_cost K + cost (K + 1) (length (drop (Z.to_nat BSIZE) rest)).
Proof.
  intros H HK. unfold cost, step_cost. rewrite (file_blocks_drop rest H). set (m := file_blocks _).
  assert (0 <= m) by (unfold m, file_blocks, BSIZE; zdiv).
  destruct (Z.leb_spec K NDIRECT), (Z.leb_spec (K + 1) NDIRECT), (Z.eqb_spec K NDIRECT),
    (Z.ltb_spec NDIRECT (K + (1 + m))), (Z.ltb_spec NDIRECT (K + 1 + m)); cbn [andb]; lia.
Qed.

Lemma file_blocks_nonneg n : 0 <= file_blocks n.
Proof. unfold file_blocks, BSIZE. zdiv. Qed.

Lemma cost_nonneg K n : 0 <= cost K n.
Proof. unfold cost. pose proof (file_blocks_nonneg n). destruct (_ && _); lia. Qed.

Lemma rest_size (rest : list Z) : Z.of_nat (length rest) < 2 ^ 64 ->
  u64 (Z.of_nat (length rest) - Z.of_nat (length (take (Z.to_nat BSIZE) rest))) =
  Z.of_nat (length (drop (Z.to_nat BSIZE) rest)).
Proof. intros H. unfold u64. rewrite length_take, length_drop, Z.mod_small by lia. lia. Qed.

Lemma write_loop_writes i : forall fuel rest K A x lw ind,
  file_room A i x lw K ind -> abs_ok A -> 0 <= K -> K + file_blocks (length rest) <= MAXFILE ->
  file_blocks (length rest) < Z.of_nat fuel -> next A + cost K (length rest) <= LAST ->
  exists x' A' ind', does (write_loop fuel i (Z.of_nat (length rest)) rest K ind) A tt A' /\
    file_room A' i x' (lw ++ padded rest) (K + file_blocks (length rest)) ind' /\
    grew i x A (cost K (length rest)) x' A'.
Proof.
  induction fuel as [|fuel IH]; intros rest K A x lw ind HR HA HK0 HK Hf Hn;
    [pose proof (file_blocks_nonneg (length rest)); lia|].
  cbn [write_loop]. destruct (decide (rest = [])) as [->|Hne].
  { exists x, A, ind. change (padded []) with (@nil Z). rewrite app_nil_r. cbn [length]. change (file_blocks 0) with 0.
    assert (cost K 0 = 0) as ->.
    { unfold cost. change (file_blocks 0) with 0. destruct (Z.leb_spec K NDIRECT), (Z.ltb_spec NDIRECT (K + 0)); cbn; lia. }
    rewrite Z.add_0_r. split; [apply does_ret|]. split; [done|by apply grew_refl]. }
  assert (0 < length rest)%nat by (destruct rest; cbn; [done|lia]).
  rewrite (proj2 (Z.ltb_lt 0 _)) by lia. cbn [negb].
  pose proof (file_blocks_drop rest Hne) as Efb. pose proof (cost_step K rest Hne HK0) as Ec.
  pose proof (file_blocks_nonneg (length (drop (Z.to_nat BSIZE) rest))) as Hfb.
  pose proof (cost_nonneg (K + 1) (length (drop (Z.to_nat BSIZE) rest))) as Hcn.
  destruct (place_spec A i x lw K (padded_chunk rest) ind) as (x1 & A1 & ind1 & Hp & HR1 & HG1);
    [done|lia|lia|done|apply length_padded_chunk|].
  destruct (IH (drop (Z.to_nat BSIZE) rest) (K + 1) A1 x1 (lw ++ padded_chunk rest) ind1)
    as (x2 & A2 & ind2 & Hr & HR2 & HG2); [done|by destruct HG1|lia|lia|lia|destruct HG1; lia|].
  exists x2, A2, ind2. rewrite (padded_step rest Hne), app_assoc, Efb, Ec, Z.add_assoc.
  split; [|split; [done|by eapply grew_trans]].
  eapply does_bind; [apply (does_balloc (i, K)); unfold step_cost in *; destruct (K =? NDIRECT); lia|].
  eapply does_bind; [apply does_ret|].
  eapply does_bind; [eapply does_read_chunk; [apply lookup_insert_eq|apply length_zero_block]|].
  eapply does_bind; [exact Hp|]. eapply does_bind; [apply does_ret|].
  rewrite rest_size; [exact Hr|]. unfold MAXFILE, NDIRECT, NINDIRECT, file_blocks, BSIZE in *. zdiv.
Qed.

(** ** The files of the image *)

(** File [i] has the contents [l]. *)
Definition file_at (A : abs) (i : Z) (l : list Z) : Prop :=
  exists x ind, file_room A i x (padded l) (file_blocks (length l)) ind /\
    isize x = Z.of_nat (length l) /\ nlink x = 1.

Lemma file_at_kept j A A' l : kept j A A' -> file_at A j l -> file_at A' j l.
Proof.
  intros HK (x & ind & [H1 H2 H3 H4 H5] & Hs). exists x, ind. split; [|done].
  split; auto; [by rewrite (proj1 HK)|by eapply content_kept].
Qed.

Lemma dir_room_kept j A A' x es K : kept j A A' -> dir_room A j x es K -> dir_room A' j x es K.
Proof.
  intros HK [H1 H2 H3 H4 H5 H6 H7 H8 H9]. split; auto; [by rewrite (proj1 HK)|by eapply content_kept].
Qed.

Lemma frame_new_ino x A : frame (ni A) A (new_ino x A).
Proof. split; [|done]. intros j Hj. cbn. by rewrite lookup_insert_ne. Qed.

(** A new inode has no blocks. *)
Lemma content_empty A i x : content A i x [] 0.
Proof. split; [done|done|by intros ?|lia]. Qed.

(** An inode of type [ty], with one link and [size] bytes to come. *)
Lemma does_new_file A size :
  ni A < 16384 -> abs_ok A -> 0 <= size < 2 ^ 32 -> let i := ni A in
  exists x A', does (bind (ialloc_deref T_FILE) (fun inum => bind (set_di 2 di_nlink inum 1) (fun _ =>
      bind (set_di 4 di_size inum size) (fun _ => ret inum)))) A i A' /\
    file_room A' i x [] 0 None /\ isize x = size /\ nlink x = 1 /\ frame i A A' /\
    next A' = next A /\ ni A' = ni A + 1 /\ abs_ok A'.
Proof.
  intros Hn HA Hs i. set (x0 := fresh_inode T_FILE). set (x1 := with_nlink 1 x0). set (x2 := with_size size x1).
  assert (inode_fits x0) as F0 by (by apply fresh_inode_fits).
  assert (inode_fits x1) as F1 by done.
  assert (inode_fits x2) as F2 by (by apply with_size_fits).
  exists x2, (set_ino i x2 (set_ino i x1 (new_ino x0 A))). split; [|split_and!].
  - eapply does_bind; [by apply does_ialloc_deref|].
    eapply does_bind; [eapply does_set_di; [apply lookup_insert_eq|unfold di_nlink; lia..|apply set_dinode_nlink|done|done]|].
    eapply does_bind; [|apply does_ret].
    eapply does_set_di; [apply lookup_insert_eq|unfold di_size; lia..|apply set_dinode_size|done|done].
  - split; [apply lookup_insert_eq|done|done|apply content_empty|done].
  - cbn. apply Z.mod_small. lia.
  - done.
  - etrans; [apply frame_new_ino|]. etrans; apply frame_set_ino.
  - done.
  - done.
  - eapply ok_set_ino; [apply lookup_insert_eq|]. eapply ok_set_ino; [apply lookup_insert_eq|]. by apply ok_new_ino.
Qed.
