(* ===== verification/MkfsTheorems.v ===== *)
(** * mkfs: the image that it builds *)
From S2P Require Import Prelude Fs FsProofs FsTheorems Blocks FsDir Mkfs MkfsProofs MkfsDirs MkfsFiles.

Section Image.
Context {host : Host}.

(** ** What is asked for

    The files that mkfs takes, with the names they get: those that have a
    size, not too large, and open. *)
Definition accept (name : list Z) : option (list Z * list Z) :=
  match stat name with
  | None => None
  | Some size => if MAXFILE * BSIZE <? size then None
                 else match fopen name with Some l => Some (after_last name, l) | None => None end
  end.

(** The blocks that files take. *)
Definition total (ls : list (list Z)) : Z := foldr (fun l n => cost 0 (length l) + n) 0 ls.

(** They fit in one block of bitmap and the direct blocks of the root
    directory, and their names in an entry. *)
Record fits (names : list (list Z)) : Prop := mkFits {
  fit_number : (length names <= 766)%nat;
  fit_strings : Forall (fun name => 0 ∉ name) names;
  fit_names : Forall (fun f => (length f.1 < DIRSIZ)%nat) (omap accept names);
  fit_blocks : FIRST + NDIRECT + 1 + total (map snd (omap accept names)) <= LAST
}.

(** ** Entries of a directory *)

(** [e] is an entry for [name], which ends with a NUL inside it. *)
Definition entry_of (inum : Z) (name e : list Z) : Prop :=
  (exists junk, e = le_bytes 2 inum ++ name ++ 0 :: junk) /\ length e = 16%nat.

Lemma entry_good inum name e : 0 < inum < 2 ^ 16 -> entry_of inum name e -> good_entry e.
Proof.
  intros Hi ((junk & ->) & Hl). split; [done|]. rewrite (fld_slice 2 0 2 0) by lia.
  change (slice 0 2 (le_bytes 2 inum ++ name ++ 0 :: junk)) with (le_bytes 2 inum).
  change (fld 2 0 (le_bytes 2 inum)) with (le_val (le_bytes 2 inum)). rewrite le_val_le_bytes; [lia|]. change (8 * Z.of_nat 2) with 16. lia.
Qed.

Lemma strcpy_entry inum old name :
  length old = DIRSIZ -> (length name < DIRSIZ)%nat ->
  exists nm, strcpy old name = Some nm /\ length nm = DIRSIZ /\ entry_of inum name (dirent inum nm).
Proof.
  intros Ho Hn. exists (name ++ 0 :: drop (S (length name)) old). unfold strcpy, DIRSIZ in *.
  rewrite (proj2 (Nat.ltb_lt _ _)) by done.
  assert (length (name ++ 0 :: drop (S (length name)) old) = 14%nat) as Hl
    by (rewrite length_app; cbn [length]; rewrite length_drop; lia).
  split; [done|]. split; [done|]. split; [by eexists|]. unfold dirent. rewrite length_app, length_le_bytes, Hl. done.
Qed.

Lemma strncpy_entry inum name : (length name < DIRSIZ)%nat -> entry_of inum name (dirent inum (strncpy name)).
Proof.
  intros Hn. unfold dirent, strncpy, DIRSIZ in *. rewrite take_ge by lia. split.
  - exists (replicate (13 - length name) 0). replace (14 - length name)%nat with (S (13 - length name)) by lia. done.
  - rewrite !length_app, length_le_bytes, length_replicate. lia.
Qed.

(** ** Files *)

(** The root directory and the files so far: inode, name and contents. *)
Record built (A : abs) (fs : list (Z * list Z * list Z)) (es : list (list Z)) : Prop := mkBuilt {
  b_ok : abs_ok A;
  b_root : exists x, dir_at A 1 x es /\ nlink x = 1;
  b_entries : Forall2 (fun f e => entry_of f.1 f.2 e) ((1, dot) :: map fst fs) es;
  b_files : Forall (fun f => 1 < f.1.1 < ni A /\ file_at A f.1.1 f.2) fs;
  b_next : next A = FIRST + dir_blocks (length es) + total (map snd fs)
}.

Lemma built_length A fs es : built A fs es -> length es = S (length fs).
Proof. intros H. rewrite <- (Forall2_length _ _ _ (b_entries _ _ _ H)). cbn. by rewrite length_map. Qed.

Lemma files_frame i A A' (fs : list (Z * list Z * list Z)) :
  frame i A A' -> ni A <= ni A' -> (i = 1 \/ ni A <= i) ->
  Forall (fun f => 1 < f.1.1 < ni A /\ file_at A f.1.1 f.2) fs ->
  Forall (fun f => 1 < f.1.1 < ni A' /\ file_at A' f.1.1 f.2) fs.
Proof.
  intros HF Hn Hi H. eapply Forall_impl; [exact H|]. cbn. intros f [Hr Hf]. split; [lia|].
  eapply file_at_kept; [eapply frame_kept; [exact HF|lia]|done].
Qed.

Lemma total_app l1 l2 : total (l1 ++ l2) = total l1 + total l2.
Proof. unfold total. induction l1 as [|l l1 IH]; [done|]. cbn [app foldr]. rewrite IH. lia. Qed.

Lemma total_nonneg l : 0 <= total l.
Proof. unfold total. induction l as [|x l IH]; cbn [foldr]; [lia|]. pose proof (cost_nonneg 0 (length x)). lia. Qed.

Lemma dir_blocks_max n : (n <= 768)%nat -> 0 <= dir_blocks n <= NDIRECT.
Proof. unfold dir_blocks, NDIRECT, DPB. intros H. zdiv. Qed.

Lemma built_ni A fs es : built A fs es -> 1 < ni A.
Proof.
  intros [HA (x & Hx & _) _ _ _]. assert (1 <= 1 < ni A); [|lia]. apply HA. eexists. apply Hx.
Qed.

(** The root directory and the files stay when a new inode is worked on. *)
Lemma built_keep A fs es i A' :
  built A fs es -> frame i A A' -> ni A <= i -> ni A <= ni A' ->
  (exists x, dir_at A' 1 x es /\ nlink x = 1) /\ Forall (fun f => 1 < f.1.1 < ni A' /\ file_at A' f.1.1 f.2) fs.
Proof.
  intros HB HF Hi Hn. pose proof (built_ni _ _ _ HB). destruct HB as [_ (x & Hx & Hl) _ Hfs _]. split.
  - exists x. split; [|done]. eapply dir_room_kept; [eapply frame_kept; [exact HF|lia]|exact Hx].
  - eapply (files_frame i A A'); [done|done|by right|done].
Qed.

Lemma built_new A fs es i A' :
  built A fs es -> frame i A A' -> ni A <= i -> ni A <= ni A' -> abs_ok A' -> next A' = next A -> built A' fs es.
Proof.
  intros HB HF Hi Hn HA Hx. destruct (built_keep A fs es i A' HB HF Hi Hn) as [H1 H2].
  destruct HB as [_ _ H3 _ H5]. split; auto. lia.
Qed.

(** A file is written: its entry goes into the root directory. *)
Lemma built_append A fs es i name l e A1 :
  built A fs es -> frame i A A1 -> i = ni A -> ni A1 = ni A + 1 -> abs_ok A1 -> next A1 = next A + cost 0 (length l) ->
  file_at A1 i l -> entry_of i name e -> (length es < 768)%nat -> i < 2 ^ 16 ->
  FIRST + NDIRECT + 1 + total (map snd fs) + cost 0 (length l) <= LAST ->
  exists A2, does (dirappend 1 e) A1 0 A2 /\ built A2 (fs ++ [(i, name, l)]) (es ++ [e]) /\ ni A2 = ni A1.
Proof.
  intros HB HF Hi Hn HA Hx Hfile He Hlen Hi16 Hroom. pose proof (built_ni _ _ _ HB) as Hni.
  destruct (built_keep A fs es i A1 HB HF ltac:(lia) ltac:(lia)) as [(x & Hd & Hl) Hfs].
  pose proof (b_next _ _ _ HB) as Hnx. pose proof (dir_blocks_max (length es) ltac:(lia)) as Hdb.
  destruct (does_dirappend A1 1 x es e Hd) as (x2 & A2 & Hr & [D2 F2 N2 X2 L2 O2]); [|unfold NDIRECT, DPB; lia| |done|].
  { eapply entry_good; [|exact He]. lia. }
  { intros _. unfold NDIRECT in *. lia. }
  exists A2. split; [done|]. split; [|done]. split; auto.
  - exists x2. split; [done|congruence].
  - rewrite map_app, app_comm_cons. apply Forall2_app; [apply (b_entries _ _ _ HB)|]. by constructor.
  - apply Forall_app. split; [apply (files_frame 1 A1 A2); auto; lia|]. apply Forall_singleton. split; [cbn; lia|].
    eapply file_at_kept; [eapply frame_kept; [exact F2|cbn; lia]|done].
  - rewrite map_app, total_app, length_app. cbn [map snd length]. rewrite Nat.add_1_r.
    replace (total [l]) with (cost 0 (length l)) by (unfold total; cbn [foldr]; lia). lia.
Qed.

Lemma does_ext {X} (m m' : st X) A r A' : (forall d, m' d = m d) -> does m A r A' -> does m' A r A'.
Proof. intros E H d Hd. rewrite E. by apply H. Qed.

Definition taken_files (fs : list (Z * list Z * list Z)) : list (list Z * list Z) := map (fun f => (f.1.2, f.2)) fs.

Lemma does_add_file A fs es name ent_name :
  built A fs es -> length ent_name = DIRSIZ -> (length es < 768)%nat -> ni A < 16384 ->
  (forall f, accept name = Some f -> (length f.1 < DIRSIZ)%nat /\
     FIRST + NDIRECT + 1 + total (map snd fs) + cost 0 (length f.2) <= LAST) ->
  exists A' fs' es' ent', does (add_file 1 name ent_name) A ent' A' /\ built A' fs' es' /\
    taken_files fs' = taken_files fs ++ option_list (accept name) /\ length ent' = DIRSIZ /\ ni A' <= ni A + 1.
Proof.
  intros HB Hent Hes Hni Hacc. unfold add_file, accept in *. pose proof (built_ni _ _ _ HB) as Hni1.
  destruct (stat name) as [size|] eqn:Hst; cycle 1.
  { exists A, fs, es, ent_name. rewrite app_nil_r. split_and!; try done; [apply does_ret|lia]. }
  destruct (Z.ltb_spec (MAXFILE * BSIZE) size) as [Hsz|Hsz].
  { exists A, fs, es, ent_name. rewrite app_nil_r. split_and!; try done; [apply does_ret|lia]. }
  pose proof (stat_size _ _ Hst) as Hs0.
  destruct (does_new_file A size Hni (b_ok _ _ _ HB)) as (x1 & A1 & Hr1 & R1 & Hx1 & Hl1 & F1 & X1 & N1 & O1);
    [unfold MAXFILE, NDIRECT, NINDIRECT, BSIZE in *; lia|].
  assert (forall (K : Z -> st (list Z)) r A2, does (K (ni A)) A1 r A2 ->
    does (bind (ialloc_deref T_FILE) (fun inum => bind (set_di 2 di_nlink inum 1) (fun _ =>
      bind (set_di 4 di_size inum size) (fun _ => K inum)))) A r A2) as Hthen.
  { intros K r A2 HK. eapply does_ext; [|eapply does_bind; [exact Hr1|exact HK]].
    intros d. rewrite bind_assoc. apply bind_ext. intros i d1. rewrite bind_assoc. apply bind_ext. intros _ d2.
    by rewrite bind_assoc. }
  destruct (fopen name) as [l|] eqn:Hop; cycle 1.
  { exists A1, fs, es, ent_name. rewrite app_nil_r. split_and!; try done; [apply Hthen, does_ret| |lia].
    apply (built_new A fs es (ni A)); auto; lia. }
  pose proof (fopen_stat _ _ Hop) as E. rewrite Hst in E. injection E as ->.
  destruct (Hacc _ eq_refl) as [Hname Hroom]. cbn [fst snd] in *.
  pose proof (b_next _ _ _ HB) as Hnx. pose proof (dir_blocks_max (length es) ltac:(lia)) as Hdb.
  destruct (write_loop_writes (ni A) (write_fuel (Z.of_nat (length l))) l 0 A1 x1 [] None)
    as (x2 & A2 & ind & Hr2 & R2 & [F2 N2 X2 O2 (M1 & M2 & M3)]); [done|done|lia| | |unfold NDIRECT in *; lia|].
  { unfold file_blocks, MAXFILE, NDIRECT, NINDIRECT, BSIZE in *. zdiv. }
  { unfold write_fuel, file_blocks, BSIZE in *. zdiv. }
  rewrite Z.add_0_l in R2.
  destruct (strcpy_entry (ni A) ent_name (after_last name) Hent Hname) as (nm & Hcp & Hnm & He).
  destruct (built_append A fs es (ni A) (after_last name) l (dirent (ni A) nm) A2) as (A3 & Hr3 & HB3 & N3);
    try done; try lia.
  { by etrans. }
  { exists x2, ind. split_and!; [done|congruence|congruence]. }
  exists A3, (fs ++ [(ni A, after_last name, l)]), (es ++ [dirent (ni A) nm]), nm. split_and!; auto.
  - apply Hthen. eapply does_bind; [exact Hr2|]. rewrite Hcp. eapply does_bind; [exact Hr3|apply does_ret].
  - unfold taken_files. by rewrite map_app.
  - lia.
Qed.

Lemma length_omap_le names : (length (omap accept names) <= length names)%nat.
Proof. induction names as [|n names IH]; cbn; [done|]. destruct (accept n); cbn; lia. Qed.

Lemma taken_snd fs : map snd (taken_files fs) = map snd fs.
Proof. unfold taken_files. rewrite map_map. done. Qed.

Lemma does_add_files : forall names A fs es ent_name,
  built A fs es -> length ent_name = DIRSIZ -> (length es + length names <= 768)%nat ->
  ni A + Z.of_nat (length names) <= 16384 -> Forall (fun f => (length f.1 < DIRSIZ)%nat) (omap accept names) ->
  FIRST + NDIRECT + 1 + total (map snd fs) + total (map snd (omap accept names)) <= LAST ->
  exists A' fs' es' ent', does (add_files 1 names ent_name) A ent' A' /\ built A' fs' es' /\
    taken_files fs' = taken_files fs ++ omap accept names /\ ni A' <= ni A + Z.of_nat (length names).
Proof.
  induction names as [|name names IH]; intros A fs es ent_name HB Hent Hes Hni Hnames Hroom; cbn [length add_files] in *.
  { exists A, fs, es, ent_name. rewrite app_nil_r. split_and!; try done; [apply does_ret|lia]. }
  assert (omap accept (name :: names) = option_list (accept name) ++ omap accept names) as E
    by (cbn; by destruct (accept name)).
  rewrite E in Hnames, Hroom |- *. clear E. apply Forall_app in Hnames as [Hname Hnames].
  rewrite map_app, total_app in Hroom. pose proof (total_nonneg (map snd (omap accept names))) as Htn.
  assert (length (option_list (accept name)) <= 1)%nat as Hopt by (destruct (accept name); cbn; lia).
  destruct (does_add_file A fs es name ent_name HB Hent) as (A1 & fs1 & es1 & ent1 & Hr1 & HB1 & E1 & Hent1 & N1); [lia|lia| |].
  { intros f Hf. rewrite Hf in Hname, Hroom. change (option_list (Some f)) with [f] in Hname. inversion_clear Hname. split; [done|].
    change (total (map snd (option_list (Some f)))) with (cost 0 (length f.2) + 0) in Hroom. lia. }
  destruct (IH A1 fs1 es1 ent1 HB1 Hent1) as (A2 & fs2 & es2 & ent2 & Hr2 & HB2 & E2 & N2); [|lia|done| |].
  - rewrite (built_length _ _ _ HB1). rewrite (built_length _ _ _ HB) in Hes.
    apply (f_equal length) in E1. unfold taken_files in E1. rewrite length_app, !length_map in E1. lia.
  - rewrite <- (taken_snd fs1), E1, map_app, taken_snd, total_app. lia.
  - exists A2, fs2, es2, ent2. split_and!; [by eapply does_bind|done| |lia]. by rewrite E2, E1, <- app_assoc.
Qed.

(** ** Devices *)

(** Adding a name to directory [i]. *)
Lemma does_dirlink A i x es name inum :
  dir_at A i x es -> abs_ok A -> (length name < DIRSIZ)%nat -> 0 < inum < 2 ^ 16 ->
  Z.of_nat (length es) < NDIRECT * DPB -> (Z.of_nat (length es) mod DPB = 0 -> next A < LAST) ->
  exists x' A' e, does (dirlink i name inum) A 0 A' /\ appended i x es e A x' A' /\ entry_of inum name e.
Proof.
  intros H HA Hn Hi Hes Hroom. pose proof (strncpy_entry inum name Hn) as He.
  destruct (does_dirappend A i x es _ H (entry_good _ _ _ Hi He) Hes Hroom HA) as (x' & A' & Hr & Hap).
  exists x', A', (dirent inum (strncpy name)). by split_and!.
Qed.

(** A new inode whose 2-byte field at [off] is set. *)
Lemma does_new_inode A type off v y :
  ni A < 16384 -> 0 < type < 2 ^ 15 -> 0 <= off <= 62 -> abs_ok A ->
  set_fld 2 off v (dinode_bytes (fresh_inode type)) = dinode_bytes y -> inode_fits y -> 0 < itype y ->
  does (ialloc type) A (Some (ni A)) (new_ino (fresh_inode type) A) /\
  does (set_di 2 off (ni A) v) (new_ino (fresh_inode type) A) tt (set_ino (ni A) y (new_ino (fresh_inode type) A)) /\
  abs_ok (set_ino (ni A) y (new_ino (fresh_inode type) A)) /\
  frame (ni A) A (set_ino (ni A) y (new_ino (fresh_inode type) A)).
Proof.
  intros Hn Ht Ho HA Hs Hy Hty. split_and!.
  - by apply does_ialloc.
  - eapply does_set_di; [apply lookup_insert_eq|lia|lia|done|done|done].
  - eapply ok_set_ino; [apply lookup_insert_eq|by apply ok_new_ino].
  - etrans; [apply frame_new_ino|apply frame_set_ino].
Qed.

(** Inode [i] is device [id]. *)
Definition device_at (A : abs) (i id : Z) : Prop :=
  exists z, inodes A !! i = Some z /\ inode_fits z /\ itype z = T_DEVICE /\ major z = id /\ nlink z = 0.

Lemma device_at_kept j A A' id : kept j A A' -> device_at A j id -> device_at A' j id.
Proof. intros HK (z & H & ?). exists z. by rewrite (proj1 HK). Qed.

(** The devices [l] have the inodes from [i] on. *)
Definition devices_at (A : abs) (i : Z) (l : list (list Z * Z)) : Prop :=
  forall k f, l !! k = Some f -> device_at A (i + Z.of_nat k) f.2.
Definition device_names (i : Z) (l : list (list Z * Z)) : list (Z * list Z) := zip (seqZ i (Z.of_nat (length l))) (map fst l).

Lemma does_add_devices di : forall l A x es,
  dir_at A di x es -> abs_ok A -> di < ni A -> (0 < length es)%nat -> (length es + length l <= 64)%nat ->
  ni A + Z.of_nat (length l) <= 16384 -> Forall (fun f => (length f.1 < DIRSIZ)%nat /\ 0 <= f.2 < 2 ^ 15) l ->
  exists x' A' es', does (add_devices di l) A tt A' /\ dir_at A' di x' (es ++ es') /\ nlink x' = nlink x /\ abs_ok A' /\
    ni A <= ni A' /\ (forall j, j <> di -> j < ni A -> kept j A A') /\ devices_at A' (ni A) l /\
    Forall2 (fun f e => entry_of f.1 f.2 e) (device_names (ni A) l) es'.
Proof.
  induction l as [|[name id] l IH]; intros A x es Hd HA Hdi Hes Hlen Hni Hl; cbn [add_devices length] in *.
  { exists x, A, []. rewrite app_nil_r. split_and!; try done; try lia. apply does_ret. }
  inversion_clear Hl as [|? ? [Hname Hid] Hl']. cbn [fst snd] in *. pose proof HA as (_ & Hn1 & _).
  set (y := with_majmin id 0 (fresh_inode T_DEVICE)).
  assert (inode_fits y) as Hy.
  { destruct (fresh_inode_fits T_DEVICE) as (? & ? & ? & ? & ? & ? & ?); [done|]. unfold inode_fits. cbn [y with_majmin itype major minor nlink isize addrs].
    rewrite s16_id by lia. split_and!; try done; lia. }
  destruct (does_new_inode A T_DEVICE di_major id y) as (Hr1 & Hr2 & O1 & F1);
    [lia|done|by unfold di_major|done|apply set_dinode_major|done|done|].
  set (A1 := set_ino (ni A) y _) in *.
  assert (dir_at A1 di x es) as Hd1 by (eapply dir_room_kept; [eapply frame_kept; [exact F1|lia]|exact Hd]).
  destruct (does_dirlink A1 di x es name (ni A) Hd1 O1 Hname) as (x2 & A2 & e & Hr3 & [D2 F2 N2 X2 L2 O2] & He);
    [lia|unfold NDIRECT, DPB; lia|unfold DPB; zdiv|].
  assert (ni A2 = ni A + 1) as N2' by (rewrite N2; done).
  destruct (IH A2 x2 (es ++ [e]) D2 O2) as (x3 & A3 & es' & Hr4 & D3 & L3 & O3 & N3 & K3 & V3 & E3);
    [lia|rewrite length_app; cbn; lia|rewrite length_app; cbn [length]; lia|lia|done|].
  exists x3, A3, (e :: es'). rewrite <- app_assoc in D3. split_and!; try done; try congruence; try lia.
  - eapply does_bind; [exact Hr1|]. eapply does_bind; [exact Hr2|]. eapply does_bind; [exact Hr3|exact Hr4].
  - intros j Hj Hlt. etrans; [eapply frame_kept; [exact F1|lia]|]. etrans; [by eapply frame_kept|]. apply K3; [done|lia].
  - intros k f Hk. destruct k as [|k]; cbn in Hk.
    + injection Hk as <-. rewrite Z.add_0_r. eapply device_at_kept; [apply K3; lia|].
      eapply device_at_kept; [eapply frame_kept; [exact F2|lia]|]. exists y. split; [apply lookup_insert_eq|].
      split_and!; try done. cbn. apply s16_id. lia.
    + specialize (V3 k f Hk). replace (ni A + Z.of_nat (S k)) with (ni A2 + Z.of_nat k) by lia. done.
  - unfold device_names in *. cbn [length map]. rewrite seqZ_cons by lia. cbn [zip zip_with fst].
    constructor; [done|]. replace (Z.succ (ni A)) with (ni A2) by lia.
    replace (Z.pred (Z.of_nat (S (length l)))) with (Z.of_nat (length l)) by lia. exact E3.
Qed.

(** ** The image *)

(** Root directory [es], with the files [fs] and the directory [di] of
    devices, whose entries are [des]. *)
Record image_ok (A : abs) (fs : list (Z * list Z * list Z)) (es : list (list Z)) (di : Z) (des : list (list Z)) : Prop := mkImage {
  io_root : exists x, dir_at A 1 x es /\ nlink x = 2;
  io_entries : Forall2 (fun f e => entry_of f.1 f.2 e) ((1, dot) :: map fst fs ++ [(di, dev_name)]) es;
  io_files : Forall (fun f => 1 < f.1.1 < 16384 /\ file_at A f.1.1 f.2) fs;
  io_dev : 1 < di < 16384 /\ exists x, dir_at A di x des /\ nlink x = 1;
  io_dev_entries : Forall2 (fun f e => entry_of f.1 f.2 e) ((di, dot) :: (1, dotdot) :: device_names (di + 1) devs) des;
  io_devices : devices_at A (di + 1) devs
}.

Lemma dir_set_nlink A i x es v : dir_at A i x es -> dir_at (set_ino i (with_nlink v x) A) i (with_nlink v x) es.
Proof.
  intros [H1 (F1 & F2 & F3 & _ & F5 & F6 & F7) H3 H4 H5 H6 H7 [C1 C2 C3 C4] H9]. split; auto.
  - apply lookup_insert_eq.
  - unfold inode_fits. cbn [with_nlink itype major minor nlink isize addrs]. split_and!; try done; unfold s16; zdiv.
  - by split.
Qed.

(** The new directory of devices. *)
Lemma does_new_dir A :
  ni A < 16384 -> abs_ok A -> exists x A', (forall X (K : Z -> st X) r A2, does (K (ni A)) A' r A2 ->
    does (bind (ialloc_deref T_DIR) (fun inum => bind (set_di 2 di_nlink inum 1) (fun _ => K inum))) A r A2) /\
  dir_at A' (ni A) x [] /\ nlink x = 1 /\ frame (ni A) A A' /\ abs_ok A' /\ ni A' = ni A + 1 /\ next A' = next A.
Proof.
  intros Hn HA. set (y := with_nlink 1 (fresh_inode T_DIR)).
  assert (inode_fits (fresh_inode T_DIR)) as F0 by (by apply fresh_inode_fits).
  destruct (does_new_inode A T_DIR di_nlink 1 y) as (Hr1 & Hr2 & O1 & F1);
    [done|done|by unfold di_nlink|done|apply set_dinode_nlink|done|done|].
  exists y, (set_ino (ni A) y (new_ino (fresh_inode T_DIR) A)). split_and!; try done.
  - intros X K r A2 HK. eapply does_bind; [eapply does_bind; [exact Hr1|apply does_ret]|]. by eapply does_bind.
  - unfold dir_at. change (dir_blocks (length [])) with 0. split; try done; [apply lookup_insert_eq|apply content_empty|].
    intros k Hk. unfold arr_get. rewrite (proj2 (Z.ltb_ge k 0)) by lia. change (addrs y) with (replicate 13 0).
    apply lookup_replicate_2. unfold NDIRECT in Hk. lia.
Qed.

Lemma does_add_dev A fs es :
  built A fs es -> (length es < 768)%nat -> ni A + 4 <= 16384 ->
  FIRST + NDIRECT + 1 + total (map snd fs) <= LAST ->
  exists A' es' di des, does (add_dev 1) A tt A' /\ image_ok A' fs es' di des.
Proof.
  intros HB Hes Hni Hroom. pose proof (built_ni _ _ _ HB) as Hni1. pose proof (b_next _ _ _ HB) as Hnx.
  pose proof (dir_blocks_max (S (length es)) ltac:(lia)) as Hdb1. pose proof (dir_blocks_max (length es) ltac:(lia)) as Hdb0.
  destruct (does_new_dir A ltac:(lia) (b_ok _ _ _ HB)) as (y & A1 & Hr1 & Dy1 & Ly & F1 & O1 & N1 & X1).
  set (di := ni A) in *.
  destruct (built_keep A fs es di A1 HB F1 ltac:(lia) ltac:(lia)) as [(x & Dx1 & Lx) _].
  destruct (does_dirlink A1 1 x es dev_name di Dx1 O1) as (x2 & A2 & e & Hr2 & [Dx2 F2 N2 X2 L2 O2] & He);
    [by vm_compute; lia|lia|unfold NDIRECT, DPB; lia|unfold NDIRECT in *; lia|].
  assert (dir_at A2 di y []) as Dy2 by (eapply dir_room_kept; [eapply frame_kept; [exact F2|lia]|exact Dy1]).
  destruct (does_dirlink A2 di y [] dot di Dy2 O2) as (y3 & A3 & e1 & Hr3 & [Dy3 F3 N3 X3 L3 O3] & He1);
    [by vm_compute; lia|lia|done|unfold NDIRECT in *; lia|].
  destruct (does_dirlink A3 di y3 [e1] dotdot 1 Dy3 O3) as (y4 & A4 & e2 & Hr4 & [Dy4 F4 N4 X4 L4 O4] & He2);
    [by vm_compute; lia|lia|done|done|].
  assert (dir_at A4 1 x2 (es ++ [e])) as Dx4.
  { eapply dir_room_kept; [eapply frame_kept; [exact F4|lia]|]. eapply dir_room_kept; [eapply frame_kept; [exact F3|lia]|done]. }
  set (A5 := set_ino 1 (with_nlink 2 x2) A4).
  assert (dir_at A5 di y4 ([e1] ++ [e2])) as Dy5 by (eapply dir_room_kept; [eapply frame_kept; [apply frame_set_ino|lia]|done]).
  assert (abs_ok A5) as O5 by (eapply ok_set_ino; [apply Dx4|done]).
  assert (ni A5 = di + 1) as N5 by (cbn; lia).
  destruct (does_add_devices di devs A5 y4 _ Dy5 O5) as (y6 & A6 & es' & Hr6 & Dy6 & L6 & O6 & N6 & K6 & V6 & E6);
    [lia|cbn; lia|cbn; lia|cbn [devs length]; lia|by repeat constructor|].
  assert (forall j, j <> 1 -> j <> di -> j < di -> kept j A1 A6) as Hkept.
  { intros j H1 H2 H3. etrans; [exact (frame_kept _ _ _ _ F2 H1)|]. etrans; [exact (frame_kept _ _ _ _ F3 H2)|].
    etrans; [exact (frame_kept _ _ _ _ F4 H2)|].
    etrans; [exact (frame_kept _ _ _ _ (frame_set_ino 1 (with_nlink 2 x2) A4) H1)|]. apply K6; [done|lia]. }
  exists A6, (es ++ [e]), di, ([e1] ++ [e2] ++ es'). split.
  - unfold add_dev. apply Hr1. eapply does_bind; [exact Hr2|]. eapply does_bind; [exact Hr3|]. eapply does_bind; [exact Hr4|].
    eapply does_bind; [eapply does_get_di; [apply Dx4|unfold di_nlink; lia..|apply fld_dinode_nlink]|].
    rewrite L2, Lx. change (1 mod 2 ^ 16 + 1) with 2.
    eapply does_bind; [|exact Hr6].
    eapply does_set_di; [apply Dx4|unfold di_nlink; lia..|apply set_dinode_nlink|by apply (dir_fits _ _ _ _ _ (dir_set_nlink _ _ _ _ 2 Dx4))|].
    cbn. by rewrite (dir_type _ _ _ _ _ Dx4).
  - split.
    + exists (with_nlink 2 x2). split; [|done]. eapply dir_room_kept; [apply K6; lia|]. by apply dir_set_nlink.
    + rewrite app_comm_cons. apply Forall2_app; [apply (b_entries _ _ _ HB)|]. by constructor.
    + eapply Forall_impl; [exact (b_files _ _ _ HB)|]. cbn. intros f [Hr Hf]. split; [lia|].
      eapply file_at_kept; [apply Hkept; lia|]. eapply file_at_kept; [eapply frame_kept; [exact F1|lia]|done].
    + split; [lia|]. exists y6. split; [by rewrite app_assoc|congruence].
    + constructor; [done|]. constructor; [done|]. by rewrite <- N5.
    + by rewrite <- N5.
Qed.

(** The cleared image with its super block. *)
Definition start : abs := mkAbs ∅ 1 ∅ FIRST.

Lemma blk_empty n : blk ∅ n = zero_block.
Proof. unfold blk. by rewrite lookup_empty. Qed.

Lemma rep_start : rep (<[1 := splice 0 sb_bytes zero_block]> ∅) start.
Proof.
  assert (length sb_bytes = 24%nat) as Hsb by done.
  split; cbn [start inodes ni data next].
  - intros n. rewrite blk_insert. case_decide; [|by rewrite blk_empty].
    rewrite length_splice by (rewrite ?Hsb, ?length_zero_block; lia). apply length_zero_block.
  - rewrite blk_insert, decide_True by done. change 24 with (Z.of_nat (length sb_bytes)).
    apply slice_splice_eq; rewrite ?Hsb, ?length_zero_block; lia.
  - intros i Hi. pose proof (IBLOCK_at i Hi). rewrite blk_insert, decide_False, blk_empty, lookup_empty by lia.
    cbn [dinode_of]. pose proof (dinode_off_at i). unfold slice, zero_block. rewrite drop_replicate, take_replicate.
    f_equal. lia.
  - intros i. rewrite lookup_empty. split; [by intros [??]|lia].
  - intros i x. by rewrite lookup_empty.
  - intros n Hn. unfold FIRST, LAST in *. exists 0. rewrite blk_insert, decide_False, blk_empty by done.
    rewrite Z.bits_0. split; [|symmetry; apply Z.ltb_ge; lia]. unfold arr_get, zero_block.
    rewrite (proj2 (Z.ltb_ge _ 0)) by zdiv. apply lookup_replicate_2. zdiv.
  - intros n Hn. unfold FIRST in *. by rewrite blk_insert, decide_False, blk_empty, lookup_empty by lia.
  - intros n. rewrite lookup_empty. split; [by intros [??]|lia].
  - lia.
  - unfold FIRST, LAST. lia.
Qed.

(** mkfs builds the image. *)
Lemma main_builds prog img names junk d0 :
  fits names -> open_image img = true -> length junk = DIRSIZ ->
  exists d A fs es di des, main (prog :: img :: names) junk d0 = Done (0, d) /\ rep d A /\
    taken_files fs = omap accept names /\ image_ok A fs es di des.
Proof.
  intros [Hnum _ Hnames Hblocks] Himg Hjunk. pose proof (total_nonneg (map snd (omap accept names))) as Htn.
  assert (abs_ok start) as O0.
  { split; [cbn; unfold FIRST, LAST; lia|]. split; [cbn; lia|]. split; intros n; cbn; rewrite lookup_empty; (split; [by intros [??]|lia]). }
  destruct (does_new_dir start ltac:(done) O0) as (x & A1 & Hr1 & D1 & L1 & F1 & O1 & N1 & X1).
  destruct (strcpy_entry 1 junk dot Hjunk ltac:(vm_compute; lia)) as (nm & Hcp & Hnm & He).
  change (ni start) with 1 in *. change (next start) with FIRST in *.
  destruct (does_dirappend A1 1 x [] (dirent 1 nm) D1) as (x2 & A2 & Hr2 & [D2 F2 N2 X2 L2 O2]);
    [by apply (entry_good 1 dot)|done|by intros _; rewrite X1|done|].
  assert (built A2 [] [dirent 1 nm]) as HB.
  { split; [done|exists x2; split; [done|congruence]|constructor; [exact He|constructor]|constructor|].
    cbn in X2. change (total (map snd [])) with 0. change (dir_blocks (length [dirent 1 nm])) with 1. change (dir_blocks 1 - dir_blocks 0) with 1 in X2. lia. }
  destruct (does_add_files names A2 [] _ nm HB Hnm) as (A3 & fs & es & ent & Hr3 & HB3 & E3 & N3);
    [cbn [length]; lia|lia|done|change (total (map snd [])) with 0; lia|].
  cbn [app taken_files map] in E3.
  destruct (does_add_dev A3 fs es HB3) as (A4 & es' & di & des & Hr4 & Himage);
    [|lia|rewrite <- taken_snd, E3; lia|].
  { rewrite (built_length _ _ _ HB3). apply (f_equal length) in E3. unfold taken_files in E3. rewrite length_map in E3.
    pose proof (length_omap_le names). lia. }
  destruct (Hr1 Z (fun i => match strcpy junk dot with None => fault | Some ent_name =>
    bind (dirappend i (dirent i ent_name)) (fun _ => bind (add_files i names ent_name) (fun _ =>
    bind (add_dev i) (fun _ => ret 0))) end) 0 A4) with (d := <[1 := splice 0 sb_bytes zero_block]> (∅ : image))
    as (d & Hrun & Hd); [|exact rep_start|].
  - rewrite Hcp. eapply does_bind; [exact Hr2|]. eapply does_bind; [exact Hr3|]. eapply does_bind; [exact Hr4|apply does_ret].
  - exists d, A4, fs, es', di, des. split_and!; try done. unfold main. rewrite Himg. cbn [negb].
    rewrite (bind_done (put ∅) _ d0 tt ∅ eq_refl).
    unfold bwrite. rewrite bind_assoc. rewrite (bind_done _ _ _ _ _ (bdata_at 1 ∅ ltac:(by vm_compute))).
    rewrite (bind_done _ _ _ _ _ (set_bdata_at 1 _ ∅ ltac:(by vm_compute))). rewrite blk_empty. exact Hrun.
Qed.

End Image.

(** ** What the kernel finds *)

Lemma entry_fields inum name e :
  0 <= inum < 2 ^ 16 -> 0 ∉ name -> entry_of inum name e ->
  fld 2 0 e = inum /\ 0 ∈ drop 2 e /\ cname (drop 2 e) = name.
Proof.
  intros Hi Hn ((junk & ->) & Hl).
  change (drop 2 (le_bytes 2 inum ++ name ++ 0 :: junk)) with (name ++ 0 :: junk). split_and!.
  - change (fld 2 0 (le_bytes 2 inum ++ name ++ 0 :: junk)) with (le_val (le_bytes 2 inum)).
    apply le_val_le_bytes. change (8 * Z.of_nat 2) with 16. lia.
  - set_solver.
  - by apply cname_app.
Qed.

Definition named (name : list Z) (f : Z * list Z) : bool := bool_decide (f.2 = name).

Lemma find_entry_named name fs es i :
  Forall2 (fun f e => entry_of f.1 f.2 e) fs es -> Forall (fun f => 0 < f.1 < 2 ^ 16 /\ 0 ∉ f.2) fs ->
  forall f, List.find (named name) fs = Some f -> exists off, find_entry i es name = Some (off, f.1).
Proof.
  intros H. revert i. induction H as [|g e fs es He _ IH]; intros i Hok f Hf; [done|].
  inversion_clear Hok as [|? ? [Hi Hn] Hok']. destruct (entry_fields g.1 g.2 e ltac:(lia) Hn He) as (E1 & _ & E2).
  cbn [find_entry]. rewrite E1, E2, (proj2 (Z.eqb_neq g.1 0)) by lia. cbn [negb andb]. cbn [List.find] in Hf.
  unfold named at 1 in Hf. case_bool_decide as Hg.
  - injection Hf as <-. by eexists.
  - by apply IH.
Qed.

Section ReadBack.
Context {U : Type} `{!UserCopy U}.
#[local] Abbreviation FS := (fs (U := U)).

(** The disk is the image. *)
Definition shows_image (s : FS) (d : image) : Prop :=
  forall b, 0 <= b < IMGSIZE / BSIZE -> block s (ROOTDEV, b) = Some (blk d b).

Lemma image_data (s : FS) d A a o c :
  shows_image s d -> rep d A -> data A !! a = Some (o, c) -> a <> 0 /\ block s (ROOTDEV, a) = Some c.
Proof.
  intros Hs Hd Ha. assert (FIRST <= a < next A) as Hr by (apply (rep_owned _ _ Hd); by eexists).
  pose proof (rep_next _ _ Hd). unfold FIRST, LAST in *. split; [lia|].
  rewrite Hs by (change (IMGSIZE / BSIZE) with 262144; lia). f_equal.
  rewrite (rep_data _ _ Hd) by (unfold FIRST; change (IMGSIZE / BSIZE) with 262144; lia). by rewrite Ha.
Qed.

Lemma content_holds (s : FS) d A i x y l K :
  shows_image s d -> rep d A -> content A i x l K -> addrs y = addrs x -> dev y = ROOTDEV -> K <= isize y / BSIZE + 2 ->
  file_holds s y l.
Proof.
  intros Hs Hd [C1 C2 C3 C4] Ha Hdev HK. exists K. do 3 (split; [done|]). intros k Hk.
  destruct (C4 k Hk) as (a & Hadr & Hda). destruct (image_data s d A a _ _ Hs Hd Hda) as [Ha0 Hb].
  exists a. rewrite Hdev. split; [|done]. unfold faddr, addr_of in *. rewrite Ha, Hdev.
  destruct (Z.ltb_spec k NDIRECT); [done|]. destruct (C3 ltac:(lia)) as (ib & c & Hib & Hdi & _).
  rewrite Hib in Hadr |- *. rewrite Hdi in Hadr. by rewrite (proj2 (image_data s d A ib _ _ Hs Hd Hdi)).
Qed.

(** The inode that the kernel loads. *)
Lemma loaded_inode d A i x z :
  rep d A -> inodes A !! i = Some x ->
  locked_inode (blk d (IBLOCK i sb)) (with_key ROOTDEV i z) =
    mkInode ROOTDEV i 1 true 0 (itype x) (major x) (minor x) (nlink x) (isize x) (addrs x).
Proof.
  intros Hd Hx. destruct (rep_inode_at d A i x Hd Hx) as (Hi & Hs & Hf & _).
  unfold locked_inode. change (inum (with_key ROOTDEV i z)) with i. by rewrite Hs, load_dinode_bytes.
Qed.

Lemma image_inode (s : FS) d A i x :
  shows_image s d -> rep d A -> inodes A !! i = Some x ->
  block s (ROOTDEV, u32 (IBLOCK i sb)) = Some (blk d (IBLOCK i sb)).
Proof.
  intros Hs Hd Hx. destruct (rep_inode_at d A i x Hd Hx) as (Hi & _). pose proof (IBLOCK_in i Hi) as Hb.
  change (IMGSIZE / BSIZE) with 262144 in Hb. unfold u32. rewrite Z.mod_small by lia. by apply Hs.
Qed.

Lemma image_dir (s : FS) d A i x es y fs :
  shows_image s d -> rep d A -> dir_at A i x es -> itype y = itype x -> isize y = isize x -> addrs y = addrs x -> dev y = ROOTDEV ->
  Forall2 (fun f e => entry_of f.1 f.2 e) fs es -> Forall (fun f => 0 < f.1 < 2 ^ 16 /\ 0 ∉ f.2) fs -> dir_holds s y es.
Proof.
  intros Hs Hd [H1 H2 H3 H4 H5 H6 H7 H8 H9] Ht Hsz Ha Hdev Hes Hfs. split; try congruence.
  - by apply good_entries.
  - clear - Hes Hfs. induction Hes as [|f e fs es He _ IH]; [constructor|].
    inversion_clear Hfs as [|? ? [Hi Hn] Hok]. constructor; [|by apply IH]. intros _.
    by destruct (entry_fields f.1 f.2 e ltac:(lia) Hn He) as (_ & ? & _).
  - eexists. eapply content_holds; [done|done|exact H8|done|done|]. rewrite Hsz, H4. unfold dir_blocks, BSIZE, DPB. zdiv.
Qed.

(** A kernel that has not read anything yet. *)
Definition unread (s : FS) : Prop :=
  held s = [] /\ table_full (itable s) /\ forall j x, itable s !! j = Some x -> iref x = 0.

(** A boot that opens a file and reads from it: [fs_init], then what
    [sys_open] and [sys_read] call. *)
Definition boot_read (path junk : list Z) (off n : Z) : Fs.st (U := U) (Z * list Z) :=
  fs_init ROOTDEV;;;
  r <- namei path junk;;
  match r with
  | None => ret (-1, [])
  | Some ip => ilock (Some ip);;; readi ip None off n
  end.

Lemma boot_super (s : FS) d A :
  unread s -> shows_image s d -> rep d A ->
  exists s1, fs_init ROOTDEV s = Done (tt, s1) /\ shows_image s1 d /\ held s1 = [] /\ Fs.sb s1 = sb /\ fresh_table (itable s1).
Proof.
  intros (Hh & Hfull & Hfree) Hs Hd.
  assert (sb_of (blk d 1) = sb) as Esb.
  { unfold sb_of. pose proof (rep_sb _ _ Hd) as H.
    rewrite (fld_slice 4 0 24 0), (fld_slice 4 0 24 4), (fld_slice 4 0 24 8), (fld_slice 4 0 24 12), (fld_slice 4 0 24 16),
      (fld_slice 4 0 24 20), H by lia. by vm_compute. }
  destruct (fs_init_done s ROOTDEV (blk d 1) Hh) as (s1 & Hr & Hb & Hh1 & Hsb & _ & Hit);
    [apply Hs; change (IMGSIZE / BSIZE) with 262144; lia|by rewrite Esb|].
  exists s1. split; [done|]. split; [intros b Hbr; rewrite Hb; by apply Hs|]. split; [done|]. split; [congruence|].
  rewrite Hit. split.
  - intros ip. rewrite lookup_fmap, fmap_is_Some. apply Hfull.
  - intros j x. rewrite lookup_fmap. destruct (itable s !! j) as [x0|] eqn:Hx; [|done]. intros [= <-].
    split; [exact (Hfree j x0 Hx)|done].
Qed.

(** Reading the file whose inode is [i]. *)
Lemma read_image_file (s s1 : FS) d A i l x1 t off n :
  shows_image s d -> held s = [] -> Fs.sb s = sb -> rep d A -> file_at A i l ->
  holding (set_itable (<[1 := with_key ROOTDEV i x1]> t) s) None s1 -> lock x1 = 1 ->
  0 <= off -> 0 <= n -> off + n <= Z.of_nat (length l) ->
  exists s2, bind (ilock (Some 1)) (fun _ => readi 1 None off n) s1 = Done ((n, slice off n l), s2).
Proof.
  intros Hs Hh Hsb Hd (x & ind & [H1 H2 H3 H4 H5] & Hsz & Hnl) Hs1 Hl Hoff Hn Hlen.
  pose proof (image_inode s d A i x Hs Hd H1) as Hblk. pose proof (loaded_inode d A i x x1 Hd H1) as Ey.
  destruct (ilock_loads _ s1 1 (with_key ROOTDEV i x1) (blk d (IBLOCK i sb)) Hs1) as (s2 & Hr & Hs2);
    [apply lookup_insert_eq|done|done|done|by cbn [Fs.sb set_itable]; rewrite Hsb|].
  rewrite Ey in Hr, Hs2. set (y := mkInode _ _ _ _ _ _ _ _ _ _ _) in *.
  change (itype y) with (itype x) in Hr. rewrite H3 in Hr. change (T_FILE =? 0) with false in Hr.
  pose proof Hs2 as (B2 & _ & Hh2 & _ & _ & T2 & _). cbn [itable set_itable] in T2.
  assert (shows_image s2 d) as Hs' by (intros b Hb; rewrite B2; by apply Hs).
  assert (file_holds s2 y (padded l)) as Hf.
  { eapply (content_holds s2 d A i x); try done. cbn [y isize]. rewrite Hsz. unfold file_blocks, BSIZE. zdiv. }
  destruct (readi_reads s2 1 y (padded l) off n) as (s3 & Hr3 & _); [by rewrite T2, lookup_insert_eq|done|done|cbn [y isize]; lia|done| |].
  { unfold padded. rewrite length_app. lia. }
  exists s3. rewrite (bind_done _ _ _ _ _ Hr), Hr3. do 3 f_equal. unfold padded. apply slice_app_l; lia.
Qed.

(** The first of the files that mkfs takes with a name. *)
Definition lookup_file (name : list Z) (files : list (list Z * list Z)) : option (list Z * list Z) :=
  List.find (fun f => bool_decide (f.1 = name)) files.

Lemma find_taken name f (fs : list (Z * list Z * list Z)) rest :
  lookup_file name (taken_files fs) = Some f ->
  exists i, List.find (named name) (map fst fs ++ rest) = Some (i, name) /\ (i, name, f.2) ∈ fs.
Proof.
  unfold lookup_file. induction fs as [|[[i m] l] fs IH]; [done|]. cbn. unfold named at 1. cbn.
  case_bool_decide as E.
  - intros [= <-]. subst m. exists i. split; [done|]. by left.
  - intros H. destruct (IH H) as (j & Hj & Hin). exists j. split; [done|]. by right.
Qed.

Lemma after_last_elem c name : c ∈ after_last name -> c ∈ name.
Proof.
  induction name as [|b name IH]; [done|]. cbn. case_bool_decide; [intros ?; right; by apply IH|].
  destruct (b =? 95); [by right|done].
Qed.

Context {host : Host}.

Lemma accepted_strings names : Forall (fun name => 0 ∉ name) names -> Forall (fun f => 0 ∉ f.1) (omap accept names).
Proof.
  intros H. apply Forall_forall. intros f Hf. apply list_elem_of_omap in Hf as (name & Hin & Hacc).
  rewrite Forall_forall in H. specialize (H name Hin). unfold accept in Hacc.
  destruct (stat name) as [size|]; [|done]. destruct (_ <? size); [done|]. destruct (fopen name) as [l|]; [|done].
  injection Hacc as <-. cbn. intros H0. by apply H, after_last_elem.
Qed.

(** The names in the root directory. *)
Lemma root_names names (fs : list (Z * list Z * list Z)) di :
  Forall (fun name => 0 ∉ name) names -> taken_files fs = omap accept names -> 1 < di < 16384 ->
  Forall (fun f => 1 < f.1.1 < 16384) fs ->
  Forall (fun f => 0 < f.1 < 2 ^ 16 /\ 0 ∉ f.2) ((1, dot) :: map fst fs ++ [(di, dev_name)]).
Proof.
  intros Hstr%accepted_strings Htaken Hdi Hfs. rewrite <- Htaken, Forall_forall in Hstr. rewrite Forall_forall in Hfs.
  constructor; [cbn; split; [lia|set_solver]|]. apply Forall_app. split.
  - apply Forall_forall. intros g Hg. apply list_elem_of_fmap in Hg as ([[j m] l] & -> & Hg). cbn.
    split; [specialize (Hfs _ Hg); cbn in Hfs; lia|].
    apply (Hstr (m, l)). apply list_elem_of_fmap. by exists (j, m, l).
  - constructor; [|done]. cbn. split; [lia|]. unfold dev_name. set_solver.
Qed.

(** C32. What mkfs writes the kernel reads.  When the files fit, mkfs builds an
    image; on any disk with this image a kernel that has not read anything
    starts its file system, finds each file (the first of its name) by its
    path in the root directory, and reads from it, at every place, the bytes
    that the host's file had. *)
Theorem mkfs_files_read_back prog img names junk d0 :
  fits names -> open_image img = true -> length junk = DIRSIZ ->
  exists d, main (prog :: img :: names) junk d0 = Done (0, d) /\
    forall name f kjunk off n (s : FS),
      lookup_file name (omap accept names) = Some f -> plain name -> name <> dot -> length kjunk = DIRSIZ ->
      0 <= off -> 0 <= n -> off + n <= Z.of_nat (length f.2) -> unread s -> shows_image s d ->
      exists s', boot_read (SLASH :: name) kjunk off n s = Done ((n, slice off n f.2), s').
Proof.
  intros Hfits Himg Hjunk.
  destruct (main_builds prog img names junk d0 Hfits Himg Hjunk) as (d & A & fs & es & di & des & Hmain & Hd & Htaken & HI).
  exists d. split; [done|]. intros name f kjunk off n s Hlook Hplain Hdot Hkj Hoff Hn Hlen Hun Hshow.
  destruct (boot_super s d A Hun Hshow Hd) as (s1 & Hr1 & Hs1 & Hh1 & Hsb1 & Hfresh).
  destruct HI as [(x & Hdir & Hnl) Hents Hfiles [Hdi _] _ _]. rewrite <- Htaken in Hlook.
  destruct (find_taken name f fs [(di, dev_name)] Hlook) as (i & Hfind & Hin).
  destruct (proj1 (Forall_forall _ _) Hfiles _ Hin) as [Hi Hfile]. cbn [fst snd] in Hi, Hfile.
  destruct (proj1 (proj1 Hfresh 0) ltac:(unfold NINODE; lia)) as [x0 Hx0].
  destruct (proj1 (proj1 Hfresh 1) ltac:(unfold NINODE; lia)) as [x1 Hx1].
  set (L := (1, dot) :: map fst fs ++ [(di, dev_name)]) in *.
  pose proof (root_names names fs di (fit_strings _ Hfits) Htaken ltac:(lia) ltac:(eapply Forall_impl; [exact Hfiles|]; by intros g [])) as HL.
  assert (List.find (named name) L = Some (i, name)) as HfindL.
  { unfold L. cbn [List.find]. unfold named at 1. cbn [snd]. by rewrite bool_decide_eq_false_2 by (by intros <-). }
  destruct (find_entry_named name L es 0 Hents HL _ HfindL) as (eoff & Heoff). cbn [fst] in Heoff.
  pose proof (dir_ino _ _ _ _ _ Hdir) as Hx.
  pose proof (loaded_inode d A 1 x x0 Hd Hx) as Ey.
  destruct (namei_root s1 (blk d (IBLOCK 1 sb)) es (locked_inode (blk d (IBLOCK 1 sb)) (with_key ROOTDEV 1 x0)) eoff i name kjunk x0 x1)
    as (s2 & z & Hr2 & Hs2); try done.
  { rewrite Hsb1. by apply (image_inode s1 d A 1 x). }
  { rewrite Ey. by eapply (image_dir s1 d A 1 x es). }
  { rewrite Ey. cbn. lia. }
  { unfold ROOTINO. lia. }
  destruct (read_image_file s1 s2 d A i f.2 x1 (<[0:=z]> (itable s1)) off n) as (s3 & Hr3); try done.
  { by destruct (proj2 Hfresh 1 x1 Hx1). }
  exists s3. unfold boot_read. rewrite (bind_done _ _ _ _ _ Hr1), (bind_done _ _ _ _ _ Hr2). exact Hr3.
Qed.

End ReadBack.

(** ** A concrete run: an image with the file hi *)

Definition demo_path : list Z := [117; 47; 95; 104; 105].             (* u/_hi *)
Definition demo_text : list Z := replicate 1500 7 ++ [1; 2; 3].

#[export] Program Instance demo_host : Host := {|
  open_image _ := true;
  stat name := if bool_decide (name = demo_path) then Some 1503 else None;
  fopen name := if bool_decide (name = demo_path) then Some demo_text else None
|}.
Next Obligation. intros name n. cbn. case_bool_decide; [|done]. by intros [= <-]. Qed.
Next Obligation. intros name l. cbn. case_bool_decide; [|done]. by intros [= <-]. Qed.

Definition no_inode : inode_t := mkInode 0 0 0 false 0 0 0 0 0 0 [].
(** A kernel with this disk and nothing read. *)
Definition demo_kernel (d : image) : fs (U := unit) :=
  mkFs ∅ (list_to_map ((fun b => (b, blk d b)) <$> seqZ 0 (IMGSIZE / BSIZE))) [] (mkSb 0 0 0 0 0 0) 0
       (gset_to_gmap no_inode (list_to_set (seqZ 0 100))) 0 tt.

Lemma demo_unread d : unread (demo_kernel d).
Proof.
  split; [done|]. cbn [demo_kernel itable]. split.
  - intros ip. rewrite <- elem_of_dom, dom_gset_to_gmap, elem_of_list_to_set, elem_of_seqZ. unfold NINODE. lia.
  - intros j x H. apply lookup_gset_to_gmap_Some in H as [_ <-]. done.
Qed.

Lemma demo_shows d : shows_image (demo_kernel d) d.
Proof.
  intros b Hb. unfold block. cbn [demo_kernel cache dsk snd]. rewrite lookup_empty.
  apply elem_of_list_to_map.
  - assert (forall l, ((fun b => (b, blk d b)) <$> l).*1 = l) as -> by (intros l; induction l; cbn; by f_equal). apply NoDup_seqZ.
  - apply list_elem_of_fmap. exists b. split; [done|]. apply elem_of_seqZ. lia.
Qed.

Lemma demo_fits : fits [[]; demo_path].
Proof.
  split.
  - cbn. lia.
  - repeat constructor; by apply (bool_decide_unpack _); vm_compute.
  - repeat constructor.
  - vm_compute. discriminate.
Qed.

Lemma mkfs_files_read_back_witness : exists d s',
  main [[]; []; []; demo_path] (replicate 14 9) ∅ = Done (0, d) /\
  boot_read [47; 104; 105] (replicate 14 0) 1499 4 (demo_kernel d) = Done ((4, [7; 1; 2; 3]), s').
Proof.
  destruct (mkfs_files_read_back (U := unit) [] [] [[]; demo_path] (replicate 14 9) ∅ demo_fits eq_refl eq_refl)
    as (d & Hd & Hread).
  destruct (Hread [104; 105] ([104; 105], demo_text) (replicate 14 0) 1499 4 (demo_kernel d)) as (s' & Hs').
  - by vm_compute.
  - split_and!; [done|cbn; unfold DIRSIZ; lia|by apply (bool_decide_unpack _); vm_compute|by apply (bool_decide_unpack _); vm_compute].
  - done.
  - done.
  - lia.
  - lia.
  - vm_compute. discriminate.
  - apply demo_unread.
  - apply demo_shows.
  - exists d, s'. split; [exact Hd|exact Hs'].
Defined.
