(* ===== verification/Monitor.v ===== *)
(** * The monitor device: monitor.c

    The device behind [/dev/monitor0]: its description, its lock and the frame
    buffer, with the calling task's memory behind the interface [UserCopy].
    [monitor_write] stops where it calls the display driver: the two calls
    are the program [write_prog] of [Gpu].  [lm_lock] on a lock that is taken
    is [Blocked]: no other task frees a lock it does not hold. *)
From S2P Require Import Prelude Fs Gpu.

Definition MONITOR0 : Z := 1.
Definition MONITOR_GET_INFO : Z := 1.

(** [struct monitor_info], two [int]s. *)
Definition SIZEOF_INFO : Z := 8.
Definition le32 (v : Z) : list Z := [v mod 256; v / 2 ^ 8 mod 256; v / 2 ^ 16 mod 256; v / 2 ^ 24 mod 256].

Section Monitor.
Context {U : Type} `{!UserCopy U}.

(** [fb] is the memory allocated at [buf]. *)
Record monitor0 : Type := mkMon {
  this : monitor_t;
  locked : bool;
  fb : list Z;
  user : U
}.

Definition lm_lock : M monitor0 unit := fun s =>
  if locked s then Blocked else Done (tt, mkMon (this s) true (fb s) (user s)).
Definition lm_unlock : M monitor0 unit := fun s => Done (tt, mkMon (this s) false (fb s) (user s)).

(** [either_copyin] to the start of the frame buffer: what came is written,
    past the allocated memory it is a fault. *)
Definition copyin_fb (src n : Z) : M monitor0 bool := fun s =>
  let '(l, ok) := copy_in src n (user s) in
  if (length (fb s) <? length l)%nat then Fault
  else Done (ok, mkMon (this s) (locked s) (l ++ drop (length l) (fb s)) (user s)).

Definition copyout_user (dst : Z) (l : list Z) : M monitor0 bool := fun s =>
  let '(u, ok) := copy_out dst l (user s) in Done (ok, mkMon (this s) (locked s) (fb s) u).

(** What a call ends in: a value, or the calls of the display driver and then
    a value. *)
Inductive outcome : Type :=
| Ret (v : Z)
| Calls (p : list item) (v : Z).

Definition get_monitor_info (dst n : Z) : M monitor0 Z :=
  if n <? SIZEOF_INFO then ret (u64 (-1))
  else
    m <- gets this;;
    ok <- copyout_user dst (le32 (mwidth m) ++ le32 (mheight m));;
    if ok : bool then ret SIZEOF_INFO else ret (u64 (-1)).

Definition monitor_write (src n : Z) : M monitor0 outcome :=
  lm_lock;;;
  m <- gets this;;
  if n <? buf_len m then ret (Ret (u64 (-1)))
  else
    ok <- copyin_fb src (buf_len m);;
    if negb ok then ret (Ret (u64 (-1)))
    else
      lm_unlock;;;
      m <- gets this;;
      ret (Calls write_prog (buf_len m)).

Definition monitor_ioctl (cmd arg : Z) : M monitor0 Z :=
  if cmd =? MONITOR_GET_INFO then get_monitor_info arg SIZEOF_INFO else ret 0.

(** The entry of [devsw]: whether there is a function to read, to write and
    for ioctl. *)
Record device_t : Type := mkDev { name : string; id : Z; has_read : bool; has_write : bool; has_ioctl : bool }.

(** [monitor_init]: the entry, the lock, and the calls of [virtio_gpu_init]. *)
Definition monitor_init : M monitor0 (device_t * list item) := fun s =>
  Done ((mkDev "monitor0" MONITOR0 false true true, init_prog), mkMon (this s) false (fb s) (user s)).

(** ** Properties *)

(** Every call that takes the lock after a state waits for ever. *)
Definition wedged (s : monitor0) : Prop := forall src n, monitor_write src n s = Blocked.

Lemma locked_wedged s : locked s = true -> wedged s.
Proof. intros H src n. unfold monitor_write, bind, lm_lock. by rewrite H. Qed.

(** A write to the monitor when nobody else writes, for a frame buffer of
    at least [buf_len] bytes: with enough data that can be read the frame
    buffer is exactly the user's bytes, the lock is free and the display is
    told to read the frame buffer and to refresh; with less data, or with data
    that cannot be read, the call returns -1 and no later write to the
    monitor gets past the lock. *)
Theorem monitor_write_outcome s src n l ok :
  locked s = false -> 0 <= buf_len (this s) <= Z.of_nat (length (fb s)) ->
  copy_in src (buf_len (this s)) (user s) = (l, ok) -> Z.of_nat (length l) <= buf_len (this s) ->
  exists o s', monitor_write src n s = Done (o, s') /\ this s' = this s /\ user s' = user s /\
    (if decide (buf_len (this s) <= n /\ ok = true)
     then o = Calls [ICall TransferToHost2d; ICall ResourceFlush] (buf_len (this s)) /\ locked s' = false /\
          take (Z.to_nat (buf_len (this s))) (fb s') = l /\
          drop (Z.to_nat (buf_len (this s))) (fb s') = drop (Z.to_nat (buf_len (this s))) (fb s)
     else o = Ret (2 ^ 64 - 1) /\ wedged s' /\
          (n < buf_len (this s) -> fb s' = fb s)).
Proof.
  intros Hl Hb Hc Hlen. destruct s as [m lk f u]. cbn [locked this fb user] in *. subst lk.
  unfold monitor_write. rewrite (bind_done _ _ _ tt (mkMon m true f u)) by done. rewrite bind_gets. cbn [this].
  destruct (Z.ltb_spec n (buf_len m)) as [Hn|Hn].
  - eexists _, _. split; [reflexivity|]. split; [done|]. split; [done|]. rewrite decide_False by lia.
    split; [done|]. split; [by apply locked_wedged|done].
  - assert (copyin_fb src (buf_len m) (mkMon m true f u) = Done (ok, mkMon m true (l ++ drop (length l) f) u)) as E.
    { unfold copyin_fb. cbn [user fb this locked]. rewrite Hc. by rewrite (proj2 (Nat.ltb_ge _ _)) by lia. }
    rewrite (bind_done _ _ _ _ _ E). destruct ok; cbn [negb].
    + eexists _, _. split; [reflexivity|]. split; [done|]. split; [done|]. rewrite decide_True by done.
      apply copy_in_all in Hc. cbn [fb locked]. rewrite <- Hc. split; [done|]. split; [done|].
      by rewrite take_app_length, drop_app_length.
    + eexists _, _. split; [reflexivity|]. split; [done|]. split; [done|]. rewrite decide_False by naive_solver.
      split; [done|]. split; [by apply locked_wedged|lia].
Qed.

(** What [MONITOR_GET_INFO] gives the user. *)
Lemma monitor_info_spec s arg u :
  copy_out arg (le32 (mwidth (this s)) ++ le32 (mheight (this s))) (user s) = (u, true) ->
  monitor_ioctl MONITOR_GET_INFO arg s = Done (8, mkMon (this s) (locked s) (fb s) u).
Proof.
  intros H. unfold monitor_ioctl, get_monitor_info, bind, gets, copyout_user.
  change (MONITOR_GET_INFO =? MONITOR_GET_INFO) with true. change (SIZEOF_INFO <? SIZEOF_INFO) with false. cbv beta iota.
  by rewrite H.
Qed.
End Monitor.

(** ** At a frame buffer of 4 bytes *)

(** The user's memory is a list of bytes from address 0. *)
#[export] Program Instance list_copy : UserCopy (list Z) := {
  copy_out p l u := (take (Z.to_nat p) u ++ l ++ drop (Z.to_nat p + length l) u, true);
  copy_in p n u := let l := take (Z.to_nat n) (drop (Z.to_nat p) u) in (l, bool_decide (length l = Z.to_nat n))
}.
Next Obligation. intros p n u l [= <- H]. by apply bool_decide_eq_true in H. Qed.

Definition demo_monitor : monitor0 := mkMon (mkMonitor 4096 4 1 1) false [0; 0; 0; 0] [7; 8; 9; 10; 11].

Lemma monitor_write_outcome_witness :
  (exists s, monitor_write 1 4 demo_monitor = Done (Calls write_prog 4, s) /\ fb s = [8; 9; 10; 11]) /\
  (exists s, monitor_write 1 3 demo_monitor = Done (Ret (2 ^ 64 - 1), s) /\ wedged s).
Proof.
  split.
  - destruct (monitor_write_outcome demo_monitor 1 4 [8; 9; 10; 11] true) as (o & s & H & _ & _ & Ho & _ & Hf & Hd);
      [reflexivity|cbn; lia|reflexivity|cbn; lia|].
    exists s. split; [rewrite H; f_equal; f_equal; exact Ho|].
    rewrite <- (take_drop 4 (fb s)). change (Z.to_nat (buf_len (this demo_monitor))) with 4%nat in Hf, Hd.
    rewrite Hf, Hd. reflexivity.
  - destruct (monitor_write_outcome demo_monitor 1 3 [8; 9; 10; 11] true) as (o & s & H & _ & _ & Ho & Hw & _);
      [reflexivity|cbn; lia|reflexivity|cbn; lia|].
    exists s. split; [rewrite H; f_equal; f_equal; exact Ho|exact Hw].
Defined.
