(* ===== verification/Sysfile.v ===== *)
(** * Open files: file.c and sysfile.c

    The calling task, the table of open files and the file system [Fs].  Other
    tasks only show in the reference counts.  What lies outside is an
    interface: [UserStr] the copy of a path from the task's memory, [DevSw]
    the drivers behind [devsw].  [junk] is what the local name arrays hold at
    first. *)
From S2P Require Import Prelude Fs.

Definition NOFILE : nat := 100.
Definition MAXPATH : Z := 128.
Definition DEV_MAX : Z := 16.
Definition O_RDONLY : Z := 0.
Definition O_WRONLY : Z := 1.
Definition O_RDWR : Z := 2.
Definition O_CREATE : Z := 512.
Definition O_TRUNC : Z := 1024.

Inductive ftype : Type := FD_NONE | FD_DEVICE | FD_INODE.

#[export] Instance ftype_eq_dec : EqDecision ftype.
Proof. solve_decision. Defined.

(** [struct file]; [ip] is a slot of the inode table. *)
Record file_t : Type := mkFile {
  type : ftype;
  ref : Z;
  readable : bool;
  writable : bool;
  fmajor : Z;
  ip : option Z;
  off : Z
}.

Record trapframe_t : Type := mkTf { a0 : Z; a1 : Z; a2 : Z; a3 : Z; a4 : Z; a5 : Z; a6 : Z; a7 : Z }.

(** [copyinstr] of at most [n] characters, the NUL included. *)
Class UserStr (U : Type) : Type := {
  copy_str : Z -> Z -> U -> option (list Z);
  copy_str_short : forall p n u l, copy_str p n u = Some l -> Z.of_nat (length l) < n /\ 0%Z ∉ l
}.

(** The functions of a device: on the arguments after the first, [None] for a
    null pointer in [devsw]. *)
Class DevSw (U V : Type) : Type := {
  dev_read : Z -> option (Z -> Z -> Z -> U * V -> Z * (U * V));
  dev_write : Z -> option (Z -> Z -> Z -> U * V -> Z * (U * V));
  dev_ioctl : Z -> option (Z -> Z -> Z -> U * V -> Z * (U * V))
}.

Section Sysfile.
Context {U V : Type} `{!UserCopy U} `{!UserStr U} `{!DevSw U V}.

(** [ftable.files], the task's [ofile] and [trapframe], the counter of
    [fs_lock], and the devices.  [ofile] holds indices into [files]. *)
Record sys : Type := mkSys {
  fsys : fs (U := U);
  files : list file_t;
  ofile : list (option nat);
  tf : trapframe_t;
  fs_lock : Z;
  devs : V
}.

Definition with_files (l : list file_t) (s : sys) : sys := mkSys (fsys s) l (ofile s) (tf s) (fs_lock s) (devs s).
Definition with_ofile (l : list (option nat)) (s : sys) : sys := mkSys (fsys s) (files s) l (tf s) (fs_lock s) (devs s).
Definition with_fsys (f : fs) (s : sys) : sys := mkSys f (files s) (ofile s) (tf s) (fs_lock s) (devs s).
Definition with_fs_lock (n : Z) (s : sys) : sys := mkSys (fsys s) (files s) (ofile s) (tf s) n (devs s).
Definition with_a0 (v : Z) (s : sys) : sys :=
  let t := tf s in mkSys (fsys s) (files s) (ofile s) (mkTf (u64 v) (a1 t) (a2 t) (a3 t) (a4 t) (a5 t) (a6 t) (a7 t)) (fs_lock s) (devs s).
Definition set_a0 (v : Z) : M sys unit := modify (with_a0 v).

Definition on_fs {R} (f : M fs R) : M sys R := zoom fsys with_fsys f.

Definition begin_op : M sys unit :=
  n <- gets fs_lock;; if n <=? 0 then blocked else modify (with_fs_lock (n - 1)).
Definition end_op : M sys unit := n <- gets fs_lock;; modify (with_fs_lock (n + 1)).

(** ** file.c *)

Definition get_file (f : nat) : M sys file_t := fun s =>
  match files s !! f with Some x => Done (x, s) | None => Fault end.
Definition set_file (f : nat) (x : file_t) : M sys unit := modify (fun s => with_files (<[f := x]> (files s)) s).
Definition with_fref (n : Z) (x : file_t) : file_t := mkFile (type x) n (readable x) (writable x) (fmajor x) (ip x) (off x).

Definition filealloc : M sys (option nat) :=
  l <- gets files;;
  match list_find (fun x => ref x = 0) l with
  | Some (f, x) => set_file f (with_fref 1 x);;; ret (Some f)
  | None => ret None
  end.
Definition fileclose (f : nat) : M sys unit := x <- get_file f;; set_file f (with_fref (s32 (ref x - 1)) x).
Definition filedup (f : nat) : M sys nat := x <- get_file f;; set_file f (with_fref (s32 (ref x + 1)) x);;; ret f.

(** ** Arguments of a system call *)

Definition arguint64 (pos : Z) : M sys Z :=
  t <- gets tf;;
  ret (if pos =? 0 then a0 t else if pos =? 1 then a1 t else if pos =? 2 then a2 t else if pos =? 3 then a3 t
       else if pos =? 4 then a4 t else if pos =? 5 then a5 t else if pos =? 6 then a6 t else 0).

(** The string, [None] for a negative result. *)
Definition argstr (pos n : Z) : M sys (option (list Z)) :=
  ubuf <- arguint64 pos;; s <- get;; ret (copy_str ubuf n (umem (fsys s))).

Definition fdalloc (f : nat) : M sys Z :=
  l <- gets ofile;;
  match list_find (fun o => o = None) l with
  | Some (fd, _) => modify (with_ofile (<[fd := Some f]> l));;; ret (Z.of_nat fd)
  | None => ret (-1)
  end.

(** The file of a descriptor; [None] for the returns of -1. *)
Definition fd_file (fd : Z) : M sys (option nat) :=
  if (fd <? 0) || (Z.of_nat NOFILE <=? fd) then ret None
  else l <- gets ofile;; match l !! Z.to_nat fd with Some o => ret o | None => fault end.

(** ** System calls *)

Definition sys_chdir (junk : list Z) : M sys Z :=
  upath <- arguint64 0;; s <- get;;
  match copy_str upath MAXPATH (umem (fsys s)) with
  | None => ret (-1)
  | Some path =>
    begin_op;;;
    r <- on_fs (namei path junk);;
    match r with
    | None => end_op;;; ret (-1)
    | Some ip =>
      on_fs (ilock (Some ip));;;
      x <- on_fs (geti ip);;
      if negb (itype x =? T_DIR) then on_fs (iunlockput ip);;; end_op;;; ret (-1)
      else
        on_fs (iunlock ip);;;
        c <- on_fs (gets cwd);;
        on_fs (iput c);;;
        on_fs (modify (fun f => mkFs (cache f) (dsk f) (held f) (sb f) (datastart f) (itable f) ip (umem f)));;;
        end_op;;; ret 0
    end
  end.

Definition sys_close : M sys Z :=
  a <- arguint64 0;;
  let fd := s32 a in
  o <- fd_file fd;;
  match o with
  | None => ret (-1)
  | Some f =>
    l <- gets ofile;; modify (with_ofile (<[Z.to_nat fd := None]> l));;;
    fileclose f;;; ret 0
  end.

(** The inode that [sys_open] opens, locked. *)
Definition open_inode (omode : Z) (path junk : list Z) : M sys (option Z) :=
  if negb (Z.land omode O_CREATE =? 0) then on_fs (create path junk T_FILE 0 0)
  else
    r <- on_fs (namei path junk);;
    match r with
    | None => ret None
    | Some ip =>
      on_fs (ilock (Some ip));;;
      x <- on_fs (geti ip);;
      if (itype x =? T_DIR) && negb (omode =? O_RDONLY) then on_fs (iunlockput ip);;; ret None
      else ret (Some ip)
    end.

(** The fields of the new file. *)
Definition open_file (omode ip : Z) (x : inode_t) (f : file_t) : file_t :=
  let dev := itype x =? T_DEVICE in
  mkFile (if dev then FD_DEVICE else FD_INODE) (ref f)
         (Z.land omode O_WRONLY =? 0)
         (negb (Z.land omode O_WRONLY =? 0) || negb (Z.land omode O_RDWR =? 0))
         (if dev then major x else fmajor f) (Some ip) (if dev then off f else 0).

Definition sys_open (junk : list Z) : M sys Z :=
  omode <- arguint64 1;;
  r <- argstr 0 MAXPATH;;
  match r with
  | None => ret (-1)
  | Some path =>
    begin_op;;;
    o <- open_inode omode path junk;;
    match o with
    | None => end_op;;; ret (-1)
    | Some ip =>
      x <- on_fs (geti ip);;
      if (itype x =? T_DEVICE) && ((major x <? 0) || (DEV_MAX <=? major x)) then
        on_fs (iunlockput ip);;; end_op;;; ret (-1)
      else
        o <- filealloc;;
        fd <- (match o with None => ret (-1) | Some f => fdalloc f end);;
        match o with
        | None => on_fs (iunlockput ip);;; end_op;;; ret (-1)
        | Some f =>
          if fd <? 0 then fileclose f;;; on_fs (iunlockput ip);;; end_op;;; ret (-1)
          else
            y <- get_file f;;
            set_file f (open_file omode ip x y);;;
            when (negb (Z.land omode O_TRUNC =? 0) && (itype x =? T_FILE)) (on_fs (itrunc ip));;;
            on_fs (iunlock ip);;;
            end_op;;;
            set_a0 fd;;;
            ret 0
        end
    end
  end.

(** A call of a device function: its result and effect. *)
Definition dev_call (f : Z -> Z -> Z -> U * V -> Z * (U * V)) (x y z : Z) : M sys Z := fun s =>
  let '(r, (u, v)) := f x y z (umem (fsys s), devs s) in
  Done (r, mkSys (set_umem u (fsys s)) (files s) (ofile s) (tf s) (fs_lock s) v).

(** [devsw[f->major]] *)
Definition devsw {R} (major : Z) (f : Z -> option R) : M sys (option R) :=
  if (major <? 0) || (DEV_MAX <=? major) then fault else ret (f major).

Definition file_ip (x : file_t) : M sys Z := match ip x with Some i => ret i | None => fault end.
Definition add_off (f : nat) (n : Z) : M sys unit :=
  x <- get_file f;;
  set_file f (mkFile (type x) (ref x) (readable x) (writable x) (fmajor x) (ip x) (u32 (off x + n))).

Definition sys_write : M sys Z :=
  t <- gets tf;;
  let fd := s32 (a0 t) in let buf := a1 t in let count := s32 (a2 t) in
  o <- fd_file fd;;
  match o with
  | None => ret (-1)
  | Some f =>
    x <- get_file f;;
    match type x with
    | FD_DEVICE =>
      d <- devsw (fmajor x) dev_write;;
      match d with
      | None => ret (-1)
      | Some w => r <- dev_call w 1 buf (u64 count);; set_a0 r;;; ret (-1)
      end
    | FD_INODE =>
      begin_op;;;
      i <- file_ip x;;
      on_fs (ilock (Some i));;;
      if negb (writable x) then on_fs (iunlock i);;; ret (-1)
      else
        n <- on_fs (writei i buf (off x) (u32 count));;
        let n := s32 n in
        when (0 <? n) (add_off f n);;;
        on_fs (iunlock i);;;
        end_op;;;
        set_a0 n;;; ret (-1)
    | FD_NONE => ret (-1)
    end
  end.

Definition sys_read : M sys Z :=
  t <- gets tf;;
  let fd := s32 (a0 t) in let buf := a1 t in let count := s32 (a2 t) in
  o <- fd_file fd;;
  match o with
  | None => ret (-1)
  | Some f =>
    x <- get_file f;;
    match type x with
    | FD_DEVICE =>
      d <- devsw (fmajor x) dev_read;;
      match d with
      | None => ret (-1)
      | Some r => n <- dev_call r 1 buf (u64 count);; set_a0 n;;; ret (-1)
      end
    | FD_INODE =>
      i <- file_ip x;;
      on_fs (ilock (Some i));;;
      if negb (readable x) then on_fs (iunlock i);;; ret (-1)
      else
        '(n, _) <- on_fs (readi i (Some buf) (off x) (u32 count));;
        let n := s32 n in
        when (0 <? n) (add_off f n);;;
        on_fs (iunlock i);;;
        set_a0 n;;; ret (-1)
    | FD_NONE => ret (-1)
    end
  end.

Definition sys_ioctl : M sys Z :=
  t <- gets tf;;
  let fd := s32 (a0 t) in let request := s32 (a1 t) in let buf := a2 t in
  o <- fd_file fd;;
  match o with
  | None => set_a0 (-1);;; ret (-1)
  | Some f =>
    x <- get_file f;;
    match type x with
    | FD_DEVICE =>
      d <- devsw (fmajor x) dev_ioctl;;
      match d with
      | None => set_a0 (-1);;; ret (-1)
      | Some g => r <- dev_call g request 1 buf;; set_a0 r;;; set_a0 (-1);;; ret (-1)
      end
    | _ => set_a0 (-1);;; ret (-1)
    end
  end.

End Sysfile.

Arguments sys : clear implicits.
