(* ===== verification/SysfileProofs.v ===== *)
(** * Descriptors and reference counts *)
From S2P Require Import Prelude Fs Sysfile.

Section Proofs.
Context {U V : Type} `{!UserCopy U} `{!UserStr U} `{!DevSw U V}.
Implicit Types (s : sys U V).

(** ** Partial-correctness triples *)

Definition triple {R} (P : sys U V -> Prop) (m : M (sys U V) R) (Q : R -> sys U V -> Prop) : Prop :=
  forall s r s', P s -> m s = Done (r, s') -> Q r s'.

Lemma triple_bind {R R'} P (m : M (sys U V) R) Q (k : R -> M (sys U V) R') W :
  triple P m Q -> (forall r, triple (Q r) (k r) W) -> triple P (bind m k) W.
Proof.
  intros Hm Hk s r s' HP H. apply bind_inv in H as (a & s1 & E1 & E2). eapply Hk; [|exact E2]. by eapply Hm.
Qed.

Lemma triple_ret {R} (P : sys U V -> Prop) (r : R) (Q : R -> sys U V -> Prop) : (forall s, P s -> Q r s) -> triple P (ret r) Q.
Proof. intros H s r' s' HP [= <- <-]. by apply H. Qed.

Lemma triple_gets {R} (P : sys U V -> Prop) (f : sys U V -> R) (Q : R -> sys U V -> Prop) :
  (forall s, P s -> Q (f s) s) -> triple P (gets f) Q.
Proof. intros H s r' s' HP [= <- <-]. by apply H. Qed.

Lemma triple_modify (P : sys U V -> Prop) (f : sys U V -> sys U V) (Q : sys U V -> Prop) :
  (forall s, P s -> Q (f s)) -> triple P (modify f) (fun _ => Q).
Proof. intros H s r' s' HP [= <- <-]. by apply H. Qed.

(** ** The tables *)

(** How many of the task's descriptors refer to the file [f]. *)
Definition fds (l : list (option nat)) (f : nat) : Z := Z.of_nat (length (filter (fun o => o = Some f) l)).

(** The counts of the open files, where [others f] references are of other
    tasks and [extra f] are not in a descriptor yet. *)
Record tables (others extra : nat -> Z) (fl : list file_t) (ol : list (option nat)) : Prop := {
  tb_files : length fl = NOFILE;
  tb_ofile : length ol = NOFILE;
  tb_range : forall f, Some f ∈ ol -> (f < NOFILE)%nat;
  tb_ref : forall f x, fl !! f = Some x -> ref x = others f + extra f + fds ol f
}.
Definition counted (others extra : nat -> Z) s : Prop := tables others extra (files s) (ofile s).

Definition none (f : nat) : Z := 0.
Definition one (f g : nat) : Z := if decide (g = f) then 1 else 0.

(** A computation that leaves both tables alone. *)
Definition aside {R} (m : M (sys U V) R) : Prop := forall s r s', m s = Done (r, s') -> files s' = files s /\ ofile s' = ofile s.

Lemma aside_triple {R} (m : M (sys U V) R) o e : aside m -> triple (counted o e) m (fun _ => counted o e).
Proof. intros Hm s r s' HP H. apply Hm in H as [E1 E2]. unfold counted. by rewrite E1, E2. Qed.

Lemma aside_on_fs {R} (f : M (fs (U := U)) R) : aside (on_fs f).
Proof. intros s r s' H. unfold on_fs, zoom in H. destruct (f (fsys s)) as [[r0 t]| | | |]; by inversion H. Qed.
Lemma aside_ret {R} (r : R) : aside (ret r).
Proof. by intros s r' s' [= _ <-]. Qed.
Lemma aside_gets {R} (f : sys U V -> R) : aside (gets f).
Proof. by intros s r' s' [= _ <-]. Qed.
Lemma aside_bind {R R'} (m : M (sys U V) R) (k : R -> M (sys U V) R') : aside m -> (forall r, aside (k r)) -> aside (bind m k).
Proof.
  intros Hm Hk s r s' H. apply bind_inv in H as (a & s1 & E1 & E2). apply Hm in E1 as [F1 O1]. apply Hk in E2 as [F2 O2].
  split; congruence.
Qed.
Lemma aside_fault {R} : aside (R := R) fault.
Proof. by intros s r s'. Qed.
Lemma aside_begin : aside begin_op.
Proof. apply aside_bind; [apply aside_gets|]. intros n. destruct (n <=? 0); [by intros s r s'|]. by intros s r s' [= _ <-]. Qed.
Lemma aside_end : aside end_op.
Proof. apply aside_bind; [apply aside_gets|]. by intros n s r s' [= _ <-]. Qed.
Lemma aside_set_a0 v : aside (set_a0 v).
Proof. by intros s r s' [= _ <-]. Qed.
Lemma aside_arg pos : aside (arguint64 pos).
Proof. apply aside_bind; [apply aside_gets|]. intros t. apply aside_ret. Qed.
Lemma aside_get_file f : aside (get_file f).
Proof. intros s r s' H. unfold get_file in H. destruct (files s !! f); by inversion H. Qed.
Lemma aside_fd_file fd : aside (fd_file fd).
Proof.
  unfold fd_file. destruct (_ || _); [apply aside_ret|]. apply aside_bind; [apply aside_gets|].
  intros l. destruct (l !! Z.to_nat fd); [apply aside_ret|apply aside_fault].
Qed.
Lemma aside_dev f x y z : aside (dev_call f x y z).
Proof. intros s r s' H. unfold dev_call in H. destruct (f x y z _) as [r0 [u v]]. by inversion H. Qed.
Lemma aside_devsw {R} m (f : Z -> option R) : aside (devsw m f).
Proof. unfold devsw. destruct (_ || _); [apply aside_fault|apply aside_ret]. Qed.
Lemma aside_file_ip x : aside (file_ip x).
Proof. unfold file_ip. destruct (ip x); [apply aside_ret|apply aside_fault]. Qed.

Create HintDb aside.
Hint Resolve aside_on_fs aside_ret aside_gets aside_bind aside_begin aside_end aside_set_a0 aside_arg aside_get_file
  aside_fd_file aside_dev aside_devsw aside_file_ip aside_fault : aside.

(** [tri]: a step of a triple that leaves the tables alone. *)
Ltac tri := eapply triple_bind; [apply aside_triple; by auto with aside|cbn beta; intros ?].
Tactic Notation "tri_as" ident(x) := eapply triple_bind; [apply aside_triple; by auto with aside|cbn beta; intros x].
Ltac tri_ret := apply triple_ret; auto.

(** ** Changes of a table *)

Lemma tables_file o e fl ol f x x' : tables o e fl ol -> fl !! f = Some x -> ref x' = ref x -> tables o e (<[f := x']> fl) ol.
Proof.
  intros [H1 H2 H3 H4] Hx Hr. split; [by rewrite length_insert|done|done|].
  intros g y. destruct (decide (g = f)) as [->|Hne].
  - rewrite list_lookup_insert_eq by (by eapply lookup_lt_Some). intros [= <-]. rewrite Hr. by apply H4.
  - rewrite list_lookup_insert_ne by done. apply H4.
Qed.

Lemma tables_ref o e e' fl ol f x n : tables o e fl ol -> fl !! f = Some x -> n = ref x + (e' f - e f) ->
  (forall g, g <> f -> e' g = e g) -> tables o e' (<[f := with_fref n x]> fl) ol.
Proof.
  intros [H1 H2 H3 H4] Hx Hn He. split; [by rewrite length_insert|done|done|].
  intros g y. destruct (decide (g = f)) as [->|Hne].
  - rewrite list_lookup_insert_eq by (by eapply lookup_lt_Some). intros [= <-]. cbn. rewrite Hn, (H4 f x Hx). lia.
  - rewrite list_lookup_insert_ne, He by done. apply H4.
Qed.

Lemma fds_insert l fd o f old : l !! fd = Some old ->
  fds (<[fd := o]> l) f = fds l f - (if decide (old = Some f) then 1 else 0) + (if decide (o = Some f) then 1 else 0).
Proof.
  intros Hold. unfold fds. pose proof (lookup_lt_Some _ _ _ Hold) as Hlt. rewrite (insert_take_drop l fd o Hlt).
  assert (l = take fd l ++ old :: drop (S fd) l) as El by (symmetry; by apply take_drop_middle).
  assert (length (filter (fun o => o = Some f) l) = length (filter (fun o => o = Some f) (take fd l ++ old :: drop (S fd) l))) as ->
    by (by rewrite <- El).
  rewrite !filter_app, !filter_cons, !length_app.
  destruct (decide (old = Some f)), (decide (o = Some f)); cbn; lia.
Qed.

Lemma tables_fd o e e' fl ol fd old new : tables o e fl ol -> ol !! fd = Some old ->
  (forall f, e' f = e f + (if decide (old = Some f) then 1 else 0) - (if decide (new = Some f) then 1 else 0)) ->
  (forall f, new = Some f -> (f < NOFILE)%nat) -> tables o e' fl (<[fd := new]> ol).
Proof.
  intros [H1 H2 H3 H4] Hold He Hnew. split; [done|by rewrite length_insert| |].
  - intros f Hf. apply list_elem_of_lookup in Hf as [i Hi]. destruct (decide (i = fd)) as [->|Hne].
    + rewrite list_lookup_insert_eq in Hi by (by eapply lookup_lt_Some). injection Hi as ->. by apply Hnew.
    + rewrite list_lookup_insert_ne in Hi by done. apply H3. by eapply list_elem_of_lookup_2.
  - intros f x Hx. rewrite (fds_insert _ _ _ _ _ Hold), He, (H4 f x Hx). lia.
Qed.

(** The references of other tasks, a number that an [int] counts with room to
    spare. *)
Definition few (o : nat -> Z) : Prop := forall f, 0 <= o f < 2 ^ 30.

Lemma fds_range l f : 0 <= fds l f <= Z.of_nat (length l).
Proof. unfold fds. pose proof (length_filter (fun o => o = Some f) l). lia. Qed.

Lemma fileclose_triple o f e : few o -> (forall g, 0 <= e g <= 1) -> e f = 1 ->
  triple (counted o e) (fileclose f) (fun _ => counted o (fun g => e g - one f g)).
Proof.
  intros Ho He Hf s r s' HP H. apply bind_inv in H as (x & s1 & E1 & E2). unfold get_file in E1.
  destruct (files s !! f) as [y|] eqn:Ey; [|done]. injection E1 as <- <-. injection E2 as <- <-.
  unfold counted in *. cbn. pose proof (tb_ref _ _ _ _ HP f y Ey) as Hr. pose proof (fds_range (ofile s) f) as Hfd.
  rewrite (tb_ofile _ _ _ _ HP) in Hfd. unfold NOFILE in Hfd. specialize (Ho f).
  apply (tables_ref o e _ _ _ f y); [done|done| |].
  - unfold one. rewrite decide_True by done. unfold s32. rewrite Z.mod_small; lia.
  - intros g Hg. unfold one. rewrite decide_False by done. lia.
Qed.

Lemma counted_ext o e e' s : (forall f, e f = e' f) -> counted o e s -> counted o e' s.
Proof. intros He [H1 H2 H3 H4]. split; try done. intros f x Hx. rewrite <- He. by apply H4. Qed.

Lemma filealloc_triple o : triple (counted o none) filealloc (fun r => match r with Some f => counted o (one f) | None => counted o none end).
Proof.
  intros s r s' HP H. apply bind_inv in H as (l & s1 & [= <- <-] & E2).
  destruct (list_find (fun x => ref x = 0) (files s)) as [[f x]|] eqn:Ef; [|by injection E2 as <- <-].
  apply bind_inv in E2 as (u & s2 & [= <- <-] & [= <- <-]). apply list_find_Some in Ef as (Hx & Hr & _).
  unfold counted in *. cbn. apply (tables_ref o none _ _ _ f x); [done|done| |].
  - unfold one, none. rewrite decide_True by done. lia.
  - intros g Hg. unfold one, none. by rewrite decide_False.
Qed.

Lemma fdalloc_triple o f : (f < NOFILE)%nat ->
  triple (counted o (one f)) (fdalloc f) (fun fd => if fd <? 0 then counted o (one f) else counted o none).
Proof.
  intros Hlt s r s' HP H. apply bind_inv in H as (l & s1 & [= <- <-] & E2).
  destruct (list_find (fun x => x = None) (ofile s)) as [[fd x]|] eqn:Ef; [|by injection E2 as <- <-].
  apply bind_inv in E2 as (u & s2 & [= <- <-] & [= <- <-]). apply list_find_Some in Ef as (Hx & -> & _).
  rewrite (proj2 (Z.ltb_ge _ _)) by lia. unfold counted in *. cbn. eapply (tables_fd o (one f)); [done|exact Hx| |by intros g [= <-]].
  intros g. unfold one, none. rewrite (decide_False (P := None = Some g)) by done.
  destruct (decide (g = f)) as [->|Hne]; [by rewrite decide_True|]. rewrite decide_False; [done|congruence].
Qed.

(** ** The system calls *)

Lemma filealloc_range o : triple (counted o none) filealloc (fun r s => (match r with Some f => (f < NOFILE)%nat | None => True end) /\
  match r with Some f => counted o (one f) s | None => counted o none s end).
Proof.
  intros s r s' HP H. pose proof (filealloc_triple o s r s' HP H) as HQ. split; [|by destruct r].
  destruct r as [f|]; [|done]. apply bind_inv in H as (l & s1 & [= <- <-] & E2).
  destruct (list_find (fun x => ref x = 0) (files s)) as [[g x]|] eqn:Ef; [|done].
  apply bind_inv in E2 as (u & s2 & [= <- <-] & [= <- <-]). apply list_find_Some in Ef as (Hx & _).
  apply lookup_lt_Some in Hx. by rewrite (tb_files _ _ _ _ HP) in Hx.
Qed.

Lemma set_file_triple o e f x : (forall s, counted o e s -> exists y, files s !! f = Some y /\ ref x = ref y) ->
  triple (counted o e) (set_file f x) (fun _ => counted o e).
Proof.
  intros H s r s' HP [= <- <-]. destruct (H s HP) as (y & Hy & Hr). unfold counted in *. cbn. by eapply tables_file.
Qed.

(** Reading a file and writing it back with its count. *)
Lemma update_triple o e f (g : file_t -> file_t) : (forall x, ref (g x) = ref x) ->
  triple (counted o e) (x <- get_file f;; set_file f (g x)) (fun _ => counted o e).
Proof.
  intros Hg s r s' HP H. apply bind_inv in H as (x & s1 & E1 & [= <- <-]). unfold get_file in E1.
  destruct (files s !! f) as [y|] eqn:Ey; [|done]. injection E1 as <- <-. unfold counted in *. cbn. by eapply tables_file.
Qed.

Lemma open_inode_aside om path junk : aside (open_inode om path junk).
Proof.
  unfold open_inode. destruct (negb _); [auto with aside|]. apply aside_bind; [auto with aside|]. intros [i|]; [|auto with aside].
  apply aside_bind; [auto with aside|]. intros _. apply aside_bind; [auto with aside|]. intros x.
  destruct (_ && _); auto with aside.
Qed.
Hint Resolve open_inode_aside : aside.

Lemma aside_when b (m : M (sys U V) unit) : aside m -> aside (when b m).
Proof. destruct b; [done|]. intros _. apply aside_ret. Qed.

Lemma aside_arg_str pos n : aside (argstr pos n).
Proof. unfold argstr. apply aside_bind; [auto with aside|]. intros u. by intros s r s' [= _ <-]. Qed.
Hint Resolve aside_arg_str aside_when : aside.

(** The end of [sys_open], with the file [f] allocated. *)
Lemma open_end_triple o om i x f : few o -> (f < NOFILE)%nat ->
  triple (counted o (one f))
    (fd <- fdalloc f;;
     if fd <? 0 then fileclose f;;; on_fs (iunlockput i);;; end_op;;; ret (-1)
     else
       y <- get_file f;;
       set_file f (open_file om i x y);;;
       when (negb (Z.land om O_TRUNC =? 0) && (itype x =? T_FILE)) (on_fs (itrunc i));;;
       on_fs (iunlock i);;; end_op;;; set_a0 fd;;; ret 0)
    (fun _ => counted o none).
Proof.
  intros Ho Hf. eapply triple_bind; [by apply fdalloc_triple|]. intros fd. cbn beta. destruct (fd <? 0).
  - eapply triple_bind.
    { apply (fileclose_triple o f (one f)); [done|intros g; unfold one; by case_decide|unfold one; by rewrite decide_True]. }
    cbn beta. intros _. tri. tri. apply triple_ret. intros s. apply counted_ext. intros g. unfold none. lia.
  - intros s r s' HP H. rewrite <- bind_assoc in H. revert s r s' HP H.
    apply (triple_bind _ _ (fun _ => counted o none)); [apply (update_triple o none f (open_file om i x)); done|].
    intros _. tri. tri. tri. tri. tri_ret.
Qed.

Lemma when_off_triple o f (n : Z) : triple (counted o none) (when (0 <? n) (add_off f n)) (fun _ => counted o none).
Proof.
  destruct (0 <? n); [|tri_ret].
  apply (update_triple o none f (fun x => mkFile (type x) (ref x) (readable x) (writable x) (fmajor x) (ip x) (u32 (off x + n)))). done.
Qed.

(** [sys_close] from the descriptor. *)
Lemma close_triple o fd : few o ->
  triple (counted o none)
    (p <- fd_file fd;;
     match p with
     | None => ret (-1)
     | Some f => l <- gets ofile;; modify (with_ofile (<[Z.to_nat fd := None]> l));;; fileclose f;;; ret 0
     end) (fun _ => counted o none).
Proof.
  intros Ho s r s' HP H. apply bind_inv in H as (p & s1 & E1 & E2).
  destruct (aside_fd_file fd s p s1 E1) as [F1 O1]. destruct p as [f|].
  2:{ injection E2 as <- <-. unfold counted. by rewrite F1, O1. }
  assert (ofile s1 !! Z.to_nat fd = Some (Some f)) as Hfd.
  { unfold fd_file in E1. destruct (_ || _); [done|]. rewrite bind_gets in E1.
    destruct (ofile s !! Z.to_nat fd) as [q|] eqn:Eq; [|done]. injection E1 as -> <-. done. }
  rewrite bind_gets, bind_modify in E2. apply bind_inv in E2 as (u & s2 & E2 & [= <- <-]).
  assert (counted o (one f) (with_ofile (<[Z.to_nat fd := None]> (ofile s1)) s1)) as HP1.
  { unfold counted. cbn. rewrite F1, O1 in *. apply (tables_fd o none _ _ _ _ (Some f) None HP Hfd); [|done].
    intros g. unfold one, none. rewrite (decide_False (P := None = Some g)) by done.
    destruct (decide (g = f)) as [->|Hne]; [by rewrite (decide_True (P := Some f = Some f))|].
    rewrite (decide_False (P := Some f = Some g)); [done|congruence]. }
  assert (forall g, 0 <= one f g <= 1) as Hone by (intros g; unfold one; by case_decide).
  assert (one f f = 1) as Hff by (unfold one; by rewrite decide_True).
  pose proof (fileclose_triple o f (one f) Ho Hone Hff _ _ _ HP1 E2) as H2. eapply counted_ext; [|exact H2].
  intros g. unfold none. lia.
Qed.

(** C29. The counts of the open files are exact: every system call on
    files, successful or not, keeps both tables at their sizes, each
    descriptor inside the file table, and each file's count equal to the
    number of descriptors, of this task and of others, that refer to it. *)
Theorem descriptors_counted o : few o ->
  (forall junk, triple (counted o none) (sys_open junk) (fun _ => counted o none)) /\
  triple (counted o none) sys_close (fun _ => counted o none) /\
  triple (counted o none) sys_read (fun _ => counted o none) /\
  triple (counted o none) sys_write (fun _ => counted o none) /\
  triple (counted o none) sys_ioctl (fun _ => counted o none) /\
  (forall junk, triple (counted o none) (sys_chdir junk) (fun _ => counted o none)).
Proof.
  intros Ho. split_and!.
  - intros junk. unfold sys_open. tri_as om. tri_as p. destruct p as [path|]; [|tri_ret]. tri. tri_as i. destruct i as [i|]; [|tri; tri_ret].
    tri_as x. destruct (_ && _); [tri; tri; tri_ret|].
    eapply triple_bind; [apply filealloc_range|]. intros [f|]; cbn beta iota.
    + intros s1 v s' [Hf HP]. revert s1 v s' HP. exact (open_end_triple o om i x f Ho Hf).
    + intros s1 v s' [_ HP] H. rewrite bind_ret in H. revert s1 v s' HP H. change (triple (counted o none)
        (on_fs (iunlockput i);;; end_op;;; ret (-1)) (fun _ => counted o none)). tri. tri. tri_ret.
  - unfold sys_close. tri_as a. by apply close_triple.
  - unfold sys_read. tri_as t. tri_as oo. destruct oo as [f|]; [|tri_ret]. tri_as x. destruct (type x); [tri_ret| |].
    + tri_as d. destruct d as [d|]; [|tri_ret]. tri_as n. tri. tri_ret.
    + tri_as i. tri. destruct (negb _); [tri; tri_ret|]. tri_as n. destruct n as [n l]. eapply triple_bind; [apply when_off_triple|].
      cbn beta. intros _. tri. tri. tri_ret.
  - unfold sys_write. tri_as t. tri_as oo. destruct oo as [f|]; [|tri_ret]. tri_as x. destruct (type x); [tri_ret| |].
    + tri_as d. destruct d as [d|]; [|tri_ret]. tri_as n. tri. tri_ret.
    + tri. tri_as i. tri. destruct (negb _); [tri; tri_ret|]. tri_as n. eapply triple_bind; [apply when_off_triple|].
      cbn beta. intros _. tri. tri. tri. tri_ret.
  - unfold sys_ioctl. tri_as t. tri_as oo. destruct oo as [f|]; [|tri; tri_ret]. tri_as x. destruct (type x); [tri; tri_ret| |tri; tri_ret].
    tri_as d. destruct d as [d|]; [|tri; tri_ret]. tri_as n. tri. tri. tri_ret.
  - intros junk. unfold sys_chdir. tri_as a. apply (triple_bind _ _ (fun _ => counted o none)); [by intros s1 v s' HP [= <- <-]|]. intros s0.
    destruct (copy_str a MAXPATH _) as [path|]; [|tri_ret]. tri. tri_as i. destruct i as [i|]; [|tri; tri_ret].
    tri. tri_as x. destruct (negb _); [tri; tri; tri_ret|]. tri. tri_as c. tri. tri. tri. tri_ret.
Qed.
End Proofs.
