(* ===== verification/SysfileTheorems.v ===== *)
(** * What the system calls on files tell the user, and where they hang; a
    concrete state *)
From S2P Require Import Prelude Fs FsTheorems Sysfile SysfileProofs.

Section Theorems.
Context {U V : Type} `{!UserCopy U} `{!UserStr U} `{!DevSw U V}.
Implicit Types (s : sys U V).

(** ** Registers *)

(** [outcome m P]: [m] leaves the user's registers alone and returns a value
    in [P]. *)
Definition outcome {R} (m : M (sys U V) R) (P : R -> Prop) : Prop :=
  forall s r s', m s = Done (r, s') -> tf s' = tf s /\ P r.
Abbreviation quiet m := (outcome m (fun _ => True)).

Lemma quiet_bind {R R'} (m : M (sys U V) R) (k : R -> M (sys U V) R') P :
  quiet m -> (forall r, outcome (k r) P) -> outcome (bind m k) P.
Proof.
  intros Hm Hk s r s' H. apply bind_inv in H as (x & s1 & E1 & E2). apply Hm in E1 as [E1 _]. apply Hk in E2 as [E2 HP].
  split; [congruence|done].
Qed.
Lemma outcome_ret {R} (r : R) (P : R -> Prop) : P r -> outcome (ret r) P.
Proof. by intros HP s r' s' [= <- <-]. Qed.
Lemma quiet_on_fs {R} (f : M (fs (U := U)) R) : quiet (on_fs f).
Proof. intros s r s' H. unfold on_fs, zoom in H. destruct (f (fsys s)) as [[r0 t]| | | |]; by inversion H. Qed.
Lemma quiet_gets {R} (f : sys U V -> R) : quiet (gets f).
Proof. by intros s r s' [= _ <-]. Qed.
Lemma quiet_get : quiet (get : M (sys U V) _).
Proof. by intros s r s' [= _ <-]. Qed.
Lemma quiet_begin : quiet begin_op.
Proof. apply quiet_bind; [apply quiet_gets|]. intros n. destruct (n <=? 0); [by intros s r s'|]. by intros s r s' [= _ <-]. Qed.
Lemma quiet_end : quiet end_op.
Proof. apply quiet_bind; [apply quiet_gets|]. by intros n s r s' [= _ <-]. Qed.
Lemma quiet_arg pos : quiet (arguint64 pos).
Proof. apply quiet_bind; [apply quiet_gets|]. intros t. by apply outcome_ret. Qed.
Lemma quiet_argstr pos n : quiet (argstr pos n).
Proof. apply quiet_bind; [apply quiet_arg|]. intros u. apply quiet_bind; [apply quiet_get|]. intros s. by apply outcome_ret. Qed.
Lemma quiet_get_file f : quiet (get_file f).
Proof. intros s r s' H. unfold get_file in H. destruct (files s !! f); by inversion H. Qed.
Lemma quiet_set_file f x : quiet (set_file f x).
Proof. by intros s r s' [= _ <-]. Qed.
Lemma quiet_set_ofile l : quiet (modify (with_ofile l)).
Proof. by intros s r s' [= _ <-]. Qed.
Lemma quiet_fault {R} (P : R -> Prop) : outcome fault P.
Proof. by intros s r s'. Qed.
Lemma quiet_fd_file fd : quiet (fd_file fd).
Proof.
  unfold fd_file. destruct (_ || _); [by apply outcome_ret|]. apply quiet_bind; [apply quiet_gets|].
  intros l. destruct (l !! Z.to_nat fd); [by apply outcome_ret|apply quiet_fault].
Qed.
Lemma quiet_fileclose f : quiet (fileclose f).
Proof. apply quiet_bind; [apply quiet_get_file|]. intros x. apply quiet_set_file. Qed.
Lemma quiet_filealloc : quiet filealloc.
Proof.
  apply quiet_bind; [apply quiet_gets|]. intros l. destruct (list_find _ l) as [[f x]|]; [|by apply outcome_ret].
  apply quiet_bind; [apply quiet_set_file|]. intros u. by apply outcome_ret.
Qed.
Lemma quiet_fdalloc f : quiet (fdalloc f).
Proof.
  apply quiet_bind; [apply quiet_gets|]. intros l. destruct (list_find _ l) as [[fd x]|]; [|by apply outcome_ret].
  apply quiet_bind; [apply quiet_set_ofile|]. intros u. by apply outcome_ret.
Qed.

Create HintDb quiet.
Hint Resolve quiet_on_fs quiet_gets quiet_get quiet_begin quiet_end quiet_arg quiet_argstr quiet_get_file quiet_set_file
  quiet_set_ofile quiet_fd_file quiet_fileclose quiet_filealloc quiet_fdalloc : quiet.

Ltac quiet_step := apply quiet_bind; [by auto with quiet|intros ?].

Lemma quiet_open_inode om path junk : quiet (open_inode om path junk).
Proof.
  unfold open_inode. destruct (negb _); [auto with quiet|]. quiet_step. destruct r as [i|]; [|by apply outcome_ret].
  quiet_step. quiet_step. destruct (_ && _); [quiet_step|]; by apply outcome_ret.
Qed.
Hint Resolve quiet_open_inode : quiet.

(** A failure leaves the registers alone. *)
Definition fails_quietly (m : M (sys U V) Z) : Prop := forall s r s', m s = Done (r, s') -> r = 0 \/ r = -1 /\ tf s' = tf s.

Lemma fails_bind {R} (m : M (sys U V) R) k : quiet m -> (forall r, fails_quietly (k r)) -> fails_quietly (bind m k).
Proof.
  intros Hm Hk s r s' H. apply bind_inv in H as (x & s1 & E1 & E2). apply Hm in E1 as [E1 _].
  destruct (Hk x s1 r s' E2) as [->|[-> E]]; [by left|right]. split; [done|congruence].
Qed.
Lemma fails_ret r : r = 0 \/ r = -1 -> fails_quietly (ret r).
Proof. intros Hr s r' s' [= <- <-]. destruct Hr; [by left|by right]. Qed.
Lemma fails_zero {R} (m : M (sys U V) R) : fails_quietly (m;;; ret 0).
Proof. intros s r s' H. apply bind_inv in H as (x & s1 & _ & [= <- _]). by left. Qed.

Ltac fails_step := apply fails_bind; [by auto with quiet|intros ?].
Tactic Notation "fails_as" ident(x) := apply fails_bind; [by auto with quiet|intros x].
Ltac fails_end := apply fails_ret; auto.

Lemma quiet_when b m : quiet m -> quiet (when b m).
Proof. destruct b; [done|]. intros _. by apply outcome_ret. Qed.
Hint Resolve quiet_when : quiet.

Lemma sys_open_fails junk : fails_quietly (sys_open junk).
Proof.
  unfold sys_open. fails_as om. fails_as p. destruct p as [path|]; [|fails_end]. fails_step. fails_as oi.
  destruct oi as [i|]; [|fails_step; fails_end]. fails_as x. destruct (_ && _); [fails_step; fails_step; fails_end|].
  fails_as of_. destruct of_ as [f|].
  - fails_as fd. destruct (fd <? 0); [fails_step; fails_step; fails_step; fails_end|].
    fails_as y. fails_step. fails_step. fails_step. fails_step. apply fails_zero.
  - intros s1 v s' H. rewrite bind_ret in H. revert s1 v s' H. change (fails_quietly (on_fs (iunlockput i);;; end_op;;; ret (-1))).
    fails_step. fails_step. fails_end.
Qed.

(** Results of the other calls. *)
Definition returns_error (m : M (sys U V) Z) : Prop := forall s r s', m s = Done (r, s') -> r = -1.
Lemma error_bind {R} (m : M (sys U V) R) k : (forall r, returns_error (k r)) -> returns_error (bind m k).
Proof. intros Hk s r s' H. apply bind_inv in H as (x & s1 & _ & E2). by eapply Hk. Qed.
Lemma error_ret : returns_error (ret (-1)).
Proof. by intros s r s' [= <- _]. Qed.

Ltac error := repeat first [ apply error_ret | (apply error_bind; intros ?) | case_match ].

Lemma sys_ioctl_a0 s r s' : sys_ioctl s = Done (r, s') -> a0 (tf s') = 2 ^ 64 - 1.
Proof.
  assert (forall m : M (sys U V) unit, (m;;; set_a0 (-1);;; ret (-1)) s = Done (r, s') -> a0 (tf s') = 2 ^ 64 - 1) as Hend.
  { intros m H. apply bind_inv in H as (x & s1 & _ & [= <- <-]). done. }
  intros H. unfold sys_ioctl in H. rewrite bind_gets in H. apply bind_inv in H as (o & s1 & _ & H).
  destruct o as [f|]; [|by injection H as <- <-]. apply bind_inv in H as (x & s2 & _ & H).
  destruct (type x); [by injection H as <- <-| |by injection H as <- <-].
  apply bind_inv in H as (d & s3 & _ & H). destruct d as [g|]; [|by injection H as <- <-].
  apply bind_inv in H as (n & s4 & _ & H). by injection H as <- <-.
Qed.

(** The user cannot see whether a call worked.  The dispatcher drops
    what the system calls return, and: a failing [sys_open], and [sys_close]
    and [sys_chdir] always, leave the registers as they were, so the caller
    gets its own first argument back; [sys_read] and [sys_write] return -1 in
    every case; [sys_ioctl] overwrites the device's answer with -1. *)
Theorem results_lost : 
  (forall junk s s', sys_open junk s = Done (-1, s') -> tf s' = tf s) /\
  (forall s r s', sys_close s = Done (r, s') -> tf s' = tf s) /\
  (forall junk s r s', sys_chdir junk s = Done (r, s') -> tf s' = tf s) /\
  (forall s r s', sys_read s = Done (r, s') \/ sys_write s = Done (r, s') -> r = -1) /\
  (forall s r s', sys_ioctl s = Done (r, s') -> a0 (tf s') = 2 ^ 64 - 1).
Proof.
  split_and!.
  - intros junk s s' H. by destruct (sys_open_fails junk s _ s' H) as [?|[_ E]].
  - intros s r s' H. assert (quiet sys_close) as Hq; [|by apply Hq in H as [H _]]. unfold sys_close. quiet_step. quiet_step.
    destruct r1 as [f|]; [|by apply outcome_ret]. quiet_step. quiet_step. quiet_step. by apply outcome_ret.
  - intros junk s r s' H. assert (quiet (sys_chdir junk)) as Hq; [|by apply Hq in H as [H _]]. unfold sys_chdir.
    quiet_step. quiet_step. case_match; [|by apply outcome_ret]. quiet_step. quiet_step. case_match; [|quiet_step; by apply outcome_ret].
    quiet_step. quiet_step. destruct (negb _); [quiet_step; quiet_step; by apply outcome_ret|].
    quiet_step. quiet_step. quiet_step. quiet_step. quiet_step. by apply outcome_ret.
  - intros s r s' [H|H]; revert H; [assert (returns_error sys_read) as He|assert (returns_error sys_write) as He];
      [unfold sys_read; error|intros H; by apply He in H|unfold sys_write; error|intros H; by apply He in H].
  - intros s r s'. apply sys_ioctl_a0.
Qed.

(** ** Calls that never return *)

(** An inode in memory that nobody has locked. *)
Definition unlocked (f : fs (U := U)) (i : Z) (x : inode_t) : Prop :=
  itable f !! i = Some x /\ 1 <= iref x /\ lock x = 1 /\ valid x = true.

Lemma ilock_unlocked f i x : unlocked f i x ->
  ilock (Some i) f = Done (tt, set_itable (<[i := with_lock 0 x]> (itable f)) f).
Proof.
  intros (Hx & Hr & Hl & Hv). unfold ilock. unfold geti at 1. unfold bind at 1. rewrite Hx.
  rewrite (proj2 (Z.ltb_ge _ _)) by lia. unfold lm_P. unfold bind at 1. rewrite Hx, Hl. cbn.
  unfold geti, bind. cbn. rewrite lookup_insert_eq. cbn. by rewrite Hv.
Qed.

Lemma iunlock_back f i x : unlocked f i x ->
  iunlock i (set_itable (<[i := with_lock 0 x]> (itable f)) f) = Done (tt, f).
Proof.
  intros (Hx & _ & Hl & _). unfold iunlock, lm_V, seti. cbn. rewrite lookup_insert_eq, insert_insert_eq.
  destruct x, f; cbn in *. subst. by rewrite insert_id.
Qed.

Lemma on_fs_run {R} (m : M (fs (U := U)) R) s r f : m (fsys s) = Done (r, f) -> on_fs m s = Done (r, with_fsys f s).
Proof. intros E. unfold on_fs, zoom. by rewrite E. Qed.

Lemma on_fs_blocked {R} (m : M (fs (U := U)) R) s : m (fsys s) = Blocked -> on_fs m s = Blocked.
Proof. intros E. unfold on_fs, zoom. by rewrite E. Qed.

Lemma bind_blocked {W R Q} (m : M W R) (k : R -> M W Q) (w : W) : m w = Blocked -> bind m k w = Blocked.
Proof. intros E. unfold bind. by rewrite E. Qed.

Lemma arg0_run s : arguint64 0 s = Done (a0 (tf s), s).
Proof. done. Qed.
Lemma arg1_run s : arguint64 1 s = Done (a1 (tf s), s).
Proof. done. Qed.
Lemma argstr0_run n s : argstr 0 n s = Done (copy_str (a0 (tf s)) n (umem (fsys s)), s).
Proof. done. Qed.

(** *** The counter of [fs_lock] *)

(** [moves m P]: what [m] adds to the counter when it returns is in [P]. *)
Definition moves {R} (m : M (sys U V) R) (P : Z -> Prop) : Prop :=
  forall s r s', m s = Done (r, s') -> P (fs_lock s' - fs_lock s).
Abbreviation still m := (moves m (eq 0)).

Lemma moves_bind {R R'} (m : M (sys U V) R) (k : R -> M (sys U V) R') d P :
  moves m (eq d) -> (forall r, moves (k r) (fun x => P (d + x))) -> moves (bind m k) P.
Proof.
  intros Hm Hk s r s' H. apply bind_inv in H as (x & s1 & E1 & E2). apply Hm in E1. apply Hk in E2.
  by replace (fs_lock s' - fs_lock s) with (d + (fs_lock s' - fs_lock s1)) by lia.
Qed.
Lemma moves_ext {R} (m : M (sys U V) R) (P P' : Z -> Prop) : (forall d, P d -> P' d) -> moves m P -> moves m P'.
Proof. intros HP Hm s r s' H. by eapply HP, Hm. Qed.
Lemma moves_ret {R} (r : R) (P : Z -> Prop) : P 0 -> moves (ret r) P.
Proof. intros HP s r' s' [= _ <-]. by rewrite Z.sub_diag. Qed.
Lemma moves_fault {R} P : moves (fault : M (sys U V) R) P.
Proof. by intros s r s'. Qed.
Lemma still_on_fs {R} (f : M (fs (U := U)) R) : still (on_fs f).
Proof. intros s r s' H. unfold on_fs, zoom in H. destruct (f (fsys s)) as [[r0 t]| | | |]; inversion H. cbn. lia. Qed.
Lemma still_gets {R} (f : sys U V -> R) : still (gets f).
Proof. intros s r s' [= _ <-]. lia. Qed.
Lemma still_get : still (get : M (sys U V) _).
Proof. intros s r s' [= _ <-]. lia. Qed.
Lemma still_modify g : (forall s : sys U V, fs_lock (g s) = fs_lock s) -> still (modify g).
Proof. intros Hg s r s' [= _ <-]. rewrite Hg. lia. Qed.
Lemma still_get_file f : still (get_file f).
Proof. intros s r s' H. unfold get_file in H. destruct (files s !! f); inversion H. lia. Qed.
Lemma still_dev_call g x y z : still (dev_call g x y z).
Proof. intros s r s' H. unfold dev_call in H. destruct (g x y z _) as [n [u v]]. injection H as <- <-. cbn. lia. Qed.
Lemma moves_begin : moves begin_op (eq (-1)).
Proof.
  intros s r s' H. apply bind_inv in H as (n & s1 & [= <- <-] & H). destruct (_ <=? 0); [done|]. injection H as _ <-. cbn. lia.
Qed.
Lemma moves_end : moves end_op (eq 1).
Proof. intros s r s' H. apply bind_inv in H as (n & s1 & [= <- <-] & H). injection H as _ <-. cbn. lia. Qed.

Lemma still_ret {R} (r : R) : still (ret r : M (sys U V) R).
Proof. by apply moves_ret. Qed.

Create HintDb moves.
Hint Extern 1 (moves (match ?x with _ => _ end) _) => destruct x : moves.
Hint Resolve still_ret still_on_fs still_gets still_get still_modify still_get_file still_dev_call moves_begin moves_end : moves.

Ltac moves :=
  repeat first
    [ apply moves_fault
    | apply moves_ret
    | match goal with |- moves (match ?x with _ => _ end) _ => destruct x end
    | match goal with |- moves (bind _ _) _ => eapply moves_bind; [by auto with moves|intros ?] end
    | match goal with |- moves _ _ => eapply moves_ext; [|by auto with moves]; intros ? <- end
    | reflexivity ].

Lemma still_when b m : still m -> still (when b m).
Proof. destruct b; [done|]. intros _. by apply moves_ret. Qed.
Lemma still_set_file f x : still (set_file f x).
Proof. by apply still_modify. Qed.
Lemma still_set_a0 v : still (set_a0 v).
Proof. by apply still_modify. Qed.
Lemma still_arg pos : still (arguint64 pos).
Proof. unfold arguint64. moves. Qed.
Hint Resolve still_when still_set_file still_set_a0 still_arg : moves.
Lemma still_argstr pos n : still (argstr pos n).
Proof. unfold argstr. moves. Qed.
Lemma still_fd_file fd : still (fd_file fd).
Proof. unfold fd_file. moves. Qed.
Lemma still_file_ip x : still (file_ip x).
Proof. unfold file_ip. moves. Qed.
Lemma still_fileclose f : still (fileclose f).
Proof. unfold fileclose. moves. Qed.
Lemma still_filealloc : still filealloc.
Proof. unfold filealloc. moves. Qed.
Lemma still_fdalloc f : still (fdalloc f).
Proof. unfold fdalloc. moves. Qed.
Lemma still_add_off f n : still (add_off f n).
Proof. unfold add_off. moves. Qed.
Lemma still_devsw {R} n (g : Z -> option R) : still (devsw n g).
Proof. unfold devsw. moves. Qed.
Hint Resolve still_argstr still_fd_file still_file_ip still_fileclose still_filealloc still_fdalloc still_add_off still_devsw : moves.
Lemma still_open_inode om path junk : still (open_inode om path junk).
Proof. unfold open_inode. moves. Qed.
Hint Resolve still_open_inode : moves.

(** A system call of sysfile.c. *)
Inductive syscall : Type := Open (junk : list Z) | Close | Chdir (junk : list Z) | Read | Write | Ioctl.
Definition do_syscall (c : syscall) : M (sys U V) Z :=
  match c with
  | Open junk => sys_open junk | Close => sys_close | Chdir junk => sys_chdir junk
  | Read => sys_read | Write => sys_write | Ioctl => sys_ioctl
  end.

(** The call is a write to a regular file or directory that is not writable. *)
Definition writes_readonly (c : syscall) s : bool :=
  match c, fd_file (s32 (a0 (tf s))) s with
  | Write, Done (Some f, _) =>
      match files s !! f with Some x => bool_decide (type x = FD_INODE) && negb (writable x) | None => false end
  | _, _ => false
  end.

Lemma fd_file_state fd s o s' : fd_file fd s = Done (o, s') -> s' = s.
Proof.
  unfold fd_file. destruct (_ || _); [by intros [= _ <-]|]. rewrite bind_gets. destruct (_ !! _); [by intros [= _ <-]|done].
Qed.

Lemma do_syscall_moves c s r s' : do_syscall c s = Done (r, s') ->
  fs_lock s' = fs_lock s - (if writes_readonly c s then 1 else 0).
Proof.
  assert (forall m : M (sys U V) Z, still m -> m s = Done (r, s') -> fs_lock s' = fs_lock s - 0) as Hstill
    by (intros m Hm H; apply Hm in H; lia).
  destruct c; cbn [do_syscall writes_readonly].
  - apply Hstill. unfold sys_open. moves.
  - apply Hstill. unfold sys_close. moves.
  - apply Hstill. unfold sys_chdir. moves.
  - apply Hstill. unfold sys_read. moves.
  - unfold sys_write. rewrite bind_gets. intros H. apply bind_inv in H as (o & s1 & E & H). rewrite E.
    apply fd_file_state in E as ->. destruct o as [f|]; [|injection H as _ <-; lia].
    unfold get_file in H. unfold bind at 1 in H. destruct (files s !! f) as [x|] eqn:Ex; [|done].
    destruct (type x) eqn:Et.
    + injection H as _ <-. rewrite bool_decide_false by done. cbn. lia.
    + rewrite bool_decide_false by done. cbn [andb]. revert H. apply Hstill. moves.
    + rewrite bool_decide_true by done. cbn [andb]. destruct (writable x); cbn [negb] in *.
      * revert H. apply Hstill. moves.
      * assert (moves (begin_op;;; i <- file_ip x;; on_fs (ilock (Some i));;; on_fs (iunlock i);;; ret (-1)) (eq (-1))) as Hm by moves.
        apply Hm in H. lia.
  - apply Hstill. unfold sys_ioctl. moves.
Qed.

(** [serves n s s']: from [s] the kernel serves system calls of sysfile.c to
    [s'], [n] of them writes to read-only files.  Between two of them
    anything but the counter of [fs_lock] may change. *)
Inductive serves (s : sys U V) : Z -> sys U V -> Prop :=
| serves_none s' : fs_lock s' = fs_lock s -> serves s 0 s'
| serves_call n s1 c r s2 s' : serves s n s1 -> do_syscall c s1 = Done (r, s2) -> fs_lock s' = fs_lock s2 ->
    serves s (n + if writes_readonly c s1 then 1 else 0) s'.

Lemma serves_count s n s' : serves s n s' -> fs_lock s' = fs_lock s - n.
Proof.
  induction 1 as [s' E|n s1 c r s2 s' Hs IH Hc E]; [lia|]. apply do_syscall_moves in Hc. destruct (writes_readonly c s1); lia.
Qed.

Lemma begin_blocked s (Q : Type) (k : unit -> M (sys U V) Q) : fs_lock s <= 0 -> bind begin_op k s = Blocked.
Proof. intros Hl. apply bind_blocked. unfold begin_op. rewrite bind_gets. by rewrite (proj2 (Z.leb_le _ _) Hl). Qed.

(** C30. A write to a file opened read-only takes [fs_lock] for good: it
    returns with the semaphore one lower than before.  No sequence of the
    system calls of sysfile.c gives anything back: the counter goes down by
    one for each write to a read-only file and stays the same in every other
    call.  Once it is 0, every [open] and [chdir] with a readable path and
    every [write] to a file waits, in every state that such calls lead to.
    (The only signal without a wait is [exec]'s.) *)
Theorem write_readonly_wedges s n s' : serves s n s' ->
  fs_lock s' = fs_lock s - n /\
  (forall f x, fd_file (s32 (a0 (tf s'))) s' = Done (Some f, s') -> files s' !! f = Some x -> type x = FD_INODE ->
    if fs_lock s' <=? 0 then sys_write s' = Blocked
    else forall i y, writable x = false -> ip x = Some i -> unlocked (fsys s') i y ->
         sys_write s' = Done (-1, with_fs_lock (fs_lock s' - 1) s')) /\
  (fs_lock s' <= 0 -> forall junk p, copy_str (a0 (tf s')) MAXPATH (umem (fsys s')) = Some p ->
    sys_open junk s' = Blocked /\ sys_chdir junk s' = Blocked).
Proof.
  intros Hs. split; [by apply serves_count|]. clear Hs. split.
  - intros f x Hfd Hx Ht.
    assert (get_file f s' = Done (x, s')) as Hf by (unfold get_file; by rewrite Hx).
    destruct (Z.leb_spec (fs_lock s') 0) as [Hl|Hl]; [|intros i y Hw Hi Hu];
      unfold sys_write; rewrite bind_gets, (bind_done _ _ _ _ _ Hfd), (bind_done _ _ _ _ _ Hf), Ht; [by apply begin_blocked|].
    unfold begin_op. rewrite bind_assoc, bind_gets, (proj2 (Z.leb_gt _ _) Hl), bind_modify.
    set (s1 := with_fs_lock (fs_lock s' - 1) s'). unfold file_ip. rewrite Hi, bind_ret.
    rewrite (bind_done _ _ _ _ _ (on_fs_run _ s1 _ _ (ilock_unlocked (fsys s') i y Hu))). rewrite Hw. cbn [negb].
    rewrite (bind_done _ _ _ _ _ (on_fs_run _ (with_fsys _ s1) _ _ (iunlock_back (fsys s') i y Hu))). done.
  - intros Hl junk p Hp. split.
    + unfold sys_open. rewrite (bind_done _ _ _ _ _ (arg1_run s')), (bind_done _ _ _ _ _ (argstr0_run MAXPATH s')), Hp. by apply begin_blocked.
    + unfold sys_chdir. rewrite (bind_done _ _ _ _ _ (arg0_run s')), bind_get, Hp. by apply begin_blocked.
Qed.

(** Opening a regular file with [O_TRUNC] never returns: [sys_open]
    holds the inode's lock when it calls [itrunc], which asks for it again. *)
Theorem open_trunc_hangs s junk p i f1 x : fs_lock s = 1 -> copy_str (a0 (tf s)) MAXPATH (umem (fsys s)) = Some p ->
  Z.land (a1 (tf s)) O_CREATE = 0 -> Z.land (a1 (tf s)) O_TRUNC <> 0 ->
  namei p junk (fsys s) = Done (Some i, f1) -> unlocked f1 i x -> itype x = T_FILE ->
  (exists f y, list_find (fun z => ref z = 0) (files s) = Some (f, y) /\ (f < length (files s))%nat) ->
  (exists fd, list_find (fun o => o = None) (ofile s) = Some fd) ->
  sys_open junk s = Blocked.
Proof.
  intros Hl Hp Hc Ht Hn Hu Hty (f & y & Hf & Hlt) (fd & Hfd).
  unfold sys_open. rewrite (bind_done _ _ _ _ _ (arg1_run s)), (bind_done _ _ _ _ _ (argstr0_run MAXPATH s)), Hp. unfold begin_op. rewrite bind_assoc, bind_gets, Hl. cbn [Z.leb Z.compare]. rewrite bind_modify.
  set (s1 := with_fs_lock (1 - 1) s). unfold open_inode. rewrite Hc. cbn [negb Z.eqb].
  rewrite bind_assoc, (bind_done _ _ _ _ _ (on_fs_run _ s1 _ _ Hn)). set (s2 := with_fsys f1 s1).
  rewrite bind_assoc, (bind_done _ _ _ _ _ (on_fs_run _ s2 _ _ (ilock_unlocked f1 i x Hu))).
  set (f2 := set_itable _ f1). set (s3 := with_fsys f2 s2).
  assert (geti i f2 = Done (with_lock 0 x, f2)) as Hg by (unfold geti; cbn; by rewrite lookup_insert_eq).
  rewrite bind_assoc, (bind_done _ _ _ _ _ (on_fs_run _ s3 _ _ Hg)). cbn [itype with_lock]. rewrite Hty. change (T_FILE =? T_DIR) with false. cbn [andb].
  rewrite bind_ret, (bind_done _ _ _ _ _ (on_fs_run _ s3 _ _ Hg)). cbn [itype with_lock]. rewrite Hty. change (T_FILE =? T_DEVICE) with false. cbn [andb].
  unfold filealloc. rewrite bind_assoc, bind_gets. cbn [files s3 with_fsys s2 s1 with_fs_lock]. rewrite Hf, bind_assoc. unfold set_file at 1.
  rewrite bind_modify, bind_ret. unfold fdalloc. rewrite bind_assoc, bind_gets. unfold s3, s2, s1. cbn [ofile with_files with_fsys with_fs_lock].
  rewrite Hfd. destruct fd as [fd z]. rewrite bind_assoc, bind_modify, bind_ret. rewrite (proj2 (Z.ltb_ge _ _)) by lia.
  unfold get_file at 1. unfold bind at 1. cbn [files with_ofile with_files with_fsys with_fs_lock].
  rewrite list_lookup_insert_eq by done. unfold set_file. rewrite bind_modify.
  rewrite (proj2 (Z.eqb_neq _ _) Ht). change (T_FILE =? T_FILE) with true. cbn [negb andb when]. apply bind_blocked, on_fs_blocked.
  cbn [fsys with_files with_ofile with_fsys]. unfold itrunc. apply bind_blocked. unfold lm_P, f2. cbn. by rewrite lookup_insert_eq.
Qed.
End Theorems.

(** ** The theorems on open files at a concrete task

    The file system of [FsTheorems], where the empty path names the current
    directory's inode, a regular file. *)

#[export] Program Instance demo_str : UserStr unit := {
  copy_str p n _ := if (p =? 0) || (n <=? 0) then None else Some []
}.
Next Obligation.
  intros p n u l H. cbn beta in H. destruct ((p =? 0) || (n <=? 0)) eqn:E; [done|]. injection H as <-.
  apply orb_false_iff in E as [_ E]. apply Z.leb_gt in E. split; [cbn; lia|apply not_elem_of_nil].
Qed.

#[export] Instance no_devices : DevSw unit unit := {| dev_read _ := None; dev_write _ := None; dev_ioctl _ := None |}.

Definition free_file : file_t := mkFile FD_NONE 0 false false 0 None 0.
Definition demo_sys (a b : Z) : sys unit unit :=
  mkSys demo_fs (replicate NOFILE free_file) (replicate NOFILE None) (mkTf a b 0 0 0 0 0 0) 1 tt.

(** Descriptor 3 is the file 7, read-only. *)
Definition demo_rd : sys unit unit :=
  mkSys demo_fs (<[7%nat := mkFile FD_INODE 1 true false 0 (Some 0) 0]> (replicate NOFILE free_file))
    (<[3%nat := Some 7%nat]> (replicate NOFILE None)) (mkTf 3 4096 10 0 0 0 0 0) 1 tt.

Lemma demo_counted a b : counted (fun _ => 0) none (demo_sys a b).
Proof.
  split; cbn [files ofile demo_sys]; [done|done| |].
  - intros f Hf. apply elem_of_replicate_inv in Hf. done.
  - intros f x Hx. apply lookup_replicate in Hx as [-> _]. cbn [ref free_file]. unfold none, fds.
    assert (filter (fun o => o = Some f) (replicate NOFILE (None : option nat)) = []) as ->; [|done].
    clear. induction NOFILE as [|k IH]; [done|]. cbn [replicate]. rewrite filter_cons.
    rewrite decide_False by done. exact IH.
Qed.

Lemma demo_open : exists s', sys_open [] (demo_sys 8 0) = Done (0, s').
Proof.
  assert (match sys_open [] (demo_sys 8 0) with Done (0, _) => true | _ => false end = true) as H by (vm_compute; reflexivity).
  destruct (sys_open [] (demo_sys 8 0)) as [[[| |] s']| | | |]; try done. by exists s'.
Qed.

Lemma demo_few : few (fun _ => 0).
Proof. intros f. lia. Qed.

Lemma descriptors_counted_witness :
  exists s', sys_open [] (demo_sys 8 0) = Done (0, s') /\ counted (fun _ => 0) none s'.
Proof.
  destruct demo_open as [s' E]. exists s'. split; [exact E|].
  destruct (descriptors_counted (U := unit) (V := unit) (fun _ => 0) demo_few) as (H & _).
  exact (H [] _ _ _ (demo_counted 8 0) E).
Defined.

Lemma results_lost_witness :
  sys_open [] (demo_sys 0 0) = Done (-1, demo_sys 0 0) /\
  (forall s', sys_open [] (demo_sys 0 0) = Done (-1, s') -> tf s' = mkTf 0 0 0 0 0 0 0 0).
Proof.
  split; [vm_compute; reflexivity|]. intros s' E. destruct (results_lost (U := unit) (V := unit)) as (H & _).
  exact (H [] _ _ E).
Defined.

Lemma demo_unlocked : unlocked demo_fs 0 demo_file.
Proof. repeat split; try by vm_compute. Qed.

(** Another task opens a file after the write. *)
Lemma write_readonly_wedges_witness :
  serves demo_rd 1 (with_fs_lock 0 (demo_sys 8 0)) /\ sys_open [] (with_fs_lock 0 (demo_sys 8 0)) = Blocked.
Proof.
  assert (serves demo_rd 0 demo_rd) as H0 by (by apply serves_none).
  destruct (write_readonly_wedges demo_rd 0 demo_rd H0) as (_ & H & _).
  pose proof (H 7%nat (mkFile FD_INODE 1 true false 0 (Some 0) 0) eq_refl eq_refl eq_refl 0 demo_file eq_refl eq_refl demo_unlocked) as E.
  assert (serves demo_rd 1 (with_fs_lock 0 (demo_sys 8 0))) as H1 by (by apply (serves_call _ 0 demo_rd Write _ _ _ H0 E)).
  split; [exact H1|]. destruct (write_readonly_wedges _ _ _ H1) as (_ & _ & H2). apply (H2 ltac:(done) [] []). reflexivity.
Defined.

Lemma open_trunc_hangs_witness : sys_open [] (demo_sys 8 O_TRUNC) = Blocked.
Proof.
  apply (open_trunc_hangs (demo_sys 8 O_TRUNC) [] [] 0
    (set_itable (<[0 := with_ref 2 demo_file]> demo_itable) demo_fs) (with_ref 2 demo_file)).
  - reflexivity.
  - reflexivity.
  - reflexivity.
  - done.
  - reflexivity.
  - repeat split; try by vm_compute.
  - reflexivity.
  - exists 0%nat, free_file. split; [reflexivity|cbn; unfold NOFILE; lia].
  - by exists (0%nat, None).
Defined.
