(* ===== verification/Exec.v ===== *)
(** * Running a program: exec.c, and sys_exec of sysfile.c

    The file system, the memory of [Mmap] with its page tables, and of the
    task its trap frame, page table and regions.  What the code reads of a
    file into a local struct is a list of bytes; the local arrays whose
    addresses it passes on live in memory, at the addresses of [locals].
    After [bad:] the kernel panics, so the code that follows is left out. *)
From S2P Require Import Prelude RbTree Memory Klib Vm Mmap Fs.

Definition PGSIZE : Z := Vm.PGSIZE.
Definition MAXARG : Z := 32.
Definition MAXPATH : Z := 128.
Definition TRAPFRAME : Z := Vm.TRAMPOLINE - PGSIZE.
Definition USERRDONLY : Z := PHYSTOP - PGSIZE.
Definition USERRDONLYMAP : Z := TRAPFRAME - PGSIZE.
Definition VA_USERSTACK : Z := Mmap.VA_ANYNOMOUS - 2 * PGSIZE.

(** ** elf.h *)

Definition ELF_MAGIC : Z := 1179403647.      (* 0x464C457F *)
Definition ELF_PROG_LOAD : Z := 1.
Definition SIZEOF_ELFHDR : Z := 64.
Definition SIZEOF_PROGHDR : Z := 56.

Record elfhdr : Type := mkElf { magic : Z; elf_entry : Z; phoff : Z; phnum : Z }.
Definition elf_of (l : list Z) : elfhdr := mkElf (fld 4 0 l) (fld 8 24 l) (fld 8 32 l) (fld 2 56 l).

Record proghdr : Type := mkPh { ptype : Z; pflags : Z; poff : Z; vaddr : Z; filesz : Z; memsz : Z }.
Definition ph_of (l : list Z) : proghdr :=
  mkPh (fld 4 0 l) (fld 4 4 l) (fld 8 8 l) (fld 8 16 l) (fld 8 32 l) (fld 8 40 l).

Definition flags2perm (flags : Z) : Z :=
  let perm := PTE_R in
  let perm := if Z.land flags 1 =? 0 then perm else Z.lor perm PTE_X in
  if Z.land flags 2 =? 0 then perm else Z.lor perm PTE_W.

(** The members of the trap frame that exec uses. *)
Record trapframe_t : Type := mkTf { kernel_satp : Z; epc : Z; tf_sp : Z; tf_a0 : Z; tf_a1 : Z }.

(** Addresses: of the locals [path], [ustack] and [c], of the task's trap
    frame and of the trampoline. *)
Record addresses : Type := mkAddr { at_path : Z; at_ustack : Z; at_c : Z; at_trapframe : Z; at_trampoline : Z }.

Section Exec.
Context {A B U : Type} `{!PageAlloc A} `{!BlockAlloc B} `{!UserCopy U}.
Variable locals : addresses.

Record xst : Type := mkX {
  fsys : fs (U := U);
  mm : mst A B;
  fs_lock : Z;
  tsk : Mmap.task_t;
  tf : trapframe_t
}.

Definition on_fs {R} (f : M fs R) : M xst R := zoom fsys (fun x s => mkX x (mm s) (fs_lock s) (tsk s) (tf s)) f.
Definition on_mm {R} (f : M (mst A B) R) : M xst R := zoom mm (fun x s => mkX (fsys s) x (fs_lock s) (tsk s) (tf s)) f.
Definition on_vm {R} (f : M vst R) : M xst R := on_mm (Mmap.on_vm f).
Definition set_task (t : Mmap.task_t) : M xst unit := modify (fun s => mkX (fsys s) (mm s) (fs_lock s) t (tf s)).
Definition set_tf (f : trapframe_t -> trapframe_t) : M xst unit :=
  modify (fun s => mkX (fsys s) (mm s) (fs_lock s) (tsk s) (f (tf s))).

(** [end_op] of fs.c, [lm_V(&fs_lock)]. *)
Definition end_op : M xst unit := modify (fun s => mkX (fsys s) (mm s) (fs_lock s + 1) (tsk s) (tf s)).

(** [user_pagetable] of proc.c. *)
Definition user_pagetable : M xst Z :=
  pagetable <- on_vm vm_create;;
  if pagetable =? 0 then ret 0
  else
    r <- on_vm (vm_map pagetable Vm.TRAMPOLINE (at_trampoline locals) PGSIZE (Z.lor PTE_R PTE_X) false);;
    if r <? 0 then on_vm (free_page pagetable);;; ret 0
    else
      r <- on_vm (vm_map pagetable TRAPFRAME (at_trapframe locals) PGSIZE (Z.lor PTE_R PTE_W) false);;
      if r <? 0 then
        on_vm (vm_unmap pagetable Vm.TRAMPOLINE 1 false);;; on_vm (free_page pagetable);;; ret 0
      else
        r <- on_vm (uvm_map pagetable USERRDONLYMAP USERRDONLY PGSIZE PTE_R false);;
        if r <? 0 then
          on_vm (vm_unmap pagetable Vm.TRAMPOLINE 1 false);;;
          on_vm (vm_unmap pagetable TRAPFRAME 1 false);;;
          on_vm (free_page pagetable);;; ret 0
        else ret pagetable.

Fixpoint loadseg_loop (fuel : nat) (pagetable va ip offset sz i : Z) : M xst Z :=
  match fuel with
  | O => nofuel
  | S fuel =>
    if negb (i <? sz) then ret 0
    else
      pa <- on_vm (walkaddr pagetable (u64 (va + i)));;
      if pa =? 0 then panic "loadseg: address should exist"
      else
        let n := if u32 (sz - i) <? PGSIZE then u32 (sz - i) else PGSIZE in
        '(r, bytes) <- on_fs (readi ip None (u32 (offset + i)) n);;
        on_vm (on_mem (emit pa bytes));;;
        if negb (r =? n) then ret (-1)
        else loadseg_loop fuel pagetable va ip offset sz (u32 (i + PGSIZE))
  end.
Definition loadseg (pagetable va ip offset sz : Z) : M xst Z :=
  loadseg_loop (S (S (Z.to_nat (sz / PGSIZE)))) pagetable va ip offset sz 0.

Definition bad {R} : M xst R := panic "exec bad".

(** The loop over the program headers: [k] to go, the next at [off]. *)
Fixpoint load_segments (k : nat) (off ip obj pagetable : Z) : M xst unit :=
  match k with
  | O => ret tt
  | S k =>
    '(n, l) <- on_fs (readi ip None (u32 off) SIZEOF_PROGHDR);;
    let ph := ph_of l in
    if negb (n =? SIZEOF_PROGHDR) then bad
    else if negb (ptype ph =? ELF_PROG_LOAD) then load_segments k (s32 (off + SIZEOF_PROGHDR)) ip obj pagetable
    else if memsz ph <? filesz ph then bad
    else if u64 (vaddr ph + memsz ph) <? vaddr ph then bad
    else if negb (vaddr ph mod PGSIZE =? 0) then bad
    else
      maddr <- on_mm (mmap_by_obj obj pagetable (vaddr ph) (memsz ph) (flags2perm (s32 (pflags ph))) MAP_PRIVATE true);;
      if negb (maddr =? vaddr ph) then bad
      else
        r <- loadseg pagetable (vaddr ph) ip (u32 (poff ph)) (u32 (filesz ph));;
        if r <? 0 then bad
        else load_segments k (s32 (off + SIZEOF_PROGHDR)) ip obj pagetable
  end.

Definition align16 (sp : Z) : Z := sp - sp mod 16.

(** The argument strings from the one with index [argc] on; [ustack] is
    filled on the way.  The result is [argc] and [sp] at the end.  The tests
    [sp < stackbase] never hold: [stackbase] is 0. *)
Fixpoint push_args (pagetable : Z) (argv : list Z) (argc sp : Z) : M xst (Z * Z) :=
  match argv with
  | [] => on_vm (store64 (at_ustack locals + 8 * argc) 0);;; ret (argc, sp)
  | p :: argv =>
    if MAXARG <=? argc then bad
    else
      n <- on_vm (on_mem (strlen p));;
      let sp := align16 (u64 (sp - (n + 1))) in
      r <- on_vm (copyout pagetable sp p (n + 1));;
      if r <? 0 then bad
      else
        on_vm (store64 (at_ustack locals + 8 * argc) sp);;;
        push_args pagetable argv (argc + 1) sp
  end.

(** The argument strings and the array of their pointers, below [sp]. *)
Definition push_argv (pagetable : Z) (argv : list Z) (sp : Z) : M xst (Z * Z) :=
  '(argc, sp) <- push_args pagetable argv 0 sp;;
  let sp := align16 (u64 (sp - (argc + 1) * 8)) in
  r <- on_vm (copyout pagetable sp (at_ustack locals) ((argc + 1) * 8));;
  if r <? 0 then bad else ret (argc, sp).

(** [argv] holds the pointers before the null pointer. *)
Definition exec (path : list Z) (argv : list Z) (junk : list Z) : M xst Z :=
  ip <- on_fs (namei path junk);;
  match ip with
  | None => ret (-1)
  | Some ip =>
    on_fs (ilock (Some ip));;;
    '(n, l) <- on_fs (readi ip None 0 SIZEOF_ELFHDR);;
    let elf := elf_of l in
    if negb (n =? SIZEOF_ELFHDR) then bad
    else if negb (magic elf =? ELF_MAGIC) then bad
    else
      pagetable <- user_pagetable;;
      if pagetable =? 0 then bad
      else
        obj <- on_mm mmap_create;;
        if obj =? 0 then bad
        else
          load_segments (Z.to_nat (phnum elf)) (s32 (phoff elf)) ip obj pagetable;;;
          on_fs (iunlockput ip);;;
          addr <- on_mm (mmap_by_obj obj pagetable VA_USERSTACK (2 * PGSIZE) (Z.lor PERM_R PERM_W) MAP_PRIVATE true);;
          if addr =? 0 then bad
          else
            '(argc, sp) <- push_argv pagetable argv (VA_USERSTACK + 2 * PGSIZE);;
            set_tf (fun f => mkTf (kernel_satp f) (epc f) (tf_sp f) (tf_a0 f) sp);;;
            set_tf (fun f => mkTf (kernel_satp f) (epc f) (tf_sp f) argc (tf_a1 f));;;
            t <- gets tsk;;
            when (negb (Mmap.pagetable t =? 0)) (on_vm (free_pagetable 4 (Mmap.pagetable t) false));;;
            when (negb (mmap_obj t =? 0)) (on_mm (mmap_destroy (mmap_obj t)));;;
            set_task (mkTask obj pagetable);;;
            set_tf (fun f => mkTf 0 (epc f) (tf_sp f) (tf_a0 f) (tf_a1 f));;;
            set_tf (fun f => mkTf (kernel_satp f) (elf_entry elf) sp (tf_a0 f) (tf_a1 f));;;
            end_op;;;
            ret 0
  end.

(** ** sys_exec *)

Fixpoint free_args (argv : list Z) : M xst unit :=
  match argv with
  | [] => ret tt
  | p :: argv => on_vm (free_page p);;; free_args argv
  end.

(** The loop over the user's [argv], at index [i] with the pages [argv] so
    far; [k] turns are left.  The result is false at [bad]. *)
Fixpoint fetch_args (k : nat) (pt uargv i : Z) (argv : list Z) : M xst (bool * list Z) :=
  match k with
  | O => ret (false, argv)
  | S k =>
    '(r, uarg) <- on_vm (fetchaddr pt (u64 (uargv + 8 * i)));;
    match uarg with
    | None => ret (false, argv)
    | Some uarg =>
      if uarg =? 0 then ret (true, argv)
      else
        p <- on_vm malloc_page;;
        if p =? 0 then ret (false, argv)
        else
          r <- on_vm (fetchstr (at_c locals) pt uarg p PGSIZE);;
          if r <? 0 then ret (false, argv ++ [p]) else fetch_args k pt uargv (i + 1) (argv ++ [p])
    end
  end.

Definition sys_exec (a0 a1 : Z) (junk : list Z) : M xst Z :=
  t <- gets tsk;;
  r <- on_vm (copyinstr (Mmap.pagetable t) (at_path locals) a0 MAXPATH);;
  if r <? 0 then ret (-1)
  else
    path <- on_vm (on_mem (to_buf (Z.to_nat r) (at_path locals)));;
    '(ok, argv) <- fetch_args (Z.to_nat MAXARG) (Mmap.pagetable t) a1 0 [];;
    if negb ok then free_args argv;;; ret (-1)
    else
      r <- exec path argv junk;;
      free_args argv;;;
      ret r.
End Exec.
