(* ===== verification/ExecTheorems.v ===== *)
(** * Theorems on exec: what a successful call leaves behind, the memory that
    the segment loader and the argument stack build, and that every failure
    after the file is found stops the machine *)
From S2P Require Import Prelude RbTree RbSpec Memory Klib KlibProofs KlibTheorems Vm VmProofs VmTheorems Mmap MmapDemo Fs Blocks FsProofs FsTheorems Exec.

Section ExecTheorems.
Context {A B U : Type} `{!PageAlloc A} `{!BlockAlloc B} `{!UserCopy U}.
Variable locals : addresses.
#[local] Notation X := (xst (A := A) (B := B) (U := U)) (only parsing).

(** ** Routines that leave the task, its trap frame and the lock alone *)

Definition same (s s' : X) : Prop := fs_lock s' = fs_lock s /\ tsk s' = tsk s /\ tf s' = tf s.
Definition keeps {R} (f : M X R) : Prop := forall s r s', f s = Done (r, s') -> same s s'.

#[local] Instance same_preorder : PreOrder same.
Proof. split; [by intros s|]. intros s1 s2 s3 (H1 & H2 & H3) (G1 & G2 & G3). repeat split; congruence. Qed.

Lemma keeps_ret {R} (r : R) : keeps (ret r).
Proof. by intros s r' s' [= _ <-]. Qed.

Lemma keeps_gets {R} (f : X -> R) : keeps (gets f).
Proof. by intros s r' s' [= _ <-]. Qed.

Lemma keeps_panic {R} msg : keeps (panic msg : M X R).
Proof. done. Qed.

Lemma keeps_bind {R T} (f : M X R) (k : R -> M X T) : keeps f -> (forall r, keeps (k r)) -> keeps (bind f k).
Proof. intros Hf Hk s r s' (x & s1 & H1 & H2)%bind_inv. etrans; [by eapply Hf|by eapply Hk]. Qed.

Lemma keeps_fs {R} (f : M fs R) : keeps (on_fs f).
Proof. intros s r s' H. unfold on_fs, zoom in H. destruct (f (fsys s)) as [[r0 t]| | | |]; by inversion H. Qed.

Lemma keeps_mm {R} (f : M (mst A B) R) : keeps (on_mm f).
Proof. intros s r s' H. unfold on_mm, zoom in H. destruct (f (mm s)) as [[r0 t]| | | |]; by inversion H. Qed.

Lemma keeps_vm {R} (f : M vst R) : keeps (on_vm f).
Proof. apply keeps_mm. Qed.

Lemma keeps_when b (f : M X unit) : keeps f -> keeps (when b f).
Proof. by destruct b; [|intros _; apply keeps_ret]. Qed.

Create HintDb keeps discriminated.
#[local] Hint Resolve keeps_ret keeps_gets keeps_panic keeps_fs keeps_mm keeps_vm : keeps.

(** One construct of the monad at a time; what is left is a call. *)
Ltac keeps :=
  repeat (cbv zeta; first [ progress auto with keeps | apply keeps_bind; [|intros ?]
    | match goal with |- keeps (match ?x with _ => _ end) => destruct x end | progress unfold bad ]).

Lemma keeps_user_pagetable : keeps (user_pagetable locals).
Proof. unfold user_pagetable. keeps. Qed.

Lemma keeps_loadseg_loop fuel pt va ip offset sz : forall i, keeps (loadseg_loop fuel pt va ip offset sz i).
Proof. induction fuel as [|fuel IH]; intros i; cbn [loadseg_loop]; [done|]. keeps. Qed.

Lemma keeps_loadseg pt va ip offset sz : keeps (loadseg pt va ip offset sz).
Proof. apply keeps_loadseg_loop. Qed.
#[local] Hint Resolve keeps_loadseg : keeps.

Lemma keeps_load_segments k : forall off ip obj pt, keeps (load_segments k off ip obj pt).
Proof. induction k as [|k IH]; intros off ip obj pt; cbn [load_segments]; keeps. Qed.

Lemma keeps_push_args pt argv : forall argc sp, keeps (push_args locals pt argv argc sp).
Proof. induction argv as [|p argv IH]; intros argc sp; cbn [push_args]; keeps. Qed.
#[local] Hint Resolve keeps_user_pagetable keeps_load_segments keeps_push_args : keeps.

Lemma keeps_push_argv pt argv sp : keeps (push_argv locals pt argv sp).
Proof. unfold push_argv. keeps. Qed.
#[local] Hint Resolve keeps_push_argv : keeps.

Lemma keeps_run {R} (f : M X R) s r s' : keeps f -> f s = Done (r, s') -> same s s'.
Proof. intros H. apply H. Qed.

(** ** The arguments *)

Lemma push_args_count pt argv : forall argc sp (s : X) n sp' s', 0 <= argc <= MAXARG ->
  push_args locals pt argv argc sp s = Done ((n, sp'), s') -> n = argc + Z.of_nat (length argv) /\ n <= MAXARG.
Proof.
  induction argv as [|p argv IH]; intros argc sp s n sp' s' Ha H; cbn [push_args] in H.
  - apply bind_inv in H as ([] & s1 & _ & [= <- <- <-]). cbn. lia.
  - destruct (Z.leb_spec MAXARG argc); [done|].
    apply bind_inv in H as (l & s1 & _ & H). apply bind_inv in H as (r & s2 & _ & H).
    destruct (r <? 0); [done|]. apply bind_inv in H as ([] & s3 & _ & H).
    apply IH in H; [|lia]. cbn [length]. lia.
Qed.

Lemma align16_mod sp : align16 sp mod 16 = 0.
Proof. unfold align16. zdiv. Qed.

Lemma push_argv_count pt argv sp (s : X) n sp' s' : push_argv locals pt argv sp s = Done ((n, sp'), s') ->
  n = Z.of_nat (length argv) /\ n <= MAXARG /\ sp' mod 16 = 0.
Proof.
  unfold push_argv. intros ([argc sp1] & s1 & H1 & H)%bind_inv. apply push_args_count in H1 as [H1 H2]; [|unfold MAXARG; lia].
  apply bind_inv in H as (r & s2 & _ & H). destruct (r <? 0); [done|]. injection H as <- <- _.
  split; [lia|]. split; [done|]. apply align16_mod.
Qed.

(** What the calls of exec up to the ELF header return: the inode [ip], and
    [l] for the [n] bytes read; [f] is the file system then. *)
Definition header_read path junk (s : X) (ip n : Z) (l : list Z) (f : fs (U := U)) : Prop :=
  exists f1 f2, namei path junk (fsys s) = Done (Some ip, f1) /\ ilock (Some ip) f1 = Done (tt, f2) /\
    readi ip None 0 SIZEOF_ELFHDR f2 = Done ((n, l), f).

(** The task [s'] starts the program of the header [e] with [argc]
    arguments, in the place of the image that the task of [s] had. *)
Record new_image (s s' : X) (e : elfhdr) (argc : Z) : Prop := {
  image_task : mmap_obj (tsk s') <> 0 /\ Mmap.pagetable (tsk s') <> 0;
  image_entry : epc (tf s') = elf_entry e;
  image_args : tf_a0 (tf s') = argc /\ tf_a1 (tf s') = tf_sp (tf s') /\ argc <= MAXARG;
  image_stack : tf_sp (tf s') mod 16 = 0;
  image_satp : kernel_satp (tf s') = 0;
  image_lock : fs_lock s' = fs_lock s + 1
}.

Lemma on_fs_inv {R} (f : M fs R) (s : X) r s' :
  on_fs f s = Done (r, s') -> exists t, f (fsys s) = Done (r, t) /\ s' = mkX t (mm s) (fs_lock s) (tsk s) (tf s).
Proof. unfold on_fs, zoom. destruct (f (fsys s)) as [[r0 t]| | | |]; [|done..]. intros [= <- <-]. eauto. Qed.

(** A call of exec that returns either answers -1, and then the path
    named no file and nothing but the file system changed, or it answers 0:
    the file starts with an ELF header, and the task has a new page table and
    set of regions, its program counter is the header's entry point, [a0] is
    the number of arguments (at most 32), [a1] the stack pointer, which is a
    multiple of 16.  And a successful call releases [fs_lock], which it did
    not take. *)
Theorem exec_outcome path argv junk (s s' : X) r :
  exec locals path argv junk s = Done (r, s') ->
  (r = -1 /\ exists f, namei path junk (fsys s) = Done (None, f) /\ s' = mkX f (mm s) (fs_lock s) (tsk s) (tf s)) \/
  (r = 0 /\ exists ip l f, header_read path junk s ip SIZEOF_ELFHDR l f /\ magic (elf_of l) = ELF_MAGIC /\
    new_image s s' (elf_of l) (Z.of_nat (length argv))).
Proof.
  unfold exec. intros (o & s1 & (f1 & H1 & ->)%on_fs_inv & H)%bind_inv.
  destruct o as [ip|]; [right|left; injection H as <- <-; split; [done|by exists f1]].
  apply bind_inv in H as ([] & s2 & (f2 & H2 & ->)%on_fs_inv & H).
  apply bind_inv in H as ([n l] & s3 & (f3 & H3 & ->)%on_fs_inv & H).
  destruct (Z.eqb_spec n SIZEOF_ELFHDR) as [->|]; [|done].
  destruct (Z.eqb_spec (magic (elf_of l)) ELF_MAGIC) as [Hm|]; [|done]. cbn [negb] in H.
  apply bind_inv in H as (pt & s4 & H4%(keeps_run _ _ _ _ keeps_user_pagetable) & H).
  destruct (Z.eqb_spec pt 0) as [|Hpt]; [done|].
  apply bind_inv in H as (obj & s5 & H5%(keeps_run _ _ _ _ (keeps_mm _)) & H).
  destruct (Z.eqb_spec obj 0) as [|Hobj]; [done|].
  apply bind_inv in H as ([] & s6 & H6%(keeps_run _ _ _ _ (keeps_load_segments _ _ _ _ _)) & H).
  apply bind_inv in H as ([] & s7 & H7%(keeps_run _ _ _ _ (keeps_fs _)) & H).
  apply bind_inv in H as (addr & s8 & H8%(keeps_run _ _ _ _ (keeps_mm _)) & H).
  destruct (addr =? 0); [done|].
  apply bind_inv in H as ([argc sp] & s10 & H10 & H).
  apply push_argv_count in H10 as Hn. apply (keeps_run _ _ _ _ (keeps_push_argv _ _ _)) in H10.
  apply bind_inv in H as ([] & s11 & [= <-] & H). apply bind_inv in H as ([] & s12 & [= <-] & H).
  rewrite bind_gets in H.
  apply bind_inv in H as ([] & s13 & H13%(keeps_run _ _ _ _ (keeps_when _ _ (keeps_vm _))) & H).
  apply bind_inv in H as ([] & s14 & H14%(keeps_run _ _ _ _ (keeps_when _ _ (keeps_mm _))) & H).
  injection H as <- <-. split; [done|]. exists ip, l, f3. split; [by exists f1, f2|]. split; [done|].
  assert (same s s10) as (Hl & _ & _) by (do 5 (etrans; [eassumption|]); assumption).
  destruct H13 as (Hl13 & Ht13 & Hf13), H14 as (Hl14 & Ht14 & Hf14).
  cbn [tsk tf fs_lock] in *. destruct Hn as (-> & Hn & Hsp).
  split; cbn [tsk tf fs_lock mmap_obj Mmap.pagetable epc tf_a0 tf_a1 tf_sp kernel_satp]; rewrite ?Hf14, ?Hf13, ?Hl14, ?Hl13; try done.
  - by rewrite Hl.
Qed.

(** A file that exec finds and whose first 64 bytes are not there, or do
    not start with the ELF magic number, stops the whole machine in a panic. *)
Theorem exec_not_elf_panics path argv junk (s : X) ip n l f :
  header_read path junk s ip n l f -> (n <> SIZEOF_ELFHDR \/ magic (elf_of l) <> ELF_MAGIC) ->
  exec locals path argv junk s = Panic "exec bad".
Proof.
  intros (f1 & f2 & H1 & H2 & H3) Hbad. unfold exec, bind at 1, on_fs at 1, zoom at 1. rewrite H1.
  unfold bind at 1, on_fs at 1, zoom at 1. cbn [fsys]. rewrite H2.
  unfold bind at 1, on_fs at 1, zoom at 1. cbn [fsys]. rewrite H3.
  destruct (Z.eqb_spec n SIZEOF_ELFHDR); [|done]. destruct (Z.eqb_spec (magic (elf_of l)) ELF_MAGIC); [|done].
  by destruct Hbad.
Qed.

End ExecTheorems.

(** ** The memory that exec builds *)

Section ImageMemory.
Context {A B U : Type} `{!PageAlloc A} `{!BlockAlloc B} `{!UserCopy U}.
Variable locals : addresses.
#[local] Notation X := (xst (A := A) (B := B) (U := U)) (only parsing).
Implicit Types (m : mem) (T : dir).

(** The state with another memory. *)
Definition with_vm (v : vst (A := A)) (s : X) : X :=
  mkX (fsys s) (mkMst v (blocks (mm s)) (ref (mm s)) (ref_lock (mm s)) (objs (mm s)) (junk (mm s)) (drawn (mm s)))
      (fs_lock s) (tsk s) (tf s).

Lemma on_vm_bind {R Q} (f : M (vst (A := A)) R) r v (s : X) (k : R -> M X Q) :
  f (vm (mm s)) = Done (r, v) -> bind (on_vm f) k s = k r (with_vm v s).
Proof. intros E. unfold bind, on_vm, on_mm, Mmap.on_vm, zoom. by rewrite E. Qed.

(** The user sees the bytes [l] at [va]. *)
Definition user_bytes m T (va : Z) (l : list Z) : Prop :=
  forall i x, l !! i = Some x -> exists p, uva m T (va + Z.of_nat i) = Some p /\ m !! p = Some x.

(** *** loadseg *)

Lemma chars_slice off n l : chars l -> chars (slice off n l).
Proof. intros H. by apply Forall_take, Forall_drop. Qed.

Lemma page_step va i : va mod PGSIZE = 0 -> i mod PGSIZE = 0 -> Vm.PGROUNDDOWN (va + i) = va + i.
Proof. rewrite PGROUNDDOWN_eq. unfold PGSIZE, Vm.PGSIZE. intros ? ?. zdiv. Qed.

(** The user's addresses from [va] on, [n] of them, are mapped to different
    places, which are memory and no part of the table. *)
Definition mapped m T (va n : Z) : Prop :=
  (forall i, 0 <= i < n -> exists p, uva m T (va + i) = Some p /\ is_Some (m !! p) /\ off_table T p 1) /\
  (forall i j p, 0 <= i < n -> 0 <= j < n -> uva m T (va + i) = Some p -> uva m T (va + j) = Some p -> i = j).

Lemma mapped_sub m T va n i k : mapped m T va n -> 0 <= i -> i + k <= n -> mapped m T (va + i) k.
Proof.
  intros [H1 H2] Hi Hk. split.
  - intros j Hj. rewrite <- Z.add_assoc. apply H1. lia.
  - intros j1 j2 p Hj1 Hj2. rewrite <- !Z.add_assoc. intros E1 E2. pose proof (H2 (i + j1) (i + j2) p ltac:(lia) ltac:(lia) E1 E2). lia.
Qed.

Lemma mapped_inj m T va l n : mapped m T va n -> Z.of_nat (length l) <= n -> uva_inj m T va (length (l : list Z)).
Proof. intros [_ H] Hn i j p Hi Hj E1 E2. pose proof (H (Z.of_nat i) (Z.of_nat j) p ltac:(lia) ltac:(lia) E1 E2). lia. Qed.

Lemma mapped_copied root T va n v l m m' : copied root T v l m m' -> mapped m T va n -> mapped m' T va n.
Proof.
  intros Hc [H1 H2]. split.
  - intros i Hi. destruct (H1 i Hi) as (p & Hp & Hs & Ho). exists p. rewrite (cp_uva _ _ _ _ _ _ Hc).
    split; [done|]. split; [by apply Hc|done].
  - intros i j p Hi Hj. rewrite !(cp_uva _ _ _ _ _ _ Hc). by apply H2.
Qed.

(** A turn of the loop: the page at [va + i], or what is left of the segment. *)
Definition seg_part (sz i : Z) : Z := if sz - i <? PGSIZE then sz - i else PGSIZE.

Lemma seg_page m a root T va sz i : pt_wf m root T -> va mod PGSIZE = 0 -> 0 <= va -> mapped m T va sz -> sz <= 2 ^ 31 ->
  0 <= i < sz -> i mod PGSIZE = 0 ->
  exists p, walkaddr root (u64 (va + i)) (m, a) = Done (p, (m, a)) /\ p <> 0 /\ 0 < seg_part sz i <= sz - i /\
    forall j, 0 <= j < seg_part sz i -> uva m T (va + i + j) = Some (p + j).
Proof.
  intros Hw Hva Hva0 Hmap Hsz Hi Him. destruct (proj1 Hmap i ltac:(lia)) as (p & Hp & _ & _). exists p.
  destruct (user_turn m a root T (va + i) (sz - i) p Hw ltac:(lia) ltac:(lia) Hp) as (pa & HE & Hpa & Hpp & Hn & Hpj & _).
  assert (chunk (va + i) (sz - i) = seg_part sz i) as Hch.
  { unfold chunk, seg_part. rewrite page_step by done. unfold PGSIZE. replace (va + i - (va + i)) with 0 by lia. by rewrite Z.sub_0_r. }
  rewrite page_step in HE, Hpp by done. assert (pa = p) as -> by lia. rewrite Hch in *.
  assert (va + i < 2 ^ 64) as Hva64.
  { unfold uva in Hp. destruct (Z.leb_spec MAXVA (va + i)); [done|]. change MAXVA with (2 ^ 38) in *. lia. }
  assert (u64 (va + i) = va + i) as -> by (apply Z.mod_small; lia). split; [done|]. split; [done|]. by split.
Qed.

Lemma loadseg_turn root T ip x l va offset sz fuel i (s : X) m a : va mod PGSIZE = 0 -> 0 <= va -> chars l ->
  0 <= offset -> offset + sz <= isize x -> offset + sz <= Z.of_nat (length l) -> offset + sz <= MAXFILE * BSIZE ->
  vm (mm s) = (m, a) -> pt_wf m root T -> wf_mem m -> mapped m T va sz ->
  itable (fsys s) !! ip = Some x -> held (fsys s) = [] -> file_holds (fsys s) x l -> 0 <= i < sz -> i mod PGSIZE = 0 ->
  exists f1 m1, loadseg_loop (S fuel) root va ip offset sz i s =
      loadseg_loop fuel root va ip offset sz (i + PGSIZE) (mkX f1 (mm (with_vm (m1, a) s)) (fs_lock s) (tsk s) (tf s)) /\
    sees (fsys s) f1 /\ copied root T (va + i) (slice (offset + i) (seg_part sz i) l) m m1.
Proof.
  intros Hva Hva0 Hc Hoff Hsize Hlen Hmax Hs Hw Hwf Hmap Hx Hh Hl Hi Him.
  assert (sz <= 2 ^ 31 /\ offset <= 2 ^ 31) as [Hsz Hoff2] by (unfold MAXFILE, NDIRECT, NINDIRECT, BSIZE in Hmax; lia).
  destruct (seg_page m a root T va sz i Hw Hva Hva0 Hmap Hsz Hi Him) as (p & HE & Hp & Hn & Hpj).
  cbn [loadseg_loop]. rewrite (proj2 (Z.ltb_lt i sz)) by lia. cbn [negb].
  rewrite (on_vm_bind _ p (m, a)) by (rewrite Hs; exact HE). rewrite (proj2 (Z.eqb_neq _ 0)) by done.
  assert (u32 (sz - i) = sz - i) as -> by (apply Z.mod_small; lia). fold (seg_part sz i). set (n := seg_part sz i) in *.
  assert (u32 (offset + i) = offset + i) as -> by (apply Z.mod_small; lia).
  destruct (readi_reads (fsys s) ip x l (offset + i) n Hx Hh Hl ltac:(lia) ltac:(lia) ltac:(lia)) as (f1 & Hr & Hsee).
  set (bytes := slice (offset + i) n l) in *.
  assert (length bytes = Z.to_nat n) as Hbl by (apply length_slice; lia).
  unfold bind at 1, on_fs at 1, zoom at 1. change (fsys (with_vm (m, a) s)) with (fsys s). rewrite Hr.
  assert (forall j, 0 <= j < n -> is_Some (m !! (p + j)) /\ off_table T (p + j) 1) as Hphys.
  { intros j Hj. destruct (proj1 Hmap (i + j) ltac:(lia)) as (q & Hq & Ho). rewrite Z.add_assoc, Hpj in Hq by lia. by injection Hq as <-. }
  rewrite (on_vm_bind _ (p + Z.of_nat (length bytes)) (put_bytes p bytes m, a)).
  2: { cbn [mm with_vm vm]. unfold on_mem. cbn [fst snd]. rewrite emit_spec; [done|by apply chars_slice|].
       intros j Hj. apply Hphys. lia. }
  rewrite Z.eqb_refl. cbn [negb]. exists f1, (put_bytes p bytes m).
  assert (u32 (i + PGSIZE) = i + PGSIZE) as -> by (apply Z.mod_small; unfold PGSIZE, Vm.PGSIZE; lia).
  split; [done|]. split; [done|]. apply copied_chunk; [done|done|by apply chars_slice| |].
  - intros j Hj. apply Hpj. lia.
  - intros j Hj. apply Hphys. lia.
Qed.

Lemma loadseg_loop_spec root T ip x l va offset sz : va mod PGSIZE = 0 -> 0 <= va -> chars l ->
  0 <= offset -> offset + sz <= isize x -> offset + sz <= Z.of_nat (length l) -> offset + sz <= MAXFILE * BSIZE ->
  forall fuel i (s : X) m a, vm (mm s) = (m, a) -> pt_wf m root T -> wf_mem m -> mapped m T va sz ->
  itable (fsys s) !! ip = Some x -> held (fsys s) = [] -> file_holds (fsys s) x l ->
  0 <= i -> i mod PGSIZE = 0 -> (0 < fuel)%nat -> sz - i <= (Z.of_nat fuel - 1) * PGSIZE ->
  exists f' m', loadseg_loop fuel root va ip offset sz i s =
      Done (0, mkX f' (mm (with_vm (m', a) s)) (fs_lock s) (tsk s) (tf s)) /\ sees (fsys s) f' /\
    (sz <= i -> m' = m) /\ (i <= sz -> copied root T (va + i) (slice (offset + i) (sz - i) l) m m').
Proof.
  intros Hva Hva0 Hc Hoff Hsize Hlen Hmax. induction fuel as [|fuel IH]; intros i s m a Hs Hw Hwf Hmap Hx Hh Hl Hi Him Hf Hfs; [lia|].
  assert (0 < PGSIZE) as HPG by (unfold PGSIZE, Vm.PGSIZE; lia).
  destruct (Z.lt_ge_cases i sz) as [Hlt|Hge].
  2: { cbn [loadseg_loop]. rewrite (proj2 (Z.ltb_ge i sz)) by lia. exists (fsys s), m.
       split; [|split; [apply sees_refl|split; [done|]]].
       - unfold with_vm. rewrite <- Hs. by destruct s as [f [] ? ? ?].
       - intros Hle. assert (sz - i = 0) as -> by lia. by apply copied_nil. }
  destruct (loadseg_turn root T ip x l va offset sz fuel i s m a) as (f1 & m1 & -> & Hsee & Hc1); try done.
  pose proof Hsee as (_ & _ & Eh & _ & _ & Ei & _).
  destruct (IH (i + PGSIZE) (mkX f1 (mm (with_vm (m1, a) s)) (fs_lock s) (tsk s) (tf s)) m1 a) as (f' & m' & HE' & Hsee' & Hend & Hc2);
    cbn [fsys]; rewrite ?Ei, ?Eh; try done; try apply Hc1; try lia.
  - by eapply mapped_copied.
  - by eapply file_holds_sees.
  - rewrite <- Zplus_mod_idemp_l, Him. apply Z.mod_same. lia.
  - exists f', m'. split; [exact HE'|]. split; [by eapply sees_trans|]. split; [lia|]. intros _.
    unfold seg_part in Hc1. destruct (Z.ltb_spec (sz - i) PGSIZE) as [Hlast|Hmore]; [by rewrite Hend by lia|].
    replace (sz - i) with (PGSIZE + (sz - (i + PGSIZE))) by lia.
    rewrite <- slice_app by lia. rewrite <- (Z.add_assoc offset). eapply copied_app; [|exact Hc1|].
    + rewrite (Z.add_assoc offset), slice_app by lia.
      apply (mapped_inj _ _ _ _ (sz - i)); [apply (mapped_sub _ _ _ sz); [done|lia|lia]|].
      rewrite length_slice by lia. lia.
    + rewrite length_slice, Z2Nat.id, <- Z.add_assoc by lia. apply Hc2. lia.
Qed.

(** *** The argument stack *)

Lemma put_le_bytes n p v m : put_le n p v m = put_bytes p (le_bytes n v) m.
Proof. revert p v m. induction n as [|n IH]; intros p v m; [done|]. cbn [put_le le_bytes put_bytes]. apply IH. Qed.

Lemma chars_le_bytes n v : chars (le_bytes n v).
Proof. revert v. induction n as [|n IH]; intros v; constructor; [apply Z.mod_pos_bound; lia|apply IH]. Qed.

(** Words of 64 bits in memory. *)
Definition words (l : list Z) : list Z := concat (map (le_bytes 8) l).

Lemma length_words l : length (words l) = (8 * length l)%nat.
Proof. unfold words. induction l as [|v l IH]; [done|]. cbn [map concat]. rewrite length_app, length_le_bytes, IH. cbn [length]. lia. Qed.

(** The array [ustack] lies in memory outside of the table, the stack from
    [lo] to [top], and of the strings [strs] at [argv]. *)
Definition ustack_len : Z := 8 * MAXARG.
Definition off_ustack (p n : Z) : Prop := p + n <= at_ustack locals \/ at_ustack locals + ustack_len <= p.

Record ready m T (lo top : Z) (argv : list Z) (strs : list (list Z)) : Prop := {
  r_stack : mapped m T lo (top - lo);
  r_array : owned m (at_ustack locals) ustack_len /\ off_table T (at_ustack locals) ustack_len;
  r_apart : forall v p, lo <= v < top -> uva m T v = Some p -> off_ustack p 1;
  r_strs : Forall2 (fun p str => str_at m p str /\ off_ustack p (Z.of_nat (length str) + 1) /\
    forall v q, lo <= v < top -> uva m T v = Some q -> q < p \/ p + Z.of_nat (length str) < q) argv strs
}.

(** [m'] is [m] after writes to the stack below [hi] and to [ustack] from the
    address [w] on. *)
Record wrote root T (lo hi w : Z) m m' : Prop := {
  wr_wf : pt_wf m' root T;
  wr_bytes : wf_mem m';
  wr_uva : forall va, uva m' T va = uva m T va;
  wr_frame : forall q, (forall v, lo <= v < hi -> uva m T v <> Some q) -> (q < w \/ at_ustack locals + ustack_len <= q) -> m' !! q = m !! q;
  wr_dom : forall q, is_Some (m !! q) -> is_Some (m' !! q)
}.

Lemma wrote_trans root T lo hi hi' w w' m m1 m2 : hi' <= hi -> w <= w' ->
  wrote root T lo hi w m m1 -> wrote root T lo hi' w' m1 m2 -> wrote root T lo hi w m m2.
Proof.
  intros Hhi Hw [A1 A2 A3 A4 A5] [B1 B2 B3 B4 B5]. split; [done|done|intros v; by rewrite B3| |auto].
  intros q Hq1 Hq2. rewrite B4; [by apply A4| |lia]. intros v Hv. rewrite A3. apply Hq1. lia.
Qed.

Lemma copied_wrote root T lo hi w va l m m' : copied root T va l m m' -> lo <= va -> va + Z.of_nat (length l) <= hi ->
  wrote root T lo hi w m m'.
Proof.
  intros [A1 A2 A3 A4 A5 A6] Hlo Hhi. split; try done. intros q Hq _. apply A5. intros i Hi. apply Hq. lia.
Qed.

Lemma ready_wrote root T lo top hi w argv strs m m' : wrote root T lo hi w m m' -> hi <= top -> at_ustack locals <= w ->
  ready m T lo top argv strs -> ready m' T lo top argv strs.
Proof.
  intros [A1 A2 A3 A4 A5] Hhi Hw [[H1 H2] [H3 H3'] H4 H5]. split.
  - split.
    + intros i Hi. destruct (H1 i Hi) as (p & Hp & Hs & Ho). exists p. rewrite A3. auto.
    + intros i j p Hi Hj. rewrite !A3. by apply H2.
  - split; [|done]. intros i Hi. by apply A5, H3.
  - intros v p. rewrite A3. apply H4.
  - eapply Forall2_impl; [exact H5|]. cbv beta. intros p str (Hs & Ho & Hq). split_and!; [|done|].
    + eapply str_at_frame; [exact Hs|]. intros q Hin. apply A4.
      * intros v Hv E. destruct (Hq v q ltac:(lia) E); lia.
      * unfold off_ustack in Ho. lia.
    + intros v q. rewrite A3. apply Hq.
Qed.

(** What is written later leaves a user's bytes alone. *)
Lemma user_bytes_wrote root T lo hi w va l m m' top : wrote root T lo hi w m m' -> at_ustack locals <= w ->
  mapped m T lo (top - lo) -> (forall v p, lo <= v < top -> uva m T v = Some p -> off_ustack p 1) ->
  lo <= va -> hi <= va -> va + Z.of_nat (length l) <= top -> user_bytes m T va l -> user_bytes m' T va l.
Proof.
  intros [A1 A2 A3 A4 A5] Hw [_ Hinj] Ha Hlo Hhi Htop Hu i x Hi. destruct (Hu i x Hi) as (p & Hp & Hx). exists p. rewrite A3.
  split; [done|]. pose proof (lookup_lt_Some _ _ _ Hi). rewrite A4; [done| |].
  - intros v Hv E. pose proof (Hinj (v - lo) (va + Z.of_nat i - lo) p ltac:(lia) ltac:(lia)) as Hj.
    replace (lo + (v - lo)) with v in Hj by lia. replace (lo + (va + Z.of_nat i - lo)) with (va + Z.of_nat i) in Hj by lia.
    specialize (Hj E Hp). lia.
  - specialize (Ha (va + Z.of_nat i) p ltac:(lia) Hp). unfold off_ustack in Ha. lia.
Qed.

Lemma copied_user root T va l m m' : copied root T va l m m' -> (forall i, (i < length l)%nat -> is_Some (uva m T (va + Z.of_nat i))) ->
  user_bytes m' T va l.
Proof.
  intros Hc Hm i x Hi. destruct (Hm i) as [p Hp]; [by eapply lookup_lt_Some|]. exists p. rewrite (cp_uva _ _ _ _ _ _ Hc).
  split; [done|]. by apply (cp_at _ _ _ _ _ _ Hc i).
Qed.

(** A copy to the stack from a place outside of it. *)
Lemma copyout_stack root T lo top va src l m a : pt_wf m root T -> wf_mem m -> 0 <= lo <= va -> va + Z.of_nat (length l) <= top ->
  mapped m T lo (top - lo) -> bytes_at m src l ->
  (forall v p, lo <= v < top -> uva m T v = Some p -> p < src \/ src + Z.of_nat (length l) <= p) ->
  exists m', copyout (A := A) root va src (Z.of_nat (length l)) (m, a) = Done (0, (m', a)) /\ copied root T va l m m' /\ user_bytes m' T va l.
Proof.
  intros Hw Hwf Hlo Htop Hmap Hb Hd.
  assert (mapped m T va (Z.of_nat (length l))) as Hmv.
  { replace va with (lo + (va - lo)) by lia. apply (mapped_sub _ _ _ (top - lo)); [done|lia|lia]. }
  destruct (copyout_loop_spec root T (S (Z.to_nat (Z.of_nat (length l)))) m a va src l) as (m' & HE & Hc); [done|done|lia|done| |..].
  - intros i Hi. destruct (proj1 Hmv (Z.of_nat i) ltac:(lia)) as (p & Hp & Hs & Ho). exists p.
    split; [done|]. split; [done|]. split; [|done]. apply (Hd (va + Z.of_nat i)); [lia|done].
  - by apply (mapped_inj _ _ _ _ (Z.of_nat (length l))).
  - lia.
  - exists m'. split; [exact HE|]. split; [done|]. apply (copied_user _ _ _ _ _ _ Hc).
    intros i Hi. destruct (proj1 Hmv (Z.of_nat i) ltac:(lia)) as (p & Hp & _). by exists p.
Qed.

(** A word stored in [ustack]. *)
Lemma store_ustack root T lo top hi argv strs m a k v : pt_wf m root T -> wf_mem m -> ready m T lo top argv strs -> 0 <= k < MAXARG ->
  exists m', store64 (A := A) (at_ustack locals + 8 * k) v (m, a) = Done (tt, (m', a)) /\ wrote root T lo hi (at_ustack locals + 8 * k) m m' /\
    bytes_at m' (at_ustack locals + 8 * k) (le_bytes 8 v) /\
    forall q, (q < at_ustack locals + 8 * k \/ at_ustack locals + 8 * k + 8 <= q) -> m' !! q = m !! q.
Proof.
  intros Hw Hwf [_ [Ho Hoff] _ _] Hk. unfold ustack_len in *. exists (put_bytes (at_ustack locals + 8 * k) (le_bytes 8 v) m). split_and!.
  - unfold store64, on_mem, st64, sto. cbn [fst snd].
    destruct (proj2 (get_le_owned 8 m (at_ustack locals + 8 * k))) as [w ->]; [|by rewrite put_le_bytes].
    intros i Hi. rewrite <- Z.add_assoc. apply Ho. lia.
  - destruct (uva_same m (put_bytes (at_ustack locals + 8 * k) (le_bytes 8 v) m) root T (at_ustack locals + 8 * k) (le_bytes 8 v) Hw) as [Hw1 Hu1]; [|reflexivity|].
    { intros q b Hq x Hx. rewrite length_le_bytes. destruct (Hoff q b Hq x Hx); lia. }
    split; [done|apply wf_put_bytes; [apply chars_le_bytes|done]|done| |].
    + intros q _ Hq. apply put_bytes_out. rewrite length_le_bytes. unfold ustack_len in Hq. lia.
    + intros q Hq. destruct (decide (at_ustack locals + 8 * k <= q < at_ustack locals + 8 * k + 8)) as [Hin|].
      * pose proof (bytes_at_owned _ _ _ (put_bytes_at (at_ustack locals + 8 * k) (le_bytes 8 v) m)) as H.
        rewrite length_le_bytes in H. replace q with (at_ustack locals + 8 * k + (q - (at_ustack locals + 8 * k))) by lia. apply H. lia.
      * rewrite put_bytes_out; [done|]. rewrite length_le_bytes. lia.
  - apply put_bytes_at.
  - intros q Hq. apply put_bytes_out. rewrite length_le_bytes. lia.
Qed.

(** Room for the strings, each with its NUL and up to 15 bytes of padding. *)
Definition room (strs : list (list Z)) : Z := fold_right (fun str n => Z.of_nat (length str) + 16 + n) 0 strs.

Lemma room_nonneg strs : 0 <= room strs.
Proof. induction strs as [|str strs IH]; cbn [room fold_right]; [lia|]. unfold room in IH. lia. Qed.

Lemma strlen_run p str m a : str_at m p str -> Z.of_nat (length str) < 2 ^ 64 ->
  on_mem (A := A) (strlen p) (m, a) = Done (Z.of_nat (length str), (m, a)).
Proof.
  intros Hs Hl. unfold on_mem, strlen, str_fuel, gets, bind. cbn [fst snd].
  rewrite (strlen_loop_spec _ _ _ str); [by rewrite Z.add_0_l|done| |lia|lia].
  pose proof (bytes_at_size _ _ _ (proj1 Hs)) as H. rewrite length_app in H. cbn [length] in H. lia.
Qed.

(** The string [str] on the user's stack at [ptr], below [sp]. *)
Definition pushed m T (lo sp ptr : Z) (str : list Z) : Prop :=
  lo <= ptr /\ ptr mod 16 = 0 /\ ptr + Z.of_nat (length str) + 1 <= sp /\ user_bytes m T ptr (str ++ [0]).

(** A turn of the loop over the arguments. *)
Lemma push_arg root T lo top p argv str strs argc sp (s : X) m a : 0 <= lo -> top < 2 ^ 64 ->
  vm (mm s) = (m, a) -> pt_wf m root T -> wf_mem m -> ready m T lo top (p :: argv) (str :: strs) -> 0 <= argc < MAXARG ->
  lo + (Z.of_nat (length str) + 16) <= sp <= top ->
  exists m2 sp1, push_args locals root (p :: argv) argc sp s = push_args locals root argv (argc + 1) sp1 (with_vm (m2, a) s) /\
    wrote root T lo sp (at_ustack locals + 8 * argc) m m2 /\ ready m2 T lo top argv strs /\
    sp - (Z.of_nat (length str) + 16) <= sp1 /\ sp1 + Z.of_nat (length str) + 1 <= sp /\ sp1 mod 16 = 0 /\
    bytes_at m2 (at_ustack locals + 8 * argc) (le_bytes 8 sp1) /\ user_bytes m2 T sp1 (str ++ [0]).
Proof.
  intros Hlo Htop Hs Hw Hwf Hr Hargc Hsp. cbn [push_args].
  pose proof (r_strs _ _ _ _ _ _ Hr) as Hstrs. apply Forall2_cons in Hstrs as [(Hstr & Hou & Hdis) Hstrs].
  rewrite (proj2 (Z.leb_gt MAXARG argc)) by lia.
  rewrite (on_vm_bind _ (Z.of_nat (length str)) (m, a)) by (rewrite Hs; apply strlen_run; [done|lia]).
  set (n := Z.of_nat (length str)) in *.
  assert (u64 (sp - (n + 1)) = sp - (n + 1)) as -> by (apply Z.mod_small; lia).
  set (sp1 := align16 (sp - (n + 1))).
  assert (sp - (n + 16) <= sp1 /\ sp1 + n + 1 <= sp /\ sp1 mod 16 = 0) as (H1 & H2 & H3)
    by (split_and!; [unfold sp1, align16; zdiv|unfold sp1, align16; zdiv|apply align16_mod]).
  assert (n + 1 = Z.of_nat (length (str ++ [0]))) as Hn1 by (rewrite length_app; cbn [length]; lia).
  destruct (copyout_stack root T lo top sp1 p (str ++ [0]) m a Hw Hwf) as (m1 & HE1 & Hc1 & Hu1);
    [lia|lia|apply Hr|apply Hstr| |].
  { intros v q Hv Hq. rewrite <- Hn1. destruct (Hdis v q Hv Hq); [by left|right; lia]. }
  rewrite <- Hn1 in HE1. rewrite (on_vm_bind _ 0 (m1, a)) by exact HE1. cbn [Z.ltb Z.compare].
  assert (wrote root T lo sp (at_ustack locals + 8 * argc) m m1) as Hw1 by (eapply copied_wrote; [exact Hc1|lia|lia]).
  assert (ready m1 T lo top (p :: argv) (str :: strs)) as Hr1 by (eapply ready_wrote; [exact Hw1|lia|lia|done]).
  destruct (store_ustack root T lo top sp (p :: argv) (str :: strs) m1 a argc sp1 (wr_wf _ _ _ _ _ _ _ Hw1) (wr_bytes _ _ _ _ _ _ _ Hw1)
    Hr1 ltac:(lia)) as (m2 & HE2 & Hw2 & Hb2 & Hf2).
  rewrite (on_vm_bind _ tt (m2, a)) by exact HE2. exists m2, sp1. split; [done|]. split; [|split; [|split_and!; try done]].
  - eapply wrote_trans; [| |exact Hw1|exact Hw2]; lia.
  - assert (ready m2 T lo top (p :: argv) (str :: strs)) as [R1 R2 R3 R4] by (eapply ready_wrote; [exact Hw2|lia|lia|done]).
    split; [done..|by inversion R4].
  - intros i x Hi. destruct (Hu1 i x Hi) as (q & Hq & Hx). exists q. rewrite (wr_uva _ _ _ _ _ _ _ Hw2). split; [done|].
    rewrite Hf2; [done|]. pose proof (lookup_lt_Some _ _ _ Hi).
    pose proof (r_apart _ _ _ _ _ _ Hr1 (sp1 + Z.of_nat i) q ltac:(lia) Hq) as Ha. unfold off_ustack, ustack_len in Ha. lia.
Qed.

Lemma push_args_spec root T lo top : 0 <= lo -> top < 2 ^ 64 -> forall argv strs argc sp (s : X) m a,
  vm (mm s) = (m, a) -> pt_wf m root T -> wf_mem m -> ready m T lo top argv strs ->
  0 <= argc -> argc + Z.of_nat (length argv) < MAXARG -> lo + room strs <= sp <= top ->
  exists m' ptrs sp', push_args locals root argv argc sp s = Done ((argc + Z.of_nat (length argv), sp'), with_vm (m', a) s) /\
    wrote root T lo sp (at_ustack locals + 8 * argc) m m' /\ sp - room strs <= sp' <= sp /\
    length ptrs = length argv /\ bytes_at m' (at_ustack locals + 8 * argc) (words (ptrs ++ [0])) /\
    Forall2 (pushed m' T sp' sp) ptrs strs.
Proof.
  intros Hlo Htop. induction argv as [|p argv IH]; intros strs argc sp s m a Hs Hw Hwf Hr Hargc Hlen Hsp; cbn [length] in *.
  - pose proof (r_strs _ _ _ _ _ _ Hr) as Hstrs. apply Forall2_nil_inv_l in Hstrs as ->.
    destruct (store_ustack root T lo top sp [] [] m a argc 0 Hw Hwf Hr ltac:(lia)) as (m1 & HE & Hwr & Hb & _).
    cbn [push_args]. rewrite (on_vm_bind _ tt (m1, a)) by (by rewrite Hs). exists m1, [], sp. rewrite Z.add_0_r.
    split_and!; try done; cbn [room fold_right]; lia.
  - destruct strs as [|str strs]; [by pose proof (r_strs _ _ _ _ _ _ Hr) as H; inversion H|].
    cbn [room fold_right] in Hsp. fold (room strs) in Hsp. pose proof (room_nonneg strs) as Hrn.
    destruct (push_arg root T lo top p argv str strs argc sp s m a) as (m2 & sp1 & -> & Hw2 & Hr2 & H1 & H2 & H3 & Hb2 & Hu2); try done; try lia.
    destruct (IH strs (argc + 1) sp1 (with_vm (m2, a) s) m2 a) as (m3 & ptrs & sp' & HE & Hw3 & Hsp' & Hl & Hb & Hp);
      [done|apply Hw2|apply Hw2|done|lia|lia|lia|].
    exists m3, (sp1 :: ptrs), sp'. split; [|split; [|split; [cbn [room fold_right]; fold (room strs); lia|split; [cbn [length]; lia|split]]]].
    + rewrite HE. do 3 f_equal. lia.
    + eapply wrote_trans; [| |exact Hw2|exact Hw3]; lia.
    + cbn [app]. unfold words. cbn [map concat]. apply bytes_at_app. rewrite length_le_bytes. split.
      * eapply bytes_at_frame; [exact Hb2|]. intros q Hq. rewrite length_le_bytes in Hq. apply (wr_frame _ _ _ _ _ _ _ Hw3); [|left; lia].
        intros v Hv E. pose proof (r_apart _ _ _ _ _ _ Hr2 v q ltac:(lia) E) as Ha. unfold off_ustack, ustack_len in Ha. lia.
      * replace (at_ustack locals + 8 * argc + Z.of_nat 8) with (at_ustack locals + 8 * (argc + 1)) by lia. exact Hb.
    + constructor.
      * split; [lia|]. split; [done|]. split; [lia|].
        eapply (user_bytes_wrote root T lo sp1 _ sp1 _ m2 m3 top); [exact Hw3|lia|apply Hr2|apply Hr2|lia|lia| |done].
        rewrite length_app. cbn [length]. lia.
      * eapply Forall2_impl; [exact Hp|]. cbv beta. intros ptr str' (P1 & P2 & P3 & P4). split_and!; [done|done|lia|done].
Qed.

(** C31. What exec writes into the memory of the new program.  [loadseg]
    puts the [sz] bytes of the file from [offset] on at the user's address
    [va] (aligned to a page), and changes nothing else in memory.  The
    arguments: with less than 32 strings that fit on the mapped stack below
    [top], [push_argv] ends with [argc], and with a multiple of 16 as [sp];
    at [sp] the user finds an array of [argc] pointers and a null pointer, and
    at each pointer, above the array and below [top], the argument's
    characters and a NUL.  It changes no other memory but the kernel's array
    [ustack], and neither changes a translation. *)
Theorem exec_memory root T (s : X) m a : vm (mm s) = (m, a) -> pt_wf m root T -> wf_mem m ->
  (forall ip x l va offset sz, itable (fsys s) !! ip = Some x -> held (fsys s) = [] -> file_holds (fsys s) x l -> chars l ->
    0 <= va -> va mod PGSIZE = 0 -> 0 <= offset -> 0 <= sz -> offset + sz <= isize x -> offset + sz <= Z.of_nat (length l) ->
    mapped m T va sz ->
    exists f' m', loadseg root va ip offset sz s = Done (0, mkX f' (mm (with_vm (m', a) s)) (fs_lock s) (tsk s) (tf s)) /\
      sees (fsys s) f' /\ user_bytes m' T va (slice offset sz l) /\ (forall v, uva m' T v = uva m T v) /\
      forall q, (forall v, va <= v < va + sz -> uva m T v <> Some q) -> m' !! q = m !! q) /\
  (forall argv strs lo top, ready m T lo top argv strs -> 0 <= lo -> top < 2 ^ 64 -> Z.of_nat (length argv) < MAXARG ->
    lo + room strs + 8 * (Z.of_nat (length argv) + 1) + 15 <= top ->
    exists m' ptrs sp, push_argv locals root argv top s = Done ((Z.of_nat (length argv), sp), with_vm (m', a) s) /\
      lo <= sp /\ sp mod 16 = 0 /\ length ptrs = length argv /\ user_bytes m' T sp (words (ptrs ++ [0])) /\
      Forall2 (fun ptr str => sp + 8 * (Z.of_nat (length argv) + 1) <= ptr /\ ptr + Z.of_nat (length str) < top /\
        user_bytes m' T ptr (str ++ [0])) ptrs strs /\
      (forall v, uva m' T v = uva m T v) /\
      forall q, (forall v, lo <= v < top -> uva m T v <> Some q) -> off_ustack q 1 -> m' !! q = m !! q).
Proof.
  intros Hs Hw Hwf. split.
  - intros ip x l va offset sz Hx Hh Hl Hc Hva Hmod Hoff Hsz Hsize Hlen Hmap.
    assert (offset + sz <= MAXFILE * BSIZE) as Hmax by (destruct Hl as (K & HK & HK2 & _); unfold BSIZE in *; lia).
    destruct (loadseg_loop_spec root T ip x l va offset sz Hmod Hva Hc Hoff Hsize Hlen Hmax (S (S (Z.to_nat (sz / PGSIZE)))) 0 s m a)
      as (f' & m' & HE & Hsee & _ & Hcp); try done.
    + lia.
    + unfold PGSIZE, Vm.PGSIZE. zdiv.
    + specialize (Hcp Hsz). rewrite !Z.add_0_r, Z.sub_0_r in Hcp. exists f', m'. split; [exact HE|]. split; [done|].
      split; [|split; [apply Hcp|]].
      * apply (copied_user _ _ _ _ _ _ Hcp). intros i Hi. rewrite length_slice in Hi by lia.
        destruct (proj1 Hmap (Z.of_nat i) ltac:(lia)) as (p & Hp & _). by exists p.
      * intros q Hq. apply (cp_frame _ _ _ _ _ _ Hcp). intros i Hi. rewrite length_slice in Hi by lia. apply Hq. lia.
  - intros argv strs lo top Hr Hlo Htop Hlen Hroom. pose proof (room_nonneg strs) as Hrn.
    destruct (push_args_spec root T lo top Hlo Htop argv strs 0 top s m a Hs Hw Hwf Hr ltac:(lia) ltac:(lia) ltac:(lia))
      as (m1 & ptrs & sp1 & HE & Hw1 & Hsp1 & Hlp & Hb & Hp).
    rewrite Z.add_0_l in HE. unfold push_argv. rewrite (bind_done _ _ _ _ _ HE).
    set (n := Z.of_nat (length argv)) in *.
    assert (u64 (sp1 - (n + 1) * 8) = sp1 - (n + 1) * 8) as -> by (apply Z.mod_small; lia).
    set (sp := align16 (sp1 - (n + 1) * 8)).
    assert (sp1 - (n + 1) * 8 - 15 <= sp /\ sp + (n + 1) * 8 <= sp1) as [H1 H2] by (split; unfold sp, align16; zdiv).
    assert (Z.of_nat (length (words (ptrs ++ [0]))) = (n + 1) * 8) as Hwl
      by (rewrite length_words, length_app, Hlp; cbn [length]; lia).
    assert (ready m1 T lo top argv strs) as Hr1 by (eapply ready_wrote; [exact Hw1|lia|lia|done]).
    destruct (copyout_stack root T lo top sp (at_ustack locals) (words (ptrs ++ [0])) m1 a (wr_wf _ _ _ _ _ _ _ Hw1)
      (wr_bytes _ _ _ _ _ _ _ Hw1)) as (m2 & HE2 & Hc2 & Hu2); [lia|lia|apply Hr1| | |].
    { by rewrite Z.mul_0_r, Z.add_0_r in Hb. }
    { intros v q Hv Hq. pose proof (r_apart _ _ _ _ _ _ Hr1 v q Hv Hq) as Ha. unfold off_ustack, ustack_len in Ha. lia. }
    rewrite Hwl in HE2. rewrite (on_vm_bind _ 0 (m2, a)) by exact HE2. cbn [Z.ltb Z.compare].
    assert (wrote root T lo sp1 (at_ustack locals) m1 m2) as Hw2 by (eapply copied_wrote; [exact Hc2|lia|lia]).
    exists m2, ptrs, sp. split; [done|]. split; [lia|]. split; [apply align16_mod|]. split; [done|]. split; [done|].
    split; [|split].
    + eapply Forall2_impl; [exact Hp|]. cbv beta. intros ptr str (P1 & P2 & P3 & P4). split; [lia|]. split; [lia|].
      eapply (user_bytes_wrote root T lo sp1 _ ptr _ m1 m2 top); [exact Hw2|lia|apply Hr1|apply Hr1|lia|lia| |done].
      rewrite length_app. cbn [length]. lia.
    + intros v. by rewrite (wr_uva _ _ _ _ _ _ _ Hw2), (wr_uva _ _ _ _ _ _ _ Hw1).
    + intros q Hq Ho. unfold off_ustack in Ho. rewrite (wr_frame _ _ _ _ _ _ _ Hw2); [apply (wr_frame _ _ _ _ _ _ _ Hw1)| |].
      * done.
      * unfold ustack_len in *. lia.
      * intros v Hv. rewrite (wr_uva _ _ _ _ _ _ _ Hw1). apply Hq. lia.
      * unfold ustack_len in *. lia.
Qed.
End ImageMemory.

(** ** A concrete program

    The current directory's inode, which the empty path names, holds an
    executable with one segment of eight bytes; fifteen pages of memory, the
    first with the locals of exec, eleven of them free. *)

Definition demo_elf : list Z :=
  le_bytes 4 ELF_MAGIC ++ replicate 20 0 ++ le_bytes 8 4096 ++ le_bytes 8 64 ++ replicate 16 0 ++ le_bytes 2 1 ++ replicate 6 0 ++
  le_bytes 4 ELF_PROG_LOAD ++ le_bytes 4 5 ++ le_bytes 8 120 ++ le_bytes 8 4096 ++ replicate 8 0 ++ le_bytes 8 8 ++ le_bytes 8 4096 ++
  replicate 8 0 ++ [1; 2; 3; 4; 5; 6; 7; 8] ++ replicate 896 0.
Definition demo_exec_fs (data : list Z) : fs (U := unit) :=
  mkFs ∅ (list_to_map [(2, <[128%nat := 2]> FsTheorems.zeros); (3, <[0%nat := 31]> FsTheorems.zeros); (10, data)])
       [] (mkSb FSMAGIC 64 20 2 2 3) 4 (<[0 := mkInode 1 2 1 true 1 2 0 0 1 128 (10 :: replicate 12 0)]> demo_itable) 0 tt.
Definition demo_exec_mm : mst (list Z) (list Z) :=
  mkMst (KlibTheorems.zeros 4096 (Z.to_nat (15 * 4096)), [8192; 12288; 16384; 20480; 24576; 28672; 32768; 36864; 40960; 45056; 49152])
    [] demo_ref false ∅ (fun n => Z.of_nat n) 0.
Definition demo_exec (data : list Z) : xst :=
  mkX (demo_exec_fs data) demo_exec_mm 0 (Mmap.mkTask 0 0) (mkTf 1 2 3 4 5).
Definition demo_addresses : addresses := mkAddr 4096 5120 5000 53248 57344.

Lemma demo_exec_returns : exists s', exec demo_addresses [] [4096; 4097] [] (demo_exec demo_elf) = Done (0, s').
Proof.
  assert (match exec demo_addresses [] [4096; 4097] [] (demo_exec demo_elf) with Done (0, _) => true | _ => false end = true) as H
    by (vm_compute; reflexivity).
  destruct (exec demo_addresses [] [4096; 4097] [] (demo_exec demo_elf)) as [[[| |] s']| | | |]; try done. by exists s'.
Qed.

Lemma exec_outcome_witness :
  exists s', exec demo_addresses [] [4096; 4097] [] (demo_exec demo_elf) = Done (0, s') /\ fs_lock s' = 1 /\ tf_a0 (tf s') = 2.
Proof.
  destruct demo_exec_returns as [s' E]. exists s'. split; [exact E|].
  destruct (exec_outcome demo_addresses [] [4096; 4097] [] (demo_exec demo_elf) s' 0 E) as [[H _]|(_ & ip & l & f & _ & _ & H)];
    [discriminate H|].
  split; [exact (image_lock _ _ _ _ H)|exact (proj1 (image_args _ _ _ _ H))].
Defined.

Lemma demo_header : exists f, header_read [] [] (demo_exec (replicate 1024 7)) 0 64 (replicate 64 7) f.
Proof.
  assert (match namei [] [] (fsys (demo_exec (replicate 1024 7))) with
          | Done (Some 0, f1) => match ilock (Some 0) f1 with
                                 | Done (_, f2) => match readi 0 None 0 SIZEOF_ELFHDR f2 with
                                                   | Done ((n, l), _) => bool_decide (n = 64 /\ l = replicate 64 7)
                                                   | _ => false end
                                 | _ => false end
          | _ => false end = true) as H by (vm_compute; reflexivity).
  unfold header_read. destruct (namei _ _ _) as [[[[| |]|] f1]| | | |]; try done.
  destruct (ilock (Some 0) f1) as [[[] f2]| | | |] eqn:H2; try done.
  destruct (readi 0 None 0 SIZEOF_ELFHDR f2) as [[[n l] f3]| | | |] eqn:H3; try done.
  apply bool_decide_eq_true in H as [-> ->]. by exists f3, f1, f2.
Qed.

Lemma exec_not_elf_panics_witness :
  exec demo_addresses [] [4096] [] (demo_exec (replicate 1024 7)) = Panic "exec bad".
Proof.
  destruct demo_header as [f H].
  apply (exec_not_elf_panics demo_addresses [] [4096] [] (demo_exec (replicate 1024 7)) 0 64 (replicate 64 7) f H).
  right. vm_compute. discriminate.
Defined.

(** A page of the user at 0, and in the kernel's memory the strings "hi" and
    "" and the array; the file system of [FsTheorems]. *)
Definition demo_args : mem := put_bytes 20480 [104; 105; 0] demo_m3.
Definition demo_state : xst :=
  with_vm (demo_args, []) (mkX demo_fs demo_exec_mm 0 (Mmap.mkTask 0 0) (mkTf 1 2 3 4 5)).
Definition demo_locals : addresses := mkAddr 0 24576 0 0 0.

Lemma demo_args_inv : pt_wf demo_args 4096 demo_T /\ wf_mem demo_args /\ forall va, uva demo_args demo_T va = uva demo_m3 demo_T va.
Proof.
  destruct (uva_same demo_m3 demo_args 4096 demo_T 20480 [104; 105; 0]) as [H1 H2]; [apply demo_inv| |done|].
  - intros p b Hb q Hq. apply demo_T_pages in Hb. unfold page_of, Vm.PGSIZE in Hq. cbn [length]. lia.
  - split_and!; [done| |done]. apply wf_put_bytes; [|apply demo_wf3]. repeat constructor; lia.
Qed.

Lemma demo_user_page va : 0 <= va < 4096 -> uva demo_args demo_T va = Some (16384 + va).
Proof.
  intros Hva. rewrite (proj2 (proj2 demo_args_inv)). unfold uva. rewrite (proj2 demo_inv), decide_True.
  2: { unfold vpn, u64, Vm.PGSIZE. rewrite (Z.mod_small va), (Z.div_small va) by lia. reflexivity. }
  rewrite (proj2 (Z.leb_gt MAXVA va)) by (change MAXVA with (2 ^ 38); lia).
  rewrite (Z.mod_small va) by (unfold Vm.PGSIZE; lia). reflexivity.
Qed.

Lemma demo_args_owned p : 16384 <= p < 36864 -> is_Some (demo_args !! p).
Proof.
  intros Hp. unfold demo_args. destruct (decide (20480 <= p < 20483)) as [Hin|Hout].
  - pose proof (bytes_at_owned _ _ _ (put_bytes_at 20480 [104; 105; 0] demo_m3)) as H. cbn [length] in H.
    replace p with (20480 + (p - 20480)) by lia. apply H. lia.
  - rewrite put_bytes_out by (cbn [length]; lia).
    pose proof (bytes_at_owned _ _ _ (demo_m3_zero p 1 ltac:(lia) ltac:(lia))) as H. rewrite length_replicate in H.
    specialize (H 0 ltac:(lia)). by rewrite Z.add_0_r in H.
Qed.

Lemma demo_mapped n : n <= 4096 -> mapped demo_args demo_T 0 n.
Proof.
  intros Hn. split.
  - intros i Hi. exists (16384 + i). rewrite demo_user_page by lia. split; [done|]. split; [apply demo_args_owned; lia|].
    intros p b Hb q Hq. apply demo_T_pages in Hb. unfold page_of, Vm.PGSIZE in Hq. lia.
  - intros i j p Hi Hj. rewrite !demo_user_page by lia. intros [= <-] [= E]. lia.
Qed.

Lemma demo_ready : ready demo_locals demo_args demo_T 0 4096 [20480; 20490] [[104; 105]; []].
Proof.
  assert (forall p, 20480 <= p <= 20490 -> forall str : list Z, (length str <= 2)%nat ->
    off_ustack demo_locals p (Z.of_nat (length str) + 1) /\
    forall v q, 0 <= v < 4096 -> uva demo_args demo_T v = Some q -> q < p \/ p + Z.of_nat (length str) < q) as Haway.
  { intros p Hp str Hl. split; [unfold off_ustack; cbn; lia|]. intros v q Hv. rewrite demo_user_page by lia. intros [= <-]. lia. }
  split.
  - by apply demo_mapped.
  - split; [intros i Hi; apply demo_args_owned; unfold ustack_len, MAXARG in Hi; cbn in *; lia|].
    intros p b Hb q Hq. apply demo_T_pages in Hb. unfold page_of, Vm.PGSIZE in Hq. unfold ustack_len. cbn. lia.
  - intros v p Hv. rewrite demo_user_page by lia. intros [= <-]. unfold off_ustack. cbn. lia.
  - constructor; [|constructor; [|constructor]]; (split; [|apply Haway; [lia|cbn; lia]]); split.
    + apply put_bytes_at.
    + repeat constructor; lia.
    + intros i x Hi. unfold demo_args. pose proof (lookup_lt_Some _ _ _ Hi) as Hlt. cbn in Hlt.
      rewrite put_bytes_out by (cbn [length]; lia). by apply (demo_m3_zero 20490 1); [lia|lia|].
    + constructor.
Qed.

Lemma exec_memory_witness :
  (exists s' m', loadseg 4096 0 0 2 3 demo_state = Done (0, s') /\ vm (mm s') = (m', []) /\ user_bytes m' demo_T 0 (replicate 3 7)) /\
  exists m' sp p1 p2, push_argv demo_locals 4096 [20480; 20490] 4096 demo_state = Done ((2, sp), with_vm (m', []) demo_state) /\
    sp mod 16 = 0 /\ user_bytes m' demo_T sp (words [p1; p2; 0]) /\ user_bytes m' demo_T p1 [104; 105; 0] /\ user_bytes m' demo_T p2 [0].
Proof.
  destruct (exec_memory demo_locals 4096 demo_T demo_state demo_args [] eq_refl (proj1 demo_args_inv) (proj1 (proj2 demo_args_inv)))
    as [H1 H2]. split.
  - destruct (H1 0 demo_file (replicate 1024 7) 0 2 3) as (f' & m' & HE & _ & Hu & _).
    + apply lookup_insert_eq.
    + reflexivity.
    + exact demo_file_holds.
    + apply Forall_replicate. lia.
    + lia.
    + reflexivity.
    + lia.
    + lia.
    + vm_compute. discriminate.
    + rewrite length_replicate. lia.
    + apply demo_mapped. lia.
    + eexists _, m'. split; [exact HE|]. split; [reflexivity|exact Hu].
  - destruct (H2 [20480; 20490] [[104; 105]; []] 0 4096 demo_ready) as (m' & ptrs & sp & HE & _ & Hsp & Hl & Hu & Hp & _).
    + lia.
    + lia.
    + reflexivity.
    + vm_compute. discriminate.
    + destruct ptrs as [|p1 [|p2 [|]]]; try discriminate Hl. inversion Hp as [|? ? ? ? (_ & _ & Q1) Hp2 E1 E2]; subst.
      inversion Hp2 as [|? ? ? ? (_ & _ & Q2) _ E3 E4]; subst. exists m', sp, p1, p2. split_and!; assumption.
Defined.
