(* ===== verification/Shell.v ===== *)
(** * The shell: sh.c

    A command line is the list of its characters before the terminating NUL;
    [es] is its length and a pointer into it a position.  The parser's state
    is the position [*ps].  The shell's [panic] prints its message and exits. *)
From S2P Require Import Prelude.

Definition MAXARGS : nat := 10.
Definition O_RDONLY : Z := 0.
Definition O_WRONLY : Z := 1.
Definition O_CREATE : Z := 512.
Definition O_TRUNC : Z := 1024.

(** The five command structures, over the type of their arguments and file
    names: in the program the pair of the first position and the position
    after the last ([argv]/[eargv], [file]/[efile]). *)
Inductive cmd_of (W : Type) : Type :=
| EXEC (argv : list W)
| REDIR (c : cmd_of W) (file : W) (mode fd : Z)
| PIPE (left right : cmd_of W)
| LIST (left right : cmd_of W)
| BACK (c : cmd_of W).
Arguments EXEC {W} argv.
Arguments REDIR {W} c file mode fd.
Arguments PIPE {W} left right.
Arguments LIST {W} left right.
Arguments BACK {W} c.
Abbreviation cmd := (cmd_of (nat * nat)).

Definition redircmd {W} (c : cmd_of W) (r : W * Z * Z) : cmd_of W :=
  let '(file, mode, fd) := r in REDIR c file mode fd.
Definition pipecmd {W} (left right : cmd_of W) : cmd_of W := PIPE left right.
Definition listcmd {W} (left right : cmd_of W) : cmd_of W := LIST left right.
Definition backcmd {W} (c : cmd_of W) : cmd_of W := BACK c.
(** The redirections [rs] around [c], the first innermost. *)
Definition redirs {W} (rs : list (W * Z * Z)) (c : cmd_of W) : cmd_of W := fold_left redircmd rs c.

Definition whitespace : list Z := [32; 9; 13; 10; 11].
Definition symbols : list Z := [60; 124; 62; 38; 59; 40; 41].   (* <|>&;() *)

(** [strchr] of ulib.c, as a test: it never finds the NUL. *)
Definition strchr (s : list Z) (c : Z) : bool := existsb (Z.eqb c) s.

Section Parser.
(** The characters of the line. *)
Variable b : list Z.

Definition es : nat := length b.
(** [*s]: the NUL at the end. *)
Definition at_ (s : nat) : Z := nth s b 0.

Fixpoint skip (fuel : nat) (p : Z -> bool) (s : nat) : nat :=
  match fuel with
  | O => s
  | S fuel => if (s <? es)%nat && p (at_ s) then skip fuel p (S s) else s
  end.
(** [while(s < es && strchr(whitespace, *s)) s++]. *)
Definition skip_white (s : nat) : nat := skip (es - s) (strchr whitespace) s.
(** [while(s < es && !strchr(whitespace, *s) && !strchr(symbols, *s)) s++]. *)
Definition skip_word (s : nat) : nat :=
  skip (es - s) (fun c => negb (strchr whitespace c) && negb (strchr symbols c)) s.

(** The token's class, its first and last positions, and the new position. *)
Definition token (s : nat) : Z * nat * nat * nat :=
  let s := skip_white s in
  let q := s in
  let c := at_ s in
  let '(ret, s) :=
    if c =? 0 then (c, s)
    else if strchr [124; 40; 41; 59; 38; 60] c then (c, S s)
    else if c =? 62 then (if at_ (S s) =? 62 then (43, S (S s)) else (c, S s))
    else (97, skip_word s) in
  (ret, q, s, skip_white s).

Definition gettoken : M nat (Z * nat * nat) := fun s =>
  let '(ret, q, eq, s') := token s in Done ((ret, q, eq), s').

Definition peek (toks : list Z) : M nat bool := fun s =>
  let s := skip_white s in
  Done (negb (at_ s =? 0) && strchr toks (at_ s), s).

(** [parseredirs], with the redirections in the order they are applied. *)
Fixpoint parseredirs (fuel : nat) : M nat (list ((nat * nat) * Z * Z)) :=
  match fuel with
  | O => nofuel
  | S fuel =>
    p <- peek [60; 62];;
    if negb p then ret []
    else
      '(tok, _, _) <- gettoken;;
      '(t, q, eq) <- gettoken;;
      if negb (t =? 97) then panic "missing file for redirection"
      else
        rs <- parseredirs fuel;;
        ret (if tok =? 60 then ((q, eq), O_RDONLY, 0) :: rs
             else if tok =? 62 then ((q, eq), Z.lor (Z.lor O_WRONLY O_CREATE) O_TRUNC, 1) :: rs
             else if tok =? 43 then ((q, eq), Z.lor O_WRONLY O_CREATE, 1) :: rs
             else rs)
  end.

(** The loop of [parseexec].  The command is built in place, inside the
    redirections that already wrap it: the loop collects the arguments and
    the redirections. *)
Fixpoint parseargs (fuel : nat) (argv : list (nat * nat)) (rs : list ((nat * nat) * Z * Z))
    : M nat (list (nat * nat) * list ((nat * nat) * Z * Z)) :=
  match fuel with
  | O => nofuel
  | S fuel =>
    p <- peek [124; 41; 38; 59];;
    if p then ret (argv, rs)
    else
      '(tok, q, eq) <- gettoken;;
      if tok =? 0 then ret (argv, rs)
      else if negb (tok =? 97) then panic "syntax"
      else
        let argv := argv ++ [(q, eq)] in
        if (MAXARGS <=? length argv)%nat then panic "too many args"
        else
          rs' <- parseredirs (S es);;
          parseargs fuel argv (rs ++ rs')
  end.

(** The loop of [parseline]. *)
Fixpoint parsebacks (fuel : nat) (c : cmd) : M nat cmd :=
  match fuel with
  | O => nofuel
  | S fuel =>
    p <- peek [38];;
    if p then gettoken;;; parsebacks fuel (backcmd c) else ret c
  end.

Fixpoint parseline (fuel : nat) : M nat cmd :=
  match fuel with
  | O => nofuel
  | S fuel =>
    c <- parsepipe fuel;;
    c <- parsebacks (S es) c;;
    p <- peek [59];;
    if p then gettoken;;; c' <- parseline fuel;; ret (listcmd c c') else ret c
  end
with parsepipe (fuel : nat) : M nat cmd :=
  match fuel with
  | O => nofuel
  | S fuel =>
    c <- parseexec fuel;;
    p <- peek [124];;
    if p then gettoken;;; c' <- parsepipe fuel;; ret (pipecmd c c') else ret c
  end
with parseexec (fuel : nat) : M nat cmd :=
  match fuel with
  | O => nofuel
  | S fuel =>
    p <- peek [40];;
    if p then parseblock fuel
    else
      rs <- parseredirs (S es);;
      '(argv, rs) <- parseargs (S es) [] rs;;
      ret (redirs rs (EXEC argv))
  end
with parseblock (fuel : nat) : M nat cmd :=
  match fuel with
  | O => nofuel
  | S fuel =>
    p <- peek [40];;
    if negb p then panic "parseblock"
    else
      gettoken;;;
      c <- parseline fuel;;
      p <- peek [41];;
      if negb p then panic "syntax - missing )"
      else
        gettoken;;;
        rs <- parseredirs (S es);;
        ret (redirs rs c)
  end.

(** Every round of the four routines consumes a character. *)
Definition parse_fuel : nat := 4 * S es.

(** [parsecmd] before [nulterminate]. *)
Definition parse : M nat cmd :=
  c <- parseline parse_fuel;;
  peek [];;;
  s <- get;;
  if negb (s =? es)%nat then panic "syntax" else ret c.

End Parser.

(** The NULs that [nulterminate] writes into the line [m] (with its own). *)
Fixpoint nulterminate (c : cmd) (m : list Z) : list Z :=
  match c with
  | EXEC argv => fold_left (fun m a => <[snd a := 0]> m) argv m
  | REDIR c file _ _ => <[snd file := 0]> (nulterminate c m)
  | PIPE l r => nulterminate r (nulterminate l m)
  | LIST l r => nulterminate r (nulterminate l m)
  | BACK c => nulterminate c m
  end.

(** The command and the memory of the line. *)
Definition parsecmd (b : list Z) : result (cmd * list Z) :=
  match parse b 0%nat with
  | Done (c, _) => Done (c, nulterminate c (b ++ [0]))
  | Panic msg => Panic msg
  | Fault => Fault
  | NoFuel => NoFuel
  | Blocked => Blocked
  end.

(** ** Running *)

(** The string at [p]. *)
Fixpoint cstr (m : list Z) : list Z :=
  match m with [] => [] | c :: m => if c =? 0 then [] else c :: cstr m end.

(** What the child does: an [exec] of its arguments, or the end. *)
Inductive action : Type :=
| Exec (argv : list (list Z))
| Exit (status : Z).

(** [runcmd] on the line's memory, up to the [exec]; the other commands end
    in its [panic]. *)
Definition runcmd (c : cmd) (m : list Z) : action :=
  match c with
  | EXEC [] => Exit 1
  | EXEC argv => Exec (map (fun a => cstr (drop (fst a) m)) argv)
  | _ => Exit 1
  end.

(** [gets]: up to [max - 1] characters of the input, through the end of the
    line. *)
Fixpoint gets_loop (k : nat) (inp : list Z) : list Z * list Z :=
  match k, inp with
  | S k, c :: inp =>
      if (c =? 10) || (c =? 13) then ([c], inp)
      else let '(l, rest) := gets_loop k inp in (c :: l, rest)
  | _, _ => ([], inp)
  end.
Definition getcmd (nbuf : nat) (inp : list Z) : option (list Z * list Z) :=
  let '(l, rest) := gets_loop (nbuf - 1) inp in
  if hd 0 l =? 0 then None else Some (cstr l, rest).

(** What [main] does with a line. *)
Inductive request : Type :=
| Chdir (path : list Z)
| Child (a : result action).

Definition handle (buf : list Z) : request :=
  if decide (take 3 buf = [99; 100; 32]) then Chdir (removelast (drop 3 buf))
  else Child (match parsecmd buf with
              | Done (c, m) => Done (runcmd c m)
              | Panic msg => Panic msg
              | Fault => Fault
              | NoFuel => NoFuel
              | Blocked => Blocked
              end).

(** The lines of an input, each of at most 99 characters. *)
Fixpoint main (fuel : nat) (inp : list Z) : result (list request) :=
  match fuel with
  | O => NoFuel
  | S fuel =>
    match getcmd 100 inp with
    | None => Done []
    | Some (buf, rest) =>
        match main fuel rest with
        | Done l => Done (handle buf :: l)
        | r => r
        end
    end
  end.
