(* ===== verification/ShellProofs.v ===== *)
(** * Proofs about the shell's parser *)
From S2P Require Import Prelude Shell.

(** ** Runs that end

    [ok m s P]: [m] ends from [s], in a syntax error or with [P]. *)
Definition syntax_errors : list string :=
  ["syntax"; "syntax - missing )"; "missing file for redirection"; "too many args"].

Definition ok {A} (m : M nat A) (s : nat) (P : A -> nat -> Prop) : Prop :=
  match m s with
  | Done (a, s') => P a s'
  | Panic msg => In msg syntax_errors
  | _ => False
  end.

Lemma ok_bind {A B} (m : M nat A) (k : A -> M nat B) s Q P :
  ok m s Q -> (forall a s', Q a s' -> ok (k a) s' P) -> ok (bind m k) s P.
Proof. unfold ok, bind. destruct (m s) as [[a s']| | | |]; [|done..]. intros HQ Hk. by apply Hk. Qed.

Lemma ok_bind_done {A B} (m : M nat A) (k : A -> M nat B) s a s' P :
  m s = Done (a, s') -> ok (k a) s' P -> ok (bind m k) s P.
Proof. intros H. unfold ok, bind. by rewrite H. Qed.

Lemma ok_weaken {A} (m : M nat A) s (P Q : A -> nat -> Prop) :
  ok m s P -> (forall a s', P a s' -> Q a s') -> ok m s Q.
Proof. unfold ok. destruct (m s) as [[a s']| | | |]; auto. Qed.

Lemma ok_panic {A} msg s (P : A -> nat -> Prop) : In msg syntax_errors -> ok (panic msg) s P.
Proof. done. Qed.

Section Proofs.
Variable b : list Z.

Lemma at_in s : at_ b s <> 0 -> (s < es b)%nat.
Proof.
  unfold at_, es. intros H. destruct (Nat.lt_ge_cases s (length b)) as [|Hge]; [done|].
  by rewrite nth_overflow in H by done.
Qed.

Lemma skip_range p : forall fuel s, (s <= es b)%nat -> (s <= skip b fuel p s <= es b)%nat.
Proof.
  induction fuel as [|fuel IH]; intros s Hs; cbn [skip]; [lia|].
  destruct (Nat.ltb_spec s (es b)) as [Hlt|Hge]; cbn [andb]; [|lia].
  destruct (p (at_ b s)); [|lia]. specialize (IH (S s)). lia.
Qed.

Lemma skip_white_range s : (s <= es b)%nat -> (s <= skip_white b s <= es b)%nat.
Proof. apply skip_range. Qed.

Lemma strchr_nz l c : strchr l c = true -> c <> 0 \/ In 0 l.
Proof.
  unfold strchr. intros (x & Hx & ->%Z.eqb_eq)%existsb_exists. destruct (Z.eq_dec x 0) as [->|]; auto.
Qed.

Lemma skip_stop p : forall fuel s, (s <= es b)%nat -> (es b - s <= fuel)%nat ->
  skip b fuel p s = es b \/ p (at_ b (skip b fuel p s)) = false.
Proof.
  induction fuel as [|fuel IH]; intros s Hs Hf; cbn [skip]; [left; lia|].
  destruct (Nat.ltb_spec s (es b)) as [Hlt|Hge]; cbn [andb]; [|left; lia].
  destruct (p (at_ b s)) eqn:E; [apply IH; lia|by right].
Qed.

Lemma peek_ok toks s : (s <= es b)%nat ->
  ok (peek b toks) s (fun p s' => (s <= s' <= es b)%nat /\ (p = true -> at_ b s' <> 0)).
Proof.
  intros Hs. unfold ok, peek. split; [by apply skip_white_range|].
  intros [H _]%andb_true_iff. by apply negb_true_iff, Z.eqb_neq in H.
Qed.

(** A token is never empty, unless the line ends here. *)
Lemma token_range s : (s <= es b)%nat ->
  let '(ret, q, eq, s') := token b s in
  (s <= q <= eq)%nat /\ (eq <= s' <= es b)%nat /\ (at_ b q <> 0 -> (q < eq)%nat) /\ (ret <> 0 -> at_ b q <> 0) /\
  q = skip_white b s.
Proof.
  intros Hs. unfold token. pose proof (skip_white_range s Hs) as Hq.
  pose proof (skip_stop (strchr whitespace) (es b - s) s Hs ltac:(lia)) as Hstop.
  fold (skip_white b s) in Hstop. set (q := skip_white b s) in *.
  assert (forall e, (q <= e <= es b)%nat -> (e <= skip_white b e <= es b)%nat) as Hend
    by (intros e He; apply skip_white_range; lia).
  destruct (Z.eqb_spec (at_ b q) 0) as [E|E].
  { cbv iota zeta. rewrite E. split; [lia|]. split; [apply Hend; lia|]. split; [congruence|]. split; [congruence|done]. }
  pose proof (at_in q E) as Hlt.
  destruct (strchr [124; 40; 41; 59; 38; 60] (at_ b q)) eqn:Hsym.
  { cbv iota zeta. split; [lia|]. split; [apply Hend; lia|]. split; [lia|]. by split. }
  destruct (Z.eqb_spec (at_ b q) 62) as [E62|E62].
  { destruct (Z.eqb_spec (at_ b (S q)) 62) as [E2|E2]; cbv iota zeta.
    - assert (S q < es b)%nat by (apply at_in; lia).
      split; [lia|]. split; [apply Hend; lia|]. split; [lia|]. by split.
    - split; [lia|]. split; [apply Hend; lia|]. split; [lia|]. by split. }
  cbv iota zeta. assert (q < skip_word b q <= es b)%nat as Hw.
  { pose proof (skip_range (fun c => negb (strchr whitespace c) && negb (strchr symbols c)) (es b - q) q ltac:(lia)) as Hr.
    unfold skip_word. destruct (es b - q)%nat as [|n] eqn:En; [lia|].
    cbn [skip]. rewrite (proj2 (Nat.ltb_lt q (es b)) Hlt). cbn [andb].
    assert (strchr whitespace (at_ b q) = false) as Hws by (destruct Hstop as [->|?]; [lia|done]).
    assert (strchr symbols (at_ b q) = false) as Hsy.
    { unfold strchr in *. cbn [existsb symbols] in *. rewrite !orb_false_iff in *. rewrite !Z.eqb_neq in *. lia. }
    rewrite Hws, Hsy. cbn [negb andb].
    pose proof (skip_range (fun c => negb (strchr whitespace c) && negb (strchr symbols c)) n (S q) ltac:(lia)). lia. }
  split; [lia|]. split; [apply Hend; lia|]. split; [lia|]. by split.
Qed.

Lemma gettoken_ok s : (s <= es b)%nat ->
  ok (gettoken b) s (fun t s' => (s <= s' <= es b)%nat /\ (fst (fst t) <> 0 \/ at_ b s <> 0 -> (s < s')%nat)).
Proof.
  intros Hs. pose proof (token_range s Hs) as H. unfold ok, gettoken.
  destruct (token b s) as [[[r q] e] s']. destruct H as (H1 & H2 & H3 & H4 & ->). cbn [fst].
  split; [lia|]. intros [Hr|Ha]; [specialize (H3 (H4 Hr)); lia|].
  destruct (decide (skip_white b s = s)) as [E|E]; [rewrite E in *; specialize (H3 Ha); lia|lia].
Qed.

(** ** The parser ends *)

Ltac step H := eapply ok_bind; [apply H; lia|cbv beta].

Lemma parseredirs_ok : forall fuel s, (s <= es b)%nat -> (es b - s < fuel)%nat ->
  ok (parseredirs b fuel) s (fun _ s' => (s <= s' <= es b)%nat).
Proof.
  induction fuel as [|fuel IH]; intros s Hs Hf; [lia|]. cbn [parseredirs].
  step peek_ok. intros p s1 [H1 Hp]. destruct p; cbn [negb]; [|by cbn].
  step gettoken_ok. intros [[t q] e] s2 [H2 Hp2]. specialize (Hp2 (or_intror (Hp eq_refl))).
  step gettoken_ok. intros [[t' q'] e'] s3 [H3 _]. destruct (negb (t' =? 97)); [apply ok_panic; cbn; tauto|].
  step IH. intros rs s4 H4. destruct (t =? 60), (t =? 62), (t =? 43); cbn; lia.
Qed.

Lemma parseargs_ok : forall fuel s argv rs, (s <= es b)%nat -> (es b - s < fuel)%nat ->
  ok (parseargs b fuel argv rs) s (fun _ s' => (s <= s' <= es b)%nat).
Proof.
  induction fuel as [|fuel IH]; intros s argv rs Hs Hf; [lia|]. cbn [parseargs].
  step peek_ok. intros p s1 [H1 _]. destruct p; [by cbn|].
  step gettoken_ok. intros [[t q] e] s2 [H2 Hp2]. cbn [fst] in Hp2.
  destruct (Z.eqb_spec t 0) as [|Ht]; [cbn; lia|]. specialize (Hp2 (or_introl Ht)).
  destruct (negb (t =? 97)); [apply ok_panic; cbn; tauto|]. cbv zeta.
  destruct (MAXARGS <=? _)%nat; [apply ok_panic; cbn; tauto|].
  step parseredirs_ok. intros rs' s3 H3. eapply ok_weaken; [apply IH; lia|]. cbv beta. lia.
Qed.

Lemma parsebacks_ok : forall fuel s c, (s <= es b)%nat -> (es b - s < fuel)%nat ->
  ok (parsebacks b fuel c) s (fun _ s' => (s <= s' <= es b)%nat).
Proof.
  induction fuel as [|fuel IH]; intros s c Hs Hf; [lia|]. cbn [parsebacks].
  step peek_ok. intros p s1 [H1 Hp]. destruct p; [|by cbn].
  step gettoken_ok. intros t s2 [H2 Hp2]. specialize (Hp2 (or_intror (Hp eq_refl))).
  eapply ok_weaken; [apply IH; lia|]. cbv beta. lia.
Qed.

(** The position moves on, and [n] rounds per character are enough. *)
Definition ends (f : M nat cmd) (s : nat) : Prop := ok f s (fun _ s' => (s <= s' <= es b)%nat).

Lemma skip_white_id s : strchr whitespace (at_ b s) = false -> skip_white b s = s.
Proof.
  intros H. unfold skip_white. destruct (es b - s)%nat as [|n]; [done|]. cbn [skip].
  by rewrite H, andb_false_r.
Qed.

(** A look-ahead for one character. *)
Lemma peek_one c s : (s <= es b)%nat ->
  ok (peek b [c]) s (fun p s' => (s <= s' <= es b)%nat /\ (p = true -> at_ b s' = c /\ at_ b s' <> 0)).
Proof.
  intros Hs. unfold ok, peek. split; [by apply skip_white_range|].
  intros [H1 H2]%andb_true_iff. apply negb_true_iff, Z.eqb_neq in H1. unfold strchr in H2.
  cbn [existsb] in H2. rewrite orb_false_r in H2. by apply Z.eqb_eq in H2.
Qed.

Lemma peek_here c s : at_ b s = c -> c <> 0 -> strchr whitespace c = false -> peek b [c] s = Done (true, s).
Proof.
  intros H Hc Hw. unfold peek. rewrite skip_white_id by (by rewrite H). rewrite H.
  rewrite (proj2 (Z.eqb_neq c 0) Hc). unfold strchr. cbn [existsb]. by rewrite Z.eqb_refl.
Qed.

Lemma parse_ok : forall fuel s, (s <= es b)%nat ->
  ((4 * (es b - s) + 4 <= fuel)%nat -> ends (parseline b fuel) s) /\
  ((4 * (es b - s) + 3 <= fuel)%nat -> ends (parsepipe b fuel) s) /\
  ((4 * (es b - s) + 2 <= fuel)%nat -> ends (parseexec b fuel) s) /\
  ((4 * (es b - s) + 1 <= fuel)%nat -> at_ b s = 40 -> ends (parseblock b fuel) s).
Proof.
  induction fuel as [|fuel IH]; intros s Hs; [split_and!; intros; lia|].
  assert (forall s, (s <= es b)%nat -> (4 * (es b - s) + 4 <= fuel)%nat -> ends (parseline b fuel) s) as IHl
    by (intros s' Hs'; apply IH, Hs').
  assert (forall s, (s <= es b)%nat -> (4 * (es b - s) + 3 <= fuel)%nat -> ends (parsepipe b fuel) s) as IHp
    by (intros s' Hs'; apply IH, Hs').
  assert (forall s, (s <= es b)%nat -> (4 * (es b - s) + 2 <= fuel)%nat -> ends (parseexec b fuel) s) as IHe
    by (intros s' Hs'; apply IH, Hs').
  assert (forall s, (s <= es b)%nat -> (4 * (es b - s) + 1 <= fuel)%nat -> at_ b s = 40 -> ends (parseblock b fuel) s) as IHb
    by (intros s' Hs'; apply IH, Hs').
  clear IH. split; [|split; [|split]]; intros Hf; unfold ends.
  - cbn [parseline]. step IHp. intros c s1 H1. step parsebacks_ok. intros c2 s2 H2.
    step (peek_one 59). intros p s3 [H3 Hp]. destruct p; [|by cbn; lia].
    step gettoken_ok. intros t s4 [H4 Hp4]. specialize (Hp4 (or_intror (proj2 (Hp eq_refl)))).
    step IHl. intros c' s5 H5. cbn. lia.
  - cbn [parsepipe]. step IHe. intros c s1 H1.
    step (peek_one 124). intros p s3 [H3 Hp]. destruct p; [|by cbn; lia].
    step gettoken_ok. intros t s4 [H4 Hp4]. specialize (Hp4 (or_intror (proj2 (Hp eq_refl)))).
    step IHp. intros c' s5 H5. cbn. lia.
  - cbn [parseexec]. step (peek_one 40). intros p s1 [H1 Hp]. destruct p.
    + eapply ok_weaken; [apply IHb; [lia|lia|by apply Hp]|]. cbv beta. lia.
    + step parseredirs_ok. intros rs s2 H2. step parseargs_ok. intros [argv rs'] s3 H3. cbn. lia.
  - intros Ha. cbn [parseblock].
    eapply ok_bind_done; [by apply (peek_here 40 s Ha)|]. cbn [negb].
    assert (at_ b s <> 0) as Hnz by (by rewrite Ha).
    step gettoken_ok. intros t s1 [H1 Hp1]. specialize (Hp1 (or_intror Hnz)).
    step IHl. intros c s2 H2. step (peek_one 41). intros p s3 [H3 _].
    destruct p; cbn [negb]; [|apply ok_panic; cbn; tauto].
    step gettoken_ok. intros t' s4 [H4 _]. step parseredirs_ok. intros rs s5 H5. cbn. lia.
Qed.

End Proofs.
