(* ===== verification/ShellGrammar.v ===== *)
(** * The grammar of command lines, and reading its text

    The trees of command lines, their text and the commands they stand for;
    the parser on a text of the grammar. *)
From S2P Require Import Prelude Shell ShellProofs.

(** ** The grammar of command lines *)

Inductive rkind : Type := RIn | ROut | RApp.

Definition redir_t : Type := rkind * list Z.

(** A simple command with its redirections in any place, or a block; a
    pipeline; a line with its [&]s and [;]s. *)
Inductive exec_t : Type :=
| Simple (pre : list redir_t) (args : list (list Z * list redir_t))
| Block (l : line_t) (rs : list redir_t)
with pipe_t : Type :=
| Last (e : exec_t)
| Pipe (e : exec_t) (p : pipe_t)
with line_t : Type :=
| Line (p : pipe_t) (backs : nat)
| Seq (p : pipe_t) (backs : nat) (l : line_t).

Scheme exec_mut := Induction for exec_t Sort Prop
with pipe_mut := Induction for pipe_t Sort Prop
with line_mut := Induction for line_t Sort Prop.
Combined Scheme grammar_ind from exec_mut, pipe_mut, line_mut.

(** Its text, with a blank after every token. *)
Definition op (k : rkind) : list Z := match k with RIn => [60] | ROut => [62] | RApp => [62; 62] end.
Definition print_redir (r : redir_t) : list Z := op (fst r) ++ 32 :: snd r ++ [32].
Definition print_redirs (rs : list redir_t) : list Z := flat_map print_redir rs.
Definition print_arg (a : list Z * list redir_t) : list Z := fst a ++ 32 :: print_redirs (snd a).
Fixpoint print_exec (e : exec_t) : list Z :=
  match e with
  | Simple pre args => print_redirs pre ++ flat_map print_arg args
  | Block l rs => 40 :: 32 :: print_line l ++ 41 :: 32 :: print_redirs rs
  end
with print_pipe (p : pipe_t) : list Z :=
  match p with
  | Last e => print_exec e
  | Pipe e p => print_exec e ++ 124 :: 32 :: print_pipe p
  end
with print_line (l : line_t) : list Z :=
  match l with
  | Line p n => print_pipe p ++ concat (repeat [38; 32] n)
  | Seq p n l => print_pipe p ++ concat (repeat [38; 32] n) ++ 59 :: 32 :: print_line l
  end.

(** The command it stands for. *)
Definition mode (k : rkind) : Z :=
  match k with
  | RIn => O_RDONLY
  | ROut => Z.lor (Z.lor O_WRONLY O_CREATE) O_TRUNC
  | RApp => Z.lor O_WRONLY O_CREATE
  end.
Definition redir_of (r : redir_t) : list Z * Z * Z :=
  (snd r, mode (fst r), match fst r with RIn => 0 | _ => 1 end).
Fixpoint denote_exec (e : exec_t) : cmd_of (list Z) :=
  match e with
  | Simple pre args => redirs (map redir_of (pre ++ flat_map snd args)) (EXEC (map fst args))
  | Block l rs => redirs (map redir_of rs) (denote_line l)
  end
with denote_pipe (p : pipe_t) : cmd_of (list Z) :=
  match p with
  | Last e => denote_exec e
  | Pipe e p => PIPE (denote_exec e) (denote_pipe p)
  end
with denote_line (l : line_t) : cmd_of (list Z) :=
  match l with
  | Line p n => Nat.iter n BACK (denote_pipe p)
  | Seq p n l => LIST (Nat.iter n BACK (denote_pipe p)) (denote_line l)
  end.

(** Words have no blanks, symbols or NULs; a command has fewer than
    [MAXARGS] arguments. *)
Definition word_char (c : Z) : Prop := c <> 0 /\ strchr whitespace c = false /\ strchr symbols c = false.
Definition word_ok (w : list Z) : Prop := w <> [] /\ Forall word_char w.
Definition redirs_ok (rs : list redir_t) : Prop := Forall (fun r => word_ok (snd r)) rs.
Fixpoint exec_ok (e : exec_t) : Prop :=
  match e with
  | Simple pre args => redirs_ok pre /\ Forall (fun a => word_ok (fst a) /\ redirs_ok (snd a)) args /\
      (length args < MAXARGS)%nat
  | Block l rs => line_ok l /\ redirs_ok rs
  end
with pipe_ok (p : pipe_t) : Prop :=
  match p with
  | Last e => exec_ok e
  | Pipe e p => exec_ok e /\ pipe_ok p
  end
with line_ok (l : line_t) : Prop :=
  match l with
  | Line p _ => pipe_ok p
  | Seq p _ l => pipe_ok p /\ line_ok l
  end.

(** Two commands of the same shape with related words. *)
Inductive cmd_rel {A B} (R : A -> B -> Prop) : cmd_of A -> cmd_of B -> Prop :=
| rel_exec l1 l2 : Forall2 R l1 l2 -> cmd_rel R (EXEC l1) (EXEC l2)
| rel_redir c1 c2 f1 f2 m fd : cmd_rel R c1 c2 -> R f1 f2 -> cmd_rel R (REDIR c1 f1 m fd) (REDIR c2 f2 m fd)
| rel_pipe a1 a2 b1 b2 : cmd_rel R a1 a2 -> cmd_rel R b1 b2 -> cmd_rel R (PIPE a1 b1) (PIPE a2 b2)
| rel_list a1 a2 b1 b2 : cmd_rel R a1 a2 -> cmd_rel R b1 b2 -> cmd_rel R (LIST a1 b1) (LIST a2 b2)
| rel_back c1 c2 : cmd_rel R c1 c2 -> cmd_rel R (BACK c1) (BACK c2).

Lemma rel_backs {A B} (R : A -> B -> Prop) n c1 c2 :
  cmd_rel R c1 c2 -> cmd_rel R (Nat.iter n BACK c1) (Nat.iter n BACK c2).
Proof. intros H. induction n; [done|]. by constructor. Qed.

Definition redir_rel {A B} (R : A -> B -> Prop) (r1 : A * Z * Z) (r2 : B * Z * Z) : Prop :=
  R (fst (fst r1)) (fst (fst r2)) /\ snd (fst r1) = snd (fst r2) /\ snd r1 = snd r2.

Lemma rel_redirs {A B} (R : A -> B -> Prop) rs1 rs2 : Forall2 (redir_rel R) rs1 rs2 ->
  forall c1 c2, cmd_rel R c1 c2 -> cmd_rel R (redirs rs1 c1) (redirs rs2 c2).
Proof.
  unfold redirs. induction 1 as [|[[f1 m1] d1] [[f2 m2] d2] rs1 rs2 (H1 & H2 & H3) _ IH]; intros c1 c2 Hc; [done|].
  cbn in *. subst. apply IH. by constructor.
Qed.

(** ** Reading the text

    The text is followed by the white space [trail]: the newline that ends
    an input line. *)

Section Reading.
Variables b trail : list Z.
Hypothesis Htrail : Forall (fun c => strchr whitespace c = true) trail.

(** The line from [s] on is [l]. *)
Definition raw (s : nat) (l : list Z) : Prop := drop s b = l /\ (s <= es b)%nat.
(** The text from [s] on is [l]: at the end of the text the parser is past
    the white space. *)
Definition pad (l : list Z) : list Z := match l with [] => [] | _ => l ++ trail end.
Definition here (s : nat) (l : list Z) : Prop := raw s (pad l).
(** A word and where it is, with a blank after it. *)
Definition spot (a : nat * nat) (w : list Z) : Prop :=
  exists rest, drop (fst a) b = w ++ 32 :: rest /\ snd a = (fst a + length w)%nat /\ word_ok w.

(** Nothing to skip. *)
Definition clean (l : list Z) : Prop := match l with [] => True | c :: _ => strchr whitespace c = false end.
Definition not_redir (l : list Z) : Prop := match l with [] => True | c :: _ => c <> 60 /\ c <> 62 end.

Lemma raw_at s l : raw s l -> at_ b s = hd 0 l.
Proof.
  intros [H _]. unfold at_. rewrite <- H. clear. revert s.
  induction b as [|c b' IH]; intros [|s]; try done. apply IH.
Qed.

Lemma raw_length s l : raw s l -> (es b - s = length l)%nat.
Proof. intros [<- _]. unfold es. by rewrite length_drop. Qed.

Lemma raw_app s l1 l2 : raw s (l1 ++ l2) -> raw (s + length l1) l2.
Proof.
  intros [H Hs]. pose proof (raw_length s _ (conj H Hs)) as Hl. rewrite length_app in Hl. split.
  - by rewrite <- drop_drop, H, drop_app_length.
  - lia.
Qed.

Lemma raw_cons s c l : raw s (c :: l) -> raw (S s) l.
Proof. intros H. apply (raw_app s [c] l) in H. by rewrite Nat.add_1_r in H. Qed.

Lemma skip_raw p : forall l1 l2 fuel s, raw s (l1 ++ l2) -> Forall (fun c => p c = true) l1 ->
  match l2 with [] => True | c :: _ => p c = false end -> (length l1 <= fuel)%nat ->
  skip b fuel p s = (s + length l1)%nat.
Proof.
  induction l1 as [|c l1 IH]; intros l2 fuel s Hs H1 H2 Hf.
  - cbn [length]. rewrite Nat.add_0_r. destruct fuel as [|fuel]; [done|]. cbn [skip].
    pose proof (raw_length _ _ Hs) as Hl. pose proof (raw_at _ _ Hs) as Ha. cbn [app] in *.
    destruct l2 as [|c l2]; cbn [length hd] in *.
    + by rewrite (proj2 (Nat.ltb_ge s (es b))) by lia.
    + by rewrite Ha, H2, andb_false_r.
  - destruct fuel as [|fuel]; [cbn in Hf; lia|]. cbn [skip].
    pose proof (raw_length _ _ Hs) as Hl. pose proof (raw_at _ _ Hs) as Ha. cbn [app length hd] in *.
    apply Forall_cons in H1 as [H1 H1'].
    rewrite (proj2 (Nat.ltb_lt s (es b))) by lia. rewrite Ha, H1. cbn [andb].
    rewrite (IH l2 fuel (S s) (raw_cons _ _ _ Hs) H1' H2) by lia. lia.
Qed.

Lemma here_at s l : here s l -> at_ b s = hd 0 l.
Proof. intros H. rewrite (raw_at _ _ H). by destruct l. Qed.

Lemma here_length s l : here s l -> (length l <= es b - s)%nat.
Proof. intros H. rewrite (raw_length _ _ H). destruct l; [done|]. cbn [pad]. rewrite length_app. lia. Qed.

Lemma here_rest s l1 c l2 : here s (l1 ++ c :: l2) -> raw (s + length l1) (c :: l2 ++ trail).
Proof.
  intros H. unfold here in H.
  assert (pad (l1 ++ c :: l2) = l1 ++ c :: l2 ++ trail) as E by (destruct l1; [done|]; cbn; by rewrite <- app_assoc).
  rewrite E in H. by apply raw_app.
Qed.

Lemma here_cons s c c' l : here s (c :: c' :: l) -> here (S s) (c' :: l).
Proof. intros H. apply (here_rest s [c] c' l) in H. cbn [length] in H. by rewrite Nat.add_1_r in H. Qed.

Lemma white_raw s l : raw s l -> clean l -> skip_white b s = s.
Proof.
  intros H Hc. unfold skip_white. rewrite (skip_raw _ [] l _ s H) by (try done; cbn; lia).
  cbn. lia.
Qed.

Lemma white_clean s l : here s l -> clean l -> skip_white b s = s.
Proof. intros H Hc. apply (white_raw s _ H). by destruct l. Qed.

(** Past white space. *)
Lemma white_space s w l : raw s (w ++ pad l) -> Forall (fun c => strchr whitespace c = true) w -> clean l ->
  here (skip_white b s) l.
Proof.
  intros H Hw Hc. unfold skip_white. pose proof (raw_length _ _ H) as Hl. rewrite length_app in Hl.
  rewrite (skip_raw _ w (pad l) _ s H) by (try done; try lia; by destruct l). by apply raw_app.
Qed.

(** Past the blank of a token. *)
Lemma white_blank s l : raw s (32 :: l ++ trail) -> clean l -> here (skip_white b s) l.
Proof.
  intros H Hc. destruct l as [|c l].
  - apply (white_space s (32 :: trail)); [|by constructor|done]. cbn [pad app] in *. by rewrite app_nil_r.
  - apply (white_space s [32]); [done|by repeat constructor|done].
Qed.

Lemma peek_clean toks s l : here s l -> clean l ->
  peek b toks s = Done (negb (hd 0 l =? 0) && strchr toks (hd 0 l), s).
Proof.
  intros H Hc. unfold peek. by rewrite (white_clean s l H Hc), (here_at s l H).
Qed.

Lemma token_char s c l : here s (c :: 32 :: l) -> clean l -> strchr [124; 40; 41; 59; 38; 60] c = true ->
  exists s', token b s = (c, s, S s, s') /\ here s' l.
Proof.
  intros H Hc Hsym. assert (strchr whitespace c = false /\ c <> 0) as [Hw Hz].
  { unfold strchr in *. cbn [existsb whitespace] in *. rewrite !orb_true_iff, !Z.eqb_eq in Hsym.
    rewrite !orb_false_iff, !Z.eqb_neq. lia. }
  exists (skip_white b (S s)). split; [|apply white_blank; [apply (here_cons _ _ _ _ H)|done]].
  unfold token. rewrite (white_clean s _ H Hw), (here_at _ _ H). cbn [hd].
  by rewrite (proj2 (Z.eqb_neq c 0) Hz), Hsym.
Qed.

Lemma token_gt s l : here s (62 :: 32 :: l) -> clean l -> exists s', token b s = (62, s, S s, s') /\ here s' l.
Proof.
  intros H Hc. pose proof (here_cons _ _ _ _ H) as H1.
  exists (skip_white b (S s)). split; [|by apply white_blank].
  unfold token. rewrite (white_clean s _ H eq_refl), (here_at _ _ H). cbn [hd Z.eqb Pos.eqb strchr existsb orb].
  by rewrite (here_at _ _ H1).
Qed.

Lemma token_gtgt s l : here s (62 :: 62 :: 32 :: l) -> clean l ->
  exists s', token b s = (43, s, S (S s), s') /\ here s' l.
Proof.
  intros H Hc. pose proof (here_cons _ _ _ _ H) as H1. pose proof (here_cons _ _ _ _ H1) as H2.
  exists (skip_white b (S (S s))). split; [|by apply white_blank].
  unfold token. rewrite (white_clean s _ H eq_refl), (here_at _ _ H). cbn [hd Z.eqb Pos.eqb strchr existsb orb].
  by rewrite (here_at _ _ H1).
Qed.

Lemma token_word s w l : here s (w ++ 32 :: l) -> word_ok w -> clean l ->
  exists s', token b s = (97, s, (s + length w)%nat, s') /\ here s' l /\ spot (s, (s + length w)%nat) w.
Proof.
  intros H Hw Hc. pose proof (here_rest _ _ _ _ H) as H1.
  exists (skip_white b (s + length w)). split; [|split; [by apply white_blank|]].
  - destruct Hw as [Hne Hall]. destruct w as [|c w]; [done|]. apply Forall_cons in Hall as Hcw. destruct Hcw as [(Hz & Hws & Hsy) _].
    unfold token. rewrite (white_clean s _ H) by done. rewrite (here_at _ _ H). cbn [hd app].
    assert (strchr [124; 40; 41; 59; 38; 60] c = false /\ c <> 62) as [E1 E2].
    { unfold strchr in *. cbn [existsb symbols] in *. rewrite !orb_false_iff, !Z.eqb_neq in *. lia. }
    rewrite (proj2 (Z.eqb_neq c 0) Hz), E1, (proj2 (Z.eqb_neq c 62) E2). cbv iota zeta.
    assert (skip_word b s = (s + length (c :: w))%nat) as ->; [|done].
    unfold skip_word. apply (skip_raw _ _ (32 :: l ++ trail)); [|eapply Forall_impl; [exact Hall|]|done|].
    + unfold here, pad in H. cbn [app] in H. cbn [app]. by rewrite <- app_assoc in H.
    + cbv beta. by intros x (_ & -> & ->).
    + pose proof (here_length _ _ H) as Hl. rewrite length_app in Hl. cbn [length] in *. lia.
  - exists (l ++ trail). split; [|done]. destruct H as [H _]. cbn [fst]. rewrite H.
    destruct w as [|c w]; [by destruct Hw|]. cbn. by rewrite <- app_assoc.
Qed.

Lemma word_clean w l : word_ok w -> clean (w ++ l) /\ hd 0 (w ++ l) = hd 0 w /\ hd 0 w <> 0 /\ strchr symbols (hd 0 w) = false.
Proof. intros [Hne Hall]. destruct w as [|c w]; [done|]. by apply Forall_cons in Hall as [(? & ? & ?) _]. Qed.

Lemma gettoken_bind {B} s t q e s' (K : Z * nat * nat -> M nat B) :
  token b s = (t, q, e, s') -> bind (gettoken b) K s = K (t, q, e) s'.
Proof. intros H. unfold bind, gettoken. by rewrite H. Qed.

(** A token whose value is not used. *)
Lemma gettoken_drop {B} s t q e s' (K : M nat B) :
  token b s = (t, q, e, s') -> bind (gettoken b) (fun _ => K) s = K s'.
Proof. intros H. by rewrite (gettoken_bind _ _ _ _ _ _ H). Qed.

Lemma redir_clean r l : clean (print_redir r ++ l).
Proof. by destruct r as [[] w]. Qed.

Lemma redirs_clean rs l : clean l -> clean (print_redirs rs ++ l).
Proof. intros Hl. destruct rs as [|r rs]; [done|]. cbn [print_redirs flat_map]. rewrite <- app_assoc. apply redir_clean. Qed.

(** One redirection: its operator and its file. *)
Lemma redir_tokens s r l : here s (print_redir r ++ l) -> word_ok (snd r) -> clean l ->
  exists s1 q e s', token b s = (match fst r with RIn => 60 | ROut => 62 | RApp => 43 end, s, s1, q) /\
    token b q = (97, q, e, s') /\ spot (q, e) (snd r) /\ here s' l.
Proof.
  intros H Hw Hc. destruct r as [k w]. unfold print_redir in H. cbn [fst snd] in *.
  rewrite <- app_assoc in H. cbn [app] in H. rewrite <- app_assoc in H. cbn [app] in H.
  pose proof (proj1 (word_clean w (32 :: l) Hw)) as Hcw.
  destruct k; cbn [op app] in H.
  - destruct (token_char _ _ _ H Hcw eq_refl) as (s1 & H1 & H2). destruct (token_word _ _ _ H2 Hw Hc) as (s2 & H3 & H4 & H5).
    do 4 eexists. split; [exact H1|]. split; [exact H3|]. by split.
  - destruct (token_gt _ _ H Hcw) as (s1 & H1 & H2). destruct (token_word _ _ _ H2 Hw Hc) as (s2 & H3 & H4 & H5).
    do 4 eexists. split; [exact H1|]. split; [exact H3|]. by split.
  - destruct (token_gtgt _ _ H Hcw) as (s1 & H1 & H2). destruct (token_word _ _ _ H2 Hw Hc) as (s2 & H3 & H4 & H5).
    do 4 eexists. split; [exact H1|]. split; [exact H3|]. by split.
Qed.

Lemma parseredirs_here : forall rs fuel s l,
  here s (print_redirs rs ++ l) -> redirs_ok rs -> clean l -> not_redir l -> (length rs < fuel)%nat ->
  exists rs' s', parseredirs b fuel s = Done (rs', s') /\ here s' l /\
    Forall2 (redir_rel spot) rs' (map redir_of rs).
Proof.
  induction rs as [|r rs IH]; intros fuel s l H Hok Hc Hn Hf; (destruct fuel as [|fuel]; [cbn in Hf; lia|]); cbn [parseredirs].
  - exists [], s. rewrite (bind_done _ _ _ _ _ (peek_clean [60; 62] s l H Hc)).
    assert (negb (hd 0 l =? 0) && strchr [60; 62] (hd 0 l) = false) as ->.
    { destruct l as [|c l]; [done|]. cbn in Hn |- *. rewrite orb_false_r.
      rewrite (proj2 (Z.eqb_neq c 60)), (proj2 (Z.eqb_neq c 62)) by tauto. apply andb_false_r. }
    split; [done|]. split; [done|constructor].
  - apply Forall_cons in Hok as [Hr Hok]. cbn [print_redirs flat_map] in H. rewrite <- app_assoc in H.
    fold (print_redirs rs) in H. pose proof (redirs_clean rs l Hc) as Hc'.
    destruct (redir_tokens s r _ H Hr Hc') as (s1 & q & e & s2 & T1 & T2 & Hsp & H2).
    destruct (IH fuel s2 l H2 Hok Hc Hn) as (rs' & s' & Hrun & Hs' & Hrel); [cbn in Hf; lia|].
    rewrite (bind_done _ _ _ _ _ (peek_clean [60; 62] s _ H (redir_clean _ _))).
    assert (negb (hd 0 (print_redir r ++ print_redirs rs ++ l) =? 0) &&
            strchr [60; 62] (hd 0 (print_redir r ++ print_redirs rs ++ l)) = true) as -> by (by destruct r as [[] w]).
    cbn [negb]. rewrite (gettoken_bind _ _ _ _ _ _ T1), (gettoken_bind _ _ _ _ _ _ T2).
    cbn [Z.eqb Pos.eqb negb]. rewrite (bind_done _ _ _ _ _ Hrun).
    exists (((q, e), mode (fst r), match fst r with RIn => 0 | _ => 1 end) :: rs'), s'.
    split; [by destruct r as [[] w]|]. split; [done|]. constructor; [|done]. by split.
Qed.

(** The line ends a simple command here. *)
Definition ends_exec (l : list Z) : Prop :=
  match l with [] => True | c :: _ => strchr [124; 41; 38; 59] c = true end.

Lemma ends_exec_facts l : ends_exec l -> clean l /\ not_redir l /\ hd 0 l <> 40 /\
  (hd 0 l = 0 -> l = []) /\ negb (hd 0 l =? 0) && strchr [124; 41; 38; 59] (hd 0 l) = negb (hd 0 l =? 0).
Proof.
  destruct l as [|c l]; [done|]. cbn [ends_exec clean not_redir hd]. intros H. rewrite H, andb_true_r.
  unfold strchr in *. cbn [existsb whitespace] in *. rewrite !orb_true_iff, !Z.eqb_eq in H.
  rewrite !orb_false_iff, !Z.eqb_neq. split; [lia|]. split; [lia|]. split; [lia|]. split; [lia|done].
Qed.

Lemma args_clean args l : Forall (fun a => word_ok (fst a)) args -> clean l -> clean (flat_map print_arg args ++ l).
Proof.
  intros Ha Hl. destruct args as [|[w rs] args]; [done|]. apply Forall_cons in Ha as [Hw _].
  cbn [flat_map]. unfold print_arg. cbn [fst snd]. rewrite <- !app_assoc. by apply word_clean.
Qed.

Lemma args_not_redir args l : Forall (fun a => word_ok (fst a)) args -> not_redir l ->
  not_redir (flat_map print_arg args ++ l).
Proof.
  intros Ha Hl. destruct args as [|[w rs] args]; [done|]. apply Forall_cons in Ha as [[Hne Hall] _].
  cbn [fst] in *. destruct w as [|c w]; [done|]. apply Forall_cons in Hall as [(_ & _ & Hs) _].
  cbn. unfold strchr in Hs. cbn [existsb symbols] in Hs. rewrite !orb_false_iff, !Z.eqb_neq in Hs. lia.
Qed.

Lemma redirs_length rs : (length rs <= length (print_redirs rs))%nat.
Proof.
  induction rs as [|[k w] rs IH]; [done|]. cbn [print_redirs flat_map length]. rewrite length_app.
  unfold print_redirs in IH. unfold print_redir at 1. cbn [fst]. rewrite length_app. destruct k; cbn [op length]; lia.
Qed.

Lemma parseargs_here : forall args fuel s l argv rs argv0 rs0,
  here s (flat_map print_arg args ++ l) -> ends_exec l ->
  Forall (fun a => word_ok (fst a) /\ redirs_ok (snd a)) args ->
  (length argv + length args < MAXARGS)%nat -> (length args < fuel)%nat ->
  Forall2 spot argv argv0 -> Forall2 (redir_rel spot) rs rs0 ->
  exists argv' rs' s', parseargs b fuel argv rs s = Done ((argv', rs'), s') /\ here s' l /\
    Forall2 spot argv' (argv0 ++ map fst args) /\
    Forall2 (redir_rel spot) rs' (rs0 ++ map redir_of (flat_map snd args)).
Proof.
  induction args as [|[w r] args IH]; intros fuel s l argv rs argv0 rs0 H He Hok Hlen Hf Ha Hr;
    (destruct fuel as [|fuel]; [cbn in Hf; lia|]); cbn [parseargs].
  - destruct (ends_exec_facts l He) as (Hc & _ & _ & Hz & Hp). cbn [flat_map app] in H.
    exists argv, rs, s. rewrite (bind_done _ _ _ _ _ (peek_clean _ s l H Hc)), Hp.
    cbn [map flat_map]. rewrite !app_nil_r. split; [|by split_and!].
    destruct (Z.eqb_spec (hd 0 l) 0) as [E|E]; cbn [negb]; [|done].
    rewrite (Hz E) in H. assert (token b s = (0, s, s, s)) as T.
    { unfold token. rewrite (white_clean s [] H I), (here_at _ _ H). cbn [hd Z.eqb].
      by rewrite (white_clean s [] H I). }
    by rewrite (gettoken_bind _ _ _ _ _ _ T).
  - apply Forall_cons in Hok as [[Hw Hro] Hok]. cbn [fst snd] in *.
    destruct (ends_exec_facts l He) as (Hc & Hnr & _).
    assert (Forall (fun a : list Z * list redir_t => word_ok (fst a)) args) as Hwords
      by (eapply Forall_impl; [exact Hok|]; by intros ? [? _]).
    cbn [flat_map] in H. unfold print_arg at 1 in H. cbn [fst snd] in H.
    rewrite <- !app_assoc in H. cbn [app] in H. rewrite <- ?app_assoc in H.
    set (l1 := flat_map print_arg args ++ l) in *.
    assert (clean l1) as Hc1 by (by apply args_clean).
    destruct (token_word s w _ H Hw (redirs_clean r l1 Hc1)) as (s0 & T & H1 & Hsp).
    destruct (word_clean w (32 :: print_redirs r ++ l1) Hw) as (Hcw & Hhd & Hnz & Hsy).
    rewrite (bind_done _ _ _ _ _ (peek_clean [124; 41; 38; 59] s _ H Hcw)), Hhd.
    assert (strchr [124; 41; 38; 59] (hd 0 w) = false) as E.
    { unfold strchr in *. cbn [existsb symbols] in *. rewrite !orb_false_iff in *. tauto. }
    rewrite E, andb_false_r, (gettoken_bind _ _ _ _ _ _ T). cbn [Z.eqb Pos.eqb negb]. cbv zeta.
    rewrite length_app. cbn [length] in *. rewrite (proj2 (Nat.leb_gt MAXARGS _)) by lia.
    destruct (parseredirs_here r (S (es b)) _ l1 H1 Hro Hc1) as (rs1 & s1 & Hrun & Hs1 & Hrel).
    { by apply args_not_redir. }
    { pose proof (redirs_length r). pose proof (here_length _ _ H1) as Hl. rewrite length_app in Hl. lia. }
    rewrite (bind_done _ _ _ _ _ Hrun).
    destruct (IH fuel s1 l (argv ++ [(s, (s + length w)%nat)]) (rs ++ rs1) (argv0 ++ [w]) (rs0 ++ map redir_of r))
      as (argv' & rs' & s' & Hrun' & Hs' & Ha' & Hr'); try done.
    + rewrite length_app. cbn [length]. lia.
    + lia.
    + apply Forall2_app; [done|]. by repeat constructor.
    + by apply Forall2_app.
    + exists argv', rs', s'. split; [done|]. split; [done|]. rewrite <- !app_assoc in Ha', Hr'.
      cbn [flat_map map fst snd]. rewrite map_app. by split.
Qed.

(** ** The grammar *)

(** The line ends a pipeline here, or a whole line. *)
Definition ends_pipe (l : list Z) : Prop := match l with [] => True | c :: _ => strchr [41; 38; 59] c = true end.
Definition ends_line (l : list Z) : Prop := match l with [] => True | c :: _ => c = 41 end.

Lemma ends_pipe_exec l : ends_pipe l -> ends_exec l.
Proof. destruct l as [|c l]; [done|]. unfold ends_pipe, ends_exec, strchr. cbn [existsb]. intros ->. apply orb_true_r. Qed.

Lemma ends_clean l : ends_exec l -> clean l.
Proof. apply ends_exec_facts. Qed.

Lemma backs_clean n l : clean l -> clean (concat (repeat [38; 32] n) ++ l).
Proof. by destruct n. Qed.

Lemma print_clean :
  (forall e, exec_ok e -> forall l, clean l -> clean (print_exec e ++ l)) /\
  (forall p, pipe_ok p -> forall l, clean l -> clean (print_pipe p ++ l)) /\
  (forall t, line_ok t -> forall l, clean l -> clean (print_line t ++ l)).
Proof.
  apply grammar_ind; cbn [exec_ok pipe_ok line_ok print_exec print_pipe print_line].
  - intros pre args (Hp & Ha & _) l Hl. rewrite <- app_assoc. apply redirs_clean, args_clean; [|done].
    eapply Forall_impl; [exact Ha|]. by intros ? [? _].
  - done.
  - done.
  - intros e IHe p IHp [He Hp] l Hl. rewrite <- app_assoc. by apply IHe.
  - intros p IHp n Hp l Hl. rewrite <- app_assoc. by apply IHp, backs_clean.
  - intros p IHp n t IHt [Hp Ht] l Hl. rewrite <- app_assoc. apply IHp; [done|]. rewrite <- app_assoc. by apply backs_clean.
Qed.

(** A look-ahead that finds, or does not find, one symbol. *)
Lemma peek_yes c s l : here s (c :: l) -> strchr whitespace c = false -> c <> 0 -> peek b [c] s = Done (true, s).
Proof.
  intros H Hw Hc. rewrite (peek_clean [c] s _ H Hw). cbn [hd strchr existsb].
  by rewrite Z.eqb_refl, (proj2 (Z.eqb_neq c 0) Hc).
Qed.

Lemma peek_no c s l : here s l -> clean l -> c <> 0 -> hd 0 l <> c -> peek b [c] s = Done (false, s).
Proof.
  intros H Hl Hc Hne. rewrite (peek_clean [c] s _ H Hl). cbn [strchr existsb].
  by rewrite (proj2 (Z.eqb_neq _ _) Hne), andb_false_r.
Qed.

Lemma parsebacks_here : forall n fuel s l c d, here s (concat (repeat [38; 32] n) ++ l) -> clean l -> hd 0 l <> 38 ->
  (n < fuel)%nat -> cmd_rel spot c d ->
  exists c' s', parsebacks b fuel c s = Done (c', s') /\ here s' l /\ cmd_rel spot c' (Nat.iter n BACK d).
Proof.
  induction n as [|n IH]; intros fuel s l c d H Hc Hl Hf Hr; (destruct fuel as [|fuel]; [lia|]); cbn [parsebacks].
  - rewrite (bind_done _ _ _ _ _ (peek_no 38 s l H Hc ltac:(lia) Hl)). by exists c, s.
  - cbn [repeat concat app] in H. rewrite (bind_done _ _ _ _ _ (peek_yes 38 s _ H eq_refl ltac:(lia))).
    destruct (token_char s 38 _ H (backs_clean n l Hc) eq_refl) as (s1 & T & H1).
    rewrite (gettoken_drop _ _ _ _ _ _ T), Nat.iter_succ_r.
    apply (IH fuel s1 l (BACK c) (BACK d)); [done..|lia|by constructor].
Qed.

Lemma simple_head pre args l : Forall (fun a => word_ok (fst a) /\ redirs_ok (snd a)) args -> hd 0 l <> 40 ->
  hd 0 (print_redirs pre ++ flat_map print_arg args ++ l) <> 40.
Proof.
  intros Ha Hl. destruct pre as [|[[] w] pre]; [|done..]. destruct args as [|[w rs] args]; [done|].
  apply Forall_cons in Ha as [[Hw _] _]. cbn [fst] in Hw.
  replace (print_redirs [] ++ flat_map print_arg ((w, rs) :: args) ++ l)
    with (w ++ 32 :: print_redirs rs ++ flat_map print_arg args ++ l)
    by (cbn [print_redirs flat_map app]; unfold print_arg; cbn [fst snd]; by rewrite <- !app_assoc; cbn [app]; rewrite <- ?app_assoc).
  destruct (word_clean w (32 :: print_redirs rs ++ flat_map print_arg args ++ l) Hw) as (_ & -> & _ & Hs).
  intros E'. by rewrite E' in Hs.
Qed.

Lemma backs_ends n l : ends_pipe l -> ends_pipe (concat (repeat [38; 32] n) ++ l).
Proof. by destruct n. Qed.

Lemma backs_length n (l : list Z) : (n + length l <= length (concat (repeat [38%Z; 32%Z] n) ++ l))%nat.
Proof. induction n as [|n IH]; [done|]. cbn [repeat concat app length] in *. lia. Qed.

Lemma ends_line_facts l : ends_line l -> ends_pipe l /\ hd 0 l <> 38 /\ hd 0 l <> 59.
Proof. destruct l as [|c l]; [done|]. cbn [ends_line ends_pipe hd]. by intros ->. Qed.

(** The parser reads the text of a tree, whatever may follow it. *)
Definition exec_reads (e : exec_t) : Prop := exec_ok e -> forall fuel s l, here s (print_exec e ++ l) -> ends_exec l ->
  (4 * length (print_exec e ++ l) + 2 <= fuel)%nat ->
  exists c s', parseexec b fuel s = Done (c, s') /\ here s' l /\ cmd_rel spot c (denote_exec e).
Definition pipe_reads (p : pipe_t) : Prop := pipe_ok p -> forall fuel s l, here s (print_pipe p ++ l) -> ends_pipe l ->
  (4 * length (print_pipe p ++ l) + 3 <= fuel)%nat ->
  exists c s', parsepipe b fuel s = Done (c, s') /\ here s' l /\ cmd_rel spot c (denote_pipe p).
Definition line_reads (t : line_t) : Prop := line_ok t -> forall fuel s l, here s (print_line t ++ l) -> ends_line l ->
  (4 * length (print_line t ++ l) + 4 <= fuel)%nat ->
  exists c s', parseline b fuel s = Done (c, s') /\ here s' l /\ cmd_rel spot c (denote_line t).

Lemma simple_reads pre args : exec_reads (Simple pre args).
Proof.
  unfold exec_reads, pipe_reads, line_reads. cbn [exec_ok pipe_ok line_ok print_exec print_pipe print_line denote_exec denote_pipe denote_line].
  intros (Hpre & Hargs & Hlen) fuel s l H Hl Hf. destruct fuel as [|fuel]; [lia|]. cbn [parseexec].
  rewrite <- app_assoc in H. destruct (ends_exec_facts l Hl) as (Hc & Hn & H40 & _).
  assert (Forall (fun a : list Z * list redir_t => word_ok (fst a)) args) as Hw
    by (eapply Forall_impl; [exact Hargs|]; by intros ? [? _]).
  pose proof (args_clean args l Hw Hc) as Hc'. pose proof (here_length _ _ H) as Hlen'.
  rewrite (bind_done _ _ _ _ _ (peek_no 40 s _ H (redirs_clean pre _ Hc') ltac:(lia) (simple_head pre args l Hargs H40))).
  destruct (parseredirs_here pre (S (es b)) s _ H Hpre Hc' (args_not_redir args l Hw Hn)) as (rs & s1 & E & H1 & Hr).
  { pose proof (redirs_length pre). rewrite length_app in Hlen'. lia. }
  rewrite (bind_done _ _ _ _ _ E).
  destruct (parseargs_here args (S (es b)) s1 l [] rs [] (map redir_of pre) H1 Hl Hargs) as (argv & rs' & s' & E' & H' & Hav & Hr');
    [cbn; lia| |constructor|done|].
  { pose proof (here_length _ _ H1) as Hl1. rewrite length_app in Hl1.
    assert (length args <= length (flat_map print_arg args))%nat; [|lia].
    clear. induction args as [|a args IH]; [done|]. cbn [flat_map length]. rewrite length_app. unfold print_arg at 1.
    rewrite length_app. cbn [length]. lia. }
  rewrite (bind_done _ _ _ _ _ E'). do 2 eexists. split; [reflexivity|]. split; [done|].
  apply rel_redirs; [by rewrite map_app|by constructor].
Qed.

Lemma block_reads t rs : line_reads t -> exec_reads (Block t rs).
Proof.
  unfold exec_reads, pipe_reads, line_reads. cbn [exec_ok pipe_ok line_ok print_exec print_pipe print_line denote_exec denote_pipe denote_line].
  intros IH [Ht Hrs] fuel s l H Hl Hf. destruct fuel as [|[|fuel]]; [lia..|]. cbn [parseexec].
  cbn [app] in H, Hf. rewrite <- app_assoc in H, Hf. cbn [app] in H, Hf.
  rewrite (bind_done _ _ _ _ _ (peek_yes 40 s _ H eq_refl ltac:(lia))). cbn [parseblock].
  rewrite (bind_done _ _ _ _ _ (peek_yes 40 s _ H eq_refl ltac:(lia))). cbn [negb].
  destruct (ends_exec_facts l Hl) as (Hc & Hn & _).
  destruct (token_char s 40 _ H) as (s1 & T & H1); [by apply print_clean|done|].
  rewrite (gettoken_drop _ _ _ _ _ _ T).
  destruct (IH Ht fuel s1 _ H1 eq_refl) as (c & s2 & E & H2 & Hr); [cbn [length] in Hf; lia|].
  rewrite (bind_done _ _ _ _ _ E), (bind_done _ _ _ _ _ (peek_yes 41 s2 _ H2 eq_refl ltac:(lia))). cbn [negb].
  destruct (token_char s2 41 _ H2 (redirs_clean rs l Hc) eq_refl) as (s3 & T3 & H3).
  rewrite (gettoken_drop _ _ _ _ _ _ T3).
  destruct (parseredirs_here rs (S (es b)) s3 l H3 Hrs Hc Hn) as (rs' & s' & E' & H' & Hr').
  { pose proof (redirs_length rs). pose proof (here_length _ _ H3) as Hl3. rewrite length_app in Hl3. lia. }
  rewrite (bind_done _ _ _ _ _ E'). do 2 eexists. split; [reflexivity|]. split; [done|]. by apply rel_redirs.
Qed.

Lemma last_reads e : exec_reads e -> pipe_reads (Last e).
Proof.
  unfold exec_reads, pipe_reads, line_reads. cbn [exec_ok pipe_ok line_ok print_exec print_pipe print_line denote_exec denote_pipe denote_line].
  intros IH He fuel s l H Hl Hf. destruct fuel as [|fuel]; [lia|]. cbn [parsepipe].
  destruct (IH He fuel s l H (ends_pipe_exec l Hl)) as (c & s' & E & H' & Hr); [lia|].
  assert (hd 0 l <> 124) as H124 by (intros E'; destruct l; cbn in E'; [done|]; cbn in Hl; by rewrite E' in Hl).
  rewrite (bind_done _ _ _ _ _ E), (bind_done _ _ _ _ _ (peek_no 124 s' l H' (ends_clean l (ends_pipe_exec l Hl)) ltac:(lia) H124)).
  by exists c, s'.
Qed.

Lemma piped_reads e p : exec_reads e -> pipe_reads p -> pipe_reads (Pipe e p).
Proof.
  unfold exec_reads, pipe_reads, line_reads. cbn [exec_ok pipe_ok line_ok print_exec print_pipe print_line denote_exec denote_pipe denote_line].
  intros IHe IHp [He Hp] fuel s l H Hl Hf. destruct fuel as [|fuel]; [lia|]. cbn [parsepipe].
  rewrite <- app_assoc in H, Hf. cbn [app] in H, Hf.
  destruct (IHe He fuel s _ H eq_refl) as (c & s1 & E & H1 & Hr); [lia|].
  rewrite (bind_done _ _ _ _ _ E), (bind_done _ _ _ _ _ (peek_yes 124 s1 _ H1 eq_refl ltac:(lia))).
  destruct (token_char s1 124 _ H1) as (s2 & T & H2); [by apply print_clean, ends_clean, ends_pipe_exec|done|].
  rewrite (gettoken_drop _ _ _ _ _ _ T).
  destruct (IHp Hp fuel s2 l H2 Hl) as (c' & s' & E' & H' & Hr'); [rewrite length_app in Hf; cbn [length] in Hf; lia|].
  rewrite (bind_done _ _ _ _ _ E'). do 2 eexists. split; [reflexivity|]. split; [done|]. by constructor.
Qed.

Lemma one_reads p n : pipe_reads p -> line_reads (Line p n).
Proof.
  unfold exec_reads, pipe_reads, line_reads. cbn [exec_ok pipe_ok line_ok print_exec print_pipe print_line denote_exec denote_pipe denote_line].
  intros IH Hp fuel s l H Hl Hf. destruct fuel as [|fuel]; [lia|]. cbn [parseline].
  rewrite <- app_assoc in H, Hf. pose proof (ends_line_facts l Hl) as (Hep & H38 & H59).
  pose proof (ends_clean l (ends_pipe_exec l Hep)) as Hc.
  destruct (IH Hp fuel s _ H (backs_ends n l Hep)) as (c & s1 & E & H1 & Hr); [lia|].
  rewrite (bind_done _ _ _ _ _ E).
  destruct (parsebacks_here n (S (es b)) s1 l c (denote_pipe p) H1 Hc H38) as (c2 & s2 & E2 & H2 & Hr2); [|exact Hr|].
  { pose proof (here_length _ _ H1). pose proof (backs_length n l). lia. }
  rewrite (bind_done _ _ _ _ _ E2), (bind_done _ _ _ _ _ (peek_no 59 s2 l H2 Hc ltac:(lia) H59)). by exists c2, s2.
Qed.

Lemma seq_reads p n t : pipe_reads p -> line_reads t -> line_reads (Seq p n t).
Proof.
  unfold exec_reads, pipe_reads, line_reads. cbn [exec_ok pipe_ok line_ok print_exec print_pipe print_line denote_exec denote_pipe denote_line].
  intros IHp IHt [Hp Ht] fuel s l H Hl Hf. destruct fuel as [|fuel]; [lia|]. cbn [parseline].
  rewrite <- app_assoc in H, Hf. rewrite <- app_assoc in H, Hf. cbn [app] in H, Hf.
  assert (ends_pipe (59 :: 32 :: print_line t ++ l)) as Hep by done.
  destruct (IHp Hp fuel s _ H (backs_ends n _ Hep)) as (c & s1 & E & H1 & Hr); [lia|].
  rewrite (bind_done _ _ _ _ _ E).
  destruct (parsebacks_here n (S (es b)) s1 _ c (denote_pipe p) H1 eq_refl ltac:(done)) as (c2 & s2 & E2 & H2 & Hr2); [|exact Hr|].
  { pose proof (here_length _ _ H1). pose proof (backs_length n (59 :: 32 :: print_line t ++ l)). lia. }
  rewrite (bind_done _ _ _ _ _ E2), (bind_done _ _ _ _ _ (peek_yes 59 s2 _ H2 eq_refl ltac:(lia))).
  destruct (token_char s2 59 _ H2) as (s3 & T & H3);
    [by apply print_clean, ends_clean, ends_pipe_exec, ends_line_facts|done|].
  rewrite (gettoken_drop _ _ _ _ _ _ T).
  destruct (IHt Ht fuel s3 l H3 Hl) as (c' & s' & E' & H' & Hr').
  { rewrite !length_app in Hf. cbn [length] in Hf. lia. }
  rewrite (bind_done _ _ _ _ _ E'). do 2 eexists. split; [reflexivity|]. split; [done|]. by constructor.
Qed.

Lemma parse_here : (forall e, exec_reads e) /\ (forall p, pipe_reads p) /\ (forall t, line_reads t).
Proof.
  apply grammar_ind;
    auto using simple_reads, block_reads, last_reads, piped_reads, one_reads, seq_reads.
Qed.

(** The first look-ahead skips the white space in front. *)
Lemma skip_white_twice s : (s <= es b)%nat -> skip_white b (skip_white b s) = skip_white b s.
Proof.
  intros Hs. pose proof (skip_white_range b s Hs) as Hr.
  destruct (skip_stop b (strchr whitespace) (es b - s) s Hs ltac:(lia)) as [E|E].
  - fold (skip_white b s) in E. rewrite E. unfold skip_white. by rewrite Nat.sub_diag.
  - by apply skip_white_id.
Qed.

Lemma parseline_white fuel s : (s <= es b)%nat ->
  parseline b (S (S (S fuel))) s = parseline b (S (S (S fuel))) (skip_white b s).
Proof.
  intros Hs. assert (parseexec b (S fuel) s = parseexec b (S fuel) (skip_white b s)) as E.
  { cbn [parseexec]. unfold bind at 1 4. unfold peek. by rewrite skip_white_twice. }
  cbn [parseline parsepipe]. unfold bind. by rewrite E.
Qed.

(** The parser on the text of a line. *)
Lemma parse_line t : line_ok t -> b = print_line t ++ trail ->
  exists c, parse b 0%nat = Done (c, es b) /\ cmd_rel spot c (denote_line t).
Proof.
  intros Ht Hb. assert (here (skip_white b 0%nat) (print_line t)) as H.
  { pose proof (proj2 (proj2 print_clean) t Ht [] I) as Hc. rewrite app_nil_r in Hc.
    assert (raw 0%nat (print_line t ++ trail)) as H0 by (rewrite <- Hb; split; [done|lia]).
    destruct (print_line t) as [|c l]; [|by apply (white_space 0%nat [])].
    apply (white_space 0%nat trail); [by rewrite app_nil_r|done..]. }
  unfold parse, parse_fuel. pose proof (here_length _ _ H) as Hlen.
  destruct (proj2 (proj2 parse_here) t Ht (4 * S (es b))%nat (skip_white b 0%nat) []) as (c & s' & E & H' & Hr).
  { by rewrite app_nil_r. } { done. } { rewrite app_nil_r. lia. }
  replace (4 * S (es b))%nat with (S (S (S (S (4 * es b)))))%nat in * by lia.
  rewrite <- parseline_white in E by lia. rewrite (bind_done _ _ _ _ _ E).
  rewrite (bind_done _ _ _ _ _ (peek_clean [] s' [] H' I)). unfold bind, get.
  pose proof (raw_length _ _ H') as Hl. destruct H' as [_ Hs']. cbn in Hl. assert (s' = es b) as -> by lia.
  rewrite Nat.eqb_refl. by exists c.
Qed.

End Reading.
