(* ===== verification/ShellTheorems.v ===== *)
(** * The shell: parsing is the inverse of printing, and always ends *)
From S2P Require Import Prelude Shell ShellProofs ShellGrammar.

(** ** The strings in memory *)

(** The words of a command, in the order [nulterminate] ends them. *)
Fixpoint words {W} (c : cmd_of W) : list W :=
  match c with
  | EXEC argv => argv
  | REDIR c file _ _ => words c ++ [file]
  | PIPE l r | LIST l r => words l ++ words r
  | BACK c => words c
  end.

Lemma nulterminate_words c : forall m, nulterminate c m = fold_left (fun m a => <[snd a := 0]> m) (words c) m.
Proof.
  induction c as [argv|c IH [q e] mode fd|l IHl r IHr|l IHl r IHr|c IH]; intros m; cbn [nulterminate words].
  - done.
  - by rewrite fold_left_app, IH.
  - by rewrite fold_left_app, IHl, IHr.
  - by rewrite fold_left_app, IHl, IHr.
  - apply IH.
Qed.

Lemma zeros_lookup (ws : list (nat * nat)) : forall (m : list Z) i,
  fold_left (fun m a => <[snd a := 0]> m) ws m !! i =
  if decide (i ∈ map snd ws /\ (i < length m)%nat) then Some 0 else m !! i.
Proof.
  induction ws as [|[q e] ws IH]; intros m i; cbn [fold_left map snd].
  - rewrite decide_False; [done|]. intros [H _]. by apply not_elem_of_nil in H.
  - rewrite IH, length_insert. destruct (decide (i ∈ map snd ws /\ (i < length m)%nat)) as [[H1 H2]|H].
    + rewrite decide_True; [done|]. split; [by right|done].
    + destruct (decide (i = e)) as [->|Hne].
      * destruct (Nat.lt_ge_cases e (length m)) as [Hlt|Hge].
        -- rewrite decide_True by (split; [left|done]). by apply list_lookup_insert_eq.
        -- rewrite decide_False by lia. by rewrite list_insert_ge by lia.
      * rewrite list_lookup_insert_ne by done. rewrite decide_False; [done|].
        intros [H1 H2]. apply elem_of_cons in H1 as [->|H1]; [done|]. by apply H.
Qed.

Lemma cstr_word : forall w m, Forall (fun c => c <> 0) w ->
  (forall i c, (w ++ [0]) !! i = Some c -> m !! i = Some c) -> cstr m = w.
Proof.
  induction w as [|c w IH]; intros m Hw Hm.
  - specialize (Hm 0%nat 0 eq_refl). destruct m as [|c m]; [done|]. by injection Hm as ->.
  - pose proof (Hm 0%nat c eq_refl) as H0. destruct m as [|c' m]; [done|]. injection H0 as ->.
    apply Forall_cons in Hw as [Hc Hw]. cbn [cstr]. rewrite (proj2 (Z.eqb_neq c 0) Hc). f_equal.
    apply IH; [done|]. intros i x Hi. by apply (Hm (S i)).
Qed.

(** [nulterminate] only overwrites the blanks at the ends of the words, so
    every word is a string of its own. *)
Lemma words_in_memory b ws a w : Forall (fun a => exists w, spot b a w) ws -> In a ws -> spot b a w ->
  cstr (drop (fst a) (fold_left (fun m a => <[snd a := 0]> m) ws (b ++ [0]))) = w.
Proof.
  intros Hws Hin (rest & Hd & He & Hne & Hw). apply cstr_word.
  { eapply Forall_impl; [exact Hw|]. by intros c (? & _). }
  assert (forall i, (w ++ 32 :: rest) !! i = b !! (fst a + i)%nat) as Hb by (intros i; by rewrite <- Hd, lookup_drop).
  intros i c Hi. rewrite lookup_drop, zeros_lookup.
  destruct (Nat.lt_ge_cases i (length w)) as [Hlt|Hge].
  - rewrite lookup_app_l in Hi by done. specialize (Hb i). rewrite lookup_app_l, Hi in Hb by done.
    rewrite decide_False.
    + rewrite lookup_app_l; [done|]. apply lookup_lt_is_Some. by rewrite <- Hb.
    + intros [Hin' _]. apply list_elem_of_In, in_map_iff in Hin' as ([q e] & E & Hin'). cbn in E. subst e.
      rewrite List.Forall_forall in Hws. destruct (Hws _ Hin') as (w' & rest' & Hd' & He' & _). cbn [fst snd] in *.
      assert (b !! (fst a + i)%nat = Some 32) as E.
      { rewrite He', <- lookup_drop, Hd'. by rewrite lookup_app_r, Nat.sub_diag. }
      rewrite <- Hb in E. injection E as ->. rewrite Forall_lookup in Hw. by destruct (Hw _ _ Hi) as (_ & Hc & _).
  - assert (i = length w) as ->.
    { pose proof (lookup_lt_Some _ _ _ Hi) as Hl. rewrite length_app in Hl. cbn in Hl. lia. }
    rewrite lookup_app_r, Nat.sub_diag in Hi by lia. cbn in Hi. rewrite decide_True; [done|].
    specialize (Hb (length w)). rewrite lookup_app_r, Nat.sub_diag in Hb by lia. cbn in Hb.
    rewrite <- He. split; [apply list_elem_of_In; by apply in_map|]. rewrite length_app.
    pose proof (lookup_lt_Some _ _ _ (eq_sym Hb)). rewrite He. lia.
Qed.

Lemma rel_weaken {A B} (R R' : A -> B -> Prop) c d : cmd_rel R c d ->
  (forall a w, In a (words c) -> R a w -> R' a w) -> cmd_rel R' c d.
Proof.
  induction 1 as [l1 l2 H|c1 c2 f1 f2 m fd H IH Hf|a1 a2 b1 b2 Ha IHa Hb IHb|a1 a2 b1 b2 Ha IHa Hb IHb|c1 c2 H IH];
    intros Hw; cbn [words] in Hw; constructor;
    try (first [apply IHa | apply IHb | apply IH]; intros; apply Hw; rewrite ?in_app_iff; auto).
  - induction H as [|a w l1 l2 Haw H IH]; [done|]. constructor; [by apply Hw; [left|]|].
    apply IH. intros a' w' Hin. apply Hw. by right.
  - apply Hw; [|done]. apply in_or_app. right. by left.
Qed.

Lemma rel_words {A B} (R : A -> B -> Prop) c d : cmd_rel R c d -> Forall (fun a => exists w, R a w) (words c).
Proof.
  induction 1 as [l1 l2 H|c1 c2 f1 f2 m fd H IH Hf|a1 a2 b1 b2 Ha IHa Hb IHb|a1 a2 b1 b2 Ha IHa Hb IHb|c1 c2 H IH];
    cbn [words]; rewrite ?Forall_app; repeat split; try done.
  - induction H; constructor; eauto.
  - constructor; [by exists f2|constructor].
Qed.

(** The command in memory [m] is the command [d] of strings. *)
Definition denotes (m : list Z) : cmd -> cmd_of (list Z) -> Prop := cmd_rel (fun a w => cstr (drop (fst a) m) = w).

(** C37. The parser is the inverse of the printer of command lines: for every
    line of the grammar (simple commands with redirections anywhere among
    their arguments, blocks, pipelines, background commands and lists),
    printed with a blank after every token and followed by any white space
    (the newline of the terminal), [parsecmd] ends with the line's command,
    and after [nulterminate] every argument and file name is a
    NUL-terminated string of the memory equal to the word of the line. *)
Theorem parsecmd_print (t : line_t) (trail : list Z) :
  line_ok t -> Forall (fun c => strchr whitespace c = true) trail ->
  exists c m, parsecmd (print_line t ++ trail) = Done (c, m) /\ denotes m c (denote_line t).
Proof.
  intros Ht Htr. set (b := print_line t ++ trail).
  destruct (parse_line b trail Htr t Ht eq_refl) as (c & E & Hr).
  exists c, (nulterminate c (b ++ [0])). unfold parsecmd. rewrite E. split; [done|].
  apply (rel_weaken (spot b)); [done|]. intros a w Hin Hs. rewrite nulterminate_words.
  apply words_in_memory; [by apply (rel_words _ _ _ Hr)|done..].
Qed.

(** [ls -l > out & ; ( cat < in | wc ) >> log] and a newline. *)
Definition example_line : line_t :=
  Seq (Last (Simple [] [([108; 115], []); ([45; 108], [(ROut, [111; 117; 116])])])) 1
    (Line (Last (Block (Line (Pipe (Simple [] [([99; 97; 116], [(RIn, [105; 110])])])
                                   (Last (Simple [] [([119; 99], [])]))) 0)
                       [(RApp, [108; 111; 103])])) 0).

Lemma word_ok_dec w : forallb (fun c => negb (c =? 0) && negb (strchr whitespace c) && negb (strchr symbols c)) w &&
  negb (length w =? 0)%nat = true -> word_ok w.
Proof.
  intros [H1 H2]%andb_true_iff. split; [by destruct w|]. apply List.Forall_forall. intros c Hc.
  rewrite forallb_forall in H1. specialize (H1 c Hc). rewrite !andb_true_iff, !negb_true_iff in H1.
  destruct H1 as [[H1 H3] H4]. by apply Z.eqb_neq in H1.
Qed.

Lemma example_line_ok : line_ok example_line.
Proof.
  cbn. unfold redirs_ok, MAXARGS.
  repeat first [split | constructor | lia | (apply word_ok_dec; reflexivity)].
Qed.

Lemma parsecmd_print_witness : exists c m, parsecmd (print_line example_line ++ [10]) = Done (c, m) /\
  denotes m c (denote_line example_line).
Proof. apply (parsecmd_print example_line [10]); [exact example_line_ok|by repeat constructor]. Defined.

(** C38. Parsing always ends: on any characters [b], [parsecmd] returns a
    command or reports one of its four syntax errors ([parseblock]'s own
    panic is never reached, no position leaves the line and the fuel
    [4 * (|b| + 1)] is enough for the recursion of the four routines). *)
Theorem parsecmd_total (b : list Z) :
  match parsecmd b with
  | Done (c, m) => length m = S (length b)
  | Panic msg => In msg syntax_errors
  | _ => False
  end.
Proof.
  unfold parsecmd. pose proof (proj1 (parse_ok b (parse_fuel b) 0%nat ltac:(lia)) ltac:(unfold parse_fuel; lia)) as H.
  assert (ok (parse b) 0%nat (fun _ _ => True)) as Hp.
  { unfold parse. eapply ok_bind; [exact H|]. cbv beta. intros c s1 H1.
    eapply ok_bind; [apply peek_ok; lia|]. cbv beta. intros p s2 H2.
    unfold bind, get, ok. destruct (negb (s2 =? es b)%nat); [by left|done]. }
  unfold ok in Hp. destruct (parse b 0%nat) as [[c s]| | | |]; [|done..].
  rewrite nulterminate_words. assert (forall ws m, length (fold_left (fun (m : list Z) (a : nat * nat) => <[snd a := 0]> m) ws m) = length m) as E.
  { induction ws as [|a ws IH]; intros m; [done|]. cbn [fold_left]. by rewrite IH, length_insert. }
  rewrite E, length_app. cbn. lia.
Qed.

(** What a line asks for: only a plain command is run; redirections,
    pipelines, lists and background commands are parsed but end the child
    with status 1. *)
Definition run_line (d : cmd_of (list Z)) : action :=
  match d with EXEC (w :: ws) => Exec (w :: ws) | _ => Exit 1 end.

Lemma runs_line m c d : denotes m c d -> runcmd c m = run_line d.
Proof.
  destruct 1 as [l1 l2 H| | | |]; [|done..]. destruct H as [|a w l1 l2 <- H]; [done|]. cbn. do 2 f_equal.
  induction H as [|a' w' l1 l2 <- H IH]; [done|]. cbn. by f_equal.
Qed.

(** The shell runs exactly the plain commands: for a line of the grammar
    that is not a [cd], ended by a newline, the child [exec]s the line's
    words, in order and unchanged, when the line is a simple command
    without redirections, and exits with status 1 otherwise. *)
Theorem handle_runs (t : line_t) :
  line_ok t -> take 3 (print_line t) <> [99; 100; 32] ->
  handle (print_line t ++ [10]) = Child (Done (run_line (denote_line t))).
Proof.
  intros Ht Hcd. set (b := print_line t).
  destruct (parse_line (b ++ [10]) [10] ltac:(by repeat constructor) t Ht eq_refl) as (c & E & Hr).
  assert (parsecmd (b ++ [10]) = Done (c, nulterminate c ((b ++ [10]) ++ [0]))) as Hp by (unfold parsecmd; by rewrite E).
  unfold handle. rewrite decide_False, Hp.
  - do 2 f_equal. apply runs_line. apply (rel_weaken (spot (b ++ [10]))); [done|].
    intros a w Hin Hs. rewrite nulterminate_words. apply words_in_memory; [by apply (rel_words _ _ _ Hr)|done..].
  - intros Ht3. destruct (Nat.le_gt_cases 3 (length b)) as [Hl|Hl].
    + apply Hcd. by rewrite take_app_le in Ht3.
    + assert (In 10 [99; 100; 32]) as Hin.
      { rewrite <- Ht3, take_app_ge by lia. apply in_or_app. right. destruct (3 - length b)%nat eqn:E3; [lia|by left]. }
      cbn in Hin. lia.
Qed.

(** [ echo hi ], a newline, and the same line with a pipe. *)
Lemma handle_runs_witness :
  handle (print_line (Line (Last (Simple [] [([101; 99; 104; 111], []); ([104; 105], [])])) 0) ++ [10])
    = Child (Done (Exec [[101; 99; 104; 111]; [104; 105]])) /\
  handle (print_line example_line ++ [10]) = Child (Done (Exit 1)).
Proof.
  split.
  - apply (handle_runs (Line (Last (Simple [] [([101; 99; 104; 111], []); ([104; 105], [])])) 0)); [|done].
    cbn. unfold redirs_ok, MAXARGS. repeat first [split | constructor | lia | (apply word_ok_dec; reflexivity)].
  - apply (handle_runs example_line); [exact example_line_ok|done].
Defined.
