(* ===== verification/Ulib.v ===== *)
(** * The library of the user programs, ulib.c, and three small programs

    Strings and blocks work on the byte memory of [Memory]; what a program
    writes is a log of bytes with their descriptors, what it reads from
    descriptor 0 a list of the results of [read].  The system calls [mmap] and
    [munmap] are parameters.  A [char] is an unsigned byte. *)
From S2P Require Import Prelude Memory Klib.

(** ** Strings and blocks *)

Fixpoint strcpy_loop (fuel : nat) (s t : Z) : M mem unit :=
  match fuel with
  | O => nofuel
  | S fuel => c <- ld8 t;; st8 s c;;; if c =? 0 then ret tt else strcpy_loop fuel (s + 1) (t + 1)
  end.
Definition strcpy (s t : Z) : M mem Z := fuel <- str_fuel;; strcpy_loop fuel s t;;; ret s.

Fixpoint strcmp_loop (fuel : nat) (p q : Z) : M mem Z :=
  match fuel with
  | O => nofuel
  | S fuel =>
    c <- ld8 p;; d <- ld8 q;;
    if negb (c =? 0) && (c =? d) then strcmp_loop fuel (p + 1) (q + 1) else ret (c - d)
  end.
Definition strcmp (p q : Z) : M mem Z := fuel <- str_fuel;; strcmp_loop fuel p q.

Fixpoint strlen_loop (fuel : nat) (s n : Z) : M mem Z :=
  match fuel with
  | O => nofuel
  | S fuel => c <- ld8 (s + n);; if c =? 0 then ret (u64 n) else strlen_loop fuel s (s32 (n + 1))
  end.
Definition strlen (s : Z) : M mem Z := fuel <- str_fuel;; strlen_loop fuel s 0.

(** [i] is an [int], compared with the 64-bit [n]. *)
Fixpoint memset_loop (fuel : nat) (dst c n i : Z) : M mem unit :=
  match fuel with
  | O => nofuel
  | S fuel => if u64 i <? n then st8 (dst + i) (u8 c);;; memset_loop fuel dst c n (s32 (i + 1)) else ret tt
  end.
Definition memset (dst c n : Z) : M mem Z := memset_loop (S (Z.to_nat n)) dst c n 0;;; ret dst.

Fixpoint strchr_loop (fuel : nat) (s c : Z) : M mem Z :=
  match fuel with
  | O => nofuel
  | S fuel => d <- ld8 s;; if d =? 0 then ret 0 else if d =? c then ret s else strchr_loop fuel (s + 1) c
  end.
Definition strchr (s c : Z) : M mem Z := fuel <- str_fuel;; strchr_loop fuel s c.

Fixpoint atoi_loop (fuel : nat) (s n : Z) : M mem Z :=
  match fuel with
  | O => nofuel
  | S fuel => c <- ld8 s;;
              if (48 <=? c) && (c <=? 57) then atoi_loop fuel (s + 1) (s32 (n * 10 + c - 48)) else ret n
  end.
Definition atoi (s : Z) : M mem Z := fuel <- str_fuel;; atoi_loop fuel s 0.

(** The two loops of [memmove]: upwards, and downwards from the ends. *)
Fixpoint copy_up (k : nat) (dst src : Z) : M mem unit :=
  match k with
  | O => ret tt
  | S k => b <- ld8 src;; st8 dst b;;; copy_up k (dst + 1) (src + 1)
  end.
Fixpoint copy_down (k : nat) (dst src : Z) : M mem unit :=
  match k with
  | O => ret tt
  | S k => b <- ld8 (src - 1);; st8 (dst - 1) b;;; copy_down k (dst - 1) (src - 1)
  end.
Definition memmove (vdst vsrc n : Z) : M mem Z :=
  (if vdst <? vsrc then copy_up (Z.to_nat n) vdst vsrc
   else copy_down (Z.to_nat n) (vdst + n) (vsrc + n));;;
  ret vdst.
Definition memcpy (dst src n : Z) : M mem Z := memmove dst src (s32 n).

Fixpoint memcmp_loop (k : nat) (p1 p2 : Z) : M mem Z :=
  match k with
  | O => ret 0
  | S k => a <- ld8 p1;; b <- ld8 p2;; if negb (a =? b) then ret (a - b) else memcmp_loop k (p1 + 1) (p2 + 1)
  end.
Definition memcmp (s1 s2 n : Z) : M mem Z := memcmp_loop (Z.to_nat n) s1 s2.

(** ** Input and output *)

Record ust : Type := mkU {
  umem : mem;
  stdin : list (option Z);        (* the results of [read(0, &c, 1)] to come *)
  written : list (Z * Z)          (* descriptor and byte, oldest first *)
}.

Definition on_umem {R} (f : M mem R) : M ust R := zoom umem (fun m s => mkU m (stdin s) (written s)) f.

(** [read(0, &c, 1)]: a byte, or none; without more results it waits. *)
Definition read_char : M ust (option Z) := fun s =>
  match stdin s with
  | [] => Blocked
  | r :: l => Done (r, mkU (umem s) l (written s))
  end.

Fixpoint gets_loop (k : nat) (buf i max : Z) : M ust Z :=
  match k with
  | O => ret i
  | S k =>
    if i + 1 <? max then
      r <- read_char;;
      match r with
      | None => ret i
      | Some c =>
        on_umem (st8 (buf + i) c);;;
        if (c =? 10) || (c =? 13) then ret (i + 1) else gets_loop k buf (i + 1) max
      end
    else ret i
  end.
Definition gets (buf max : Z) : M ust Z :=
  i <- gets_loop (Z.to_nat max) buf 0 max;; on_umem (st8 (buf + i) 0);;; ret buf.

Definition putc (fd c : Z) : M ust unit := modify (fun s => mkU (umem s) (stdin s) (written s ++ [(fd, u8 c)])).

Fixpoint put_all (fd : Z) (l : list Z) : M ust unit :=
  match l with
  | [] => ret tt
  | c :: l => putc fd c;;; put_all fd l
  end.

Definition digits : list Z := [48; 49; 50; 51; 52; 53; 54; 55; 56; 57; 65; 66; 67; 68; 69; 70].
Definition digit (i : Z) : M ust Z := match arr_get digits i with Some c => ret c | None => fault end.

(** The [do] loop of [printint]; [buf] has the last element first, and room
    for 16. *)
Fixpoint printint_digits (fuel : nat) (x base : Z) (buf : list Z) : M ust (list Z) :=
  match fuel with
  | O => nofuel
  | S fuel =>
    d <- digit (x mod base);;
    if 16 <=? Z.of_nat (length buf) then fault
    else
      let x := x / base in
      if negb (x =? 0) then printint_digits fuel x base (d :: buf) else ret (d :: buf)
  end.

Definition printint (fd xx base : Z) (sgn : bool) : M ust unit :=
  let neg := sgn && (xx <? 0) in
  let x := if neg then u64 (s32 (- xx)) else u64 xx in
  buf <- printint_digits 64 x base [];;
  buf <- (if neg then (if 16 <=? Z.of_nat (length buf) then fault else ret (45 :: buf)) else ret buf);;
  put_all fd buf.

Fixpoint printptr_loop (k : nat) (fd x : Z) : M ust unit :=
  match k with
  | O => ret tt
  | S k => d <- digit (Z.shiftr x 60);; putc fd d;;; printptr_loop k fd (u64 (Z.shiftl x 4))
  end.
Definition printptr (fd x : Z) : M ust unit := putc fd 48;;; putc fd 120;;; printptr_loop 16 fd x.

Fixpoint put_str (fuel : nat) (fd s : Z) : M ust unit :=
  match fuel with
  | O => nofuel
  | S fuel => c <- on_umem (ld8 s);; if c =? 0 then ret tt else putc fd c;;; put_str fuel fd (s + 1)
  end.

(** The body of the loop of [vprintf] for the character [c]: the new [state]
    and arguments.  [va_arg] of a value of another type is a fault. *)
Definition vprintf_step (fd state c : Z) (ap : list va) : M ust (Z * list va) :=
  if state =? 0 then
    if c =? 37 then ret (37, ap) else putc fd c;;; ret (0, ap)
  else if state =? 37 then
    ap <- (if c =? 100 then match ap with VInt i :: ap => printint fd i 10 true;;; ret ap | _ => fault end
           else if c =? 108 then match ap with VPtr u :: ap => printint fd (s32 u) 10 false;;; ret ap | _ => fault end
           else if c =? 120 then match ap with VInt i :: ap => printint fd i 16 false;;; ret ap | _ => fault end
           else if c =? 112 then match ap with VPtr u :: ap => printptr fd u;;; ret ap | _ => fault end
           else if c =? 115 then
             match ap with
             | VStr s :: ap =>
               (if s =? 0 then put_all fd [40; 110; 117; 108; 108; 41]
                else fuel <- on_umem str_fuel;; put_str fuel fd s);;; ret ap
             | _ => fault
             end
           else if c =? 99 then match ap with VInt i :: ap => putc fd i;;; ret ap | _ => fault end
           else if c =? 37 then putc fd c;;; ret ap
           else putc fd 37;;; putc fd c;;; ret ap);;
    ret (0, ap)
  else ret (state, ap).

Fixpoint vprintf_loop (fuel : nat) (fd fmt state : Z) (ap : list va) : M ust unit :=
  match fuel with
  | O => nofuel
  | S fuel =>
    c <- on_umem (ld8 fmt);;
    if c =? 0 then ret tt
    else '(state, ap) <- vprintf_step fd state (Z.land c 255) ap;; vprintf_loop fuel fd (fmt + 1) state ap
  end.
Definition vprintf (fd fmt : Z) (ap : list va) : M ust unit :=
  fuel <- on_umem str_fuel;; vprintf_loop fuel fd fmt 0 ap.
Definition fprintf (fd fmt : Z) (ap : list va) : M ust unit := vprintf fd fmt ap.
Definition printf (fmt : Z) (ap : list va) : M ust unit := vprintf 1 fmt ap.

(** ** Memory *)

Section Malloc.
Variable mmap : Z -> Z -> Z -> Z -> M ust Z.
Variable munmap : Z -> Z -> M ust Z.

Definition malloc (n : Z) : M ust Z :=
  let total := u64 (n + 8) in
  ptr <- mmap 0 total (Z.lor 2 4) (Z.lor 2 1);;
  if ptr =? u64 (-1) then ret 0
  else on_umem (st64 (u64 (ptr + total - 8)) total);;; ret ptr.

Definition free (ptr : Z) : M ust unit :=
  n <- on_umem (ld64 (u64 (ptr - 8)));; munmap ptr n;;; ret tt.
End Malloc.

(** [va] is [USERRDONLYMAP]. *)
Definition get_timer_ticks (va : Z) : M ust Z := on_umem (ld 4 va).

(** ** The programs ls.c, test.c and initcode.c

    The system calls act on the program and on the rest of the system [D].
    A literal is its address, and so is a local structure or array.  What a
    [main] gives is the status of its [exit]. *)
Section Programs.
Context {D : Type}.
Variable sys_open : Z -> Z -> M (ust * D) Z.
Variable sys_read : Z -> Z -> Z -> M (ust * D) Z.
Variable sys_exec : Z -> Z -> M (ust * D) Z.

Definition on_ust {R} (f : M ust R) : M (ust * D) R := zoom fst (fun u s => (u, s.2)) f.

Definition DIRENT : Z := 16.           (* sizeof(struct dirent): inum, name[14] *)

(** "%s" and a newline; [fuel] bounds the reads. *)
Fixpoint ls_loop (fuel : nat) (name_nl de dir_fd : Z) : M (ust * D) unit :=
  match fuel with
  | O => nofuel
  | S fuel =>
    n <- sys_read dir_fd de DIRENT;;
    if n =? DIRENT then
      inum <- on_ust (on_umem (ld 2 de));;
      (if inum =? 0 then ret tt else on_ust (printf name_nl [VStr (de + 2)]));;;
      ls_loop fuel name_nl de dir_fd
    else ret tt
  end.

Definition ls_main (fuel : nat) (usage cannot name_nl de argc argv : Z) : M (ust * D) Z :=
  if argc <? 2 then
    a <- on_ust (on_umem (ld64 argv));; on_ust (fprintf 2 usage [VStr a]);;; ret 1
  else
    path <- on_ust (on_umem (ld64 (argv + 8)));;
    dir_fd <- sys_open path 0;;
    if dir_fd <? 0 then on_ust (fprintf 2 cannot [VStr path]);;; ret 1
    else ls_loop fuel name_nl de dir_fd;;; ret 0.

Fixpoint print_args (k : nat) (line argv : Z) : M ust unit :=
  match k with
  | O => ret tt
  | S k => a <- on_umem (ld64 argv);; printf line [VStr a];;; print_args k line (argv + 8)
  end.
(** [c] is the global that points to the greeting. *)
Definition test_main (hello line c argc argv : Z) : M ust Z :=
  a <- on_umem (ld64 c);;
  printf hello [VStr a];;;
  print_args (Z.to_nat argc) line argv;;;
  ret 0.

(** [argv] has one element and no null pointer after it. *)
Definition initcode_main (console sh argv : Z) : M (ust * D) Z :=
  sys_open console 0;;;
  sys_open console 1;;;
  sys_open console 1;;;
  on_ust (on_umem (st64 argv sh));;;
  sys_exec sh argv;;; ret 0.
End Programs.
