(* ===== verification/UlibTheorems.v ===== *)
(** * Theorems on the library of the user programs

    Blocks and strings, numbers, what [printf] writes, and what ls shows. *)
From S2P Require Import Prelude Memory Klib KlibProofs KlibTheorems Ulib.

(** ** Blocks *)

Lemma put_bytes_last a l x m : put_bytes a (l ++ [x]) m = put_bytes a l (<[a + Z.of_nat (length l) := x]> m).
Proof.
  apply map_eq. intros q. rewrite put_bytes_app. cbn [put_bytes].
  destruct (decide (q = a + Z.of_nat (length l))) as [->|Hq].
  - rewrite lookup_insert_eq, put_bytes_out, lookup_insert_eq by lia. done.
  - rewrite lookup_insert_ne by done. revert a m Hq. induction l as [|y l IH]; intros a m Hq; cbn [put_bytes].
    + by rewrite lookup_insert_ne by (cbn in *; lia).
    + cbn [length] in Hq |- *. rewrite insert_insert_ne by lia.
      replace (a + Z.of_nat (S (length l))) with (a + 1 + Z.of_nat (length l)) by lia. apply IH. lia.
Qed.

Lemma copy_down_spec dst src l : forall m, bytes_at m src l -> chars l -> owned m dst (Z.of_nat (length l)) -> src <= dst ->
  copy_down (length l) (dst + Z.of_nat (length l)) (src + Z.of_nat (length l)) m = Done (tt, put_bytes dst l m).
Proof.
  induction l as [|x l IH] using rev_ind; intros m Hb Hc Ho Hd; [done|].
  apply bytes_at_app in Hb as [Hb Hx]. apply Forall_app in Hc as [Hc Hx0]. rewrite length_app in *. cbn [length] in *.
  rewrite Nat.add_1_r in *. cbn [copy_down].
  replace (src + Z.of_nat (S (length l)) - 1) with (src + Z.of_nat (length l)) by lia.
  replace (dst + Z.of_nat (S (length l)) - 1) with (dst + Z.of_nat (length l)) by lia.
  apply bytes_at_cons in Hx as [Hx _]. rewrite (ld8_bind _ _ _ _ Hx).
  rewrite st8_bind by (apply Ho; lia). apply Forall_cons in Hx0 as [Hx0 _]. rewrite Z.mod_small by lia.
  rewrite put_bytes_last. apply IH; [|done| |done].
  - eapply bytes_at_frame; [exact Hb|]. intros q Hq. apply lookup_insert_ne. lia.
  - apply owned_insert. eapply owned_le; [exact Ho|lia].
Qed.

(** [memmove] copies any block to any place, whether or not the two
    overlap; the kernel's [memmove] of klib.c only promises this for blocks of
    at most 1024 bytes or copies to lower addresses. *)
Theorem memmove_overlapping m dst src l :
  bytes_at m src l -> wf_mem m -> owned m dst (Z.of_nat (length l)) ->
  memmove dst src (Z.of_nat (length l)) m = Done (dst, put_bytes dst l m).
Proof.
  intros Hb Hw Ho. assert (chars l) as Hc.
  { apply Forall_lookup. intros i x Hi. eapply Hw. by apply (Hb i). }
  unfold memmove. rewrite Nat2Z.id. destruct (Z.ltb_spec dst src).
  - change (copy_up (length l)) with (memcpy_loop (length l)).
    by rewrite (bind_done _ _ _ _ _ (memcpy_loop_spec m dst src l Hb Hc Ho (or_introl (Z.lt_le_incl _ _ H)))).
  - by rewrite (bind_done _ _ _ _ _ (copy_down_spec dst src l m Hb Hc Ho H)).
Qed.

(** ** Output *)

Definition wrote (fd : Z) (l : list Z) (s : ust) : ust :=
  mkU (umem s) (stdin s) (written s ++ map (fun c => (fd, u8 c)) l).

Lemma wrote_nil fd s : wrote fd [] s = s.
Proof. unfold wrote. cbn. rewrite app_nil_r. by destruct s. Qed.

Lemma wrote_app fd l l' s : wrote fd l' (wrote fd l s) = wrote fd (l ++ l') s.
Proof. unfold wrote. cbn. by rewrite map_app, app_assoc. Qed.

Lemma put_all_spec fd l : forall s, put_all fd l s = Done (tt, wrote fd l s).
Proof.
  induction l as [|c l IH]; intros s; cbn [put_all]; [by rewrite wrote_nil|].
  unfold putc. rewrite bind_modify, IH. change (mkU _ _ _) with (wrote fd [c] s). by rewrite wrote_app.
Qed.

Lemma putc_spec fd c s : putc fd c s = Done (tt, wrote fd [c] s).
Proof. reflexivity. Qed.

(** ** Numbers *)

Definition dig (i : Z) : Z := default 0 (digits !! Z.to_nat i).

(** A number in the base [base], most significant digit first. *)
Fixpoint numeral (base : Z) (fuel : nat) (n : Z) : list Z :=
  match fuel with
  | O => []
  | S fuel => if n <? base then [dig n] else numeral base fuel (n / base) ++ [dig (n mod base)]
  end.

Lemma digit_spec i s : 0 <= i < 16 -> digit i s = Done (dig i, s).
Proof.
  intros Hi. unfold digit, dig, arr_get. rewrite (proj2 (Z.ltb_ge _ _)) by lia.
  destruct (lookup_lt_is_Some_2 digits (Z.to_nat i)) as [c Hc]; [cbn; lia|]. by rewrite Hc.
Qed.

Lemma dig_dec i : 0 <= i < 10 -> dig i = i + 48.
Proof. intros Hi. assert (i = 0 \/ i = 1 \/ i = 2 \/ i = 3 \/ i = 4 \/ i = 5 \/ i = 6 \/ i = 7 \/ i = 8 \/ i = 9) by lia. by intuition subst. Qed.

Lemma numeral_dec k : forall n, 0 <= n -> numeral 10 k n = dec k n.
Proof.
  induction k as [|k IH]; intros n Hn; cbn [numeral dec]; [done|].
  destruct (Z.ltb_spec n 10); [by rewrite dig_dec|]. rewrite IH by (apply Z.div_pos; lia).
  by rewrite dig_dec by (apply Z.mod_pos_bound; lia).
Qed.

Lemma printint_digits_spec base k : 2 <= base <= 16 -> forall fuel x buf s,
  (1 <= k <= fuel)%nat -> 0 <= x < base ^ Z.of_nat k -> (k + length buf <= 16)%nat ->
  printint_digits fuel x base buf s = Done (numeral base k x ++ buf, s).
Proof.
  intros Hbase. induction k as [|k IH]; intros fuel x buf s Hk Hx Hl; [lia|]. destruct fuel as [|fuel]; [lia|].
  cbn [printint_digits numeral]. rewrite (bind_done _ _ _ _ _ (digit_spec (x mod base) s ltac:(zdiv))).
  rewrite (proj2 (Z.leb_gt 16 _)) by lia. destruct (Z.ltb_spec x base).
  - rewrite Z.mod_small, Z.div_small by lia. done.
  - assert (x / base <> 0) by zdiv. rewrite (proj2 (Z.eqb_neq _ _)) by done. cbn [negb].
    destruct k as [|k]; [rewrite Z.pow_1_r in Hx; lia|].
    rewrite Nat2Z.inj_succ, Z.pow_succ_r in Hx by lia.
    rewrite IH; [by rewrite <- app_assoc|lia| |cbn [length]; lia].
    split; [apply Z.div_pos; lia|]. apply Z.div_lt_upper_bound; lia.
Qed.

(** Signed decimals. *)
Lemma printint_decimal fd i s : - 2 ^ 31 < i < 2 ^ 31 -> printint fd i 10 true s = Done (tt, wrote fd (decimal i) s).
Proof.
  intros Hi. unfold printint, decimal. cbn [andb]. destruct (Z.ltb_spec i 0).
  - replace (u64 (s32 (- i))) with (- i) 
      by (unfold u64, s32; rewrite (Z.mod_small (- i + 2 ^ 31)) by lia; rewrite Z.mod_small; lia).
    rewrite (bind_done _ _ _ _ _ (printint_digits_spec 10 10 ltac:(lia) 64 (- i) [] s ltac:(lia) ltac:(lia) ltac:(cbn; lia))).
    rewrite app_nil_r, numeral_dec by lia.
    assert (length (dec 10 (- i)) <= 10)%nat as Hl.
    { generalize (- i). generalize 10%nat. clear. induction n as [|n IH]; intros z; cbn [dec]; [done|].
      destruct (_ <? _); cbn; [lia|]. rewrite length_app. specialize (IH (z / 10)). cbn. lia. }
    rewrite (proj2 (Z.leb_gt 16 _)) by lia. rewrite bind_ret. apply put_all_spec.
  - replace (u64 i) with i by (unfold u64; rewrite Z.mod_small; lia).
    rewrite (bind_done _ _ _ _ _ (printint_digits_spec 10 10 ltac:(lia) 64 i [] s ltac:(lia) ltac:(lia) ltac:(cbn; lia))).
    rewrite bind_ret, app_nil_r, numeral_dec by lia. apply put_all_spec.
Qed.

(** Unsigned numbers: those that fit in 16 characters. *)
Lemma printint_unsigned fd i base k s : 2 <= base <= 16 -> (1 <= k <= 16)%nat -> u64 i < base ^ Z.of_nat k ->
  printint fd i base false s = Done (tt, wrote fd (numeral base k (u64 i)) s).
Proof.
  intros Hb Hk Hu. unfold printint. cbn [andb].
  assert (0 <= u64 i < 2 ^ 64) as Hr by auto with byte.
  rewrite (bind_done _ _ _ _ _ (printint_digits_spec base k Hb 64 (u64 i) [] s ltac:(lia) ltac:(lia) ltac:(cbn; lia))).
  rewrite bind_ret, app_nil_r. apply put_all_spec.
Qed.

(** Pointers: all 16 digits. *)
Fixpoint hex16 (k : nat) (u : Z) : list Z :=
  match k with O => [] | S k => dig (u / 16 ^ Z.of_nat k mod 16) :: hex16 k u end.

Lemma printptr_loop_spec fd u k : forall s, 0 <= u -> (k <= 16)%nat ->
  printptr_loop k fd (u64 (u * 16 ^ (16 - Z.of_nat k))) s = Done (tt, wrote fd (hex16 k u) s).
Proof.
  induction k as [|k IH]; intros s Hu Hk; cbn [printptr_loop hex16]; [by rewrite wrote_nil|].
  set (x := u * 16 ^ (16 - Z.of_nat (S k))).
  assert (Z.shiftr (u64 x) 60 = u / 16 ^ Z.of_nat k mod 16) as ->.
  { rewrite Z.shiftr_div_pow2 by lia. unfold u64. change (2 ^ 64) with (2 ^ 60 * 16).
    rewrite Z.rem_mul_r, Z.mul_comm, Z.div_add, Z.mod_div, Z.add_0_l by lia. f_equal. unfold x.
    change (2 ^ 60) with (16 ^ 15). replace 15 with (Z.of_nat k + (16 - Z.of_nat (S k))) at 1 by lia.
    rewrite Z.pow_add_r by lia. apply Z.div_mul_cancel_r; apply Z.pow_nonzero; lia. }
  rewrite (bind_done _ _ _ _ _ (digit_spec _ s (Z.mod_pos_bound _ 16 ltac:(lia)))).
  rewrite (bind_done _ _ _ _ _ (putc_spec fd _ s)).
  replace (u64 (Z.shiftl (u64 x) 4)) with (u64 (u * 16 ^ (16 - Z.of_nat k))).
  - rewrite IH by lia. by rewrite wrote_app.
  - rewrite Z.shiftl_mul_pow2 by lia. unfold u64. rewrite Zmult_mod_idemp_l. f_equal. unfold x.
    replace (16 - Z.of_nat k) with (16 - Z.of_nat (S k) + 1) by lia. rewrite Z.pow_add_r by lia. change (2 ^ 4) with (16 ^ 1). lia.
Qed.

Lemma printptr_spec fd u s : 0 <= u < 2 ^ 64 -> printptr fd u s = Done (tt, wrote fd (48 :: 120 :: hex16 16 u) s).
Proof.
  intros Hu. unfold printptr. rewrite (bind_done _ _ _ _ _ (putc_spec fd _ s)), (bind_done _ _ _ _ _ (putc_spec fd _ _)).
  replace u with (u64 (u * 16 ^ (16 - Z.of_nat 16))) at 1 by (cbn; unfold u64; rewrite Z.mul_1_r, Z.mod_small; lia).
  rewrite printptr_loop_spec by lia. by rewrite !wrote_app.
Qed.

Lemma on_umem_ld8 {B} p c (K : Z -> M ust B) s : umem s !! p = Some c -> bind (on_umem (ld8 p)) K s = K c s.
Proof. intros H. unfold bind, on_umem, zoom. rewrite (ld8_done _ _ _ H). by destruct s. Qed.

Lemma put_str_spec fd l : forall fuel p s, str_at (umem s) p l -> (length l < fuel)%nat ->
  put_str fuel fd p s = Done (tt, wrote fd l s).
Proof.
  induction l as [|c l IH]; intros [|fuel] p s Hp Hf; cbn [length] in Hf; try lia; cbn [put_str]; apply str_at_inv in Hp.
  - rewrite (on_umem_ld8 _ _ _ _ Hp). by rewrite wrote_nil.
  - destruct Hp as (Hc & Hr & Hp). rewrite (on_umem_ld8 _ _ _ _ Hc), (proj2 (Z.eqb_neq c 0)) by lia.
    rewrite (bind_done _ _ _ _ _ (putc_spec fd c s)), IH by (done || lia). by rewrite wrote_app.
Qed.

(** ** Formats *)

Definition NULL_STR : list Z := [40; 110; 117; 108; 108; 41].

(** What a format string means to [vprintf].  [%l] takes a [long] but prints
    an [int]; it has a meaning here for the numbers below 2^31. *)
Fixpoint uformat (f : list Z) (args : list varg) : option (list Z) :=
  match f with
  | [] => Some []
  | c :: f =>
    if negb (c =? 37) then cons c <$> uformat f args
    else
      match f with
      | [] => Some []
      | d :: f =>
        if d =? 100 then match args with AInt i :: args => app (decimal i) <$> uformat f args | _ => None end
        else if d =? 108 then
          match args with APtr u :: args => if u <? 2 ^ 31 then app (decimal u) <$> uformat f args else None | _ => None end
        else if d =? 120 then match args with AInt i :: args => app (numeral 16 16 (u64 i)) <$> uformat f args | _ => None end
        else if d =? 112 then match args with APtr u :: args => app (48 :: 120 :: hex16 16 u) <$> uformat f args | _ => None end
        else if d =? 115 then match args with AStr l :: args => app l <$> uformat f args | _ => None end
        else if d =? 99 then match args with AInt i :: args => cons (u8 i) <$> uformat f args | _ => None end
        else if d =? 37 then cons 37 <$> uformat f args
        else app [37; d] <$> uformat f args
      end
  end.

(** The value [a] of the argument [v]; a null string prints as "(null)". *)
Definition uarg_at (m : mem) (v : va) (a : varg) : Prop :=
  match v, a with
  | VInt i, AInt j => i = j /\ - 2 ^ 31 < i < 2 ^ 31
  | VStr p, AStr l => p <> 0 /\ str_at m p l \/ p = 0 /\ l = NULL_STR
  | VPtr u, APtr w => u = w /\ 0 <= u < 2 ^ 64
  | _, _ => False
  end.

Lemma wrote_u8 fd c s : wrote fd [u8 c] s = wrote fd [c] s.
Proof. unfold wrote, u8. cbn [map]. by rewrite Z.mod_mod. Qed.

(** A conversion: what it writes, and the rest of the format. *)
Lemma vprintf_step_spec fd d f ap args r s :
  Forall2 (uarg_at (umem s)) ap args -> uformat (37 :: d :: f) args = Some r ->
  exists l ap' args' r', vprintf_step fd 37 d ap s = Done ((0, ap'), wrote fd l s) /\ r = l ++ r' /\
    uformat f args' = Some r' /\ Forall2 (uarg_at (umem s)) ap' args'.
Proof.
  intros Ha H. cbn [uformat] in H. change (negb (37 =? 37)) with false in H. cbn match in H.
  unfold vprintf_step. change (37 =? 0) with false. change (37 =? 37) with true. cbn match.
  assert (forall (m : M ust (list va)) l ap' args' r', m s = Done (ap', wrote fd l s) -> uformat f args' = Some r' ->
    Forall2 (uarg_at (umem s)) ap' args' -> r = l ++ r' ->
    exists l0 ap0 args0 r0, bind m (fun ap => ret (0, ap)) s = Done ((0, ap0), wrote fd l0 s) /\ r = l0 ++ r0 /\
      uformat f args0 = Some r0 /\ Forall2 (uarg_at (umem s)) ap0 args0) as Hdone.
  { intros m l ap' args' r' Hm Hf Ha' ->. exists l, ap', args', r'. by rewrite (bind_done _ _ _ _ _ Hm). }
  destruct (d =? 100); [|destruct (d =? 108); [|destruct (d =? 120); [|destruct (d =? 112); [|destruct (d =? 115);
    [|destruct (d =? 99); [|destruct (Z.eqb_spec d 37) as [->|]]]]]]].
  7:{ apply fmap_Some in H as (r' & Hf & ->). apply (Hdone _ [37] ap args r'); done. }
  7:{ apply fmap_Some in H as (r' & Hf & ->). apply (Hdone _ [37; d] ap args r'); try done.
    change [37; d] with ([37] ++ [d]). by rewrite <- wrote_app. }
  all: destruct args as [|a args]; [done|]; apply Forall2_cons_inv_r in Ha as (v & ap1 & Hv & Ha & ->); destruct a, v; try done.
  - apply fmap_Some in H as (r' & Hf & ->). destruct Hv as [<- Hi]. eapply Hdone; [|exact Hf|exact Ha|reflexivity].
    by rewrite (bind_done _ _ _ _ _ (printint_decimal fd _ s Hi)).
  - destruct Hv as [<- Hu]. destruct (Z.ltb_spec u0 (2 ^ 31)); [|done]. apply fmap_Some in H as (r' & Hf & ->).
    eapply Hdone; [|exact Hf|exact Ha|reflexivity].
    assert (s32 u0 = u0) as -> by (unfold s32; rewrite Z.mod_small; lia).
    assert (u64 u0 = u0) as Eu by (unfold u64; rewrite Z.mod_small; lia).
    rewrite (bind_done _ _ _ _ _ (printint_unsigned fd u0 10 10 s ltac:(lia) ltac:(lia) ltac:(rewrite Eu; lia))).
    rewrite Eu, numeral_dec by lia. unfold decimal. by rewrite (proj2 (Z.ltb_ge _ _)) by lia.
  - apply fmap_Some in H as (r' & Hf & ->). destruct Hv as [<- Hi]. eapply Hdone; [|exact Hf|exact Ha|reflexivity].
    assert (0 <= u64 i0 < 2 ^ 64) as Hb by auto with byte.
    by rewrite (bind_done _ _ _ _ _ (printint_unsigned fd i0 16 16 s ltac:(lia) ltac:(lia) (proj2 Hb))).
  - apply fmap_Some in H as (r' & Hf & ->). destruct Hv as [<- Hu]. eapply Hdone; [|exact Hf|exact Ha|reflexivity].
    by rewrite (bind_done _ _ _ _ _ (printptr_spec fd _ s Hu)).
  - apply fmap_Some in H as (r' & Hf & ->). eapply Hdone; [|exact Hf|exact Ha|reflexivity].
    destruct Hv as [[Hp Hs]|[-> ->]]; [|by rewrite (bind_done _ _ _ _ _ (put_all_spec fd NULL_STR s))].
    rewrite (proj2 (Z.eqb_neq _ 0)) by done. pose proof (str_at_size _ _ _ Hs).
    rewrite bind_assoc. rewrite (bind_done _ _ _ (S (size (umem s))) s) by (unfold on_umem, zoom; by destruct s).
    rewrite (bind_done _ _ _ _ _ (put_str_spec fd _ (S (size (umem s))) _ s Hs ltac:(lia))). done.
  - apply fmap_Some in H as (r' & Hf & ->). destruct Hv as [<- Hi]. eapply (Hdone _ [u8 i0]); [|exact Hf|exact Ha|reflexivity].
    rewrite (bind_done _ _ _ _ _ (putc_spec fd _ s)). by rewrite wrote_u8.
Qed.

Lemma land_byte c : 0 < c < 256 -> Z.land c 255 = c.
Proof. intros Hc. change 255 with (Z.ones 8). rewrite Z.land_ones by lia. apply Z.mod_small. lia. Qed.

Lemma vprintf_loop_spec fd fuel : forall f fmt ap args r s,
  str_at (umem s) fmt f -> (length f < fuel)%nat -> uformat f args = Some r -> Forall2 (uarg_at (umem s)) ap args ->
  vprintf_loop fuel fd fmt 0 ap s = Done (tt, wrote fd r s).
Proof.
  induction fuel as [fuel IH] using lt_wf_ind. intros f fmt ap args r s Hs Hl Hf Ha.
  destruct fuel as [|fuel]; [lia|]. cbn [vprintf_loop]. apply str_at_inv in Hs. destruct f as [|c f].
  { injection Hf as <-. by rewrite (on_umem_ld8 _ _ _ _ Hs), wrote_nil. }
  destruct Hs as (Hc & Hr & Hs). rewrite (on_umem_ld8 _ _ _ _ Hc), (proj2 (Z.eqb_neq c 0)), land_byte by lia.
  cbn [length] in Hl. unfold vprintf_step at 1. change (0 =? 0) with true. cbn match.
  destruct (Z.eqb_spec c 37) as [->|Hne].
  - rewrite bind_ret. destruct fuel as [|fuel]; [lia|]. cbn [vprintf_loop]. apply str_at_inv in Hs. destruct f as [|d f].
    { injection Hf as <-. by rewrite (on_umem_ld8 _ _ _ _ Hs), wrote_nil. }
    destruct Hs as (Hd & Hrd & Hs). rewrite (on_umem_ld8 _ _ _ _ Hd), (proj2 (Z.eqb_neq d 0)), land_byte by lia.
    destruct (vprintf_step_spec fd d f ap args r s Ha Hf) as (l & ap' & args' & r' & E & -> & Hf' & Ha').
    rewrite (bind_done _ _ _ _ _ E). cbn match. cbn [length] in Hl.
    rewrite (IH fuel ltac:(lia) f (fmt + 1 + 1) ap' args' r') by (done || lia). by rewrite wrote_app.
  - rewrite bind_assoc, (bind_done _ _ _ _ _ (putc_spec fd c s)), bind_ret. cbn [uformat] in Hf.
    rewrite (proj2 (Z.eqb_neq _ _) Hne) in Hf. cbn [negb] in Hf. apply fmap_Some in Hf as (r' & Hf & ->).
    rewrite (IH fuel ltac:(lia) f (fmt + 1) ap args r') by (done || lia). by rewrite wrote_app.
Qed.

(** C39. [fprintf] writes exactly what its format means, for every format whose
    conversions have arguments of their types: numbers in decimal (above
    -2^31) and hexadecimal, all 16 digits of a pointer, strings with "(null)"
    for the null pointer, characters, and unknown conversions as they
    stand; it reads no input and changes no memory. *)
Theorem fprintf_writes fd fmt f ap args r s :
  str_at (umem s) fmt f -> Forall2 (uarg_at (umem s)) ap args -> uformat f args = Some r ->
  fprintf fd fmt ap s = Done (tt, mkU (umem s) (stdin s) (written s ++ map (fun c => (fd, u8 c)) r)).
Proof.
  intros Hs Ha Hf. unfold fprintf, vprintf.
  rewrite (bind_done _ _ _ (S (size (umem s))) s) by (unfold on_umem, zoom; by destruct s).
  pose proof (str_at_size _ _ _ Hs).
  exact (vprintf_loop_spec fd (S (size (umem s))) f fmt ap args r s Hs ltac:(lia) Hf Ha).
Qed.

(** [%l] of a number with bit 31 set has 20 digits, which do not fit the
    array of 16. *)
Lemma printint_long_overflows fd s : printint fd (s32 (2 ^ 31)) 10 false s = Fault.
Proof. reflexivity. Qed.

(** So does [%d] of the smallest [int]. *)
Lemma printint_min_overflows fd s : printint fd (- 2 ^ 31) 10 true s = Fault.
Proof. reflexivity. Qed.

(** ** Reading numbers *)

Lemma atoi_digits fuel m : forall p l n, bytes_at m p l -> Forall (fun c => 48 <= c <= 57) l ->
  (exists c, m !! (p + Z.of_nat (length l)) = Some c /\ ~ 48 <= c <= 57) -> (length l < fuel)%nat ->
  0 <= n -> fold_left (fun x c => x * 10 + (c - 48)) l n < 2 ^ 31 ->
  Ulib.atoi_loop fuel p n m = Done (fold_left (fun x c => x * 10 + (c - 48)) l n, m).
Proof.
  induction fuel as [|fuel IH]; intros p l n Hb Hd Hend Hf Hn Hv; [lia|]. cbn [Ulib.atoi_loop].
  destruct l as [|c l].
  - destruct Hend as (c & Hc & Hne). cbn in Hc. rewrite Z.add_0_r in Hc. rewrite (ld8_bind _ _ _ _ Hc).
    destruct (Z.leb_spec 48 c), (Z.leb_spec c 57); try done. lia.
  - apply bytes_at_cons in Hb as [Hc Hb]. apply Forall_cons in Hd as [Hd0 Hd]. rewrite (ld8_bind _ _ _ _ Hc).
    rewrite (proj2 (Z.leb_le 48 c)), (proj2 (Z.leb_le c 57)) by lia. cbn [andb fold_left length] in *.
    assert (n * 10 + (c - 48) <= fold_left (fun x c => x * 10 + (c - 48)) l (n * 10 + (c - 48))) as Hm by (apply fold_dec_mono; [done|lia]).
    replace (s32 (n * 10 + c - 48)) with (n * 10 + (c - 48)) by (unfold s32; rewrite Z.mod_small; lia).
    apply IH; [done|done| |lia|lia|done].
    destruct Hend as (e & He & Hne). exists e. split; [|done]. rewrite <- He. f_equal. lia.
Qed.

(** [atoi] reads back what [%d] writes, for the numbers from 0 on. *)
Lemma atoi_reads_decimal m p i : 0 <= i < 2 ^ 31 -> str_at m p (decimal i) -> Ulib.atoi p m = Done (i, m).
Proof.
  intros Hi Hs. unfold decimal in Hs. rewrite (proj2 (Z.ltb_ge i 0)) in Hs by lia.
  pose proof (dec_value_dec 10 i ltac:(lia)) as Hv. unfold dec_value in Hv.
  unfold Ulib.atoi. rewrite str_fuel_bind. pose proof (str_at_size _ _ _ Hs) as Hsz.
  destruct Hs as [Hb _]. apply bytes_at_app in Hb as [Hb [H0 _]%bytes_at_cons].
  rewrite <- Hv at 1. apply atoi_digits; [done|apply dec_digits; lia| |lia|lia|rewrite Hv; lia].
  exists 0. split; [done|lia].
Qed.

(** ** Allocation *)

(** [malloc] records the size of a block behind it, and [free] looks for it
    in front: when the block was the first of its mapping, [free] reads memory
    that is not the program's. *)
Lemma free_looks_in_front mmap munmap n p s s1 :
  0 <= n < 2 ^ 64 - 8 -> mmap 0 (n + 8) 6 3 s = Done (p, s1) -> 0 <= p -> p + n + 8 < 2 ^ 64 - 1 ->
  owned (umem s1) (p + n) 8 ->
  exists s2, malloc mmap n s = Done (p, s2) /\ get_le 8 (umem s2) (p + n) = Some (n + 8) /\
    (8 <= p -> (umem s2) !! (p - 8) = None -> free munmap p s2 = Fault).
Proof.
  intros Hn Hm Hp Hpn Ho. unfold malloc. assert (u64 (n + 8) = n + 8) as -> by (unfold u64; apply Z.mod_small; lia).
  change (Z.lor 2 4) with 6. change (Z.lor 2 1) with 3. rewrite (bind_done _ _ _ _ _ Hm).
  rewrite (proj2 (Z.eqb_neq p _)) by (change (u64 (-1)) with (2 ^ 64 - 1); lia).
  assert (u64 (p + (n + 8) - 8) = p + n) as -> by (unfold u64; rewrite Z.mod_small; lia).
  destruct (proj2 (get_le_owned 8 (umem s1) (p + n)) Ho) as [v Hv].
  eexists. split; [|split].
  - unfold bind, on_umem, zoom, st64, sto. rewrite Hv. reflexivity.
  - cbn [umem]. rewrite get_put_same. f_equal. apply Z.mod_small. change (256 ^ Z.of_nat 8) with (2 ^ 64). lia.
  - cbn [umem]. intros H8 Hnone. unfold free, bind, on_umem, zoom, ld64, ld. cbn [umem].
    assert (u64 (p - 8) = p - 8) as -> by (unfold u64; apply Z.mod_small; lia). cbn [get_le].
    by rewrite Hnone.
Qed.

(** ** ls *)

(** An entry of a directory as bytes, and what [ls] shows of it. *)
Definition dirent (e : Z * list Z) : list Z := [e.1 mod 256; e.1 / 256] ++ e.2 ++ replicate (14 - length e.2) 0.
Definition shown (e : Z * list Z) : list Z := if e.1 =? 0 then [] else e.2 ++ [10].
Definition entry_fits (e : Z * list Z) : Prop :=
  0 <= e.1 < 2 ^ 16 /\ (length e.2 < 14)%nat /\ Forall (fun c => 0 < c < 256) e.2.

Lemma dirent_length e : entry_fits e -> length (dirent e) = 16%nat.
Proof. intros (_ & H & _). unfold dirent. rewrite !length_app, length_replicate. simpl. lia. Qed.

Section Ls.
Context {D : Type} (sys_read : Z -> Z -> Z -> M (ust * D) Z) (holds : D -> list Z -> Prop) (fd de name_nl : Z).
(** [read] of a directory gives its next bytes. *)
Hypothesis read_next : forall s d l, holds d l -> owned (umem s) de DIRENT ->
  exists d', sys_read fd de DIRENT (s, d) =
      Done (Z.of_nat (length (take 16 l)), (mkU (put_bytes de (take 16 l) (umem s)) (stdin s) (written s), d')) /\
    holds d' (drop 16 l).

Lemma ls_entry s e (d : D) : entry_fits e -> bytes_at (umem s) de (dirent e) -> str_at (umem s) name_nl [37; 115; 10] -> 0 < de ->
  bind (on_ust (D := D) (on_umem (ld 2 de)))
    (fun inum => if inum =? 0 then ret tt else on_ust (printf name_nl [VStr (de + 2)])) (s, d) =
  Done (tt, (wrote 1 (shown e) s, d)).
Proof.
  intros (He & Hlen & Hc) Hb Hs Hde. unfold dirent in Hb. apply bytes_at_app in Hb as [Hi Hn].
  cbn [length] in Hn. apply bytes_at_cons in Hi as [H0 Hi]. apply bytes_at_cons in Hi as [H1 _].
  assert (on_ust (D := D) (on_umem (ld 2 de)) (s, d) = Done (e.1, (s, d))) as Hld.
  { unfold on_ust, on_umem, zoom, ld. cbn [fst snd get_le]. rewrite H0, H1. destruct s. cbn. do 2 f_equal. zdiv. }
  rewrite (bind_done _ _ _ _ _ Hld). unfold shown. destruct (e.1 =? 0); [by rewrite wrote_nil|].
  unfold on_ust, zoom. cbn [fst snd]. unfold printf, vprintf.
  rewrite (bind_done _ _ _ (S (size (umem s))) s) by (unfold on_umem, zoom; by destruct s).
  pose proof (str_at_size _ _ _ Hs). rewrite (vprintf_loop_spec 1 _ [37; 115; 10] name_nl _ [AStr e.2] (e.2 ++ [10])); [done|done|lia|done|].
  constructor; [|constructor]. left. split; [lia|]. split; [|done].
  destruct (14 - length e.2)%nat as [|k] eqn:Hk; [lia|]. replace (replicate (S k) 0) with ([0] ++ replicate k 0) in Hn by done.
  rewrite app_assoc in Hn. by apply bytes_at_app in Hn as [Hn _].
Qed.

(** [ls] writes the names of a directory's entries in use, one per line and in
    their order, and ends at the end of the directory, when no name has the
    full 14 characters: such a name has no NUL, and what lies behind the
    entry in memory is shown with it. *)
Theorem ls_lists_names es : forall fuel s d,
  holds d (concat (map dirent es)) -> Forall entry_fits es -> (length es < fuel)%nat ->
  owned (umem s) de DIRENT -> 0 < de -> str_at (umem s) name_nl [37; 115; 10] -> name_nl + 3 < de \/ de + DIRENT <= name_nl ->
  exists s' d', ls_loop sys_read fuel name_nl de fd (s, d) = Done (tt, (s', d')) /\
    written s' = written s ++ map (fun c => (1, u8 c)) (concat (map shown es)) /\ stdin s' = stdin s.
Proof.
  induction es as [|e es IH]; intros [|fuel] s d Hd He Hf Ho Hde Hs Hlit; cbn [length] in Hf; try lia; cbn [ls_loop];
    destruct (read_next s d _ Hd Ho) as (d1 & HE & Hd1); rewrite (bind_done _ _ _ _ _ HE); cbn [map concat] in *.
  - rewrite take_nil. cbn. exists s, d1. rewrite app_nil_r. by destruct s.
  - apply Forall_cons in He as [He Hes]. pose proof (dirent_length e He) as Hl.
    rewrite take_app_length', drop_app_length' in * by done. rewrite Hl in HE |- *.
    change (Z.of_nat 16 =? DIRENT) with true. cbn match. set (s1 := mkU _ _ _).
    assert (str_at (umem s1) name_nl [37; 115; 10]) as Hs1.
    { eapply str_at_frame; [exact Hs|]. intros q Hq. apply put_bytes_out. rewrite Hl. unfold DIRENT in Hlit. cbn in Hq. lia. }
    pose proof (ls_entry s1 e d1 He (put_bytes_at _ _ _) Hs1 Hde) as Hstep. rewrite <- bind_assoc, (bind_done _ _ _ _ _ Hstep).
    destruct (IH fuel (wrote 1 (shown e) s1) d1) as (s' & d' & HE' & Hw & Hi); [done|done|lia|by apply owned_put|done|done|done|].
    exists s', d'. split; [exact HE'|]. split; [|done]. rewrite Hw. cbn. by rewrite map_app, app_assoc.
Qed.
End Ls.

(** ** Concrete runs *)

(** "%d%s" at 10 and "ok" at 30. *)
Definition demo_umem : mem := put_bytes 30 [111; 107; 0] (put_bytes 10 [37; 100; 37; 115; 0] (zeros 0 100)).

Lemma demo_u_fmt : str_at demo_umem 10 [37; 100; 37; 115].
Proof.
  split; [|repeat constructor; lia]. eapply bytes_at_frame; [apply put_bytes_at|].
  intros q Hq. unfold demo_umem. apply put_bytes_out. cbn in *. lia.
Qed.

Lemma demo_u_ok : str_at demo_umem 30 [111; 107].
Proof. split; [apply put_bytes_at|repeat constructor; lia]. Qed.

Lemma fprintf_writes_witness :
  fprintf 1 10 [VInt (-5); VStr 30] (mkU demo_umem [] []) =
  Done (tt, mkU demo_umem [] [(1, 45); (1, 53); (1, 111); (1, 107)]).
Proof.
  apply (fprintf_writes 1 10 [37; 100; 37; 115] [VInt (-5); VStr 30] [AInt (-5); AStr [111; 107]] [45; 53; 111; 107]
    (mkU demo_umem [] []) demo_u_fmt); [|reflexivity].
  constructor; [split; lia|constructor; [left; split; [discriminate|exact demo_u_ok]|constructor]].
Defined.

Lemma memmove_overlapping_witness :
  memmove 31 30 (Z.of_nat 3) demo_umem = Done (31, put_bytes 31 [111; 107; 0] demo_umem).
Proof.
  apply (memmove_overlapping demo_umem 31 30 [111; 107; 0]).
  - apply put_bytes_at.
  - apply (bool_decide_unpack _). vm_compute. exact I.
  - apply (bytes_at_owned _ 31 [107; 0; 0]). intros [|[|[|i]]] x Hx; try done; injection Hx as <-; vm_compute; reflexivity.
Defined.

(** A directory with "a", a free entry and "bc". *)
Definition ls_entries : list (Z * list Z) := [(1, [97]); (0, [120]); (513, [98; 99])].
Definition ls_umem : mem := put_bytes 10 [37; 115; 10; 0] (zeros 0 100).
Definition list_read (fd de n : Z) : M (ust * list Z) Z := fun s =>
  let l := take (Z.to_nat n) s.2 in
  Done (Z.of_nat (length l), (mkU (put_bytes de l (umem s.1)) (stdin s.1) (written s.1), drop (Z.to_nat n) s.2)).

Lemma ls_lists_names_witness :
  exists s' d', ls_loop list_read 4 10 50 3 (mkU ls_umem [] [], concat (map dirent ls_entries)) = Done (tt, (s', d')) /\
    written s' = [(1, 97); (1, 10); (1, 98); (1, 99); (1, 10)].
Proof.
  destruct (ls_lists_names list_read eq 3 50 10) with (es := ls_entries) (fuel := 4%nat) (s := mkU ls_umem [] [])
    (d := concat (map dirent ls_entries)) as (s' & d' & HE & Hw & _).
  - intros s d l <- _. by exists (drop 16 d).
  - reflexivity.
  - repeat constructor; simpl; lia.
  - simpl. lia.
  - cbn [umem]. apply owned_put. intros i Hi. assert (bytes_at (zeros 0 100) 0 (replicate 100 0)) as H by apply put_bytes_at.
    exists 0. replace (50 + i) with (0 + Z.of_nat (Z.to_nat (50 + i))) by lia. apply H. apply lookup_replicate_2. unfold DIRENT in Hi. lia.
  - lia.
  - split; [apply put_bytes_at|repeat constructor; lia].
  - left. lia.
  - exists s', d'. split; [exact HE|]. rewrite Hw. reflexivity.
Defined.
