(* ===== verification/Game.v ===== *)
(** * The snake game: game.c

    The program's globals are a record; the frame buffer is byte memory at the
    address [buf].  What [read] and [get_timer_ticks] return comes from
    outside; [write] is logged. *)
From S2P Require Import Prelude Memory.

Definition node_size : Z := 32.

Record state_t : Type := mkSt { direction : Z; x : Z; y : Z }.

(** The members of [keyboard_event_t] that the game looks at. *)
Record event_t : Type := mkEv { type : Z; code : Z }.

Record game : Type := mkGame {
  snake : list state_t;
  snake_len : Z;
  food_x : Z;
  food_y : Z;
  lcg_state : Z;
  nodes_per_line : Z;
  lines_per_screen : Z;
  width : Z;
  height : Z;
  buf : Z;
  umem : mem;
  writes : list (Z * Z)           (* address and length *)
}.

Definition set_snake (l : list state_t) (n : Z) : M game unit :=
  modify (fun g => mkGame l n (food_x g) (food_y g) (lcg_state g) (nodes_per_line g) (lines_per_screen g) (width g)
                          (height g) (buf g) (umem g) (writes g)).
Definition set_food (a b : Z) : M game unit :=
  modify (fun g => mkGame (snake g) (snake_len g) a b (lcg_state g) (nodes_per_line g) (lines_per_screen g) (width g)
                          (height g) (buf g) (umem g) (writes g)).
Definition set_lcg (s : Z) : M game unit :=
  modify (fun g => mkGame (snake g) (snake_len g) (food_x g) (food_y g) s (nodes_per_line g) (lines_per_screen g)
                          (width g) (height g) (buf g) (umem g) (writes g)).
Definition with_umem (m : mem) (g : game) : game :=
  mkGame (snake g) (snake_len g) (food_x g) (food_y g) (lcg_state g) (nodes_per_line g) (lines_per_screen g) (width g)
         (height g) (buf g) m (writes g).
Definition on_umem {R} (f : M mem R) : M game R := zoom umem with_umem f.

(** [write(monitor_fd, p, n)]. *)
Definition write (p n : Z) : M game unit :=
  modify (fun g => mkGame (snake g) (snake_len g) (food_x g) (food_y g) (lcg_state g) (nodes_per_line g)
                          (lines_per_screen g) (width g) (height g) (buf g) (umem g) (writes g ++ [(p, n)])).

Definition get_node (i : Z) : M game state_t :=
  l <- gets snake;; match arr_get l i with Some s => ret s | None => fault end.
Definition set_node (i : Z) (s : state_t) : M game unit :=
  get_node i;;; g <- get;; set_snake (arr_set (snake g) i s) (snake_len g).

(** ** The rules *)

Definition turn (d : Z) : M game unit := s <- get_node 0;; set_node 0 (mkSt d (x s) (y s)).

(** The result is whether the program exits. *)
Definition update_state (event : event_t) : M game bool :=
  if negb (type event =? 1) then ret false
  else if code event =? 1 then ret true
  else
    when (code event =? 103) (turn 0);;;
    when (code event =? 106) (turn 1);;;
    when (code event =? 108) (turn 2);;;
    when (code event =? 105) (turn 3);;;
    ret false.

Definition init_snake : M game unit :=
  set_node 0 (mkSt 0 10 10);;;
  set_node 1 (mkSt 0 10 11);;;
  g <- get;; set_snake (snake g) 2.

Definition srand (seed : Z) : M game unit := set_lcg seed.
Definition rand : M game Z :=
  s <- gets lcg_state;;
  set_lcg (Z.land (u32 (1664525 * s + 1013904223)) 4294967295);;;
  gets lcg_state.
Definition rand_range (min max : Z) : M game Z :=
  r <- rand;;
  let n := u32 (max - min + 1) in
  if n =? 0 then fault else ret (s32 (min + r mod n)).

Definition at_cell (a b : Z) (s : state_t) : bool := (x s =? a) && (y s =? b).

(** The inner loop: is the cell free, from the node [i] on? *)
Fixpoint can_place (k : nat) (i a b : Z) : M game bool :=
  match k with
  | O => ret true
  | S k => s <- get_node i;; if at_cell a b s then ret false else can_place k (i + 1) a b
  end.
Fixpoint place_food (fuel : nat) (a b : Z) : M game unit :=
  match fuel with
  | O => nofuel
  | S fuel =>
    n <- gets snake_len;;
    can <- can_place (Z.to_nat n) 0 a b;;
    if can then set_food a b else place_food fuel a b
  end.
Definition random_food (fuel : nat) : M game unit :=
  g <- get;;
  a <- rand_range 0 (nodes_per_line g - 1);;
  b <- rand_range 0 (lines_per_screen g - 1);;
  place_food fuel a b.

(** [for(i = k; i > 0; i--)]: each node takes the place of the one before. *)
Fixpoint shift (k : nat) : M game unit :=
  match k with
  | O => ret tt
  | S k => s <- get_node (Z.of_nat k);; set_node (Z.of_nat (S k)) s;;; shift k
  end.

(** The four tests on the direction of the head; [n] is [nodes_per_line]. *)
Definition move_head (n : Z) (s : state_t) : state_t :=
  let s := if direction s =? 0 then mkSt (direction s) (x s) (if y s =? 0 then n - 1 else y s - 1) else s in
  let s := if direction s =? 1 then mkSt (direction s) (if x s =? n - 1 then 0 else x s + 1) (y s) else s in
  let s := if direction s =? 2 then mkSt (direction s) (x s) (if y s =? n - 1 then 0 else y s + 1) else s in
  if direction s =? 3 then mkSt (direction s) (if x s =? 0 then n - 1 else x s - 1) (y s) else s.

Definition update_snake (fuel : nat) : M game unit :=
  n <- gets snake_len;;
  last <- get_node (n - 1);;
  shift (Z.to_nat (n - 1));;;
  g <- get;;
  h <- get_node 0;;
  let h := move_head (nodes_per_line g) h in
  set_node 0 h;;;
  when (at_cell (food_x g) (food_y g) h)
    (g <- get;; set_snake (snake g) (n + 1);;;
     set_node n last;;;
     random_food fuel).

(** ** Drawing *)

Fixpoint for_loop (k : nat) (i : Z) (body : Z -> M game unit) : M game unit :=
  match k with
  | O => ret tt
  | S k => body i;;; for_loop k (i + 1) body
  end.
Definition for_ (n : Z) (body : Z -> M game unit) : M game unit := for_loop (Z.to_nat n) 0 body.

(** Four bytes of the pixel in column [px] of line [py]. *)
Definition put_pixel (px py c0 c1 c2 c3 : Z) : M game unit :=
  g <- get;;
  let i := s32 (py * width g * 4 + px * 4) in
  on_umem (st8 (buf g + i) c0);;;
  on_umem (st8 (buf g + i + 1) c1);;;
  on_umem (st8 (buf g + i + 2) c2);;;
  on_umem (st8 (buf g + i + 3) c3).

Definition draw_node (a b c0 c1 c2 c3 : Z) : M game unit :=
  for_ node_size (fun j => for_ node_size (fun k => put_pixel (a * node_size + k) (b * node_size + j) c0 c1 c2 c3)).

Definition draw_snake : M game unit :=
  n <- gets snake_len;;
  for_ n (fun i => s <- get_node i;; draw_node (x s) (y s) 0 0 0 255).
Definition draw_food : M game unit := g <- get;; draw_node (food_x g) (food_y g) 255 0 0 255.

Definition draw_white : M game unit :=
  g <- get;;
  for_ (height g) (fun i => for_ (width g) (fun j => put_pixel j i 255 255 255 255)).

Definition draw_screen : M game unit :=
  draw_white;;;
  draw_snake;;;
  draw_food;;;
  g <- get;; write (buf g) (u64 (s32 (width g * height g * 4))).

(** ** The program *)

(** One turn of the loop of [main] after the wait: [n] is what [read] returned
    and [event] the array; the result is whether the program exits. *)
Definition frame (fuel : nat) (n : Z) (event : list event_t) : M game bool :=
  quit <- (if n =? 0 then ret false
           else match arr_get event (u64 n / 4 - 1) with Some e => update_state e | None => fault end);;
  if quit then ret true
  else update_snake fuel;;; draw_screen;;; ret false.

(** From [nodes_per_line = ...] to the loop; [fb] is what [malloc] returned,
    for a screen of [w] by [h] pixels. *)
Definition start (fuel : nat) (w h fb : Z) : M game unit :=
  modify (fun g => mkGame (snake g) (snake_len g) (food_x g) (food_y g) (lcg_state g) (Z.quot w node_size)
                          (Z.quot h node_size) w h fb (umem g) (writes g));;;
  for_ (s32 (w * h * 4)) (fun i => on_umem (st8 (fb + i) 255));;;
  write fb (u64 (s32 (w * h * 4)));;;
  init_snake;;;
  random_food fuel.
