(* ===== verification/GameTheorems.v ===== *)
(** * The snake game: proofs and properties

    The moves of the snake as operations on lists, and the drawing loops as
    pictures. *)
From S2P Require Import Prelude Memory Klib KlibProofs KlibTheorems Game.

Definition with_snake (l : list state_t) (n : Z) (g : game) : game :=
  mkGame l n (food_x g) (food_y g) (lcg_state g) (nodes_per_line g) (lines_per_screen g) (width g)
         (height g) (buf g) (umem g) (writes g).
Definition with_food (a b : Z) (g : game) : game :=
  mkGame (snake g) (snake_len g) a b (lcg_state g) (nodes_per_line g) (lines_per_screen g) (width g)
         (height g) (buf g) (umem g) (writes g).
Definition with_lcg (s : Z) (g : game) : game :=
  mkGame (snake g) (snake_len g) (food_x g) (food_y g) s (nodes_per_line g) (lines_per_screen g)
         (width g) (height g) (buf g) (umem g) (writes g).

(** ** The snake as a list *)

Lemma get_node_spec (i : nat) s g : snake g !! i = Some s -> get_node (Z.of_nat i) g = Done (s, g).
Proof.
  intros H. unfold get_node. rewrite bind_gets. unfold arr_get. rewrite (proj2 (Z.ltb_ge _ _)) by lia.
  by rewrite Nat2Z.id, H.
Qed.

Lemma get_node_out (i : nat) g : (length (snake g) <= i)%nat -> get_node (Z.of_nat i) g = Fault.
Proof.
  intros H. unfold get_node. rewrite bind_gets. unfold arr_get. rewrite (proj2 (Z.ltb_ge _ _)) by lia.
  by rewrite Nat2Z.id, lookup_ge_None_2.
Qed.

Lemma set_node_spec (i : nat) s g : (i < length (snake g))%nat ->
  set_node (Z.of_nat i) s g = Done (tt, with_snake (<[i := s]> (snake g)) (snake_len g) g).
Proof.
  intros [s0 H]%lookup_lt_is_Some_2. unfold set_node. rewrite (bind_done _ _ _ _ _ (get_node_spec i s0 g H)), bind_get.
  unfold arr_set. by rewrite Nat2Z.id.
Qed.

Lemma with_snake_twice l n l' n' g : with_snake l' n' (with_snake l n g) = with_snake l' n' g.
Proof. reflexivity. Qed.

(** [shift] moves the nodes [0 .. k-1] up by one and keeps the first. *)
Lemma shift_spec k : forall g, (k < length (snake g))%nat ->
  shift k g = Done (tt, with_snake (take 1 (snake g) ++ take k (snake g) ++ drop (S k) (snake g)) (snake_len g) g).
Proof.
  induction k as [|k IH]; intros g Hk; cbn [shift].
  - rewrite take_0. cbn [app]. rewrite take_drop. by destruct g.
  - destruct (lookup_lt_is_Some_2 (snake g) k) as [s Hs]; [lia|].
    rewrite (bind_done _ _ _ _ _ (get_node_spec k s g Hs)), (bind_done _ _ _ _ _ (set_node_spec (S k) s g Hk)).
    rewrite IH by (cbn [snake with_snake]; rewrite length_insert; lia). cbn [snake with_snake snake_len].
    rewrite with_snake_twice. do 3 f_equal. rewrite !take_insert_ge by lia.
    rewrite (take_S_r (snake g) k s Hs), <- app_assoc. do 2 f_equal.
    rewrite drop_insert_ge, Nat.sub_diag by lia.
    destruct (lookup_lt_is_Some_2 (snake g) (S k) Hk) as [s' Hs']. by rewrite (drop_S _ _ _ Hs').
Qed.

(** The first [n] nodes. *)
Definition body (g : game) : list state_t := take (Z.to_nat (snake_len g)) (snake g).

(** A snake in its array. *)
Definition snake_ok (g : game) : Prop := 2 <= snake_len g <= 256 /\ length (snake g) = 256%nat.

Lemma body_length g : snake_ok g -> length (body g) = Z.to_nat (snake_len g).
Proof. intros [H1 H2]. unfold body. rewrite length_take. lia. Qed.

(** *** Food *)

Definition next_lcg (s : Z) : Z := u32 (1664525 * s + 1013904223).

Lemma rand_spec g : rand g = Done (next_lcg (lcg_state g), with_lcg (next_lcg (lcg_state g)) g).
Proof.
  unfold rand. rewrite bind_gets. unfold set_lcg. rewrite bind_modify. unfold gets. cbn [lcg_state].
  change 4294967295 with (Z.ones 32). rewrite Z.land_ones by lia. unfold next_lcg, u32.
  by rewrite Z.mod_mod by lia.
Qed.

Lemma rand_range_spec n g : 0 < n < 2 ^ 31 ->
  rand_range 0 (n - 1) g = Done (next_lcg (lcg_state g) mod n, with_lcg (next_lcg (lcg_state g)) g).
Proof.
  intros Hn. unfold rand_range. rewrite (bind_done _ _ _ _ _ (rand_spec g)).
  replace (u32 (n - 1 - 0 + 1)) with n by (unfold u32; rewrite Z.mod_small; lia).
  rewrite (proj2 (Z.eqb_neq n 0)) by lia. unfold ret. do 2 f_equal.
  pose proof (Z.mod_pos_bound (next_lcg (lcg_state g)) n ltac:(lia)). unfold s32. rewrite Z.mod_small; lia.
Qed.

Lemma can_place_spec a b : forall k (i : nat) g, (i + k <= length (snake g))%nat ->
  can_place k (Z.of_nat i) a b g = Done (negb (existsb (at_cell a b) (take k (drop i (snake g)))), g).
Proof.
  induction k as [|k IH]; intros i g Hi; cbn [can_place]; [done|].
  destruct (lookup_lt_is_Some_2 (snake g) i) as [s Hs]; [lia|].
  rewrite (bind_done _ _ _ _ _ (get_node_spec i s g Hs)), (drop_S _ _ _ Hs). cbn [take existsb].
  destruct (at_cell a b s); [done|]. replace (Z.of_nat i + 1) with (Z.of_nat (S i)) by lia. apply IH. lia.
Qed.

(** The cell that [random_food] tries, and the state of the generator after. *)
Definition food_cell (g : game) : Z * Z :=
  let s := next_lcg (lcg_state g) in (s mod nodes_per_line g, next_lcg s mod lines_per_screen g).
Definition two_rands (g : game) : game := with_lcg (next_lcg (next_lcg (lcg_state g))) g.

(** It tries one cell only: when the snake is there, the loop never ends. *)
Lemma random_food_spec fuel g : snake_ok g ->
  0 < nodes_per_line g < 2 ^ 31 -> 0 < lines_per_screen g < 2 ^ 31 ->
  let '(a, b) := food_cell g in
  random_food (S fuel) g = if existsb (at_cell a b) (body g) then NoFuel else Done (tt, with_food a b (two_rands g)).
Proof.
  intros Hok Hn Hl. unfold food_cell. unfold random_food. rewrite bind_get.
  rewrite (bind_done _ _ _ _ _ (rand_range_spec (nodes_per_line g) g Hn)).
  rewrite (bind_done _ _ _ _ _ (rand_range_spec (lines_per_screen g) _ Hl)). cbn [lcg_state with_lcg].
  set (a := _ mod nodes_per_line g). set (b := _ mod lines_per_screen g).
  change (with_lcg _ (with_lcg _ g)) with (two_rands g).
  assert (forall k, place_food (S k) a b (two_rands g) = if existsb (at_cell a b) (body g) then place_food k a b (two_rands g)
    else Done (tt, with_food a b (two_rands g))) as Hstep.
  { intros k. cbn [place_food]. rewrite bind_gets. change (snake_len (two_rands g)) with (snake_len g).
    rewrite (bind_done _ _ _ _ _ (can_place_spec a b (Z.to_nat (snake_len g)) 0 (two_rands g) ltac:(destruct Hok as [? E]; change (snake (two_rands g)) with (snake g); rewrite E; lia))).
    rewrite drop_0. change (take _ (snake (two_rands g))) with (body g). by destruct (existsb _ _). }
  assert (forall k, existsb (at_cell a b) (body g) = true -> place_food k a b (two_rands g) = NoFuel) as Hloop.
  { induction k as [|k IH]; intros E; [done|]. rewrite Hstep, E. by apply IH. }
  rewrite Hstep. destruct (existsb _ _) eqn:E; [by apply Hloop|done].
Qed.

(** *** A move *)

Definition nat_len (g : game) : nat := Z.to_nat (snake_len g).

(** The rule of a move: the four directions are up, right, down and left, [y]
    grows downwards, and a head that leaves a square board of [n] columns and
    lines comes back on the other side. *)
Definition toward (d : Z) : Z * Z :=
  match d with 0 => (0, -1) | 1 => (1, 0) | 2 => (0, 1) | 3 => (-1, 0) | _ => (0, 0) end.
Definition stepped (n : Z) (s : state_t) : state_t :=
  mkSt (direction s) ((x s + (toward (direction s)).1) mod n) ((y s + (toward (direction s)).2) mod n).

(** The node lies on a board of [n] columns and [l] lines. *)
Definition inside (n l : Z) (s : state_t) : Prop := 0 <= x s < n /\ 0 <= y s < l.

Lemma stepped_inside n s : 0 < n -> inside n n (stepped n s).
Proof. intros Hn. split; apply Z.mod_pos_bound; lia. Qed.

Lemma mod_up n a : 0 <= a < n -> (a + 1) mod n = if a =? n - 1 then 0 else a + 1.
Proof.
  intros Ha. destruct (Z.eqb_spec a (n - 1)) as [->|]; [replace (n - 1 + 1) with n by lia; apply Z.mod_same; lia|].
  apply Z.mod_small. lia.
Qed.

Lemma mod_down n a : 0 <= a < n -> (a + -1) mod n = if a =? 0 then n - 1 else a - 1.
Proof.
  intros Ha. destruct (Z.eqb_spec a 0) as [->|]; [|apply Z.mod_small; lia].
  symmetry. apply (Z.mod_unique _ _ (-1)); lia.
Qed.

(** The four tests of the code are the rule. *)
Lemma move_head_stepped n s : inside n n s -> move_head n s = stepped n s.
Proof.
  destruct s as [d a b]. intros [Ha Hb]. cbn [x y] in Ha, Hb. unfold stepped. cbn [direction x y].
  destruct (decide (d = 0)) as [->|H0]; [cbn; by rewrite Z.add_0_r, mod_down, (Z.mod_small a) by done|].
  destruct (decide (d = 1)) as [->|H1]; [cbn; by rewrite Z.add_0_r, mod_up, (Z.mod_small b) by done|].
  destruct (decide (d = 2)) as [->|H2]; [cbn; by rewrite Z.add_0_r, mod_up, (Z.mod_small a) by done|].
  destruct (decide (d = 3)) as [->|H3]; [cbn; by rewrite Z.add_0_r, mod_down, (Z.mod_small b) by done|].
  assert (toward d = (0, 0)) as -> by (unfold toward; destruct d as [|[[q|q|]|[q|q|]|]|]; done).
  cbn [fst snd]. rewrite !Z.add_0_r, !Z.mod_small by done. unfold move_head. cbn [direction].
  rewrite (proj2 (Z.eqb_neq d 0) H0). cbn [direction]. rewrite (proj2 (Z.eqb_neq d 1) H1). cbn [direction].
  rewrite (proj2 (Z.eqb_neq d 2) H2). cbn [direction]. by rewrite (proj2 (Z.eqb_neq d 3) H3).
Qed.

(** The head after the move. *)
Definition new_head (g : game) : state_t := stepped (nodes_per_line g) (default (mkSt 0 0 0) (head (body g))).

(** The snake moved on, and the snake moved on and one node longer. *)
Definition moved (g : game) : game :=
  with_snake (new_head g :: take (nat_len g - 1) (snake g) ++ drop (nat_len g) (snake g)) (snake_len g) g.
Definition grown (g : game) : game :=
  with_snake (new_head g :: take (nat_len g) (snake g) ++ drop (S (nat_len g)) (snake g)) (snake_len g + 1) g.

Lemma moved_ok g : snake_ok g -> snake_ok (moved g).
Proof.
  intros [H1 H2]. split; [done|]. cbn [snake moved with_snake length]. rewrite length_app, length_take, length_drop.
  unfold nat_len. lia.
Qed.

Lemma grown_ok g : snake_ok g -> snake_len g < 256 -> snake_ok (grown g).
Proof.
  intros [H1 H2] Hl. split; [cbn; lia|]. cbn [snake grown with_snake length].
  rewrite length_app, length_take, length_drop. unfold nat_len. lia.
Qed.

Lemma moved_body g : snake_ok g -> body (moved g) = new_head g :: take (nat_len g - 1) (body g).
Proof.
  intros [H1 H2]. unfold body at 1. cbn [snake_len moved with_snake snake]. fold (nat_len g).
  destruct (nat_len g) as [|k] eqn:E; [unfold nat_len in E; lia|]. cbn [take]. f_equal.
  rewrite take_app_le by (rewrite length_take; unfold nat_len in E; lia).
  unfold body. fold (nat_len g). rewrite E, !take_take. f_equal. lia.
Qed.

Lemma grown_body g : snake_ok g -> snake_len g < 256 -> body (grown g) = new_head g :: body g.
Proof.
  intros [H1 H2] Hl. unfold body at 1. cbn [snake_len grown with_snake snake].
  replace (Z.to_nat (snake_len g + 1)) with (S (nat_len g)) by (unfold nat_len; lia). cbn [take]. f_equal.
  rewrite take_app_le by (rewrite length_take; unfold nat_len; lia).
  unfold body. fold (nat_len g). rewrite take_take. f_equal. lia.
Qed.

Lemma snake_first g : snake_ok g -> exists s, snake g !! 0%nat = Some s /\ head (body g) = Some s.
Proof.
  intros [H1 H2]. destruct (lookup_lt_is_Some_2 (snake g) 0) as [s Hs]; [lia|]. exists s. split; [done|].
  rewrite head_lookup. unfold body. rewrite lookup_take_lt by lia. done.
Qed.

Lemma update_snake_spec fuel g : snake_ok g ->
  (forall s, head (body g) = Some s -> inside (nodes_per_line g) (nodes_per_line g) s) ->
  0 < nodes_per_line g < 2 ^ 31 -> 0 < lines_per_screen g < 2 ^ 31 ->
  update_snake (S fuel) g =
    if at_cell (food_x g) (food_y g) (new_head g) then
      if snake_len g =? 256 then Fault
      else let '(a, b) := food_cell g in
           if existsb (at_cell a b) (body (grown g)) then NoFuel else Done (tt, with_food a b (two_rands (grown g)))
    else Done (tt, moved g).
Proof.
  intros Hok Hin Hn Hl. pose proof Hok as [H1 H2]. unfold update_snake. rewrite bind_gets.
  assert (snake_len g - 1 = Z.of_nat (nat_len g - 1)) as -> by (unfold nat_len; lia).
  destruct (lookup_lt_is_Some_2 (snake g) (nat_len g - 1)) as [last Hlast]; [unfold nat_len; lia|].
  rewrite (bind_done _ _ _ _ _ (get_node_spec _ _ _ Hlast)), Nat2Z.id.
  rewrite (bind_done _ _ _ _ _ (shift_spec (nat_len g - 1) g ltac:(unfold nat_len; lia))), bind_get.
  replace (S (nat_len g - 1)) with (nat_len g) by (unfold nat_len; lia).
  destruct (snake_first g Hok) as (h & Hh & Hhb).
  assert (take 1 (snake g) = [h]) as Et by (destruct (snake g); [done|by injection Hh as ->]).
  rewrite Et. set (g1 := with_snake _ _ g).
  assert (get_node 0 g1 = Done (h, g1)) as Eg by (apply (get_node_spec 0 h g1); done).
  rewrite (bind_done _ _ _ _ _ Eg). change (nodes_per_line g1) with (nodes_per_line g).
  assert (move_head (nodes_per_line g) h = new_head g) as ->
    by (unfold new_head; rewrite Hhb; by apply move_head_stepped, Hin).
  assert (set_node 0 (new_head g) g1 = Done (tt, moved g)) as Es by (apply (set_node_spec 0 (new_head g) g1); cbn; lia).
  rewrite (bind_done _ _ _ _ _ Es). change (food_x g1) with (food_x g). change (food_y g1) with (food_y g).
  destruct (at_cell _ _ _); [|done]. cbn [when]. rewrite bind_get. unfold set_snake at 1. rewrite bind_modify.
  set (g2 := mkGame _ _ _ _ _ _ _ _ _ _ _ _). pose proof (proj2 (moved_ok g Hok)) as Hlen.
  assert (snake_len g = Z.of_nat (nat_len g)) as En by (unfold nat_len; lia).
  destruct (Z.eqb_spec (snake_len g) 256) as [E|E].
  - apply bind_fault. unfold set_node. apply bind_fault. rewrite En. apply get_node_out. change (snake g2) with (snake (moved g)). lia.
  - assert (set_node (snake_len g) last g2 = Done (tt, grown g)) as Hset.
    { rewrite En, set_node_spec by (change (snake g2) with (snake (moved g)); rewrite Hlen; lia).
      change (snake g2) with (snake (moved g)). change (snake_len g2) with (snake_len g + 1).
      unfold grown. do 2 f_equal. unfold with_snake at 1. cbn [food_x]. unfold with_snake. f_equal.
      cbn [snake moved with_snake]. destruct (nat_len g) as [|k] eqn:Ek; [lia|].
      match goal with |- <[S k := last]> (?h0 :: ?l) = _ => change (<[S k := last]> (h0 :: l)) with (h0 :: <[k := last]> l) end.
      f_equal. rewrite insert_app_r_alt by (rewrite length_take; lia). rewrite length_take.
      replace (k - (S k - 1) `min` length (snake g))%nat with 0%nat by lia.
      replace (S k - 1)%nat with k in * by lia.
      destruct (lookup_lt_is_Some_2 (snake g) (S k)) as [s' Hs']; [lia|].
      rewrite (drop_S _ _ _ Hs'). change (<[0%nat := last]> (s' :: drop (S (S k)) (snake g))) with (last :: drop (S (S k)) (snake g)).
      by rewrite (take_S_r _ _ _ Hlast), <- app_assoc. }
    rewrite (bind_done _ _ _ _ _ Hset).
    pose proof (random_food_spec fuel (grown g) (grown_ok g Hok ltac:(lia)) Hn Hl) as Hf.
    exact Hf.
Qed.

(** ** Theorems on the snake game

    The picture on the screen, and a turn of the game. *)

(** ** Pictures

    The four bytes of each pixel, where they are known. *)

Definition picture : Type := Z -> Z -> option (list Z).

Definition buf_size (g : game) : Z := width g * height g * 4.

(** [m] is the memory of [g] but for its frame buffer. *)
Definition only_buf (g : game) (m : mem) : Prop :=
  forall q, q < buf g \/ buf g + buf_size g <= q -> m !! q = umem g !! q.

(** The memory [m] holds the frame buffer of [g], and in it the picture [f]. *)
Definition pic (g : game) (m : mem) (f : picture) : Prop :=
  (owned m (buf g) (buf_size g) /\ only_buf g m) /\
  forall px py c, 0 <= px < width g -> 0 <= py < height g -> f px py = Some c ->
    length c = 4%nat /\ bytes_at m (buf g + (py * width g + px) * 4) c.

Definition screen_ok (g : game) : Prop := 0 < width g /\ 0 < height g /\ buf_size g < 2 ^ 31.

Definition upd (px py : Z) (c : list Z) (f : picture) : picture := fun a b => if decide (a = px /\ b = py) then Some c else f a b.

Lemma pic_ext g m (f f' : picture) :
  (forall px py, 0 <= px < width g -> 0 <= py < height g -> f' px py = f px py) -> pic g m f -> pic g m f'.
Proof. intros E [Ho H]. split; [done|]. intros px py c Hx Hy Hc. apply H; [done..|]. by rewrite <- E. Qed.

Lemma pixel_index w h a b : 0 <= a < w -> 0 <= b < h -> 0 <= b * w + a < w * h.
Proof. intros Ha Hb. assert (b * w <= (h - 1) * w) by (apply Z.mul_le_mono_nonneg_r; lia). nia. Qed.

Lemma pixel_inj w a b px py : 0 <= a < w -> 0 <= px < w -> b * w + a = py * w + px -> a = px /\ b = py.
Proof.
  intros Ha Hp E. rewrite !(Z.mul_comm _ w) in E. destruct (Z.div_mod_unique w b py a px); [lia|lia|lia|by split].
Qed.

Lemma put_pixel_done g m i px py c0 c1 c2 c3 : i = s32 (py * width g * 4 + px * 4) -> owned m (buf g + i) 4 ->
  Forall (fun c => 0 <= c < 256) [c0; c1; c2; c3] ->
  put_pixel px py c0 c1 c2 c3 (with_umem m g) = Done (tt, with_umem (put_bytes (buf g + i) [c0; c1; c2; c3] m) g).
Proof.
  intros -> Ho Hc. unfold put_pixel. rewrite bind_get. cbn [width with_umem buf].
  set (p := buf g + s32 _) in *. unfold on_umem, bind, zoom. cbn [umem with_umem].
  apply Forall_cons in Hc as [R0 Hc]. apply Forall_cons in Hc as [R1 Hc]. apply Forall_cons in Hc as [R2 Hc]. apply Forall_cons in Hc as [R3 _].
  pose proof (Ho 0 ltac:(lia)) as H0. pose proof (Ho 1 ltac:(lia)) as H1. pose proof (Ho 2 ltac:(lia)) as H2.
  pose proof (Ho 3 ltac:(lia)) as H3. rewrite Z.add_0_r in H0.
  rewrite (st8_done p c0 m H0). cbn [umem with_umem].
  rewrite (st8_done (p + 1) c1) by (rewrite lookup_insert_ne by lia; done). cbn [umem with_umem].
  rewrite (st8_done (p + 2) c2) by (rewrite !lookup_insert_ne by lia; done). cbn [umem with_umem].
  rewrite (st8_done (p + 3) c3) by (rewrite !lookup_insert_ne by lia; done).
  rewrite !Z.mod_small by lia. cbn [put_bytes].
  replace (p + 1 + 1) with (p + 2) by lia. replace (p + 2 + 1) with (p + 3) by lia. done.
Qed.

Lemma put_pixel_spec g m f px py c0 c1 c2 c3 : screen_ok g -> pic g m f ->
  0 <= px < width g -> 0 <= py < height g -> Forall (fun c => 0 <= c < 256) [c0; c1; c2; c3] ->
  exists m', put_pixel px py c0 c1 c2 c3 (with_umem m g) = Done (tt, with_umem m' g) /\ pic g m' (upd px py [c0; c1; c2; c3] f).
Proof.
  intros (Hw & Hh & Hs) [Ho H] Hx Hy Hc. unfold buf_size in *.
  pose proof (pixel_index (width g) (height g) px py Hx Hy) as Hi.
  set (i := s32 (py * width g * 4 + px * 4)).
  assert (i = (py * width g + px) * 4) as Ei by (unfold i, s32; rewrite Z.mod_small; lia).
  eexists. split; [apply (put_pixel_done g m i); [done| |done]|].
  - intros k Hk. rewrite <- Z.add_assoc. apply (proj1 Ho). unfold buf_size. lia.
  - split; [|intros a b c Ha Hb; unfold upd].
    { destruct Ho as [Ho Hout]. split; [by apply owned_put|]. intros q Hq. rewrite put_bytes_out; [by apply Hout|].
      unfold buf_size in Hq. cbn [length]. lia. }
    case_decide as E.
    + destruct E as [-> ->]. intros [= <-]. split; [done|]. rewrite Ei. apply put_bytes_at.
    + intros Hf. destruct (H a b c Ha Hb Hf) as [Hl Hb4]. split; [done|]. eapply bytes_at_frame; [exact Hb4|].
      intros q Hq. apply put_bytes_out. rewrite Hl in Hq. cbn [length].
      assert (b * width g + a <> py * width g + px) by (intros E2; apply E; eapply pixel_inj; [exact Ha|exact Hx|done]). lia.
Qed.

(** A [for] loop that only changes memory. *)
Lemma for_spec (P : Z -> mem -> Prop) g n (step : Z -> M game unit) : 0 <= n ->
  (forall i m, 0 <= i < n -> P i m -> exists m', step i (with_umem m g) = Done (tt, with_umem m' g) /\ P (i + 1) m') ->
  forall m, P 0 m -> exists m', for_ n step (with_umem m g) = Done (tt, with_umem m' g) /\ P n m'.
Proof.
  intros Hn Hstep m H0. unfold for_.
  assert (forall k i m, i + Z.of_nat k = n -> 0 <= i -> P i m ->
    exists m', for_loop k i step (with_umem m g) = Done (tt, with_umem m' g) /\ P n m') as H.
  { induction k as [|k IH]; intros i m1 Hi Hi0 HP; cbn [for_loop].
    - exists m1. replace n with i by lia. done.
    - destruct (Hstep i m1 ltac:(lia) HP) as (m2 & E & HP2). rewrite (bind_done _ _ _ _ _ E). apply IH; [lia|lia|done]. }
  apply H; [lia|lia|done].
Qed.

(** The picture with the cell [a], [b] filled. *)
Definition fill (a b : Z) (c : list Z) (f : picture) : picture := fun px py =>
  if decide (px / 32 = a /\ py / 32 = b) then Some c else f px py.

Ltac cases := repeat case_decide; try done; try (exfalso; lia); try (exfalso; zdiv).

Lemma draw_node_spec g m f a b c0 c1 c2 c3 : screen_ok g -> pic g m f ->
  0 <= a < width g / 32 -> 0 <= b < height g / 32 -> Forall (fun c => 0 <= c < 256) [c0; c1; c2; c3] ->
  exists m', draw_node a b c0 c1 c2 c3 (with_umem m g) = Done (tt, with_umem m' g) /\ pic g m' (fill a b [c0; c1; c2; c3] f).
Proof.
  intros Hs Hf Ha Hb Hc. unfold draw_node, node_size. set (c := [c0; c1; c2; c3]).
  set (rows j := fun px py => if decide (px / 32 = a /\ b * 32 <= py < b * 32 + j) then Some c else f px py : option (list Z)).
  destruct (for_spec (fun j m => pic g m (rows j)) g 32
    (fun j => for_ 32 (fun k => put_pixel (a * 32 + k) (b * 32 + j) c0 c1 c2 c3)) ltac:(lia)) with (m := m) as (m' & E & H).
  - intros j m1 Hj H1.
    destruct (for_spec (fun k m => pic g m (fun px py =>
      if decide (py = b * 32 + j /\ a * 32 <= px < a * 32 + k) then Some c else rows j px py)) g 32
      (fun k => put_pixel (a * 32 + k) (b * 32 + j) c0 c1 c2 c3) ltac:(lia)) with (m := m1) as (m2 & E & H).
    + intros k m2 Hk H2. destruct (put_pixel_spec g m2 _ (a * 32 + k) (b * 32 + j) c0 c1 c2 c3 Hs H2) as (m3 & E & H3); [zdiv|zdiv|done|].
      exists m3. split; [done|]. eapply pic_ext; [|exact H3]. intros px py Hx Hy. unfold upd. cbn beta. cases.
    + eapply pic_ext; [|exact H1]. intros px py Hx Hy. cbn beta. cases.
    + exists m2. split; [done|]. eapply pic_ext; [|exact H]. intros px py Hx Hy. unfold rows. cases.
  - eapply pic_ext; [|exact Hf]. intros px py Hx Hy. unfold rows. cases.
  - exists m'. split; [done|]. eapply pic_ext; [|exact H]. intros px py Hx Hy. unfold fill, rows. cases.
Qed.

(** ** The screen *)

Definition WHITE : list Z := [255; 255; 255; 255].
Definition NODE : list Z := [0; 0; 0; 255].
Definition FOOD : list Z := [255; 0; 0; 255].

(** The colour of a pixel: the food in front of the snake, the snake in front
    of the background. *)
Definition color (g : game) (px py : Z) : list Z :=
  if decide (px / 32 = food_x g /\ py / 32 = food_y g) then FOOD
  else if existsb (at_cell (px / 32) (py / 32)) (body g) then NODE else WHITE.

Definition on_board (g : game) : Prop :=
  Forall (inside (width g / 32) (height g / 32)) (body g) /\
  0 <= food_x g < width g / 32 /\ 0 <= food_y g < height g / 32.

Lemma with_umem_self g : with_umem (umem g) g = g.
Proof. by destruct g. Qed.

Lemma draw_white_spec g m : screen_ok g -> owned m (buf g) (buf_size g) -> only_buf g m ->
  exists m', draw_white (with_umem m g) = Done (tt, with_umem m' g) /\ pic g m' (fun _ _ => Some WHITE).
Proof.
  intros Hs Ho Hout. unfold draw_white. rewrite bind_get. cbn [width height with_umem]. pose proof Hs as (Hw & Hh & _).
  set (rows i := fun px py : Z => if decide (py < i) then Some WHITE else None).
  destruct (for_spec (fun i m => pic g m (rows i)) g (height g)
    (fun i => for_ (width g) (fun j => put_pixel j i 255 255 255 255)) ltac:(lia)) with (m := m) as (m' & E & H).
  - intros i m1 Hi H1.
    destruct (for_spec (fun j m => pic g m (fun px py => if decide (py = i /\ px < j) then Some WHITE else rows i px py)) g (width g)
      (fun j => put_pixel j i 255 255 255 255) ltac:(lia)) with (m := m1) as (m2 & E & H).
    + intros j m2 Hj H2. destruct (put_pixel_spec g m2 _ j i 255 255 255 255 Hs H2) as (m3 & E & H3); [done|done|repeat constructor; lia|].
      exists m3. split; [done|]. eapply pic_ext; [|exact H3]. intros px py Hx Hy. unfold upd. cbn beta. cases.
    + eapply pic_ext; [|exact H1]. intros px py Hx Hy. cbn beta. cases.
    + exists m2. split; [done|]. eapply pic_ext; [|exact H]. intros px py Hx Hy. unfold rows. cases.
  - split; [done|]. intros px py c Hx Hy. unfold rows. cases.
  - exists m'. split; [done|]. eapply pic_ext; [|exact H]. intros px py Hx Hy. unfold rows. cases.
Qed.

Lemma at_cell_spec a b s : reflect (a = x s /\ b = y s) (at_cell a b s).
Proof. unfold at_cell. destruct (Z.eqb_spec (x s) a), (Z.eqb_spec (y s) b); constructor; naive_solver. Qed.

Lemma draw_snake_spec g m : screen_ok g -> snake_ok g -> on_board g -> pic g m (fun _ _ => Some WHITE) ->
  exists m', draw_snake (with_umem m g) = Done (tt, with_umem m' g) /\
    pic g m' (fun px py => Some (if existsb (at_cell (px / 32) (py / 32)) (body g) then NODE else WHITE)).
Proof.
  intros Hs Hk (Hb & _) Hm. unfold draw_snake. rewrite bind_gets. cbn [snake_len with_umem]. pose proof Hk as [Hk1 Hk2].
  set (part i := fun px py : Z => Some (if existsb (at_cell (px / 32) (py / 32)) (take (Z.to_nat i) (body g)) then NODE else WHITE)).
  destruct (for_spec (fun i m => pic g m (part i)) g (snake_len g)
    (fun i => s <- get_node i;; draw_node (x s) (y s) 0 0 0 255) ltac:(lia)) with (m := m) as (m' & E & H).
  - intros i m1 Hi H1. destruct (lookup_lt_is_Some_2 (body g) (Z.to_nat i)) as [s Hi'].
    { rewrite (body_length g Hk). lia. }
    assert (snake (with_umem m1 g) !! Z.to_nat i = Some s) as Hsn by (unfold body in Hi'; by apply lookup_take_Some in Hi' as [? _]).
    pose proof (get_node_spec (Z.to_nat i) s (with_umem m1 g) Hsn) as Hg. rewrite Z2Nat.id in Hg by lia.
    pose proof (Forall_lookup_1 _ _ _ _ Hb Hi') as [Hx Hy].
    destruct (draw_node_spec g m1 _ (x s) (y s) 0 0 0 255 Hs H1 Hx Hy) as (m2 & E & H2); [repeat constructor; lia|].
    exists m2. split; [by rewrite (bind_done _ _ _ _ _ Hg)|]. eapply pic_ext; [|exact H2].
    intros px py _ _. unfold part, fill. replace (Z.to_nat (i + 1)) with (S (Z.to_nat i)) by lia.
    rewrite (take_S_r _ _ _ Hi'), existsb_app. cbn [existsb]. rewrite orb_false_r.
    destruct (at_cell_spec (px / 32) (py / 32) s) as [Hc|Hc].
    + rewrite orb_true_r. by rewrite decide_True.
    + rewrite orb_false_r. by rewrite decide_False.
  - done.
  - exists m'. split; [done|]. eapply pic_ext; [|exact H]. intros px py _ _. unfold part.
    rewrite (firstn_all2 (body g)) by (rewrite (body_length g Hk); lia). done.
Qed.

Definition logged (g : game) : game :=
  mkGame (snake g) (snake_len g) (food_x g) (food_y g) (lcg_state g) (nodes_per_line g) (lines_per_screen g) (width g)
         (height g) (buf g) (umem g) (writes g ++ [(buf g, buf_size g)]).

Lemma draw_screen_spec g : screen_ok g -> snake_ok g -> on_board g -> owned (umem g) (buf g) (buf_size g) ->
  exists m, draw_screen g = Done (tt, logged (with_umem m g)) /\ pic g m (fun px py => Some (color g px py)).
Proof.
  intros Hs Hk Hb Ho. unfold draw_screen.
  destruct (draw_white_spec g (umem g) Hs Ho ltac:(done)) as (m1 & E1 & H1). rewrite with_umem_self in E1. rewrite (bind_done _ _ _ _ _ E1).
  destruct (draw_snake_spec g m1 Hs Hk Hb H1) as (m2 & E2 & H2). rewrite (bind_done _ _ _ _ _ E2).
  pose proof Hb as (_ & Hfx & Hfy).
  destruct (draw_node_spec g m2 _ (food_x g) (food_y g) 255 0 0 255 Hs H2 Hfx Hfy) as (m3 & E3 & H3); [repeat constructor; lia|].
  assert (draw_food (with_umem m2 g) = Done (tt, with_umem m3 g)) as E by (unfold draw_food; by rewrite bind_get).
  rewrite (bind_done _ _ _ _ _ E), bind_get. exists m3. split.
  - unfold write, modify, logged. cbn [with_umem width height buf]. do 2 f_equal. unfold with_umem. f_equal. do 3 f_equal.
    pose proof Hs as (_ & _ & Hsz). unfold buf_size in *. assert (0 < width g * height g) by (destruct Hs as (? & ? & _); nia).
    cbn [width height]. unfold u64, s32. rewrite (Z.mod_small (_ + _)) by lia. rewrite Z.mod_small; lia.
  - eapply pic_ext; [|exact H3]. intros px py _ _. unfold fill, color. by destruct (decide _).
Qed.

(** ** A turn *)

Definition quits (e : event_t) : bool := (type e =? 1) && (code e =? 1).

(** The direction that a key gives, if it gives one. *)
Definition KEY_UP : Z := 103.
Definition KEY_LEFT : Z := 105.
Definition KEY_RIGHT : Z := 106.
Definition KEY_DOWN : Z := 108.
Definition key_direction (e : event_t) : option Z :=
  if negb (type e =? 1) then None
  else if code e =? KEY_UP then Some 0 else if code e =? KEY_RIGHT then Some 1
  else if code e =? KEY_DOWN then Some 2 else if code e =? KEY_LEFT then Some 3 else None.

Definition steer (d : Z) (g : game) : game :=
  match snake g with
  | [] => g
  | s :: l => with_snake (mkSt d (x s) (y s) :: l) (snake_len g) g
  end.
Definition steered (e : event_t) (g : game) : game :=
  match key_direction e with Some d => steer d g | None => g end.

Lemma turn_spec d g : snake_ok g -> turn d g = Done (tt, steer d g).
Proof.
  intros Hok. destruct (snake_first g Hok) as (s & Hs & _). unfold turn, steer.
  assert (get_node 0 g = Done (s, g)) as E by (by apply (get_node_spec 0)).
  rewrite (bind_done _ _ _ _ _ E). destruct (snake g) as [|s' l] eqn:El; [done|]. injection Hs as ->.
  assert (set_node 0 (mkSt d (x s) (y s)) g = Done (tt, with_snake (<[0%nat := mkSt d (x s) (y s)]> (snake g)) (snake_len g) g)) as ->
    by (apply (set_node_spec 0); rewrite El; cbn; lia).
  by rewrite El.
Qed.

Lemma update_state_spec e g : snake_ok g ->
  update_state e g = Done (quits e, if quits e then g else steered e g).
Proof.
  intros Hok. unfold update_state, quits, steered, key_direction, KEY_UP, KEY_LEFT, KEY_RIGHT, KEY_DOWN. destruct (type e =? 1); [|done]. cbn [negb andb].
  destruct (Z.eqb_spec (code e) 1) as [|Hne]; [done|].
  destruct (Z.eqb_spec (code e) 103) as [->|]; [cbn [when]; rewrite (bind_done _ _ _ _ _ (turn_spec 0 g Hok)); done|].
  destruct (Z.eqb_spec (code e) 106) as [->|]; [cbn [when]; rewrite bind_ret, (bind_done _ _ _ _ _ (turn_spec 1 g Hok)); done|].
  destruct (Z.eqb_spec (code e) 108) as [->|]; [cbn [when]; rewrite !bind_ret, (bind_done _ _ _ _ _ (turn_spec 2 g Hok)); done|].
  destruct (Z.eqb_spec (code e) 105); [cbn [when]; rewrite !bind_ret, (bind_done _ _ _ _ _ (turn_spec 3 g Hok)); done|].
  done.
Qed.

(** A game that is being played, on a screen that is at least as high as it
    is wide: the rules count lines with [nodes_per_line]. *)
Record playing (g : game) : Prop := {
  P_snake : snake_ok g;
  P_screen : screen_ok g;
  P_buf : owned (umem g) (buf g) (buf_size g);
  P_cells : nodes_per_line g = width g / 32 /\ lines_per_screen g = height g / 32 /\
    0 < nodes_per_line g <= lines_per_screen g;
  P_body : Forall (inside (nodes_per_line g) (nodes_per_line g)) (body g);
  P_food : 0 <= food_x g < nodes_per_line g /\ 0 <= food_y g < lines_per_screen g
}.

Lemma playing_on_board g : playing g -> on_board g.
Proof.
  intros [_ _ _ (En & El & Hn) Hb (Hx & Hy)]. unfold on_board. rewrite <- En, <- El. split; [|by split].
  eapply Forall_impl; [exact Hb|]. intros s [H1 H2]. split; lia.
Qed.

Lemma playing_small g : playing g -> 0 < nodes_per_line g < 2 ^ 31 /\ 0 < lines_per_screen g < 2 ^ 31.
Proof.
  intros H. destruct (P_screen _ H) as (Hw & Hh & Hs), (P_cells _ H) as (En & El & Hn). unfold buf_size in Hs.
  assert (width g < 2 ^ 31 /\ height g < 2 ^ 31) by nia. rewrite En, El in *. split; zdiv.
Qed.

Lemma playing_head g s : playing g -> head (body g) = Some s -> inside (nodes_per_line g) (nodes_per_line g) s.
Proof. intros H Hs. pose proof (P_body _ H) as Hb. rewrite head_lookup in Hs. by eapply Forall_lookup_1. Qed.

Lemma new_head_inside g : playing g -> inside (nodes_per_line g) (nodes_per_line g) (new_head g).
Proof. intros H. apply stepped_inside. destruct (playing_small g H); lia. Qed.

Lemma steer_playing d g : playing g -> playing (steer d g).
Proof.
  intros [Hk Hs Hb Hc Hbd Hf]. unfold steer. destruct (snake g) as [|s l] eqn:E; [by split|].
  pose proof Hk as [Hk1 Hk2]. rewrite E in Hk2. split; try done. unfold body in *. rewrite E in Hbd.
  cbn [snake snake_len with_snake] in *. destruct (Z.to_nat (snake_len g)); [done|]. cbn [take] in *.
  apply Forall_cons in Hbd as [H1 H2]. constructor; [exact H1|exact H2].
Qed.

Lemma steered_playing e g : playing g -> playing (steered e g).
Proof. intros H. unfold steered. destruct (key_direction e); [by apply steer_playing|done]. Qed.

Definition eats (g : game) : bool := at_cell (food_x g) (food_y g) (new_head g).
Definition food_on_snake (g : game) : bool := existsb (at_cell (fst (food_cell g)) (snd (food_cell g))) (body (grown g)).

(** The state after [update_snake], when it returns. *)
Definition advanced (g : game) : game :=
  if eats g then with_food (fst (food_cell g)) (snd (food_cell g)) (two_rands (grown g)) else moved g.

Lemma advanced_body g : playing g -> (eats g = true -> snake_len g < 256) ->
  body (advanced g) = new_head g :: (if eats g then body g else take (nat_len g - 1) (body g)).
Proof.
  intros H Hl. unfold advanced. pose proof (P_snake _ H) as Hk. destruct (eats g); [|by apply moved_body].
  change (body (with_food _ _ _)) with (body (grown g)). apply grown_body; [done|by apply Hl].
Qed.

Lemma advanced_playing g : playing g -> (eats g = true -> snake_len g < 256) -> playing (advanced g).
Proof.
  intros H Hl. pose proof (advanced_body g H Hl) as Eb. pose proof (new_head_inside g H) as Hh.
  pose proof H as [Hk Hs Hb Hc Hbd Hf].
  assert (snake_ok (advanced g)) as Hk'.
  { unfold advanced. destruct (eats g); [apply (grown_ok g Hk); by apply Hl|by apply moved_ok]. }
  assert (Forall (inside (nodes_per_line g) (nodes_per_line g)) (body (advanced g))) as Hbd'.
  { rewrite Eb. constructor; [done|]. destruct (eats g); [done|by apply Forall_take]. }
  destruct (playing_small g H) as [Hn Hln]. unfold advanced in *.
  destruct (eats g); split; try done. cbn [food_x food_y with_food nodes_per_line lines_per_screen two_rands with_lcg grown with_snake].
  unfold food_cell. cbn [fst snd]. split; apply Z.mod_pos_bound; lia.
Qed.

(** What a call of [update_snake] comes to. *)
Lemma update_snake_outcome fuel g : playing g ->
  update_snake (S fuel) g =
    if eats g && (snake_len g =? 256) then Fault
    else if eats g && food_on_snake g then NoFuel
    else Done (tt, advanced g).
Proof.
  intros H. destruct (playing_small g H) as [Hn Hl]. rewrite (update_snake_spec fuel g (P_snake _ H) (fun s => playing_head g s H) Hn Hl).
  unfold eats, food_on_snake, advanced. unfold eats. destruct (at_cell _ _ _); [|done]. cbn [andb].
  destruct (snake_len g =? 256); [done|]. unfold food_cell. cbn [fst snd].
  by destruct (existsb _ _).
Qed.

Lemma logged_playing g m : playing g -> owned m (buf g) (buf_size g) -> playing (logged (with_umem m g)).
Proof. intros [Hk Hs Hb Hc Hbd Hf] Ho. by split. Qed.

(** The game after the keys were looked at: [n] bytes of events. *)
Definition last_event (n : Z) (event : list event_t) : option event_t := event !! Z.to_nat (n / 4 - 1).
Definition keyed (n : Z) (event : list event_t) (g : game) : game :=
  if n =? 0 then g else match last_event n event with Some e => steered e g | None => g end.

(** The first part of a turn. *)
Definition read_keys (n : Z) (event : list event_t) : M game bool :=
  if n =? 0 then ret false
  else match arr_get event (u64 n / 4 - 1) with Some e => update_state e | None => fault end.

Lemma read_keys_outcome n event g : snake_ok g -> 0 <= n <= 4 * Z.of_nat (length event) -> n mod 4 = 0 -> n < 2 ^ 31 ->
  (exists e, last_event n event = Some e /\ quits e = true /\ read_keys n event g = Done (true, g)) \/
  read_keys n event g = Done (false, keyed n event g).
Proof.
  intros Hk Hn H4 Hs. unfold read_keys, keyed, last_event. destruct (Z.eqb_spec n 0) as [|Hn0]; [by right|].
  replace (u64 n) with n by (unfold u64; rewrite Z.mod_small; lia). assert (4 <= n) by (destruct (decide (n < 4)); zdiv).
  unfold arr_get. rewrite (proj2 (Z.ltb_ge _ _)) by zdiv.
  destruct (lookup_lt_is_Some_2 event (Z.to_nat (n / 4 - 1))) as [e He]; [zdiv|]. rewrite He, (update_state_spec e g Hk).
  destruct (quits e) eqn:Eq; [left; by exists e|by right].
Qed.

(** The frame buffer holds the picture of the game. *)
Definition shows (g : game) : Prop := forall px py, 0 <= px < width g -> 0 <= py < height g ->
  bytes_at (umem g) (buf g + (py * width g + px) * 4) (color g px py).


(** ** Screens that are wider than high *)

(** On a screen with two more columns than lines, a snake that goes up from
    the first line comes back below the screen, and drawing it writes outside
    the frame buffer. *)
Theorem game_wide_screen fuel g a l event :
  snake_ok g -> screen_ok g -> width g * width g * 4 < 2 ^ 31 -> owned (umem g) (buf g) (buf_size g) ->
  (forall q, buf g + buf_size g <= q -> umem g !! q = None) ->
  nodes_per_line g = width g / 32 -> lines_per_screen g = height g / 32 -> 0 < lines_per_screen g -> lines_per_screen g + 1 < nodes_per_line g ->
  snake g = mkSt 0 a 0 :: l -> 0 <= a < nodes_per_line g -> (food_x g, food_y g) <> (a, nodes_per_line g - 1) ->
  frame (S fuel) 0 event g = Fault.
Proof.
  intros Hk Hs Hw2 Ho Hnone En El Hl0 Hwide Hsn Ha Hfood. unfold frame. change (0 =? 0) with true. cbn match. rewrite bind_ret.
  pose proof Hs as (Hw & Hh & Hsz). assert (0 < nodes_per_line g < 2 ^ 31) as Hn by (rewrite En in *; split; zdiv).
  assert (0 < lines_per_screen g < 2 ^ 31) as Hl by lia.
  assert (new_head g = mkSt 0 a (nodes_per_line g - 1)) as Eh.
  { assert (head (body g) = Some (mkSt 0 a 0)) as E
      by (unfold body; rewrite Hsn; destruct Hk as [Hk _]; by destruct (Z.to_nat (snake_len g)) eqn:E; [lia|]).
    unfold new_head. rewrite E. cbn [default]. rewrite <- move_head_stepped by (split; cbn [x y default from_option id]; lia). done. }
  assert (update_snake (S fuel) g = Done (tt, moved g)) as Eu.
  { rewrite (update_snake_spec fuel g Hk), Eh; [|intros s0 E0; unfold body in E0; rewrite Hsn in E0;
      destruct (Z.to_nat (snake_len g)); [done|]; injection E0 as <-; split; cbn [x y]; lia|done..].
    destruct (at_cell_spec (food_x g) (food_y g) (mkSt 0 a (nodes_per_line g - 1))) as [[E1 E2]|]; [|done].
    cbn [x y] in E1, E2. by rewrite E1, E2 in Hfood. }
  rewrite (bind_done _ _ _ _ _ Eu). apply bind_fault. unfold draw_screen.
  destruct (draw_white_spec (moved g) (umem g) Hs Ho ltac:(done)) as (m & E1 & [[_ Hout] _]).
  change (with_umem (umem g) (moved g)) with (moved g) in E1. rewrite (bind_done _ _ _ _ _ E1).
  apply bind_fault. unfold draw_snake. rewrite bind_gets. cbn [snake_len moved with_snake with_umem].
  unfold for_. destruct Hk as [Hk1 Hk2]. destruct (Z.to_nat (snake_len g)) as [|k] eqn:Ek; [lia|].
  cbn [for_loop]. apply bind_fault.
  assert (get_node 0 (with_umem m (moved g)) = Done (new_head g, with_umem m (moved g))) as Eg by (by apply (get_node_spec 0)).
  rewrite (bind_done _ _ _ _ _ Eg), Eh. cbn [x y]. unfold draw_node, for_. change (Z.to_nat node_size) with 32%nat.
  cbn [for_loop]. apply bind_fault, bind_fault. unfold put_pixel. rewrite bind_get. cbn [width buf with_umem moved with_snake].
  apply bind_fault. unfold on_umem, zoom. cbn [umem with_umem]. unfold node_size.
  set (i := s32 _). assert (buf_size g <= i) as Hi.
  { unfold i, s32, buf_size in *. assert (height g <= (nodes_per_line g - 1) * 32) by (rewrite El in *; zdiv).
    assert ((nodes_per_line g - 1) * 32 <= width g - 32 /\ a * 32 <= width g - 32) as [H1 H2] by (rewrite En in *; zdiv).
    assert (((nodes_per_line g - 1) * 32) * width g <= (width g - 32) * width g) by (apply Z.mul_le_mono_nonneg_r; lia).
    assert (height g * width g <= ((nodes_per_line g - 1) * 32) * width g) by (apply Z.mul_le_mono_nonneg_r; lia).
    rewrite Z.mod_small; lia. }
  unfold st8, sto. cbn [get_le]. rewrite (Hout (buf g + i)) by (cbn; unfold buf_size in *; cbn; lia).
  change (umem (moved g)) with (umem g). by rewrite Hnone by lia.
Qed.

(** ** The start *)

Lemma start_playing fuel w h fb g : length (snake g) = 256%nat -> 12 <= w / 32 <= h / 32 -> w * h * 4 < 2 ^ 31 ->
  owned (umem g) fb (w * h * 4) ->
  start (S fuel) w h fb g = NoFuel \/ exists g', start (S fuel) w h fb g = Done (tt, g') /\ playing g'.
Proof.
  intros Hsn Hw Hsz Ho. unfold start. rewrite bind_modify. set (g1 := mkGame _ _ _ _ _ _ _ _ _ _ _ _).
  assert (0 < w /\ 0 < h) as [Hw0 Hh0] by (split; zdiv). assert (0 < w * h) by nia.
  assert (s32 (w * h * 4) = w * h * 4) as -> by (unfold s32; rewrite Z.mod_small; lia).
  destruct (for_spec (fun _ m => owned m fb (w * h * 4)) g1 (w * h * 4) (fun i => on_umem (st8 (fb + i) 255)) ltac:(lia))
    with (m := umem g) as (m & E & Hm).
  { intros i m Hi Hm. unfold on_umem, zoom. cbn [umem with_umem]. rewrite st8_done by (by apply Hm).
    eexists. split; [reflexivity|]. by apply owned_insert. }
  { done. }
  change (with_umem (umem g) g1) with g1 in E. rewrite (bind_done _ _ _ _ _ E). unfold write. rewrite bind_modify.
  set (g2 := mkGame _ _ _ _ _ _ _ _ _ _ _ _). set (l := <[1%nat := mkSt 0 10 11]> (<[0%nat := mkSt 0 10 10]> (snake g))).
  assert (init_snake g2 = Done (tt, with_snake l 2 g2)) as Ei.
  { unfold init_snake. rewrite (bind_done _ _ _ _ _ (set_node_spec 0 (mkSt 0 10 10) g2 ltac:(change (snake g2) with (snake g); lia))).
    rewrite (bind_done _ _ _ _ _ (set_node_spec 1 (mkSt 0 10 11) (with_snake (<[0%nat := mkSt 0 10 10]> (snake g2)) (snake_len g2) g2)
      ltac:(cbn [snake with_snake]; rewrite length_insert; change (snake g2) with (snake g); lia))).
    done. }
  rewrite (bind_done _ _ _ _ _ Ei). set (g3 := with_snake l 2 g2).
  assert (snake_ok g3) as Hk by (split; [cbn; lia|unfold g3, l; cbn [snake with_snake]; by rewrite !length_insert]).
  assert (nodes_per_line g3 = w / 32 /\ lines_per_screen g3 = h / 32) as [En El]
    by (cbn; unfold node_size; by rewrite !Z.quot_div_nonneg by lia).
  assert (w < 2 ^ 31 /\ h < 2 ^ 31) as [? ?] by nia.
  assert (w / 32 < 2 ^ 31 /\ h / 32 < 2 ^ 31) as [? ?] by (split; zdiv).
  pose proof (random_food_spec fuel g3 Hk ltac:(lia) ltac:(lia)) as Hf. unfold food_cell in Hf.
  destruct (existsb _ _); [by left|right]. eexists. split; [exact Hf|]. split.
  - exact Hk.
  - done.
  - exact Hm.
  - change (nodes_per_line g3 = w / 32 /\ lines_per_screen g3 = h / 32 /\ 0 < nodes_per_line g3 <= lines_per_screen g3). lia.
  - change (Forall (inside (nodes_per_line g3) (nodes_per_line g3)) (take 2 l)). rewrite En.
    unfold l. destruct (snake g) as [|s0 [|s1 l0]]; [done..|]. cbn. repeat constructor; cbn; lia.
  - cbn [food_x food_y with_food]. split; apply Z.mod_pos_bound; change (0 < nodes_per_line g3) || change (0 < lines_per_screen g3); lia.
Qed.

(** ** Concrete games *)

(** A screen of [cols] by [rows] cells of 32 pixels. *)
Definition demo_game (cols rows : Z) (s : state_t) : game :=
  mkGame (s :: replicate 255 (mkSt 0 10 11)) 2 3 4 1 cols rows (cols * 32) (rows * 32) 4096
    (zeros 4096 (Z.to_nat (cols * 32 * (rows * 32) * 4))) [].

Lemma demo_game_owned cols rows s : 0 <= cols -> 0 <= rows ->
  owned (umem (demo_game cols rows s)) 4096 (buf_size (demo_game cols rows s)).
Proof.
  intros Hc Hr. unfold buf_size. cbn [umem demo_game width height].
  pose proof (bytes_at_owned _ _ _ (put_bytes_at 4096 (replicate (Z.to_nat (cols * 32 * (rows * 32) * 4)) 0) ∅)) as H.
  rewrite length_replicate, Z2Nat.id in H by nia. exact H.
Qed.

Lemma demo_playing : playing (demo_game 12 12 (mkSt 0 10 10)).
Proof.
  split.
  - split; [cbn; lia|]. cbn [snake demo_game length]. by rewrite length_replicate.
  - done.
  - apply demo_game_owned; lia.
  - done.
  - unfold body. cbn. repeat constructor; cbn; lia.
  - cbn. lia.
Qed.

(** The left arrow at the left edge. *)
Lemma demo_edge_playing : playing (demo_game 12 12 (mkSt 0 0 10)).
Proof.
  split; [|done|apply demo_game_owned; lia|done| |cbn; lia].
  - split; [cbn; lia|]. cbn [snake demo_game length]. by rewrite length_replicate.
  - unfold body. cbn. repeat constructor; cbn; lia.
Qed.


Lemma demo_wide_ok : snake_ok (demo_game 20 12 (mkSt 0 10 0)).
Proof. split; [cbn; lia|]. cbn [snake demo_game length]. by rewrite length_replicate. Qed.

Lemma demo_wide_screen : screen_ok (demo_game 20 12 (mkSt 0 10 0)).
Proof. unfold screen_ok, buf_size. cbn [width height demo_game]. lia. Qed.

Lemma demo_wide_end q : buf (demo_game 20 12 (mkSt 0 10 0)) + buf_size (demo_game 20 12 (mkSt 0 10 0)) <= q ->
  umem (demo_game 20 12 (mkSt 0 10 0)) !! q = None.
Proof.
  unfold buf_size. cbn [umem demo_game buf width height]. intros Hq. unfold zeros.
  rewrite put_bytes_out; [done|]. rewrite length_replicate. lia.
Qed.

Lemma game_wide_screen_witness : frame 1 0 [] (demo_game 20 12 (mkSt 0 10 0)) = Fault.
Proof.
  exact (game_wide_screen 0 (demo_game 20 12 (mkSt 0 10 0)) 10 (replicate 255 (mkSt 0 10 11)) [] demo_wide_ok demo_wide_screen
    eq_refl (demo_game_owned 20 12 (mkSt 0 10 0) ltac:(lia) ltac:(lia)) demo_wide_end eq_refl eq_refl eq_refl eq_refl eq_refl
    ltac:(cbn; lia) ltac:(discriminate)).
Defined.
