(* ===== verification/Proc.v ===== *)
(** * Tasks: proc.c

    The table of tasks, the harts with the locks they hold, and every
    operation of proc.c from one context switch to the next.  A task that is
    switched out keeps, in place of its saved registers, which [swtch] it
    called and what it does next.  The locks exclude the other harts from the
    fields an operation uses, so an operation is one transition of the
    kernel; [sys_wait], which takes the tasks' locks one after the other, is a
    transition per task it looks at.  A semaphore is the counter and queue
    that lock.c's lists stand for.  The other components act on the tasks when
    they take and free locks, sleep, and wait for or signal their semaphores;
    nothing is assumed of the order in which they do so. *)
From S2P Require Import Prelude Lock.

Definition NTASK : nat := 1010.
Definition NCPU : nat := 8.
Definition NOFILE : nat := 100.

Inductive tstate : Type := RUNNING | RUNNABLE | SLEEPING | DEAD | USED | ZOMBIE.
#[export] Instance tstate_eq_dec : EqDecision tstate.
Proof. solve_decision. Defined.

(** [context_t]: the entry of a new task, or the caller of [swtch]. *)
Inductive context : Type :=
| Nowhere
| RetEntry
| RealEntry
| InYield
| InSleep (lk : Z)
| InP
| InPOther (lk : Z)                              (* [lm_P] on a semaphore of the callers, with its lock *)
| InExit
| InForceExit.

(** What a task does between operations: anything, or the loop of
    [sys_wait], before it looks at [tasks[p]]. *)
Inductive place_t : Type := Out | Scan (p : nat).

Record semophore_t : Type := mkSem { value : Z; waiting : list nat }.

(** [task_t]; pointers to tasks, files and inodes are indices, [regs] are
    the words of the trapframe. *)
Record task : Type := mkTask {
  id : Z;
  state : tstate;
  killed : Z;
  kstack : Z;
  ctx : context;
  saved_intena : bool;
  entry : Z;
  arg : Z;
  pagetable : Z;
  trapframe : Z;
  regs : list Z;
  chan : Z;
  parent : option nat;
  sons_sem : semophore_t;
  xstatus : Z;
  mmap_obj : Z;
  ofile : list (option nat);
  cwd : option nat;
  place : place_t
}.

Definition set_id (v : Z) (t : task) : task :=
  mkTask v (state t) (killed t) (kstack t) (ctx t) (saved_intena t) (entry t) (arg t) (pagetable t) (trapframe t) (regs t) (chan t) (parent t) (sons_sem t) (xstatus t) (mmap_obj t) (ofile t) (cwd t) (place t).
Definition set_state (v : tstate) (t : task) : task :=
  mkTask (id t) v (killed t) (kstack t) (ctx t) (saved_intena t) (entry t) (arg t) (pagetable t) (trapframe t) (regs t) (chan t) (parent t) (sons_sem t) (xstatus t) (mmap_obj t) (ofile t) (cwd t) (place t).
Definition set_killed (v : Z) (t : task) : task :=
  mkTask (id t) (state t) v (kstack t) (ctx t) (saved_intena t) (entry t) (arg t) (pagetable t) (trapframe t) (regs t) (chan t) (parent t) (sons_sem t) (xstatus t) (mmap_obj t) (ofile t) (cwd t) (place t).
Definition set_kstack (v : Z) (t : task) : task :=
  mkTask (id t) (state t) (killed t) v (ctx t) (saved_intena t) (entry t) (arg t) (pagetable t) (trapframe t) (regs t) (chan t) (parent t) (sons_sem t) (xstatus t) (mmap_obj t) (ofile t) (cwd t) (place t).
Definition set_ctx (v : context) (t : task) : task :=
  mkTask (id t) (state t) (killed t) (kstack t) v (saved_intena t) (entry t) (arg t) (pagetable t) (trapframe t) (regs t) (chan t) (parent t) (sons_sem t) (xstatus t) (mmap_obj t) (ofile t) (cwd t) (place t).
Definition set_saved_intena (v : bool) (t : task) : task :=
  mkTask (id t) (state t) (killed t) (kstack t) (ctx t) v (entry t) (arg t) (pagetable t) (trapframe t) (regs t) (chan t) (parent t) (sons_sem t) (xstatus t) (mmap_obj t) (ofile t) (cwd t) (place t).
Definition set_entry (v : Z) (t : task) : task :=
  mkTask (id t) (state t) (killed t) (kstack t) (ctx t) (saved_intena t) v (arg t) (pagetable t) (trapframe t) (regs t) (chan t) (parent t) (sons_sem t) (xstatus t) (mmap_obj t) (ofile t) (cwd t) (place t).
Definition set_arg (v : Z) (t : task) : task :=
  mkTask (id t) (state t) (killed t) (kstack t) (ctx t) (saved_intena t) (entry t) v (pagetable t) (trapframe t) (regs t) (chan t) (parent t) (sons_sem t) (xstatus t) (mmap_obj t) (ofile t) (cwd t) (place t).
Definition set_pagetable (v : Z) (t : task) : task :=
  mkTask (id t) (state t) (killed t) (kstack t) (ctx t) (saved_intena t) (entry t) (arg t) v (trapframe t) (regs t) (chan t) (parent t) (sons_sem t) (xstatus t) (mmap_obj t) (ofile t) (cwd t) (place t).
Definition set_trapframe (v : Z) (t : task) : task :=
  mkTask (id t) (state t) (killed t) (kstack t) (ctx t) (saved_intena t) (entry t) (arg t) (pagetable t) v (regs t) (chan t) (parent t) (sons_sem t) (xstatus t) (mmap_obj t) (ofile t) (cwd t) (place t).
Definition set_regs (v : list Z) (t : task) : task :=
  mkTask (id t) (state t) (killed t) (kstack t) (ctx t) (saved_intena t) (entry t) (arg t) (pagetable t) (trapframe t) v (chan t) (parent t) (sons_sem t) (xstatus t) (mmap_obj t) (ofile t) (cwd t) (place t).
Definition set_chan (v : Z) (t : task) : task :=
  mkTask (id t) (state t) (killed t) (kstack t) (ctx t) (saved_intena t) (entry t) (arg t) (pagetable t) (trapframe t) (regs t) v (parent t) (sons_sem t) (xstatus t) (mmap_obj t) (ofile t) (cwd t) (place t).
Definition set_parent (v : option nat) (t : task) : task :=
  mkTask (id t) (state t) (killed t) (kstack t) (ctx t) (saved_intena t) (entry t) (arg t) (pagetable t) (trapframe t) (regs t) (chan t) v (sons_sem t) (xstatus t) (mmap_obj t) (ofile t) (cwd t) (place t).
Definition set_sons_sem (v : semophore_t) (t : task) : task :=
  mkTask (id t) (state t) (killed t) (kstack t) (ctx t) (saved_intena t) (entry t) (arg t) (pagetable t) (trapframe t) (regs t) (chan t) (parent t) v (xstatus t) (mmap_obj t) (ofile t) (cwd t) (place t).
Definition set_xstatus (v : Z) (t : task) : task :=
  mkTask (id t) (state t) (killed t) (kstack t) (ctx t) (saved_intena t) (entry t) (arg t) (pagetable t) (trapframe t) (regs t) (chan t) (parent t) (sons_sem t) v (mmap_obj t) (ofile t) (cwd t) (place t).
Definition set_mmap_obj (v : Z) (t : task) : task :=
  mkTask (id t) (state t) (killed t) (kstack t) (ctx t) (saved_intena t) (entry t) (arg t) (pagetable t) (trapframe t) (regs t) (chan t) (parent t) (sons_sem t) (xstatus t) v (ofile t) (cwd t) (place t).
Definition set_ofile (v : list (option nat)) (t : task) : task :=
  mkTask (id t) (state t) (killed t) (kstack t) (ctx t) (saved_intena t) (entry t) (arg t) (pagetable t) (trapframe t) (regs t) (chan t) (parent t) (sons_sem t) (xstatus t) (mmap_obj t) v (cwd t) (place t).
Definition set_cwd (v : option nat) (t : task) : task :=
  mkTask (id t) (state t) (killed t) (kstack t) (ctx t) (saved_intena t) (entry t) (arg t) (pagetable t) (trapframe t) (regs t) (chan t) (parent t) (sons_sem t) (xstatus t) (mmap_obj t) (ofile t) v (place t).
Definition set_place (v : place_t) (t : task) : task :=
  mkTask (id t) (state t) (killed t) (kstack t) (ctx t) (saved_intena t) (entry t) (arg t) (pagetable t) (trapframe t) (regs t) (chan t) (parent t) (sons_sem t) (xstatus t) (mmap_obj t) (ofile t) (cwd t) v.

Definition upd_value (v : Z) (t : task) : task := set_sons_sem (mkSem v (waiting (sons_sem t))) t.
Definition upd_waiting (l : list nat) (t : task) : task := set_sons_sem (mkSem (value (sons_sem t)) l) t.

(** The registers of the trapframe that proc.c uses, by their index. *)
Definition EPC : nat := 3.
Definition SP : nat := 6.
Definition A0 : nat := 14.
Definition NREGS : nat := 36.
Definition set_reg (r : nat) (v : Z) (t : task) : task := set_regs (<[r := u64 v]> (regs t)) t.
Definition reg (r : nat) (t : task) : Z := nth r (regs t) 0.

(** The locks of the kernel; [LOther] are those of the other components: the
    drivers' and the file system's locks, and the locks inside their
    semaphores. *)
Inductive lock : Type := LTask (i : nat) | LSem (i : nat) | LWait | LPid | LOther (n : Z).
#[export] Instance lock_eq_dec : EqDecision lock.
Proof. solve_decision. Defined.

(** [cpu_t], with the locks that the hart holds. *)
Record hart : Type := mkHart { hcpu : Lock.cpu; current : option nat; held : list lock }.

(** ** The rest of the kernel

    The routines of the other components that proc.c calls. *)
Inductive call : Type -> Type :=
| MemMallocPage : call (Z * list Z)              (* a page and the words in it *)
| MemFree (p : Z) : call unit
| UserPagetable (trapframe : Z) : call Z
| FreePagetable (pagetable : Z) : call unit
| MmapCreate (t : nat) : call Z
| MmapDestroy (obj : Z) : call unit
| Mmap (obj pagetable va sz perm flags zero : Z) : call unit
| CopyMmap (obj pagetable nobj npagetable : Z) : call unit
| Copyout (pagetable va : Z) (bytes : list Z) : call Z
| Fileclose (f : nat) : call unit
| Filedup (f : nat) : call unit
| Iput (ip : nat) : call unit
| Idup (ip : nat) : call unit
| Namei (path : list Z) : call (option nat)
| FirstRun : call unit.                          (* fs_init, monitor_init *)

Class Rest (W : Type) : Type := {
  do_call : forall {A}, call A -> W -> result (A * W);
  initcode : list Z;                             (* user_initcode, made by the build *)
  rest_panics : list string;
  do_call_panics : forall {A} (c : call A) w msg, do_call c w = Panic msg -> In msg rest_panics
}.

Record kernel (W : Type) : Type := mkKernel {
  tasks : list task;
  harts : list hart;
  nextpid : Z;
  first : bool;
  rest : W
}.
Arguments mkKernel {W} tasks harts nextpid first rest.
Arguments tasks {W} k.
Arguments harts {W} k.
Arguments nextpid {W} k.
Arguments first {W} k.
Arguments rest {W} k.

Section Proc.
Context {W : Type} `{!Rest W}.
Implicit Types (h i : nat).

Definition other {A} (c : call A) : M (kernel W) A := fun k =>
  match do_call c (rest k) with
  | Done (a, w) => Done (a, mkKernel (tasks k) (harts k) (nextpid k) (first k) w)
  | Panic msg => Panic msg
  | Fault => Fault
  | NoFuel => NoFuel
  | Blocked => Blocked
  end.

(** A field of [tasks[i]], and a change of it. *)
Definition rd {A} (f : task -> A) i : M (kernel W) A := fun k =>
  match tasks k !! i with Some t => Done (f t, k) | None => Fault end.
Definition wr (g : task -> task) i : M (kernel W) unit := fun k =>
  match tasks k !! i with
  | Some t => Done (tt, mkKernel (<[i := g t]> (tasks k)) (harts k) (nextpid k) (first k) (rest k))
  | None => Fault
  end.

Definition mycpu h : M (kernel W) hart := fun k =>
  match harts k !! h with Some c => Done (c, k) | None => Fault end.
Definition set_hart h (c : hart) : M (kernel W) unit :=
  modify (fun k => mkKernel (tasks k) (<[h := c]> (harts k)) (nextpid k) (first k) (rest k)).

Definition push_off h : M (kernel W) unit :=
  c <- mycpu h;; set_hart h (mkHart (Lock.push_off (hcpu c)) (current c) (held c)).
Definition pop_off h : M (kernel W) unit :=
  c <- mycpu h;;
  match Lock.pop_off (hcpu c) with
  | Done c' => set_hart h (mkHart c' (current c) (held c))
  | Panic msg => panic msg
  | _ => fault
  end.
Definition lm_lock h (l : lock) : M (kernel W) unit :=
  push_off h;;;
  c <- mycpu h;;
  if decide (l ∈ held c) then panic "holding lock"
  else set_hart h (mkHart (hcpu c) (current c) (l :: held c)).
Definition lm_unlock h (l : lock) : M (kernel W) unit :=
  c <- mycpu h;;
  if decide (l ∈ held c)
  then set_hart h (mkHart (hcpu c) (current c) (list_difference (held c) [l]));;; pop_off h
  else panic "unlock".

Definition mytask h : M (kernel W) (option nat) :=
  push_off h;;; c <- mycpu h;; pop_off h;;; ret (current c).
(** The callers that use the task without a test: a NULL pointer faults. *)
Definition mytask' h : M (kernel W) nat :=
  t <- mytask h;; match t with Some t => ret t | None => fault end.
Definition set_current h (t : option nat) : M (kernel W) unit :=
  c <- mycpu h;; set_hart h (mkHart (hcpu c) t (held c)).
Definition current_task h : M (kernel W) nat :=
  c <- mycpu h;; match current c with Some t => ret t | None => fault end.

(** ** Semaphores *)

Definition lm_sem_init i (v : Z) : M (kernel W) unit :=
  if v <? 0 then panic "sem_init: value < 0" else wr (set_sons_sem (mkSem v [])) i.

Definition lm_V h i : M (kernel W) unit :=
  lm_lock h (LSem i);;;
  v <- rd (fun t => value (sons_sem t)) i;; wr (upd_value (s32 (v + 1))) i;;;
  v <- rd (fun t => value (sons_sem t)) i;;
  if v <=? 0 then
    ws <- rd (fun t => waiting (sons_sem t)) i;;
    match last ws with
    | None => fault
    | Some u =>
        wr (upd_waiting (removelast ws)) i;;;
        lm_lock h (LTask u);;;
        wr (set_state RUNNABLE) u;;;
        lm_unlock h (LTask u);;;
        lm_unlock h (LSem i)
    end
  else lm_unlock h (LSem i).

(** ** Switching *)

(** [swtch] to the scheduler, and the scheduler's code after its [swtch]. *)
Definition swtch_out h i (c : context) : M (kernel W) unit :=
  wr (set_ctx c) i;;;
  set_current h None;;;
  lm_unlock h (LTask i).

Definition sched h (from : context) : M (kernel W) unit :=
  t <- mytask' h;;
  c <- mycpu h;;
  if negb (bool_decide (LTask t ∈ held c)) then panic "sched p->lock"
  else if negb (noff (hcpu c) =? 1) then panic "sched locks"
  else
    st <- rd state t;;
    if bool_decide (st = RUNNING) then panic "sched running"
    else if sie (hcpu c) then panic "sched interruptible"
    else
      wr (set_saved_intena (intena (hcpu c))) t;;;
      swtch_out h t from.

(** The end of [sched], on the hart the task now runs on. *)
Definition restore_intena h i : M (kernel W) unit :=
  b <- rd saved_intena i;;
  c <- mycpu h;;
  set_hart h (mkHart (Lock.mkCpu (noff (hcpu c)) b (sie (hcpu c))) (current c) (held c)).

Definition intr_set h (b : bool) : M (kernel W) unit :=
  c <- mycpu h;;
  set_hart h (mkHart (Lock.mkCpu (noff (hcpu c)) (intena (hcpu c)) b) (current c) (held c)).

(** [ret_entry], up to the return to user mode. *)
Definition ret_entry h : M (kernel W) unit :=
  t <- current_task h;;
  lm_unlock h (LTask t);;;
  f <- gets first;;
  (if (f : bool) then
     modify (fun k => mkKernel (tasks k) (harts k) (nextpid k) false (rest k));;;
     other FirstRun
   else ret tt);;;
  intr_set h false.

(** [real_entry], up to the call of the task's function. *)
Definition real_entry h : M (kernel W) unit :=
  t <- current_task h;;
  lm_unlock h (LTask t);;;
  intr_set h true.

(** What a task does when the scheduler switches to it. *)
Definition resume h i : M (kernel W) unit :=
  c <- rd ctx i;;
  match c with
  | RetEntry => ret_entry h
  | RealEntry => real_entry h
  | InYield => restore_intena h i;;; lm_unlock h (LTask i)
  | InSleep lk =>
      restore_intena h i;;;
      wr (set_chan 0) i;;;
      lm_unlock h (LTask i);;;
      lm_lock h (LOther lk)
  | InP | InPOther _ => restore_intena h i;;; lm_unlock h (LTask i)
  | Nowhere | InExit | InForceExit => fault
  end.

(** One round of the inner loop of [scheduler]. *)
Definition scheduler_slot h i : M (kernel W) unit :=
  lm_lock h (LTask i);;;
  tid <- rd id i;; st <- rd state i;;
  if negb (tid =? -1) && bool_decide (st = RUNNABLE) then
    wr (set_state RUNNING) i;;;
    set_current h (Some i);;;
    resume h i
  else lm_unlock h (LTask i).

Definition yield h : M (kernel W) unit :=
  t <- current_task h;;
  lm_lock h (LTask t);;;
  wr (set_state RUNNABLE) t;;;
  sched h InYield.

Definition handle_timer_interrupt h : M (kernel W) unit :=
  c <- mycpu h;;
  match current c with
  | None => ret tt
  | Some t => st <- rd state t;; if bool_decide (st = RUNNING) then yield h else ret tt
  end.

Definition sleep h (ch lk : Z) : M (kernel W) unit :=
  t <- mytask' h;;
  lm_lock h (LTask t);;;
  lm_unlock h (LOther lk);;;
  wr (set_chan ch) t;;;
  wr (set_state SLEEPING) t;;;
  sched h (InSleep lk).

Fixpoint wakeup_loop h (myt : option nat) (ch : Z) (l : list nat) : M (kernel W) unit :=
  match l with
  | [] => ret tt
  | i :: l =>
      (if bool_decide (Some i = myt) then ret tt
       else
         lm_lock h (LTask i);;;
         st <- rd state i;; c <- rd chan i;;
         (if bool_decide (st = SLEEPING) && (c =? ch) then wr (set_state RUNNABLE) i else ret tt);;;
         lm_unlock h (LTask i));;;
      wakeup_loop h myt ch l
  end.
Definition wakeup h (ch : Z) : M (kernel W) unit :=
  myt <- mytask h;; wakeup_loop h myt ch (seq 0 NTASK).

(** [lm_P] on the semaphore of the task itself; it goes on in the loop of
    [sys_wait]. *)
Definition lm_P h i : M (kernel W) unit :=
  wr (set_place (Scan 0)) i;;;
  lm_lock h (LSem i);;;
  v <- rd (fun t => value (sons_sem t)) i;; wr (upd_value (s32 (v - 1))) i;;;
  v <- rd (fun t => value (sons_sem t)) i;;
  if v <? 0 then
    t <- mytask' h;;
    ws <- rd (fun t => waiting (sons_sem t)) i;;
    wr (upd_waiting (t :: ws)) i;;;
    lm_lock h (LTask t);;;
    wr (set_state SLEEPING) t;;;
    lm_unlock h (LSem i);;;
    sched h InP
  else lm_unlock h (LSem i).

(** The other components' semaphores: the part of [lm_P] that goes to sleep
    and the part of [lm_V] that wakes [tasks[u]], for the semaphore with the
    lock [lk]. *)
Definition lm_P_other h (lk : Z) : M (kernel W) unit :=
  lm_lock h (LOther lk);;;
  t <- mytask' h;;
  lm_lock h (LTask t);;;
  wr (set_state SLEEPING) t;;;
  lm_unlock h (LOther lk);;;
  sched h (InPOther lk).

Definition lm_V_other h (lk : Z) (u : nat) : M (kernel W) unit :=
  lm_lock h (LOther lk);;;
  lm_lock h (LTask u);;;
  wr (set_state RUNNABLE) u;;;
  lm_unlock h (LTask u);;;
  lm_unlock h (LOther lk).

(** ** Making and freeing tasks *)

Definition alloc_pid h : M (kernel W) Z :=
  lm_lock h LPid;;;
  pid <- gets nextpid;;
  modify (fun k => mkKernel (tasks k) (harts k) (s32 (pid + 1)) (first k) (rest k));;;
  lm_unlock h LPid;;;
  ret pid.

(** [init_context]: the stack pointer is the top of the kernel stack. *)
Definition init_context i (entry : context) : M (kernel W) unit := wr (set_ctx entry) i.

(** The search of [utask_create]: the slot, locked. *)
Fixpoint utask_find h (l : list nat) : M (kernel W) (option nat) :=
  match l with
  | [] => ret None
  | i :: l =>
      lm_lock h (LTask i);;;
      st <- rd state i;;
      if bool_decide (st = DEAD) then
        pid <- alloc_pid h;;
        wr (set_id pid) i;;;
        wr (set_state USED) i;;;
        init_context i RetEntry;;;
        ret (Some i)
      else lm_unlock h (LTask i);;; utask_find h l
  end.

(** [memset(p, 0, sizeof(PGSIZE))] clears an [int]. *)
Definition clear_int (ws : list Z) : list Z :=
  match ws with [] => [] | w :: ws => (w - w mod 2 ^ 32) :: ws end.

Definition utask_create h : M (kernel W) (option nat) :=
  o <- utask_find h (seq 0 NTASK);;
  match o with
  | None => ret None
  | Some i =>
      '(p, ws) <- other MemMallocPage;;
      wr (set_trapframe p) i;;;
      wr (set_regs (clear_int ws)) i;;;
      pt <- other (UserPagetable p);;
      wr (set_pagetable pt) i;;;
      lm_sem_init i 0;;;
      o <- other (MmapCreate i);;
      wr (set_mmap_obj o) i;;;
      ret (Some i)
  end.

Fixpoint close_files i (l : list nat) : M (kernel W) unit :=
  match l with
  | [] => ret tt
  | fd :: l =>
      fs <- rd ofile i;;
      match fs !! fd with
      | Some (Some f) => other (Fileclose f);;; wr (set_ofile (<[fd := None]> fs)) i;;; close_files i l
      | _ => close_files i l
      end
  end.

Definition free_task i : M (kernel W) unit :=
  pt <- rd pagetable i;;
  when (negb (pt =? 0)) (other (FreePagetable pt));;;
  wr (set_pagetable 0) i;;;
  tf <- rd trapframe i;;
  when (negb (tf =? 0)) (other (MemFree tf));;;
  wr (set_trapframe 0) i;;;
  wr (set_id (-1)) i;;;
  wr (set_state DEAD) i;;;
  wr (set_parent None) i;;;
  o <- rd mmap_obj i;;
  when (negb (o =? 0)) (other (MmapDestroy o));;;
  wr (set_mmap_obj 0) i;;;
  close_files i (seq 0 NOFILE);;;
  ip <- rd cwd i;;
  (match ip with Some ip => other (Iput ip) | None => ret tt end);;;
  wr (set_cwd None) i.

Fixpoint reparent_loop h t (l : list nat) : M (kernel W) unit :=
  match l with
  | [] => ret tt
  | p :: l =>
      (if (p =? t)%nat then ret tt
       else
         pp <- rd parent p;;
         if bool_decide (pp = Some t) then wr (set_parent (Some 0%nat)) p;;; lm_V h 0 else ret tt);;;
      reparent_loop h t l
  end.
Definition reparent h t : M (kernel W) unit := reparent_loop h t (seq 0 NTASK).

Definition exit h (status : Z) : M (kernel W) unit :=
  t <- current_task h;;
  lm_lock h (LTask t);;;
  wr (set_state ZOMBIE) t;;;
  wr (set_xstatus (s32 status)) t;;;
  lm_lock h LWait;;;
  p <- rd parent t;;
  (match p with Some p => lm_V h p | None => ret tt end);;;
  reparent h t;;;
  lm_unlock h LWait;;;
  swtch_out h t InExit.

(** [sys_wait]: the first [lm_P], and one round of its loops. *)
Definition sys_wait h : M (kernel W) unit :=
  t <- mytask' h;; lm_P h t.

Definition le_bytes4 (z : Z) : list Z := map (fun j => Z.shiftr (u32 z) (8 * j) mod 256) [0; 1; 2; 3].

Definition wait_slot h t (p : nat) : M (kernel W) unit :=
  lm_lock h (LTask p);;;
  st <- rd state p;;
  if bool_decide (st = ZOMBIE) then
    lm_lock h LWait;;;
    pp <- rd parent p;;
    if bool_decide (pp = Some t) then
      status <- rd (reg A0) t;;
      (if negb (status =? 0) then
         pt <- rd pagetable t;; x <- rd xstatus t;; other (Copyout pt status (le_bytes4 x));;; ret tt
       else ret tt);;;
      pid <- rd id p;;
      wr (set_reg A0 pid) t;;;
      free_task p;;;
      lm_unlock h LWait;;;
      lm_unlock h (LTask p);;;
      wr (set_place Out) t
    else
      lm_unlock h LWait;;;
      lm_unlock h (LTask p);;;
      wr (set_place (Scan (S p))) t
  else
    lm_unlock h (LTask p);;;
    wr (set_place (Scan (S p))) t.

Definition wait_round h : M (kernel W) unit :=
  t <- current_task h;;
  pl <- rd place t;;
  match pl with
  | Out => blocked
  | Scan p => if (p <? NTASK)%nat then wait_slot h t p else lm_P h t
  end.

Definition sys_exit h : M (kernel W) unit :=
  t <- mytask' h;; status <- rd (reg A0) t;; exit h status.

Fixpoint dup_files t nt (l : list nat) : M (kernel W) unit :=
  match l with
  | [] => ret tt
  | fd :: l =>
      fs <- rd ofile t;;
      match fs !! fd with
      | Some (Some f) => other (Filedup f);;; nfs <- rd ofile nt;; wr (set_ofile (<[fd := Some f]> nfs)) nt;;; dup_files t nt l
      | _ => dup_files t nt l
      end
  end.

Definition sys_fork h : M (kernel W) unit :=
  o <- utask_create h;;
  t <- mytask' h;;
  match o with
  | None => fault
  | Some nt =>
      obj <- rd mmap_obj t;; pt <- rd pagetable t;; nobj <- rd mmap_obj nt;; npt <- rd pagetable nt;;
      other (CopyMmap obj pt nobj npt);;;
      r <- rd regs t;;
      wr (set_regs r) nt;;;
      wr (set_reg A0 0) nt;;;
      pid <- rd id nt;;
      wr (set_reg A0 pid) t;;;
      wr (set_state RUNNABLE) nt;;;
      wr (set_parent (Some t)) nt;;;
      d <- rd cwd t;;
      (match d with Some ip => other (Idup ip);;; wr (set_cwd (Some ip)) nt | None => ret tt end);;;
      dup_files t nt (seq 0 NOFILE);;;
      lm_unlock h (LTask nt)
  end.

(** [force_exit]; [true] when it switched away. *)
Definition force_exit h t : M (kernel W) bool :=
  wr (set_killed 1) t;;;
  c <- mycpu h;;
  if bool_decide (current c = Some t) then swtch_out h t InForceExit;;; ret true else ret false.

Fixpoint kill_loop h (pid : Z) (l : list nat) : M (kernel W) Z :=
  match l with
  | [] => ret (-1)
  | i :: l =>
      lm_lock h (LTask i);;;
      tid <- rd id i;;
      if tid =? pid then
        gone <- force_exit h i;;
        (if (gone : bool) then ret tt else lm_unlock h (LTask i));;; ret 0
      else lm_unlock h (LTask i);;; kill_loop h pid l
  end.
Definition sys_kill h : M (kernel W) Z :=
  t <- mytask' h;; pid <- rd (reg A0) t;; kill_loop h (s32 pid) (seq 0 NTASK).

Definition killed_ h : M (kernel W) Z :=
  t <- mytask' h;;
  lm_lock h (LTask t);;; k <- rd killed t;; lm_unlock h (LTask t);;; ret k.

Definition getpid h : M (kernel W) Z :=
  t <- mytask h;; match t with Some t => rd id t | None => ret (-1) end.

Definition sys_getpid h : M (kernel W) Z := getpid h.

(** The listing of [procdump], which takes no lock: a line per slot in use. *)
Definition state_name (s : tstate) : string :=
  match s with
  | DEAD => "dead" | USED => "used" | SLEEPING => "sleep " | RUNNABLE => "runble" | RUNNING => "run   " | ZOMBIE => "zombie"
  end.
Fixpoint procdump_loop (l : list nat) : M (kernel W) (list (Z * string)) :=
  match l with
  | [] => ret []
  | i :: l =>
      s <- rd state i;;
      if decide (s = DEAD) then procdump_loop l
      else n <- rd id i;; r <- procdump_loop l;; ret ((n, state_name s) :: r)
  end.
Definition procdump : M (kernel W) (list (Z * string)) := procdump_loop (seq 0 NTASK).

Fixpoint create_loop h (entry_ arg_ : Z) (l : list nat) : M (kernel W) (option nat) :=
  match l with
  | [] => ret None
  | i :: l =>
      lm_lock h (LTask i);;;
      tid <- rd id i;;
      if tid =? -1 then
        wr (set_id (Z.of_nat i)) i;;;
        wr (set_entry entry_) i;;;
        wr (set_arg arg_) i;;;
        wr (set_state RUNNABLE) i;;;
        init_context i RealEntry;;;
        lm_unlock h (LTask i);;;
        ret (Some i)
      else lm_unlock h (LTask i);;; create_loop h entry_ arg_ l
  end.
Definition task_create h (entry_ arg_ : Z) : M (kernel W) (option nat) := create_loop h entry_ arg_ (seq 0 NTASK).

(** ** Boot *)

Fixpoint task_init_loop (l : list nat) : M (kernel W) unit :=
  match l with
  | [] => ret tt
  | i :: l =>
      wr (set_id (-1)) i;;;
      wr (set_state DEAD) i;;;
      '(p, _) <- other MemMallocPage;;
      wr (set_kstack p) i;;;
      task_init_loop l
  end.
Definition cpu_init (c : hart) : hart := mkHart (Lock.mkCpu 0 false (sie (hcpu c))) (current c) (held c).
Definition task_init : M (kernel W) unit :=
  task_init_loop (seq 0 NTASK);;;
  modify (fun k => mkKernel (tasks k) (map cpu_init (harts k)) (nextpid k) (first k) (rest k)).

Definition PERM_R : Z := 2.
Definition PERM_W : Z := 4.
Definition PERM_X : Z := 8.
Definition MAP_ANONYMOUS : Z := 1.
Definition MAP_PRIVATE : Z := 2.
Definition MAP_ZERO : Z := 8.
Definition PGSIZE : Z := 4096.
Definition PGROUNDUP (z : Z) : Z := Z.land (u64 (z + PGSIZE - 1)) (Z.lnot (PGSIZE - 1)).

Definition user_init h : M (kernel W) unit :=
  o <- utask_create h;;
  match o with
  | None => fault
  | Some t =>
      let len := Z.of_nat (length initcode) in
      obj <- rd mmap_obj t;; pt <- rd pagetable t;;
      other (Mmap obj pt 0 len (Z.lor (Z.lor PERM_R PERM_W) PERM_X) (Z.lor (Z.lor MAP_PRIVATE MAP_ANONYMOUS) MAP_ZERO) 1);;;
      other (Copyout pt 0 initcode);;;
      wr (set_reg EPC 0) t;;;
      let high := PGROUNDUP len in
      other (Mmap obj pt high PGSIZE (Z.lor PERM_R PERM_W) (Z.lor MAP_PRIVATE MAP_ANONYMOUS) 0);;;
      wr (set_reg SP (high + PGSIZE)) t;;;
      wr (set_state RUNNABLE) t;;;
      d <- other (Namei [47]);;
      wr (set_cwd d) t;;;
      lm_unlock h (LTask t)
  end.

(** ** The kernel as a machine *)

Inductive event : Type :=
| ESched (i : nat)        (* the scheduler looks at [tasks[i]] *)
| EInterrupts (b : bool)  (* the trap code and the devices' drivers switch interrupts *)
| EYield
| ELock (lk : Z) | EUnlock (lk : Z)  (* a lock of another component *)
| ESleep (ch lk : Z)
| EWakeup (ch : Z)
| EP (lk : Z)             (* [lm_P] on another component's semaphore that is not positive *)
| EV (lk : Z) (u : nat)   (* [lm_V] on it, with [tasks[u]] in its queue *)
| EExit (status : Z)
| EWait
| EScan
| EFork
| EKill.

(** The hart runs a task outside [sys_wait] that holds no lock. *)
Definition at_out h (m : M (kernel W) unit) : M (kernel W) unit :=
  c <- mycpu h;;
  match current c, held c with
  | Some t, [] => pl <- rd place t;; match pl with Out => m | Scan _ => blocked end
  | _, _ => blocked
  end.

(** The hart runs a task outside [sys_wait], whatever locks it holds. *)
Definition in_task h (m : M (kernel W) unit) : M (kernel W) unit :=
  c <- mycpu h;;
  match current c with
  | Some t => pl <- rd place t;; match pl with Out => m | Scan _ => blocked end
  | None => blocked
  end.

(** [run h e]: hart [h] does [e], where the code can be at that point.  The
    other components take and free locks in any order, and sleep with any
    locks. *)
Definition run h (e : event) : M (kernel W) unit :=
  c <- mycpu h;;
  match e with
  | ESched i => match current c, held c with None, [] => scheduler_slot h i | _, _ => blocked end
  | EInterrupts b => match held c with [] => intr_set h b | _ => blocked end
  | EYield => match current c, held c with Some _, [] => handle_timer_interrupt h | _, _ => blocked end
  | ELock lk => lm_lock h (LOther lk)
  | EUnlock lk => lm_unlock h (LOther lk)
  | ESleep ch lk => in_task h (sleep h ch lk)
  | EWakeup ch => if ch =? 0 then blocked else wakeup h ch   (* channels are addresses *)
  | EP lk => in_task h (lm_P_other h lk)
  | EV lk u =>
      st <- rd state u;; x <- rd ctx u;;
      if bool_decide (st = SLEEPING) && (match x with InPOther n => n =? lk | _ => false end) then lm_V_other h lk u else blocked
  | EExit status => at_out h (exit h status)
  | EWait => at_out h (sys_wait h)
  | EScan => match current c, held c with Some _, [] => wait_round h | _, _ => blocked end
  | EFork => at_out h (sys_fork h)
  | EKill => at_out h (sys_kill h;;; ret tt)
  end.

(** The kernel after [user_init] on hart 0. *)
Definition booted (k : kernel W) : Prop :=
  exists k0 : kernel W, first k0 = true /\ nextpid k0 = 1 /\ length (tasks k0) = NTASK /\ length (harts k0) = NCPU /\
    Forall (fun c => current c = None /\ held c = [] /\ hcpu c = Lock.mkCpu 0 false false) (harts k0) /\
    Forall (fun t => place t = Out /\ parent t = None /\ sons_sem t = mkSem 0 [] /\ ctx t = Nowhere /\ killed t = 0 /\ chan t = 0 /\
                     ofile t = repeat None NOFILE /\ cwd t = None) (tasks k0) /\
    (task_init;;; user_init 0) k0 = Done (tt, k).

Inductive step : kernel W -> kernel W -> Prop :=
| step_run h e k k' : run h e k = Done (tt, k') -> step k k'.

End Proc.
