(* ===== verification/ProcLogic.v ===== *)
(** * A program logic for proc.c

    Triples over the part of the kernel's state that the task table's
    invariants speak of: the table, the task of each hart, the locks of each
    hart, and the next pid.  A triple allows the messages of the other
    components' panics and no other panic. *)
From S2P Require Import Prelude Lock Proc.

(** The calls of the other components return or panic, unless [stop]. *)
Class Returns (W : Type) `{!Rest W} (stop : Prop) : Prop :=
  returns : forall A (c : call A) (w : W), match do_call c w with Done _ | Panic _ => True | _ => stop end.

#[export] Instance returns_true (W : Type) `{!Rest W} : Returns W True.
Proof. intros A c w. by destruct (do_call c w). Qed.

Ltac look := rewrite ?list_insert_insert_eq; rewrite ?list_lookup_insert_eq by (rewrite ?length_insert; first [assumption | eapply lookup_lt_Some; eassumption]); first [reflexivity | eassumption].
Ltac stops := first
  [ by left
  | right; eexists; eassumption
  | right; eexists; look
  | right; apply lookup_lt_is_Some; rewrite ?length_insert; first [assumption | eapply lookup_lt_Some; eassumption] ].

(** ** The operations on one hart *)

Section Logic.
Context {W : Type} `{!Rest W}.

(** [noff] counts the locks, and a hart with a lock has interrupts off. *)
Definition hart_ok (c : hart) : Prop :=
  noff (hcpu c) = Z.of_nat (length (held c)) /\ (held c <> [] -> sie (hcpu c) = false).

Definition rep (k : kernel W) (ts : list task) (cs : list (option nat)) (ls : list (list lock)) (np : Z) : Prop :=
  tasks k = ts /\ current <$> harts k = cs /\ held <$> harts k = ls /\ nextpid k = np /\ Forall hart_ok (harts k).

(** [stop]: whether the operation may stop without a panic, in a bad access
    or in a call. *)
Definition thoare (stop : Prop) {A} ts cs ls np (m : M (kernel W) A)
    (Q : A -> list task -> list (option nat) -> list (list lock) -> Z -> Prop) : Prop :=
  forall k, rep k ts cs ls np ->
  match m k with
  | Done (a, k') => exists ts' cs' ls' np', rep k' ts' cs' ls' np' /\ Q a ts' cs' ls' np'
  | Panic msg => In msg rest_panics
  | _ => stop
  end.

Context {stop : Prop} {Hcalls : Returns W stop}.
Abbreviation hoare := (thoare stop).

Lemma hoare_bind {A B} ts cs ls np (m : M (kernel W) A) (f : A -> M (kernel W) B) R Q :
  hoare ts cs ls np m R ->
  (forall a ts' cs' ls' np', R a ts' cs' ls' np' -> hoare ts' cs' ls' np' (f a) Q) ->
  hoare ts cs ls np (bind m f) Q.
Proof.
  intros Hm Hf k Hk. specialize (Hm k Hk). unfold bind. destruct (m k) as [[a k']| | | |]; [|done..].
  destruct Hm as (ts' & cs' & ls' & np' & Hk' & HR). apply (Hf _ _ _ _ _ HR k' Hk').
Qed.

Lemma hoare_weaken {A} ts cs ls np (m : M (kernel W) A) R Q :
  hoare ts cs ls np m R -> (forall a ts' cs' ls' np', R a ts' cs' ls' np' -> Q a ts' cs' ls' np') ->
  hoare ts cs ls np m Q.
Proof.
  intros Hm HQ k Hk. specialize (Hm k Hk). destruct (m k) as [[a k']| | | |]; [|done..].
  destruct Hm as (ts' & cs' & ls' & np' & Hk' & HR). exists ts', cs', ls', np'. auto.
Qed.

(** The rule that runs the head of a sequence: the rest is proved from the
    state after it. *)
Definition run_head {A B} ts cs ls np (m : M (kernel W) A) (f : A -> M (kernel W) B) Q a ts' cs' ls' np' :
  hoare ts cs ls np m (fun a0 ts0 cs0 ls0 np0 => a0 = a /\ ts0 = ts' /\ cs0 = cs' /\ ls0 = ls' /\ np0 = np') ->
  hoare ts' cs' ls' np' (f a) Q -> hoare ts cs ls np (bind m f) Q.
Proof.
  intros Hm Hf. apply (hoare_bind _ _ _ _ _ _ _ _ Hm). by intros ????? (-> & -> & -> & -> & ->).
Qed.

Lemma hoare_ret {A} ts cs ls np (a : A) (Q : A -> _ -> _ -> _ -> _ -> Prop) :
  Q a ts cs ls np -> hoare ts cs ls np (ret a) Q.
Proof. intros HQ k Hk. exists ts, cs, ls, np. by split. Qed.

Lemma hoare_stop {A} ts cs ls np Q : stop -> hoare ts cs ls np (blocked : M (kernel W) A) Q.
Proof. by intros Hs k Hk. Qed.
Lemma hoare_fault {A} ts cs ls np Q : stop -> hoare ts cs ls np (fault : M (kernel W) A) Q.
Proof. by intros Hs k Hk. Qed.

Lemma hoare_rd {A B} ts cs ls np (g : task -> A) i (f : A -> M (kernel W) B) Q :
  stop \/ is_Some (ts !! i) -> (forall t, ts !! i = Some t -> hoare ts cs ls np (f (g t)) Q) -> hoare ts cs ls np (bind (rd g i) f) Q.
Proof.
  intros Hs Hf k Hk. unfold bind, rd. destruct Hk as (Ht & Hk). rewrite Ht. destruct (ts !! i) as [t|] eqn:E; [|by destruct Hs as [?|[? ?]]].
  by apply (Hf t).
Qed.

Lemma hoare_wr {B} ts cs ls np (g : task -> task) i (f : unit -> M (kernel W) B) Q :
  stop \/ is_Some (ts !! i) -> (forall t, ts !! i = Some t -> hoare (<[i := g t]> ts) cs ls np (f tt) Q) ->
  hoare ts cs ls np (bind (wr g i) f) Q.
Proof.
  intros Hs Hf k Hk. unfold bind, wr. destruct Hk as (Ht & Hk). rewrite Ht. destruct (ts !! i) as [t|] eqn:E; [|by destruct Hs as [?|[? ?]]].
  by apply (Hf t).
Qed.

Lemma hoare_wr' ts cs ls np (g : task -> task) i (Q : unit -> _ -> _ -> _ -> _ -> Prop) :
  stop \/ is_Some (ts !! i) -> (forall t, ts !! i = Some t -> Q tt (<[i := g t]> ts) cs ls np) -> hoare ts cs ls np (wr g i) Q.
Proof.
  intros Hs Hf k Hk. unfold wr. destruct Hk as (Ht & Hk). rewrite Ht. destruct (ts !! i) as [t|] eqn:E; [|by destruct Hs as [?|[? ?]]].
  exists (<[i := g t]> ts), cs, ls, np. split; [by split|]. by apply Hf.
Qed.

Lemma hoare_other {A B} ts cs ls np (c : call A) (f : A -> M (kernel W) B) Q :
  (forall a, hoare ts cs ls np (f a) Q) -> hoare ts cs ls np (bind (other c) f) Q.
Proof.
  intros Hf k Hk. unfold bind, other. pose proof (returns A c (rest k)) as Hr.
  destruct (do_call c (rest k)) as [[a w]|msg| | |] eqn:E; [|by apply do_call_panics in E|done..].
  by apply Hf.
Qed.

Lemma hoare_other' {A} ts cs ls np (c : call A) (Q : A -> _ -> _ -> _ -> _ -> Prop) :
  (forall a, Q a ts cs ls np) -> hoare ts cs ls np (other c) Q.
Proof.
  intros Hf k Hk. unfold other. pose proof (returns A c (rest k)) as Hr.
  destruct (do_call c (rest k)) as [[a w]|msg| | |] eqn:E; [|by apply do_call_panics in E|done..].
  exists ts, cs, ls, np. by split.
Qed.

(** ** The harts *)

Lemma rep_hart k ts cs ls np h c : rep k ts cs ls np -> harts k !! h = Some c ->
  cs !! h = Some (current c) /\ ls !! h = Some (held c) /\ hart_ok c.
Proof.
  intros (_ & <- & <- & _ & Hok) Hc. rewrite !list_lookup_fmap, Hc. split; [done|]. split; [done|].
  by apply (Forall_lookup_1 _ _ _ _ Hok Hc).
Qed.

Lemma no_hart k ts cs ls np h : rep k ts cs ls np -> harts k !! h = None -> stop \/ is_Some (cs !! h) -> stop.
Proof. intros (_ & <- & _) Ec [?|[? H]]; [done|]. by rewrite list_lookup_fmap, Ec in H. Qed.

Lemma rep_set k ts cs ls np h c : rep k ts cs ls np -> hart_ok c ->
  rep (mkKernel (tasks k) (<[h := c]> (harts k)) (nextpid k) (first k) (rest k)) ts
      (<[h := current c]> cs) (<[h := held c]> ls) np.
Proof.
  intros (Ht & Hc & Hl & Hn & Hok) H. split; [done|]. cbn [harts]. split; [by rewrite list_fmap_insert, Hc|].
  split; [by rewrite list_fmap_insert, Hl|]. split; [done|]. by apply Forall_insert.
Qed.

Lemma lock_run k ts cs ls np h l hs : rep k ts cs ls np -> ls !! h = Some hs -> l ∉ hs ->
  exists k', lm_lock h l k = Done (tt, k') /\ rep k' ts cs (<[h := l :: hs]> ls) np.
Proof.
  intros Hk Hh Hl. destruct (harts k !! h) as [c|] eqn:Ec.
  2: { destruct Hk as (_ & _ & <- & _). by rewrite list_lookup_fmap, Ec in Hh. }
  destruct (rep_hart _ _ _ _ _ _ _ Hk Ec) as (E1 & E2 & Hn & _). rewrite Hh in E2. injection E2 as ->.
  assert (h < length (harts k))%nat as Hlt by (by apply lookup_lt_is_Some; exists c).
  unfold lm_lock, push_off, mycpu, set_hart, modify, bind. rewrite Ec. cbn [harts tasks].
  rewrite list_lookup_insert_eq by done. cbn [held]. rewrite decide_False by done. cbn [hcpu current harts tasks nextpid first rest].
  rewrite list_insert_insert_eq. eexists. split; [reflexivity|].
  pose proof (rep_set k ts cs ls np h (mkHart (Lock.push_off (hcpu c)) (current c) (l :: held c)) Hk) as H.
  cbn [current held] in H. rewrite (list_insert_id cs) in H by done. apply H. split; [|done].
  cbn [Lock.push_off noff length hcpu held]. rewrite Hn. lia.
Qed.

Lemma hoare_lock {B} ts cs ls np h l hs (f : unit -> M (kernel W) B) Q :
  ls !! h = Some hs -> l ∉ hs -> hoare ts cs (<[h := l :: hs]> ls) np (f tt) Q ->
  hoare ts cs ls np (bind (lm_lock h l) f) Q.
Proof.
  intros Hh Hl Hf k Hk. destruct (lock_run k ts cs ls np h l hs Hk Hh Hl) as (k' & E & Hk'). rewrite (bind_done _ _ _ _ _ E). by apply Hf.
Qed.

(** A step that ends an operation. *)
Lemma hoare_last {A} ts cs ls np (m : M (kernel W) A) Q :
  hoare ts cs ls np (bind m ret) Q -> hoare ts cs ls np m Q.
Proof.
  intros Hm k Hk. specialize (Hm k Hk). unfold bind, ret in Hm. by destruct (m k) as [[a k']| | | |].
Qed.

Lemma difference_middle (l1 l2 : list lock) l : l ∉ l1 -> l ∉ l2 -> list_difference (l1 ++ l :: l2) [l] = l1 ++ l2.
Proof.
  intros H1 H2. assert (forall l', l ∉ l' -> list_difference l' [l] = l') as E.
  { induction l' as [|x l' IH]; intros H'; [done|]. apply not_elem_of_cons in H' as [Hx H']. cbn.
    case_decide as Hc; [apply list_elem_of_singleton in Hc; congruence|]. by rewrite (IH H'). }
  induction l1 as [|x l1 IH]; cbn.
  - case_decide as Hc; [by apply E|]. by destruct Hc; apply list_elem_of_singleton.
  - apply not_elem_of_cons in H1 as [Hx H1]. case_decide as Hc; [apply list_elem_of_singleton in Hc; congruence|]. by rewrite (IH H1).
Qed.

Lemma unlock_run k ts cs ls np h l l1 l2 : rep k ts cs ls np -> ls !! h = Some (l1 ++ l :: l2) -> l ∉ l1 -> l ∉ l2 ->
  exists k', lm_unlock h l k = Done (tt, k') /\ rep k' ts cs (<[h := l1 ++ l2]> ls) np.
Proof.
  intros Hk Hh Hl1 Hl2. destruct (harts k !! h) as [c|] eqn:Ec.
  2: { destruct Hk as (_ & _ & <- & _). by rewrite list_lookup_fmap, Ec in Hh. }
  destruct (rep_hart _ _ _ _ _ _ _ Hk Ec) as (E1 & E2 & Hn & Hs). rewrite Hh in E2. injection E2 as E2.
  assert (h < length (harts k))%nat as Hlt by (by apply lookup_lt_is_Some; exists c).
  unfold lm_unlock, pop_off, mycpu, set_hart, modify, bind. rewrite Ec.
  rewrite decide_True by (rewrite <- E2; apply elem_of_app; right; left). cbn [harts].
  rewrite list_lookup_insert_eq by done. cbn [hcpu held current].
  assert (Z.of_nat (length (held c)) = Z.of_nat (length (l1 ++ l2)) + 1) as El
    by (rewrite <- E2, !length_app; cbn [length]; lia).
  unfold Lock.pop_off. rewrite Hs by (rewrite <- E2; by destruct l1). rewrite (proj2 (Z.ltb_ge (noff (hcpu c)) 1)) by lia.
  cbn [harts tasks nextpid first rest]. rewrite list_insert_insert_eq, <- E2, difference_middle by done.
  set (b := if (noff (hcpu c) - 1 =? 0) && intena (hcpu c) then true else false).
  assert (hart_ok (mkHart (Lock.mkCpu (noff (hcpu c) - 1) (intena (hcpu c)) b) (current c) (l1 ++ l2))) as Hok.
  { split; cbn [hcpu held noff sie]; [lia|]. intros Hne. unfold b.
    rewrite (proj2 (Z.eqb_neq (noff (hcpu c) - 1) 0)).
    - done.
    - destruct (l1 ++ l2); [done|]. cbn [length] in El. lia. }
  eexists. split; [reflexivity|].
  pose proof (rep_set k ts cs ls np h _ Hk Hok) as H. cbn [current held] in H.
  rewrite (list_insert_id cs) in H by done. exact H.
Qed.

Lemma hoare_unlock {B} ts cs ls np h l l1 l2 (f : unit -> M (kernel W) B) Q :
  ls !! h = Some (l1 ++ l :: l2) -> l ∉ l1 -> l ∉ l2 -> hoare ts cs (<[h := l1 ++ l2]> ls) np (f tt) Q ->
  hoare ts cs ls np (bind (lm_unlock h l) f) Q.
Proof.
  intros Hh Hl1 Hl2 Hf k Hk. destruct (unlock_run k ts cs ls np h l l1 l2 Hk Hh Hl1 Hl2) as (k' & E & Hk').
  rewrite (bind_done _ _ _ _ _ E). by apply Hf.
Qed.

(** A hart's record that only the interrupt bits of which change. *)
Lemma rep_bits k ts cs ls np h c b1 b2 : rep k ts cs ls np -> harts k !! h = Some c ->
  (held c <> [] -> b2 = false) ->
  rep (mkKernel (tasks k) (<[h := mkHart (Lock.mkCpu (noff (hcpu c)) b1 b2) (current c) (held c)]> (harts k))
         (nextpid k) (first k) (rest k)) ts cs ls np.
Proof.
  intros Hk Ec Hb. destruct (rep_hart _ _ _ _ _ _ _ Hk Ec) as (E1 & E2 & Hn & Hs).
  pose proof (rep_set k ts cs ls np h (mkHart (Lock.mkCpu (noff (hcpu c)) b1 b2) (current c) (held c)) Hk) as H.
  cbn [current held] in H. rewrite (list_insert_id cs), (list_insert_id ls) in H by done. apply H. by split.
Qed.

Lemma hoare_mycpu {B} ts cs ls np h (f : hart -> M (kernel W) B) Q :
  stop \/ is_Some (cs !! h) -> (forall c, cs !! h = Some (current c) -> ls !! h = Some (held c) -> hart_ok c -> hoare ts cs ls np (f c) Q) ->
  hoare ts cs ls np (bind (mycpu h) f) Q.
Proof.
  intros Hst Hf k Hk. unfold bind, mycpu. destruct (harts k !! h) as [c|] eqn:Ec; [|by apply (no_hart k ts cs ls np h)].
  destruct (rep_hart _ _ _ _ _ _ _ Hk Ec) as (E1 & E2 & H). by apply (Hf c).
Qed.

Lemma hoare_current {B} ts cs ls np h i (f : nat -> M (kernel W) B) Q :
  cs !! h = Some (Some i) -> hoare ts cs ls np (f i) Q -> hoare ts cs ls np (bind (current_task h) f) Q.
Proof.
  intros Hi Hf k Hk. unfold bind, current_task, bind, mycpu. destruct (harts k !! h) as [c|] eqn:Ec; [|by apply (no_hart k ts cs ls np h); [..|right; exists (Some i)]].
  destruct (rep_hart _ _ _ _ _ _ _ Hk Ec) as (E1 & _). rewrite Hi in E1. injection E1 as <-. by apply (Hf k).
Qed.

Lemma mytask_run k ts cs ls np h : rep k ts cs ls np -> (h < length cs)%nat ->
  exists k' o, mytask h k = Done (o, k') /\ cs !! h = Some o /\ rep k' ts cs ls np.
Proof.
  intros Hk Hlt. destruct (harts k !! h) as [c|] eqn:Ec.
  2: { destruct Hk as (_ & <- & _). apply lookup_ge_None in Ec. rewrite length_fmap in Hlt. lia. }
  destruct (rep_hart _ _ _ _ _ _ _ Hk Ec) as (E1 & E2 & Hn & Hs).
  assert (h < length (harts k))%nat as Hh by (by apply lookup_lt_is_Some; exists c).
  unfold mytask, push_off, pop_off, mycpu, set_hart, modify, bind. rewrite Ec. cbn [harts tasks nextpid first rest].
  rewrite list_lookup_insert_eq by done. cbn [hcpu held current Lock.push_off harts].
  rewrite ?list_lookup_insert_eq by done. cbn [hcpu held current]. unfold Lock.pop_off, Lock.push_off. cbn [sie noff intena].
  rewrite (proj2 (Z.ltb_ge (noff (hcpu c) + 1) 1)) by lia. unfold ret. cbn [harts tasks nextpid first rest].
  do 2 eexists. split; [reflexivity|]. split; [done|]. rewrite list_insert_insert_eq, Z.add_simpl_r.
  apply (rep_bits k ts cs ls np h c _ _ Hk Ec). intros Hne. rewrite (Hs Hne).
  rewrite (proj2 (Z.eqb_neq (noff (hcpu c)) 0)); [done|]. destruct (held c); [done|]. cbn [length] in Hn. lia.
Qed.

Lemma hoare_mytask {B} ts cs ls np h o (f : option nat -> M (kernel W) B) Q :
  cs !! h = Some o -> hoare ts cs ls np (f o) Q -> hoare ts cs ls np (bind (mytask h) f) Q.
Proof.
  intros Ho Hf k Hk. destruct (mytask_run k ts cs ls np h Hk) as (k' & o' & E & Ho' & Hk').
  { apply lookup_lt_is_Some. by exists o. }
  unfold bind. rewrite E. rewrite Ho in Ho'. injection Ho' as <-. by apply Hf.
Qed.

Lemma hoare_mytask' {B} ts cs ls np h i (f : nat -> M (kernel W) B) Q :
  cs !! h = Some (Some i) -> hoare ts cs ls np (f i) Q -> hoare ts cs ls np (bind (mytask' h) f) Q.
Proof.
  intros Hi Hf k Hk. unfold mytask'. rewrite bind_assoc. apply (hoare_mytask ts cs ls np h (Some i)); [done|by apply Hf|done].
Qed.

Lemma hoare_set_current {B} ts cs ls np h o (f : unit -> M (kernel W) B) Q :
  stop \/ is_Some (cs !! h) -> hoare ts (<[h := o]> cs) ls np (f tt) Q -> hoare ts cs ls np (bind (set_current h o) f) Q.
Proof.
  intros Hst Hf k Hk. unfold bind, set_current, bind, mycpu, set_hart, modify. destruct (harts k !! h) as [c|] eqn:Ec; [|by apply (no_hart k ts cs ls np h)].
  destruct (rep_hart _ _ _ _ _ _ _ Hk Ec) as (E1 & E2 & Hok). apply Hf.
  pose proof (rep_set k ts cs ls np h (mkHart (hcpu c) o (held c)) Hk Hok) as H.
  cbn [current held] in H. by rewrite (list_insert_id ls) in H.
Qed.

Lemma hoare_intr {B} ts cs ls np h b (f : unit -> M (kernel W) B) Q :
  stop \/ is_Some (cs !! h) -> (b = true -> ls !! h = Some []) -> hoare ts cs ls np (f tt) Q -> hoare ts cs ls np (bind (intr_set h b) f) Q.
Proof.
  intros Hst Hb Hf k Hk. unfold bind, intr_set, bind, mycpu, set_hart, modify. destruct (harts k !! h) as [c|] eqn:Ec; [|by apply (no_hart k ts cs ls np h)].
  destruct (rep_hart _ _ _ _ _ _ _ Hk Ec) as (_ & E2 & _). apply Hf, (rep_bits _ _ _ _ _ h c _ _ Hk Ec).
  intros Hne. destruct b; [|done]. rewrite (Hb eq_refl) in E2. congruence.
Qed.

Lemma hoare_restore {B} ts cs ls np h i (f : unit -> M (kernel W) B) Q :
  stop \/ is_Some (cs !! h) -> stop \/ is_Some (ts !! i) -> hoare ts cs ls np (f tt) Q -> hoare ts cs ls np (bind (restore_intena h i) f) Q.
Proof.
  intros Hst Hti Hf k Hk. pose proof (proj1 Hk) as Et. unfold bind, restore_intena, bind, rd, mycpu, set_hart, modify.
  rewrite Et. destruct (ts !! i) as [t|]; [|by destruct Hti as [?|[? ?]]].
  destruct (harts k !! h) as [c|] eqn:Ec; [|by apply (no_hart k ts cs ls np h)].
  destruct (rep_hart _ _ _ _ _ _ _ Hk Ec) as (_ & _ & _ & Hs). by apply Hf, (rep_bits _ _ _ _ _ h c _ _ Hk Ec).
Qed.

(** [swtch] to the scheduler with only the task's lock. *)
Lemma hoare_swtch ts cs ls np h i c (Q : unit -> _ -> _ -> _ -> _ -> Prop) : ls !! h = Some [LTask i] ->
  stop \/ is_Some (cs !! h) -> stop \/ is_Some (ts !! i) ->
  (forall t, ts !! i = Some t -> Q tt (<[i := set_ctx c t]> ts) (<[h := None]> cs) (<[h := []]> ls) np) ->
  hoare ts cs ls np (swtch_out h i c) Q.
Proof.
  intros Hl Hc Hi HQ. unfold swtch_out. apply hoare_wr; [done|]. intros t Ht. apply hoare_set_current; [done|]. apply hoare_last.
  apply (hoare_unlock _ _ _ _ h (LTask i) [] []); [done|apply not_elem_of_nil..|]. by apply hoare_ret, HQ.
Qed.

Definition swtched (c : context) (b : bool) (t : task) : task := set_ctx c (set_saved_intena b t).

Lemma hoare_sched ts cs ls np h i t c (Q : unit -> _ -> _ -> _ -> _ -> Prop) :
  cs !! h = Some (Some i) -> ls !! h = Some [LTask i] -> ts !! i = Some t -> state t <> RUNNING ->
  (forall b, Q tt (<[i := swtched c b t]> ts) (<[h := None]> cs) (<[h := []]> ls) np) ->
  hoare ts cs ls np (sched h c) Q.
Proof.
  intros Hc Hl Ht Hst HQ. unfold sched. apply (hoare_mytask' _ _ _ _ _ i); [done|]. apply hoare_mycpu; [stops|].
  intros k E1 E2 [Hn Hs]. rewrite Hl in E2. injection E2 as E2. rewrite <- E2 in *.
  rewrite bool_decide_true by (by left). cbn [negb]. cbn in Hn. rewrite Hn. cbn [negb Z.eqb Pos.eqb].
  apply hoare_rd; [stops|]. intros t' Ht'. rewrite Ht in Ht'. injection Ht' as <-. rewrite bool_decide_false by done.
  rewrite Hs by done. apply hoare_wr; [stops|]. intros t' Ht'. rewrite Ht in Ht'. injection Ht' as <-.
  apply hoare_swtch; [done|stops|stops|]. intros t' Ht'.
  assert (i < length ts)%nat by (by apply lookup_lt_is_Some; exists t).
  rewrite list_lookup_insert_eq in Ht' by done. injection Ht' as <-. rewrite list_insert_insert_eq. apply HQ.
Qed.

(** [lm_V]: with no task waiting the counter goes up; the waiting task is
    made runnable. *)
Definition sem_ok (i : nat) (s : semophore_t) : Prop :=
  match waiting s with [] => 0 <= value s < 2 ^ 31 - 1 | l => l = [i] /\ value s = -1 end.

Definition vup (t : task) : task :=
  match waiting (sons_sem t) with
  | [] => set_sons_sem (mkSem (value (sons_sem t) + 1) []) t
  | _ => set_state RUNNABLE (set_sons_sem (mkSem 0 []) t)
  end.

Lemma hoare_V {B} ts cs ls np h i t hs (f : unit -> M (kernel W) B) Q :
  ls !! h = Some hs -> ts !! i = Some t -> sem_ok i (sons_sem t) -> LSem i ∉ hs ->
  (waiting (sons_sem t) <> [] -> LTask i ∉ hs) ->
  hoare (<[i := vup t]> ts) cs ls np (f tt) Q -> hoare ts cs ls np (bind (lm_V h i) f) Q.
Proof.
  intros Hl Ht Hok Hs Hw Hf. assert (i < length ts)%nat as Hi by (by apply lookup_lt_is_Some; exists t).
  assert (h < length ls)%nat as Hh by (by apply lookup_lt_is_Some; exists hs).
  intros k. unfold lm_V. rewrite bind_assoc. revert k. apply (hoare_lock _ _ _ _ _ _ hs); [done..|].
  intros k. rewrite bind_assoc. revert k. apply hoare_rd; [stops|]. intros t' Ht'. rewrite Ht in Ht'. injection Ht' as <-.
  intros k. rewrite bind_assoc. revert k. apply hoare_wr; [stops|]. intros t' Ht'. rewrite Ht in Ht'. injection Ht' as <-.
  intros k. rewrite bind_assoc. revert k. apply hoare_rd; [stops|]. intros t' Ht'.
  rewrite list_lookup_insert_eq in Ht' by done. injection Ht' as <-. unfold upd_value. cbn [sons_sem value set_sons_sem].
  unfold sem_ok in Hok. unfold vup in Hf. destruct (waiting (sons_sem t)) as [|w ws] eqn:Ew.
  - assert (s32 (value (sons_sem t) + 1) = value (sons_sem t) + 1) as E by (unfold s32; rewrite Z.mod_small; lia).
    rewrite E, (proj2 (Z.leb_gt _ 0)) by lia. apply (hoare_unlock _ _ _ _ h (LSem i) [] hs).
    + by rewrite list_lookup_insert_eq.
    + apply not_elem_of_nil.
    + done.
    + rewrite list_insert_insert_eq. cbn [app]. rewrite (list_insert_id ls) by done. exact Hf.
  - destruct Hok as [[= -> ->] Hv]. rewrite Hv. cbn [Z.add Z.leb Z.compare s32].
    replace (s32 (-1 + 1) <=? 0) with true by reflexivity.
    intros k. rewrite bind_assoc. revert k. apply hoare_rd; [stops|]. intros t' Ht'.
    rewrite list_lookup_insert_eq in Ht' by done. injection Ht' as <-. cbn [set_sons_sem sons_sem waiting]. cbn [last removelast].
    intros k. rewrite bind_assoc. revert k. apply hoare_wr; [stops|]. intros t' Ht'.
    rewrite list_lookup_insert_eq in Ht' by done. injection Ht' as <-. rewrite list_insert_insert_eq.
    intros k. rewrite bind_assoc. revert k. apply (hoare_lock _ _ _ _ _ _ (LSem i :: hs)).
    { by rewrite list_lookup_insert_eq. } { apply not_elem_of_cons. split; [done|]. by apply Hw. }
    intros k. rewrite bind_assoc. revert k. apply hoare_wr; [stops|]. intros t' Ht'.
    rewrite list_lookup_insert_eq in Ht' by done. injection Ht' as <-. rewrite list_insert_insert_eq.
    intros k. rewrite bind_assoc. revert k. apply (hoare_unlock _ _ _ _ h (LTask i) [] (LSem i :: hs)).
    { rewrite list_lookup_insert_eq by (by rewrite length_insert). done. } { apply not_elem_of_nil. }
    { apply not_elem_of_cons. split; [done|]. by apply Hw. }
    rewrite !list_insert_insert_eq. apply (hoare_unlock _ _ _ _ h (LSem i) [] hs).
    { by rewrite list_lookup_insert_eq. } { apply not_elem_of_nil. } { done. }
    rewrite !list_insert_insert_eq. cbn [app]. rewrite (list_insert_id ls) by done. done.
Qed.

Lemma hoare_assoc {A B C} ts cs ls np (m : M (kernel W) A) (f : A -> M (kernel W) B) (g : B -> M (kernel W) C) Q :
  hoare ts cs ls np (bind m (fun a => bind (f a) g)) Q -> hoare ts cs ls np (bind (bind m f) g) Q.
Proof. intros Hm k Hk. rewrite bind_assoc. by apply Hm. Qed.

Lemma hoare_ret_bind {A B} ts cs ls np (a : A) (f : A -> M (kernel W) B) Q :
  hoare ts cs ls np (f a) Q -> hoare ts cs ls np (bind (ret a) f) Q.
Proof. done. Qed.

Lemma hoare_fault_bind {A B} ts cs ls np (f : A -> M (kernel W) B) Q : stop -> hoare ts cs ls np (bind fault f) Q.
Proof. by intros Hs k Hk. Qed.

(** The flag of [ret_entry] and the counter of [alloc_pid]. *)
Lemma hoare_first {B} ts cs ls np (f : bool -> M (kernel W) B) Q :
  (forall b, hoare ts cs ls np (f b) Q) -> hoare ts cs ls np (bind (gets first) f) Q.
Proof. intros Hf k Hk. by apply Hf. Qed.

Lemma hoare_set_first {B} ts cs ls np b (f : unit -> M (kernel W) B) Q :
  hoare ts cs ls np (f tt) Q ->
  hoare ts cs ls np (bind (modify (fun k => mkKernel (tasks k) (harts k) (nextpid k) b (rest k))) f) Q.
Proof. intros Hf k Hk. by apply Hf. Qed.

Lemma hoare_pid {B} ts cs ls np h hs (f : Z -> M (kernel W) B) Q :
  ls !! h = Some hs -> LPid ∉ hs -> 0 <= np < 2 ^ 31 - 1 -> hoare ts cs ls (np + 1) (f np) Q ->
  hoare ts cs ls np (bind (alloc_pid h) f) Q.
Proof.
  intros Hl Hp Hn Hf. assert (h < length ls)%nat as Hh by (by apply lookup_lt_is_Some; exists hs).
  apply hoare_assoc, (hoare_lock _ _ _ _ _ _ hs); [done..|]. apply hoare_assoc. intros k Hk.
  unfold bind at 1, gets at 1. destruct Hk as (H1 & H2 & H3 & H4 & H5). rewrite H4.
  assert (s32 (np + 1) = np + 1) as E by (unfold s32; rewrite Z.mod_small; lia).
  assert (rep (mkKernel (tasks k) (harts k) (np + 1) (first k) (rest k)) ts cs (<[h := LPid :: hs]> ls) (np + 1)) as Hk' by done.
  revert Hk'. unfold bind at 1, modify at 1. rewrite E. unfold bind at 1.
  generalize (mkKernel (tasks k) (harts k) (np + 1) (first k) (rest k)).
  intros k' Hk'. revert k' Hk'. change (hoare ts cs (<[h:=LPid :: hs]> ls) (np + 1) (bind (bind (lm_unlock h LPid) (fun _ => ret np)) f) Q).
  apply hoare_assoc, (hoare_unlock _ _ _ _ h LPid [] hs).
  - by rewrite list_lookup_insert_eq.
  - apply not_elem_of_nil.
  - done.
  - rewrite list_insert_insert_eq. cbn [app]. by rewrite list_insert_id.
Qed.

Lemma hoare_when {B} ts cs ls np (b : bool) (c : call unit) (f : unit -> M (kernel W) B) Q :
  hoare ts cs ls np (f tt) Q -> hoare ts cs ls np (bind (when b (other c)) f) Q.
Proof. intros Hf. destruct b; [by apply hoare_other; intros []|by apply hoare_ret_bind]. Qed.

(** Loops over the files of a task. *)
Definition closed (l : list nat) (fs : list (option nat)) : list (option nat) :=
  fold_left (fun fs fd => match fs !! fd with Some (Some _) => <[fd := None]> fs | _ => fs end) l fs.
Definition dupped (l : list nat) (fs nfs : list (option nat)) : list (option nat) :=
  fold_left (fun nfs fd => match fs !! fd with Some (Some f) => <[fd := Some f]> nfs | _ => nfs end) l nfs.

Lemma set_ofile_id t : set_ofile (ofile t) t = t.
Proof. by destruct t. Qed.

Lemma set_cwd_id t : set_cwd (cwd t) t = t.
Proof. by destruct t. Qed.

Lemma hoare_close {B} cs ls np i l (f : unit -> M (kernel W) B) Q : forall ts t, ts !! i = Some t ->
  hoare (<[i := set_ofile (closed l (ofile t)) t]> ts) cs ls np (f tt) Q ->
  hoare ts cs ls np (bind (close_files i l) f) Q.
Proof.
  induction l as [|fd l IH]; intros ts t Ht Hf; cbn [close_files closed fold_left] in *.
  - apply hoare_ret_bind. by rewrite set_ofile_id, list_insert_id in Hf.
  - apply hoare_assoc, hoare_rd; [stops|]. intros t' Ht'. rewrite Ht in Ht'. injection Ht' as <-.
    destruct (ofile t !! fd) as [[g|]|] eqn:E; [|by apply (IH ts t)..].
    apply hoare_assoc, hoare_other. intros _. apply hoare_assoc, hoare_wr; [stops|]. intros t' Ht'. rewrite Ht in Ht'. injection Ht' as <-.
    assert (i < length ts)%nat by (by eapply lookup_lt_Some).
    apply (IH _ (set_ofile (<[fd := None]> (ofile t)) t)); [by rewrite list_lookup_insert_eq|].
    by rewrite list_insert_insert_eq.
Qed.

Lemma hoare_dup {B} cs ls np i j ti l (f : unit -> M (kernel W) B) Q : i <> j -> forall ts t, ts !! j = Some t -> ts !! i = Some ti ->
  hoare (<[j := set_ofile (dupped l (ofile ti) (ofile t)) t]> ts) cs ls np (f tt) Q ->
  hoare ts cs ls np (bind (dup_files i j l) f) Q.
Proof.
  intros Hij. induction l as [|fd l IH]; intros ts t Ht Hti Hf; cbn [dup_files dupped fold_left] in *.
  - apply hoare_ret_bind. by rewrite set_ofile_id, list_insert_id in Hf.
  - apply hoare_assoc, hoare_rd; [stops|]. intros t' Ht'. rewrite Hti in Ht'. injection Ht' as <-.
    destruct (ofile ti !! fd) as [[g|]|] eqn:E; [|by apply (IH ts t)..].
    apply hoare_assoc, hoare_other. intros _. apply hoare_assoc, hoare_rd; [stops|]. intros t' Ht'. rewrite Ht in Ht'. injection Ht' as <-.
    apply hoare_assoc, hoare_wr; [stops|]. intros t' Ht'. rewrite Ht in Ht'. injection Ht' as <-.
    assert (j < length ts)%nat by (by eapply lookup_lt_Some).
    apply (IH _ (set_ofile (<[fd := Some g]> (ofile t)) t)); [by rewrite list_lookup_insert_eq|by rewrite list_lookup_insert_ne|].
    by rewrite list_insert_insert_eq.
Qed.
End Logic.

(** ** Operations that panic *)

Section Stuck.
Context {W : Type} `{!Rest W}.

(** [stuck ... m msg]: from a state like this [m] panics with [msg]. *)
Definition stuck ts cs ls np {A} (m : M (kernel W) A) (msg : string) : Prop :=
  forall k, rep k ts cs ls np -> m k = Panic msg.

Lemma stuck_bind {A B} ts cs ls np ts' cs' ls' np' (m : M (kernel W) A) a (f : A -> M (kernel W) B) msg :
  (forall k, rep k ts cs ls np -> exists k', m k = Done (a, k') /\ rep k' ts' cs' ls' np') ->
  stuck ts' cs' ls' np' (f a) msg -> stuck ts cs ls np (bind m f) msg.
Proof. intros Hm Hf k Hk. destruct (Hm k Hk) as (k' & E & Hk'). rewrite (bind_done _ _ _ _ _ E). by apply Hf. Qed.

Lemma stuck_head {A B} ts cs ls np (m : M (kernel W) A) (f : A -> M (kernel W) B) msg :
  stuck ts cs ls np m msg -> stuck ts cs ls np (bind m f) msg.
Proof. intros Hm k Hk. unfold bind. by rewrite (Hm k Hk). Qed.

Lemma stuck_mytask' {B} ts cs ls np h i (f : nat -> M (kernel W) B) msg : cs !! h = Some (Some i) ->
  stuck ts cs ls np (f i) msg -> stuck ts cs ls np (bind (mytask' h) f) msg.
Proof.
  intros Hi. apply stuck_bind. intros k Hk. destruct (mytask_run k ts cs ls np h Hk) as (k' & o & E & Ho & Hk').
  { by eapply lookup_lt_Some. }
  exists k'. split; [|done]. unfold mytask'. rewrite (bind_done _ _ _ _ _ E). rewrite Hi in Ho. by injection Ho as <-.
Qed.

Lemma stuck_wr {B} ts cs ls np (g : task -> task) i t (f : unit -> M (kernel W) B) msg : ts !! i = Some t ->
  stuck (<[i := g t]> ts) cs ls np (f tt) msg -> stuck ts cs ls np (bind (wr g i) f) msg.
Proof.
  intros Ht. apply stuck_bind. intros k Hk. unfold wr. destruct Hk as (Et & Hk). rewrite Et, Ht. eexists. split; [done|]. by split.
Qed.

(** A lock that the hart has, and one that it does not have. *)
Lemma stuck_lock ts cs ls np h l hs : ls !! h = Some hs -> l ∈ hs -> stuck ts cs ls np (lm_lock h l) "holding lock".
Proof.
  intros Hh Hin k Hk. destruct (harts k !! h) as [c|] eqn:Ec.
  2: { destruct Hk as (_ & _ & <- & _). by rewrite list_lookup_fmap, Ec in Hh. }
  destruct (rep_hart _ _ _ _ _ _ _ Hk Ec) as (_ & E2 & _). rewrite Hh in E2. injection E2 as ->.
  unfold lm_lock, push_off, mycpu, set_hart, modify, bind. rewrite Ec. cbn [harts tasks].
  rewrite list_lookup_insert_eq by (by eapply lookup_lt_Some). cbn [held]. by rewrite decide_True.
Qed.

Lemma stuck_unlock ts cs ls np h l hs : ls !! h = Some hs -> l ∉ hs -> stuck ts cs ls np (lm_unlock h l) "unlock".
Proof.
  intros Hh Hin k Hk. destruct (harts k !! h) as [c|] eqn:Ec.
  2: { destruct Hk as (_ & _ & <- & _). by rewrite list_lookup_fmap, Ec in Hh. }
  destruct (rep_hart _ _ _ _ _ _ _ Hk Ec) as (_ & E2 & _). rewrite Hh in E2. injection E2 as ->.
  unfold lm_unlock, mycpu, bind. rewrite Ec. by rewrite decide_False.
Qed.

(** [sched] with more than the task's lock. *)
Lemma stuck_sched ts cs ls np h i hs c : cs !! h = Some (Some i) -> ls !! h = Some hs -> LTask i ∈ hs -> length hs <> 1%nat ->
  stuck ts cs ls np (sched h c) "sched locks".
Proof.
  intros Hc Hh Hin Hlen. unfold sched. apply (stuck_mytask' _ _ _ _ _ i); [done|]. intros k Hk.
  destruct (harts k !! h) as [x|] eqn:Ec.
  2: { destruct Hk as (_ & _ & <- & _). by rewrite list_lookup_fmap, Ec in Hh. }
  destruct (rep_hart _ _ _ _ _ _ _ Hk Ec) as (_ & E2 & Hn & _). rewrite Hh in E2. injection E2 as ->.
  unfold bind, mycpu. rewrite Ec, bool_decide_true by done. cbn [negb]. by rewrite (proj2 (Z.eqb_neq _ 1)) by lia.
Qed.
End Stuck.

(** ** Automation *)

Lemma some_eq {A} (x y : A) : Some x = Some y -> y = x.
Proof. by intros [=]. Qed.

Ltac in_list := repeat first [apply not_elem_of_nil | apply not_elem_of_cons; split; [congruence|]].
(** What is known of a task that is read again. *)
Ltac known H :=
  rewrite ?list_insert_insert_eq in H;
  first
  [ progress repeat first
      [ rewrite list_lookup_insert_eq in H by (rewrite ?length_insert; first [assumption | eapply lookup_lt_Some; eassumption])
      | rewrite list_lookup_insert_ne in H by congruence ]
  | idtac ];
  match type of H with
  | ?x = Some ?t => match goal with E : x = Some ?t' |- _ => first [constr_eq H E; fail 1 | rewrite E in H] end
  | _ => idtac
  end;
  apply some_eq in H; match type of H with ?y = _ => subst y end.
Ltac wr_step := apply hoare_wr; [stops|]; let t' := fresh "t'" in let H := fresh "Ht'" in intros t' H; known H; rewrite ?list_insert_insert_eq.

Section Operations.
Context {W : Type} `{!Rest W} {stop : Prop} {Hcalls : Returns W stop}.
Abbreviation hoare := (thoare stop).

(** ** [free_task] *)

Definition freed (t : task) : task :=
  set_cwd None (set_ofile (closed (seq 0 NOFILE) (ofile t)) (set_mmap_obj 0 (set_parent None (set_state DEAD
    (set_id (-1) (set_trapframe 0 (set_pagetable 0 t))))))).

Lemma hoare_free {B} cs ls np i (f : unit -> M (kernel W) B) Q ts t : ts !! i = Some t ->
  hoare (<[i := freed t]> ts) cs ls np (f tt) Q -> hoare ts cs ls np (bind (free_task i) f) Q.
Proof.
  intros Ht Hf. assert (i < length ts)%nat as Hi by (by eapply lookup_lt_Some).
  set (ts1 := <[i := freed t]> ts) in Hf. unfold free_task.
  apply hoare_assoc, hoare_rd; [stops|]. intros t' Ht'. known Ht'. apply hoare_assoc, hoare_when.
  apply hoare_assoc. wr_step. apply hoare_assoc, hoare_rd; [stops|]. intros t' Ht'. known Ht'. apply hoare_assoc, hoare_when.
  do 4 (apply hoare_assoc; wr_step).
  apply hoare_assoc, hoare_rd; [stops|]. intros t' Ht'. known Ht'. apply hoare_assoc, hoare_when.
  apply hoare_assoc. wr_step.
  apply hoare_assoc. eapply hoare_close; [look|]. rewrite list_insert_insert_eq.
  apply hoare_assoc, hoare_rd; [stops|]. intros t' Ht'. known Ht'.
  destruct (cwd _).
  - apply hoare_assoc, hoare_other. intros _. by wr_step.
  - apply hoare_assoc, hoare_ret_bind. by wr_step.
Qed.

(** ** [utask_create] *)

Definition fresh (np : Z) (t : task) : task := set_ctx RetEntry (set_state USED (set_id np t)).

(** [i] is the first free slot of [l]. *)
Definition first_dead (ts : list task) (l : list nat) (i : nat) : Prop :=
  exists l1 l2, l = l1 ++ i :: l2 /\ forall j t, In j l1 -> ts !! j = Some t -> state t <> DEAD.

Lemma hoare_find {B} cs ls np h (f : option nat -> M (kernel W) B) Q ts : ls !! h = Some [] -> 0 <= np < 2 ^ 31 - 1 ->
  forall l, (stop \/ forall i, In i l -> is_Some (ts !! i)) ->
  ((forall j t, In j l -> ts !! j = Some t -> state t <> DEAD) -> hoare ts cs ls np (f None) Q) ->
  (forall i t, ts !! i = Some t -> state t = DEAD -> first_dead ts l i ->
    hoare (<[i := fresh np t]> ts) cs (<[h := [LTask i]]> ls) (np + 1) (f (Some i)) Q) ->
  hoare ts cs ls np (bind (utask_find h l) f) Q.
Proof.
  intros Hl Hnp l. induction l as [|i l IH]; intros Hin Hnone Hsome; cbn [utask_find]; [by apply hoare_ret_bind, Hnone|].
  assert (stop \/ is_Some (ts !! i)) as Hi by (destruct Hin as [?|Hin]; [by left|right; apply Hin; by left]).
  apply hoare_assoc, (hoare_lock _ _ _ _ _ _ []); [done|in_list|]. apply hoare_assoc, hoare_rd; [done|]. intros t Ht.
  case_bool_decide as Hd.
  - apply hoare_assoc, (hoare_pid _ _ _ _ _ [LTask i]); [look|in_list|done|].
    do 2 (apply hoare_assoc; wr_step). unfold init_context. apply hoare_assoc. wr_step. apply hoare_ret_bind. apply Hsome; [done|done|]. by exists [], l.
  - apply hoare_assoc, (hoare_unlock _ _ _ _ h _ [] []); [look|in_list..|]. cbn [app].
    rewrite list_insert_insert_eq, list_insert_id by done. apply IH.
    + destruct Hin as [?|Hin]; [by left|right]. intros j Hj. apply Hin. by right.
    + intros Hall. apply Hnone. intros j tj [<-|Hj] Htj; [congruence|]. by apply (Hall j).
    + intros j tj Hj Hdj (l1 & l2 & -> & Hl1). apply Hsome; [done|done|]. exists (i :: l1), l2. split; [done|].
      intros k tk [<-|Hk] Htk; [congruence|]. by apply (Hl1 k).
Qed.

Definition made (np p pt o : Z) (ws : list Z) (t : task) : task :=
  set_mmap_obj o (set_sons_sem (mkSem 0 []) (set_pagetable pt (set_regs (clear_int ws) (set_trapframe p (fresh np t))))).

Lemma hoare_create {B} cs ls np h (f : option nat -> M (kernel W) B) Q ts : ls !! h = Some [] -> 0 <= np < 2 ^ 31 - 1 ->
  (stop \/ length ts = NTASK) -> ((forall j t, ts !! j = Some t -> (j < NTASK)%nat -> state t <> DEAD) -> hoare ts cs ls np (f None) Q) ->
  (forall i t p pt o ws, ts !! i = Some t -> state t = DEAD -> first_dead ts (seq 0 NTASK) i ->
    hoare (<[i := made np p pt o ws t]> ts) cs (<[h := [LTask i]]> ls) (np + 1) (f (Some i)) Q) ->
  hoare ts cs ls np (bind (utask_create h) f) Q.
Proof.
  intros Hl Hnp Hlen Hnone Hsome. apply hoare_assoc, hoare_find; [done|done| | |].
  { destruct Hlen as [?|Hlen]; [by left|right]. intros i Hi%in_seq. apply lookup_lt_is_Some. rewrite Hlen. lia. }
  { intros Hall. apply hoare_ret_bind, Hnone. intros j t Ht Hj. apply (Hall j); [|done]. apply in_seq. lia. }
  intros i t Ht Hd Hfirst. apply hoare_assoc, hoare_other. intros [p ws].
  do 2 (apply hoare_assoc; wr_step). apply hoare_assoc, hoare_other. intros pt. apply hoare_assoc. wr_step.
  apply hoare_assoc. unfold lm_sem_init. cbn [Z.ltb Z.compare]. wr_step. apply hoare_assoc, hoare_other. intros o.
  apply hoare_assoc. wr_step. apply hoare_ret_bind. by apply Hsome.
Qed.


(** ** [sys_fork] *)

(** The child of [t], the task [i], from the new task [n]. *)
Definition child_from (i : nat) (t n : task) : task :=
  set_ofile (dupped (seq 0 NOFILE) (ofile t) (ofile n))
    (set_cwd (match cwd t with Some ip => Some ip | None => cwd n end)
      (set_parent (Some i) (set_state RUNNABLE (set_reg A0 0 (set_regs (regs t) n))))).

(** The part of [sys_fork] after [utask_create] and [mytask]. *)
Definition fork_rest h (t nt : nat) : M (kernel W) unit :=
  obj <- rd mmap_obj t;; pt <- rd pagetable t;; nobj <- rd mmap_obj nt;; npt <- rd pagetable nt;;
  other (CopyMmap obj pt nobj npt);;;
  r <- rd regs t;;
  wr (set_regs r) nt;;;
  wr (set_reg A0 0) nt;;;
  pid <- rd id nt;;
  wr (set_reg A0 pid) t;;;
  wr (set_state RUNNABLE) nt;;;
  wr (set_parent (Some t)) nt;;;
  d <- rd cwd t;;
  (match d with Some ip => other (Idup ip);;; wr (set_cwd (Some ip)) nt | None => ret tt end);;;
  dup_files t nt (seq 0 NOFILE);;;
  lm_unlock h (LTask nt).

Lemma hoare_fork_rest cs ls np h i j t n ts (Q : unit -> _ -> _ -> _ -> _ -> Prop) : ls !! h = Some [LTask j] ->
  ts !! i = Some t -> ts !! j = Some n -> i <> j ->
  Q tt (<[j := child_from i t n]> (<[i := set_reg A0 (id n) t]> ts)) cs (<[h := []]> ls) np ->
  hoare ts cs ls np (fork_rest h i j) Q.
Proof.
  intros Hl Ht Hj Hij HQ. assert (j <> i) as Hji by done.
  assert (i < length ts)%nat as Hi by (by eapply lookup_lt_Some).
  assert (j < length ts)%nat as Hjl by (by eapply lookup_lt_Some).
  unfold fork_rest.
  do 4 (apply hoare_rd; [stops|]; intros t' Ht'; known Ht').
  apply hoare_other. intros _. apply hoare_rd; [stops|]. intros t' Ht'. known Ht'. do 2 wr_step.
  apply hoare_rd; [stops|]. intros t' Ht'. known Ht'.
  change (id (set_reg A0 0 (set_regs (regs t) n))) with (id n).
  assert (i < length (<[j := set_reg A0 0 (set_regs (regs t) n)]> ts))%nat as Hi' by (by rewrite length_insert).
  wr_step. rewrite (list_insert_insert_ne _ i j) by done. do 2 wr_step.
  apply hoare_rd; [stops|]. intros t' Ht'. known Ht'.
  change (cwd (set_reg A0 (id n) t)) with (cwd t). unfold child_from in HQ.
  assert (cwd (set_parent (Some i) (set_state RUNNABLE (set_reg A0 0 (set_regs (regs t) n)))) = cwd n) as Hcwd by reflexivity.
  assert (ofile (set_reg A0 (id n) t) = ofile t) as Hof by reflexivity.
  assert (forall c, ofile (set_cwd c (set_parent (Some i) (set_state RUNNABLE (set_reg A0 0 (set_regs (regs t) n))))) = ofile n) as Hof2 by reflexivity.
  revert HQ Hcwd Hof2. generalize (set_parent (Some i) (set_state RUNNABLE (set_reg A0 0 (set_regs (regs t) n)))). intros n2 HQ Hcwd Hof2.
  revert HQ Hof. generalize (set_reg A0 (id n) t). intros t2 HQ Hof.
  apply (hoare_bind _ _ _ _ _ _ (fun _ ts1 cs1 ls1 np1 =>
    ts1 = <[j := set_cwd (match cwd t with Some ip => Some ip | None => cwd n end) n2]> (<[i := t2]> ts) /\ cs1 = cs /\
    ls1 = ls /\ np1 = np)).
  { destruct (cwd t) as [ip|].
    - apply hoare_other. intros _. apply hoare_wr'; [stops|]. intros t' Ht'. known Ht'. by rewrite list_insert_insert_eq.
    - apply hoare_ret. rewrite <- Hcwd. by rewrite set_cwd_id. }
  intros _ ts1 cs1 ls1 np1 (-> & -> & -> & ->).
  eapply (hoare_dup _ _ _ _ _ t2); [done|look|by rewrite list_lookup_insert_ne, list_lookup_insert_eq|].
  rewrite Hof, Hof2, list_insert_insert_eq. apply hoare_last, (hoare_unlock _ _ _ _ h _ [] []); [done|in_list..|].
  apply hoare_ret. exact HQ.
Qed.

Definition child (i : nat) (np p pt o : Z) (ws : list Z) (t n : task) : task := child_from i t (made np p pt o ws n).

Lemma hoare_fork cs ls np h i t ts (Q : unit -> _ -> _ -> _ -> _ -> Prop) : ls !! h = Some [] -> cs !! h = Some (Some i) ->
  ts !! i = Some t -> state t <> DEAD -> 0 <= np < 2 ^ 31 - 1 ->
  (stop \/ (length ts = NTASK /\ exists j n, ts !! j = Some n /\ state n = DEAD)) ->
  (forall j n p pt o ws, ts !! j = Some n -> state n = DEAD -> first_dead ts (seq 0 NTASK) j -> i <> j ->
    Q tt (<[j := child i np p pt o ws t n]> (<[i := set_reg A0 np t]> ts)) cs ls (np + 1)) ->
  hoare ts cs ls np (sys_fork h) Q.
Proof.
  intros Hl Hc Ht Hs Hnp Hst HQ. assert (i < length ts)%nat as Hi by (by eapply lookup_lt_Some).
  unfold sys_fork. apply hoare_create; [done|lia| | |].
  { destruct Hst as [?|[? _]]; [by left|by right]. }
  { intros Hall. apply (hoare_mytask' _ _ _ _ _ i); [done|]. apply hoare_fault.
    destruct Hst as [?|(Hlen & j & n & Hj & Hd)]; [done|]. exfalso. apply (Hall j n Hj); [|done].
    rewrite <- Hlen. by eapply lookup_lt_Some. }
  intros j n p pt o ws Hj Hd Hfirst. assert (i <> j) as Hij by (intros ->; congruence).
  assert (j < length ts)%nat as Hjl by (by eapply lookup_lt_Some).
  apply (hoare_mytask' _ _ _ _ _ i); [done|].
  specialize (HQ j n p pt o ws Hj Hd Hfirst Hij). unfold child in HQ.
  apply (hoare_fork_rest _ _ _ _ i j t (made np p pt o ws n)); [look|by rewrite list_lookup_insert_ne|look|done|].
  assert (id (made np p pt o ws n) = np) as -> by reflexivity.
  rewrite list_insert_insert_eq, (list_insert_id ls) by done.
  by rewrite (list_insert_insert_ne _ i j), list_insert_insert_eq by done.
Qed.
(** ** The round of [sys_wait] that finds a zombie child *)

Lemma hoare_reap cs ls np h i p t tp ts (Q : unit -> _ -> _ -> _ -> _ -> Prop) : ls !! h = Some [] ->
  ts !! i = Some t -> ts !! p = Some tp -> state tp = ZOMBIE -> parent tp = Some i -> p <> i ->
  Q tt (<[i := set_place Out (set_reg A0 (id tp) t)]> (<[p := freed tp]> ts)) cs ls np ->
  hoare ts cs ls np (wait_slot h i p) Q.
Proof.
  intros Hl Ht Htp Hsp Hpar Hpi HQ. assert (i < length ts)%nat as Hi by (by eapply lookup_lt_Some).
  assert (p < length ts)%nat as Hp by (by eapply lookup_lt_Some).
  unfold wait_slot. apply (hoare_lock _ _ _ _ _ _ []); [done|in_list|]. apply hoare_rd; [stops|]. intros tp' Htp'. known Htp'.
  rewrite bool_decide_true by done.
  apply (hoare_lock _ _ _ _ _ _ [LTask p]); [look|in_list|]. apply hoare_rd; [stops|]. intros tp' Htp'. known Htp'.
  rewrite bool_decide_true by done. apply hoare_rd; [stops|]. intros t' Ht'. known Ht'.
  apply (hoare_bind _ _ _ _ _ _ (fun _ ts1 cs1 ls1 np1 => ts1 = ts /\ cs1 = cs /\ ls1 = <[h := [LWait; LTask p]]> ls /\ np1 = np)).
  { rewrite list_insert_insert_eq. case_match; [|by apply hoare_ret].
    apply hoare_rd; [stops|]. intros t1 Ht1. apply hoare_rd; [stops|]. intros t2 Ht2. apply hoare_other. intros z. by apply hoare_ret. }
  intros _ ts1 cs1 ls1 np1 (-> & -> & -> & ->). apply hoare_rd; [stops|]. intros tp' Htp'. known Htp'.
  wr_step. apply (hoare_free _ _ _ _ _ _ _ tp); [by rewrite list_lookup_insert_ne|].
  apply (hoare_unlock _ _ _ _ h _ [] [LTask p]); [look|in_list..|].
  apply (hoare_unlock _ _ _ _ h _ [] []); [look|in_list..|]. cbn [app]. rewrite !list_insert_insert_eq, (list_insert_id ls) by done.
  rewrite (list_insert_insert_ne _ p i) by done.
  apply hoare_wr'; [right; apply lookup_lt_is_Some; by rewrite !length_insert|]. intros t' Ht'.
  rewrite list_lookup_insert_eq in Ht' by (by rewrite length_insert). apply some_eq in Ht'. subst t'.
  by rewrite list_insert_insert_eq.
Qed.
End Operations.
