(* ===== verification/ProcInv.v ===== *)
(** * The invariant of the task table *)
From S2P Require Import Prelude Lock Proc ProcLogic.

(** ** Zombie children *)

Definition zomb (i : nat) (t : task) : bool := bool_decide (state t = ZOMBIE) && bool_decide (parent t = Some i).

(** The number of zombie children of [i] among the first [m] tasks. *)
Definition zs (ts : list task) (i m : nat) : nat := length (filter (fun t => zomb i t = true) (take m ts)).

Abbreviation one b := (if (b : bool) then 1%nat else 0%nat).

Lemma zs_cons t ts i m : zs (t :: ts) i (S m) = (one (zomb i t) + zs ts i m)%nat.
Proof. unfold zs. cbn [take]. rewrite filter_cons. by destruct (zomb i t). Qed.

Lemma zs_insert i t' : forall ts j m t, ts !! j = Some t ->
  (zs (<[j := t']> ts) i m + one (zomb i t && (j <? m)%nat) = zs ts i m + one (zomb i t' && (j <? m)%nat))%nat.
Proof.
  induction ts as [|x ts IH]; intros j m t Hj; [done|]. destruct m as [|m].
  { unfold zs. cbn [take]. by rewrite !andb_false_r. }
  destruct j as [|j].
  - injection Hj as ->. cbn [insert list_insert]. rewrite !zs_cons. cbn. rewrite !andb_true_r. lia.
  - change (<[S j := t']> (x :: ts)) with (x :: <[j := t']> ts). rewrite !zs_cons. specialize (IH j m t Hj).
    change (S j <? S m)%nat with (j <? m)%nat. lia.
Qed.

Lemma zs_le i t' ts j m t : ts !! j = Some t -> (zs (<[j := t']> ts) i m <= zs ts i m + 1)%nat.
Proof.
  intros Hj. pose proof (zs_insert i t' ts j m t Hj) as H. revert H. destruct (_ && _), (_ && _); lia.
Qed.

Lemma zs_le0 i t' ts j m t : ts !! j = Some t -> zomb i t' = false -> (zs (<[j := t']> ts) i m <= zs ts i m)%nat.
Proof. intros Hj Hz. pose proof (zs_insert i t' ts j m t Hj) as H. rewrite Hz in H. cbn [andb] in H. lia. Qed.

Lemma zs_0 ts i : zs ts i 0 = 0%nat.
Proof. reflexivity. Qed.

(** A change that keeps the number. *)
Lemma zs_same i ts j m t t' : ts !! j = Some t -> zomb i t' = zomb i t -> zs (<[j := t']> ts) i m = zs ts i m.
Proof. intros Hj Hz. pose proof (zs_insert i t' ts j m t Hj) as H. rewrite Hz in H. lia. Qed.

Lemma zs_S i : forall ts p t, ts !! p = Some t -> zs ts i (S p) = (zs ts i p + one (zomb i t))%nat.
Proof.
  induction ts as [|x ts IH]; intros p t Hp; [done|]. destruct p as [|p].
  - injection Hp as ->. rewrite zs_cons, !zs_0. lia.
  - rewrite !zs_cons, (IH p t Hp). lia.
Qed.

Lemma zs_mono ts i m m' : (m <= m')%nat -> (zs ts i m <= zs ts i m')%nat.
Proof.
  intros H. unfold zs. replace m' with (m + (m' - m))%nat by lia. rewrite <- (take_take_drop ts m (m' - m)), filter_app, length_app. lia.
Qed.

Lemma zs_zero ts i m : (forall j t, ts !! j = Some t -> state t = ZOMBIE -> parent t <> Some i) -> zs ts i m = 0%nat.
Proof.
  intros H. unfold zs. apply length_zero_iff_nil. destruct (filter _ _) as [|t l] eqn:E; [done|].
  assert (t ∈ filter (fun t => zomb i t = true) (take m ts)) as Hin by (rewrite E; left).
  apply list_elem_of_filter in Hin as [Hz Hin]. unfold zomb in Hz. apply andb_true_iff in Hz as [H1%bool_decide_eq_true H2%bool_decide_eq_true].
  apply list_elem_of_lookup in Hin as (j & Hj). rewrite lookup_take_Some in Hj. by destruct (H j t (proj1 Hj) H1).
Qed.

(** ** The invariant *)

Definition alive (ts : list task) (i : nat) : Prop :=
  exists t, ts !! i = Some t /\ state t <> DEAD /\ state t <> ZOMBIE.

Definition resumable (c : context) : Prop :=
  match c with Nowhere | InExit | InForceExit => False | _ => True end.

(** The semaphore's counter covers the zombie children that the task has not
    seen: in the scan of [sys_wait] those before its position, or all but the
    one it has the token of. *)
Definition zok (ts : list task) (i : nat) (t : task) : Prop :=
  match place t with
  | Out => Z.of_nat (zs ts i NTASK) <= value (sons_sem t)
  | Scan p => Z.of_nat (zs ts i p) <= Z.max 0 (value (sons_sem t)) /\
              Z.of_nat (zs ts i NTASK) <= value (sons_sem t) + 1
  end.

Definition sem_inv (bound : Z) (i : nat) (t : task) : Prop :=
  match waiting (sons_sem t) with
  | [] => 0 <= value (sons_sem t) <= bound
  | l => l = [i] /\ value (sons_sem t) = -1 /\ state t = SLEEPING /\ ctx t = InP /\ place t = Scan 0 /\ chan t = 0
  end.

(** [ex] is a task that is exiting, whose children are being given away. *)
Record task_ok (ts : list task) (np bound : Z) (ex : option nat) (i : nat) (t : task) : Prop := {
  t_sem : sem_inv bound i t;
  t_sleep : state t = SLEEPING -> waiting (sons_sem t) = [] -> exists lk, ctx t = InSleep lk \/ ctx t = InPOther lk;
  t_ctx : state t = RUNNABLE -> resumable (ctx t);
  t_chan : chan t <> 0 -> (state t = SLEEPING \/ state t = RUNNABLE) /\ exists lk, ctx t = InSleep lk;
  t_zok : zok ts i t;
  t_parent : forall q, parent t = Some q -> q <> i /\ (ex = Some q \/ q = 0%nat \/ alive ts q);
  t_dead : state t = DEAD -> id t = -1 /\ parent t = None /\ place t = Out;
  t_zombie : state t = ZOMBIE -> place t = Out;
  t_live : state t <> DEAD -> 1 <= id t < np;
  t_used : state t <> USED;
  t_lost : ctx t = InForceExit -> state t = RUNNING
}.

(** A hart's task is RUNNING, on that hart only; a RUNNING task is on a hart
    unless it has killed itself. *)
Record cur_ok (ts : list task) (cs : list (option nat)) : Prop := {
  c_run : forall h i, cs !! h = Some (Some i) -> exists t, ts !! i = Some t /\ state t = RUNNING /\ ctx t <> InForceExit;
  c_uniq : forall h h' i, cs !! h = Some (Some i) -> cs !! h' = Some (Some i) -> h = h';
  c_all : forall i t, ts !! i = Some t -> state t = RUNNING -> ctx t <> InForceExit -> exists h, cs !! h = Some (Some i)
}.

(** Tasks have different pids. *)
Definition ids_ok (ts : list task) : Prop :=
  forall i j ti tj, ts !! i = Some ti -> ts !! j = Some tj -> state ti <> DEAD -> id ti = id tj -> i = j.

(** No hart is inside an operation: it holds locks of other components only. *)
Definition others (l : list lock) : Prop := NoDup l /\ forall x, x ∈ l -> exists n, x = LOther n.
Definition quiet (ls : list (list lock)) : Prop := Forall others ls.

Lemma others_nil : others [].
Proof. split; [by apply NoDup_nil|]. by intros x ?%elem_of_nil. Qed.

Lemma others_cons n l : others l -> LOther n ∉ l -> others (LOther n :: l).
Proof.
  intros [Hd Ho] Hn. split; [by apply NoDup_cons|]. intros x [->|Hx]%elem_of_cons; [by exists n|by apply Ho].
Qed.

Lemma others_not l x : others l -> match x with LOther _ => False | _ => True end -> x ∉ l.
Proof. intros [_ Ho] Hx Hin. by destruct (Ho x Hin) as (n & ->). Qed.

(** A lock of the list, and the rest of it. *)
Lemma others_split l x : others l -> x ∈ l -> exists l1 l2, l = l1 ++ x :: l2 /\ x ∉ l1 /\ x ∉ l2 /\ others (l1 ++ l2).
Proof.
  intros [Hd Ho] Hin. apply list_elem_of_split in Hin as (l1 & l2 & ->). exists l1, l2.
  apply NoDup_app in Hd as (H1 & H2 & H3). apply NoDup_cons in H3 as [H3 H4]. split_and!; [done| |done|].
  - intros Hx. apply (H2 x Hx). by left.
  - split; [apply NoDup_app; split_and!; [done| |done]|].
    + intros y Hy Hy'. apply (H2 y Hy). by right.
    + intros y Hy. apply Ho. apply elem_of_app in Hy as [Hy|Hy]; apply elem_of_app; [by left|right; by right].
Qed.

(** ** Changes *)

Definition same_view (ts ts' : list task) : Prop :=
  (forall i m, zs ts' i m = zs ts i m) /\ (forall q, alive ts q -> alive ts' q).

Lemma task_ok_view ts ts' np b ex i t : same_view ts ts' -> task_ok ts np b ex i t -> task_ok ts' np b ex i t.
Proof.
  intros [Hz Ha] [H1 H2 H3 H4 H5 H6 H7 H8 H9 H10 H11]. split; try done.
  - unfold zok in *. by destruct (place t); rewrite !Hz.
  - intros q Hq. destruct (H6 q Hq) as [Hn [H|[H|H]]]; (split; [done|]); auto.
Qed.

Lemma task_ok_weaken ts np np' b b' ex i t : np <= np' -> b <= b' -> task_ok ts np b ex i t -> task_ok ts np' b' ex i t.
Proof.
  intros Hn Hb [H1 H2 H3 H4 H5 H6 H7 H8 H9 H10 H11]. split; try done.
  - unfold sem_inv in *. destruct (waiting (sons_sem t)); [lia|done].
  - intros H. specialize (H9 H). lia.
Qed.

Lemma alive_insert ts j t t' q : ts !! j = Some t -> (alive ts j -> state t' <> DEAD /\ state t' <> ZOMBIE) ->
  alive ts q -> alive (<[j := t']> ts) q.
Proof.
  intros Hj Ht' (tq & Hq & Hs). destruct (decide (q = j)) as [->|Hne].
  - exists t'. rewrite list_lookup_insert_eq by (by apply lookup_lt_is_Some; exists t).
    split; [done|]. apply Ht'. exists tq. by split.
  - exists tq. by rewrite list_lookup_insert_ne.
Qed.

Lemma lookup_insert_cases {A} (l : list A) i j (x y : A) : <[i := x]> l !! j = Some y ->
  (j = i /\ y = x /\ (i < length l)%nat) \/ (j <> i /\ l !! j = Some y).
Proof.
  intros H. destruct (decide (j = i)) as [->|Hne].
  - left. assert (i < length l)%nat by (apply lookup_lt_Some in H; by rewrite length_insert in H).
    rewrite list_lookup_insert_eq in H by done. by injection H as <-.
  - right. by rewrite list_lookup_insert_ne in H.
Qed.

Lemma ids_insert ts i t t' : ids_ok ts -> ts !! i = Some t -> id t' = id t -> (state t' <> DEAD <-> state t <> DEAD) ->
  ids_ok (<[i := t']> ts).
Proof.
  intros H5 Hi Hid Hd j k tj tk Hj Hk Hs Hidjk.
  apply lookup_insert_cases in Hj as [(-> & -> & _)|[Hne Hj]]; apply lookup_insert_cases in Hk as [(-> & -> & _)|[Hne' Hk]]; try done.
  - rewrite Hid in Hidjk. apply (H5 _ _ t tk); tauto.
  - rewrite Hid in Hidjk. by apply (H5 _ _ tj t).
  - by apply (H5 _ _ tj tk).
Qed.

Lemma lost_insert (ts : list task) i t t' j : ts !! i = Some t -> (ctx t = InForceExit -> ctx t' = InForceExit) ->
  (exists tj, ts !! j = Some tj /\ ctx tj = InForceExit) -> exists tj, <[i := t']> ts !! j = Some tj /\ ctx tj = InForceExit.
Proof.
  intros Hi Hc (tj & Hj & Hx). destruct (decide (j = i)) as [->|Hne].
  - exists t'. rewrite list_lookup_insert_eq by (by eapply lookup_lt_Some). rewrite Hi in Hj. injection Hj as ->. auto.
  - exists tj. by rewrite list_lookup_insert_ne.
Qed.

(** A change of one task that is no birth or death. *)
Record change (ts : list task) (np b : Z) (ex : option nat) (i : nat) (t t' : task) : Prop := {
  ch_state : (state t' = ZOMBIE <-> state t = ZOMBIE) /\ (state t' = DEAD <-> state t = DEAD);
  ch_id : id t' = id t;
  ch_parent : parent t' = parent t;
  ch_lost : ctx t = InForceExit -> ctx t' = InForceExit;
  ch_ok : task_ok ts np b ex i t'
}.

Lemma change_view ts np b ex i t t' : ts !! i = Some t -> change ts np b ex i t t' -> same_view ts (<[i := t']> ts).
Proof.
  intros Hi [[Hz Hd] _ Hp _ _]. split.
  - intros j m. apply (zs_same _ _ _ _ t); [done|]. unfold zomb. rewrite Hp. f_equal. by apply bool_decide_ext.
  - intros q. apply (alive_insert ts i t); [done|]. intros (t0 & E & Hs). rewrite Hi in E. injection E as <-. tauto.
Qed.

Lemma cur_same ts cs i t t' : cur_ok ts cs -> ts !! i = Some t ->
  (state t = RUNNING <-> state t' = RUNNING) -> (state t = RUNNING -> (ctx t = InForceExit <-> ctx t' = InForceExit)) -> cur_ok (<[i := t']> ts) cs.
Proof.
  intros [H1 H2 H3] Hi Hs Hc. assert (i < length ts)%nat as Hlt by (by apply lookup_lt_is_Some; exists t). split.
  - intros h j Hj. destruct (H1 h j Hj) as (tj & Ej & Hr & Hx). destruct (decide (j = i)) as [->|Hne].
    + rewrite Hi in Ej. injection Ej as <-. exists t'. rewrite list_lookup_insert_eq by done. tauto.
    + exists tj. by rewrite list_lookup_insert_ne.
  - done.
  - intros j tj Hj Hr Hx. apply lookup_insert_cases in Hj as [(-> & -> & _)|[Hne Hj]]; [|by apply (H3 j tj)].
    apply (H3 i t); tauto.
Qed.

Lemma cur_leave ts cs h i t t' : cur_ok ts cs -> ts !! i = Some t -> cs !! h = Some (Some i) ->
  (state t' = RUNNING -> ctx t' = InForceExit) -> cur_ok (<[i := t']> ts) (<[h := None]> cs).
Proof.
  intros [H1 H2 H3] Hi Hh Hs. assert (i < length ts)%nat as Hlt by (by apply lookup_lt_is_Some; exists t). split.
  - intros h' j Hj. apply lookup_insert_cases in Hj as [(_ & [=] & _)|[Hne Hj]].
    destruct (H1 h' j Hj) as (tj & Ej & Hr & Hx). exists tj. rewrite list_lookup_insert_ne; [done|].
    intros <-. by apply Hne, (H2 _ _ i).
  - intros h1 h2 j E1 E2. apply lookup_insert_cases in E1 as [(_ & [=] & _)|[_ E1]].
    apply lookup_insert_cases in E2 as [(_ & [=] & _)|[_ E2]]. by apply (H2 _ _ j).
  - intros j tj Hj Hr Hx. apply lookup_insert_cases in Hj as [(-> & -> & _)|[Hne Hj]]; [tauto|].
    destruct (H3 j tj Hj Hr Hx) as (h' & Hh'). exists h'. rewrite list_lookup_insert_ne; [done|]. intros <-. congruence.
Qed.

Lemma cur_enter ts cs h i t t' : cur_ok ts cs -> ts !! i = Some t -> cs !! h = Some None -> state t <> RUNNING ->
  state t' = RUNNING -> ctx t' <> InForceExit -> cur_ok (<[i := t']> ts) (<[h := Some i]> cs).
Proof.
  intros [H1 H2 H3] Hi Hh Hs Hs' Hc. assert (i < length ts)%nat as Hlt by (by apply lookup_lt_is_Some; exists t).
  assert (h < length cs)%nat as Hlt' by (apply lookup_lt_is_Some; by exists None).
  assert (forall h', cs !! h' <> Some (Some i)) as Hno.
  { intros h' Hh'. destruct (H1 h' i Hh') as (t0 & E & Hr & _). rewrite Hi in E. injection E as <-. done. }
  split.
  - intros h' j Hj. apply lookup_insert_cases in Hj as [(_ & [= <-] & _)|[Hne Hj]].
    + exists t'. by rewrite list_lookup_insert_eq.
    + destruct (H1 h' j Hj) as (tj & Ej & Hr). exists tj. rewrite list_lookup_insert_ne; [done|]. intros <-. by destruct (Hno h').
  - intros h1 h2 j E1 E2.
    apply lookup_insert_cases in E1 as [(-> & E1 & _)|[_ E1]]; apply lookup_insert_cases in E2 as [(-> & E2 & _)|[_ E2]].
    + done.
    + injection E1 as ->. by destruct (Hno h2).
    + injection E2 as ->. by destruct (Hno h1).
    + by apply (H2 _ _ j).
  - intros j tj Hj Hr Hx. apply lookup_insert_cases in Hj as [(-> & -> & _)|[Hne Hj]].
    + exists h. by rewrite list_lookup_insert_eq.
    + destruct (H3 j tj Hj Hr Hx) as (h' & Hh'). exists h'. rewrite list_lookup_insert_ne; [done|]. intros <-. congruence.
Qed.

(** [lost] are tasks that have killed themselves. *)
Section Inv.
Context {lost : nat -> Prop}.

Record inv (ts : list task) (cs : list (option nat)) (np bound : Z) (ex : option nat) : Prop := {
  v_len : length ts = NTASK;
  v_zero : exists t0, ts !! 0%nat = Some t0 /\ parent t0 = None /\ state t0 <> DEAD;
  v_task : forall i t, ts !! i = Some t -> task_ok ts np bound ex i t;
  v_cur : cur_ok ts cs;
  v_ids : ids_ok ts;
  v_np : 1 <= np <= bound + 1;
  v_lost : forall i, lost i -> exists t, ts !! i = Some t /\ ctx t = InForceExit
}.

Lemma inv_weaken ts cs np b b' ex : b <= b' -> inv ts cs np b ex -> inv ts cs np b' ex.
Proof.
  intros Hb [H1 H2 H3 H4 H5 H6 H7]. split; try done; [|lia]. intros i t Hi. eapply task_ok_weaken; [| |by apply H3]; lia.
Qed.

Lemma current_ctx ts cs np b ex h i t : inv ts cs np b ex -> cs !! h = Some (Some i) -> ts !! i = Some t ->
  state t = RUNNING /\ ctx t <> InForceExit.
Proof.
  intros Hinv Hc Ht. destruct (c_run _ _ (v_cur _ _ _ _ _ Hinv) h i Hc) as (t' & Ht' & H). rewrite Ht in Ht'. by injection Ht' as <-.
Qed.

Lemma inv_change ts cs cs' np b ex i t t' : inv ts cs np b ex -> ts !! i = Some t -> change ts np b ex i t t' ->
  cur_ok (<[i := t']> ts) cs' -> inv (<[i := t']> ts) cs' np b ex.
Proof.
  intros [H1 H2 H3 H4 H5 H6 H7] Hi Hc Hcur. pose proof (change_view _ _ _ _ _ _ _ Hi Hc) as Hv.
  destruct Hc as [[Hz Hd] Hid Hp Hl Hok].
  assert (i < length ts)%nat as Hlt by (by apply lookup_lt_is_Some; exists t).
  split; try done.
  - by rewrite length_insert.
  - destruct H2 as (t0 & E0 & Hp0 & Hs0). destruct (decide (i = 0%nat)) as [->|Hne].
    + exists t'. rewrite list_lookup_insert_eq by done. rewrite Hi in E0. injection E0 as <-. rewrite Hp. tauto.
    + exists t0. by rewrite list_lookup_insert_ne.
  - intros j tj Hj. apply (task_ok_view ts); [done|]. apply lookup_insert_cases in Hj as [(-> & -> & _)|[Hne Hj]]; [done|by apply H3].
  - by apply (ids_insert _ _ t); [| | |tauto].
  - intros j Hj. by apply (lost_insert _ _ t), H7.
Qed.

End Inv.
