(* ===== verification/ProcProofs.v ===== *)
(** * The operations of proc.c preserve the invariant of the task table *)
From S2P Require Import Prelude Lock Proc ProcLogic ProcInv.

(** The fields of changed tasks. *)
Ltac fields := cbn [set_id set_state set_killed set_kstack set_ctx set_saved_intena set_entry set_arg set_pagetable
  set_trapframe set_regs set_chan set_parent set_sons_sem set_xstatus set_mmap_obj set_ofile set_cwd set_place set_reg
  upd_value upd_waiting swtched vup
  id state killed kstack ctx saved_intena entry arg pagetable trapframe regs chan parent sons_sem xstatus mmap_obj
  ofile cwd place value waiting] in *.

(** A task that stays well formed when [f]s of its fields change. *)
Ltac task_tac :=
  match goal with
  | H : task_ok _ _ _ _ _ _ |- task_ok _ _ _ _ _ _ => destruct H; split; unfold sem_inv, zok in *; fields; try done
  end.

Section Proofs.
Context {W : Type} `{!Rest W}.
Context {lost : nat -> Prop}.
Abbreviation hoare := (thoare True).
Abbreviation inv := (inv (lost := lost)).
Implicit Types (ts : list task) (cs : list (option nat)) (ls : list (list lock)) (np b : Z) (h i : nat) (t : task).

(** After an operation: no locks are held and the invariant holds. *)
Definition post (b : Z) {A} (a : A) ts cs ls np : Prop := inv ts cs np b None /\ quiet ls.

Lemma quiet_insert ls h l : quiet ls -> others l -> quiet (<[h := l]> ls).
Proof. intros. by apply Forall_insert. Qed.

Lemma post_change {A} (a : A) ts cs cs' ls np b i t t' : inv ts cs np b None -> quiet ls -> ts !! i = Some t ->
  change ts np b None i t t' -> cur_ok (<[i := t']> ts) cs' -> post b a (<[i := t']> ts) cs' ls np.
Proof. intros Hi Hq Ht Hc Hcur. split; [|done]. by apply (inv_change ts cs cs' np b None i t t'). Qed.

(** ** The scheduler *)

Lemma run_change ts np b i t t' : task_ok ts np b None i t -> state t = RUNNABLE ->
  (t' = set_state RUNNING t /\ chan t = 0 \/ t' = set_chan 0 (set_state RUNNING t)) -> change ts np b None i t t'.
Proof.
  intros Hok Hs Ht'. assert (waiting (sons_sem t) = []) as Hw.
  { pose proof (t_sem _ _ _ _ _ _ Hok) as H. unfold sem_inv in H. destruct (waiting (sons_sem t)); [done|].
    destruct H as (_ & _ & H & _). congruence. }
  assert (ctx t <> InForceExit) as Hx by (intros H; apply (t_lost _ _ _ _ _ _ Hok) in H; congruence).
  destruct Ht' as [[-> Hc]| ->]; split; fields; try done.
  - by rewrite Hs.
  - task_tac.
    + by rewrite Hw in *.
    + intros _. apply t_live. congruence.
  - by rewrite Hs.
  - task_tac.
    + by rewrite Hw in *.
    + intros _. apply t_live. congruence.
Qed.

Lemma sched_ok ts cs ls np b h i : inv ts cs np b None -> quiet ls -> cs !! h = Some None -> ls !! h = Some [] ->
  hoare ts cs ls np (scheduler_slot h i) (post b).
Proof.
  intros Hinv Hq Hc Hl. unfold scheduler_slot. apply (hoare_lock _ _ _ _ _ _ []); [done|in_list|].
  apply hoare_rd; [stops|]. intros t Ht. apply hoare_rd; [stops|]. intros t' Ht'. known Ht'.
  pose proof (v_task _ _ _ _ _ Hinv i t Ht) as Hok.
  assert (post b tt ts cs ls np) as Hpost by done.
  destruct (negb (id t =? -1) && bool_decide (state t = RUNNABLE)) eqn:E; cycle 1.
  { apply hoare_last, (hoare_unlock _ _ _ _ h _ [] []); [look|in_list..|]. apply hoare_ret. cbn [app].
    by rewrite list_insert_insert_eq, list_insert_id. }
  apply andb_true_iff in E as [_ Hs%bool_decide_eq_true].
  apply hoare_wr; [stops|]. intros t' Ht'. known Ht'. apply hoare_set_current; [stops|].
  unfold resume. apply hoare_rd; [stops|]. intros t' Ht'. known Ht'. fields.
  pose proof (t_ctx _ _ _ _ _ _ Hok Hs) as Hr.
  assert (forall t' l, (t' = set_state RUNNING t /\ chan t = 0 \/ t' = set_chan 0 (set_state RUNNING t)) ->
    others l ->
    post b tt (<[i := t']> ts) (<[h := Some i]> cs) (<[h := l]> ls) np) as Hfin.
  { intros t' l Ht' Hql. pose proof (run_change _ _ _ _ _ _ Hok Hs Ht') as Hch.
    apply (post_change _ ts cs _ _ np b i t); [done|by apply quiet_insert|done|done|].
    assert (ctx t' = ctx t /\ state t' = RUNNING) as [E1 E2] by (by destruct Ht' as [[-> _]| ->]).
    apply (cur_enter _ _ _ _ t); [by apply (v_cur _ _ _ _ _ Hinv)|done|done|congruence|done|]. rewrite E1. by destruct (ctx t). }
  assert ((forall lk, ctx t <> InSleep lk) -> chan t = 0) as Hchan.
  { intros Hn. destruct (decide (chan t = 0)) as [|Hne]; [done|].
    destruct (t_chan _ _ _ _ _ _ Hok Hne) as (_ & lk & E). by destruct (Hn lk). }
  destruct (ctx t) as [| | | |lk| |lk| |]; try done.
  - unfold ret_entry. eapply hoare_current; [look|].
    apply (hoare_unlock _ _ _ _ h _ [] []); [look|in_list..|]. apply hoare_first. intros f.
    apply (hoare_bind _ _ _ _ _ _ (post b)).
    + rewrite list_insert_insert_eq. destruct f.
      * apply hoare_set_first, hoare_other'. intros []. apply Hfin; auto using others_nil.
      * apply hoare_ret, Hfin; auto using others_nil.
    + intros [] ts' cs' ls' np' Hp. apply hoare_last, hoare_intr; [stops|done|]. by apply hoare_ret.
  - unfold real_entry. eapply hoare_current; [look|].
    apply (hoare_unlock _ _ _ _ h _ [] []); [look|in_list..|]. apply hoare_last, hoare_intr; [stops|intros _; look|].
    apply hoare_ret. rewrite list_insert_insert_eq. apply Hfin; auto using others_nil.
  - apply hoare_restore; [stops|stops|]. apply hoare_last, (hoare_unlock _ _ _ _ h _ [] []); [look|in_list..|].
    apply hoare_ret. rewrite list_insert_insert_eq. apply Hfin; auto using others_nil.
  - apply hoare_restore; [stops|stops|]. apply hoare_wr; [stops|]. intros t' Ht'. known Ht'.
    apply (hoare_unlock _ _ _ _ h _ [] []); [look|in_list..|]. cbn [app].
    apply hoare_last, (hoare_lock _ _ _ _ _ _ []); [look|in_list|]. apply hoare_ret.
    rewrite !list_insert_insert_eq. apply Hfin; [by right|]. apply others_cons; [apply others_nil|in_list].
  - apply hoare_restore; [stops|stops|]. apply hoare_last, (hoare_unlock _ _ _ _ h _ [] []); [look|in_list..|].
    apply hoare_ret. rewrite list_insert_insert_eq. apply Hfin; auto using others_nil.
  - apply hoare_restore; [stops|stops|]. apply hoare_last, (hoare_unlock _ _ _ _ h _ [] []); [look|in_list..|].
    apply hoare_ret. rewrite list_insert_insert_eq. apply Hfin; auto using others_nil.
Qed.

(** ** A running task gives up its hart *)

Lemma running_facts ts np b ex i t : task_ok ts np b ex i t -> state t = RUNNING ->
  waiting (sons_sem t) = [] /\ chan t = 0 /\ 0 <= value (sons_sem t) <= b.
Proof.
  intros Hok Hs. pose proof (t_sem _ _ _ _ _ _ Hok) as H. unfold sem_inv in H.
  destruct (waiting (sons_sem t)); [|destruct H as (_ & _ & H & _); congruence].
  split; [done|]. split; [|done]. destruct (decide (chan t = 0)) as [|Hc]; [done|].
  destruct (t_chan _ _ _ _ _ _ Hok Hc) as [[?|?] _]; congruence.
Qed.

Lemma yield_ok ts cs ls np b h i t : inv ts cs np b None -> quiet ls -> cs !! h = Some (Some i) -> ls !! h = Some [] ->
  ts !! i = Some t -> state t = RUNNING -> hoare ts cs ls np (yield h) (post b).
Proof.
  intros Hinv Hq Hc Hl Ht Hs. pose proof (v_task _ _ _ _ _ Hinv i t Ht) as Hok.
  destruct (running_facts _ _ _ _ _ _ Hok Hs) as (Hw & Hch & _).
  destruct (current_ctx _ _ _ _ _ _ _ _ Hinv Hc Ht) as [_ Hx].
  unfold yield. apply (hoare_current _ _ _ _ _ i); [done|]. apply (hoare_lock _ _ _ _ _ _ []); [done|in_list|].
  apply hoare_wr; [stops|]. intros t' Ht'. known Ht'. apply (hoare_sched _ _ _ _ _ i (set_state RUNNABLE t)); [done|look|look|done|].
  intros b'. rewrite !list_insert_insert_eq. apply (post_change _ _ cs _ _ _ _ _ t); [done|by apply quiet_insert, others_nil|done| |].
  - split; fields; [by rewrite Hs|done|done|congruence|]. task_tac.
    + by rewrite Hw in *.
    + intros _. apply t_live. congruence.
  - by apply (cur_leave _ _ _ _ t); [apply (v_cur _ _ _ _ _ Hinv)|..].
Qed.

Lemma sleep_ok ts cs ls np b h i t ch lk : inv ts cs np b None -> quiet ls -> cs !! h = Some (Some i) ->
  ls !! h = Some [LOther lk] -> ts !! i = Some t -> state t = RUNNING -> hoare ts cs ls np (sleep h ch lk) (post b).
Proof.
  intros Hinv Hq Hc Hl Ht Hs. pose proof (v_task _ _ _ _ _ Hinv i t Ht) as Hok.
  destruct (running_facts _ _ _ _ _ _ Hok Hs) as (Hw & Hch & _).
  destruct (current_ctx _ _ _ _ _ _ _ _ Hinv Hc Ht) as [_ Hx].
  unfold sleep. apply (hoare_mytask' _ _ _ _ _ i); [done|]. apply (hoare_lock _ _ _ _ _ _ [LOther lk]); [done|in_list|].
  apply (hoare_unlock _ _ _ _ h _ [LTask i] []); [look|in_list..|]. cbn [app].
  apply hoare_wr; [stops|]. intros t' Ht'. known Ht'. apply hoare_wr; [stops|]. intros t' Ht'. known Ht'.
  apply (hoare_sched _ _ _ _ _ i (set_state SLEEPING (set_chan ch t))); [done|look|look|done|].
  intros b'. rewrite !list_insert_insert_eq. apply (post_change _ _ cs _ _ _ _ _ t); [done|by apply quiet_insert, others_nil|done| |].
  - split; fields; [by rewrite Hs|done|done|congruence|]. task_tac.
    + by rewrite Hw in *.
    + intros _ _. exists lk. by left.
    + intros _. split; [by left|by exists lk].
    + intros _. apply t_live. congruence.
  - by apply (cur_leave _ _ _ _ t); [apply (v_cur _ _ _ _ _ Hinv)|..].
Qed.

(** ** The semaphores of the other components *)

Lemma P_other_ok ts cs ls np b h i t lk : inv ts cs np b None -> quiet ls -> cs !! h = Some (Some i) ->
  ls !! h = Some [] -> ts !! i = Some t -> state t = RUNNING -> hoare ts cs ls np (lm_P_other h lk) (post b).
Proof.
  intros Hinv Hq Hc Hl Ht Hs. pose proof (v_task _ _ _ _ _ Hinv i t Ht) as Hok.
  destruct (running_facts _ _ _ _ _ _ Hok Hs) as (Hw & Hch & _).
  destruct (current_ctx _ _ _ _ _ _ _ _ Hinv Hc Ht) as [_ Hx].
  unfold lm_P_other. apply (hoare_lock _ _ _ _ _ _ []); [done|in_list|]. apply (hoare_mytask' _ _ _ _ _ i); [done|].
  apply (hoare_lock _ _ _ _ _ _ [LOther lk]); [look|in_list|]. apply hoare_wr; [stops|]. intros t' Ht'. known Ht'.
  apply (hoare_unlock _ _ _ _ h _ [LTask i] []); [look|in_list..|]. cbn [app].
  apply (hoare_sched _ _ _ _ _ i (set_state SLEEPING t)); [done|look|look|done|].
  intros b'. rewrite !list_insert_insert_eq. apply (post_change _ _ cs _ _ _ _ _ t); [done|by apply quiet_insert, others_nil|done| |].
  - split; fields; [by rewrite Hs|done|done|congruence|]. task_tac.
    + by rewrite Hw in *.
    + intros _ _. exists lk. by right.
    + intros _. apply t_live. congruence.
  - by apply (cur_leave _ _ _ _ t); [apply (v_cur _ _ _ _ _ Hinv)|..].
Qed.

Lemma V_other_ok ts cs ls np b h hs u t lk : inv ts cs np b None -> quiet ls -> ls !! h = Some hs -> LOther lk ∉ hs ->
  ts !! u = Some t -> state t = SLEEPING -> ctx t = InPOther lk -> hoare ts cs ls np (lm_V_other h lk u) (post b).
Proof.
  intros Hinv Hq Hl Hlk Ht Hs Hx. pose proof (v_task _ _ _ _ _ Hinv u t Ht) as Hok.
  assert (others hs) as Ho by (by apply (Forall_lookup_1 _ _ _ _ Hq Hl)).
  assert (LTask u ∉ LOther lk :: hs) as Hn by (apply not_elem_of_cons; split; [done|by apply others_not]).
  unfold lm_V_other. apply (hoare_lock _ _ _ _ _ _ hs); [done|done|]. apply (hoare_lock _ _ _ _ _ _ (LOther lk :: hs)); [look|done|].
  apply hoare_wr; [stops|]. intros t' Ht'. known Ht'.
  apply (hoare_unlock _ _ _ _ h _ [] (LOther lk :: hs)); [look|in_list|done|].
  apply hoare_last, (hoare_unlock _ _ _ _ h _ [] hs); [look|in_list|done|]. apply hoare_ret. cbn [app].
  rewrite !list_insert_insert_eq, (list_insert_id ls) by done.
  apply (post_change _ _ cs _ _ _ _ _ t); [done|done|done| |].
  - split; fields; [by rewrite Hs|done|done|congruence|]. task_tac.
    + destruct (waiting (sons_sem t)); [done|]. destruct t_sem as (_ & _ & _ & H & _). congruence.
    + intros _. by rewrite Hx.
    + intros H. destruct (t_chan H) as (_ & n & E). congruence.
    + intros _. apply t_live. congruence.
    + congruence.
  - apply (cur_same _ _ _ t); [apply (v_cur _ _ _ _ _ Hinv)|done| |]; fields; [rewrite Hs; by split|congruence].
Qed.

(** ** [sys_wait] takes a token, or sleeps *)

Lemma P_ok ts cs ls np b h i t : inv ts cs np b None -> quiet ls -> cs !! h = Some (Some i) -> ls !! h = Some [] ->
  ts !! i = Some t -> state t = RUNNING -> b < 2 ^ 31 - 1 ->
  match place t with Out => True | Scan p => (NTASK <= p)%nat end -> hoare ts cs ls np (lm_P h i) (post b).
Proof.
  intros Hinv Hq Hc Hl Ht Hs Hb Hp. pose proof (v_task _ _ _ _ _ Hinv i t Ht) as Hok.
  destruct (running_facts _ _ _ _ _ _ Hok Hs) as (Hw & Hch & Hv).
  destruct (current_ctx _ _ _ _ _ _ _ _ Hinv Hc Ht) as [_ Hx].
  assert (Z.of_nat (zs ts i NTASK) <= value (sons_sem t)) as Hz.
  { pose proof (t_zok _ _ _ _ _ _ Hok) as H. unfold zok in H. destruct (place t) as [|p]; [done|].
    pose proof (zs_mono ts i NTASK p Hp). lia. }
  assert (s32 (value (sons_sem t) - 1) = value (sons_sem t) - 1) as Es by (unfold s32; rewrite Z.mod_small; lia).
  unfold lm_P. apply hoare_wr; [stops|]. intros t' Ht'. known Ht'. apply (hoare_lock _ _ _ _ _ _ []); [done|in_list|].
  apply hoare_rd; [stops|]. intros t' Ht'. known Ht'. apply hoare_wr; [stops|]. intros t' Ht'. known Ht'. apply hoare_rd; [stops|]. intros t' Ht'. known Ht'.
  fields. rewrite Es. destruct (Z.ltb_spec (value (sons_sem t) - 1) 0) as [Hlt|Hge].
  - apply (hoare_mytask' _ _ _ _ _ i); [done|]. apply hoare_rd; [stops|]. intros t' Ht'. known Ht'. apply hoare_wr; [stops|]. intros t' Ht'. known Ht'.
    apply (hoare_lock _ _ _ _ _ _ [LSem i]); [look|in_list|]. apply hoare_wr; [stops|]. intros t' Ht'. known Ht'.
    apply (hoare_unlock _ _ _ _ h _ [LTask i] []); [look|in_list..|]. cbn [app].
    eapply (hoare_sched _ _ _ _ _ i); [done|look|look|done|].
    intros b'. rewrite !list_insert_insert_eq. apply (post_change _ _ cs _ _ _ _ _ t); [done|by apply quiet_insert, others_nil|done| |].
    + split; fields; [by rewrite Hs|done|done|congruence|]. task_tac.
      * rewrite Hw. split_and!; [done|lia|done..].
      * rewrite zs_0. lia.
      * intros _. apply t_live. congruence.
    + by apply (cur_leave _ _ _ _ t); [apply (v_cur _ _ _ _ _ Hinv)|..].
  - apply hoare_last, (hoare_unlock _ _ _ _ h _ [] []); [look|in_list..|]. apply hoare_ret. cbn [app].
    rewrite !list_insert_insert_eq. apply (post_change _ _ cs _ _ _ _ _ t); [done|by apply quiet_insert, others_nil|done| |].
    + split; fields; [done|done|done|congruence|]. task_tac.
      * rewrite Hw. lia.
      * rewrite zs_0. lia.
      * intros H. destruct (t_dead H) as (? & ? & ?). congruence.
      * congruence.
    + by apply (cur_same _ _ _ t); [apply (v_cur _ _ _ _ _ Hinv)|..].
Qed.

(** ** [wakeup] *)

Lemma wakeup_step ts cs np b i t : inv ts cs np b None -> ts !! i = Some t -> state t = SLEEPING -> chan t <> 0 ->
  inv (<[i := set_state RUNNABLE t]> ts) cs np b None.
Proof.
  intros Hinv Ht Hs Hc. pose proof (v_task _ _ _ _ _ Hinv i t Ht) as Hok.
  destruct (t_chan _ _ _ _ _ _ Hok Hc) as (_ & lk & Hx).
  apply (inv_change ts cs cs np b None i t); [done|done| |].
  - split; fields; [by rewrite Hs|done|done|congruence|]. task_tac.
    + destruct (waiting (sons_sem t)); [done|]. destruct t_sem as (_ & _ & _ & H & _). congruence.
    + intros _. by rewrite Hx.
    + intros _. split; [by right|by exists lk].
    + intros _. apply t_live. congruence.
    + congruence.
  - apply (cur_same _ _ _ t); [apply (v_cur _ _ _ _ _ Hinv)|done| |]; fields; [rewrite Hs; by split|congruence].
Qed.

Lemma wakeup_loop_ok h myt ch ls hs np b l : ch <> 0 -> ls !! h = Some hs -> others hs ->
  quiet ls -> forall ts cs, inv ts cs np b None -> hoare ts cs ls np (wakeup_loop h myt ch l) (post b).
Proof.
  intros Hch Hl Hhs Hq. induction l as [|i l IH]; intros ts cs Hinv; cbn [wakeup_loop]; [by apply hoare_ret|].
  apply (hoare_bind _ _ _ _ _ _ (fun _ ts' cs' ls' np' => inv ts' cs' np b None /\ ls' = ls /\ np' = np)).
  - case_bool_decide; [by apply hoare_ret|].
    apply (hoare_lock _ _ _ _ _ _ hs); [done|by apply others_not|].
    apply hoare_rd; [stops|]. intros t Ht. apply hoare_rd; [stops|]. intros t' Ht'. known Ht'.
    apply (hoare_bind _ _ _ _ _ _ (fun _ ts' cs' ls' np' => inv ts' cs' np b None /\ ls' = <[h := LTask i :: hs]> ls /\ np' = np)).
    + destruct (bool_decide (state t = SLEEPING) && (chan t =? ch)) eqn:E; [|by apply hoare_ret].
      apply andb_true_iff in E as [Hs%bool_decide_eq_true Hc%Z.eqb_eq]. apply hoare_wr'; [stops|]. intros t' Ht'. known Ht'.
      split; [|done]. apply (wakeup_step _ _ _ _ _ t); [done..|congruence].
    + intros _ ts' cs' ls' np' (Hi & -> & ->). apply hoare_last, (hoare_unlock _ _ _ _ h _ [] hs); [look|in_list|by apply others_not|].
      apply hoare_ret. split; [done|]. split; [|done]. rewrite list_insert_insert_eq. by apply list_insert_id.
  - intros _ ts' cs' ls' np' (Hi & -> & ->). by apply IH.
Qed.

Lemma wakeup_ok ts cs ls np b h hs ch : inv ts cs np b None -> quiet ls -> ls !! h = Some hs -> (h < length cs)%nat -> ch <> 0 ->
  hoare ts cs ls np (wakeup h ch) (post b).
Proof.
  intros Hinv Hq Hl Hh Hch. unfold wakeup. apply lookup_lt_is_Some in Hh as (o & Ho). apply (hoare_mytask _ _ _ _ _ o); [done|].
  apply (wakeup_loop_ok _ _ _ _ hs); [done..| |done|done]. by apply (Forall_lookup_1 _ _ _ _ Hq Hl).
Qed.

(** ** [sys_kill] *)

Lemma kill_loop_ok h pid ls np b l me : ls !! h = Some [] -> quiet ls ->
  forall ts cs, inv ts cs np b None -> cs !! h = Some (Some me) -> hoare ts cs ls np (kill_loop h pid l) (post b).
Proof.
  intros Hl Hq. induction l as [|i l IH]; intros ts cs Hinv Hc; cbn [kill_loop]; [by apply hoare_ret|].
  apply (hoare_lock _ _ _ _ _ _ []); [done|in_list|]. apply hoare_rd; [stops|]. intros t Ht.
  destruct (Z.eqb_spec (id t) pid) as [E|E]; cycle 1.
  { apply (hoare_unlock _ _ _ _ h _ [] []); [look|in_list..|]. rewrite list_insert_insert_eq, list_insert_id by done. by apply IH. }
  pose proof (v_task _ _ _ _ _ Hinv i t Ht) as Hok.
  unfold force_exit. apply hoare_assoc. apply hoare_wr; [stops|]. intros t' Ht'. known Ht'.
  apply hoare_assoc, hoare_mycpu; [stops|]. intros c E1 E2 _. rewrite Hc in E1. injection E1 as E1. rewrite <- E1.
  case_bool_decide as Ei.
  - injection Ei as ->. apply hoare_assoc.
    apply (hoare_bind _ _ _ _ _ _ (post b)); [|intros [] ???? Hp; do 2 apply hoare_ret_bind; by apply hoare_ret].
    assert (exists t0, ts !! i = Some t0 /\ state t0 = RUNNING /\ ctx t0 <> InForceExit) as (t0 & Et0 & Hr & _)
      by (by apply (c_run _ _ (v_cur _ _ _ _ _ Hinv) h)).
    rewrite Ht in Et0. injection Et0 as <-.
    apply hoare_swtch; [look|stops|stops|]. intros t' Ht'. known Ht'. rewrite !list_insert_insert_eq.
    apply (post_change _ _ cs _ _ _ _ _ t); [done|by apply quiet_insert, others_nil|done| |].
    + split; fields; [done|done|done|congruence|]. task_tac.
      * destruct (waiting (sons_sem t)); [done|]. destruct t_sem as (_ & _ & H & _). congruence.
      * congruence.
      * congruence.
      * intros H. destruct (t_chan H) as [[?|?] _]; congruence.
    + by apply (cur_leave _ _ _ _ t); [apply (v_cur _ _ _ _ _ Hinv)|..].
  - apply hoare_ret_bind, (hoare_unlock _ _ _ _ h _ [] []); [look|in_list..|].
    apply hoare_ret. cbn [app]. rewrite list_insert_insert_eq, (list_insert_id ls) by done.
    apply (post_change _ _ cs _ _ _ _ _ t); [done|done|done| |].
    + split; fields; [done|done|done|congruence|]. by task_tac.
    + by apply (cur_same _ _ _ t); [apply (v_cur _ _ _ _ _ Hinv)|..].
Qed.
End Proofs.
