(* ===== verification/ProcExit.v ===== *)
(** * Birth and death of tasks preserve the invariant of the task table *)
From S2P Require Import Prelude Lock Proc ProcLogic ProcInv ProcProofs.

Section Proofs.
Context {W : Type} `{!Rest W}.
Context {lost : nat -> Prop}.
Abbreviation hoare := (thoare True).
Abbreviation inv := (inv (lost := lost)).
Abbreviation post := (post (lost := lost)).
Implicit Types (ts : list task) (cs : list (option nat)) (ls : list (list lock)) (np b : Z) (h i : nat) (t : task).

(** ** A task whose surroundings change *)

Definition fine (ts : list task) (ex : option nat) (q : nat) : Prop := ex = Some q \/ q = 0%nat \/ alive ts q.

(** No new zombie child. *)
Lemma ok_around ts ts' np b b' ex ex' j t : task_ok ts np b ex j t -> b <= b' ->
  (forall m, zs ts' j m <= zs ts j m)%nat -> (forall q, parent t = Some q -> fine ts ex q -> fine ts' ex' q) ->
  task_ok ts' np b' ex' j t.
Proof.
  intros [H1 H2 H3 H4 H5 H6 H7 H8 H9 H10 H11] Hb Hz Hf. split; try done.
  - unfold sem_inv in *. destruct (waiting (sons_sem t)); [lia|done].
  - unfold zok in *. pose proof (Hz NTASK). destruct (place t) as [|p]; [lia|]. specialize (Hz p). lia.
  - intros q Hq. destruct (H6 q Hq) as [Hn H]. split; [done|]. by apply Hf.
Qed.

(** At most one, and a signal. *)
Lemma ok_vup ts ts' np b ex ex' j t : 0 <= b -> task_ok ts np b ex j t ->
  (forall m, zs ts' j m <= zs ts j m + 1)%nat -> (forall q, parent t = Some q -> fine ts ex q -> fine ts' ex' q) ->
  task_ok ts' np (b + 1) ex' j (vup t).
Proof.
  intros Hb Hok Hz Hf. pose proof (t_parent _ _ _ _ _ _ Hok) as Hp. unfold vup.
  pose proof (t_sem _ _ _ _ _ _ Hok) as Hs. unfold sem_inv in Hs. pose proof (Hz NTASK) as HzN.
  destruct (waiting (sons_sem t)) as [|w ws] eqn:Ew.
  - destruct Hok; split; unfold sem_inv, zok in *; fields; try done.
    + lia.
    + intros H _. by apply t_sleep.
    + destruct (place t) as [|p]; [lia|]. specialize (Hz p). lia.
    + intros q Hq. destruct (Hp q Hq) as [Hn H]. split; [done|]. by apply Hf.
  - destruct Hs as (_ & Hv & Hst & Hc & Hpl & Hch). destruct Hok; split; unfold sem_inv, zok in *; fields; try done.
    + lia.
    + by rewrite Hc.
    + rewrite Hpl in *. rewrite !zs_0 in *. lia.
    + intros q Hq. destruct (Hp q Hq) as [Hn H]. split; [done|]. by apply Hf.
    + intros _. apply t_live. congruence.
    + congruence.
Qed.

Lemma vup_same t : id (vup t) = id t /\ parent (vup t) = parent t /\ ctx (vup t) = ctx t /\ place (vup t) = place t /\
  (waiting (sons_sem t) = [] -> state (vup t) = state t) /\ waiting (sons_sem (vup t)) = [].
Proof. unfold vup. by destruct (waiting (sons_sem t)). Qed.

(** A waiting task sleeps; a signal makes it runnable. *)
Definition sleeps (t : task) : Prop := waiting (sons_sem t) <> [] -> state t = SLEEPING.

Lemma ok_sleeps ts np b ex i t : task_ok ts np b ex i t -> sleeps t.
Proof.
  intros Hok Hw. pose proof (t_sem _ _ _ _ _ _ Hok) as H. unfold sem_inv in H. destruct (waiting (sons_sem t)); [done|]. tauto.
Qed.

Lemma vup_state t s : sleeps t -> s <> SLEEPING -> s <> RUNNABLE -> state (vup t) = s <-> state t = s.
Proof.
  intros Hok H1 H2. unfold sleeps in Hok. unfold vup. destruct (waiting (sons_sem t)); [done|].
  rewrite Hok by done. fields. split; congruence.
Qed.

Lemma vup_cur ts cs i t : sleeps t -> cur_ok ts cs -> ts !! i = Some t -> cur_ok (<[i := vup t]> ts) cs.
Proof.
  intros Hok Hcur Ht. apply (cur_same _ _ _ t); [done..| |].
  - by rewrite (vup_state _ RUNNING Hok).
  - intros _. by rewrite (proj1 (proj2 (proj2 (vup_same t)))).
Qed.

Lemma vup_zomb t j : sleeps t -> zomb j (vup t) = zomb j t.
Proof.
  intros Hok. unfold zomb. rewrite (proj1 (proj2 (vup_same t))). f_equal. apply bool_decide_ext. by apply vup_state.
Qed.

Lemma vup_fine ts ex i t q : sleeps t -> ts !! i = Some t -> fine ts ex q -> fine (<[i := vup t]> ts) ex q.
Proof.
  intros Hok Ht [H|[H|H]]; [by left|by right; left|right; right]. apply (alive_insert ts i t); [done| |done].
  intros (t0 & E & H1 & H2). rewrite Ht in E. injection E as <-.
  split; intros H3; [by apply (vup_state _ DEAD Hok) in H3|by apply (vup_state _ ZOMBIE Hok) in H3].
Qed.

Lemma vup_ids ts i t : sleeps t -> ids_ok ts -> ts !! i = Some t -> ids_ok (<[i := vup t]> ts).
Proof.
  intros Hok Hids Ht. apply (ids_insert _ _ t); [done|done|apply vup_same|]. by rewrite (vup_state _ DEAD Hok).
Qed.

(** ** [exit] *)

Definition zombie (x : Z) (t : task) : task := set_xstatus x (set_state ZOMBIE t).

(** The exiting task without its parent's signal. *)
Lemma zombie_ok ts np b i t x ts' : task_ok ts np b None i t -> state t = RUNNING -> place t = Out -> ctx t <> InForceExit ->
  (forall m, zs ts' i m <= zs ts i m)%nat -> (forall q, parent t = Some q -> fine ts None q -> fine ts' (Some i) q) ->
  task_ok ts' np b (Some i) i (zombie x t).
Proof.
  intros Hok Hs Hp Hc Hz Hf. destruct (running_facts _ _ _ _ _ _ Hok Hs) as (Hw & Hch & Hv).
  pose proof (t_parent _ _ _ _ _ _ Hok) as Hpar.
  unfold zombie. destruct Hok; split; unfold sem_inv, zok in *; fields; try done.
  - by rewrite Hw.
  - pose proof (Hz NTASK). rewrite Hp in *. lia.
  - intros q Hq. destruct (Hpar q Hq) as [Hn H]. split; [done|]. by apply Hf.
  - intros _. apply t_live. congruence.
Qed.

Lemma zombie_zs ts i t x j m : ts !! i = Some t -> state t = RUNNING ->
  (zs (<[i := zombie x t]> ts) j m <= zs ts j m + (if decide (parent t = Some j) then 1 else 0))%nat.
Proof.
  intros Ht Hs. case_decide as Hd; [by apply (zs_le _ _ _ _ _ t)|]. rewrite Nat.add_0_r.
  apply (zs_le0 _ _ _ _ _ t); [done|]. unfold zomb, zombie. fields.
  by rewrite (bool_decide_false (parent t = Some j)), andb_false_r.
Qed.

Lemma zombie_fine ts i t x q : ts !! i = Some t -> fine ts None q -> fine (<[i := zombie x t]> ts) (Some i) q.
Proof.
  intros Ht [[=]|[H|(tq & Hq & H)]]; [by right; left|]. destruct (decide (q = i)) as [->|Hne]; [by left|].
  right. right. exists tq. by rewrite list_lookup_insert_ne.
Qed.

Lemma zombie_inv ts cs np b h i t x : inv ts cs np b None -> cs !! h = Some (Some i) -> ts !! i = Some t -> state t = RUNNING ->
  place t = Out -> ctx t <> InForceExit ->
  match parent t with
  | None => inv (<[i := zombie x t]> ts) (<[h := None]> cs) np b (Some i)
  | Some p => forall tp, ts !! p = Some tp -> inv (<[p := vup tp]> (<[i := zombie x t]> ts)) (<[h := None]> cs) np (b + 1) (Some i)
  end.
Proof.
  intros Hinv Hh Ht Hs Hpl Hc. pose proof (v_task _ _ _ _ _ Hinv i t Ht) as Hok.
  assert (i < length ts)%nat as Hi by (by apply lookup_lt_is_Some; exists t).
  assert (cur_ok (<[i := zombie x t]> ts) (<[h := None]> cs)) as Hcur
    by (by apply (cur_leave _ _ _ _ t); [apply (v_cur _ _ _ _ _ Hinv)|..]).
  pose proof (t_parent _ _ _ _ _ _ Hok) as Hpar.
  assert (forall q, fine ts None q -> fine (<[i := zombie x t]> ts) (Some i) q) as Hf by (intros q; by apply zombie_fine).
  destruct (v_zero _ _ _ _ _ Hinv) as (t0 & Et0 & Hp0 & Hs0).
  destruct (parent t) as [p|] eqn:Ep.
  - intros tp Hp. destruct (Hpar p eq_refl) as [Hpi _].
    pose proof (v_task _ _ _ _ _ Hinv p tp Hp) as Hokp.
    assert (<[i := zombie x t]> ts !! p = Some tp) as Hp' by (by rewrite list_lookup_insert_ne).
    pose proof (ok_sleeps _ _ _ _ _ _ Hokp) as Hsl.
    assert (forall q, fine ts None q -> fine (<[p := vup tp]> (<[i := zombie x t]> ts)) (Some i) q) as Hf2
      by (intros q Hq; by apply vup_fine, Hf).
    assert (forall j m, (zs (<[p := vup tp]> (<[i := zombie x t]> ts)) j m <= zs ts j m + (if decide (j = p) then 1 else 0))%nat) as Hz.
    { intros j m. rewrite (zs_same j _ p m tp); [|done|by apply vup_zomb].
      pose proof (zombie_zs ts i t x j m Ht Hs) as Hz. rewrite Ep in Hz. repeat case_decide; try lia. congruence. }
    destruct Hinv as [V1 V2 V3 V4 V5 V6 V7]. split.
    + by rewrite !length_insert.
    + destruct (decide (p = 0%nat)) as [->|Hn].
      * exists (vup t0). rewrite Et0 in Hp. injection Hp as <-. rewrite list_lookup_insert_eq by (rewrite length_insert; by eapply lookup_lt_Some).
        split; [done|]. rewrite (proj1 (proj2 (vup_same t0))). split; [done|].
        intros H. by apply (vup_state _ DEAD Hsl) in H.
      * destruct (decide (i = 0%nat)) as [->|Hn']; [congruence|]. exists t0. by rewrite !list_lookup_insert_ne.
    + intros j tj Hj. apply lookup_insert_cases in Hj as [(-> & -> & _)|[Hne Hj]].
      { apply (ok_vup ts _ _ _ None); [lia|done| |auto]. intros m. specialize (Hz p m). case_decide; lia. }
      apply lookup_insert_cases in Hj as [(-> & -> & _)|[Hne' Hj]].
      { apply (task_ok_weaken _ np np b); [lia|lia|]. apply (zombie_ok ts); try done; [|auto].
        intros m. specialize (Hz i m). rewrite decide_False in Hz by done. lia. }
      apply (ok_around ts _ _ b _ None); [by apply V3|lia| |auto].
      intros m. specialize (Hz j m). rewrite decide_False in Hz by done. lia.
    + by apply vup_cur.
    + apply vup_ids; [done| |done]. by apply (ids_insert _ _ t); [| | |fields; rewrite Hs].
    + lia.
    + intros k Hk. apply (lost_insert _ _ tp); [done|by rewrite (proj1 (proj2 (proj2 (vup_same tp))))|].
      apply (lost_insert _ _ t); [done|done|by apply V7].
  - assert (forall j m, (zs (<[i := zombie x t]> ts) j m <= zs ts j m)%nat) as Hz.
    { intros j m. pose proof (zombie_zs ts i t x j m Ht Hs) as Hz. rewrite Ep in Hz. rewrite decide_False in Hz by done. lia. }
    destruct Hinv as [V1 V2 V3 V4 V5 V6 V7]. split; try done.
    + by rewrite length_insert.
    + destruct (decide (i = 0%nat)) as [->|Hn'].
      * exists (zombie x t). by rewrite list_lookup_insert_eq.
      * exists t0. by rewrite list_lookup_insert_ne.
    + intros j tj Hj. apply lookup_insert_cases in Hj as [(-> & -> & _)|[Hne' Hj]].
      * by apply (zombie_ok ts); [..|auto].
      * apply (ok_around ts _ _ b _ None); [by apply V3|lia|auto|auto].
    + by apply (ids_insert _ _ t); [| | |fields; rewrite Hs].
    + intros k Hk. apply (lost_insert _ _ t); [done|done|by apply V7].
Qed.

(** ** [reparent] *)

Lemma adopt_inv ts cs np b x p tp t0 : inv ts cs np b (Some x) -> ts !! p = Some tp -> parent tp = Some x -> ts !! 0%nat = Some t0 ->
  inv (<[0%nat := vup t0]> (<[p := set_parent (Some 0%nat) tp]> ts)) cs np (b + 1) (Some x).
Proof.
  intros Hinv Hp Hpx H0. pose proof (v_task _ _ _ _ _ Hinv p tp Hp) as Hokp. pose proof (v_task _ _ _ _ _ Hinv _ _ H0) as Hok0.
  destruct (v_zero _ _ _ _ _ Hinv) as (t0' & Et0 & Hp0 & Hs0). rewrite H0 in Et0. injection Et0 as <-.
  assert (p <> 0%nat) as Hne by (intros ->; congruence). pose proof (ok_sleeps _ _ _ _ _ _ Hok0) as Hsl.
  set (ts1 := <[p := set_parent (Some 0%nat) tp]> ts).
  assert (ts1 !! 0%nat = Some t0) as H01 by (unfold ts1; by rewrite list_lookup_insert_ne).
  assert (forall j m, (zs (<[0%nat := vup t0]> ts1) j m <= zs ts j m + (if decide (j = 0%nat) then 1 else 0))%nat) as Hz.
  { intros j m. rewrite (zs_same j _ 0%nat m t0); [|done|by apply vup_zomb].
    case_decide as Hd; [by apply (zs_le _ _ _ _ _ tp)|]. rewrite Nat.add_0_r.
    apply (zs_le0 _ _ _ _ _ tp); [done|]. unfold zomb. fields.
    by rewrite (bool_decide_false (Some 0%nat = Some j)), andb_false_r by congruence. }
  assert (forall q, fine ts (Some x) q -> fine (<[0%nat := vup t0]> ts1) (Some x) q) as Hf.
  { intros q Hq. apply vup_fine; [done|done|]. destruct Hq as [H|[H|H]]; [by left|by right; left|right; right].
    apply (alive_insert ts p tp); [done| |done].
    intros (t' & E & Hst). rewrite Hp in E. injection E as <-. done. }
  destruct Hinv as [V1 V2 V3 V4 V5 V6 V7]. split.
  - unfold ts1. by rewrite !length_insert.
  - exists (vup t0). rewrite list_lookup_insert_eq by (by eapply lookup_lt_Some). split; [done|].
    rewrite (proj1 (proj2 (vup_same t0))). split; [done|]. intros H. by apply (vup_state _ DEAD Hsl) in H.
  - intros j tj Hj. apply lookup_insert_cases in Hj as [(-> & -> & _)|[Hnj Hj]].
    { apply (ok_vup ts _ _ _ (Some x)); [lia|done| |auto]. intros m. specialize (Hz 0%nat m). case_decide; lia. }
    assert (forall m, zs (<[0%nat := vup t0]> ts1) j m <= zs ts j m)%nat as Hzj.
    { intros m. specialize (Hz j m). rewrite decide_False in Hz by done. lia. }
    apply lookup_insert_cases in Hj as [(-> & -> & _)|[Hnj' Hj]].
    { pose proof (ok_around ts _ np b (b + 1) _ (Some x) p tp Hokp ltac:(lia) Hzj ltac:(auto)) as Hok. task_tac.
      - intros q [= <-]. split; [done|]. by right; left.
      - intros H. destruct (t_dead H) as (? & ? & ?). congruence. }
    apply (ok_around ts _ _ b _ (Some x)); [by apply V3|lia|done|auto].
  - apply vup_cur; [done| |done]. by apply (cur_same _ _ _ tp).
  - apply vup_ids; [done| |done]. by apply (ids_insert _ _ tp).
  - lia.
  - intros k Hk. apply (lost_insert _ _ t0); [done|by rewrite (proj1 (proj2 (proj2 (vup_same t0))))|].
    apply (lost_insert _ _ tp); [done|done|by apply V7].
Qed.

Lemma sem_inv_ok b i t : sem_inv b i t -> b < 2 ^ 31 - 1 -> sem_ok i (sons_sem t).
Proof. unfold sem_inv, sem_ok. intros H Hb. destruct (waiting (sons_sem t)); [lia|tauto]. Qed.

Definition is_zombie ts (x : nat) : Prop := exists z, ts !! x = Some z /\ state z = ZOMBIE.
Definition child_of ts (x j : nat) : Prop := exists t, ts !! j = Some t /\ parent t = Some x.

Lemma reparent_loop_ok h x cs cs' ls np l : ls !! h = Some [LWait; LTask x] ->
  forall ts b, inv ts cs' np b (Some x) -> is_zombie ts x -> b + Z.of_nat (length l) < 2 ^ 31 - 1 ->
  hoare ts cs ls np (reparent_loop h x l) (fun _ ts1 cs1 ls1 np1 => cs1 = cs /\ ls1 = ls /\ np1 = np /\
    inv ts1 cs' np (b + Z.of_nat (length l)) (Some x) /\ is_zombie ts1 x /\
    forall j, child_of ts1 x j -> x = 0%nat \/ ((j ∉ l) /\ child_of ts x j)).
Proof.
  intros Hl. induction l as [|p l IH]; intros ts b Hinv Hz Hb; cbn [reparent_loop].
  { apply hoare_ret. rewrite Z.add_0_r. split_and!; try done. intros j Hj. right. split; [apply not_elem_of_nil|done]. }
  cbn [length] in *.
  apply (hoare_bind _ _ _ _ _ _ (fun _ ts1 cs1 ls1 np1 => cs1 = cs /\ ls1 = ls /\ np1 = np /\ inv ts1 cs' np (b + 1) (Some x) /\
    is_zombie ts1 x /\ forall j, child_of ts1 x j -> x = 0%nat \/ j <> p /\ child_of ts x j)).
  2: { intros _ ts1 cs1 ls1 np1 (-> & -> & -> & Hinv1 & Hz1 & Hch). eapply hoare_weaken; [apply (IH ts1 (b + 1)); [done..|lia]|].
       cbv beta. intros _ ts2 cs2 ls2 np2 (-> & -> & -> & Hinv2 & Hz2 & Hch2). split_and!; try done.
       - eapply inv_weaken; [|exact Hinv2]. lia.
       - intros j Hj. destruct (Hch2 j Hj) as [H|[Hnl Hj1]]; [by left|]. destruct (Hch j Hj1) as [H|[Hne Hj0]]; [by left|].
         right. split; [|done]. by apply not_elem_of_cons. }
  assert (forall j, child_of ts x j -> j <> x) as Hself.
  { intros j (t & Ht & Hp). destruct (t_parent _ _ _ _ _ _ (v_task _ _ _ _ _ Hinv j t Ht) x Hp). done. }
  assert (inv ts cs' np (b + 1) (Some x)) as Hinv' by (eapply inv_weaken; [|exact Hinv]; lia).
  destruct (Nat.eqb_spec p x) as [->|Hpx].
  { apply hoare_ret. split_and!; try done. intros j Hj. right. split; [by apply Hself|done]. }
  apply hoare_rd; [stops|]. intros tp Hp. case_bool_decide as Hpar; cycle 1.
  { apply hoare_ret. split_and!; try done. intros j (tj & Hj & Hjx). right. split; [|by exists tj]. intros ->. congruence. }
  apply hoare_wr; [stops|]. intros tp' Hp'. known Hp'.
  destruct (v_zero _ _ _ _ _ Hinv) as (t0 & H0 & Hp0 & Hs0).
  assert (p <> 0%nat) as Hne by (intros ->; congruence).
  pose proof (v_task _ _ _ _ _ Hinv _ _ H0) as Hok0. pose proof (ok_sleeps _ _ _ _ _ _ Hok0) as Hsl.
  destruct Hz as (z & Hxz & Hz).
  apply hoare_last, (hoare_V _ _ _ _ _ _ t0 [LWait; LTask x]); [done|by rewrite list_lookup_insert_ne|apply (sem_inv_ok b); [apply Hok0|lia]|in_list| |].
  { intros Hw. specialize (Hsl Hw). apply not_elem_of_cons. split; [done|]. apply not_elem_of_cons. split; [|apply not_elem_of_nil].
    intros [= <-]. congruence. }
  apply hoare_ret. split_and!; try done.
  - by apply adopt_inv.
  - destruct (decide (x = 0%nat)) as [->|Hx0].
    + exists (vup t0). rewrite list_lookup_insert_eq by (rewrite length_insert; by eapply lookup_lt_Some). split; [done|].
      apply vup_state; try done. congruence.
    + exists z. by rewrite !list_lookup_insert_ne.
  - intros j (tj & Hj & Hjx). apply lookup_insert_cases in Hj as [(-> & -> & _)|[Hn0 Hj]].
    { rewrite (proj1 (proj2 (vup_same t0))) in Hjx. congruence. }
    apply lookup_insert_cases in Hj as [(-> & -> & _)|[Hnp Hj]]; [fields; injection Hjx as <-; by left|].
    right. split; [done|by exists tj].
Qed.

Lemma inv_drop ts cs np b x : inv ts cs np b (Some x) -> (forall j, child_of ts x j -> x = 0%nat) -> inv ts cs np b None.
Proof.
  intros [V1 V2 V3 V4 V5 V6 V7] Hc. split; try done. intros j t Hj. pose proof (V3 j t Hj) as Hok.
  apply (ok_around ts _ _ b _ (Some x)); [done|lia|done|]. intros q Hq [[= ->]|[H|H]]; [|by right; left|by right; right].
  right. left. apply (Hc j). by exists t.
Qed.

Lemma exit_ok ts cs ls np b h i t x : inv ts cs np b None -> quiet ls -> cs !! h = Some (Some i) -> ls !! h = Some [] ->
  ts !! i = Some t -> place t = Out -> b + Z.of_nat NTASK + 1 < 2 ^ 31 - 1 ->
  hoare ts cs ls np (exit h x) (post (b + Z.of_nat NTASK + 1)).
Proof.
  intros Hinv Hq Hc Hl Ht Hpl Hb. destruct (c_run _ _ (v_cur _ _ _ _ _ Hinv) h i Hc) as (t' & Ht' & Hs & Hx). known Ht'.
  pose proof (v_task _ _ _ _ _ Hinv i t Ht) as Hok. pose proof (v_len _ _ _ _ _ Hinv) as Hlen.
  unfold exit. apply (hoare_current _ _ _ _ _ i); [done|]. apply (hoare_lock _ _ _ _ _ _ []); [done|in_list|].
  apply hoare_wr; [stops|]. intros t' Ht'. known Ht'. apply hoare_wr; [stops|]. intros t' Ht'. known Ht'.
  apply (hoare_lock _ _ _ _ _ _ [LTask i]); [look|in_list|]. apply hoare_rd; [stops|]. intros t' Ht'. known Ht'.
  rewrite !list_insert_insert_eq. change (set_xstatus (s32 x) (set_state ZOMBIE t)) with (zombie (s32 x) t).
  change (parent (zombie (s32 x) t)) with (parent t).
  pose proof (zombie_inv ts cs np b h i t (s32 x) Hinv Hc Ht Hs Hpl Hx) as Hz.
  assert (i < length ts)%nat as Hi by (by eapply lookup_lt_Some).
  apply (hoare_bind _ _ _ _ _ _ (fun _ ts1 cs1 ls1 np1 => cs1 = cs /\ ls1 = <[h := [LWait; LTask i]]> ls /\ np1 = np /\
    inv ts1 (<[h := None]> cs) np (b + 1) (Some i) /\ is_zombie ts1 i)).
  { destruct (parent t) as [p|] eqn:Ep.
    - destruct (t_parent _ _ _ _ _ _ Hok p Ep) as [Hpi _].
      destruct (lookup_lt_is_Some_2 ts p) as (tp & Hp).
      { destruct (t_parent _ _ _ _ _ _ Hok p Ep) as (_ & [[=]|[->|(tq & Hq' & _)]]); [rewrite Hlen; unfold NTASK; lia|by eapply lookup_lt_Some]. }
      pose proof (v_task _ _ _ _ _ Hinv p tp Hp) as Hokp.
      apply hoare_last, (hoare_V _ _ _ _ _ _ tp [LWait; LTask i]); [look|by rewrite list_lookup_insert_ne| |in_list|intros _; in_list|].
      { apply (sem_inv_ok b); [apply Hokp|lia]. }
      apply hoare_ret. split_and!; try done; [by apply Hz|]. exists (zombie (s32 x) t).
      by rewrite list_lookup_insert_ne, list_lookup_insert_eq.
    - apply hoare_ret. split_and!; try done; [eapply inv_weaken; [|exact Hz]; lia|]. exists (zombie (s32 x) t). by rewrite list_lookup_insert_eq. }
  intros _ ts1 cs1 ls1 np1 (-> & -> & -> & Hinv1 & Hz1).
  apply (hoare_bind _ _ _ _ _ _ (fun _ ts2 cs2 ls2 np2 => cs2 = cs /\ ls2 = <[h := [LWait; LTask i]]> ls /\ np2 = np /\
    inv ts2 (<[h := None]> cs) np (b + Z.of_nat NTASK + 1) None /\ is_zombie ts2 i)).
  { unfold reparent. eapply hoare_weaken.
    - apply (reparent_loop_ok _ _ _ (<[h := None]> cs)); [look|exact Hinv1|done|rewrite length_seq; lia].
    - cbv beta. intros _ ts2 cs2 ls2 np2 (-> & -> & -> & Hinv2 & Hz2 & Hch). split_and!; try done.
      rewrite length_seq in Hinv2. apply (inv_drop _ _ _ _ i); [eapply inv_weaken; [|exact Hinv2]; lia|].
      intros j Hj. destruct (Hch j Hj) as [H|[Hn _]]; [done|]. exfalso. apply Hn, elem_of_seq.
      destruct Hj as (tj & Hj & _). apply lookup_lt_Some in Hj. rewrite (v_len _ _ _ _ _ Hinv2) in Hj. lia. }
  intros _ ts2 cs2 ls2 np2 (-> & -> & -> & Hinv2 & (z & Hzi & Hsz)).
  apply (hoare_unlock _ _ _ _ h _ [] [LTask i]); [look|in_list..|]. cbn [app]. rewrite list_insert_insert_eq.
  apply hoare_swtch; [look|stops|stops|]. intros t' Ht'. known Ht'. rewrite list_insert_insert_eq.
  apply (post_change _ _ (<[h := None]> cs) _ _ _ _ _ z); [done|by apply quiet_insert, others_nil|done| |].
  - pose proof (v_task _ _ _ _ _ Hinv2 i z Hzi) as Hokz.
    split; fields; [done|done|done|intros H; apply (t_lost _ _ _ _ _ _ Hokz) in H; congruence|]. task_tac.
    + destruct (waiting (sons_sem z)); [done|]. destruct t_sem as (_ & _ & H & _). congruence.
    + congruence.
    + congruence.
    + intros H. destruct (t_chan H) as [[?|?] _]; congruence.
  - apply (cur_same _ _ _ z); [by apply (v_cur _ _ _ _ _ Hinv2)|done|done|congruence].
Qed.
End Proofs.

(** ** [sys_wait] frees tasks and [sys_fork] makes them *)

Section Proofs.
Context {W : Type} `{!Rest W}.
Context {lost : nat -> Prop}.
Abbreviation hoare := (thoare True).
Abbreviation inv := (inv (lost := lost)).
Abbreviation post := (post (lost := lost)).
Implicit Types (ts : list task) (cs : list (option nat)) (ls : list (list lock)) (np b : Z) (h i : nat) (t : task).

(** ** [free_task] *)

Lemma freed_inv ts cs np b p tp x : inv ts cs np b None -> ts !! p = Some tp -> state tp = ZOMBIE -> parent tp = Some x ->
  inv (<[p := freed tp]> ts) cs np b None /\
  (zs (<[p := freed tp]> ts) x NTASK + 1 = zs ts x NTASK)%nat.
Proof.
  intros Hinv Hp Hs Hpx. pose proof (v_task _ _ _ _ _ Hinv p tp Hp) as Hok.
  assert (p < length ts)%nat as Hlt by (by eapply lookup_lt_Some).
  assert (forall j, zomb j (freed tp) = false) as Hz0 by done.
  assert (forall j m, (zs (<[p := freed tp]> ts) j m <= zs ts j m)%nat) as Hz by (intros j m; by apply (zs_le0 _ _ _ _ _ tp)).
  assert (forall q, fine ts None q -> fine (<[p := freed tp]> ts) None q) as Hf.
  { intros q [H|[H|H]]; [done|by right; left|right; right]. apply (alive_insert ts p tp); [done| |done].
    intros (t0 & E & _ & H0). rewrite Hp in E. injection E as <-. done. }
  split.
  - destruct Hinv as [V1 V2 V3 V4 V5 V6 V7]. split; try done.
    + by rewrite length_insert.
    + destruct V2 as (t0 & E0 & Hp0 & Hs0). exists t0. rewrite list_lookup_insert_ne; [done|]. intros ->. congruence.
    + intros j tj Hj. apply lookup_insert_cases in Hj as [(-> & -> & _)|[Hne Hj]].
      * destruct Hok; split; unfold freed, sem_inv, zok in *; fields; try done.
        -- destruct (waiting (sons_sem tp)); [done|]. destruct t_sem as (_ & _ & H & _). congruence.
        -- intros H. destruct (t_chan H) as [[?|?] _]; congruence.
        -- rewrite (t_zombie Hs) in *. specialize (Hz p NTASK). unfold freed in Hz. lia.
        -- intros _. split; [done|]. split; [done|by apply t_zombie].
        -- intros H. specialize (t_lost H). congruence.
      * apply (ok_around ts _ _ b _ None); [by apply V3|lia|auto|auto].
    + apply (cur_same _ _ _ tp); [done..| |]; unfold freed; fields; [by rewrite Hs|congruence].
    + intros j k tj tk Hj Hk Hsj Hid.
      apply lookup_insert_cases in Hj as [(-> & -> & _)|[Hne Hj]]; [done|].
      apply lookup_insert_cases in Hk as [(-> & -> & _)|[Hne' Hk]]; [|by apply (V5 _ _ tj tk)].
      pose proof (t_live _ _ _ _ _ _ (V3 j tj Hj) Hsj) as H. unfold freed in Hid. fields. lia.
    + intros k Hk. apply (lost_insert _ _ tp); [done|done|by apply V7].
  - pose proof (zs_insert x (freed tp) ts p NTASK tp Hp) as H. rewrite Hz0 in H. cbn [andb] in H.
    assert (zomb x tp = true) as E by (unfold zomb; by rewrite Hs, Hpx, !bool_decide_true). rewrite E in H. cbn [andb] in H.
    rewrite (proj2 (Nat.ltb_lt p NTASK)) in H by (rewrite <- (v_len _ _ _ _ _ Hinv); done). lia.
Qed.

(** ** A round of [sys_wait] *)

(** A running task only changes its registers and its place. *)
Lemma place_inv ts cs np b i t t' : inv ts cs np b None -> ts !! i = Some t -> state t = RUNNING ->
  (exists r pl, t' = set_place pl (set_regs r t)) -> zok ts i t' -> inv (<[i := t']> ts) cs np b None.
Proof.
  intros Hinv Ht Hs (r & pl & ->) Hz. pose proof (v_task _ _ _ _ _ Hinv i t Ht) as Hok.
  destruct (running_facts _ _ _ _ _ _ Hok Hs) as (Hw & Hch & Hv).
  apply (inv_change ts cs cs np b None i t); [done|done| |].
  - split; [done|done|done|done|]. task_tac.
    + by rewrite Hw in *.
    + intros H. destruct (t_dead H) as (? & ? & ?). congruence.
    + congruence.
  - by apply (cur_same _ _ _ t); [apply (v_cur _ _ _ _ _ Hinv)|..].
Qed.

Lemma wait_slot_ok ts cs ls np b h i t p : inv ts cs np b None -> quiet ls -> cs !! h = Some (Some i) -> ls !! h = Some [] ->
  ts !! i = Some t -> place t = Scan p -> (p < NTASK)%nat -> hoare ts cs ls np (wait_slot h i p) (post b).
Proof.
  intros Hinv Hq Hc Hl Ht Hpl Hp. destruct (c_run _ _ (v_cur _ _ _ _ _ Hinv) h i Hc) as (t' & Ht' & Hs & Hx). known Ht'.
  pose proof (v_task _ _ _ _ _ Hinv i t Ht) as Hok. pose proof (t_zok _ _ _ _ _ _ Hok) as Hz. unfold zok in Hz. rewrite Hpl in Hz.
  destruct (running_facts _ _ _ _ _ _ Hok Hs) as (Hw & Hch & Hv).
  assert (i < length ts)%nat as Hi by (by eapply lookup_lt_Some).
  assert (forall tp, ts !! p = Some tp -> zomb i tp = false -> inv (<[i := set_place (Scan (S p)) t]> ts) cs np b None) as Hnext.
  { intros tp Htp Hzp. apply (place_inv _ _ _ _ _ t); [done..| |].
    - exists (regs t), (Scan (S p)). by destruct t.
    - unfold zok. fields. rewrite (zs_S _ _ _ tp Htp), Hzp. lia. }
  destruct (lookup_lt_is_Some_2 ts p) as (tp & Htp); [by rewrite (v_len _ _ _ _ _ Hinv)|].
  destruct (zomb i tp) eqn:Hzp.
  { unfold zomb in Hzp. apply andb_true_iff in Hzp as [Hsp%bool_decide_eq_true Hpar%bool_decide_eq_true].
    assert (p <> i) as Hpi by (intros ->; congruence).
    apply (hoare_reap _ _ _ _ _ _ t tp); [done..|]. split; [|done].
    destruct (freed_inv ts cs np b p tp i Hinv Htp Hsp Hpar) as [Hinv1 Hz1].
    apply (place_inv _ _ _ _ _ t); [done|by rewrite list_lookup_insert_ne|done| |].
    - by eexists _, Out.
    - unfold zok. fields. lia. }
  specialize (Hnext tp Htp Hzp).
  unfold wait_slot. apply (hoare_lock _ _ _ _ _ _ []); [done|in_list|]. apply hoare_rd; [stops|]. intros tp' Htp'. known Htp'.
  case_bool_decide as Hsp; cycle 1.
  { apply (hoare_unlock _ _ _ _ h _ [] []); [look|in_list..|]. cbn [app]. rewrite list_insert_insert_eq, (list_insert_id ls) by done.
    apply hoare_wr'; [stops|]. intros t' Ht'. known Ht'. by split. }
  apply (hoare_lock _ _ _ _ _ _ [LTask p]); [look|in_list|]. apply hoare_rd; [stops|]. intros tp' Htp'. known Htp'.
  rewrite bool_decide_false by (intros Hpar; unfold zomb in Hzp; by rewrite Hsp, Hpar, !bool_decide_true in Hzp).
  apply (hoare_unlock _ _ _ _ h _ [] [LTask p]); [look|in_list..|].
  apply (hoare_unlock _ _ _ _ h _ [] []); [look|in_list..|]. cbn [app]. rewrite !list_insert_insert_eq, (list_insert_id ls) by done.
  apply hoare_wr'; [stops|]. intros t' Ht'. known Ht'. by split.
Qed.

(** ** [sys_fork] *)

(** The new task of a free slot. *)
Lemma birth_inv ts cs np b i t t' : inv ts cs np b None -> ts !! i = Some t -> state t = DEAD ->
  state t' = RUNNABLE -> ctx t' = RetEntry -> id t' = np -> place t' = Out -> sons_sem t' = mkSem 0 [] -> chan t' = 0 ->
  (exists q, parent t' = Some q /\ alive ts q) -> inv (<[i := t']> ts) cs (np + 1) (b + 1) None.
Proof.
  intros Hinv Ht Hd Hs Hc Hid Hpl Hsem Hch (q & Hq & Haq). pose proof (v_task _ _ _ _ _ Hinv i t Ht) as Hok.
  destruct (t_dead _ _ _ _ _ _ Hok Hd) as (Hid0 & Hp0 & _).
  assert (i < length ts)%nat as Hi by (by eapply lookup_lt_Some).
  assert (forall j m, (zs (<[i := t']> ts) j m <= zs ts j m)%nat) as Hz.
  { intros j m. apply (zs_le0 _ _ _ _ _ t); [done|]. unfold zomb. by rewrite Hs. }
  assert (forall k, alive ts k -> alive (<[i := t']> ts) k) as Ha.
  { intros k Hk. apply (alive_insert ts i t); [done| |done]. intros _. by rewrite Hs. }
  destruct Hinv as [V1 V2 V3 V4 V5 V6 V7]. split.
  - by rewrite length_insert.
  - destruct V2 as (t0 & E0 & Hp00 & Hs0). exists t0. rewrite list_lookup_insert_ne; [done|]. intros ->. congruence.
  - intros j tj Hj. apply lookup_insert_cases in Hj as [(-> & -> & _)|[Hne Hj]].
    + assert (zs ts i NTASK = 0%nat) as Hz0.
      { apply zs_zero. intros j tj Hj Hsj Hpj. destruct (t_parent _ _ _ _ _ _ (V3 j tj Hj) i Hpj) as (_ & [[=]|[->|H]]).
        - destruct V2 as (t0 & E0 & _ & Hs0). congruence.
        - destruct H as (t0 & E0 & H1 & _). congruence. }
      split; rewrite ?Hs; try done.
      * unfold sem_inv. rewrite Hsem. fields. lia.
      * by rewrite Hc.
      * unfold zok. rewrite Hpl, Hsem. fields. specialize (Hz i NTASK). lia.
      * intros k Hk. rewrite Hq in Hk. injection Hk as <-. split; [|right; right; by apply Ha].
        intros ->. destruct Haq as (t0 & E0 & H1 & _). congruence.
      * intros _. lia.
      * by rewrite Hc.
    + apply (task_ok_weaken _ np _ (b + 1)); [lia|lia|]. apply (ok_around ts _ _ b _ None); [by apply V3|lia|auto|].
      intros k _ [H|[H|H]]; [done|by right; left|right; right; by apply Ha].
  - apply (cur_same _ _ _ t); [done..| |]; rewrite ?Hd, ?Hs; [by split|done].
  - intros j k tj tk Hj Hk Hsj Hidj.
    apply lookup_insert_cases in Hj as [(-> & -> & _)|[Hne Hj]]; apply lookup_insert_cases in Hk as [(-> & -> & _)|[Hne' Hk]]; [done|..].
    + destruct (decide (state tk = DEAD)) as [Hk0|Hk0].
      * destruct (t_dead _ _ _ _ _ _ (V3 k tk Hk) Hk0) as (H & _). lia.
      * pose proof (t_live _ _ _ _ _ _ (V3 k tk Hk) Hk0). lia.
    + pose proof (t_live _ _ _ _ _ _ (V3 j tj Hj) Hsj). lia.
    + by apply (V5 _ _ tj tk).
  - lia.
  - intros k Hk. apply (lost_insert _ _ t); [done| |by apply V7]. intros H. apply (t_lost _ _ _ _ _ _ Hok) in H. congruence.
Qed.

Lemma fork_ok ts cs ls np b h i : inv ts cs np b None -> quiet ls -> cs !! h = Some (Some i) -> ls !! h = Some [] ->
  b < 2 ^ 31 - 2 -> hoare ts cs ls np (sys_fork h) (post (b + 1)).
Proof.
  intros Hinv Hq Hc Hl Hb. destruct (c_run _ _ (v_cur _ _ _ _ _ Hinv) h i Hc) as (t & Ht & Hs & Hx).
  pose proof (v_np _ _ _ _ _ Hinv) as Hnp.
  assert (i < length ts)%nat as Hi by (by eapply lookup_lt_Some).
  apply (hoare_fork _ _ _ _ i t); [done..|congruence|lia|by left|].
  intros j n p pt o ws Hj Hd _ Hij. pose proof (v_task _ _ _ _ _ Hinv j n Hj) as Hok.
  set (t2 := set_reg A0 np t). split; [|done].
  apply (birth_inv _ _ _ _ _ n); try done.
  - apply (place_inv _ _ _ _ _ t); [done..| |].
    + exists (regs t2), (place t). by destruct t.
    + apply (t_zok _ _ _ _ _ _ (v_task _ _ _ _ _ Hinv i t Ht)).
  - by rewrite list_lookup_insert_ne.
  - exact (proj2 (proj2 (t_dead _ _ _ _ _ _ Hok Hd))).
  - destruct (decide (chan n = 0)) as [E|E]; [exact E|].
    destruct (t_chan _ _ _ _ _ _ Hok E) as [[?|?] _]; congruence.
  - exists i. split; [done|]. exists t2. rewrite list_lookup_insert_eq by done. split; [done|].
    change (state t2) with (state t). by rewrite Hs.
Qed.
End Proofs.
