(* ===== verification/ProcTheorems.v ===== *)
(** * Tasks: theorems *)
From S2P Require Import Prelude Lock Proc ProcLogic ProcInv ProcProofs ProcExit.

(** The exits and forks of a run, which may raise a counter: each at most by
    [NTASK + 1]. *)
Definition births (e : event) : Z := match e with EExit _ | EFork => 1 | _ => 0 end.
Definition bound (n : Z) : Z := 1 + n * (Z.of_nat NTASK + 1).

(** What a hart with the locks [hs] may not do, and the panic it is told so
    with: take a lock that it has, free one that it has not, and go to sleep
    with a lock besides the one that is released. *)
Definition misuse (hs : list lock) (e : event) : option string :=
  match e with
  | ELock lk | EV lk _ => if decide (LOther lk ∈ hs) then Some "holding lock" else None
  | EUnlock lk => if decide (LOther lk ∈ hs) then None else Some "unlock"
  | ESleep _ lk => if decide (LOther lk ∈ hs) then if decide (length hs = 1%nat) then None else Some "sched locks" else Some "unlock"
  | EP lk => if decide (LOther lk ∈ hs) then Some "holding lock" else if decide (hs = []) then None else Some "sched locks"
  | _ => None
  end.

Section Reach.
Context {W : Type} `{!Rest W}.

(** [reach n k]: [k] is a state after booting with at most [n] forks and
    exits. *)
Inductive reach : Z -> kernel W -> Prop :=
| reach_boot k : booted k -> reach 0 k
| reach_step n k h e k' : reach n k -> run h e k = Done (tt, k') -> reach (n + births e) k'.

(** [good b k]: the invariant. *)
Definition good (lost : nat -> Prop) (b : Z) (k : kernel W) : Prop :=
  exists ts cs ls np, rep k ts cs ls np /\ inv (lost := lost) ts cs np b None /\ quiet ls.

Section Run.
Context {lost : nat -> Prop}.
Abbreviation hoare := (thoare True).
Abbreviation inv := (inv (lost := lost)).
Abbreviation post := (post (lost := lost)).

Lemma at_out_ok ts cs ls np b b' h m : inv ts cs np b None -> quiet ls ->
  (forall i t, cs !! h = Some (Some i) -> ls !! h = Some [] -> ts !! i = Some t -> place t = Out ->
    hoare ts cs ls np m (post b')) -> hoare ts cs ls np (at_out h m) (post b').
Proof.
  intros Hinv Hq Hm. unfold at_out. apply hoare_mycpu; [stops|]. intros c E1 E2 _.
  destruct (current c) as [i|] eqn:Ec; [|by apply hoare_stop]. destruct (held c) as [|] eqn:Eh; [|by apply hoare_stop].
  apply hoare_rd; [stops|]. intros t Ht. destruct (place t) eqn:Ep; [|by apply hoare_stop]. by apply (Hm i t).
Qed.

Lemma in_task_ok ts cs ls np b h m : inv ts cs np b None ->
  (forall i t, cs !! h = Some (Some i) -> ts !! i = Some t -> state t = RUNNING -> hoare ts cs ls np m (post b)) ->
  hoare ts cs ls np (in_task h m) (post b).
Proof.
  intros Hinv Hm. unfold in_task. apply hoare_mycpu; [stops|]. intros c E1 E2 _.
  destruct (current c) as [i|] eqn:Ec; [|by apply hoare_stop].
  apply hoare_rd; [stops|]. intros t Ht. destruct (place t) eqn:Ep; [|by apply hoare_stop].
  apply (Hm i t); [done|done|]. by apply (current_ctx _ _ _ _ _ _ _ _ Hinv E1 Ht).
Qed.

Lemma single {A} (l : list A) x : x ∈ l -> length l = 1%nat -> l = [x].
Proof. intros Hin Hlen. destruct l as [|y [|]]; try done. apply elem_of_cons in Hin as [->|?%elem_of_nil]; done. Qed.

Lemma post_weaken {A} ts cs ls np b b' (m : M (kernel W) A) : b <= b' -> hoare ts cs ls np m (post b) -> hoare ts cs ls np m (post b').
Proof.
  intros Hb Hm. eapply hoare_weaken; [exact Hm|]. intros a ts' cs' ls' np' [Hi Hq]. split; [|done]. by apply (inv_weaken _ _ _ b).
Qed.

Lemma run_ok ts cs ls np b h e : inv ts cs np b None -> quiet ls ->
  (forall hs, ls !! h = Some hs -> misuse hs e = None) ->
  b + births e * (Z.of_nat NTASK + 1) < 2 ^ 31 - 1 ->
  hoare ts cs ls np (run h e) (post (b + births e * (Z.of_nat NTASK + 1))).
Proof.
  intros Hinv Hq Hmis Hb. unfold run. apply hoare_mycpu; [stops|]. intros c E1 E2 _.
  specialize (Hmis _ E2). pose proof (Forall_lookup_1 _ _ _ _ Hq E2) as Ho.
  destruct e as [i|x| |lk|lk|ch lk|ch|lk|lk u|x| | | |]; cbn [births misuse] in *; rewrite ?Z.mul_0_l, ?Z.add_0_r, ?Z.mul_1_l in *.
  - destruct (current c) eqn:Ec; [by apply hoare_stop|]. destruct (held c) eqn:Eh; [|by apply hoare_stop]. by apply sched_ok.
  - destruct (held c) eqn:Eh; [|by apply hoare_stop]. apply hoare_last, hoare_intr; [stops|done|]. by apply hoare_ret.
  - destruct (current c) as [i|] eqn:Ec; [|by apply hoare_stop]. destruct (held c) eqn:Eh; [|by apply hoare_stop].
    unfold handle_timer_interrupt. apply hoare_mycpu; [stops|]. intros c' E1' _ _. rewrite E1 in E1'. injection E1' as <-.
    apply hoare_rd; [stops|]. intros t Ht. case_bool_decide; [|by apply hoare_ret]. by apply (yield_ok _ _ _ _ _ _ i t).
  - case_decide as Hd; [done|]. apply hoare_last, (hoare_lock _ _ _ _ _ _ (held c)); [done|done|]. apply hoare_ret.
    split; [done|]. by apply quiet_insert, others_cons.
  - case_decide as Hd; [|done]. destruct (others_split _ _ Ho Hd) as (l1 & l2 & E & H1 & H2 & Ho'). rewrite E in E2.
    apply hoare_last, (hoare_unlock _ _ _ _ h _ l1 l2); [done..|]. apply hoare_ret. split; [done|]. by apply quiet_insert.
  - apply in_task_ok; [done|]. intros i t Hc Ht Hs. case_decide as Hd; [|done]. case_decide as Hlen; [|done].
    rewrite (single _ _ Hd Hlen) in E2. by apply (sleep_ok _ _ _ _ _ _ i t).
  - destruct (Z.eqb_spec ch 0); [by apply hoare_stop|].
    apply (wakeup_ok _ _ _ _ _ _ (held c)); try done. by eapply lookup_lt_Some.
  - apply in_task_ok; [done|]. intros i t Hc Ht Hs. case_decide as Hd; [done|]. case_decide as Hh; [|done].
    rewrite Hh in E2. by apply (P_other_ok _ _ _ _ _ _ i t).
  - case_decide as Hd; [done|]. apply hoare_rd; [stops|]. intros t Ht. apply hoare_rd; [stops|]. intros t' Ht'. known Ht'.
    match goal with |- context [if ?b then lm_V_other _ _ _ else _] => destruct b eqn:E; [|by apply hoare_stop] end.
    apply andb_true_iff in E as [Hs%bool_decide_eq_true Hx]. destruct (ctx t) eqn:Ex; try done. apply Z.eqb_eq in Hx as ->.
    by apply (V_other_ok _ _ _ _ _ _ (held c) _ t).
  - eapply at_out_ok; [done|done|]. intros i t Hc Hl Ht Hp. eapply post_weaken; [|by apply (exit_ok _ _ _ _ b _ i t); try done; lia]. lia.
  - eapply at_out_ok; [done|done|]. intros i t Hc Hl Ht Hp. unfold sys_wait. apply (hoare_mytask' _ _ _ _ _ i); [done|].
    apply (P_ok _ _ _ _ _ _ i t); try done; [|by rewrite Hp]. by apply (current_ctx _ _ _ _ _ _ _ _ Hinv Hc Ht).
  - destruct (current c) as [i|] eqn:Ec; [|by apply hoare_stop]. destruct (held c) eqn:Eh; [|by apply hoare_stop].
    unfold wait_round. apply (hoare_current _ _ _ _ _ i); [done|]. apply hoare_rd; [stops|]. intros t Ht.
    destruct (place t) as [|p] eqn:Hp; [by apply hoare_stop|]. destruct (Nat.ltb_spec p NTASK).
    + by apply (wait_slot_ok _ _ _ _ _ _ _ t).
    + apply (P_ok _ _ _ _ _ _ i t); try done; [|by rewrite Hp]. by apply (current_ctx _ _ _ _ _ _ _ _ Hinv E1 Ht).
  - eapply at_out_ok; [done|done|]. intros i t Hc Hl Ht Hp. apply (post_weaken _ _ _ _ (b + 1)); [unfold NTASK; lia|].
    apply (fork_ok _ _ _ _ _ _ i); try done. unfold NTASK in *; lia.
  - eapply at_out_ok; [done|done|]. intros i t Hc Hl Ht Hp. apply (hoare_bind _ _ _ _ _ _ (post b)).
    + unfold sys_kill. apply (hoare_mytask' _ _ _ _ _ i); [done|]. apply hoare_rd; [stops|]. intros t' Ht'.
      by apply (kill_loop_ok _ _ _ _ _ _ i).
    + intros a ts' cs' ls' np' Hp'. by apply hoare_ret.
Qed.

(** [sleep] and [lm_P] with the wrong locks. *)
Lemma sleep_stuck ts cs ls np b h hs i ch lk msg : inv ts cs np b None -> ls !! h = Some hs -> others hs ->
  misuse hs (ESleep ch lk) = Some msg -> cs !! h = Some (Some i) -> stuck (W := W) ts cs ls np (sleep h ch lk) msg.
Proof.
  intros Hinv Hl Ho. cbn [misuse].
  intros Hm Hc. destruct (c_run _ _ (v_cur _ _ _ _ _ Hinv) h i Hc) as (t & Ht & _).
  assert (LTask i ∉ hs) as Hi by (by apply others_not).
  unfold sleep. apply (stuck_mytask' _ _ _ _ _ i); [done|].
  apply (stuck_bind _ _ _ _ ts cs (<[h := LTask i :: hs]> ls) np _ tt); [intros k Hk; by apply lock_run|].
  revert Hm. case_decide as Hd; cycle 1.
  { intros [= <-]. apply stuck_head, (stuck_unlock _ _ _ _ _ _ (LTask i :: hs)); [look|].
    apply not_elem_of_cons. by split. }
  case_decide as Hlen; [done|]. intros [= <-]. destruct (others_split _ _ Ho Hd) as (l1 & l2 & E & H1 & H2 & _). rewrite E in *.
  apply (stuck_bind _ _ _ _ ts cs (<[h := LTask i :: l1 ++ l2]> ls) np _ tt).
  { intros k Hk. destruct (unlock_run _ _ _ _ _ h (LOther lk) (LTask i :: l1) l2 Hk) as (k' & E' & Hk'); [look| |done|].
    - apply not_elem_of_cons. by split.
    - exists k'. split; [done|]. by rewrite list_insert_insert_eq in Hk'. }
  apply (stuck_wr _ _ _ _ _ _ t); [done|]. eapply stuck_wr; [look|].
  apply (stuck_sched _ _ _ _ _ i (LTask i :: l1 ++ l2)); [done|look|by left|].
  rewrite length_app in *. cbn [length] in *. rewrite length_app. lia.
Qed.

Lemma P_other_stuck ts cs ls np b h hs i lk msg : inv ts cs np b None -> ls !! h = Some hs -> others hs ->
  misuse hs (EP lk) = Some msg -> cs !! h = Some (Some i) -> stuck (W := W) ts cs ls np (lm_P_other h lk) msg.
Proof.
  intros Hinv Hl Ho. cbn [misuse].
  intros Hm Hc. destruct (c_run _ _ (v_cur _ _ _ _ _ Hinv) h i Hc) as (t & Ht & _).
  assert (LTask i ∉ LOther lk :: hs) as Hi by (apply not_elem_of_cons; split; [done|by apply others_not]).
  unfold lm_P_other. revert Hm. case_decide as Hd.
  { intros [= <-]. by apply stuck_head, (stuck_lock _ _ _ _ _ _ hs). }
  case_decide as Hh; [done|]. intros [= <-].
  apply (stuck_bind _ _ _ _ ts cs (<[h := LOther lk :: hs]> ls) np _ tt); [intros k Hk; by apply lock_run|].
  apply (stuck_mytask' _ _ _ _ _ i); [done|].
  apply (stuck_bind _ _ _ _ ts cs (<[h := LTask i :: LOther lk :: hs]> ls) np _ tt).
  { intros k Hk. destruct (lock_run _ _ _ _ _ h (LTask i) (LOther lk :: hs) Hk) as (k' & E' & Hk'); [look|done|].
    exists k'. split; [done|]. by rewrite list_insert_insert_eq in Hk'. }
  apply (stuck_wr _ _ _ _ _ _ t); [done|].
  apply (stuck_bind _ _ _ _ (<[i := set_state SLEEPING t]> ts) cs (<[h := LTask i :: hs]> ls) np _ tt).
  { intros k Hk. destruct (unlock_run _ _ _ _ _ h (LOther lk) [LTask i] hs Hk) as (k' & E' & Hk'); [look|in_list|done|].
    exists k'. split; [done|]. by rewrite list_insert_insert_eq in Hk'. }
  apply (stuck_sched _ _ _ _ _ i (LTask i :: hs)); [done|look|by left|]. destruct hs; [done|]. cbn [length]. lia.
Qed.

(** A hart that misuses its locks panics, when it can do the operation at all. *)
Lemma misuse_stuck ts cs ls np b h e hs msg : inv ts cs np b None -> quiet ls -> ls !! h = Some hs ->
  misuse hs e = Some msg ->
  match e with
  | ELock lk => stuck (W := W) ts cs ls np (lm_lock h (LOther lk)) msg
  | EUnlock lk => stuck (W := W) ts cs ls np (lm_unlock h (LOther lk)) msg
  | ESleep ch lk => forall i, cs !! h = Some (Some i) -> stuck (W := W) ts cs ls np (sleep h ch lk) msg
  | EP lk => forall i, cs !! h = Some (Some i) -> stuck (W := W) ts cs ls np (lm_P_other h lk) msg
  | EV lk u => stuck (W := W) ts cs ls np (lm_V_other h lk u) msg
  | _ => True
  end.
Proof.
  intros Hinv Hq Hl. pose proof (Forall_lookup_1 _ _ _ _ Hq Hl) as Ho.
  destruct e as [i|x| |lk|lk|ch lk|ch|lk|lk u|x| | | |]; try done.
  - cbn [misuse]. case_decide; [|done]. intros [= <-]. by apply (stuck_lock _ _ _ _ _ _ hs).
  - cbn [misuse]. case_decide; [done|]. intros [= <-]. by apply (stuck_unlock _ _ _ _ _ _ hs).
  - intros Hm i Hc. by apply (sleep_stuck _ _ _ _ b _ hs i).
  - intros Hm i Hc. by apply (P_other_stuck _ _ _ _ b _ hs i).
  - cbn [misuse]. case_decide; [|done]. intros [= <-]. unfold lm_V_other. by apply stuck_head, (stuck_lock _ _ _ _ _ _ hs).
Qed.

(** The operation is one that the hart can do: for an operation of a task, a
    task runs that is not in [sys_wait]; for [lm_V], the task sleeps there. *)
Definition possible (k : kernel W) (h : nat) (e : event) : Prop :=
  match e with
  | ESleep _ _ | EP _ => exists c i t, harts k !! h = Some c /\ current c = Some i /\ tasks k !! i = Some t /\ place t = Out
  | EV lk u => exists t, tasks k !! u = Some t /\ state t = SLEEPING /\ ctx t = InPOther lk
  | _ => True
  end.

Lemma run_misuse ts cs ls np b h e c msg k : rep k ts cs ls np -> inv ts cs np b None -> quiet ls -> harts k !! h = Some c ->
  misuse (held c) e = Some msg -> (possible k h e -> run h e k = Panic msg) /\
  match run h e k with Done _ => False | Panic msg' => msg' = msg | _ => True end.
Proof.
  intros Hk Hinv Hq Hc Hm. destruct (rep_hart _ _ _ _ _ _ _ Hk Hc) as (E1 & E2 & _). pose proof (proj1 Hk) as Et.
  pose proof (misuse_stuck ts cs ls np b h e (held c) msg Hinv Hq E2 Hm) as Hs.
  assert (mycpu h k = Done (c, k)) as Hcpu by (unfold mycpu; by rewrite Hc).
  assert (forall m : M (kernel W) unit, (forall i, cs !! h = Some (Some i) -> stuck ts cs ls np m msg) ->
    ((exists c i t, harts k !! h = Some c /\ current c = Some i /\ tasks k !! i = Some t /\ place t = Out) -> in_task h m k = Panic msg) /\
    match in_task h m k with Done _ => False | Panic msg' => msg' = msg | _ => True end) as Hin.
  { intros m Hst. unfold in_task. rewrite (bind_done _ _ _ _ _ Hcpu). destruct (current c) as [i|] eqn:Ec.
    2: { split; [|done]. intros (c' & i & t & Hc' & Hi & _). congruence. }
    unfold bind, rd. destruct (tasks k !! i) as [t|] eqn:Eti.
    2: { split; [|done]. intros (c' & i' & t & Hc' & Hi & Hti & _). congruence. }
    destruct (place t) eqn:Ep.
    - by rewrite (Hst i E1 k Hk).
    - split; [|done]. intros (c' & i' & t' & Hc' & Hi & Hti & Hp). congruence. }
  unfold run. rewrite (bind_done _ _ _ _ _ Hcpu).
  destruct e as [i|x| |lk|lk|ch lk|ch|lk|lk u|x| | | |]; try done; cbn [possible].
  - by rewrite (Hs k Hk).
  - by rewrite (Hs k Hk).
  - by apply Hin.
  - by apply Hin.
  - unfold bind, rd. destruct (tasks k !! u) as [t|] eqn:Eu.
    2: { split; [|done]. by intros (t & [=] & _). }
    rewrite Eu.
    match goal with |- context [if ?b then lm_V_other _ _ _ else _] => destruct b eqn:E end.
    + by rewrite (Hs k Hk).
    + split; [|done]. intros (t' & [= <-] & H1 & H2). by rewrite H1, H2, Z.eqb_refl, bool_decide_true in E.
Qed.

End Run.

(** ** Booting *)

(** What [static] memory gives a task. *)
Definition blank (t : task) : Prop :=
  place t = Out /\ parent t = None /\ sons_sem t = mkSem 0 [] /\ ctx t = Nowhere /\ chan t = 0.

Lemma task_init_ok cs ls np l : forall ts, (forall i t, ts !! i = Some t -> blank t) ->
  thoare True ts cs ls np (task_init_loop l) (fun _ ts' cs' ls' np' => cs' = cs /\ ls' = ls /\ np' = np /\ length ts' = length ts /\
    forall i t, ts' !! i = Some t -> blank t /\ (In i l -> id t = -1 /\ state t = DEAD) /\ (~ In i l -> ts !! i = Some t)).
Proof.
  induction l as [|i l IH]; intros ts Hb; cbn [task_init_loop].
  { apply hoare_ret. split_and!; try done. intros i t Ht. split; [by apply (Hb i)|]. by split. }
  apply hoare_wr; [stops|]. intros t Ht. assert (i < length ts)%nat as Hi by (by eapply lookup_lt_Some).
  wr_step. apply hoare_other. intros [p _]. wr_step.
  set (t1 := set_kstack p (set_state DEAD (set_id (-1) t))).
  eapply hoare_weaken; [apply IH|].
  - intros j tj Hj. apply lookup_insert_cases in Hj as [(-> & -> & _)|[Hne Hj]]; [|by apply (Hb j)]. exact (Hb i t Ht).
  - cbv beta. intros _ ts' cs' ls' np' (-> & -> & -> & Hlen & Hall). split_and!; try done; [by rewrite Hlen, length_insert|].
    intros j tj Hj. destruct (Hall j tj Hj) as (H1 & H2 & H3). split; [done|]. split.
    + intros [<-|Hin]; [|by apply H2]. destruct (in_dec Nat.eq_dec i l) as [Hin|Hn]; [by apply H2|].
      specialize (H3 Hn). rewrite list_lookup_insert_eq in H3 by done. by injection H3 as <-.
    + intros Hn. rewrite <- (H3 ltac:(intros H; apply Hn; by right)). rewrite list_lookup_insert_ne; [done|].
      intros <-. apply Hn. by left.
Qed.

(** The table with the first user task. *)
Lemma first_inv ts cs i t t' : length ts = NTASK -> (forall j tj, ts !! j = Some tj -> blank tj /\ id tj = -1 /\ state tj = DEAD) ->
  (forall h o, cs !! h = Some o -> o = None) -> i = 0%nat -> ts !! i = Some t -> blank (set_ctx Nowhere t') -> state t' = RUNNABLE -> id t' = 1 ->
  ctx t' = RetEntry -> inv (lost := fun _ => False) (<[i := t']> ts) cs 2 1 None.
Proof.
  intros Hlen Hall Hcs -> Ht (Hpl & Hpar & Hsem & _ & Hch) Hs Hid Hc. cbn [place parent sons_sem chan set_ctx] in *.
  assert (0 < length ts)%nat as Hl by (by eapply lookup_lt_Some).
  assert (forall i m, zs (<[0%nat := t']> ts) i m = 0%nat) as Hz.
  { intros i m. apply zs_zero. intros j tj Hj Hsj. apply lookup_insert_cases in Hj as [(-> & -> & _)|[Hne Hj]]; [congruence|].
    destruct (Hall j tj Hj) as (_ & _ & H). congruence. }
  split; try done.
  - by rewrite length_insert.
  - exists t'. rewrite list_lookup_insert_eq by done. split_and!; [done|done|by rewrite Hs].
  - intros j tj Hj. apply lookup_insert_cases in Hj as [(-> & -> & _)|[Hne Hj]].
    + split; rewrite ?Hs, ?Hc, ?Hid; try done.
      * unfold sem_inv. rewrite Hsem. cbn. lia.
      * unfold zok. rewrite Hpl, Hz, Hsem. cbn. lia.
      * intros q Hq. congruence.
    + destruct (Hall j tj Hj) as ((H1 & H2 & H3 & H4 & H5) & H6 & H7). split; rewrite ?H7, ?H4; try done.
      * unfold sem_inv. rewrite H3. cbn. lia.
      * unfold zok. rewrite H1, Hz, H3. cbn. lia.
      * intros q Hq. congruence.
  - split.
    + intros h j Hj. by apply Hcs in Hj.
    + intros h h' j Hj. by apply Hcs in Hj.
    + intros j tj Hj Hr. apply lookup_insert_cases in Hj as [(-> & -> & _)|[Hne Hj]]; [congruence|].
      destruct (Hall j tj Hj) as (_ & _ & H). congruence.
  - intros j k tj tk Hj Hk Hsj Hidj.
    apply lookup_insert_cases in Hj as [(-> & -> & _)|[Hne Hj]]; [|by destruct (Hall j tj Hj) as (_ & _ & H)].
    apply lookup_insert_cases in Hk as [(-> & -> & _)|[Hne Hk]]; [done|]. destruct (Hall k tk Hk) as (_ & H & _). lia.
Qed.

Lemma hoare_task_init ts cs ls np : (forall i t, ts !! i = Some t -> blank t) -> Forall (fun l => l = []) ls ->
  thoare True ts cs ls np task_init (fun _ ts' cs' ls' np' => cs' = cs /\ ls' = ls /\ np' = np /\ length ts' = length ts /\
    forall i t, ts' !! i = Some t -> blank t /\ ((i < NTASK)%nat -> id t = -1 /\ state t = DEAD)).
Proof.
  intros Hb Hls. unfold task_init. eapply hoare_bind; [by apply task_init_ok|]. cbv beta.
  intros _ ts' cs' ls' np' (-> & -> & -> & Hlen & Hall) k Hk. unfold modify.
  exists ts', cs, ls, np. split; [|split_and!; try done].
  - destruct Hk as (H1 & H2 & H3 & H4 & H5). split; [done|]. cbn [harts nextpid].
    assert (current <$> map cpu_init (harts k) = cs) as Ec by (rewrite <- H2; rewrite <- list_fmap_compose; done).
    assert (held <$> map cpu_init (harts k) = ls) as El by (rewrite <- H3; rewrite <- list_fmap_compose; done).
    split_and!; [done..|]. rewrite <- H3 in Hls. apply List.Forall_forall. intros c' (c & <- & Hc)%in_map_iff.
    assert (held c = []) as Hh.
    { apply (proj1 (Forall_fmap _ _ _)) in Hls. rewrite List.Forall_forall in Hls. by apply Hls. }
    unfold cpu_init. split; cbn [hcpu noff held]; by rewrite Hh.
  - intros i t Ht. destruct (Hall i t Ht) as (H1 & H2 & _). split; [done|]. intros Hi. apply H2, in_seq. lia.
Qed.

Lemma user_init_ok ts cs ls : length ts = NTASK -> (forall i t, ts !! i = Some t -> blank t /\ id t = -1 /\ state t = DEAD) ->
  (forall h o, cs !! h = Some o -> o = None) -> ls !! 0%nat = Some [] -> quiet ls ->
  thoare True ts cs ls 1 (user_init 0) (fun _ ts' cs' ls' np' => inv (lost := fun _ => False) ts' cs' np' 1 None /\ quiet ls').
Proof.
  intros Hlen Hall Hcs Hl Hq. unfold user_init. apply hoare_create; [done|lia|by left|by intros _; apply hoare_fault|].
  intros i n p pt o ws Hi Hd (l1 & l2 & E & Hl1).
  assert (i = 0%nat) as E0.
  { destruct l1 as [|j l1]; [by injection E|]. exfalso. assert (In j (seq 0 NTASK)) as Hj by (rewrite E; by left).
    apply in_seq in Hj as [_ Hj]. destruct (lookup_lt_is_Some_2 ts j) as (tj & Htj); [rewrite Hlen; exact Hj|].
    apply (Hl1 j tj); [by left|done|]. by apply (Hall j tj). }
  assert (i < length ts)%nat as Hlt by (by eapply lookup_lt_Some).
  destruct (Hall i n Hi) as (Hb & _).
  apply hoare_rd; [stops|]. intros t' Ht'. known Ht'. apply hoare_rd; [stops|]. intros t' Ht'. known Ht'.
  apply hoare_other. intros _. apply hoare_other. intros _. wr_step. apply hoare_other. intros _. do 2 wr_step.
  apply hoare_other. intros d. wr_step. apply hoare_last, (hoare_unlock _ _ _ _ _ _ [] []); [look|in_list..|].
  apply hoare_ret. cbn [app]. rewrite list_insert_insert_eq, (list_insert_id ls) by done. split; [|done].
  apply (first_inv _ _ i n); try done. destruct Hb as (H1 & H2 & _ & _ & H5). by split_and!.
Qed.

Lemma boot_good k : booted k -> good (fun _ => False) 1 k.
Proof.
  intros (k0 & Hf & Hn & Hlt & Hlh & Hh & Ht & Hrun).
  assert (forall h c, harts k0 !! h = Some c -> current c = None /\ held c = [] /\ hcpu c = mkCpu 0 false false) as Hh'
    by (intros h c Hc; by apply (Forall_lookup_1 _ _ _ _ Hh Hc)).
  assert (rep k0 (tasks k0) (current <$> harts k0) (held <$> harts k0) 1) as Hrep.
  { split_and!; try done. eapply Forall_impl; [exact Hh|]. cbv beta. intros c (_ & H2 & H3). split; by rewrite H2, H3. }
  assert (Forall (fun l : list lock => l = []) (held <$> harts k0)) as Hls.
  { apply Forall_fmap. eapply Forall_impl; [exact Hh|]. by intros c (_ & ? & _). }
  assert (forall h o, (current <$> harts k0) !! h = Some o -> o = None) as Hcs.
  { intros h o Ho. rewrite list_lookup_fmap in Ho. destruct (harts k0 !! h) as [c|] eqn:Ec; [|done].
    injection Ho as <-. by apply (Hh' h). }
  assert (thoare True (tasks k0) (current <$> harts k0) (held <$> harts k0) 1 (task_init;;; user_init 0)
    (fun _ ts' cs' ls' np' => inv (lost := fun _ => False) ts' cs' np' 1 None /\ quiet ls')) as Hb.
  { eapply hoare_bind; [apply hoare_task_init; [|done]|].
    - intros i t Hi. destruct (Forall_lookup_1 _ _ _ _ Ht Hi) as (H1 & H2 & H3 & H4 & _ & H5 & _). by split_and!.
    - cbv beta. intros _ ts' cs' ls' np' (-> & -> & -> & Hlen & Hall). apply user_init_ok.
      + by rewrite Hlen.
      + intros i t Hi. destruct (Hall i t Hi) as [H1 H2]. split; [done|]. apply H2. rewrite <- Hlt, <- Hlen. by eapply lookup_lt_Some.
      + done.
      + rewrite list_lookup_fmap. destruct (harts k0) as [|c l] eqn:E0; [done|]. cbn. destruct (Hh' 0%nat c eq_refl) as (_ & -> & _). done.
      + unfold quiet. eapply Forall_impl; [exact Hls|]. cbv beta. intros ? ->. apply others_nil. }
  specialize (Hb k0 Hrep). rewrite Hrun in Hb. destruct Hb as (ts & cs & ls & np & Hk & Hi & Hq). by exists ts, cs, ls, np.
Qed.

Lemma step_good lost b k h e k' : good lost b k -> b + births e * (Z.of_nat NTASK + 1) < 2 ^ 31 - 1 ->
  run h e k = Done (tt, k') -> good lost (b + births e * (Z.of_nat NTASK + 1)) k'.
Proof.
  intros (ts & cs & ls & np & Hk & Hi & Hq) Hb Hrun.
  assert (forall hs, ls !! h = Some hs -> misuse hs e = None) as Hmis.
  { intros hs Hl. pose proof Hk as (_ & _ & El & _). rewrite <- El, list_lookup_fmap in Hl.
    destruct (harts k !! h) as [c|] eqn:Ec; [|done]. injection Hl as <-.
    destruct (misuse (held c) e) as [msg|] eqn:Em; [|done].
    pose proof (run_misuse ts cs ls np b h e c msg k Hk Hi Hq Ec Em) as [_ H]. by rewrite Hrun in H. }
  pose proof (run_ok (lost := lost) ts cs ls np b h e Hi Hq Hmis Hb k Hk) as H. rewrite Hrun in H.
  destruct H as (ts' & cs' & ls' & np' & Hk' & Hi' & Hq'). by exists ts', cs', ls', np'.
Qed.

Lemma births_nonneg e : 0 <= births e <= 1.
Proof. destruct e; cbn; lia. Qed.

(** Every state of a run with up to a million forks and exits. *)
Lemma reach_good n k : reach n k -> n <= 2 ^ 20 -> good (fun _ => False) (bound n) k.
Proof.
  induction 1 as [k Hk|n k h e k' Hr IH Hrun]; intros Hn; [by apply boot_good|].
  pose proof (births_nonneg e). assert (bound (n + births e) = bound n + births e * (Z.of_nat NTASK + 1)) as ->
    by (unfold bound; ring).
  apply (step_good _ _ k h); [apply IH; lia| |done].
  assert (bound n + births e * (Z.of_nat NTASK + 1) = bound (n + births e)) as -> by (unfold bound; ring).
  unfold bound, NTASK. lia.
Qed.

(** ** Properties *)

Lemma bound_ok n e : n < 2 ^ 20 -> bound n + births e * (Z.of_nat NTASK + 1) < 2 ^ 31 - 1.
Proof. intros Hn. pose proof (births_nonneg e). unfold bound, NTASK. lia. Qed.


(** C34. The task table stays well formed: every hart runs a RUNNING task that
    runs on no other hart, every RUNNING task is on a hart unless it has
    killed itself, live tasks have positive and pairwise different pids, a
    parent is another task, and alive unless it is the first task, and free
    slots have no parent. *)
Theorem task_table_ok n (k : kernel W) : reach n k -> n <= 2 ^ 20 ->
  length (tasks k) = NTASK /\
  (forall h c i, harts k !! h = Some c -> current c = Some i -> exists t, tasks k !! i = Some t /\ state t = RUNNING) /\
  (forall h h' c c' i, harts k !! h = Some c -> harts k !! h' = Some c' -> current c = Some i -> current c' = Some i -> h = h') /\
  (forall i t, tasks k !! i = Some t -> state t = RUNNING -> ctx t <> InForceExit ->
     exists h c, harts k !! h = Some c /\ current c = Some i) /\
  (forall i t, tasks k !! i = Some t -> state t <> DEAD -> 1 <= id t < nextpid k) /\
  (forall i j ti tj, tasks k !! i = Some ti -> tasks k !! j = Some tj -> state ti <> DEAD -> id ti = id tj -> i = j) /\
  (forall i t q, tasks k !! i = Some t -> parent t = Some q ->
     q <> i /\ state t <> DEAD /\
     (q = 0%nat \/ exists tq, tasks k !! q = Some tq /\ state tq <> DEAD /\ state tq <> ZOMBIE)).
Proof.
  intros Hr Hn. destruct (reach_good n k Hr Hn) as (ts & cs & ls & np & (Et & Ec & El & En & Hh) & Hi & Hq).
  assert (forall h c, harts k !! h = Some c -> cs !! h = Some (current c)) as Hc
    by (intros h c H; by rewrite <- Ec, list_lookup_fmap, H).
  pose proof (v_cur _ _ _ _ _ Hi) as [C1 C2 C3]. rewrite Et, En. split; [by apply (v_len _ _ _ _ _ Hi)|]. split_and!.
  - intros h c i H1 H2. destruct (C1 h i) as (t & Ht & Hs & _); [by rewrite (Hc h c H1), H2|]. by exists t.
  - intros h h' c c' i H1 H2 E1 E2. apply (C2 h h' i); [by rewrite (Hc h c H1), E1|by rewrite (Hc h' c' H2), E2].
  - intros i t Ht Hs Hx. destruct (C3 i t Ht Hs Hx) as (h & Hh'). rewrite <- Ec, list_lookup_fmap in Hh'.
    destruct (harts k !! h) as [c|] eqn:E; [|done]. injection Hh' as Hh'. by exists h, c.
  - intros i t Ht. apply (t_live _ _ _ _ _ _ (v_task _ _ _ _ _ Hi i t Ht)).
  - apply (v_ids _ _ _ _ _ Hi).
  - intros i t q Ht Hp. pose proof (v_task _ _ _ _ _ Hi i t Ht) as Hok.
    destruct (t_parent _ _ _ _ _ _ Hok q Hp) as [Hne [[=]|H]]. split; [done|]. split; [|done].
    intros Hd. destruct (t_dead _ _ _ _ _ _ Hok Hd) as (_ & Hp0 & _). congruence.
Qed.

(** C35. No exit is lost: a task that sleeps in [sys_wait] has no zombie child,
    whatever the order in which its children exit, are given away to the
    first task, and it scans the table.  (Each zombie child is covered by a
    token of the semaphore; tokens without a zombie only cost another scan.) *)
Theorem no_lost_child n (k : kernel W) i t j tj : reach n k -> n <= 2 ^ 20 ->
  tasks k !! i = Some t -> state t = SLEEPING -> ctx t = InP ->
  tasks k !! j = Some tj -> state tj = ZOMBIE -> parent tj <> Some i.
Proof.
  intros Hr Hn Ht Hs Hx Hj Hsj Hp. destruct (reach_good n k Hr Hn) as (ts & cs & ls & np & (Et & _) & Hi & _).
  rewrite Et in Ht, Hj. pose proof (v_task _ _ _ _ _ Hi i t Ht) as Hok.
  pose proof (t_sem _ _ _ _ _ _ Hok) as H. unfold sem_inv in H.
  destruct (waiting (sons_sem t)) as [|w ws] eqn:Ew.
  { destruct (t_sleep _ _ _ _ _ _ Hok Hs Ew) as (lk & [E|E]); congruence. }
  destruct H as (_ & Hv & _ & _ & Hpl & _). pose proof (t_zok _ _ _ _ _ _ Hok) as Hz. unfold zok in Hz. rewrite Hpl, Hv in Hz.
  pose proof (zs_insert i (set_parent None tj) ts j NTASK tj Hj) as H.
  assert (zomb i tj = true) as E1 by (unfold zomb; by rewrite Hsj, Hp, !bool_decide_true). rewrite E1 in H.
  assert (zomb i (set_parent None tj) = false) as E2 by (unfold zomb; cbn; by rewrite (bool_decide_false (None = Some i)), andb_false_r).
  rewrite E2 in H. cbn [andb] in H.
  rewrite (proj2 (Nat.ltb_lt j NTASK)) in H by (rewrite <- (v_len _ _ _ _ _ Hi); by eapply lookup_lt_Some). lia.
Qed.

(** *** [sys_fork] and [sys_wait] *)

Lemma dupped_lookup l fs : forall nfs fd, NoDup l -> length nfs = NOFILE -> (forall x, In x l -> (x < NOFILE)%nat) ->
  dupped l fs nfs !! fd = (if decide (fd ∈ l) then match fs !! fd with Some (Some f) => Some (Some f) | _ => nfs !! fd end else nfs !! fd).
Proof.
  induction l as [|x l IH]; intros nfs fd Hnd Hlen Hl.
  - cbn. rewrite decide_False; [done|]. apply not_elem_of_nil.
  - apply NoDup_cons in Hnd as [Hx Hnd].
    assert (dupped (x :: l) fs nfs = dupped l fs (match fs !! x with Some (Some f) => <[x := Some f]> nfs | _ => nfs end)) as -> by reflexivity.
    assert (x < length nfs)%nat as Hxl by (rewrite Hlen; apply Hl; by left).
    rewrite IH; [|done|by case_match; [case_match; [rewrite length_insert|]|]|intros y Hy; apply Hl; by right].
    destruct (decide (fd = x)) as [->|Hne].
    + rewrite decide_False by done. rewrite decide_True by (by left).
      destruct (fs !! x) as [[f|]|]; [by rewrite list_lookup_insert_eq|done..].
    + assert (match fs !! x with Some (Some f) => <[x := Some f]> nfs | _ => nfs end !! fd = nfs !! fd) as ->
        by (destruct (fs !! x) as [[f|]|]; [by rewrite list_lookup_insert_ne|done..]).
      destruct (decide (fd ∈ l)) as [H|H].
      * by rewrite decide_True by (by right).
      * rewrite decide_False; [done|]. intros H'. by apply elem_of_cons in H' as [|].
Qed.

Lemma closed_lookup l f : forall fs fd, closed l fs !! fd = Some (Some f) -> fs !! fd = Some (Some f) /\ ~ In fd l.
Proof.
  induction l as [|x l IH]; intros fs fd H; [by split; [|intros []]|].
  assert (closed (x :: l) fs = closed l (match fs !! x with Some (Some _) => <[x := None]> fs | _ => fs end)) as E by reflexivity.
  rewrite E in H. apply IH in H as [H Hn]. destruct (fs !! x) as [[g|]|] eqn:Ex.
  - apply lookup_insert_cases in H as [(_ & [=] & _)|[Hne H]]. split; [done|]. by intros [<-|].
  - split; [done|]. intros [<-|]; [congruence|done].
  - split; [done|]. intros [<-|]; [congruence|done].
Qed.

(** C36. [sys_fork], whenever a slot of the table is free and the other
    components' calls return: the first free slot becomes a RUNNABLE child
    with the next pid, the caller as its parent, the caller's registers with
    0 in [a0], its open files and directory; the caller gets the pid in
    [a0]; no other task changes.  ([killed] and [xstatus] of the slot's last
    task are not cleared.) *)
Theorem fork_child n (k : kernel W) h c i t : reach n k -> n < 2 ^ 20 -> Returns W False ->
  harts k !! h = Some c -> current c = Some i -> held c = [] -> tasks k !! i = Some t -> place t = Out ->
  (exists j old, tasks k !! j = Some old /\ state old = DEAD) ->
  match run h EFork k with
  | Done (_, k') => exists j old new,
      tasks k !! j = Some old /\ state old = DEAD /\ first_dead (tasks k) (seq 0 NTASK) j /\
      tasks k' = <[j := new]> (<[i := set_reg A0 (nextpid k) t]> (tasks k)) /\ nextpid k' = nextpid k + 1 /\
      state new = RUNNABLE /\ id new = nextpid k /\ parent new = Some i /\ regs new = <[A0 := 0]> (regs t) /\
      (length (ofile old) = NOFILE -> forall fd f, (fd < NOFILE)%nat -> ofile t !! fd = Some (Some f) -> ofile new !! fd = Some (Some f)) /\
      (forall d, cwd t = Some d -> cwd new = Some d) /\ killed new = killed old /\ xstatus new = xstatus old
  | Panic msg => In msg rest_panics
  | _ => False
  end.
Proof.
  intros Hr Hn Hcalls Hc Hci Hh Ht Hpl Hdead. destruct (reach_good n k Hr ltac:(lia)) as (ts & cs & ls & np & Hk & Hi & Hq).
  destruct (rep_hart _ _ _ _ _ _ _ Hk Hc) as (E1 & E2 & _). pose proof Hk as (Et & _ & _ & En & _).
  rewrite Et, En in *. rewrite Hci in E1. rewrite Hh in E2.
  destruct (current_ctx _ _ _ _ _ _ _ _ Hi E1 Ht) as [Hs _]. pose proof (v_np _ _ _ _ _ Hi) as Hnp.
  pose proof (bound_ok n EFork Hn) as Hb. cbn [births] in Hb.
  assert (run h EFork k = sys_fork h k) as ->.
  { assert (mycpu h k = Done (c, k)) as Hm by (unfold mycpu; by rewrite Hc).
    unfold run. rewrite (bind_done _ _ _ _ _ Hm). unfold at_out. rewrite (bind_done _ _ _ _ _ Hm), Hci, Hh.
    unfold bind, rd. by rewrite Et, Ht, Hpl. }
  pose proof (hoare_fork (stop := False) cs ls np h i t ts (fun _ ts' cs' ls' np' => exists j old p pt o ws, ts !! j = Some old /\
    state old = DEAD /\ first_dead ts (seq 0 NTASK) j /\
    ts' = <[j := child i np p pt o ws t old]> (<[i := set_reg A0 np t]> ts) /\ np' = np + 1)) as H.
  specialize (H E2 E1 Ht ltac:(congruence) ltac:(lia) (or_intror (conj (v_len _ _ _ _ _ Hi) Hdead))).
  specialize (H ltac:(intros j old p pt o ws H1 H2 H3 H4; by exists j, old, p, pt, o, ws) k Hk).
  destruct (sys_fork h k) as [[[] k']| | | |]; [|done..].
  destruct H as (ts' & cs' & ls' & np' & (Et' & _ & _ & En' & _) & (j & old & p & pt & o & ws & H1 & H2 & H3 & -> & ->)).
  rewrite Et', En'. exists j, old, (child i np p pt o ws t old). split_and!; try done.
  - intros Hlen fd f Hfd Hf. assert (ofile (child i np p pt o ws t old) = dupped (seq 0 NOFILE) (ofile t) (ofile old)) as -> by reflexivity.
    rewrite dupped_lookup; [|apply NoDup_seq|done|intros x [_ Hx]%in_seq; exact Hx].
    rewrite decide_True by (apply elem_of_seq; lia). by rewrite Hf.
  - intros d Hd. assert (cwd (child i np p pt o ws t old) = match cwd t with Some ip => Some ip | None => cwd old end) as -> by reflexivity.
    by rewrite Hd.
Qed.

(** The round of [sys_wait] at a zombie child, when the other components'
    calls return: the parent leaves [sys_wait] with the child's pid in [a0],
    and the child's slot is free, with no pid, parent, page table, files or
    directory; no other task changes.  ([killed] stays set in the slot.) *)
Theorem wait_reaps n (k : kernel W) h c i t p tp : reach n k -> n < 2 ^ 20 -> Returns W False ->
  harts k !! h = Some c -> current c = Some i -> held c = [] -> tasks k !! i = Some t -> place t = Scan p -> (p < NTASK)%nat ->
  tasks k !! p = Some tp -> state tp = ZOMBIE -> parent tp = Some i ->
  match run h EScan k with
  | Done (_, k') => exists free,
      tasks k' = <[i := set_place Out (set_reg A0 (id tp) t)]> (<[p := free]> (tasks k)) /\ nextpid k' = nextpid k /\
      state free = DEAD /\ id free = -1 /\ parent free = None /\ pagetable free = 0 /\ trapframe free = 0 /\ mmap_obj free = 0 /\
      cwd free = None /\ (forall fd, (fd < NOFILE)%nat -> forall f, ofile free !! fd <> Some (Some f)) /\ killed free = killed tp
  | Panic msg => In msg rest_panics
  | _ => False
  end.
Proof.
  intros Hr Hn Hcalls Hc Hci Hh Ht Hpl Hp Htp Hsp Hpar. destruct (reach_good n k Hr ltac:(lia)) as (ts & cs & ls & np & Hk & Hi & Hq).
  destruct (rep_hart _ _ _ _ _ _ _ Hk Hc) as (E1 & E2 & _). pose proof Hk as (Et & _ & _ & En & _).
  rewrite Et, En in *. rewrite Hci in E1. rewrite Hh in E2.
  destruct (current_ctx _ _ _ _ _ _ _ _ Hi E1 Ht) as [Hs _].
  assert (p <> i) as Hpi by (intros ->; congruence).
  assert (run h EScan k = wait_slot h i p k) as ->.
  { assert (mycpu h k = Done (c, k)) as Hm by (unfold mycpu; by rewrite Hc).
    unfold run. rewrite (bind_done _ _ _ _ _ Hm), Hci, Hh. unfold wait_round.
    assert (current_task h k = Done (i, k)) as Hcur by (unfold current_task; by rewrite (bind_done _ _ _ _ _ Hm), Hci).
    rewrite (bind_done _ _ _ _ _ Hcur). unfold bind, rd. rewrite Et, Ht, Hpl. by rewrite (proj2 (Nat.ltb_lt _ _) Hp). }
  pose proof (hoare_reap (stop := False) cs ls np h i p t tp ts (fun _ ts' cs' ls' np' =>
    ts' = <[i := set_place Out (set_reg A0 (id tp) t)]> (<[p := freed tp]> ts) /\ np' = np)) as H.
  specialize (H E2 Ht Htp Hsp Hpar Hpi (conj eq_refl eq_refl) k Hk).
  destruct (wait_slot h i p k) as [[[] k']| | | |]; [|done..].
  destruct H as (ts' & cs' & ls' & np' & (Et' & _ & _ & En' & _) & -> & ->).
  rewrite Et', En'. exists (freed tp). split_and!; try done.
  intros fd Hfd f. assert (ofile (freed tp) = closed (seq 0 NOFILE) (ofile tp)) as -> by reflexivity.
  intros Hf. apply closed_lookup in Hf as [_ Hf]. apply Hf, in_seq. lia.
Qed.

(** *** [sys_kill] on the task itself *)

Lemma kill_self cs ls np h i t ts l (Q : Z -> _ -> _ -> _ -> _ -> Prop) : ls !! h = Some [] -> cs !! h = Some (Some i) -> ts !! i = Some t ->
  (forall j, In j l -> exists tj, ts !! j = Some tj /\ (id tj = id t -> j = i)) -> In i l ->
  Q 0 (<[i := set_ctx InForceExit (set_killed 1 t)]> ts) (<[h := None]> cs) ls np ->
  thoare False ts cs ls np (kill_loop h (id t) l) Q.
Proof.
  intros Hl Hc Ht. induction l as [|j l IH]; intros Hall Hin HQ; [done|]. cbn [kill_loop].
  destruct (Hall j (or_introl eq_refl)) as (tj & Htj & Hid).
  apply (hoare_lock _ _ _ _ _ _ []); [done|in_list|]. apply hoare_rd; [stops|]. intros t' Ht'. known Ht'.
  destruct (Z.eqb_spec (id tj) (id t)) as [E|E].
  - rewrite (Hid E) in *. unfold force_exit. apply hoare_assoc. wr_step.
    apply hoare_assoc, hoare_mycpu; [stops|]. intros c E1 E2 _. rewrite Hc in E1. injection E1 as E1. rewrite <- E1.
    rewrite bool_decide_true by done. apply hoare_assoc.
    apply (hoare_bind _ _ _ _ _ _ (fun _ => Q 0)).
    + apply hoare_swtch; [look|stops|stops|]. intros t' Ht'. rewrite Ht in Htj. injection Htj as <-. known Ht'.
      by rewrite !list_insert_insert_eq, (list_insert_id ls).
    + intros [] ???? HQ'. do 2 apply hoare_ret_bind. by apply hoare_ret.
  - apply (hoare_unlock _ _ _ _ h _ [] []); [look|in_list..|]. cbn [app]. rewrite list_insert_insert_eq, list_insert_id by done.
    apply IH; [intros x Hx; apply Hall; by right| |done]. destruct Hin as [->|]; [congruence|done].
Qed.

(** The states after [k0]. *)
Inductive later (k0 : kernel W) : Z -> kernel W -> Prop :=
| later_refl : later k0 0 k0
| later_step m k h e k' : later k0 m k -> run h e k = Done (tt, k') -> later k0 (m + births e) k'.

Lemma later_good lost b k0 m k : good lost b k0 -> later k0 m k -> 0 <= b -> b + m * (Z.of_nat NTASK + 1) < 2 ^ 31 - 1 ->
  good lost (b + m * (Z.of_nat NTASK + 1)) k.
Proof.
  intros Hg Hl Hb. induction Hl as [|m k h e k' Hl IH Hrun]; intros Hm; [by rewrite Z.mul_0_l, Z.add_0_r|].
  pose proof (births_nonneg e).
  rewrite Z.mul_add_distr_r, Z.add_assoc in *. apply (step_good _ _ k h); [apply IH; unfold NTASK in *; lia|done|done].
Qed.

(** A task that kills itself is lost: [sys_kill] with the caller's own pid
    switches to the scheduler with the state still RUNNING, and in every
    later state the task is RUNNING, on no hart, with [killed] not acted on:
    it is never a zombie, so no [sys_wait] returns its pid and its slot,
    memory and files are never freed. *)
Theorem kill_self_lost n (k : kernel W) h c i t : reach n k -> n < 2 ^ 20 -> harts k !! h = Some c -> current c = Some i ->
  held c = [] -> tasks k !! i = Some t -> place t = Out -> s32 (reg A0 t) = id t ->
  match run h EKill k with
  | Done (_, k1) => forall m k2, later k1 m k2 -> n + m < 2 ^ 20 ->
      exists t2, tasks k2 !! i = Some t2 /\ state t2 = RUNNING /\
        forall h' c', harts k2 !! h' = Some c' -> current c' <> Some i
  | Panic msg => In msg rest_panics
  | _ => False
  end.
Proof.
  intros Hr Hn Hc Hci Hh Ht Hpl Ha0. destruct (reach_good n k Hr ltac:(lia)) as (ts & cs & ls & np & Hk & Hi & Hq).
  destruct (rep_hart _ _ _ _ _ _ _ Hk Hc) as (E1 & E2 & _). pose proof Hk as (Et & _). rewrite Et in *. rewrite Hci in E1. rewrite Hh in E2.
  destruct (current_ctx _ _ _ _ _ _ _ _ Hi E1 Ht) as [Hs _].
  assert (thoare False ts cs ls np (sys_kill h;;; ret tt) (fun _ ts' cs' ls' np' =>
    ts' = <[i := set_ctx InForceExit (set_killed 1 t)]> ts)) as H.
  { apply (hoare_bind _ _ _ _ _ _ (fun _ ts' _ _ _ => ts' = <[i := set_ctx InForceExit (set_killed 1 t)]> ts));
      [|intros ????? E; apply hoare_ret; exact E].
    unfold sys_kill. apply (hoare_mytask' _ _ _ _ _ i); [done|]. apply hoare_rd; [stops|]. intros t' Ht'. known Ht'. rewrite Ha0.
    apply (kill_self _ _ _ _ i t); try done.
    - intros j [_ Hj]%in_seq. destruct (lookup_lt_is_Some_2 ts j) as (tj & Htj); [rewrite (v_len _ _ _ _ _ Hi); exact Hj|].
      exists tj. split; [done|]. intros E. symmetry. apply (v_ids _ _ _ _ _ Hi i j t tj); [done|done|congruence|done].
    - apply in_seq. rewrite <- (v_len _ _ _ _ _ Hi). split; [lia|]. by eapply lookup_lt_Some. }
  specialize (H k Hk).
  pose proof (run_ok (lost := fun _ => False) ts cs ls np _ h EKill Hi Hq (fun _ _ => eq_refl) (bound_ok n EKill Hn) k Hk) as H'.
  assert (run h EKill k = (sys_kill h;;; ret tt) k) as E.
  { assert (mycpu h k = Done (c, k)) as Hm by (unfold mycpu; by rewrite Hc).
    unfold run. rewrite (bind_done _ _ _ _ _ Hm). unfold at_out. rewrite (bind_done _ _ _ _ _ Hm), Hci, Hh.
    unfold bind at 1, rd at 1. by rewrite Et, Ht, Hpl. }
  rewrite E in *. destruct ((sys_kill h;;; ret tt) k) as [[[] k1]| | | |]; [|done..].
  destruct H as (ts1 & cs1 & ls1 & np1 & (Et1 & _) & Hts1). destruct H' as (ts2 & cs2 & ls2 & np2 & Hk2 & Hi2 & Hq2).
  assert (ts2 = ts1) as -> by (destruct Hk2 as (Et2 & _); congruence).
  intros m k2 Hlater Hm. pose proof (bound_ok (n + m) EKill Hm) as Hb. cbn [births] in Hb. rewrite Z.mul_0_l, Z.add_0_r in *.
  assert (good (fun j => j = i) (bound n) k1) as Hg.
  { exists ts1, cs2, ls2, np2. split; [done|]. split; [|done]. destruct Hi2 as [V1 V2 V3 V4 V5 V6 _]. split; try done.
    intros j ->. exists (set_ctx InForceExit (set_killed 1 t)). rewrite Hts1, list_lookup_insert_eq by (by eapply lookup_lt_Some). done. }
  assert (0 <= n) as Hn0 by (clear -Hr; induction Hr; [lia|]; pose proof (births_nonneg e); lia).
  destruct (later_good _ _ _ m k2 Hg Hlater) as (ts3 & cs3 & ls3 & np3 & (Et3 & Ec3 & _) & Hi3 & _).
  { unfold bound, NTASK. lia. } { unfold bound in *. unfold NTASK in *. lia. }
  destruct (v_lost _ _ _ _ _ Hi3 i eq_refl) as (t3 & Ht3 & Hx3). rewrite Et3. exists t3. split; [done|].
  split; [by apply (t_lost _ _ _ _ _ _ (v_task _ _ _ _ _ Hi3 i t3 Ht3))|].
  intros h' c' Hc' Hcur. destruct (c_run _ _ (v_cur _ _ _ _ _ Hi3) h' i) as (t4 & Ht4 & _ & Hx4).
  { by rewrite <- Ec3, list_lookup_fmap, Hc', <- Hcur. }
  congruence.
Qed.
End Reach.

(** ** A run *)

(** The other components as a log of the bytes copied to user memory. *)
#[export] Instance log_rest : Rest (list (list Z)).
Proof.
  refine {| do_call := fun A c w =>
    match c in call A return result (A * list (list Z)) with
    | MemMallocPage => Done ((4096, repeat 1 NREGS), w)
    | UserPagetable _ => Done (8192, w)
    | MmapCreate _ => Done (12288, w)
    | Copyout _ _ bytes => Done (0, w ++ [bytes])
    | Namei _ => Done (Some 0%nat, w)
    | MemFree _ | FreePagetable _ | MmapDestroy _ | Mmap _ _ _ _ _ _ _ | CopyMmap _ _ _ _ | Fileclose _ | Filedup _
    | Iput _ | Idup _ | FirstRun => Done (tt, w)
    end; initcode := [147; 0; 0; 0]; rest_panics := [] |}.
  intros A c w msg. by destruct c.
Defined.

#[export] Instance log_returns : Returns (list (list Z)) False.
Proof. intros A c w. by destruct c. Qed.

Definition blank_task : task :=
  mkTask 0 RUNNING 0 0 Nowhere false 0 0 0 0 [] 0 None (mkSem 0 []) 0 0 (repeat None NOFILE) None Out.
Definition before_boot : kernel (list (list Z)) :=
  mkKernel (repeat blank_task NTASK) (repeat (mkHart (mkCpu 0 false false) None []) NCPU) 1 true [].

Fixpoint trace (l : list (nat * event)) : M (kernel (list (list Z))) unit :=
  match l with [] => ret tt | (h, e) :: l => run h e;;; trace l end.

Definition state_after (l : list (nat * event)) : kernel (list (list Z)) :=
  match (task_init;;; user_init 0;;; trace l) before_boot with Done (_, k) => k | _ => before_boot end.

Lemma reach_trace l : forall n k k', reach n k -> trace l k = Done (tt, k') ->
  reach (n + fold_right (fun p m => births (snd p) + m) 0 l) k'.
Proof.
  induction l as [|[h e] l IH]; intros n k k' Hr Hl; cbn [trace fold_right snd] in *.
  - injection Hl as <-. by rewrite Z.add_0_r.
  - unfold bind in Hl. destruct (run h e k) as [[[] k1]| | | |] eqn:E; try done.
    rewrite Z.add_assoc. apply (IH _ k1); [by apply (reach_step n k h e)|done].
Qed.

(** What the loader leaves. *)
Definition loaded (k0 : kernel (list (list Z))) : Prop :=
  first k0 = true /\ nextpid k0 = 1 /\ length (tasks k0) = NTASK /\ length (harts k0) = NCPU /\
  Forall (fun c => current c = None /\ held c = [] /\ hcpu c = mkCpu 0 false false) (harts k0) /\
  Forall (fun t => place t = Out /\ parent t = None /\ sons_sem t = mkSem 0 [] /\ ctx t = Nowhere /\ killed t = 0 /\ chan t = 0 /\
                   ofile t = repeat None NOFILE /\ cwd t = None) (tasks k0).

Lemma before_boot_loaded : loaded before_boot.
Proof.
  unfold loaded, before_boot. cbn [first nextpid tasks harts]. rewrite !repeat_length. split_and!; try reflexivity.
  - apply List.Forall_forall. intros c Hc. apply repeat_spec in Hc. by rewrite Hc.
  - apply List.Forall_forall. intros t Ht. apply repeat_spec in Ht. by rewrite Ht.
Qed.

Lemma boot_trace k0 l k : loaded k0 -> (task_init;;; user_init 0;;; trace l) k0 = Done (tt, k) ->
  reach (fold_right (fun p m => births (snd p) + m) 0 l) k.
Proof.
  intros (H1 & H2 & H3 & H4 & H5 & H6) H. apply bind_inv in H as ([] & k1 & E1 & H). apply bind_inv in H as ([] & k2 & E2 & H).
  apply (reach_trace l 0 k2); [|done]. apply reach_boot. exists k0. split_and!; [done..|]. unfold bind. by rewrite E1.
Qed.

(** Whether the run succeeds. *)
Definition runs (l : list (nat * event)) : bool :=
  match (task_init;;; user_init 0;;; trace l) before_boot with Done _ => true | _ => false end.

Lemma state_reach l : runs l = true -> reach (fold_right (fun p m => births (snd p) + m) 0 l) (state_after l).
Proof.
  intros H. apply (boot_trace before_boot); [exact before_boot_loaded|]. revert H. unfold runs, state_after.
  generalize ((task_init;;; user_init 0;;; trace l) before_boot). intros [[[] k]| | | |]; done.
Qed.

(** The first task forks; its child forks; the grandchild exits while the
    child runs, and the first task waits. *)
Definition family : list (nat * event) :=
  [(0, ESched 0); (0, EFork); (1, ESched 1); (1, EFork); (2, ESched 2); (2, EExit 7); (0, EWait)]%nat.

Definition task_of (l : list (nat * event)) (i : nat) : task := default blank_task (tasks (state_after l) !! i).
Definition hart_of (l : list (nat * event)) (h : nat) : hart := default (mkHart (mkCpu 0 false false) None []) (harts (state_after l) !! h).

Lemma no_lost_child_witness :
  state (task_of family 0) = SLEEPING /\ ctx (task_of family 0) = InP /\ state (task_of family 2) = ZOMBIE /\
  parent (task_of family 2) <> Some 0%nat.
Proof.
  split; [vm_compute; reflexivity|]. split; [vm_compute; reflexivity|]. split; [vm_compute; reflexivity|].
  apply (no_lost_child 3 (state_after family) 0 (task_of family 0) 2 (task_of family 2)).
  - apply (state_reach family). vm_compute. reflexivity.
  - lia.
  - vm_compute. reflexivity.
  - vm_compute. reflexivity.
  - vm_compute. reflexivity.
  - vm_compute. reflexivity.
  - vm_compute. reflexivity.
Defined.


Lemma task_table_ok_witness : exists t, tasks (state_after family) !! 1%nat = Some t /\ state t = RUNNING.
Proof.
  destruct (task_table_ok 3 (state_after family)) as (_ & H & _).
  - apply (state_reach family). vm_compute. reflexivity.
  - lia.
  - apply (H 1%nat (hart_of family 1) 1%nat); vm_compute; reflexivity.
Defined.

(** The parent of two children forks again. *)
Lemma fork_child_witness :
  match run 0 EFork (state_after [(0, ESched 0); (0, EFork)]%nat) with
  | Done (_, k') => exists j new, tasks k' !! j = Some new /\ id new = 3 /\ parent new = Some 0%nat
  | _ => False
  end.
Proof.
  set (l := [(0, ESched 0); (0, EFork)]%nat).
  pose proof (fork_child 1 (state_after l) 0 (hart_of l 0) 0 (task_of l 0) (state_reach l ltac:(vm_compute; reflexivity)) ltac:(lia) _
    ltac:(vm_compute; reflexivity) ltac:(vm_compute; reflexivity) ltac:(vm_compute; reflexivity) ltac:(vm_compute; reflexivity)
    ltac:(vm_compute; reflexivity) ltac:(exists 2%nat, (task_of l 2); split; vm_compute; reflexivity)) as H.
  destruct (run 0 EFork (state_after l)) as [[[] k']|msg| | |]; [|destruct H|done..].
  destruct H as (j & old & new & Hj & _ & _ & E & _ & _ & Hid & Hp & _). exists j, new. split.
  - rewrite E. apply list_lookup_insert_eq. rewrite length_insert. by eapply lookup_lt_Some.
  - split; [rewrite Hid; vm_compute; reflexivity|exact Hp].
Defined.

(** A child exits with [status]; its parent has looked at [tasks[0]]. *)
Definition reaping (status : Z) : list (nat * event) :=
  [(0, ESched 0); (0, EFork); (1, ESched 1); (1, EExit status); (0, EWait); (0, EScan)]%nat.

Lemma wait_reaps_witness :
  match run 0 EScan (state_after (reaping 7)) with
  | Done (_, k') => exists t, tasks k' !! 0%nat = Some t /\ reg A0 t = 2
  | _ => False
  end.
Proof.
  pose proof (wait_reaps 2 (state_after (reaping 7)) 0 (hart_of (reaping 7) 0) 0 (task_of (reaping 7) 0) 1 (task_of (reaping 7) 1)
    (state_reach (reaping 7) ltac:(vm_compute; reflexivity)) ltac:(lia) _
    ltac:(vm_compute; reflexivity) ltac:(vm_compute; reflexivity) ltac:(vm_compute; reflexivity) ltac:(vm_compute; reflexivity)
    ltac:(vm_compute; reflexivity) ltac:(apply Nat.ltb_lt; vm_compute; reflexivity) ltac:(vm_compute; reflexivity)
    ltac:(vm_compute; reflexivity) ltac:(vm_compute; reflexivity)) as H.
  destruct (run 0 EScan (state_after (reaping 7))) as [[[] k']|msg| | |]; [|destruct H|done..].
  destruct H as (free & E & _). exists (set_place Out (set_reg A0 (id (task_of (reaping 7) 1)) (task_of (reaping 7) 0))). split.
  - rewrite E. apply list_lookup_insert_eq. rewrite length_insert. apply Nat.ltb_lt. vm_compute. reflexivity.
  - vm_compute. reflexivity.
Defined.

Lemma kill_self_lost_witness :
  match run 0 EKill (state_after [(0, ESched 0)]%nat) with
  | Done (_, k1) => exists t2, tasks k1 !! 0%nat = Some t2 /\ state t2 = RUNNING
  | _ => False
  end.
Proof.
  set (l := [(0, ESched 0)]%nat).
  pose proof (kill_self_lost 0 (state_after l) 0 (hart_of l 0) 0 (task_of l 0) (state_reach l ltac:(vm_compute; reflexivity)) ltac:(lia)
    ltac:(vm_compute; reflexivity) ltac:(vm_compute; reflexivity) ltac:(vm_compute; reflexivity) ltac:(vm_compute; reflexivity)
    ltac:(vm_compute; reflexivity) ltac:(vm_compute; reflexivity)) as H.
  destruct (run 0 EKill (state_after l)) as [[[] k1]|msg| | |]; [|destruct H|done..].
  destruct (H 0 k1 (later_refl k1) ltac:(lia)) as (t2 & H1 & H2 & _). by exists t2.
Defined.

(** ** The exit status *)

Section Status.
Context {W : Type} `{!Rest W}.
Variables (p : nat) (x : Z).

(** The kernel with another exit status of [tasks[p]]. *)
Definition with_status (k : kernel W) : kernel W :=
  mkKernel (alter (set_xstatus x) p (tasks k)) (harts k) (nextpid k) (first k) (rest k).

Definition rmap {A} (f : kernel W -> kernel W) (r : result (A * kernel W)) : result (A * kernel W) :=
  match r with
  | Done (a, k) => Done (a, f k)
  | Panic msg => Panic msg
  | Fault => Fault
  | NoFuel => NoFuel
  | Blocked => Blocked
  end.

(** An operation that neither reads nor writes the status. *)
Definition blind {A} (m : M (kernel W) A) : Prop := forall k, m (with_status k) = rmap with_status (m k).

Lemma blind_bind {A B} (m : M (kernel W) A) (f : A -> M (kernel W) B) : blind m -> (forall a, blind (f a)) -> blind (bind m f).
Proof. intros Hm Hf k. unfold bind. rewrite Hm. destruct (m k) as [[a k']| | | |]; try done. apply Hf. Qed.

Lemma blind_ret {A} (a : A) : blind (ret a : M (kernel W) A).
Proof. by intros k. Qed.

Lemma blind_when (b : bool) (m : M (kernel W) unit) : blind m -> blind (when b m).
Proof. intros Hm. destruct b; [done|apply blind_ret]. Qed.

Lemma blind_other {A} (c : call A) : blind (other c : M (kernel W) A).
Proof. intros k. unfold other, with_status. cbn [rest]. by destruct (do_call c (rest k)) as [[a w]| | | |]. Qed.

Lemma blind_rd {A} (f : task -> A) i : (i = p -> forall t, f (set_xstatus x t) = f t) -> blind (rd f i : M (kernel W) A).
Proof.
  intros Hf k. unfold rd, with_status. cbn [tasks]. destruct (decide (i = p)) as [->|Hne].
  - rewrite list_lookup_alter_eq. destruct (tasks k !! p) as [t|]; [|done]. cbn. by rewrite Hf.
  - rewrite list_lookup_alter_ne by done. by destruct (tasks k !! i).
Qed.

Lemma blind_wr (g : task -> task) i : (i = p -> forall t, g (set_xstatus x t) = set_xstatus x (g t)) -> blind (wr g i : M (kernel W) unit).
Proof.
  intros Hg k. unfold wr, with_status. cbn [tasks harts nextpid first rest]. destruct (decide (i = p)) as [->|Hne].
  - rewrite list_lookup_alter_eq. destruct (tasks k !! p) as [t|] eqn:E; [|done]. cbn. rewrite Hg by done. do 4 f_equal.
    apply list_eq. intros j. destruct (decide (j = p)) as [->|Hj].
    + rewrite list_lookup_alter_eq, !list_lookup_insert_eq; [done|by eapply lookup_lt_Some|].
      rewrite length_alter. by eapply lookup_lt_Some.
    + by rewrite list_lookup_insert_ne, !list_lookup_alter_ne, list_lookup_insert_ne by done.
  - rewrite list_lookup_alter_ne by done. destruct (tasks k !! i) as [t|]; [|done]. cbn. do 4 f_equal.
    apply list_eq. intros j. destruct (decide (j = i)) as [->|Hj].
    + rewrite list_lookup_alter_ne by done. destruct (Nat.lt_ge_cases i (length (tasks k))) as [Hlt|Hge].
      * rewrite !list_lookup_insert_eq; [done..|]. by rewrite length_alter.
      * by rewrite !list_insert_ge, list_lookup_alter_ne by (rewrite ?length_alter; done).
    + rewrite list_lookup_insert_ne by done. destruct (decide (j = p)) as [->|Hjp].
      * by rewrite !list_lookup_alter_eq, list_lookup_insert_ne.
      * by rewrite !list_lookup_alter_ne, list_lookup_insert_ne by done.
Qed.

(** What only looks at the harts. *)
Lemma blind_lock h l : blind (lm_lock h l : M (kernel W) unit).
Proof.
  intros k. unfold lm_lock, push_off, mycpu, set_hart, modify, bind, with_status. cbn [harts].
  destruct (harts k !! h) as [c|]; [|done]. cbn [harts]. destruct (<[h:=_]> (harts k) !! h); [|done].
  by destruct (decide _).
Qed.

Lemma blind_unlock h l : blind (lm_unlock h l : M (kernel W) unit).
Proof.
  intros k. unfold lm_unlock, pop_off, mycpu, set_hart, modify, bind, with_status. cbn [harts].
  destruct (harts k !! h) as [c|]; [|done]. destruct (decide _); [|done]. cbn [harts].
  destruct (<[h:=_]> (harts k) !! h) as [c'|]; [|done]. by destruct (Lock.pop_off (hcpu c')).
Qed.

Lemma blind_close i l : blind (close_files i l : M (kernel W) unit).
Proof.
  induction l as [|fd l IH]; cbn [close_files]; [apply blind_ret|]. apply blind_bind; [by apply blind_rd|]. intros fs.
  destruct (fs !! fd) as [[f|]|]; [|done..]. apply blind_bind; [apply blind_other|]. intros _.
  apply blind_bind; [by apply blind_wr|]. by intros _.
Qed.

Lemma blind_free i : blind (free_task i : M (kernel W) unit).
Proof.
  unfold free_task.
  repeat first [ apply blind_close | by apply blind_wr | apply blind_bind; [|intros ?]
    | by apply blind_rd | apply blind_when | apply blind_other | apply blind_ret | case_match ].
Qed.

(** The exit status never reaches the parent: a round of [sys_wait] at
    [tasks[p]] by another task does the same, with the same effect on memory,
    registers and the other components, whatever status [tasks[p]] has exited
    with (it copies the caller's own [xstatus] to the caller's memory). *)
Theorem wait_ignores_status h i : i <> p -> blind (wait_slot h i p).
Proof.
  intros Hip. unfold wait_slot.
  repeat first [ apply blind_free | apply blind_lock | apply blind_unlock | by apply blind_wr | apply blind_bind; [|intros ?]
    | by apply blind_rd | by (apply blind_rd; intros ->) | apply blind_other | apply blind_ret | case_match ].
Qed.
End Status.

Lemma wait_ignores_status_witness :
  let k := state_after (reaping 7) in
  wait_slot 0 0 1 (with_status 1 9 k) = rmap (with_status 1 9) (wait_slot 0 0 1 k) /\
  match wait_slot 0 0 1 (with_status 1 9 k) with Done (_, k') => rest k' = [initcode; [0; 0; 0; 0]] | _ => False end.
Proof. split; [apply (wait_ignores_status 1 9 0 0); done|]. vm_compute. reflexivity. Defined.
