(* ===== verification/Hart.v ===== *)
(** * The registers of a hart, platform.h, start.c and plic.c; the boot, main.c

    A control register is a cell: fields that the hardware forces are not
    modelled.  The memory-mapped registers of the interrupt controllers are
    reached over a bus, an interface.  Addresses that the linker chooses are
    another.  The end of the file has [main]: the harts' calls in every order, and
    that none goes before the set-up. *)
From S2P Require Import Prelude.

(** ** memlayout.h *)

Definition NCPU : Z := 8.
Definition PGSIZE : Z := 4096.
Definition UART0_IRQ : Z := 10.
Definition VIRTIO0_IRQ : Z := 1.
Definition VIRTIO1_IRQ : Z := 2.
Definition VIRTIO2_IRQ : Z := 3.
Definition CLINT : Z := 33554432.              (* 0x2000000 *)
Definition CLINT_MTIMECMP (hartid : Z) : Z := CLINT + 16384 + 8 * hartid.
Definition CLINT_MTIME : Z := CLINT + 49144.
Definition PLIC : Z := 201326592.              (* 0x0c000000 *)
Definition PLIC_SENABLE (hart : Z) : Z := PLIC + 8320 + hart * 256.
Definition PLIC_SPRIORITY (hart : Z) : Z := PLIC + 2101248 + hart * 8192.
Definition PLIC_SCLAIM (hart : Z) : Z := PLIC + 2101252 + hart * 8192.
Definition MAXVA : Z := 2 ^ 38.
Definition TRAMPOLINE : Z := MAXVA - PGSIZE.

(** ** platform.h *)

Definition MSTATUS_MPP_MASK : Z := 3 * 2 ^ 11.
Definition MSTATUS_MPP_S : Z := 2 ^ 11.
Definition MSTATUS_MIE : Z := 2 ^ 3.
Definition SSTATUS_SPP : Z := 2 ^ 8.
Definition SSTATUS_SPIE : Z := 2 ^ 5.
Definition SSTATUS_SIE : Z := 2 ^ 1.
Definition SIE_SEIE : Z := 2 ^ 9.
Definition SIE_STIE : Z := 2 ^ 5.
Definition SIE_SSIE : Z := 2 ^ 1.
Definition MIE_MTIE : Z := 2 ^ 7.
Definition SATP_SV39 : Z := 8 * 2 ^ 60.
Definition MAKE_SATP (pagetable : Z) : Z := Z.lor SATP_SV39 (Z.shiftr pagetable 12).
Definition SCAUSE_INTERRUPT : Z := 2 ^ 63.

Inductive reg : Type :=
| mhartid | mstatus | mepc | sstatus | sip | sie | mie | sepc | medeleg | mideleg | stvec | mtvec | pmpcfg0 | pmpaddr0
| satp | mscratch | scause | stval | tp | mcounteren | time | sp | ra.

#[export] Instance reg_eq_dec : EqDecision reg.
Proof. solve_decision. Defined.

Class Bus (W : Type) : Type := {
  bus_read : Z -> W -> Z * W;
  bus_write : Z -> Z -> W -> W
}.

Class Symbols : Type := {
  main : Z; timervec : Z; kernelvec : Z; uservec : Z; userret : Z; trampoline : Z; usertrap_addr : Z;
  timer_scratch_addr : Z
}.

(** A hart with its bus and the array [timer_scratch]. *)
Record hart (W : Type) : Type := mkHart { regs : reg -> Z; bus : W; timer_scratch : Z -> Z -> Z }.
Arguments mkHart {W} regs bus timer_scratch.
Arguments regs {W} h.
Arguments bus {W} h.
Arguments timer_scratch {W} h.

Definition upd (r : reg) (x : Z) (f : reg -> Z) : reg -> Z := fun q => if decide (q = r) then x else f q.

Section Hart.
Context {W : Type} `{!Bus W} `{!Symbols}.
#[local] Abbreviation HM := (M (hart W)).

Definition csrr (r : reg) : HM Z := gets (fun h => regs h r).
Definition csrw (r : reg) (x : Z) : HM unit := modify (fun h => mkHart (upd r x (regs h)) (bus h) (timer_scratch h)).

Definition r_mhartid : HM Z := csrr mhartid.
Definition r_mstatus : HM Z := csrr mstatus.
Definition w_mstatus (x : Z) : HM unit := csrw mstatus x.
Definition w_mepc (x : Z) : HM unit := csrw mepc x.
Definition r_sstatus : HM Z := csrr sstatus.
Definition w_sstatus (x : Z) : HM unit := csrw sstatus x.
Definition r_sip : HM Z := csrr sip.
Definition w_sip (x : Z) : HM unit := csrw sip x.
Definition r_sie : HM Z := csrr sie.
Definition w_sie (x : Z) : HM unit := csrw sie x.
Definition r_mie : HM Z := csrr mie.
Definition w_mie (x : Z) : HM unit := csrw mie x.
Definition r_sepc : HM Z := csrr sepc.
Definition w_sepc (x : Z) : HM unit := csrw sepc x.
Definition w_medeleg (x : Z) : HM unit := csrw medeleg x.
Definition w_mideleg (x : Z) : HM unit := csrw mideleg x.
Definition w_stvec (x : Z) : HM unit := csrw stvec x.
Definition w_mtvec (x : Z) : HM unit := csrw mtvec x.
Definition w_pmpcfg0 (x : Z) : HM unit := csrw pmpcfg0 x.
Definition w_pmpaddr0 (x : Z) : HM unit := csrw pmpaddr0 x.
Definition w_satp (x : Z) : HM unit := csrw satp x.
Definition r_satp : HM Z := csrr satp.
Definition w_mscratch (x : Z) : HM unit := csrw mscratch x.
Definition r_scause : HM Z := csrr scause.
Definition r_medeleg : HM Z := csrr medeleg.
Definition r_mideleg : HM Z := csrr mideleg.
Definition r_stvec : HM Z := csrr stvec.
Definition r_stval : HM Z := csrr stval.
Definition w_mcounteren (x : Z) : HM unit := csrw mcounteren x.
Definition r_mcounteren : HM Z := csrr mcounteren.
Definition r_time : HM Z := csrr time.
Definition r_sp : HM Z := csrr sp.
Definition r_ra : HM Z := csrr ra.
Definition r_tp : HM Z := csrr tp.
Definition w_tp (x : Z) : HM unit := csrw tp x.

Definition intr_on : HM unit := x <- r_sstatus;; w_sstatus (Z.lor x SSTATUS_SIE).
Definition intr_off : HM unit := x <- r_sstatus;; w_sstatus (Z.ldiff x SSTATUS_SIE).
Definition intr_get : HM bool := x <- r_sstatus;; ret (negb (Z.land x SSTATUS_SIE =? 0)).

(** Translations are not cached in the model. *)
Definition sfence_vma : HM unit := ret tt.

(** vm.c; the page table is that of [kvm_init]. *)
Definition kvm_inithart (kernel_pagetable : Z) : HM unit :=
  sfence_vma;;; w_satp (MAKE_SATP kernel_pagetable);;; sfence_vma.

Definition cpuid : HM Z := x <- r_tp;; ret (s32 x).

(** An access over the bus. *)
Definition load (a : Z) : HM Z := fun h =>
  let '(x, b) := bus_read a (bus h) in Done (x, mkHart (regs h) b (timer_scratch h)).
Definition store (a x : Z) : HM unit := fun h =>
  Done (tt, mkHart (regs h) (bus_write a x (bus h)) (timer_scratch h)).

Definition set_scratch (id k x : Z) : HM unit := fun h =>
  if (0 <=? id) && (id <? NCPU) then
    Done (tt, mkHart (regs h) (bus h) (fun i j => if decide (i = id /\ j = k) then x else timer_scratch h i j))
  else Fault.

(** ** start.c *)

Definition timer_init : HM unit :=
  id <- r_mhartid;;
  let id := s32 id in
  let interval := 1000000 in
  now <- load CLINT_MTIME;;
  store (CLINT_MTIMECMP id) (u64 (now + interval));;;
  set_scratch id 3 (CLINT_MTIMECMP id);;;
  set_scratch id 4 interval;;;
  w_mscratch (timer_scratch_addr + 40 * id);;;
  w_mtvec timervec;;;
  x <- r_mstatus;; w_mstatus (Z.lor x MSTATUS_MIE);;;
  x <- r_mie;; w_mie (Z.lor x MIE_MTIE).

(** Up to the [mret]. *)
Definition start : HM unit :=
  x <- r_mstatus;;
  let x := Z.ldiff x MSTATUS_MPP_MASK in
  let x := Z.lor x MSTATUS_MPP_S in
  w_mstatus x;;;
  w_mepc main;;;
  w_satp 0;;;
  w_medeleg 65535;;;
  w_mideleg 65535;;;
  x <- r_sie;; w_sie (Z.lor (Z.lor (Z.lor x SIE_SEIE) SIE_STIE) SIE_SSIE);;;
  w_pmpaddr0 18014398509481983;;;
  w_pmpcfg0 15;;;
  timer_init;;;
  id <- r_mhartid;;
  w_tp id.

(** ** plic.c *)

Definition plic_init : HM unit :=
  store (PLIC + UART0_IRQ * 4) 1;;;
  store (PLIC + VIRTIO0_IRQ * 4) 1;;;
  store (PLIC + VIRTIO1_IRQ * 4) 1;;;
  store (PLIC + VIRTIO2_IRQ * 4) 1.

Definition plic_inithart : HM unit :=
  hart <- cpuid;;
  store (PLIC_SENABLE hart) (Z.lor (Z.lor (Z.lor (2 ^ UART0_IRQ) (2 ^ VIRTIO0_IRQ)) (2 ^ VIRTIO1_IRQ)) (2 ^ VIRTIO2_IRQ));;;
  store (PLIC_SPRIORITY hart) 0.

Definition plic_claim : HM Z :=
  hart <- cpuid;;
  x <- load (PLIC_SCLAIM hart);;
  ret (s32 x).

Definition plic_complete (irq : Z) : HM unit :=
  hart <- cpuid;;
  store (PLIC_SCLAIM hart) (u32 irq).

(** ** main.c

    The routines that [main] calls are definitions of their components; here
    they are steps of the harts, which share the flag [started]. *)

Inductive call : Type :=
| Console_init | Mem_init | Task_init | Plic_init | Plic_inithart | Trap_init | Trap_inithart | Kvm_init | Mmap_init
| Virtio_disk_init | Keyboard_init | Binit | Kvm_inithart | User_init | Scheduler.

Inductive instr : Type :=
| Call (f : call)
| Set_started                  (* started = 1 *)
| Wait_started.                (* while(started == 0) *)

(** What hart 0 sets up before it lets the others go. *)
Definition setup : list call :=
  [Console_init; Mem_init; Task_init; Plic_init; Plic_inithart; Trap_init; Trap_inithart; Kvm_init; Mmap_init;
   Virtio_disk_init; Keyboard_init; Binit].

Definition main_code (cpu : Z) : list instr :=
  (if cpu =? 0 then (Call <$> setup) ++ [Set_started; Call Kvm_inithart; Call User_init]
   else [Wait_started; Call Plic_inithart; Call Trap_inithart; Call Kvm_inithart]) ++ [Call Scheduler].

Definition main_ : HM (list instr) :=
  on <- intr_get;;
  if (on : bool) then panic "intr_get" else cpu <- cpuid;; ret (main_code cpu).
End Hart.

(** The flag, the code that each hart has before it, and the calls made, the
    oldest first. *)
Record boot : Type := mkBoot { started : bool; code : Z -> list instr; calls : list (Z * call) }.

Definition set_code (h : Z) (l : list instr) (f : Z -> list instr) : Z -> list instr :=
  fun k => if decide (k = h) then l else f k.

Inductive boot_step : boot -> boot -> Prop :=
| step_call h f l b : code b h = Call f :: l ->
    boot_step b (mkBoot (started b) (set_code h l (code b)) (calls b ++ [(h, f)]))
| step_started h l b : code b h = Set_started :: l -> boot_step b (mkBoot true (set_code h l (code b)) (calls b))
| step_wait h l b : code b h = Wait_started :: l -> boot_step b
    (mkBoot (started b) (if started b then set_code h l (code b) else code b) (calls b)).

Definition boot0 : boot := mkBoot false main_code [].

(** The calls in a piece of code, and those that a hart has made. *)
Definition code_calls (l : list instr) : list call := omap (fun i => match i with Call f => Some f | _ => None end) l.
Definition calls_of (h : Z) (l : list (Z * call)) : list call := snd <$> filter (fun p => p.1 = h) l.

(** Before the flag is set only hart 0 has moved; after, its set-up is behind. *)
Definition boot_phase (b : boot) : Prop :=
  if started b then exists l, calls b = ((fun f => (0, f)) <$> setup) ++ l /\ Set_started ∉ code b 0
  else (forall h, h <> 0 -> code b h = main_code h) /\
    exists d l, setup = d ++ l /\ calls b = (fun f => (0, f)) <$> d /\
      code b 0 = (Call <$> l) ++ [Set_started; Call Kvm_inithart; Call User_init; Call Scheduler].

Definition boot_ok (b : boot) : Prop :=
  boot_phase b /\ (forall h, calls_of h (calls b) ++ code_calls (code b h) = code_calls (main_code h)) /\
  forall h, h <> 0 -> Set_started ∉ code b h.

Lemma set_code_eq h l f : set_code h l f h = l.
Proof. unfold set_code. by rewrite decide_True. Qed.

Lemma set_code_ne h l f k : k <> h -> set_code h l f k = f k.
Proof. intros H. unfold set_code. by rewrite decide_False. Qed.

(** One hart moves on: the calls and what is left stay in program order. *)
Lemma boot_order_step b h i l cs k :
  code b h = i :: l -> cs = calls b ++ match i with Call f => [(h, f)] | _ => [] end ->
  calls_of k cs ++ code_calls (set_code h l (code b) k) = calls_of k (calls b) ++ code_calls (code b k).
Proof.
  intros Hc ->. unfold calls_of. rewrite filter_app, fmap_app, <- app_assoc. f_equal.
  destruct (decide (k = h)) as [->|Hne].
  - rewrite set_code_eq, Hc. destruct i as [f| |]; [|done|done]. rewrite filter_cons_True by done. done.
  - rewrite set_code_ne by done. destruct i as [f| |]; [|done|done]. by rewrite filter_cons_False by (cbn; congruence).
Qed.

Lemma not_here_step b h i l k : code b h = i :: l -> Set_started ∉ code b k -> Set_started ∉ set_code h l (code b) k.
Proof.
  intros Hc. destruct (decide (k = h)) as [->|Hne]; [|by rewrite set_code_ne].
  rewrite set_code_eq, Hc, elem_of_cons. tauto.
Qed.

Lemma boot_ok_step b b' : boot_step b b' -> boot_ok b -> boot_ok b'.
Proof.
  intros Hs (Hp & Ho & Hn). destruct Hs as [h f l b Hc|h l b Hc|h l b Hc].
  - split; [|split; [intros k; cbn [calls code]; by rewrite (boot_order_step b h (Call f) l _ k Hc eq_refl)|
      intros k Hk; by apply (not_here_step b h (Call f)), Hn]].
    unfold boot_phase in *. cbn [calls code started]. destruct (started b).
    + destruct Hp as (r & -> & H0). exists (r ++ [(h, f)]). rewrite app_assoc. split; [done|].
      by apply (not_here_step b h (Call f)).
    + destruct Hp as (Hother & d & r & Hd & Hcalls & H0). destruct (decide (h = 0)) as [->|Hh].
      * rewrite H0 in Hc. destruct r as [|g r]; [done|]. injection Hc as <- <-. split.
        { intros k Hk. rewrite set_code_ne by done. by apply Hother. }
        exists (d ++ [g]), r. rewrite set_code_eq, <- app_assoc, Hcalls, fmap_app. done.
      * rewrite (Hother h Hh) in Hc. unfold main_code in Hc. by rewrite (proj2 (Z.eqb_neq h 0) Hh) in Hc.
  - assert (h = 0) as ->.
    { destruct (decide (h = 0)) as [|Hh]; [done|]. exfalso. apply (Hn h Hh). rewrite Hc. by left. }
    split; [|split; [intros k; cbn [calls code]; by rewrite (boot_order_step b 0 Set_started l _ k Hc (eq_sym (app_nil_r _)))|
      intros k Hk; by apply (not_here_step b 0 Set_started), Hn]].
    unfold boot_phase in *. cbn [calls code started]. destruct (started b).
    + destruct Hp as (r & E & H0). exists r. split; [done|]. by apply (not_here_step b 0 Set_started).
    + destruct Hp as (_ & d & r & Hd & Hcalls & H0). rewrite H0 in Hc. destruct r as [|g r]; [|done].
      injection Hc as <-. rewrite app_nil_r in Hd. subst d. exists []. rewrite app_nil_r, set_code_eq. split; [done|].
      rewrite !not_elem_of_cons. split_and!; [done..|apply not_elem_of_nil].
  - destruct (started b) eqn:Hst; [|by destruct b; cbn in *; subst].
    split; [|split; [intros k; cbn [calls code]; by rewrite (boot_order_step b h Wait_started l _ k Hc (eq_sym (app_nil_r _)))|
      intros k Hk; by apply (not_here_step b h Wait_started), Hn]].
    unfold boot_phase in *. cbn [calls code started]. rewrite Hst in Hp. destruct Hp as (r & E & H0). exists r. split; [done|].
    by apply (not_here_step b h Wait_started).
Qed.

(** However the harts interleave, each makes its calls in the order of [main],
    and what a hart other than 0 does comes after all of the set-up: no hart
    enters the scheduler or turns on paging before memory, tasks, page tables
    and devices are ready. *)
Theorem boot_in_order b :
  rtc boot_step boot0 b ->
  (forall h, exists l, code_calls (main_code h) = calls_of h (calls b) ++ l) /\
  forall h f, h <> 0 -> (h, f) ∈ calls b ->
    exists l, calls b = ((fun f => (0, f)) <$> setup) ++ l /\ (h, f) ∈ l.
Proof.
  intros Hr. assert (boot_ok b) as (Hp & Ho & _).
  { revert Hr. apply (rtc_ind_r (fun c => boot_ok c)); [|intros y z _ Hs; by apply boot_ok_step].
    split; [split; [done|by exists [], setup]|]. split; [done|]. intros h Hh. cbn. unfold main_code.
    rewrite (proj2 (Z.eqb_neq h 0) Hh). cbn. rewrite !not_elem_of_cons. split_and!; [done..|apply not_elem_of_nil]. }
  split; [intros h; eexists; symmetry; apply Ho|]. intros h f Hh Hin. unfold boot_phase in Hp.
  assert (forall d, (h, f) ∉ (fun f => (0, f)) <$> d) as Hnot by (intros d (g & [= E _] & _)%list_elem_of_fmap; done).
  destruct (started b); [|destruct Hp as (_ & d & l & _ & E & _); rewrite E in Hin; by destruct (Hnot d)].
  destruct Hp as (l & E & _). exists l. split; [done|]. rewrite E in Hin.
  apply elem_of_app in Hin as [Hin|Hin]; [by destruct (Hnot setup)|done].
Qed.
