(* ===== verification/Trap.v ===== *)
(** * Traps and system calls: trap.c and syscall.c

    The machine is the hart that runs the code, the counter [ticks] and the
    current task.  The handlers of the other components are an interface, on
    the whole machine: [yield] may come back on another hart, and what other
    tasks did to the control registers shows.  [exit] does not return; what
    follows it is left out.  Messages are left out. *)
From S2P Require Import Prelude Hart.

(** The members of the trap frame that the two files use. *)
Record trapframe_t : Type := mkTf {
  kernel_satp : Z;
  kernel_sp : Z;
  kernel_trap : Z;
  epc : Z;
  kernel_hartid : Z;
  tf_a0 : Z;
  tf_a7 : Z
}.

Record task_t : Type := mkTask { running : bool; kstack : Z; pagetable : Z; trapframe : trapframe_t }.

Record machine (W : Type) : Type := mkMachine { hart_of : hart W; ticks : Z; current : option task_t }.
Arguments mkMachine {W}.
Arguments hart_of {W}.
Arguments ticks {W}.
Arguments current {W}.

(** The system calls, in the order of their numbers. *)
Inductive sys : Type :=
| sys_putc | sys_exit | sys_fork | sys_wait | sys_mmap | sys_munmap | sys_write | sys_read | sys_getpid | sys_kill
| sys_exec | sys_open | sys_chdir | sys_ioctl | sys_close.

Definition syscalls : list (option sys) :=
  [None; Some sys_putc; Some sys_exit; Some sys_fork; Some sys_wait; Some sys_mmap; Some sys_munmap; Some sys_write;
   Some sys_read; Some sys_getpid; Some sys_kill; Some sys_exec; Some sys_open; Some sys_chdir; Some sys_ioctl;
   Some sys_close].

(** The routines of the other components. *)
Inductive call : Type -> Type :=
| uart_intr : call unit
| virtio_disk_intr : call unit
| virtio_gpu_intr : call unit
| virtio_input_intr : call unit
| wakeup_ticks : call unit
| yield : call unit
| handle_pagefault : call unit
| killed : call bool
| exit_call (status : Z) : call unit
| uart_putc (c : Z) : call unit
| other_sys (n : sys) : call unit.

Class Kernel (W : Type) : Type := {
  do_call : forall {A}, call A -> machine W -> result (A * machine W)
}.

Section Trap.
Context {W : Type} `{!Bus W} `{!Symbols} `{!Kernel W}.
#[local] Abbreviation TM := (M (machine W)).

Definition on_hart {A} (m : M (hart W) A) : TM A :=
  zoom hart_of (fun h s => mkMachine h (ticks s) (current s)) m.

(** [mytask()]; a null task that is dereferenced is a fault. *)
Definition mytask : TM (option task_t) := gets current.
Definition the_task : TM task_t := t <- mytask;; match t with Some t => ret t | None => fault end.
Definition set_tf (f : trapframe_t -> trapframe_t) : TM unit := fun s =>
  match current s with
  | Some t => Done (tt, mkMachine (hart_of s) (ticks s)
                (Some (mkTask (running t) (kstack t) (pagetable t) (f (trapframe t)))))
  | None => Fault
  end.

(** ** syscall.c *)

Definition run_sys (n : sys) : TM unit :=
  match n with
  | sys_putc => t <- the_task;; do_call (uart_putc (u8 (tf_a0 (trapframe t))))
  | _ => do_call (other_sys n)
  end.

Definition syscall : TM unit :=
  t <- mytask;;
  match t with
  | None => ret tt
  | Some t =>
      let num := s32 (tf_a7 (trapframe t)) in
      if (0 <? num) && (num <? Z.of_nat (length syscalls)) then
        match syscalls !! Z.to_nat num with
        | Some (Some n) => run_sys n
        | _ => ret tt
        end
      else ret tt
  end.

(** ** trap.c *)

Definition trap_inithart : TM unit := on_hart (w_stvec kernelvec).

Definition clockintr : TM unit :=
  modify (fun s => mkMachine (hart_of s) (u32 (ticks s + 1)) (current s));;;
  do_call wakeup_ticks.

Definition handle_external : TM unit :=
  irq <- on_hart plic_claim;;
  (if irq =? UART0_IRQ then do_call uart_intr
   else if irq =? VIRTIO0_IRQ then do_call virtio_disk_intr
   else if irq =? VIRTIO1_IRQ then do_call virtio_gpu_intr
   else if irq =? VIRTIO2_IRQ then do_call virtio_input_intr
   else ret tt);;;
  on_hart (plic_complete irq).

Definition handle_software : TM unit :=
  pc <- on_hart r_sepc;;
  st <- on_hart r_sstatus;;
  x <- on_hart r_sip;;
  on_hart (w_sip (Z.ldiff x SIE_SSIE));;;
  id <- on_hart cpuid;;
  when (id =? 0) clockintr;;;
  t <- mytask;;
  when (match t with Some t => running t | None => false end) (do_call yield);;;
  on_hart (w_sepc pc);;;
  on_hart (w_sstatus st).

(** [handle_accessfault] is a panic. *)
Definition handle_accessfault : TM unit := panic "access fault".

Definition handle_trap : TM unit :=
  cause <- on_hart r_scause;;
  if negb (Z.land cause SCAUSE_INTERRUPT =? 0) then
    let code := Z.ldiff cause SCAUSE_INTERRUPT in
    if code =? 1 then handle_software
    else if code =? 9 then handle_external
    else ret tt
  else if (cause =? 13) || (cause =? 15) || (cause =? 12) then do_call handle_pagefault
  else if (cause =? 1) || (cause =? 5) || (cause =? 7) then handle_accessfault;;; panic "handle_trap"
  else panic "handle_trap".

Definition kerneltrap : TM unit :=
  st <- on_hart r_sstatus;;
  if Z.land st SSTATUS_SPP =? 0 then panic "kerneltrap: not from supervisor mode"
  else
    on <- on_hart intr_get;;
    if on : bool then panic "kerneltrap: interrupts enabled" else handle_trap.

(** How a trap from user space ends: in [userret] with the page table of its
    argument, or in [exit]. *)
Inductive way : Type :=
| ToUser (va_userret satp : Z)
| Exited.

Definition usertrapret : TM way :=
  t <- the_task;;
  on_hart intr_off;;;
  let va_uservec := TRAMPOLINE + (uservec - trampoline) in
  on_hart (w_stvec va_uservec);;;
  satp <- on_hart r_satp;;
  id <- on_hart r_tp;;
  set_tf (fun f => mkTf satp (u64 (kstack t + PGSIZE)) usertrap_addr (epc f) id (tf_a0 f) (tf_a7 f));;;
  x <- on_hart r_sstatus;;
  let x := Z.ldiff x SSTATUS_SPP in
  let x := Z.lor x SSTATUS_SPIE in
  on_hart (w_sstatus x);;;
  t <- the_task;;
  let satp := MAKE_SATP (pagetable t) in
  on_hart (w_sepc (epc (trapframe t)));;;
  ret (ToUser (TRAMPOLINE + (userret - trampoline)) satp).

Definition set_epc (x : Z) (f : trapframe_t) : trapframe_t :=
  mkTf (kernel_satp f) (kernel_sp f) (kernel_trap f) x (kernel_hartid f) (tf_a0 f) (tf_a7 f).

Definition exit (status : Z) : TM way := do_call (exit_call status);;; ret Exited.

(** The end of [usertrap]. *)
Definition usertrap_end : TM way :=
  k <- do_call killed;;
  if k : bool then exit 0 else usertrapret.

Definition usertrap : TM way :=
  st <- on_hart r_sstatus;;
  if negb (Z.land st SSTATUS_SPP =? 0) then panic "usertrap: not from user mode"
  else
    on_hart (w_stvec kernelvec);;;
    pc <- on_hart r_sepc;;
    set_tf (set_epc pc);;;
    cause <- on_hart r_scause;;
    if cause =? 8 then
      k <- do_call killed;;
      if k : bool then exit 0
      else
        set_tf (fun f => set_epc (u64 (epc f + 4)) f);;;
        on_hart intr_on;;;
        syscall;;;
        usertrap_end
    else
      handle_trap;;;
      usertrap_end.
End Trap.
