(* ===== verification/TrapTheorems.v ===== *)
(** * Properties of the boot code and of the traps *)
From S2P Require Import Prelude Hart Trap.

Lemma upd_eq r x f : upd r x f r = x.
Proof. unfold upd. by rewrite decide_True. Qed.

Lemma upd_ne r q x f : q <> r -> upd r x f q = f q.
Proof. intros H. unfold upd. by rewrite decide_False. Qed.

(** Read a register through the writes before it. *)
Ltac regs := repeat first [rewrite upd_eq | rewrite upd_ne by discriminate].

(** Bits of the words that the code composes. *)
Lemma set_bit x n i : 0 <= n -> 0 <= i -> Z.testbit (Z.lor x (2 ^ n)) i = (i =? n) || Z.testbit x i.
Proof.
  intros Hn Hi. rewrite Z.lor_spec, Z.pow2_bits_eqb by done. rewrite orb_comm. f_equal. apply Z.eqb_sym.
Qed.

Lemma clear_bit x n i : 0 <= n -> 0 <= i -> Z.testbit (Z.ldiff x (2 ^ n)) i = negb (i =? n) && Z.testbit x i.
Proof.
  intros Hn Hi. rewrite Z.ldiff_spec, Z.pow2_bits_eqb by done. rewrite andb_comm. do 2 f_equal. apply Z.eqb_sym.
Qed.

Lemma test_bit x n : 0 <= n -> Z.land x (2 ^ n) = 0 <-> Z.testbit x n = false.
Proof.
  intros Hn. split; intros H.
  - apply (f_equal (fun z => Z.testbit z n)) in H. rewrite Z.land_spec, Z.pow2_bits_eqb, Z.eqb_refl, Z.bits_0 in H by done.
    by rewrite andb_true_r in H.
  - apply Z.bits_inj'. intros i Hi. rewrite Z.land_spec, Z.pow2_bits_eqb, Z.bits_0 by done.
    destruct (Z.eqb_spec n i) as [<-|]; [by rewrite H|apply andb_false_r].
Qed.

Section Start.
Context {W : Type} `{!Bus W} `{!Symbols}.
Implicit Types (h : hart W).

(** On each hart [start] arranges for its [mret] to enter [main] in
    supervisor mode with paging off: the previous mode in [mstatus] is
    supervisor, the machine's interrupts are on, and no other bit of it
    changes.  All traps are delegated, supervisor interrupts are enabled, all
    memory is accessible, [tp] holds the hart's number, and the timer of this
    hart fires 1000000 ticks from now into [timervec], which finds its
    registers in the hart's own row of [timer_scratch]. *)
Theorem start_enters_supervisor h : 0 <= regs h mhartid < NCPU ->
  exists h', start h = Done (tt, h') /\
    let f := regs h' in
    let id := regs h mhartid in
    (forall i, 0 <= i -> Z.testbit (f mstatus) i =
       if i =? 11 then true else if i =? 12 then false else (i =? 3) || Z.testbit (regs h mstatus) i) /\
    f mepc = main /\ f satp = 0 /\ f medeleg = 65535 /\ f mideleg = 65535 /\ f pmpaddr0 = 2 ^ 54 - 1 /\ f pmpcfg0 = 15 /\
    (forall i, 0 <= i -> Z.testbit (f sie) i = (i =? 1) || (i =? 5) || (i =? 9) || Z.testbit (regs h sie) i) /\
    (forall i, 0 <= i -> Z.testbit (f mie) i = (i =? 7) || Z.testbit (regs h mie) i) /\
    f tp = id /\ f mtvec = timervec /\ f mscratch = timer_scratch_addr + 40 * id /\
    timer_scratch h' id 3 = CLINT_MTIMECMP id /\ timer_scratch h' id 4 = 1000000 /\
    (forall i k, i <> id -> timer_scratch h' i k = timer_scratch h i k) /\
    let '(now, b) := bus_read CLINT_MTIME (bus h) in
    bus h' = bus_write (CLINT_MTIMECMP id) (u64 (now + 1000000)) b.
Proof.
  intros Hid. destruct h as [f b sc]. cbn [regs bus timer_scratch] in *.
  assert (s32 (f mhartid) = f mhartid) as Es by (unfold s32, NCPU in *; zdiv).
  destruct (bus_read CLINT_MTIME b) as [now b'] eqn:Eb.
  eexists. split.
  { unfold start, timer_init, r_mstatus, w_mstatus, w_mepc, w_satp, w_medeleg, w_mideleg, r_sie, w_sie, w_pmpaddr0,
      w_pmpcfg0, r_mhartid, w_mscratch, w_mtvec, r_mie, w_mie, w_tp, csrr, csrw, load, store, set_scratch.
    unfold bind, gets, modify. cbn [regs bus timer_scratch]. regs. rewrite Eb, Es.
    rewrite (proj2 (Z.leb_le 0 _)), (proj2 (Z.ltb_lt _ NCPU)) by lia. cbn [andb regs bus timer_scratch]. regs. reflexivity. }
  cbn [regs bus timer_scratch]. regs. split_and!; try done.
  - intros i Hi. change MSTATUS_MIE with (2 ^ 3). change MSTATUS_MPP_S with (2 ^ 11).
    rewrite !set_bit, Z.ldiff_spec by lia. change MSTATUS_MPP_MASK with (Z.lor (2 ^ 11) (2 ^ 12)).
    rewrite set_bit, Z.pow2_bits_eqb by lia. rewrite (Z.eqb_sym 11 i).
    destruct (Z.eqb_spec i 11) as [->|]; [done|]. destruct (Z.eqb_spec i 12) as [->|]; [cbn; by rewrite andb_false_r|].
    cbn. by rewrite andb_true_r.
  - intros i Hi. change SIE_SSIE with (2 ^ 1). change SIE_STIE with (2 ^ 5). change SIE_SEIE with (2 ^ 9).
    rewrite !set_bit by lia. by rewrite !orb_assoc.
  - intros i Hi. change MIE_MTIE with (2 ^ 7). by rewrite set_bit by lia.
  - by rewrite decide_False, decide_True by lia.
  - by rewrite decide_True.
  - intros i k Hne. by rewrite !decide_False by tauto.
Qed.
End Start.

Section Traps.
Context {W : Type} {BW : Bus W} {SY : Symbols} {KW : Kernel W}.
Implicit Types (s : machine W) (t : task_t).

Abbreviation reg_of s r := (regs (hart_of s) r).

(** The state with a register changed. *)
Definition set_reg (r : reg) (x : Z) s : machine W :=
  mkMachine (mkHart (upd r x (regs (hart_of s))) (bus (hart_of s)) (timer_scratch (hart_of s))) (ticks s) (current s).

Lemma on_csrr r s : on_hart (csrr r) s = Done (reg_of s r, s).
Proof. by destruct s. Qed.

Lemma on_csrw r x s : on_hart (csrw r x) s = Done (tt, set_reg r x s).
Proof. done. Qed.

Lemma read_bind {B} r (k : Z -> M (machine W) B) s : bind (on_hart (csrr r)) k s = k (reg_of s r) s.
Proof. exact (bind_done _ _ _ _ _ (on_csrr r s)). Qed.

Lemma write_bind {B} r x (k : unit -> M (machine W) B) s : bind (on_hart (csrw r x)) k s = k tt (set_reg r x s).
Proof. exact (bind_done _ _ _ _ _ (on_csrw r x s)). Qed.

(** Run the register accesses at the head of a computation. *)
Ltac csrs :=
  unfold r_mhartid, r_sstatus, w_sstatus, r_sip, w_sip, r_sepc, w_sepc, w_stvec, r_satp, r_scause, r_tp;
  repeat first [rewrite read_bind | rewrite write_bind].

Definition sstatus_user (x : Z) : Z := Z.lor (Z.ldiff (Z.ldiff x SSTATUS_SIE) SSTATUS_SPP) SSTATUS_SPIE.

(** What [userret] and its [sret] rely on: the program counter is the task's,
    the mode to return to is the user's, with interrupts off until then and on
    after, the next trap goes to [uservec], which finds what it needs to come
    back to the kernel in the trap frame; [sstatus] has no other change
    against [x]. *)
Record user_ready (x : Z) (va satp' : Z) s : Prop := {
  U_task : exists t, current s = Some t /\ reg_of s sepc = epc (trapframe t) /\ satp' = MAKE_SATP (pagetable t) /\
    kernel_satp (trapframe t) = reg_of s satp /\ kernel_sp (trapframe t) = u64 (kstack t + PGSIZE) /\
    kernel_trap (trapframe t) = usertrap_addr /\ kernel_hartid (trapframe t) = reg_of s tp;
  U_status : forall i, 0 <= i -> Z.testbit (reg_of s sstatus) i =
    if i =? 5 then true else if (i =? 8) || (i =? 1) then false else Z.testbit x i;
  U_stvec : reg_of s stvec = TRAMPOLINE + (uservec - trampoline);
  U_va : va = TRAMPOLINE + (userret - trampoline)
}.

Lemma intr_off_run {B} (k : unit -> M (machine W) B) s :
  bind (on_hart intr_off) k s = k tt (set_reg sstatus (Z.ldiff (reg_of s sstatus) SSTATUS_SIE) s).
Proof. apply bind_done. done. Qed.

Lemma usertrapret_spec s t : current s = Some t ->
  exists va satp' s', usertrapret s = Done (ToUser va satp', s') /\ user_ready (reg_of s sstatus) va satp' s' /\
    (exists t', current s' = Some t' /\ running t' = running t /\ pagetable t' = pagetable t /\
       epc (trapframe t') = epc (trapframe t) /\ tf_a0 (trapframe t') = tf_a0 (trapframe t)).
Proof.
  intros Ht. destruct s as [h n c]. cbn in Ht. subst c. unfold usertrapret, the_task, mytask.
  rewrite bind_assoc, bind_gets. cbn [current]. rewrite bind_ret, intr_off_run. csrs.
  eexists _, _, _. split; [reflexivity|]. split; [|by eexists].
  constructor; [| |cbn; regs; done|done].
  - eexists. split; [reflexivity|]. cbn. regs. done.
  - intros i Hi. cbn. regs. change SSTATUS_SPIE with (2 ^ 5). change SSTATUS_SPP with (2 ^ 8). change SSTATUS_SIE with (2 ^ 1).
    rewrite set_bit, !clear_bit by lia. destruct (i =? 5), (i =? 8), (i =? 1); done.
Qed.

(** C15. Every trap from user space that returns to it does so ready: whatever
    the handlers did, the hart resumes the current task at the program
    counter and with the page table of the task, in user mode, with
    interrupts on only from then on, and the next trap finds the kernel's
    page table, stack, handler and hart number in the trap frame. *)
Theorem usertrap_returns_ready s va satp' s' :
  usertrap s = Done (ToUser va satp', s') -> exists x, user_ready x va satp' s'.
Proof.
  assert (forall s1, usertrapret s1 = Done (ToUser va satp', s') -> exists x, user_ready x va satp' s') as Hret.
  { intros s1 H. destruct (current s1) as [t|] eqn:Ht.
    - destruct (usertrapret_spec s1 t Ht) as (? & ? & ? & H' & Hr & _). rewrite H in H'. injection H' as <- <- <-. eauto.
    - unfold usertrapret, the_task, mytask, bind, gets in H. rewrite Ht in H. done. }
  assert (forall s1 st, exit st s1 = Done (ToUser va satp', s') -> exists x, user_ready x va satp' s') as Hexit.
  { intros s1 st (? & ? & _ & H)%bind_inv. done. }
  assert (forall s1, usertrap_end s1 = Done (ToUser va satp', s') -> exists x, user_ready x va satp' s') as Hend.
  { intros s1 (k & s2 & _ & H)%bind_inv. destruct k; [by eapply Hexit|by eapply Hret]. }
  unfold usertrap. csrs. destruct (negb _); [done|]. csrs.
  intros ([] & s1 & _ & Hr)%bind_inv. revert Hr. csrs. intros H. destruct (_ =? 8).
  - apply bind_inv in H as (k & s2 & _ & H). destruct k; [by eapply Hexit|].
    apply bind_inv in H as (? & ? & _ & H). apply bind_inv in H as (? & ? & _ & H). apply bind_inv in H as (? & ? & _ & H).
    by eapply Hend.
  - apply bind_inv in H as (? & ? & _ & H). by eapply Hend.
Qed.

(** ** Traps from the kernel *)

Definition is_handler (c : call unit) : Prop :=
  c ∈ [uart_intr; virtio_disk_intr; virtio_gpu_intr; virtio_input_intr; wakeup_ticks].

Definition same_pc s s' : Prop := reg_of s' sepc = reg_of s sepc /\ reg_of s' sstatus = reg_of s sstatus.

Lemma external_quiet s :
  (forall c s, is_handler c -> exists s', do_call c s = Done (tt, s') /\ same_pc s s') ->
  exists s', handle_external s = Done (tt, s') /\ same_pc s s' /\
    exists irq b, bus (hart_of s') = bus_write (PLIC_SCLAIM (s32 (reg_of s' tp))) irq b /\
      irq = u32 (s32 (bus_read (PLIC_SCLAIM (s32 (reg_of s tp))) (bus (hart_of s))).1).
Proof.
  intros Hq. unfold handle_external.
  destruct (bus_read (PLIC_SCLAIM (s32 (reg_of s tp))) (bus (hart_of s))) as [x b] eqn:Eb. cbn [fst].
  assert (on_hart plic_claim s = Done (s32 x, mkMachine (mkHart (regs (hart_of s)) b (timer_scratch (hart_of s))) (ticks s) (current s))) as E.
  { unfold on_hart, zoom, plic_claim, cpuid, r_tp, csrr, load, bind, gets, ret. by rewrite Eb. }
  rewrite (bind_done _ _ _ _ _ E). clear E. set (s1 := mkMachine _ _ _).
  assert (exists s2, (if s32 x =? UART0_IRQ then do_call uart_intr
     else if s32 x =? VIRTIO0_IRQ then do_call virtio_disk_intr
     else if s32 x =? VIRTIO1_IRQ then do_call virtio_gpu_intr
     else if s32 x =? VIRTIO2_IRQ then do_call virtio_input_intr else ret tt) s1 = Done (tt, s2) /\ same_pc s1 s2) as (s2 & E & Hs2).
  { destruct (_ =? _); [apply Hq; unfold is_handler; set_solver|].
    destruct (_ =? _); [apply Hq; unfold is_handler; set_solver|].
    destruct (_ =? _); [apply Hq; unfold is_handler; set_solver|].
    destruct (_ =? _); [apply Hq; unfold is_handler; set_solver|]. by exists s1. }
  rewrite (bind_done _ _ _ _ _ E). eexists. split; [reflexivity|]. split; [by destruct Hs2|]. by eexists _, _.
Qed.

Lemma software_quiet s :
  (forall c s, is_handler c -> exists s', do_call c s = Done (tt, s') /\ same_pc s s') ->
  (forall s, exists s', do_call yield s = Done (tt, s')) ->
  exists s', handle_software s = Done (tt, s') /\ same_pc s s'.
Proof.
  intros Hq Hy. unfold handle_software. csrs. set (s1 := set_reg sip _ s).
  assert (on_hart cpuid s1 = Done (s32 (reg_of s1 tp), s1)) as E by (by destruct s1).
  rewrite (bind_done _ _ _ _ _ E). clear E.
  assert (exists s2, when (s32 (reg_of s1 tp) =? 0) clockintr s1 = Done (tt, s2)) as [s2 E].
  { destruct (_ =? 0); [|by exists s1]. cbn [when]. unfold clockintr. rewrite bind_modify.
    destruct (Hq wakeup_ticks (mkMachine (hart_of s1) (u32 (ticks s1 + 1)) (current s1))) as (s2 & H & _);
      [unfold is_handler; set_solver|]. by exists s2. }
  rewrite (bind_done _ _ _ _ _ E). unfold mytask. rewrite bind_gets.
  assert (exists s3, when (match current s2 with Some t => running t | None => false end) (do_call yield) s2 = Done (tt, s3)) as [s3 E3].
  { destruct (match current s2 with Some t => running t | None => false end); [by apply Hy|by exists s2]. }
  rewrite (bind_done _ _ _ _ _ E3). csrs. eexists. split; [reflexivity|]. split; cbn; by regs.
Qed.

(** C16. An interrupt while the kernel runs is invisible to the code it
    interrupts: when the handlers return and leave the trap registers alone,
    [kerneltrap] returns, with the program counter and the status register as
    it found them, even when the task gives up the hart and other tasks'
    traps overwrite both in between; an external interrupt that was claimed is
    completed. *)
Theorem kernel_interrupt_transparent s :
  (forall c s, is_handler c -> exists s', do_call c s = Done (tt, s') /\ same_pc s s') ->
  (forall s, exists s', do_call yield s = Done (tt, s')) ->
  Z.testbit (reg_of s sstatus) 8 = true -> Z.testbit (reg_of s sstatus) 1 = false ->
  Z.testbit (reg_of s scause) 63 = true ->
  exists s', kerneltrap s = Done (tt, s') /\ same_pc s s' /\
    (reg_of s scause = 2 ^ 63 + 9 -> exists irq b,
       bus (hart_of s') = bus_write (PLIC_SCLAIM (s32 (reg_of s' tp))) irq b /\
       irq = u32 (s32 (bus_read (PLIC_SCLAIM (s32 (reg_of s tp))) (bus (hart_of s))).1)).
Proof.
  intros Hq Hy Hspp Hsie Hi. unfold kerneltrap. csrs.
  change SSTATUS_SPP with (2 ^ 8). rewrite (proj2 (Z.eqb_neq (Z.land _ (2 ^ 8)) 0)) by (intros E%test_bit; [congruence|lia]).
  assert (on_hart intr_get s = Done (false, s)) as E.
  { unfold intr_get, on_hart, zoom, r_sstatus, csrr, bind, gets, ret. change SSTATUS_SIE with (2 ^ 1).
    rewrite (proj2 (test_bit (reg_of s sstatus) 1 ltac:(lia)) Hsie). by destruct s. }
  rewrite (bind_done _ _ _ _ _ E). clear E. unfold handle_trap. csrs.
  change SCAUSE_INTERRUPT with (2 ^ 63). rewrite (proj2 (Z.eqb_neq (Z.land _ (2 ^ 63)) 0)) by (intros E%test_bit; [congruence|lia]). cbn [negb].
  destruct (Z.eqb_spec (Z.ldiff (reg_of s scause) (2 ^ 63)) 1) as [E1|].
  - destruct (software_quiet s Hq Hy) as (s' & H & Hpc). exists s'. split; [done|]. split; [done|].
    intros E. rewrite E in E1. discriminate E1.
  - destruct (Z.eqb_spec (Z.ldiff (reg_of s scause) (2 ^ 63)) 9) as [E9|E9].
    + destruct (external_quiet s Hq) as (s' & H & Hpc & Hb). exists s'. done.
    + exists s. split; [done|]. split; [done|]. intros E. rewrite E in E9. by destruct E9.
Qed.

(** A user program can stop the machine: any exception that is neither a
    system call nor a page fault - an illegal instruction, a breakpoint, a
    misaligned or faulting access - ends in a panic of the kernel, not of the
    task. *)
Theorem user_exception_panics s t :
  current s = Some t -> Z.testbit (reg_of s sstatus) 8 = false ->
  0 <= reg_of s scause < 2 ^ 63 -> reg_of s scause ∉ [8; 12; 13; 15] ->
  exists msg, usertrap s = Panic msg.
Proof.
  intros Ht Hspp Hc Hn. assert (exists c, c = reg_of s scause) as [c Ec] by eauto. rewrite <- Ec in Hc, Hn.
  unfold usertrap. csrs.
  rewrite (proj2 (test_bit (reg_of s sstatus) 8 ltac:(lia)) Hspp : Z.land _ SSTATUS_SPP = 0). cbn [Z.eqb negb]. csrs.
  assert (exists s1, set_tf (set_epc (reg_of (set_reg stvec kernelvec s) sepc)) (set_reg stvec kernelvec s) = Done (tt, s1) /\
    reg_of s1 scause = c) as (s1 & E & Es).
  { unfold set_tf. cbn [current set_reg]. rewrite Ht. eexists. split; [reflexivity|]. cbn. by regs. }
  rewrite (bind_done _ _ _ _ _ E). csrs. rewrite Es.
  rewrite (proj2 (Z.eqb_neq c 8)) by set_solver.
  assert (exists msg, handle_trap s1 = Panic msg) as [msg H].
  { unfold handle_trap. csrs. rewrite Es.
    assert (Z.land c SCAUSE_INTERRUPT = 0) as ->.
    { apply (test_bit c 63); [lia|]. apply Z.bits_above_log2; [lia|]. destruct (Z.eq_dec c 0) as [->|]; [cbn; lia|].
      apply Z.log2_lt_pow2; lia. }
    cbn [Z.eqb negb]. rewrite (proj2 (Z.eqb_neq c 13)), (proj2 (Z.eqb_neq c 15)), (proj2 (Z.eqb_neq c 12)) by set_solver.
    cbn [orb]. destruct (_ || _); by eexists. }
  exists msg. by apply bind_panic.
Qed.
End Traps.

(** ** A concrete machine

    The handlers do nothing, but [yield] loses the trap registers to another
    task; no task is killed. *)
#[export] Instance demo_bus : Bus (gmap Z Z) := {
  bus_read a m := (default 0 (m !! a), m);
  bus_write a x m := <[a := x]> m
}.

#[export] Instance demo_symbols : Symbols := {
  main := 4096; timervec := 8192; kernelvec := 12288; uservec := 16384; userret := 16540; trampoline := 16384;
  usertrap_addr := 20480; timer_scratch_addr := 24576
}.

#[export] Instance demo_kernel : Kernel (gmap Z Z) := {
  do_call A c := match c in call A return machine (gmap Z Z) -> result (A * machine (gmap Z Z)) with
    | killed => fun s => Done (false, s)
    | yield => fun s => Done (tt, set_reg sepc 0 (set_reg sstatus 0 s))
    | exit_call _ => fun s => Blocked
    | uart_intr | virtio_disk_intr | virtio_gpu_intr | virtio_input_intr | wakeup_ticks | handle_pagefault
    | uart_putc _ | other_sys _ => fun s => Done (tt, s)
    end
}.

(** A user task at [pc] that traps for [cause], on hart 0. *)
Definition demo_regs (cause status pc : Z) (r : reg) : Z :=
  match r with scause => cause | sstatus => status | sepc => pc | satp => 7 | _ => 0 end.
Definition demo_task : task_t := mkTask true 65536 131072 (mkTf 0 0 0 0 0 33 13).
Definition demo_machine (cause status pc : Z) : machine (gmap Z Z) :=
  mkMachine (mkHart (demo_regs cause status pc) ∅ (fun _ _ => 0)) 41 (Some demo_task).

Lemma start_enters_supervisor_witness : exists h' : hart (gmap Z Z),
  start (mkHart (fun _ => 2 ^ 12) ∅ (fun _ _ => 0)) = Fault /\
  start (mkHart (demo_regs 0 0 0) ∅ (fun _ _ => 0)) = Done (tt, h') /\ regs h' mepc = 4096 /\
  Z.testbit (regs h' mstatus) 11 = true.
Proof.
  destruct (start_enters_supervisor (mkHart (demo_regs 0 0 0) (∅ : gmap Z Z) (fun _ _ => 0))) as (h' & H & Hm & He & _).
  { cbn. unfold NCPU. lia. }
  exists h'. split; [vm_compute; reflexivity|]. split; [exact H|]. split; [exact He|].
  rewrite Hm by lia. reflexivity.
Defined.

(** An [ecall] at 1000 comes back at 1004. *)
Lemma usertrap_returns_ready_witness : exists va satp' s' x,
  usertrap (demo_machine 8 32 1000) = Done (ToUser va satp', s') /\ user_ready x va satp' s' /\
  regs (hart_of s') sepc = 1004 /\ satp' = 2 ^ 63 + 32.
Proof.
  assert (exists va satp' s', usertrap (demo_machine 8 32 1000) = Done (ToUser va satp', s') /\
    regs (hart_of s') sepc = 1004 /\ satp' = 2 ^ 63 + 32) as (va & satp' & s' & H & Hpc & Hsatp).
  { eexists _, _, _. split; [vm_compute; reflexivity|]. split; vm_compute; reflexivity. }
  destruct (usertrap_returns_ready _ _ _ _ H) as [x Hx]. exists va, satp', s', x. split; [exact H|].
  split; [exact Hx|]. split; [exact Hpc|exact Hsatp].
Defined.

Lemma kernel_interrupt_transparent_witness : exists s',
  kerneltrap (demo_machine (2 ^ 63 + 1) 256 1000) = Done (tt, s') /\ same_pc (demo_machine (2 ^ 63 + 1) 256 1000) s'.
Proof.
  destruct (kernel_interrupt_transparent (demo_machine (2 ^ 63 + 1) 256 1000)) as (s' & H & Hpc & _).
  - intros c s Hc. unfold is_handler in Hc.
    repeat (apply elem_of_cons in Hc as [->|Hc]; [exists s; repeat split|]). by apply elem_of_nil in Hc.
  - intros s. eexists. reflexivity.
  - reflexivity.
  - reflexivity.
  - reflexivity.
  - exists s'. split; [exact H|exact Hpc].
Defined.

Lemma user_exception_panics_witness : exists msg, usertrap (demo_machine 2 32 1000) = Panic msg.
Proof.
  apply (user_exception_panics (demo_machine 2 32 1000) demo_task); [reflexivity|reflexivity|cbn; lia|].
  cbn. set_solver.
Defined.
